(* ===== verification/_CoqProject ===== *)
-Q . S2P
Xv6.v
Prelude.v
Kstring.v
Printf.v
Ulib.v
Pipe.v
Spinlock.v
Sleeplock.v
Proc.v
ProcTable.v
Sched.v
Kalloc.v
Vm.v
PageTable.v
Uvm.v
Copyuvm.v
VmDemo.v
Bio.v
Bytes.v
Blocks.v
Log.v
Crash.v
Fs.v
Tx.v
Bitmap.v
Inode.v
Content.v
Dir.v
FsDemo.v
File.v
Kernel.v
Syscall.v
Args.v
Sysproc.v
Exec.v
ExecStack.v
Sysfile.v
Frame.v
Sbrk.v
Trap.v
Fdrefs.v
Fdsys.v
Fdlife.v
SysDemo.v
Grep.v
Umalloc.v
Sh.v
ShPrint.v
ShRun.v
Console.v
ConsoleLine.v
Kbd.v
Ide.v
Uprogs.v
Mkfs.v
Mp.v
Apic.v
Seg.v
Boot.v
Usys.v
Start.v
