(* ===== verification/Xv6.v ===== *)
(** * xv6

    A verification of the xv6 operating system of this repository (the x86
    teaching kernel with process priorities, [ps], [nice], advisory file locks,
    [snprintf] and power off added), its user programs and its tool mkfs.

    ** The program and how its parts interact

    The boot loader (bootmain.c) reads the kernel from the disk.  The kernel
    (main.c) sets up memory, devices and the other processors and creates the
    first process.  A process enters the kernel by a trap (trap.c); a system
    call is dispatched by syscall.c to sysproc.c (processes), sysfile.c (files)
    or exec.c.  Those rest on the process table and scheduler (proc.c), page
    tables (vm.c) over the page allocator (kalloc.c), and the table of open
    files (file.c) over pipes (pipe.c) and the file system (fs.c).  The file
    system writes blocks through the log (log.c), the log through the buffer
    cache (bio.c), the cache to the disk (ide.c, or memide.c in memory).  All
    of them use spinlocks and sleep locks.  The console (console.c, kbd.c,
    uart.c) is a device file.  User programs (sh.c, grep.c, cat.c ...) use the
    library (printf.c, ulib.c, umalloc.c) and run on the system calls; mkfs.c
    builds the first disk image on the host.

    ** How code is written down

    Integers are [Z] with the wrap-around of their C type written out ([u8],
    [u16], [u32], [s16], [s32] below).  Memory is a function from addresses to
    bytes.  Pointers into a C array of structures are indices, pointers into
    memory are addresses.  Kernel code is in the state monad of Prelude.v: a
    computation sees the calling thread, the spinlocks it holds and the
    wakeups it has issued, and ends in [Ret] (a result), [Sleep] (it gives up
    the processor in [sleep], to be resumed), [Switch] (in [sched] otherwise),
    [Panic] (with the message of the source) or [Undef] (undefined behaviour
    of C, or a loop out of fuel).  User programs return options or runs.

    What the source does not contain is an argument: devices ([Hardware], the
    drive of Ide.v), the linker's symbols, the contents of uninitialised
    arrays, what [read] will return to a user program.  Where a component
    rests on another through an interface, the interface is a class:
    [BlockStore] (bio.c to log.c, in Blocks.v), [TxBlocks] and its contract
    (log.c to fs.c, in Tx.v), [Devices] (console.c to fs.c), [ProcEnv] (the
    rest of the kernel to proc.c, in Proc.v, given by [kernel_env] in
    Kernel.v).  Clients are proved against the interface, the implementation is
    proved to provide it.

    ** Files

    Basis.
    - Xv6: machine integers and the constants of param.h, memlayout.h, mmu.h
      and fs.h.  Prelude: the monad, tactics, hints, generic lemmas.
    - Kstring: string.c and the string instructions of x86.h.
    - Bytes: little-endian fields in block images.

    Concurrency and processes.
    - Spinlock: spinlock.c, once as the code of one processor and once as a
      step relation in which processors interleave at each access to memory.
      Shown: mutual exclusion, interrupts off inside and restored after, and
      that [acquire] and [release] of the monad summarise the C code.
    - Sleeplock: sleeplock.c and the protocol of its users: exclusion and no
      lost wakeup.
    - Proc, ProcTable, Sched: proc.c.  ProcTable shows the invariant of the
      process table for every operation, [fork], and the meeting of [exit] and
      [wait]; Sched shows [sleep] against [wakeup], [kill], the schedule, and
      what [proc_ps] reports.
    - Pipe: pipe.c as a ring that delivers all bytes in order.

    Memory.
    - Kalloc: kalloc.c; the list threaded through the free pages is a stack.
    - Vm (the code of vm.c), PageTable ([walkpgdir], [mappages]), Uvm
      ([allocuvm], [deallocuvm]), Copyuvm ([freevm], [setupkvm], [copyuvm],
      [copyout], [uva2ka]), VmDemo (a concrete address space).
    - Seg: descriptors of mmu.h, [seginit], [switchuvm], [tvinit], and the boot
      page table [entrypgdir].

    Files.
    - Bio: bio.c and memide.c; at most one buffer per block, least recently
      used replacement, [bread] returns the block.
    - Blocks, Tx: the two contracts.  Log: log.c.  Crash: atomicity of
      operations over any crash and repeated recovery, recovery at boot, and
      that the log's reservation is enough for operations of nine blocks.
    - Fs: the code of fs.c.  Bitmap ([balloc], [bfree]), Inode (encoding,
      inode cache), Content ([bmap], [readi], [writei] as one byte sequence),
      Dir ([dirlookup], [dirlink], path elements), FsDemo (a concrete disk).
    - File: file.c and [pipealloc].  Ide: ide.c; every request is served, in
      order, with the right block.
    - Mkfs: mkfs.c; the image is a file system in the sense of Fs.

    System calls.
    - Kernel: the whole state, and access to user memory through page tables.
    - Syscall, Args: syscall.c and what its checks let through.
    - Sysproc, Sysfile, Trap: sysproc.c, sysfile.c, trap.c.
    - Exec, ExecStack, Frame: exec.c, the stack it builds, all or nothing.
    - Sbrk: [sys_sbrk], [growproc] and [sys_ps] over vm.c.
    - Fdrefs, Fdsys, Fdlife: reference counts of open files are exact across
      every system call.  SysDemo: concrete states.

    Console and devices.
    - Console, ConsoleLine: console.c as a line editor; [cprintf] against the
      specification of [printf].  Kbd: kbd.c, and keystrokes from the
      controller to the reader.
    - Apic: lapic.c, ioapic.c, picirq.c, the set-up of uart.c and ide.c, and
      kshutdown.c.  Mp: mp.c.  Start: [startothers] of main.c.
    - Boot: bootmain.c.

    User programs.
    - Printf: printf.c against a specification of formats.  Ulib: ulib.c.
      Umalloc: umalloc.c; blocks never overlap and nothing is lost.
    - Sh (the parser), ShPrint (it inverts a printer), ShRun ([runcmd] and its
      descriptors), all of sh.c.
    - Grep: grep.c against the meaning of patterns.
    - Uprogs: cat.c, wc.c, echo.c, ls.c, mycat2.c.
    - Usys: init.c, the prompt loop of sh.c, rm.c, mkdir.c, ln.c, kill.c,
      nice.c, ps.c, shutdown.c, zombie.c, priorInv.c, longRunner.c,
      testflock.c, forktest.c, stressfs.c: trees of system calls, run against
      any kernel.

    ** Bounds and fuel

    Loops whose length is a C constant or a length of data recurse on that
    number.  Fuel appears where the length depends on data in memory, and a
    theorem says which fuel is enough: the length of a string for [strlen],
    [strcpy], [strcmp], [atoi]; 32 digits for [printint]; the number of buffers
    for the scan of the cache ([Bio.scan]); the pages of the range for
    [freerange]; the length of the queue for [Ide.last_of]; [INPUT_BUF] for
    the line that control-U erases; four units per character of the
    line for the parser ([Sh.parsecmd_terminates]).  Polling loops (the local APIC, the clock, the
    disk, [startothers], the boot loader) take the hypothesis that the device
    answers within the fuel.  The endless loops of init and the shell run for
    a number of rounds and lines.  The scheduler runs for any number of passes over
    the table.

    Sleeping code is resumed explicitly: the theorems on pipes, sleep locks,
    [wait] and [iderw] run the code again from where it slept.  Kernel code
    between two sleeping points runs alone: Spinlock justifies this for code
    under one lock; the theorems on the log and the process table hold for any
    sequence of the operations of different processes.

    ** Not modelled

    The assembly (bootasm.S, entry.S, entryother.S, initcode.S, swtch.S,
    trapasm.S, usys.S, vectors.S): mode switches, register switch, trap
    entries; the kernel model starts where the C code is called.  [main],
    [mpenter] and [mpmain] of main.c, which only call the initialisers in turn.
    usertests.c and snprintftest.c, which exercise what the theorems state.
    The prototypes in defs.h and user.h.  Messages mkfs prints.  The memory
    model of the processors beyond sequential consistency. *)

From stdpp Require Import base numbers.

#[global] Open Scope Z_scope.

(** ** Machine integers

    [uint], [ushort], [uchar] are integers kept in range by an explicit
    reduction; [int] is the two's complement reading of the same 32 bits. *)

Definition u32 (z : Z) : Z := z mod 2 ^ 32.
Definition u16 (z : Z) : Z := z mod 2 ^ 16.
Definition u8 (z : Z) : Z := z mod 2 ^ 8.
Definition s16 (z : Z) : Z := (z + 2 ^ 15) mod 2 ^ 16 - 2 ^ 15.
Definition s32 (z : Z) : Z := (z + 2 ^ 31) mod 2 ^ 32 - 2 ^ 31.

(** ** param.h *)

Definition NPROC : nat := 64.
#[global] Arguments NPROC : simpl never.
Definition KSTACKSIZE : Z := 4096.
Definition NCPU : nat := 8.
Definition NOFILE : nat := 16.
#[global] Arguments NOFILE : simpl never.
Definition NFILE : nat := 100.
#[global] Arguments NFILE : simpl never.
Definition NINODE : nat := 50.
#[global] Arguments NINODE : simpl never.
Definition NDEV : Z := 10.
Definition ROOTDEV : Z := 1.
Definition MAXARG : Z := 32.
Definition MAXOPBLOCKS : Z := 10.
Definition LOGSIZE : Z := MAXOPBLOCKS * 3.
Definition NBUF : nat := 30.
#[global] Arguments NBUF : simpl never.
Definition FSSIZE : Z := 2000.

(** ** memlayout.h and mmu.h *)

Definition EXTMEM : Z := 0x100000.
Definition PHYSTOP : Z := 0xE000000.
Definition DEVSPACE : Z := 0xFE000000.
Definition KERNBASE : Z := 0x80000000.
Definition KERNLINK : Z := KERNBASE + EXTMEM.
Definition PGSIZE : Z := 4096.

(** [PGROUNDUP] and [PGROUNDDOWN] on 32-bit addresses. *)
Definition PGROUNDUP (sz : Z) : Z := Z.land (u32 (sz + PGSIZE - 1)) (Z.lnot (PGSIZE - 1)).
Definition PGROUNDDOWN (a : Z) : Z := Z.land a (Z.lnot (PGSIZE - 1)).

(** ** fs.h *)

Definition ROOTINO : Z := 1.
Definition BSIZE : Z := 512.
Definition NDIRECT : Z := 12.
Definition NINDIRECT : Z := BSIZE / 4.
Definition MAXFILE : Z := NDIRECT + NINDIRECT.
Definition IPB : Z := BSIZE / 64.
Definition BPB : Z := BSIZE * 8.
Definition DIRSIZ : nat := 14.
Definition T_DIR : Z := 1.
Definition T_FILE : Z := 2.
Definition T_DEV : Z := 3.
