(* ===== verification/Prelude.v ===== *)
(** Shared vocabulary of the development: the kernel monad with its notation
    and symbolic-execution tactics, the hint database [xv6], and the generic
    lemmas on lists, bytes and machine integers the components use. *)

From Stdlib Require Export Ascii.
From stdpp Require Import base numbers list strings gmap.
From S2P Require Import Xv6.

(** ** The kernel monad

    A kernel operation runs as one thread between two scheduling points.  It
    sees the thread it runs for ([t_pid], [t_killed]), the spinlocks this CPU
    holds and the channels on which it has called [wakeup], and it ends in one
    of five ways: it returns, it goes to sleep on a channel, it gives up the CPU
    in [sched] (only proc.c does so itself), it panics, or it does something the
    C standard gives no meaning to (an out-of-bounds access, a null
    dereference). *)

(** The spinlocks of the kernel, one constructor per lock variable. *)
Inductive lockid :=
| Lkmem | Lptable | Lftable | Lbcache | Licache | Llog | Lcons | Lide | Ltime
| Lpipe (p : Z)
| Lsleep (lk : Z).

(** The sleep channels of the kernel: the addresses passed to [sleep]. *)
Inductive chan :=
| Cproc (p : nat) | Cticks | Clog | Cinput
| Cbuf (b : nat)
| Cnread (p : Z) | Cnwrite (p : Z)
| Csleeplock (lk : Z).

#[export] Instance lockid_eq_dec : EqDecision lockid.
Proof. solve_decision. Defined.
#[export] Instance chan_eq_dec : EqDecision chan.
Proof. solve_decision. Defined.

(** The thread an operation runs for: [myproc()->pid] and [myproc()->killed]. *)
Record thread := Thread { t_pid : Z; t_killed : bool }.

(** [held]: the spinlocks this CPU holds, innermost first.
    [woken]: the channels passed to [wakeup], in call order. *)
Record ctx := Ctx { me : thread; held : list lockid; woken : list chan }.

Inductive outcome (S A : Type) :=
| Ret (a : A) (c : ctx) (s : S)
| Sleep (ch : chan) (lk : lockid) (c : ctx) (s : S)
| Switch (c : ctx) (s : S)
| Panic (msg : string)
| Undef (msg : string).
Arguments Ret {S A}.
Arguments Sleep {S A}.
Arguments Switch {S A}.
Arguments Panic {S A}.
Arguments Undef {S A}.

(** Remove the innermost occurrence of a lock, or fail if it is not held. *)
Fixpoint drop_lock (l : lockid) (h : list lockid) : option (list lockid) :=
  match h with
  | [] => None
  | x :: h' => if decide (x = l) then Some h' else cons x <$> drop_lock l h'
  end.

Definition M (S A : Type) : Type := ctx -> S -> outcome S A.

Section monad.
Context {S : Type}.

Definition ret {A} (a : A) : M S A := fun c s => Ret a c s.

Definition bind {A B} (m : M S A) (k : A -> M S B) : M S B := fun c s =>
  match m c s with
  | Ret a c' s' => k a c' s'
  | Sleep ch lk c' s' => Sleep ch lk c' s'
  | Switch c' s' => Switch c' s'
  | Panic msg => Panic msg
  | Undef msg => Undef msg
  end.

Definition panic {A} (msg : string) : M S A := fun _ _ => Panic msg.
Definition undef {A} (msg : string) : M S A := fun _ _ => Undef msg.
Definition get : M S S := fun c s => Ret s c s.
Definition put (s' : S) : M S unit := fun c _ => Ret tt c s'.
Definition modify (f : S -> S) : M S unit := fun c s => Ret tt c (f s).
Definition gets {A} (f : S -> A) : M S A := fun c s => Ret (f s) c s.
Definition myproc : M S thread := fun c s => Ret (me c) c s.

(** spinlock.c [acquire]: a CPU that already holds the lock panics. *)
Definition acquire (l : lockid) : M S unit := fun c s =>
  if decide (l ∈ held c) then Panic "acquire"
  else Ret tt (Ctx (me c) (l :: held c) (woken c)) s.

(** spinlock.c [release]: a CPU that does not hold the lock panics. *)
Definition release (l : lockid) : M S unit := fun c s =>
  match drop_lock l (held c) with
  | Some h => Ret tt (Ctx (me c) h (woken c)) s
  | None => Panic "release"
  end.

(** proc.c [wakeup] as a component that does not own the process table sees
    it: [ptable.lock] is acquired and released around the scan, and the channel
    is recorded. *)
Definition wakeup (ch : chan) : M S unit := fun c s =>
  if decide (Lptable ∈ held c) then Panic "acquire"
  else Ret tt (Ctx (me c) (held c) (woken c ++ [ch])) s.

(** proc.c [sleep] as such a component sees it: [ptable.lock] is acquired, [lk]
    is released, and [sched] panics unless [ptable.lock] is the only lock left.
    The sleeping thread holds no lock; it takes [lk] again when it is woken. *)
Definition sleep {A} (ch : chan) (lk : lockid) : M S A := fun c s =>
  if decide (Lptable ∈ held c) then Panic "acquire"
  else match drop_lock lk (held c) with
       | Some [] => Sleep ch lk (Ctx (me c) [] (woken c)) s
       | Some (_ :: _) => Panic "sched locks"
       | None => Panic "release"
       end.

(** Run an operation of a component on the part of the state it owns. *)
Definition zoom {T A} (g : S -> T) (u : T -> S -> S) (m : M T A) : M S A := fun c s =>
  match m c (g s) with
  | Ret a c' t => Ret a c' (u t s)
  | Sleep ch lk c' t => Sleep ch lk c' (u t s)
  | Switch c' t => Switch c' (u t s)
  | Panic msg => Panic msg
  | Undef msg => Undef msg
  end.

End monad.

Declare Scope kmonad_scope.
Delimit Scope kmonad_scope with kmonad.
Notation "x <- m ;; k" := (bind m (fun x => k))
  (at level 100, m at next level, right associativity) : kmonad_scope.
Notation "m ;; k" := (bind m (fun _ => k))
  (at level 100, right associativity) : kmonad_scope.
#[global] Open Scope kmonad_scope.

(** ** Symbolic execution

    [mstep] executes the leading bind of a goal [m c s = ...]; [mrun] repeats
    it.  Lock operations are decided by [lock_tac], which knows the locks of a
    concrete [held] list and the hypotheses of the form [l ∉ h]. *)

Section facts.
Context {S : Type}.
Implicit Types (c : ctx) (s : S) (l : lockid) (h : list lockid).

Lemma bind_Ret {A B} (m : M S A) (k : A -> M S B) c s a c' s' :
  m c s = Ret a c' s' -> bind m k c s = k a c' s'.
Proof. unfold bind. by intros ->. Qed.

Lemma bind_Panic {A B} (m : M S A) (k : A -> M S B) c s msg :
  m c s = Panic msg -> bind m k c s = Panic msg.
Proof. unfold bind. by intros ->. Qed.

Lemma bind_Sleep {A B} (m : M S A) (k : A -> M S B) c s ch lk c' s' :
  m c s = Sleep ch lk c' s' -> bind m k c s = Sleep ch lk c' s'.
Proof. unfold bind. by intros ->. Qed.

Lemma bind_Switch {A B} (m : M S A) (k : A -> M S B) c s c' s' :
  m c s = Switch c' s' -> bind m k c s = Switch c' s'.
Proof. unfold bind. by intros ->. Qed.

Lemma bind_assoc {A B D} (m : M S A) (k : A -> M S B) (g : B -> M S D) c s :
  bind (bind m k) g c s = bind m (fun a => bind (k a) g) c s.
Proof. unfold bind. by destruct (m c s). Qed.

Lemma bind_ret {A B} (a : A) (k : A -> M S B) c s : bind (ret a) k c s = k a c s.
Proof. done. Qed.

Lemma bind_get {B} (k : S -> M S B) c s : bind get k c s = k s c s.
Proof. done. Qed.

Lemma bind_gets {A B} (f : S -> A) (k : A -> M S B) c s : bind (gets f) k c s = k (f s) c s.
Proof. done. Qed.

Lemma bind_put {B} s' (k : unit -> M S B) c s : bind (put s') k c s = k tt c s'.
Proof. done. Qed.

Lemma bind_modify {B} f (k : unit -> M S B) c s : bind (modify f) k c s = k tt c (f s).
Proof. done. Qed.

Lemma bind_myproc {B} (k : thread -> M S B) t h w s :
  bind myproc k (Ctx t h w) s = k t (Ctx t h w) s.
Proof. done. Qed.

Lemma drop_lock_head l h : drop_lock l (l :: h) = Some h.
Proof. simpl. by rewrite decide_True. Qed.

Lemma acquire_free l t h w s :
  l ∉ h -> acquire l (Ctx t h w) s = Ret tt (Ctx t (l :: h) w) s.
Proof. intros H. unfold acquire. simpl. by rewrite decide_False. Qed.

Lemma acquire_held l t h w s : l ∈ h -> acquire l (Ctx t h w) s = Panic "acquire".
Proof. intros H. unfold acquire. simpl. by rewrite decide_True. Qed.

Lemma release_head l t h w s :
  release l (Ctx t (l :: h) w) s = Ret tt (Ctx t h w) s.
Proof. unfold release. cbn [held]. by rewrite drop_lock_head. Qed.

Lemma wakeup_free ch t h w s :
  Lptable ∉ h -> wakeup ch (Ctx t h w) s = Ret tt (Ctx t h (w ++ [ch])) s.
Proof. intros H. unfold wakeup. simpl. by rewrite decide_False. Qed.

Lemma sleep_only {A} ch l t w s :
  l ≠ Lptable ->
  sleep (A := A) ch l (Ctx t [l] w) s = Sleep ch l (Ctx t [] w) s.
Proof.
  intros H. unfold sleep. cbn [held me woken]. rewrite drop_lock_head, decide_False; [done|].
  rewrite list_elem_of_singleton. congruence.
Qed.

(** Nothing runs after a [sleep] before the thread is resumed. *)
Lemma bind_sleep {A B} ch l (k : A -> M S B) c s : bind (sleep ch l) k c s = sleep ch l c s.
Proof.
  unfold bind, sleep. destruct (decide _); [done|]. by destruct (drop_lock _ _) as [[|]|].
Qed.

End facts.

Create HintDb xv6 discriminated.

(** Decide whether a lock is in a list of held locks. *)
Ltac lock_tac :=
  solve [ assumption
        | repeat (apply not_elem_of_cons; split);
          first [ discriminate | assumption | apply not_elem_of_nil | congruence ] ].

(** The primitives a single bind can start with. *)
Ltac mprim :=
  first
    [ apply acquire_free; lock_tac
    | apply release_head
    | apply wakeup_free; lock_tac
    | eassumption
    | solve [ eauto with xv6 ] ].

Ltac mstep :=
  lazymatch goal with
  | |- context [bind (bind ?m ?k) ?g ?c ?s] => rewrite (bind_assoc m k g c s)
  | |- context [bind (ret ?a) ?k ?c ?s] => rewrite (bind_ret a k c s)
  | |- context [bind get ?k ?c ?s] => rewrite (bind_get k c s)
  | |- context [bind (gets ?f) ?k ?c ?s] => rewrite (bind_gets f k c s)
  | |- context [bind (put ?x) ?k ?c ?s] => rewrite (bind_put x k c s)
  | |- context [bind (modify ?f) ?k ?c ?s] => rewrite (bind_modify f k c s)
  | |- context [bind myproc ?k (Ctx ?t ?h ?w) ?s] => rewrite (bind_myproc k t h w s)
  | |- context [bind (sleep ?ch ?l) ?k ?c ?s] => rewrite (bind_sleep ch l k c s)
  | |- context [bind ?m ?k ?c ?s] => erewrite (bind_Ret m k c s); [ | mprim ]
  end; cbv beta.

Ltac mrun := repeat mstep.

(** Steps over a first part that is known to return. *)
Ltac run E := rewrite (bind_Ret _ _ _ _ _ _ _ E).

(** Invert equations between outcomes. *)
Ltac minv :=
  repeat match goal with
  | H : Ret _ _ _ = Ret _ _ _ |- _ => injection H; clear H; intros; subst
  | H : Sleep _ _ _ _ = Sleep _ _ _ _ |- _ => injection H; clear H; intros; subst
  | H : Ret _ _ _ = Sleep _ _ _ _ |- _ => discriminate H
  | H : Switch _ _ = Switch _ _ |- _ => injection H; clear H; intros; subst
  | H : Ret _ _ _ = Switch _ _ |- _ => discriminate H
  | H : Switch _ _ = Ret _ _ _ |- _ => discriminate H
  | H : Ret _ _ _ = Panic _ |- _ => discriminate H
  | H : Ret _ _ _ = Undef _ |- _ => discriminate H
  | H : Sleep _ _ _ _ = Ret _ _ _ |- _ => discriminate H
  | H : Panic _ = Ret _ _ _ |- _ => discriminate H
  | H : Undef _ = Ret _ _ _ |- _ => discriminate H
  end.

(** ** Hoare-style reasoning

    [wp m Q R s]: run from [s] in any context, [m] returns only in states and
    with results that satisfy [Q], and gives up the CPU only in states that
    satisfy [R]. *)
Section wp.
Context {S : Type}.

Definition wp {A} (m : M S A) (Q : A -> S -> Prop) (R : S -> Prop) (s : S) : Prop :=
  forall c, match m c s with
  | Ret a _ s' => Q a s'
  | Sleep _ _ _ s' | Switch _ s' => R s'
  | Panic _ | Undef _ => True
  end.

Implicit Types (s : S) (R : S -> Prop).

Lemma wp_bind {A B} (m : M S A) (k : A -> M S B) Q R s :
  wp m (fun a s' => wp (k a) Q R s') R s -> wp (bind m k) Q R s.
Proof. intros H c. specialize (H c). unfold bind. destruct (m c s); auto. apply H. Qed.

Lemma wp_mono {A} (m : M S A) (Q Q' : A -> S -> Prop) R s :
  wp m Q R s -> (forall a s', Q a s' -> Q' a s') -> wp m Q' R s.
Proof. intros H HQ c. specialize (H c). destruct (m c s); auto. Qed.

Lemma wp_ret {A} (a : A) Q R s : Q a s -> wp (ret a) Q R s.
Proof. intros H c. done. Qed.
Lemma wp_get Q R s : Q s s -> wp get Q R s.
Proof. intros H c. done. Qed.
Lemma wp_gets {A} (f : S -> A) Q R s : Q (f s) s -> wp (gets f) Q R s.
Proof. intros H c. done. Qed.
Lemma wp_modify f Q R s : Q tt (f s) -> wp (modify f) Q R s.
Proof. intros H c. done. Qed.
Lemma wp_panic {A} msg (Q : A -> S -> Prop) R s : wp (panic msg) Q R s.
Proof. intros c. done. Qed.
Lemma wp_undef {A} msg (Q : A -> S -> Prop) R s : wp (undef msg) Q R s.
Proof. intros c. done. Qed.
Lemma wp_acquire l Q R s : Q tt s -> wp (acquire l) Q R s.
Proof. intros H c. unfold acquire. by destruct (decide _). Qed.
Lemma wp_release l Q R s : Q tt s -> wp (release l) Q R s.
Proof. intros H c. unfold release. by destruct (drop_lock _ _). Qed.
(** Code of which nothing is known. *)
Lemma wp_any {A} (m : M S A) Q R s :
  (forall a s', Q a s') -> (forall s', R s') -> wp m Q R s.
Proof. intros H1 H2 c. destruct (m c s); auto. Qed.
Lemma wp_zoom {T A} (g : S -> T) u (m : M T A) Q R s :
  (forall a t, Q a (u t s)) -> (forall t, R (u t s)) -> wp (zoom g u m) Q R s.
Proof. intros H1 H2 c. unfold zoom. destruct (m c (g s)); auto. Qed.

Lemma wp_mono_both {A} (m : M S A) (Q Q' : A -> S -> Prop) R R' s :
  wp m Q R s -> (forall a s', Q a s' -> Q' a s') -> (forall s', R s' -> R' s') -> wp m Q' R' s.
Proof. intros H HQ HR c. specialize (H c). destruct (m c s); auto. Qed.

End wp.

(** An operation of a component, by what it does to the component's state. *)
Lemma wp_zoom_in {S T A} (g : S -> T) u (m : M T A) (Q : A -> S -> Prop) (R : S -> Prop) s :
  wp m (fun a t => Q a (u t s)) (fun t => R (u t s)) (g s) -> wp (zoom g u m) Q R s.
Proof. intros H c. specialize (H c). unfold zoom. by destruct (m c (g s)). Qed.

Arguments wp : simpl never.

(** ** Machine integers *)

#[global] Arguments u32 : simpl never.
#[global] Arguments u16 : simpl never.
#[global] Arguments u8 : simpl never.
#[global] Arguments s32 : simpl never.
#[global] Arguments s16 : simpl never.

(** Linear arithmetic with the 8-, 16- and 32-bit reductions unfolded. *)
Ltac word_lia :=
  unfold u32, u16, u8, s32, s16 in *;
  change (2 ^ 32) with 4294967296 in *; change (2 ^ 31) with 2147483648 in *;
  change (2 ^ 15) with 32768 in *;
  change (2 ^ 16) with 65536 in *; change (2 ^ 8) with 256 in *;
  Z.to_euclidean_division_equations; lia.

Lemma u32_range z : 0 <= u32 z < 2 ^ 32.
Proof. word_lia. Qed.
Lemma u8_range z : 0 <= u8 z < 256.
Proof. word_lia. Qed.
Lemma s32_range z : - 2 ^ 31 <= s32 z < 2 ^ 31.
Proof. word_lia. Qed.
Lemma u32_small z : 0 <= z < 2 ^ 32 -> u32 z = z.
Proof. word_lia. Qed.
Lemma u8_small z : 0 <= z < 256 -> u8 z = z.
Proof. word_lia. Qed.
Lemma s32_small z : - 2 ^ 31 <= z < 2 ^ 31 -> s32 z = z.
Proof. word_lia. Qed.
Lemma u32_s32 z : u32 (s32 z) = u32 z.
Proof. word_lia. Qed.
Lemma u32_idemp z : u32 (u32 z) = u32 z.
Proof. word_lia. Qed.

(** Shifting left by a constant below a mask is multiplication. *)
Lemma lor_disjoint_add a b k :
  0 <= k -> 0 <= a < 2 ^ k -> Z.lor a (Z.shiftl b k) = a + b * 2 ^ k.
Proof.
  intros Hk Ha. rewrite Z.shiftl_mul_pow2 by lia.
  assert (Z.land a (b * 2 ^ k) = 0) as Hland.
  { apply Z.bits_inj'. intros n Hn. rewrite Z.land_spec, Z.bits_0.
    destruct (Z.lt_ge_cases n k).
    - rewrite Z.mul_pow2_bits_low by lia. apply andb_false_r.
    - rewrite (Z.testbit_eqb a) by lia.
      rewrite (Z.div_small a). { rewrite andb_false_l. reflexivity. }
      split; [lia|]. eapply Z.lt_le_trans; [apply Ha|]. apply Z.pow_le_mono_r; lia. }
  rewrite <- Z.lxor_lor by exact Hland. symmetry. apply Z.add_nocarry_lxor. exact Hland.
Qed.

(** Masking the low bits is rounding down. *)
Lemma land_lnot_pow2 x k : 0 <= k -> Z.land x (Z.lnot (2 ^ k - 1)) = x / 2 ^ k * 2 ^ k.
Proof.
  intros Hk. replace (2 ^ k - 1) with (Z.ones k) by (rewrite Z.ones_equiv; lia).
  rewrite <- Z.ldiff_land, Z.ldiff_ones_r, Z.shiftl_mul_pow2, Z.shiftr_div_pow2 by lia. done.
Qed.

(** Decide a boolean property of a bounded range of integers by evaluation. *)
Lemma forall_range (P : Z -> bool) (n : Z) :
  forallb P (seqZ 0 n) = true -> forall b, 0 <= b < n -> P b = true.
Proof.
  intros H b Hb. rewrite forallb_forall in H. apply H.
  apply list_elem_of_In, elem_of_seqZ. lia.
Qed.

(** Two updates of the same element. *)
Lemma alter_alter {A} (f g : A -> A) (l : list A) (i : nat) :
  alter f i (alter g i l) = alter (f ∘ g) i l.
Proof.
  apply list_eq. intros j. destruct (decide (j = i)) as [->|N].
  - rewrite !list_lookup_alter_eq. by destruct (l !! i).
  - by rewrite !list_lookup_alter_ne.
Qed.

Lemma alter_insert {A} (f : A -> A) i (l : list A) x : l !! i = Some x -> alter f i l = <[i := f x]> l.
Proof.
  intros Ex. apply list_eq. intros j. destruct (decide (j = i)) as [->|N].
  - rewrite list_lookup_alter_eq, Ex, list_lookup_insert_eq; [done|]. by apply lookup_lt_Some in Ex.
  - by rewrite list_lookup_alter_ne, list_lookup_insert_ne.
Qed.

Lemma filter_ext_in {A} (P Q : A -> Prop) `{!forall x, Decision (P x), !forall x, Decision (Q x)} (l : list A) :
  (forall x, x ∈ l -> P x <-> Q x) -> filter P l = filter Q l.
Proof.
  induction l as [|x l IH]; intros HPQ; [done|]. rewrite !filter_cons.
  rewrite IH by (intros y Hy; apply HPQ; by right).
  assert (P x <-> Q x) as Hx by (apply HPQ; by left). by destruct (decide (P x)), (decide (Q x)); try tauto.
Qed.

Lemma filter_keep {A} (P : A -> Prop) `{forall x, Decision (P x)} (l : list A) : Forall P l -> filter P l = l.
Proof. induction 1 as [|x l Hx Hl IH]; [done|]. by rewrite filter_cons_True, IH. Qed.

Lemma filter_drop {A} (P : A -> Prop) `{forall x, Decision (P x)} (l : list A) :
  (forall x, x ∈ l -> ~ P x) -> filter P l = [].
Proof.
  intros Hl. induction l as [|x l IH]; [done|]. rewrite filter_cons_False by (apply Hl; left).
  apply IH. intros y Hy. apply Hl. by right.
Qed.

(** ** Characters and string literals as bytes *)

Definition ch (a : ascii) : Z := Z.of_N (N_of_ascii a).
Arguments ch a%_char.
Fixpoint str (s : string) : list Z :=
  match s with
  | EmptyString => []
  | String a s' => ch a :: str s'
  end.
Arguments str s%_string.

Lemma ch_byte a : 0 <= ch a < 256.
Proof. unfold ch. pose proof (N_ascii_bounded a). lia. Qed.

Lemma str_bytes s : Forall (fun c => 0 <= c < 256) (str s).
Proof. induction s; cbn; constructor; auto using ch_byte. Qed.
