(* ===== verification/Kstring.v ===== *)
(** string.c: the kernel's memory and string routines.

    Memory is a total function from addresses to bytes.  Addresses are
    integers: a pointer that would run past the end of the address space is
    undefined behaviour in C, so the statements that need it ask for the ranges
    to lie below [2 ^ 32]. *)

From stdpp Require Import base numbers list strings.
From S2P Require Import Xv6 Prelude.

Definition mem : Type := Z -> Z.

(** A one-byte store. *)
Definition upd (m : mem) (a v : Z) : mem := fun x => if x =? a then v else m x.

(** Memory all of whose cells are bytes. *)
Definition wf_mem (m : mem) : Prop := forall a, 0 <= m a < 256.

(** x86.h [stosb]: [rep stosb] stores the low byte of [data]. *)
Fixpoint stosb (m : mem) (addr data : Z) (cnt : nat) : mem :=
  match cnt with
  | O => m
  | S k => stosb (upd m addr (u8 data)) (addr + 1) data k
  end.

(** A little-endian 32-bit store. *)
Definition store32 (m : mem) (a v : Z) : mem :=
  upd (upd (upd (upd m a (u8 v)) (a + 1) (u8 (Z.shiftr v 8)))
           (a + 2) (u8 (Z.shiftr v 16))) (a + 3) (u8 (Z.shiftr v 24)).

(** A little-endian 32-bit load. *)
Definition load32 (m : mem) (a : Z) : Z :=
  m a + 2 ^ 8 * m (a + 1) + 2 ^ 16 * m (a + 2) + 2 ^ 24 * m (a + 3).

(** x86.h [stosl]. *)
Fixpoint stosl (m : mem) (addr data : Z) (cnt : nat) : mem :=
  match cnt with
  | O => m
  | S k => stosl (store32 m addr data) (addr + 4) data k
  end.

Definition memset (m : mem) (dst c n : Z) : mem :=
  if (Z.rem (s32 dst) 4 =? 0) && (n mod 4 =? 0) then
    let c := Z.land c 0xFF in
    stosl m dst (Z.lor (Z.lor (Z.lor (Z.shiftl c 24) (Z.shiftl c 16)) (Z.shiftl c 8)) c)
          (Z.to_nat (n / 4))
  else stosb m dst c (Z.to_nat n).

Fixpoint memcmp (m : mem) (v1 v2 : Z) (n : nat) : Z :=
  match n with
  | O => 0
  | S k => if m v1 =? m v2 then memcmp m (v1 + 1) (v2 + 1) k else m v1 - m v2
  end.

(** The two loops of [memmove]: [*--d = *--s] and [*d++ = *s++]. *)
Fixpoint copy_down (m : mem) (d s : Z) (n : nat) : mem :=
  match n with
  | O => m
  | S k => copy_down (upd m (d - 1) (m (s - 1))) (d - 1) (s - 1) k
  end.

Fixpoint copy_up (m : mem) (d s : Z) (n : nat) : mem :=
  match n with
  | O => m
  | S k => copy_up (upd m d (m s)) (d + 1) (s + 1) k
  end.

Definition memmove (m : mem) (dst src n : Z) : mem :=
  if (src <? dst) && (dst <? src + n)
  then copy_down m (dst + n) (src + n) (Z.to_nat n)
  else copy_up m dst src (Z.to_nat n).

Definition memcpy (m : mem) (dst src n : Z) : mem := memmove m dst src n.

Fixpoint strncmp (m : mem) (p q : Z) (n : nat) : Z :=
  match n with
  | O => 0
  | S k =>
      if negb (m p =? 0) && (m p =? m q)
      then strncmp m (p + 1) (q + 1) k
      else u8 (m p) - u8 (m q)
  end.

(** The first loop of [strncpy]; it returns the memory, [s] and the value the
    counter has after the last [n--] that succeeded. *)
Fixpoint strncpy_copy (m : mem) (s t : Z) (n : nat) : mem * Z * nat :=
  match n with
  | O => (m, s, O)
  | S k =>
      let m' := upd m s (m t) in
      if m t =? 0 then (m', s + 1, k) else strncpy_copy m' (s + 1) (t + 1) k
  end.

(** The second loop of [strncpy]: [while(n-- > 0) *s++ = 0]. *)
Fixpoint zero_fill (m : mem) (s : Z) (n : nat) : mem :=
  match n with
  | O => m
  | S k => zero_fill (upd m s 0) (s + 1) k
  end.

Definition strncpy (m : mem) (s t n : Z) : mem :=
  let '(m', s', k) := strncpy_copy m s t (Z.to_nat n) in zero_fill m' s' k.

(** The loop of [safestrcpy], for a counter already decremented once. *)
Fixpoint safestrcpy_copy (m : mem) (s t : Z) (n : nat) : mem * Z :=
  match n with
  | O => (m, s)
  | S k =>
      let m' := upd m s (m t) in
      if m t =? 0 then (m', s + 1) else safestrcpy_copy m' (s + 1) (t + 1) k
  end.

Definition safestrcpy (m : mem) (s t n : Z) : mem :=
  if n <=? 0 then m
  else let '(m', s') := safestrcpy_copy m s t (Z.to_nat (n - 1)) in upd m' s' 0.

(** [strlen], with fuel for the bytes it may look at. *)
Fixpoint strlen_from (fuel : nat) (m : mem) (s n : Z) : option Z :=
  match fuel with
  | O => None
  | S f => if m (s + n) =? 0 then Some n else strlen_from f m s (n + 1)
  end.

Definition strlen (fuel : nat) (m : mem) (s : Z) : option Z := strlen_from fuel m s 0.

(** ** Reading memory as lists *)

(** The [n] bytes at [a]. *)
Definition bytes_at (m : mem) (a : Z) (n : nat) : list Z :=
  map (fun i => m (a + Z.of_nat i)) (seq 0 n).

(** Memory with the bytes of [l] stored at [a]. *)
Definition put_bytes (m : mem) (a : Z) (l : list Z) : mem := fun x =>
  if (a <=? x) && (x <? a + Z.of_nat (length l))
  then nth (Z.to_nat (x - a)) l 0 else m x.

(** The C string at [a], cut after [n] bytes. *)
Fixpoint cstr_n (m : mem) (a : Z) (n : nat) : list Z :=
  match n with
  | O => []
  | S k => if m a =? 0 then [] else m a :: cstr_n m (a + 1) k
  end.

(** ** Stores *)

(** Case analysis on the integer comparisons of a goal. *)
Ltac zcases :=
  repeat match goal with
  | |- context [?a =? ?b] => destruct (Z.eqb_spec a b)
  | |- context [?a <? ?b] => destruct (Z.ltb_spec a b)
  | |- context [?a <=? ?b] => destruct (Z.leb_spec a b)
  end.

Definition in_range (a n x : Z) : bool := (a <=? x) && (x <? a + n).

Lemma in_range_spec a n x : in_range a n x = true <-> a <= x < a + n.
Proof. unfold in_range. rewrite andb_true_iff, Z.leb_le, Z.ltb_lt. lia. Qed.

Lemma in_range_false a n x : in_range a n x = false <-> ~ (a <= x < a + n).
Proof. rewrite <- in_range_spec. destruct (in_range a n x); naive_solver. Qed.

Ltac range_cases :=
  repeat match goal with
  | |- context [in_range ?a ?n ?x] =>
      let E := fresh "E" in
      destruct (in_range a n x) eqn:E;
      [apply in_range_spec in E | apply in_range_false in E]
  end.

Lemma upd_same m a v : upd m a v a = v.
Proof. unfold upd. by rewrite Z.eqb_refl. Qed.
Lemma upd_other m a v x : x ≠ a -> upd m a v x = m x.
Proof. unfold upd. destruct (Z.eqb_spec x a); congruence. Qed.
Lemma wf_upd m a v : wf_mem m -> 0 <= v < 256 -> wf_mem (upd m a v).
Proof. intros H Hv x. unfold upd. destruct (x =? a); auto. Qed.

(** The little-endian word stores and loads are inverse, and local. *)
Lemma bytes_of_word v : 0 <= v < 2 ^ 32 ->
  u8 v + 2 ^ 8 * u8 (Z.shiftr v 8) + 2 ^ 16 * u8 (Z.shiftr v 16) + 2 ^ 24 * u8 (Z.shiftr v 24) = v.
Proof. intros Hv. rewrite !Z.shiftr_div_pow2 by lia. word_lia. Qed.

Lemma load32_store32 m a v : 0 <= v < 2 ^ 32 -> load32 (store32 m a v) a = v.
Proof.
  intros Hv. unfold load32, store32, upd. zcases; try lia. by apply bytes_of_word.
Qed.

Lemma load32_ext m m' a : (forall x, a <= x < a + 4 -> m x = m' x) -> load32 m a = load32 m' a.
Proof. intros H. unfold load32. by rewrite !H by lia. Qed.

Lemma store32_other m a v x : ~ (a <= x < a + 4) -> store32 m a v x = m x.
Proof. intros H. unfold store32, upd. zcases; lia. Qed.

Lemma load32_range m a : wf_mem m -> 0 <= load32 m a < 2 ^ 32.
Proof.
  intros H. unfold load32. pose proof (H a). pose proof (H (a + 1)). pose proof (H (a + 2)).
  pose proof (H (a + 3)). lia.
Qed.

Lemma stosb_at cnt m a c x :
  stosb m a c cnt x = if in_range a (Z.of_nat cnt) x then u8 c else m x.
Proof.
  revert m a. induction cnt as [|k IH]; intros m a; cbn [stosb].
  - range_cases; [lia | done].
  - rewrite IH. unfold upd. range_cases; zcases; try lia; done.
Qed.

Lemma stosl_at cnt m a v x :
  stosl m a v cnt x =
  if in_range a (4 * Z.of_nat cnt) x
  then u8 (Z.shiftr v (8 * ((x - a) mod 4))) else m x.
Proof.
  revert m a. induction cnt as [|k IH]; intros m a; cbn [stosl].
  - range_cases; [lia | done].
  - rewrite IH. unfold store32, upd.
    replace ((x - (a + 4)) mod 4) with ((x - a) mod 4)
      by (Z.to_euclidean_division_equations; lia).
    range_cases; zcases; try lia; try done; subst.
    + replace ((a + 3 - a) mod 4) with 3 by (Z.to_euclidean_division_equations; lia). done.
    + replace ((a + 2 - a) mod 4) with 2 by (Z.to_euclidean_division_equations; lia). done.
    + replace ((a + 1 - a) mod 4) with 1 by (Z.to_euclidean_division_equations; lia). done.
    + replace ((a - a) mod 4) with 0 by (Z.to_euclidean_division_equations; lia).
      by rewrite Z.shiftr_0_r.
Qed.

(** Every byte of the word [memset] stores four at a time is the fill byte. *)
Lemma fill_word_byte c i :
  let b := Z.land c 0xFF in
  0 <= i < 4 ->
  u8 (Z.shiftr (Z.lor (Z.lor (Z.lor (Z.shiftl b 24) (Z.shiftl b 16)) (Z.shiftl b 8)) b) (8 * i))
  = u8 c.
Proof.
  intros b Hi.
  assert (b = u8 c) as Hb by (unfold b, u8; apply (Z.land_ones c 8); lia).
  assert (0 <= b < 256) as Hr by (rewrite Hb; word_lia).
  rewrite <- Hb. clearbody b. clear Hb. apply Z.eqb_eq.
  revert i Hi. apply forall_range. revert b Hr. apply forall_range.
  vm_compute. reflexivity.
Qed.

(** [memset], word-at-a-time when the range is aligned and byte-at-a-time
    otherwise, writes the low byte of [c] to exactly the range. *)
Lemma memset_at m dst c n x :
  0 <= n ->
  memset m dst c n x = if in_range dst n x then u8 c else m x.
Proof.
  intros Hn. unfold memset.
  destruct (Z.rem (s32 dst) 4 =? 0); cbn [andb].
  - destruct (Z.eqb_spec (n mod 4) 0) as [Hm|Hm].
    + rewrite stosl_at, Z2Nat.id by (apply Z.div_pos; lia).
      replace (4 * (n / 4)) with n by (Z.to_euclidean_division_equations; lia).
      range_cases; [|done]. apply fill_word_byte. apply Z.mod_pos_bound. lia.
    + by rewrite stosb_at, Z2Nat.id by lia.
  - by rewrite stosb_at, Z2Nat.id by lia.
Qed.

(** ** memmove *)

Lemma copy_up_at n m d s x :
  d <= s \/ s + Z.of_nat n <= d ->
  copy_up m d s n x = if in_range d (Z.of_nat n) x then m (s + (x - d)) else m x.
Proof.
  revert m d s. induction n as [|k IH]; intros m d s H; cbn [copy_up].
  - range_cases; [lia | done].
  - rewrite IH by lia. unfold upd. range_cases; zcases; try lia; f_equal; lia.
Qed.

Lemma copy_down_at n m d s x :
  s <= d ->
  copy_down m d s n x =
  if in_range (d - Z.of_nat n) (Z.of_nat n) x then m (s - (d - x)) else m x.
Proof.
  revert m d s. induction n as [|k IH]; intros m d s H; cbn [copy_down].
  - range_cases; [lia | done].
  - rewrite IH by lia. unfold upd. range_cases; zcases; try lia; f_equal; lia.
Qed.

Lemma memmove_at m dst src n x :
  0 <= n ->
  memmove m dst src n x = if in_range dst n x then m (src + (x - dst)) else m x.
Proof.
  intros Hn. unfold memmove.
  destruct (Z.ltb_spec src dst); destruct (Z.ltb_spec dst (src + n)); cbn [andb].
  - rewrite copy_down_at by lia. rewrite Z2Nat.id by lia.
    replace (dst + n - n) with dst by lia. range_cases; [f_equal; lia | done].
  - rewrite copy_up_at by lia. by rewrite Z2Nat.id by lia.
  - rewrite copy_up_at by lia. by rewrite Z2Nat.id by lia.
  - rewrite copy_up_at by lia. by rewrite Z2Nat.id by lia.
Qed.

(** ** Strings *)

Lemma cstr_n_length m a n : (length (cstr_n m a n) <= n)%nat.
Proof.
  revert a. induction n as [|k IH]; intros a; simpl; [lia|].
  destruct (m a =? 0); simpl; [lia | specialize (IH (a + 1)); lia].
Qed.

Lemma cstr_n_lookup m a n i b :
  cstr_n m a n !! i = Some b -> b = m (a + Z.of_nat i) /\ b ≠ 0.
Proof.
  revert a i. induction n as [|k IH]; intros a i; simpl; [done|].
  destruct (Z.eqb_spec (m a) 0); [done|].
  destruct i as [|i]; simpl.
  - intros [= <-]. by rewrite Z.add_0_r.
  - intros H. apply IH in H. replace (a + Z.of_nat (S i)) with (a + 1 + Z.of_nat i) by lia. done.
Qed.

(** The C string ends at a NUL or fills the [n] bytes. *)
Lemma cstr_n_end m a n :
  (length (cstr_n m a n) < n)%nat -> m (a + Z.of_nat (length (cstr_n m a n))) = 0.
Proof.
  revert a. induction n as [|k IH]; intros a; simpl; [lia|].
  destruct (Z.eqb_spec (m a) 0) as [E|E]; simpl.
  - by rewrite Z.add_0_r.
  - intros H. replace (a + Z.of_nat (S (length (cstr_n m (a + 1) k))))
      with (a + 1 + Z.of_nat (length (cstr_n m (a + 1) k))) by lia.
    apply IH. lia.
Qed.

Lemma memcmp_zero n m p q :
  memcmp m p q n = 0 <-> bytes_at m p n = bytes_at m q n.
Proof.
  unfold bytes_at. revert p q. induction n as [|k IH]; intros p q; [done|].
  assert (forall a, map (fun i => m (a + Z.of_nat i)) (seq 0 (S k)) =
           m a :: map (fun i => m (a + 1 + Z.of_nat i)) (seq 0 k)) as Hs.
  { intros a. cbn [seq map]. rewrite Z.add_0_r. f_equal.
    rewrite <- seq_shift, map_map. apply map_ext. intros i. f_equal. lia. }
  rewrite !Hs. cbn [memcmp]. destruct (Z.eqb_spec (m p) (m q)) as [E|E].
  - rewrite IH, E. split; [by intros -> | by intros [= ->]].
  - split; [lia | intros [= ?]; congruence].
Qed.

Lemma strncmp_zero n m p q :
  wf_mem m -> strncmp m p q n = 0 <-> cstr_n m p n = cstr_n m q n.
Proof.
  intros W. revert p q. induction n as [|k IH]; intros p q; [done|].
  cbn [strncmp cstr_n]. rewrite !u8_small by apply W.
  destruct (Z.eqb_spec (m p) 0) as [P0|P0]; cbn [negb andb].
  - destruct (Z.eqb_spec (m q) 0) as [Q0|Q0]; [rewrite P0, Q0; done|].
    split; [lia | done].
  - destruct (Z.eqb_spec (m p) (m q)) as [E|E].
    + rewrite IH, E. rewrite (proj2 (Z.eqb_neq (m q) 0)) by congruence.
      split; [by intros -> | by intros [= ->]].
    + destruct (Z.eqb_spec (m q) 0) as [Q0|Q0]; [split; [lia | done]|].
      split; [lia | intros [= ?]; congruence].
Qed.

Lemma zero_fill_at n m s x :
  zero_fill m s n x = if in_range s (Z.of_nat n) x then 0 else m x.
Proof.
  revert m s. induction n as [|k IH]; intros m s; cbn [zero_fill].
  - range_cases; [lia | done].
  - rewrite IH. unfold upd. range_cases; zcases; try lia; done.
Qed.

Lemma cstr_n_ext m m' a n :
  (forall x, a <= x < a + Z.of_nat n -> m x = m' x) -> cstr_n m a n = cstr_n m' a n.
Proof.
  revert a. induction n as [|k IH]; intros a H; [done|]. cbn [cstr_n].
  rewrite <- (H a) by lia. destruct (m a =? 0); [done|]. f_equal. apply IH. intros. apply H. lia.
Qed.

(** Two ranges of [n] bytes that do not overlap. *)
Definition apart (s t n : Z) : Prop := s + n <= t \/ t + n <= s.

Lemma cstr_n_upd m a n d v :
  ~ (a <= d < a + Z.of_nat n) -> cstr_n (upd m d v) a n = cstr_n m a n.
Proof. intros H. apply cstr_n_ext. intros x Hx. apply upd_other. lia. Qed.

(** What both copy loops do: they store the string, the NUL if they reached it,
    and stop just behind it. *)
Definition copied (m : mem) (s t : Z) (n : nat) : Z :=
  let l := Z.of_nat (length (cstr_n m t n)) in if l <? Z.of_nat n then l + 1 else l.

Lemma nth_cons_shift (b : Z) l i :
  0 < i -> nth (Z.to_nat i) (b :: l) 0 = nth (Z.to_nat (i - 1)) l 0.
Proof. intros H. destruct (Z.to_nat i) eqn:E; [lia|]. cbn [nth]. f_equal. lia. Qed.

(** Equality of the triples the copy loops return. *)
Ltac copy_eq := apply pair_equal_spec; split; [apply pair_equal_spec; split; [done | lia] | lia].

Lemma strncpy_copy_at n m s t :
  apart s t (Z.of_nat n) ->
  let l := copied m s t n in
  0 <= l <= Z.of_nat n /\
  exists m', strncpy_copy m s t n = (m', s + l, Z.to_nat (Z.of_nat n - l)) /\
    forall x, m' x = if in_range s l x then nth (Z.to_nat (x - s)) (cstr_n m t n) 0 else m x.
Proof.
  revert m s t. induction n as [|k IH]; intros m s t A l.
  - change l with 0. split; [done|]. exists m. cbn. rewrite Z.add_0_r. split; [done|].
    intros x. range_cases; [lia | done].
  - assert (s ≠ t) as Hst by (unfold apart in A; lia).
    unfold l, copied. cbn [strncpy_copy cstr_n]. destruct (Z.eqb_spec (m t) 0) as [E|E].
    + cbn [length]. change (Z.of_nat 0 <? Z.of_nat (S k)) with true. cbv iota.
      split; [lia|]. exists (upd m s (m t)). split; [by copy_eq |].
      intros x. unfold upd. range_cases; zcases; try lia; try done.
      subst x. rewrite Z.sub_diag. cbn. done.
    + destruct (IH (upd m s (m t)) (s + 1) (t + 1)) as [Hl (m' & Em & Hm')].
      { unfold apart in *. lia. }
      assert (cstr_n (upd m s (m t)) (t + 1) k = cstr_n m (t + 1) k) as Ec.
      { apply cstr_n_upd. unfold apart in A. lia. }
      unfold copied in *. rewrite Ec in *. cbn [length].
      destruct (Z.ltb_spec (Z.of_nat (length (cstr_n m (t + 1) k))) (Z.of_nat k));
        destruct (Z.ltb_spec (Z.of_nat (S (length (cstr_n m (t + 1) k)))) (Z.of_nat (S k)));
        try lia; (split; [lia|]); exists m'; rewrite Em; (split; [copy_eq |]);
        intros x; rewrite Hm'; unfold upd; range_cases; zcases; try lia; try done;
        (first [ rewrite nth_cons_shift by lia; f_equal; lia
               | subst x; rewrite Z.sub_diag; done ]).
Qed.

Lemma strncpy_at m s t n x :
  0 <= n -> apart s t n ->
  strncpy m s t n x =
  if in_range s n x then nth (Z.to_nat (x - s)) (cstr_n m t (Z.to_nat n)) 0 else m x.
Proof.
  intros Hn A. unfold strncpy.
  destruct (strncpy_copy_at (Z.to_nat n) m s t) as [Hl (m' & -> & Hm')].
  { by rewrite Z2Nat.id. }
  rewrite zero_fill_at, Hm'. rewrite !Z2Nat.id in * by lia.
  set (l := copied m s t (Z.to_nat n)) in *.
  assert (Z.of_nat (length (cstr_n m t (Z.to_nat n))) <= l) as Hlen.
  { unfold l, copied. destruct (Z.ltb_spec (Z.of_nat (length (cstr_n m t (Z.to_nat n))))
      (Z.of_nat (Z.to_nat n))); lia. }
  range_cases; try lia; try done.
  rewrite nth_overflow; [done | lia].
Qed.

(** The loop of [safestrcpy] is the first loop of [strncpy]. *)
Lemma safestrcpy_copy_eq n m s t : safestrcpy_copy m s t n = (strncpy_copy m s t n).1.
Proof.
  revert m s t. induction n as [|k IH]; intros m s t; [done|].
  cbn. destruct (m t =? 0); [done | apply IH].
Qed.

Lemma safestrcpy_at m s t n x :
  0 < n -> apart s t n ->
  let l := cstr_n m t (Z.to_nat (n - 1)) in
  (s <= x < s + Z.of_nat (length l) -> safestrcpy m s t n x = nth (Z.to_nat (x - s)) l 0) /\
  (x = s + Z.of_nat (length l) -> safestrcpy m s t n x = 0) /\
  (~ (s <= x < s + n) -> safestrcpy m s t n x = m x) /\
  Z.of_nat (length l) < n.
Proof.
  intros Hn A l. unfold safestrcpy. destruct (Z.leb_spec n 0); [lia|].
  rewrite safestrcpy_copy_eq.
  destruct (strncpy_copy_at (Z.to_nat (n - 1)) m s t) as [Hl (m' & -> & Hm')].
  { unfold apart in *. lia. }
  cbn [fst]. unfold copied in *. fold l in Hl, Hm' |- *.
  pose proof (cstr_n_length m t (Z.to_nat (n - 1))) as HL. fold l in HL.
  destruct (Z.ltb_spec (Z.of_nat (length l)) (Z.of_nat (Z.to_nat (n - 1))));
    (split; [|split; [|split]]); try lia;
    intros Hx; unfold upd; zcases; try lia; rewrite Hm'; range_cases; try lia; try done.
  subst x. rewrite nth_overflow; [done | lia].
Qed.

Lemma strlen_from_spec f m s n k :
  0 <= k -> m (s + n + k) = 0 -> (forall i, 0 <= i < k -> m (s + n + i) ≠ 0) ->
  (Z.to_nat k < f)%nat -> strlen_from f m s n = Some (n + k).
Proof.
  revert n k. induction f as [|f IH]; intros n k Hk H0 Hne Hf; [lia|]. cbn.
  destruct (Z.eqb_spec (m (s + n)) 0) as [E|E].
  - destruct (Z.eq_dec k 0); [f_equal; lia|]. exfalso. apply (Hne 0); [lia|]. by rewrite Z.add_0_r.
  - assert (k ≠ 0). { intros ->. rewrite Z.add_0_r in H0. done. }
    rewrite (IH (n + 1) (k - 1)); [f_equal; lia|lia| | |lia].
    + rewrite <- H0. f_equal. lia.
    + intros i Hi. replace (s + (n + 1) + i) with (s + n + (i + 1)) by lia. apply Hne. lia.
Qed.

(** ** The claims *)

(** [memmove] copies the source as it was before the call, however the two
    ranges overlap, and changes nothing outside the destination. *)
Theorem memmove_correct m dst src n :
  0 <= n ->
  (forall i, 0 <= i < n -> memmove m dst src n (dst + i) = m (src + i)) /\
  (forall x, ~ (dst <= x < dst + n) -> memmove m dst src n x = m x).
Proof.
  intros Hn. split.
  - intros i Hi. rewrite memmove_at by done. range_cases; [f_equal; lia | lia].
  - intros x Hx. rewrite memmove_at by done. range_cases; [lia | done].
Qed.

Lemma memmove_correct_witness :
  memmove (fun a => a * a) 11 10 3 13 = 144.
Proof. exact (proj1 (memmove_correct (fun a => a * a) 11 10 3 ltac:(lia)) 2 ltac:(lia)). Defined.

(** [memset] stores the low byte of [c] in every cell of the range and in
    no other, both when it fills four bytes at a time and when it does not. *)
Theorem memset_correct m dst c n :
  0 <= n ->
  (forall x, dst <= x < dst + n -> memset m dst c n x = u8 c) /\
  (forall x, ~ (dst <= x < dst + n) -> memset m dst c n x = m x).
Proof.
  intros Hn. split; intros x Hx; rewrite memset_at by done; range_cases; try lia; done.
Qed.

Lemma memset_correct_witness : memset (fun _ => 7) 4096 (-1) 8 4103 = 255.
Proof. apply (proj1 (memset_correct (fun _ => 7) 4096 (-1) 8 ltac:(lia)) 4103 ltac:(lia)). Defined.

(** [safestrcpy] leaves the source string, cut to [n - 1] bytes, at the
    destination with a NUL inside the [n] bytes, and touches nothing else. *)
Theorem safestrcpy_correct m s t n :
  0 < n -> apart s t n ->
  let l := cstr_n m t (Z.to_nat (n - 1)) in
  cstr_n (safestrcpy m s t n) s (Z.to_nat n) = l /\
  Z.of_nat (length l) < n /\
  forall x, ~ (s <= x < s + n) -> safestrcpy m s t n x = m x.
Proof.
  intros Hn A l.
  assert (Z.of_nat (length l) < n) as Hl by apply (safestrcpy_at m s t n s Hn A).
  split; [|split; [done | intros x; apply (safestrcpy_at m s t n x Hn A)]].
  assert (forall k i, (i + k = length l)%nat ->
    cstr_n (safestrcpy m s t n) (s + Z.of_nat i) (Z.to_nat n - i) = drop i l) as H.
  { induction k as [|k IH]; intros i Hi.
    - destruct (Z.to_nat n - i)%nat as [|f] eqn:Ef; [lia|]. cbn [cstr_n].
      destruct (safestrcpy_at m s t n (s + Z.of_nat i) Hn A) as (_ & -> & _); [|fold l; lia].
      by rewrite Z.eqb_refl, drop_ge by lia.
    - destruct (Z.to_nat n - i)%nat as [|f] eqn:Ef; [lia|]. cbn [cstr_n].
      destruct (safestrcpy_at m s t n (s + Z.of_nat i) Hn A) as (-> & _ & _); [|fold l; lia].
      fold l. replace (Z.to_nat (s + Z.of_nat i - s)) with i by lia.
      destruct (lookup_lt_is_Some_2 l i) as [b Hb]; [lia|].
      rewrite (nth_lookup_Some l i 0 b Hb). destruct (cstr_n_lookup _ _ _ _ _ Hb) as [_ Hb0].
      destruct (Z.eqb_spec b 0); [done|]. rewrite (drop_S l b i Hb). f_equal.
      rewrite <- (IH (S i)) by lia. f_equal; lia. }
  specialize (H (length l) O eq_refl). cbn in H. by rewrite Z.add_0_r, Nat.sub_0_r in H.
Qed.

Lemma safestrcpy_correct_witness :
  cstr_n (safestrcpy (put_bytes (fun _ => 0) 50 (str "initcode")) 10 50 5) 10 5 = str "init".
Proof.
  apply (safestrcpy_correct (put_bytes (fun _ => 0) 50 (str "initcode")) 10 50 5).
  - lia.
  - left. lia.
Defined.

(** [strncmp] returns 0 exactly when the two strings agree up to [n]
    bytes or their NUL, the equality on which directory lookup relies. *)
Theorem strncmp_correct m p q n :
  wf_mem m -> strncmp m p q n = 0 <-> cstr_n m p n = cstr_n m q n.
Proof. apply strncmp_zero. Qed.

Lemma strncmp_correct_witness : strncmp (fun _ => 65) 3 9 14 = 0.
Proof. apply strncmp_correct; [intros a; lia | reflexivity]. Defined.
