(* ===== verification/Printf.v ===== *)
(** printf.c: the user library's [printf] and [snprintf].

    [s_printf] is written over a put function that either writes a byte to a
    file descriptor or stores it in a buffer.  The model keeps that shape: the
    output state [out] holds the memory the buffer lives in and the bytes
    written to the descriptor. *)

From stdpp Require Import base numbers list strings.
From S2P Require Import Xv6 Prelude Kstring.

Record out := Out { obuf : mem; written : list Z }.

(** The two [putFunction_t] of the file. *)
Inductive putFunction := Putc | Sputc.

Definition s_putc (outbuffer length index c : Z) (st : out) : out :=
  Out (obuf st) (written st ++ [u8 c]).

Definition s_sputc (outbuffer length index c : Z) (st : out) : out :=
  if index <? length
  then Out (upd (obuf st) (outbuffer + index) (u8 c)) (written st)
  else st.

Definition put_with (f : putFunction) : Z -> Z -> Z -> Z -> out -> out :=
  match f with Putc => s_putc | Sputc => s_sputc end.

Definition digits : list Z := str "0123456789ABCDEF".

(** The digit loop of [s_getReverseDigits]: at most [length - 1] digits. *)
Fixpoint digit_loop (fuel : nat) (length base i x : Z) : list Z :=
  match fuel with
  | O => []
  | S f =>
      if (i + 1 <? length) && negb (x =? 0)
      then nth (Z.to_nat (x mod base)) digits 0 :: digit_loop f length base (i + 1) (x / base)
      else []
  end.

(** The characters stored in [outbuf], in index order. *)
Definition s_getReverseDigits (length xx base : Z) (sgn : bool) : list Z :=
  let neg := sgn && (xx <? 0) in
  let x := if neg then u32 (- xx) else u32 xx in
  let ds := digit_loop (Z.to_nat length) length base 0 x in
  let i := Z.of_nat (List.length ds) in
  let ds := if (0 =? xx) && (i + 1 <? length) then ds ++ [nth 0 digits 0] else ds in
  let i := Z.of_nat (List.length ds) in
  if neg && (i <? length) then ds ++ [ch "-"] else ds.

(** The output loop of [s_printint]: [while(--i >= 0 && j < length)]. *)
Fixpoint print_rev (f : putFunction) (outbuf length j : Z) (cs : list Z) (st : out) : out :=
  match cs with
  | [] => st
  | c :: cs' =>
      if j <? length
      then print_rev f outbuf length (j + 1) cs' (put_with f outbuf length j c st)
      else st
  end.

Definition s_printint (f : putFunction) (outbuf length xx base : Z) (sgn : bool) (st : out)
  : out * Z :=
  let buf := s_getReverseDigits 16 xx base sgn in
  (print_rev f outbuf length 0 (rev buf) st, Z.of_nat (List.length buf)).

Definition s_min (a b : Z) : Z := if a <? b then a else b.

(** [while ( *s != 0) { put(..., outindex++, *s); s++; }], with fuel for the bytes
    of the string; the string is read from the memory being written. *)
Fixpoint put_string (fuel : nat) (f : putFunction) (ob length oi s : Z) (st : out)
  : option (out * Z) :=
  match fuel with
  | O => None
  | S fu =>
      if obuf st s =? 0 then Some (st, oi)
      else put_string fu f ob length (u32 (oi + 1)) (s + 1)
             (put_with f ob length oi (obuf st s) st)
  end.

(** The same loop over the literal ["(null)"]. *)
Fixpoint put_chars (f : putFunction) (ob length oi : Z) (cs : list Z) (st : out) : out * Z :=
  match cs with
  | [] => (st, oi)
  | c :: cs' => put_chars f ob length (u32 (oi + 1)) cs' (put_with f ob length oi c st)
  end.

(** The main loop.  [ap] is the argument area; a conversion that finds no word
    there is undefined and gives [None], as does an unterminated string. *)
Fixpoint s_printf_loop (sf : nat) (f : putFunction) (ob length : Z)
    (fmt ap : list Z) (pct : bool) (oi : Z) (st : out) : option (out * Z) :=
  match fmt with
  | [] => Some (st, oi)
  | c :: fmt' =>
      if (c =? 0) || negb (oi <? length) then Some (st, oi)
      else if negb pct then
        if c =? ch "%" then s_printf_loop sf f ob length fmt' ap true oi st
        else s_printf_loop sf f ob length fmt' ap false (u32 (oi + 1))
               (put_with f ob length oi c st)
      else if c =? ch "d" then
        match ap with
        | [] => None
        | a :: ap' =>
            let '(st', r) := s_printint f (ob + oi) (u32 (length - oi)) (s32 a) 10 true st in
            s_printf_loop sf f ob length fmt' ap' false (u32 (oi + r)) st'
        end
      else if (c =? ch "x") || (c =? ch "p") then
        match ap with
        | [] => None
        | a :: ap' =>
            let '(st', r) := s_printint f (ob + oi) (u32 (length - oi)) (s32 a) 16 false st in
            s_printf_loop sf f ob length fmt' ap' false (u32 (oi + r)) st'
        end
      else if c =? ch "s" then
        match ap with
        | [] => None
        | a :: ap' =>
            match (if a =? 0 then Some (put_chars f ob length oi (str "(null)") st)
                   else put_string sf f ob length oi a st) with
            | None => None
            | Some (st', oi') => s_printf_loop sf f ob length fmt' ap' false oi' st'
            end
        end
      else if c =? ch "c" then
        match ap with
        | [] => None
        | a :: ap' =>
            s_printf_loop sf f ob length fmt' ap' false (u32 (oi + 1)) (put_with f ob length oi a st)
        end
      else if c =? ch "%" then
        s_printf_loop sf f ob length fmt' ap false (u32 (oi + 1)) (put_with f ob length oi c st)
      else
        s_printf_loop sf f ob length fmt' ap false (u32 (oi + 2))
          (put_with f ob length (u32 (oi + 1)) c (put_with f ob length oi (ch "%") st))
  end.

(** [length = n - 1] is an [int]; every use of it converts it to [uint]. *)
Definition s_printf (sf : nat) (f : putFunction) (ob n : Z) (fmt ap : list Z) (st : out)
  : option (out * Z) :=
  let length := u32 (s32 (n - 1)) in
  match s_printf_loop sf f ob length fmt ap false 0 st with
  | Some (st', oi) => Some (st', s_min length oi)
  | None => None
  end.

Definition snprintf (sf : nat) (m : mem) (outbuffer n : Z) (fmt ap : list Z) : option (mem * Z) :=
  match s_printf sf Sputc outbuffer n fmt ap (Out m []) with
  | Some (st, count) =>
      Some (if count <? u32 n then upd (obuf st) (outbuffer + count) 0 else obuf st, count)
  | None => None
  end.

(** The bytes [printf] writes to the descriptor. *)
Definition printf (sf : nat) (m : mem) (fmt ap : list Z) : option (list Z) :=
  match s_printf sf Putc 0 (2 ^ 30) fmt ap (Out m []) with
  | Some (st, _) => Some (written st)
  | None => None
  end.

Arguments s_getReverseDigits : simpl never.

(** ** Specification: the text a format produces *)

(** The bytes of the C string at [a], looked for in [fuel] cells. *)
Fixpoint cstring (fuel : nat) (m : mem) (a : Z) : option (list Z) :=
  match fuel with
  | O => None
  | S f => if m a =? 0 then Some [] else cons (u8 (m a)) <$> cstring f m (a + 1)
  end.

Definition int_text (a base : Z) (sgn : bool) : list Z :=
  rev (s_getReverseDigits 16 (s32 a) base sgn).

Definition string_text (sf : nat) (m : mem) (a : Z) : option (list Z) :=
  if a =? 0 then Some (str "(null)") else cstring sf m a.

(** The complete output for a format and its arguments, without truncation. *)
Fixpoint render (sf : nat) (m : mem) (fmt ap : list Z) (pct : bool) : option (list Z) :=
  match fmt with
  | [] => Some []
  | c :: fmt' =>
      if c =? 0 then Some []
      else if negb pct then
        if c =? ch "%" then render sf m fmt' ap true
        else cons (u8 c) <$> render sf m fmt' ap false
      else if c =? ch "d" then
        match ap with
        | [] => None
        | a :: ap' => app (int_text a 10 true) <$> render sf m fmt' ap' false
        end
      else if (c =? ch "x") || (c =? ch "p") then
        match ap with
        | [] => None
        | a :: ap' => app (int_text a 16 false) <$> render sf m fmt' ap' false
        end
      else if c =? ch "s" then
        match ap with
        | [] => None
        | a :: ap' =>
            match string_text sf m a with
            | None => None
            | Some t => app t <$> render sf m fmt' ap' false
            end
        end
      else if c =? ch "c" then
        match ap with
        | [] => None
        | a :: ap' => cons (u8 a) <$> render sf m fmt' ap' false
        end
      else if c =? ch "%" then cons (u8 c) <$> render sf m fmt' ap false
      else app [ch "%"; u8 c] <$> render sf m fmt' ap false
  end.

(** The arguments a format reads as strings. *)
Fixpoint string_args (fmt ap : list Z) (pct : bool) : list Z :=
  match fmt with
  | [] => []
  | c :: fmt' =>
      if negb pct then string_args fmt' ap (c =? ch "%")
      else if (c =? ch "d") || (c =? ch "x") || (c =? ch "p") || (c =? ch "c") then
        string_args fmt' (tail ap) false
      else if c =? ch "s" then
        match ap with
        | [] => []
        | a :: ap' => a :: string_args fmt' ap' false
        end
      else string_args fmt' ap false
  end.

(** The string at [a] and its NUL lie outside the [n] bytes at [b]. *)
Definition string_apart (sf : nat) (m : mem) (b n a : Z) : Prop :=
  forall t, cstring sf m a = Some t ->
  a + Z.of_nat (length t) < b \/ b + n <= a.

(** What putting the text [l] from index [o] on does to the output. *)
Definition emit (f : putFunction) (b L o : Z) (l : list Z) (st : out) : out :=
  match f with
  | Putc => Out (obuf st) (written st ++ l)
  | Sputc => Out (put_bytes (obuf st) (b + o) (take (Z.to_nat (L - o)) l)) (written st)
  end.

(** Outputs with the same memory contents and the same bytes written. *)
Definition out_eq (s1 s2 : out) : Prop :=
  (forall x, obuf s1 x = obuf s2 x) /\ written s1 = written s2.

#[export] Instance out_eq_equiv : Equivalence out_eq.
Proof.
  split.
  - intros s. by split.
  - intros s1 s2 [H1 H2]. split; [intros x; by rewrite H1 | done].
  - intros s1 s2 s3 [H1 H2] [H3 H4]. split; [intros x; by rewrite H1, H3 | congruence].
Qed.

Lemma put_bytes_ext m1 m2 a l x : m1 x = m2 x -> put_bytes m1 a l x = put_bytes m2 a l x.
Proof. intros H. unfold put_bytes. by rewrite H. Qed.

#[export] Instance emit_proper f b L o l : Proper (out_eq ==> out_eq) (emit f b L o l).
Proof.
  intros s1 s2 [H1 H2]. destruct f; split; simpl; try congruence; try done.
  intros x. by apply put_bytes_ext.
Qed.

(** A text that a [Putc] loop never cuts short. *)
Definition fits (f : putFunction) (L o : Z) (l : list Z) : Prop :=
  f = Putc -> o + Z.of_nat (length l) <= L.

Lemma put_bytes_app m a l1 l2 x :
  put_bytes m a (l1 ++ l2) x = put_bytes (put_bytes m a l1) (a + Z.of_nat (length l1)) l2 x.
Proof.
  unfold put_bytes. rewrite length_app.
  zcases; cbn [andb]; try lia; try done;
    first [ by rewrite app_nth1 by lia | rewrite app_nth2 by lia; f_equal; lia ].
Qed.

Lemma emit_app f b L o l1 l2 st :
  0 <= o ->
  out_eq (emit f b L o (l1 ++ l2) st)
         (emit f b L (o + Z.of_nat (length l1)) l2 (emit f b L o l1 st)).
Proof.
  intros Ho. destruct f; (split; simpl; [|done || by rewrite app_assoc]); [done|].
  intros x. rewrite take_app, put_bytes_app.
  destruct (Z.le_gt_cases (o + Z.of_nat (length l1)) L).
  - rewrite (take_ge l1) by lia. f_equal; [lia|]. f_equal. lia.
  - rewrite (proj2 (Nat.sub_0_le _ _)) by lia.
    replace (Z.to_nat (L - (o + Z.of_nat (length l1)))) with O by lia.
    rewrite !take_0. unfold put_bytes at 1. unfold put_bytes at 2. cbn [length].
    zcases; cbn [andb]; try lia; done.
Qed.

Lemma put_one f b L o c st :
  0 <= o -> out_eq (put_with f b L o c st) (emit f b L o [u8 c] st).
Proof.
  intros Ho. destruct f; [done|]. cbn. unfold s_sputc.
  destruct (Z.ltb_spec o L).
  - rewrite (take_ge [u8 c]) by (simpl; lia). split; [|done]. intros x. cbn.
    unfold upd, put_bytes. cbn [length]. zcases; cbn [andb]; try lia; try done.
    subst. by rewrite Z.sub_diag.
  - replace (Z.to_nat (L - o)) with O by lia. split; [|done]. intros x. cbn.
    unfold put_bytes. cbn [length]. zcases; cbn [andb]; try lia; done.
Qed.

Lemma emit_nil f b L o st : out_eq st (emit f b L o [] st).
Proof.
  destruct f; (split; simpl; [|by rewrite ?app_nil_r]); [done|]. intros x.
  rewrite take_nil. unfold put_bytes. cbn [length]. zcases; cbn [andb]; try lia; done.
Qed.

(** Nothing is emitted from an index at or beyond the limit. *)
Lemma emit_full f b L o l st : L <= o -> fits f L o l -> out_eq st (emit f b L o l st).
Proof.
  intros Ho Hf. destruct f.
  - destruct l; [apply emit_nil|]. unfold fits in Hf. cbn [length] in Hf.
    specialize (Hf eq_refl). lia.
  - rewrite (emit_nil Sputc b L o st) at 1. cbn.
    replace (Z.to_nat (L - o)) with O by lia. by rewrite !take_0.
Qed.

Lemma emit_shift f b L o l st : emit f (b + o) (L - o) 0 l st = emit f b L o l st.
Proof. destruct f; [done|]. cbn. by rewrite Z.add_0_r, Z.sub_0_r. Qed.

Lemma print_rev_emit f b L cs : forall j st,
  0 <= j -> Forall (fun c => 0 <= c < 256) cs -> fits f L j cs ->
  out_eq (print_rev f b L j cs st) (emit f b L j cs st).
Proof.
  induction cs as [|c cs IH]; intros j st Hj Hc Hf; cbn [print_rev]; [apply emit_nil|].
  inversion Hc as [|? ? Hc1 Hc2]; subst.
  destruct (Z.ltb_spec j L); [|by apply emit_full].
  rewrite IH; [|lia|done|].
  2: { intros E. specialize (Hf E). cbn [length] in Hf. lia. }
  rewrite put_one by done. rewrite u8_small by done.
  change (c :: cs) with ([c] ++ cs). rewrite emit_app by done. done.
Qed.

Lemma cstring_ext fuel m m' a t :
  cstring fuel m a = Some t ->
  (forall x, a <= x <= a + Z.of_nat (length t) -> m' x = m x) ->
  cstring fuel m' a = Some t.
Proof.
  revert a t. induction fuel as [|fu IH]; intros a t; [done|]. cbn.
  intros H E. rewrite (E a) by lia. destruct (m a =? 0); [done|].
  destruct (cstring fu m (a + 1)) as [t'|] eqn:Ht; [|done]. cbn in *. injection H as <-.
  rewrite (IH _ t'); [done|done|]. intros x Hx. apply E. cbn [length]. lia.
Qed.

Lemma emit_outside f b L o l st x :
  (f = Sputc -> ~ (b + o <= x < b + o + Z.of_nat (length l))) ->
  obuf (emit f b L o l st) x = obuf st x.
Proof.
  intros H. destruct f; [done|]. specialize (H eq_refl). cbn. unfold put_bytes.
  rewrite length_take. zcases; cbn [andb]; try lia; done.
Qed.

Lemma put_string_emit f b L fuel : forall oi s st t,
  cstring fuel (obuf st) s = Some t ->
  (f = Sputc -> s + Z.of_nat (length t) < b + oi \/ b + oi + Z.of_nat (length t) <= s) ->
  0 <= oi -> oi + Z.of_nat (length t) < 2 ^ 32 ->
  exists st', put_string fuel f b L oi s st = Some (st', oi + Z.of_nat (length t)) /\
    out_eq st' (emit f b L oi t st).
Proof.
  induction fuel as [|fu IH]; intros oi s st t Ht Ha H0 Hlt; [done|]. cbn in Ht |- *.
  destruct (obuf st s =? 0).
  - injection Ht as <-. exists st. cbn. rewrite Z.add_0_r. split; [done | apply emit_nil].
  - destruct (cstring fu (obuf st) (s + 1)) as [t'|] eqn:E; [|done]. injection Ht as <-.
    cbn [length] in *. rewrite u32_small by lia.
    pose proof (put_one f b L oi (obuf st s) st H0) as Hp.
    edestruct (IH (oi + 1) (s + 1) (put_with f b L oi (obuf st s) st) t') as (st' & Hst & Heq).
    + eapply cstring_ext; [exact E|]. intros x Hx. rewrite (proj1 Hp).
      apply emit_outside. intros Hf. specialize (Ha Hf). cbn [length]. lia.
    + intros Hf. specialize (Ha Hf). lia.
    + lia.
    + lia.
    + exists st'. split; [rewrite Hst; do 2 f_equal; lia|].
      rewrite Heq, Hp. change (u8 (obuf st s) :: t') with ([u8 (obuf st s)] ++ t').
      rewrite emit_app by done. done.
Qed.

Lemma put_chars_emit f b L cs : forall oi st,
  Forall (fun c => 0 <= c < 256) cs -> 0 <= oi -> oi + Z.of_nat (length cs) < 2 ^ 32 ->
  exists st', put_chars f b L oi cs st = (st', oi + Z.of_nat (length cs)) /\
    out_eq st' (emit f b L oi cs st).
Proof.
  induction cs as [|c cs IH]; intros oi st Hc H0 Hlt.
  - exists st. cbn. rewrite Z.add_0_r. split; [done | apply emit_nil].
  - inversion Hc as [|? ? Hc1 Hc2]; subst. cbn [put_chars length] in *. rewrite u32_small by lia.
    destruct (IH (oi + 1) (put_with f b L oi c st)) as (st' & Hst & Heq); [done|lia|lia|].
    exists st'. split; [rewrite Hst; f_equal; lia|].
    rewrite Heq, put_one by done. rewrite u8_small by done.
    change (c :: cs) with ([c] ++ cs). rewrite emit_app by done. done.
Qed.

Lemma nth_digits_byte i : 0 <= nth i digits 0 < 256.
Proof. do 17 (destruct i as [|i]; [vm_compute; split; congruence|]). cbn. destruct i; lia. Qed.

Lemma digit_loop_bytes fuel n base : forall i x,
  Forall (fun c => 0 <= c < 256) (digit_loop fuel n base i x).
Proof.
  induction fuel as [|fu IH]; intros i x; cbn; [done|].
  destruct ((i + 1 <? n) && negb (x =? 0)); [|done]. constructor; [apply nth_digits_byte | done].
Qed.

Lemma reverseDigits_bytes n xx base sgn :
  Forall (fun c => 0 <= c < 256) (s_getReverseDigits n xx base sgn).
Proof.
  unfold s_getReverseDigits. pose proof (digit_loop_bytes (Z.to_nat n) n base 0) as H.
  repeat (case_match; try apply Forall_app_2); auto.
  all: repeat constructor; try apply nth_digits_byte; vm_compute; congruence.
Qed.

Lemma int_text_bytes a base sgn : Forall (fun c => 0 <= c < 256) (int_text a base sgn).
Proof. apply Forall_rev, reverseDigits_bytes. Qed.

(** The memory still has its original contents outside the output area. *)
Definition agree (f : putFunction) (b T : Z) (m : mem) (st : out) : Prop :=
  forall x, (f = Sputc -> ~ (b <= x < b + T)) -> obuf st x = m x.

(** The loop, from a state and an index, returns and emits [l]. *)
Definition loop_emits (f : putFunction) (b L oi : Z) (l : list Z) (st : out)
    (r : option (out * Z)) : Prop :=
  exists st' oi', r = Some (st', oi') /\ out_eq st' (emit f b L oi l st) /\
    s_min L oi' = s_min L (oi + Z.of_nat (length l)).

(** Emitting one item and going on. *)
Lemma loop_emits_app f b L T m oi t l st st1 r :
  0 <= oi -> out_eq st1 (emit f b L oi t st) -> agree f b T m st ->
  oi + Z.of_nat (length (t ++ l)) <= T ->
  (agree f b T m st1 -> loop_emits f b L (oi + Z.of_nat (length t)) l st1 r) ->
  loop_emits f b L oi (t ++ l) st r.
Proof.
  intros H0 E A HT K. destruct K as (st' & oi' & -> & E' & Hm).
  - intros x Hx. rewrite (proj1 E), emit_outside; [by apply A|].
    intros Hf. specialize (Hx Hf). rewrite length_app in HT. lia.
  - exists st', oi'. split; [done|]. split.
    + rewrite E', E, emit_app by done. done.
    + rewrite Hm. f_equal. rewrite length_app. lia.
Qed.

Lemma print_int_emit f b L oi a base sgn st :
  0 <= oi < L -> L < 2 ^ 32 -> fits f L oi (int_text a base sgn) ->
  out_eq (print_rev f (b + oi) (L - oi) 0 (rev (s_getReverseDigits 16 (s32 a) base sgn)) st)
         (emit f b L oi (int_text a base sgn) st).
Proof.
  intros Ho HL Hf. fold (int_text a base sgn).
  rewrite print_rev_emit.
  - by rewrite emit_shift.
  - lia.
  - apply int_text_bytes.
  - intros E. specialize (Hf E). lia.
Qed.

Lemma length_int_text a base sgn :
  length (s_getReverseDigits 16 (s32 a) base sgn) = length (int_text a base sgn).
Proof. unfold int_text. by rewrite length_rev. Qed.

(** A text split off the front of one that fits, fits. *)
Lemma fits_app_l f L o l1 l2 : fits f L o (l1 ++ l2) -> fits f L o l1.
Proof. intros H E. specialize (H E). rewrite length_app in H. lia. Qed.
Lemma fits_app_r f L o l1 l2 :
  fits f L o (l1 ++ l2) -> fits f L (o + Z.of_nat (length l1)) l2.
Proof. intros H E. specialize (H E). rewrite length_app in H. lia. Qed.

Ltac render_inv H :=
  match type of H with
  | _ <$> ?r = Some _ =>
      let l := fresh "l" in let E := fresh "Hr" in
      destruct r as [l|] eqn:E; cbn in H; [injection H as <- | discriminate H]
  end.

Ltac len_lia :=
  rewrite ?length_app in *; cbn [length] in *;
  change (length (str "(null)")) with 6%nat in *; lia.

(** Continue with the induction hypothesis after emitting [t]. *)
Ltac loop_next IH t :=
  eapply (loop_emits_app _ _ _ _ _ _ t); [lia | | eassumption | len_lia |];
  [ | let A := fresh in intros A; rewrite ?u32_small by len_lia;
      apply IH; try done; try len_lia; try (apply (fits_app_r _ _ _ t); done) ].

#[local] Arguments put_chars : simpl never.
#[local] Arguments str : simpl never.

Lemma s_printf_loop_emits sf f b L T m fmt : forall ap pct oi st l,
  render sf m fmt ap pct = Some l ->
  0 <= oi -> oi + Z.of_nat (length l) < 2 ^ 32 -> L < 2 ^ 32 ->
  oi + Z.of_nat (length l) <= T -> fits f L oi l ->
  (f = Sputc -> Forall (fun a => a ≠ 0 -> string_apart sf m b T a) (string_args fmt ap pct)) ->
  agree f b T m st ->
  loop_emits f b L oi l st (s_printf_loop sf f b L fmt ap pct oi st).
Proof.
  induction fmt as [|c fmt IH]; intros ap pct oi st l Hr H0 H32 HL HT Hf Hs A; cbn in Hr |- *.
  { injection Hr as <-. exists st, oi. split; [done|]. split; [apply emit_nil|].
    cbn. by rewrite Z.add_0_r. }
  destruct (Z.eqb_spec c 0) as [Hc|Hc].
  { injection Hr as <-. exists st, oi. split; [done|]. split; [apply emit_nil|].
    cbn. by rewrite Z.add_0_r. }
  destruct (Z.ltb_spec oi L) as [Hlt|Hge]; cbn [orb negb].
  2: { exists st, oi. split; [done|]. split; [by apply emit_full|].
       unfold s_min. zcases; try lia. }
  cbn [string_args] in Hs. destruct pct; cbn [negb] in *.
  2: { destruct (Z.eqb_spec c (ch "%")) as [Ep|Ep]; [by apply IH|].
       render_inv Hr. loop_next IH [u8 c]. by apply put_one. }
  destruct (Z.eqb_spec c (ch "d")) as [E1|E1].
  { cbn [orb] in Hs. destruct ap as [|a ap]; [done|]. render_inv Hr.
    cbn [s_printint]. rewrite length_int_text.
    loop_next IH (int_text a 10 true). apply print_int_emit; [lia|done|]. by eapply fits_app_l. }
  destruct ((c =? ch "x") || (c =? ch "p")) eqn:E2.
  { cbn [orb] in Hs. rewrite E2 in Hs. destruct ap as [|a ap]; [done|]. render_inv Hr.
    cbn [s_printint]. rewrite length_int_text. cbn [orb] in Hs.
    loop_next IH (int_text a 16 false). apply print_int_emit; [lia|done|]. by eapply fits_app_l. }
  cbn [orb] in Hs. rewrite E2 in Hs. cbn [orb] in Hs.
  destruct (Z.eqb_spec c (ch "s")) as [E3|E3].
  { subst c. change (ch "s" =? ch "c") with false in Hs. cbn [orb] in Hs.
    destruct ap as [|a ap]; [done|]. unfold string_text in Hr.
    destruct (Z.eqb_spec a 0) as [Ea|Ea].
    - render_inv Hr.
      destruct (put_chars_emit f b L (str "(null)") oi st) as (st' & -> & Est);
        [apply str_bytes | lia | change (length (str "(null)")) with 6%nat; cbn [length] in *; lia|].
      loop_next IH (str "(null)"); [done|].
      intros Hfs. specialize (Hs Hfs). by inversion Hs.
    - destruct (cstring sf m a) as [t|] eqn:Ht; [|done]. render_inv Hr. rewrite length_app in *.
      destruct (put_string_emit f b L sf oi a st t) as (st' & -> & Est).
      + eapply cstring_ext; [exact Ht|]. intros x Hx. apply A. intros Hfs.
        specialize (Hs Hfs). inversion Hs as [|? ? Ha]; subst. specialize (Ha Ea t Ht). lia.
      + intros Hfs. specialize (Hs Hfs). inversion Hs as [|? ? Ha]; subst.
        specialize (Ha Ea t Ht). lia.
      + lia.
      + lia.
      + loop_next IH t; [done|]. intros Hfs. specialize (Hs Hfs). by inversion Hs. }
  destruct (Z.eqb_spec c (ch "c")) as [E4|E4].
  { destruct ap as [|a ap]; [done|]. render_inv Hr. loop_next IH [u8 a]. by apply put_one. }
  destruct (Z.eqb_spec c (ch "%")) as [E5|E5].
  { render_inv Hr. loop_next IH [u8 c]. by apply put_one. }
  render_inv Hr. loop_next IH [ch "%"; u8 c].
  cbn [length] in *.
  change [ch "%"; u8 c] with ([ch "%"] ++ [u8 c]). rewrite emit_app by done.
  rewrite put_one by lia. rewrite put_one by done. done.
Qed.

(** ** Numbers *)

(** Reading the text of a number back. *)
Definition digit_val (c : Z) : Z :=
  if c <=? ch "9" then c - ch "0" else c - ch "A" + 10.

Fixpoint value_rev (base : Z) (ds : list Z) : Z :=
  match ds with
  | [] => 0
  | d :: ds' => digit_val d + base * value_rev base ds'
  end.

Definition parse_int (base : Z) (cs : list Z) : Z :=
  match cs with
  | c :: cs' => if c =? ch "-" then - value_rev base (rev cs') else value_rev base (rev cs)
  | [] => 0
  end.

Lemma digit_val_nth k : 0 <= k < 16 -> digit_val (nth (Z.to_nat k) digits 0) = k.
Proof. intros Hk. apply Z.eqb_eq. revert k Hk. apply forall_range. vm_compute. reflexivity. Qed.

Lemma nth_digits_not_minus k : nth k digits 0 ≠ ch "-".
Proof. do 17 (destruct k as [|k]; [vm_compute; congruence|]). cbn. destruct k; vm_compute; congruence. Qed.

Lemma digit_loop_value base fuel : forall i x,
  2 <= base <= 16 -> 0 <= i -> i + Z.of_nat fuel = 16 -> 0 <= x < base ^ (15 - i) ->
  value_rev base (digit_loop fuel 16 base i x) = x.
Proof.
  induction fuel as [|fu IH]; intros i x Hb Hi Hf Hx.
  { replace (15 - i) with (-1) in Hx by lia. cbn in Hx. lia. }
  cbn [digit_loop]. destruct (Z.eqb_spec x 0) as [E|E]; cbn [negb].
  { rewrite andb_false_r. done. }
  assert (i < 15). { destruct (Z.lt_ge_cases i 15); [done|].
    assert (i = 15) as -> by lia. replace (15 - 15) with 0 in Hx by lia. cbn in Hx. lia. }
  destruct (Z.ltb_spec (i + 1) 16); [|lia]. cbn [andb value_rev].
  rewrite digit_val_nth by (pose proof (Z.mod_pos_bound x base); lia).
  rewrite IH; [pose proof (Z.div_mod x base); lia | done | lia | lia|].
  split; [apply Z.div_pos; lia|]. apply Z.div_lt_upper_bound; [lia|].
  rewrite <- Z.pow_succ_r by lia. replace (Z.succ (15 - (i + 1))) with (15 - i) by lia. lia.
Qed.

Lemma digit_loop_not_minus fuel n base : forall i x, ~ In (ch "-") (digit_loop fuel n base i x).
Proof.
  induction fuel as [|fu IH]; intros i x; cbn; [auto|].
  destruct (_ && _); [|auto]. intros [E|E]; [by apply (nth_digits_not_minus _ E) | by eapply IH].
Qed.

Lemma digit_loop_length base fuel : forall i x k,
  2 <= base -> 0 <= i -> 0 <= x < base ^ k ->
  (length (digit_loop fuel 16 base i x) <= Z.to_nat k)%nat.
Proof.
  induction fuel as [|fu IH]; intros i x k Hb Hi Hx; [cbn; lia|].
  cbn [digit_loop]. destruct ((i + 1 <? 16) && negb (x =? 0)) eqn:E; [|cbn; lia].
  apply andb_true_iff in E as [_ E]. apply negb_true_iff, Z.eqb_neq in E.
  assert (0 < k). { destruct (Z.lt_ge_cases 0 k); [done|]. destruct (Z.eq_dec k 0) as [->|].
    - cbn in Hx. lia.
    - rewrite Z.pow_neg_r in Hx by lia. lia. }
  cbn [length]. specialize (IH (i + 1) (x / base) (k - 1)).
  assert (length (digit_loop fu 16 base (i + 1) (x / base)) <= Z.to_nat (k - 1))%nat; [|lia].
  apply IH; [lia | lia|]. split; [apply Z.div_pos; lia|]. apply Z.div_lt_upper_bound; [lia|].
  rewrite <- Z.pow_succ_r by lia. replace (Z.succ (k - 1)) with k by lia. lia.
Qed.

Lemma pow_base_32 base : 10 <= base -> 2 ^ 32 <= base ^ 10.
Proof. intros H. etransitivity; [|apply Z.pow_le_mono_l with (a := 10); lia]. by vm_compute. Qed.

(** The digits of a nonnegative magnitude, most significant first. *)
Lemma parse_digits base x :
  10 <= base <= 16 -> 0 <= x < 2 ^ 32 ->
  value_rev base (digit_loop 16 16 base 0 x) = x.
Proof.
  intros Hb Hx. apply digit_loop_value; [lia | lia | done|].
  pose proof (pow_base_32 base). pose proof (Z.pow_le_mono_r base 10 15). lia.
Qed.

(** A text with no sign in front is read as its digits. *)
Lemma parse_unsigned base ds :
  ~ In (ch "-") ds -> parse_int base (rev ds) = value_rev base ds.
Proof.
  intros H. unfold parse_int. destruct (rev ds) as [|c cs] eqn:E.
  - rewrite <- (rev_involutive ds), E. done.
  - rewrite <- (rev_involutive ds), E. destruct (Z.eqb_spec c (ch "-")) as [->|]; [|done].
    exfalso. apply H. apply in_rev. rewrite E. by left.
Qed.

Lemma int_text_value a base sgn :
  10 <= base <= 16 ->
  parse_int base (int_text a base sgn) = (if sgn then s32 a else u32 a).
Proof.
  intros Hb. unfold int_text, s_getReverseDigits. change (Z.to_nat 16) with 16%nat.
  pose proof (s32_range a). set (xx := s32 a) in *.
  destruct (Z.eqb_spec 0 xx) as [E0|E0].
  { rewrite <- E0. change (0 <? 0) with false. rewrite andb_false_r.
    change (digit_loop 16 16 base 0 (u32 0)) with (@nil Z).
    change (parse_int base (rev [ch "0"]) = if sgn then 0 else u32 a).
    rewrite parse_unsigned by (cbn; intros [E|[]]; vm_compute in E; congruence).
    cbn [value_rev]. rewrite Z.mul_0_r. destruct sgn; [done|].
    rewrite <- u32_s32. fold xx. by rewrite <- E0. }
  cbn [andb]. destruct (sgn && (xx <? 0)) eqn:En; cbn [andb].
  - apply andb_true_iff in En as [-> En]. apply Z.ltb_lt in En.
    rewrite u32_small by lia.
    pose proof (digit_loop_length base 16 0 (- xx) 10) as HL.
    destruct (Z.ltb_spec (Z.of_nat (length (digit_loop 16 16 base 0 (- xx)))) 16).
    + rewrite rev_app_distr. cbn [rev app parse_int]. rewrite Z.eqb_refl, rev_involutive, parse_digits; lia.
    + exfalso. pose proof (pow_base_32 base). lia.
  - rewrite parse_unsigned by apply digit_loop_not_minus.
    rewrite parse_digits by (done || apply u32_range).
    destruct sgn; [|unfold xx; apply u32_s32].
    cbn [andb] in En. apply Z.ltb_ge in En. apply u32_small. lia.
Qed.

(** ** The claims *)

Lemma put_bytes_take_nul m b l x :
  upd (put_bytes m b l) (b + Z.of_nat (length l)) 0 x = put_bytes m b (l ++ [0]) x.
Proof.
  rewrite put_bytes_app. unfold upd, put_bytes. cbn [length]. zcases; cbn [andb]; try lia; try done.
  subst x. by rewrite Z.sub_diag.
Qed.

(** The buffer [snprintf] leaves, for any value of [u32 (n - 1)]. *)
Lemma s_printf_emits sf f b n m fmt ap l :
  render sf m fmt ap false = Some l -> Z.of_nat (length l) < 2 ^ 32 ->
  fits f (u32 (s32 (n - 1))) 0 l ->
  (f = Sputc -> Forall (fun a => a ≠ 0 -> string_apart sf m b (Z.of_nat (length l)) a)
                  (string_args fmt ap false)) ->
  exists st, s_printf sf f b n fmt ap (Out m []) =
    Some (st, s_min (u32 (s32 (n - 1))) (Z.of_nat (length l))) /\
    out_eq st (emit f b (u32 (s32 (n - 1))) 0 l (Out m [])).
Proof.
  intros Hr Hl Hf Hs. unfold s_printf.
  destruct (s_printf_loop_emits sf f b (u32 (s32 (n - 1))) (Z.of_nat (length l)) m fmt
              ap false 0 (Out m []) l) as (st & oi & -> & E & Hm); try done; try lia.
  { apply u32_range. }
  exists st. by rewrite Hm.
Qed.

(** C33: [snprintf] with a positive size stores exactly the first [n - 1] bytes
    of the formatted text followed by a NUL, changes no other byte of memory,
    and returns the number of bytes stored, whatever the format and however
    long the full text is. *)
Theorem snprintf_correct sf m b n fmt ap l :
  0 < n < 2 ^ 31 ->
  render sf m fmt ap false = Some l -> Z.of_nat (length l) < 2 ^ 32 ->
  Forall (fun a => a ≠ 0 -> string_apart sf m b (Z.of_nat (length l)) a)
    (string_args fmt ap false) ->
  exists m', snprintf sf m b n fmt ap = Some (m', Z.min (n - 1) (Z.of_nat (length l))) /\
    forall x, m' x = put_bytes m b (take (Z.to_nat (n - 1)) l ++ [0]) x.
Proof.
  intros Hn Hr Hl Hs. unfold snprintf.
  destruct (s_printf_emits sf Sputc b n m fmt ap l) as (st & -> & E); try done.
  assert (u32 (s32 (n - 1)) = n - 1) as HL by (rewrite s32_small, u32_small; lia).
  rewrite HL in *.
  assert (s_min (n - 1) (Z.of_nat (length l)) = Z.min (n - 1) (Z.of_nat (length l))) as ->
    by (unfold s_min; zcases; lia).
  rewrite (u32_small n) by lia. destruct (Z.ltb_spec (Z.min (n - 1) (Z.of_nat (length l))) n); [|lia].
  eexists. split; [done|]. intros x. unfold upd at 1. rewrite (proj1 E). cbn [obuf emit].
  rewrite Z.add_0_r, Z.sub_0_r, <- put_bytes_take_nul, length_take. unfold upd.
  replace (Z.of_nat (Z.to_nat (n - 1) `min` length l)) with (Z.min (n - 1) (Z.of_nat (length l))) by lia.
  done.
Qed.

(** Memory holding the string ["ab"] at 200. *)
Definition witness_mem : mem := put_bytes (fun _ => 0) 200 [97; 98].

Lemma snprintf_correct_witness : exists m',
  snprintf 8 witness_mem 100 6 (str "%s:%d") [200; 4294967289] = Some (m', 5) /\
  bytes_at m' 100 7 = str "ab:-7" ++ [0; 0].
Proof.
  destruct (snprintf_correct 8 witness_mem 100 6 (str "%s:%d") [200; 4294967289] (str "ab:-7"))
    as (m' & H & _).
  - split; [done|]. vm_compute. reflexivity.
  - vm_compute. reflexivity.
  - vm_compute. reflexivity.
  - constructor; [|constructor]. intros _ t Ht. right. vm_compute. congruence.
  - exists m'. split; [exact H|]. revert H. vm_compute. intros [= <-]. reflexivity.
Defined.

(** [snprintf] with size 0 stores the whole formatted text in the buffer
    it was told is empty: [length = n - 1] is [-1], which every comparison
    reads as [2 ^ 32 - 1]. *)
Theorem snprintf_zero_overruns sf m b fmt ap l :
  render sf m fmt ap false = Some l -> Z.of_nat (length l) < 2 ^ 32 - 1 ->
  Forall (fun a => a ≠ 0 -> string_apart sf m b (Z.of_nat (length l)) a)
    (string_args fmt ap false) ->
  exists m', snprintf sf m b 0 fmt ap = Some (m', Z.of_nat (length l)) /\
    forall x, m' x = put_bytes m b l x.
Proof.
  intros Hr Hl Hs. unfold snprintf.
  destruct (s_printf_emits sf Sputc b 0 m fmt ap l) as (st & -> & E); try done; [lia|].
  change (u32 (s32 (0 - 1))) with (2 ^ 32 - 1) in *.
  unfold s_min. destruct (Z.ltb_spec (2 ^ 32 - 1) (Z.of_nat (length l))); [lia|].
  change (u32 0) with 0. destruct (Z.ltb_spec (Z.of_nat (length l)) 0); [lia|].
  eexists. split; [done|]. intros x. rewrite (proj1 E). cbn [obuf emit].
  rewrite Z.add_0_r, take_ge by lia. done.
Qed.

Lemma snprintf_zero_overruns_witness : exists m',
  snprintf 1 (fun _ => 7) 100 0 (str "hi") [] = Some (m', 2) /\
  bytes_at m' 100 3 = str "hi" ++ [7].
Proof.
  destruct (snprintf_zero_overruns 1 (fun _ => 7) 100 (str "hi") [] (str "hi")) as (m' & H & _).
  - vm_compute. reflexivity.
  - vm_compute. reflexivity.
  - constructor.
  - exists m'. split; [exact H|]. revert H. vm_compute. intros [= <-]. reflexivity.
Defined.

(** [printf] writes exactly the formatted text to the descriptor, for every
    text shorter than its internal limit of [2 ^ 30 - 1] bytes. *)
Theorem printf_correct sf m fmt ap l :
  render sf m fmt ap false = Some l -> Z.of_nat (length l) < 2 ^ 30 ->
  printf sf m fmt ap = Some l.
Proof.
  intros Hr Hl. unfold printf.
  destruct (s_printf_emits sf Putc 0 (2 ^ 30) m fmt ap l) as (st & -> & _ & E); try done.
  - lia.
  - intros _. change (u32 (s32 (2 ^ 30 - 1))) with (2 ^ 30 - 1). lia.
  - by rewrite E.
Qed.

Lemma printf_correct_witness :
  printf 8 witness_mem (str "%x %s%%") [255; 200] = Some (str "FF ab%").
Proof. apply printf_correct; vm_compute; reflexivity. Defined.

(** the digits [%d] and [%x] print, for every 32-bit argument including the
    most negative one, read back as that argument: the 16-byte local buffer and
    the [length - 1] limit of the digit loop never lose a digit. *)
Theorem printint_roundtrip a base sgn :
  10 <= base <= 16 ->
  parse_int base (rev (s_getReverseDigits 16 (s32 a) base sgn))
  = (if sgn then s32 a else u32 a).
Proof. apply int_text_value. Qed.

Lemma printint_roundtrip_witness :
  parse_int 10 (rev (s_getReverseDigits 16 (s32 0x80000000) 10 true)) = - 2 ^ 31.
Proof. rewrite (printint_roundtrip 0x80000000 10 true); [reflexivity | lia]. Defined.
