(* ===== verification/Ulib.v ===== *)
(** ulib.c: the user library's string routines, [gets] and [atoi]. *)

From stdpp Require Import base numbers list strings.
From S2P Require Import Xv6 Prelude Kstring Printf.

(** [strcpy], with fuel for the bytes of the source. *)
Fixpoint strcpy (fuel : nat) (m : mem) (s t : Z) : option mem :=
  match fuel with
  | O => None
  | S f =>
      let m' := upd m s (m t) in
      if m t =? 0 then Some m' else strcpy f m' (s + 1) (t + 1)
  end.

Fixpoint strcmp (fuel : nat) (m : mem) (p q : Z) : option Z :=
  match fuel with
  | O => None
  | S f =>
      if negb (m p =? 0) && (m p =? m q) then strcmp f m (p + 1) (q + 1)
      else Some (u8 (m p) - u8 (m q))
  end.

(** [strchr] gives the address of the first [c], or 0. *)
Fixpoint strchr (fuel : nat) (m : mem) (s c : Z) : option Z :=
  match fuel with
  | O => None
  | S f =>
      if m s =? 0 then Some 0
      else if m s =? c then Some s else strchr f m (s + 1) c
  end.

Definition ulib_memset (m : mem) (dst c n : Z) : mem := stosb m dst c (Z.to_nat n).

(** The loop of [gets]: [input] is what [read(0, &c, 1)] will deliver; when it
    is exhausted [read] returns less than one. *)
Fixpoint gets_loop (m : mem) (buf i max : Z) (input : list Z) : mem * Z * list Z :=
  match input with
  | [] => (m, i, [])
  | c :: rest =>
      if i + 1 <? max then
        let m' := upd m (buf + i) c in
        if (c =? 10) || (c =? 13) then (m', i + 1, rest)
        else gets_loop m' buf (i + 1) max rest
      else (m, i, input)
  end.

Definition gets (m : mem) (buf max : Z) (input : list Z) : mem * list Z :=
  let '(m', i, rest) := gets_loop m buf 0 max input in (upd m' (buf + i) 0, rest).

(** [atoi].  The arithmetic is on [int]; an overflow is undefined. *)
Fixpoint atoi_loop (fuel : nat) (m : mem) (s n : Z) : option Z :=
  match fuel with
  | O => None
  | S f =>
      let c := m s in
      if (ch "0" <=? c) && (c <=? ch "9") then
        let n' := n * 10 + c - ch "0" in
        if n * 10 + c <? 2 ^ 31 then atoi_loop f m (s + 1) n' else None
      else Some n
  end.

Definition atoi (fuel : nat) (m : mem) (s : Z) : option Z := atoi_loop fuel m s 0.

(** ulib.c's [memmove] always copies upwards. *)
Definition ulib_memmove (m : mem) (vdst vsrc n : Z) : mem := copy_up m vdst vsrc (Z.to_nat n).

(** ** Lemmas *)

Lemma strcmp_zero fuel : forall m p q sp sq,
  wf_mem m -> cstring fuel m p = Some sp -> cstring fuel m q = Some sq ->
  exists r, strcmp fuel m p q = Some r /\ (r = 0 <-> sp = sq).
Proof.
  induction fuel as [|f IH]; intros m p q sp sq W Hp Hq; [done|]. cbn in *.
  rewrite !u8_small in * by apply W.
  destruct (Z.eqb_spec (m p) 0) as [P0|P0]; cbn [negb andb].
  - eexists. split; [done|]. injection Hp as <-.
    destruct (Z.eqb_spec (m q) 0) as [Q0|Q0]; [injection Hq as <-; rewrite P0, Q0; done|].
    destruct (cstring f m (q + 1)); [injection Hq as <-; split; [lia|done] | done].
  - destruct (cstring f m (p + 1)) as [tp|] eqn:Tp; [injection Hp as <-|done].
    destruct (Z.eqb_spec (m p) (m q)) as [E|E].
    + rewrite <- E in Hq. destruct (Z.eqb_spec (m p) 0); [lia|].
      destruct (cstring f m (q + 1)) as [tq|] eqn:Tq; [injection Hq as <-|done].
      destruct (IH m (p + 1) (q + 1) tp tq W Tp Tq) as (r & -> & Hr). exists r. split; [done|].
      rewrite Hr. split; [by intros -> | by intros [= ->]].
    + eexists. split; [done|].
      destruct (Z.eqb_spec (m q) 0) as [Q0|Q0]; [injection Hq as <-; split; [lia|done]|].
      destruct (cstring f m (q + 1)); [injection Hq as <-|done].
      split; [lia | intros [= ? ?]; lia].
Qed.

(** The bytes [gets] takes from the input: up to and including the first line
    end, but at most [max - 1]. *)
Fixpoint line_of (k : nat) (input : list Z) : list Z :=
  match k, input with
  | S k', c :: rest => c :: (if (c =? 10) || (c =? 13) then [] else line_of k' rest)
  | _, _ => []
  end.

Lemma gets_loop_spec input : forall m buf i max,
  0 <= i ->
  let l := line_of (Z.to_nat (max - 1 - i)) input in
  exists m', gets_loop m buf i max input =
    (m', i + Z.of_nat (length l), drop (length l) input) /\
    forall x, m' x = put_bytes m (buf + i) l x.
Proof.
  induction input as [|c rest IH]; intros m buf i max Hi l; subst l.
  - exists m. destruct (Z.to_nat (max - 1 - i)); cbn; rewrite Z.add_0_r; (split; [done|]);
      intros x; unfold put_bytes; cbn [length]; zcases; cbn [andb]; try lia; done.
  - cbn [gets_loop]. destruct (Z.ltb_spec (i + 1) max) as [H|H].
    + destruct (Z.to_nat (max - 1 - i)) as [|k] eqn:Ek; [lia|]. cbn [line_of].
      destruct ((c =? 10) || (c =? 13)).
      * eexists. split; [done|]. intros x. unfold upd, put_bytes. cbn [length].
        zcases; cbn [andb]; try lia; try done. subst x. by rewrite Z.sub_diag.
      * destruct (IH (upd m (buf + i) c) buf (i + 1) max) as (m' & -> & Hm'); [lia|].
        replace (Z.to_nat (max - 1 - (i + 1))) with k in * by lia.
        exists m'. split.
        { cbn [length drop]. apply pair_equal_spec. split; [|done]. apply pair_equal_spec. split; [done|lia]. }
        intros x. rewrite Hm'. change (c :: line_of k rest) with ([c] ++ line_of k rest).
        rewrite put_bytes_app. cbn [length].
        replace (buf + i + Z.of_nat 1) with (buf + (i + 1)) by lia. apply put_bytes_ext.
        unfold upd, put_bytes. cbn [length]. zcases; cbn [andb]; try lia; try done.
        subst x. by rewrite Z.sub_diag.
    + exists m. replace (Z.to_nat (max - 1 - i)) with O by lia. cbn. rewrite Z.add_0_r.
      split; [done|]. intros x. unfold put_bytes. cbn [length]. zcases; cbn [andb]; try lia; done.
Qed.

Lemma length_line_of k : forall input, (length (line_of k input) <= k)%nat.
Proof.
  induction k as [|k IH]; intros [|c r]; cbn; try lia.
  destruct ((c =? 10) || (c =? 13)); cbn; [lia | specialize (IH r); lia].
Qed.

(** ** Decimal text *)

Definition is_digit (c : Z) : Prop := ch "0" <= c <= ch "9".

Definition dec_step (n c : Z) : Z := n * 10 + c - ch "0".

Lemma dec_fold_ge ds : forall n,
  0 <= n -> Forall is_digit ds -> n <= fold_left dec_step ds n.
Proof.
  induction ds as [|c ds IH]; intros n Hn Hd; cbn; [lia|].
  inversion Hd as [|? ? [H1 H2]]; subst. etransitivity; [|apply IH; [|done]];
  unfold dec_step; lia.
Qed.

Lemma atoi_loop_digits ds : forall fuel m s n,
  0 <= n -> Forall is_digit ds -> fold_left dec_step ds n < 2 ^ 31 - ch "0" ->
  (forall i c, ds !! i = Some c -> m (s + Z.of_nat i) = c) ->
  ~ is_digit (m (s + Z.of_nat (length ds))) -> (length ds < fuel)%nat ->
  atoi_loop fuel m s n = Some (fold_left dec_step ds n).
Proof.
  induction ds as [|c ds IH]; intros fuel m s n Hn Hd Hlt Hm He Hf;
    (destruct fuel as [|fuel]; [cbn in Hf; lia|]); cbn [atoi_loop].
  - cbn in He. rewrite Z.add_0_r in He. unfold is_digit in He. zcases; cbn [andb]; try lia; done.
  - assert (m s = c) as -> by (specialize (Hm O c eq_refl); rewrite Z.add_0_r in Hm; done).
    inversion Hd as [|? ? Hc Hd']; subst.
    pose proof (dec_fold_ge ds (dec_step n c)) as Hge. cbn [fold_left] in Hlt |- *.
    unfold is_digit, dec_step in *. cbn [length] in *.
    zcases; cbn [andb]; try lia; try (specialize (Hge ltac:(lia) Hd'); lia).
    + rewrite (IH fuel); try done; try lia.
      * intros i c' Hi. specialize (Hm (S i) c' Hi). rewrite <- Hm. f_equal. lia.
      * replace (s + 1 + Z.of_nat (length ds)) with (s + Z.of_nat (S (length ds))) by lia. done.
Qed.

Lemma nth_digits_dec k : 0 <= k < 10 -> is_digit (nth (Z.to_nat k) digits 0).
Proof.
  intros Hk. unfold is_digit.
  assert ((ch "0" <=? nth (Z.to_nat k) digits 0) && (nth (Z.to_nat k) digits 0 <=? ch "9") = true) as H.
  { revert k Hk. apply forall_range. vm_compute. reflexivity. }
  apply andb_true_iff in H. rewrite !Z.leb_le in H. done.
Qed.

Lemma digit_loop_dec fuel : forall i x,
  0 <= x -> Forall is_digit (digit_loop fuel 16 10 i x).
Proof.
  induction fuel as [|f IH]; intros i x Hx; cbn; [done|]. destruct (_ && _); [|done].
  constructor; [apply nth_digits_dec, Z.mod_pos_bound; lia | apply IH, Z.div_pos; lia].
Qed.

Lemma fold_rev_value ds :
  Forall is_digit ds -> fold_left dec_step (rev ds) 0 = value_rev 10 ds.
Proof.
  induction ds as [|c ds IH]; intros Hd; [done|]. inversion Hd as [|? ? Hc Hd']; subst.
  cbn [rev value_rev]. rewrite fold_left_app, IH by done. cbn. unfold dec_step, digit_val.
  unfold is_digit in Hc. destruct (Z.leb_spec c (ch "9")); lia.
Qed.

(** The text of a nonnegative [int] is made of digits only. *)
Lemma dec_text_digits a :
  0 <= a < 2 ^ 31 -> Forall is_digit (s_getReverseDigits 16 (s32 a) 10 true).
Proof.
  intros Ha. rewrite s32_small by lia. unfold s_getReverseDigits.
  destruct (Z.ltb_spec a 0); [lia|]. cbn [andb].
  destruct (_ && _); [apply Forall_app_2|]; try apply digit_loop_dec; try apply u32_range.
  repeat constructor; vm_compute; congruence.
Qed.

(** ** The claims *)

(** [atoi] inverts [%d] on nonnegative numbers: the decimal text [printf]
    produces for [a], placed anywhere in memory before a byte that is not a
    digit, is read back as [a]. *)
Theorem atoi_printf_roundtrip fuel m s a :
  0 <= a < 2 ^ 31 - ch "0" ->
  let text := rev (s_getReverseDigits 16 (s32 a) 10 true) in
  bytes_at m s (length text) = text -> ~ is_digit (m (s + Z.of_nat (length text))) ->
  (length text < fuel)%nat ->
  atoi fuel m s = Some a.
Proof.
  intros Ha text Hm He Hf.
  assert (0 <= a < 2 ^ 31) as Ha' by (pose proof (ch_byte "0"); lia).
  pose proof (dec_text_digits a Ha') as Hd.
  assert (fold_left dec_step text 0 = a) as Hv.
  { unfold text. rewrite fold_rev_value by done.
    pose proof (int_text_value a 10 true) as H. unfold int_text in H. rewrite s32_small in * by lia.
    rewrite <- (parse_unsigned 10); [apply H; lia|].
    intros Hin. rewrite Forall_forall in Hd. apply list_elem_of_In, Hd in Hin.
    destruct Hin as [Hin _]. vm_compute in Hin. congruence. }
  unfold atoi. rewrite (atoi_loop_digits text); [by rewrite Hv|lia| |lia| |done|done].
  - by apply Forall_rev.
  - intros i c Hi. rewrite <- Hm in Hi. unfold bytes_at in Hi.
    rewrite list_lookup_fmap in Hi. apply fmap_Some in Hi as (j & Hj & ->).
    apply lookup_seq in Hj as [-> _]. done.
Qed.

Lemma atoi_printf_roundtrip_witness :
  atoi 8 (put_bytes (fun _ => 0) 40 (str "1056")) 40 = Some 1056.
Proof.
  apply (atoi_printf_roundtrip 8 (put_bytes (fun _ => 0) 40 (str "1056")) 40 1056).
  - vm_compute. split; congruence.
  - vm_compute. reflexivity.
  - vm_compute. intros [H _]. congruence.
  - vm_compute. lia.
Defined.

(** [gets] stores exactly one input line, cut to [max - 1] bytes, with a
    NUL behind it, inside the [max] bytes of the buffer, and leaves the rest of
    the input unread. *)
Theorem gets_correct m buf max input :
  0 < max ->
  let l := line_of (Z.to_nat (max - 1)) input in
  (gets m buf max input).2 = drop (length l) input /\
  Z.of_nat (length l) < max /\
  forall x, (gets m buf max input).1 x = put_bytes m buf (l ++ [0]) x.
Proof.
  intros Hmax l. unfold gets.
  destruct (gets_loop_spec input m buf 0 max) as (m' & E & Hm'); [done|].
  rewrite Z.sub_0_r, Z.add_0_l, Z.add_0_r in *. fold l in E, Hm'. rewrite E. cbn [fst snd].
  pose proof (length_line_of (Z.to_nat (max - 1)) input) as HL. fold l in HL.
  split; [done|]. split; [lia|].
  intros x. rewrite <- put_bytes_take_nul. unfold upd. by rewrite Hm'.
Qed.

Lemma gets_correct_witness :
  (gets (fun _ => 9) 10 4 (str "abcdef")).2 = str "def" /\
  bytes_at (gets (fun _ => 9) 10 4 (str "abcdef")).1 10 5 = str "abc" ++ [0; 9].
Proof.
  destruct (gets_correct (fun _ => 9) 10 4 (str "abcdef")) as (H & _ & _); [lia|].
  split; [exact H | vm_compute; reflexivity].
Defined.

(** the user library's [memmove] agrees with the kernel's when the
    destination does not start inside the source, the case every caller in the
    repository is in. *)
Theorem ulib_memmove_agrees m dst src n x :
  0 <= n -> dst <= src \/ src + n <= dst ->
  ulib_memmove m dst src n x = memmove m dst src n x.
Proof.
  intros Hn H. unfold ulib_memmove.
  rewrite memmove_at, copy_up_at by lia. by rewrite Z2Nat.id.
Qed.

Lemma ulib_memmove_agrees_witness :
  ulib_memmove (fun a => a mod 256) 10 12 5 11 = memmove (fun a => a mod 256) 10 12 5 11.
Proof. apply ulib_memmove_agrees; [lia | left; lia]. Defined.

(** on a destination inside the source the user library's [memmove] copies
    bytes it has already overwritten, where the kernel's does not. *)
Theorem ulib_memmove_overlap_corrupts :
  bytes_at (ulib_memmove (fun a => a mod 256) 11 10 3) 10 4 = [10; 10; 10; 10] /\
  bytes_at (memmove (fun a => a mod 256) 11 10 3) 10 4 = [10; 10; 11; 12].
Proof. split; vm_compute; reflexivity. Qed.
