(* ===== verification/Pipe.v ===== *)
(** pipe.c: pipes.

    A pipe is a ring of [PIPESIZE] bytes with two free-running 32-bit counters.
    [pipewrite] and [piperead] sleep inside loops that re-check their condition;
    a call that sleeps ends in [Sleep] and is resumed by running the rest of its
    loop again, so [pipewrite] carries the index [i] it has reached. *)

From stdpp Require Import base numbers list strings.
From S2P Require Import Xv6 Prelude.

Definition PIPESIZE : Z := 512.

Record pipe := Pipe {
  data : list Z;
  nread : Z;
  nwrite : Z;
  readopen : bool;
  writeopen : bool }.

Definition set_data d n (p : pipe) : pipe := Pipe d (nread p) n (readopen p) (writeopen p).
Definition set_nread n (p : pipe) : pipe := Pipe (data p) n (nwrite p) (readopen p) (writeopen p).
Definition set_readopen b (p : pipe) : pipe := Pipe (data p) (nread p) (nwrite p) b (writeopen p).
Definition set_writeopen b (p : pipe) : pipe := Pipe (data p) (nread p) (nwrite p) (readopen p) b.

Section pipe.

(** The address of the pipe, which names its lock and its two channels. *)
Variable a : Z.

(** [p->data[i % PIPESIZE]] for a counter [i]. *)
Definition slot (i : Z) : nat := Z.to_nat (i mod PIPESIZE).

(** [pipeclose]; the result says whether the page was given back to [kfree]. *)
Definition pipeclose (writable : bool) : M pipe bool :=
  acquire (Lpipe a) ;;
  (if writable
   then modify (set_writeopen false) ;; wakeup (Cnread a)
   else modify (set_readopen false) ;; wakeup (Cnwrite a)) ;;
  p <- get ;;
  if negb (readopen p) && negb (writeopen p)
  then release (Lpipe a) ;; ret true
  else release (Lpipe a) ;; ret false.

(** The inner [while] of [pipewrite]: [true] when there is room, [false] when
    the call must return -1. *)
Definition pipewrite_wait : M pipe bool :=
  p <- get ;;
  if nwrite p =? u32 (nread p + PIPESIZE) then
    t <- myproc ;;
    if negb (readopen p) || t_killed t then ret false
    else wakeup (Cnread a) ;; sleep (Cnwrite a) (Lpipe a)
  else ret true.

(** The body of the [for] loop once there is room:
    [p->data[p->nwrite++ % PIPESIZE] = addr[i]]. *)
Definition pipewrite_byte (c : Z) : M pipe unit :=
  modify (fun p => set_data (<[slot (nwrite p) := c]> (data p)) (u32 (nwrite p + 1)) p).

(** The [for] loop over the bytes not yet written; [n] is the return value. *)
Fixpoint pipewrite_loop (n : Z) (addr : list Z) : M pipe Z :=
  match addr with
  | [] => wakeup (Cnread a) ;; release (Lpipe a) ;; ret n
  | c :: rest =>
      ok <- pipewrite_wait ;;
      if ok : bool then pipewrite_byte c ;; pipewrite_loop n rest
      else release (Lpipe a) ;; ret (-1)
  end.

Definition pipewrite (addr : list Z) : M pipe Z :=
  acquire (Lpipe a) ;; pipewrite_loop (Z.of_nat (length addr)) addr.

(** The [while] at the start of [piperead]; [false] when the call must return
    -1. *)
Definition piperead_wait : M pipe bool :=
  p <- get ;;
  if (nread p =? nwrite p) && writeopen p then
    t <- myproc ;;
    if t_killed t then ret false else sleep (Cnread a) (Lpipe a)
  else ret true.

(** The copy loop: at most [n] bytes, fewer if the ring runs empty. *)
Fixpoint piperead_copy (n : nat) : M pipe (list Z) :=
  match n with
  | O => ret []
  | S k =>
      p <- get ;;
      if nread p =? nwrite p then ret []
      else
        let c := nth (slot (nread p)) (data p) 0 in
        modify (set_nread (u32 (nread p + 1))) ;;
        l <- piperead_copy k ;; ret (c :: l)
  end.

(** [piperead] returns [None] for -1 and the bytes copied to [addr] otherwise. *)
Definition piperead (n : nat) : M pipe (option (list Z)) :=
  acquire (Lpipe a) ;;
  ok <- piperead_wait ;;
  if ok : bool then
    l <- piperead_copy n ;;
    wakeup (Cnwrite a) ;; release (Lpipe a) ;; ret (Some l)
  else release (Lpipe a) ;; ret None.

End pipe.

(** [pipealloc] after both [filealloc]s and [kalloc] have succeeded: the page
    keeps whatever [kalloc] left in it. *)
Definition new_pipe (junk : list Z) : pipe := Pipe junk 0 0 true true.

(** ** Specification: a bounded queue of bytes *)

(** The number of bytes in the ring, as the C code computes it. *)
Definition count (p : pipe) : Z := u32 (nwrite p - nread p).

(** The bytes in the ring, oldest first. *)
Definition contents (p : pipe) : list Z :=
  map (fun k => nth (slot (nread p + k)) (data p) 0) (seqZ 0 (count p)).

Definition pipe_inv (p : pipe) : Prop :=
  length (data p) = Z.to_nat PIPESIZE /\
  0 <= nread p < 2 ^ 32 /\ 0 <= nwrite p < 2 ^ 32 /\ count p <= PIPESIZE.

Lemma slot_u32 x : slot (u32 x) = slot x.
Proof. unfold slot, PIPESIZE. f_equal. word_lia. Qed.

Lemma slot_lt x : (slot x < Z.to_nat PIPESIZE)%nat.
Proof. unfold slot, PIPESIZE. pose proof (Z.mod_pos_bound x 512). lia. Qed.

(** Counters less than a ring apart fall on different slots. *)
Lemma slot_inj x i j :
  0 <= i < PIPESIZE -> 0 <= j < PIPESIZE -> slot (x + i) = slot (x + j) -> i = j.
Proof.
  unfold slot, PIPESIZE. intros Hi Hj H.
  apply Z2Nat.inj in H; [|apply Z.mod_pos_bound; lia..].
  Z.to_euclidean_division_equations. lia.
Qed.

Lemma count_range p : 0 <= count p < 2 ^ 32.
Proof. apply u32_range. Qed.

Lemma length_contents p : length (contents p) = Z.to_nat (count p).
Proof. unfold contents. by rewrite length_map, length_seqZ. Qed.

(** The test [p->nwrite == p->nread + PIPESIZE] is the ring being full. *)
Lemma full_test p :
  pipe_inv p -> (nwrite p =? u32 (nread p + PIPESIZE)) = (count p =? PIPESIZE).
Proof.
  intros (_ & Hr & Hw & Hc). unfold count, PIPESIZE in *.
  apply eq_true_iff_eq. rewrite !Z.eqb_eq. word_lia.
Qed.

(** The test [p->nread == p->nwrite] is the ring being empty. *)
Lemma empty_test p : pipe_inv p -> (nread p =? nwrite p) = (count p =? 0).
Proof.
  intros (_ & Hr & Hw & Hc). unfold count in *.
  apply eq_true_iff_eq. rewrite !Z.eqb_eq. word_lia.
Qed.

Lemma contents_nil p : count p = 0 -> contents p = [].
Proof. intros H. unfold contents. by rewrite H. Qed.

(** Taking the oldest byte. *)
Lemma contents_cons p :
  pipe_inv p -> 0 < count p ->
  contents p = nth (slot (nread p)) (data p) 0 :: contents (set_nread (u32 (nread p + 1)) p).
Proof.
  intros (_ & Hr & Hw & Hc) H. unfold contents.
  rewrite (seqZ_cons 0 (count p)) by lia. cbn [map]. rewrite Z.add_0_r. f_equal.
  assert (count (set_nread (u32 (nread p + 1)) p) = Z.pred (count p)) as ->.
  { unfold count, PIPESIZE in *. cbn. word_lia. }
  rewrite <- (fmap_add_seqZ 1 0) at 1. change (1 + 0) with 1. rewrite map_map.
  apply map_ext. intros k. cbn. f_equal.
  rewrite <- (slot_u32 (u32 _ + k)), <- (slot_u32 (_ + (1 + k))). f_equal. word_lia.
Qed.

Lemma take_byte_inv p :
  pipe_inv p -> 0 < count p ->
  pipe_inv (set_nread (u32 (nread p + 1)) p) /\
  count (set_nread (u32 (nread p + 1)) p) = count p - 1.
Proof.
  intros (Hd & Hr & Hw & Hc) H. unfold pipe_inv, count, PIPESIZE in *. cbn.
  pose proof (u32_range (nread p + 1)).
  assert (u32 (nwrite p - u32 (nread p + 1)) = u32 (nwrite p - nread p) - 1) by word_lia.
  repeat split; try done; lia.
Qed.

(** Storing a byte: [pipewrite_byte] as a function. *)
Definition put_byte (c : Z) (p : pipe) : pipe :=
  set_data (<[slot (nwrite p) := c]> (data p)) (u32 (nwrite p + 1)) p.

Lemma nth_insert_slot (l : list Z) i j c :
  nth i (<[j := c]> l) 0 = if decide (i = j /\ (j < length l)%nat) then c else nth i l 0.
Proof.
  destruct (decide (i = j /\ (j < length l)%nat)) as [[-> H]|H].
  - rewrite (nth_lookup_Some _ _ _ c); [done | by apply list_lookup_insert_eq].
  - destruct (decide (i = j)) as [->|Hij].
    + rewrite list_insert_ge; [done | lia].
    + rewrite !nth_lookup, list_lookup_insert_ne by done. done.
Qed.

Lemma put_byte_spec c p :
  pipe_inv p -> count p < PIPESIZE ->
  pipe_inv (put_byte c p) /\ count (put_byte c p) = count p + 1 /\
  contents (put_byte c p) = contents p ++ [c].
Proof.
  intros (Hd & Hr & Hw & Hc) H.
  assert (count (put_byte c p) = count p + 1) as Hc'.
  { unfold count, PIPESIZE in *. cbn. word_lia. }
  assert (slot (nwrite p) = slot (nread p + count p)) as Hslot.
  { rewrite <- (slot_u32 (nread p + count p)). f_equal. unfold count. word_lia. }
  split; [|split; [done|]].
  { unfold pipe_inv. cbn. rewrite length_insert. pose proof (u32_range (nwrite p + 1)).
    change (Pipe _ _ _ _ _) with (put_byte c p).
    repeat split; try done; try lia. }
  unfold contents. rewrite Hc'. pose proof (count_range p).
  rewrite (seqZ_app 0 (count p) 1) by lia. rewrite map_app. cbn [map]. f_equal.
  - apply map_ext_in. intros k Hk. apply list_elem_of_In, elem_of_seqZ in Hk.
    unfold put_byte, set_data. cbn [data nread]. rewrite nth_insert_slot. destruct (decide _) as [[E _]|]; [|done].
    rewrite Hslot in E. apply slot_inj in E; lia.
  - unfold put_byte, set_data. cbn [data nread].
    replace (seqZ (0 + count p) 1) with [count p] by (cbn; f_equal; lia). cbn [map].
    rewrite nth_insert_slot, Hslot, decide_True; [done|].
    split; [done|]. rewrite Hd. apply slot_lt.
Qed.

Lemma piperead_copy_spec n : forall p c,
  pipe_inv p ->
  exists p', piperead_copy n c p = Ret (take n (contents p)) c p' /\
    pipe_inv p' /\ contents p' = drop n (contents p) /\
    nwrite p' = nwrite p /\ readopen p' = readopen p /\ writeopen p' = writeopen p.
Proof.
  induction n as [|n IH]; intros p c I; [by exists p|].
  cbn [piperead_copy]. mstep. rewrite empty_test by done.
  destruct (Z.eqb_spec (count p) 0) as [E|E].
  - exists p. rewrite (contents_nil p E). done.
  - pose proof (count_range p). destruct (take_byte_inv p I) as [I' _]; [lia|].
    rewrite (contents_cons p I) by lia. mstep.
    destruct (IH (set_nread (u32 (nread p + 1)) p) c I') as (p' & E' & Ip & Ec & Ew & Er & Ewo).
    exists p'. split; [by mrun|]. done.
Qed.

Section simulation.
Variable a : Z.

(** What a resumed [pipewrite] does, by the room [k] it finds. *)
Lemma pipewrite_loop_spec addr : forall n p t w,
  pipe_inv p ->
  let k := Z.to_nat (PIPESIZE - count p) in
  let run := pipewrite_loop a n addr (Ctx t [Lpipe a] w) p in
  exists p', pipe_inv p' /\ contents p' = contents p ++ take k addr /\
    nread p' = nread p /\ readopen p' = readopen p /\ writeopen p' = writeopen p /\
    run = if decide (length addr <= k)%nat then Ret n (Ctx t [] (w ++ [Cnread a])) p'
          else if negb (readopen p) || t_killed t then Ret (-1) (Ctx t [] w) p'
          else Sleep (Cnwrite a) (Lpipe a) (Ctx t [] (w ++ [Cnread a])) p'.
Proof.
  induction addr as [|c addr IH]; intros n p t w I k run; subst k run; cbn [pipewrite_loop].
  - exists p. rewrite take_nil, app_nil_r, decide_True by (cbn; lia).
    repeat (split; [done|]). by mrun.
  - destruct (I) as (_ & _ & _ & Hle). unfold pipewrite_wait. mstep. mstep.
    rewrite full_test by done. destruct (Z.eqb_spec (count p) PIPESIZE) as [E|E].
    + exists p. rewrite E, Z.sub_diag, take_0, app_nil_r, decide_False by (cbn; lia).
      repeat (split; [done|]). mstep. mstep.
      destruct (negb (readopen p) || t_killed t); [by mrun|].
      mrun. by apply sleep_only.
    + mstep. unfold pipewrite_byte. mstep. fold (put_byte c p).
      destruct (put_byte_spec c p I) as (I' & Hc & Hcon); [lia|].
      destruct (IH n (put_byte c p) t w I') as (p' & Ip & Ec & En & Er & Ew & Erun).
      rewrite Hc, Hcon in Ec. rewrite Hc in Erun.
      replace (Z.to_nat (PIPESIZE - count p)) with (S (Z.to_nat (PIPESIZE - (count p + 1)))) by lia.
      exists p'. split; [done|]. split; [by rewrite Ec, <- app_assoc|].
      repeat (split; [done|]). rewrite Erun. cbn [length readopen put_byte set_data].
      by destruct (decide _), (decide _); try lia.
Qed.

Lemma piperead_spec n p t h w :
  pipe_inv p -> Lpipe a ∉ h -> Lptable ∉ h ->
  let run := piperead a n (Ctx t h w) p in
  (contents p = [] -> writeopen p = true ->
   run = if t_killed t then Ret None (Ctx t h w) p
         else sleep (Cnread a) (Lpipe a) (Ctx t (Lpipe a :: h) w) p) /\
  (contents p ≠ [] \/ writeopen p = false ->
   exists p', run = Ret (Some (take n (contents p))) (Ctx t h (w ++ [Cnwrite a])) p' /\
     pipe_inv p' /\ contents p' = drop n (contents p) /\
     nwrite p' = nwrite p /\ readopen p' = readopen p /\ writeopen p' = writeopen p).
Proof.
  intros I Hh Hp run. subst run. unfold piperead, piperead_wait.
  pose proof (count_range p).
  assert (contents p = [] <-> count p = 0) as Hnil.
  { rewrite <- length_zero_iff_nil, length_contents. lia. }
  mstep. mstep. mstep. rewrite empty_test by done. split.
  - intros Hc Hw. apply Hnil in Hc. rewrite Hc, Hw. cbn [Z.eqb andb]. mstep. mstep.
    by destruct (t_killed t); mrun.
  - intros Hor.
    assert ((count p =? 0) && writeopen p = false) as ->.
    { destruct (Z.eqb_spec (count p) 0); [|done]. destruct Hor as [Hor| ->]; [|done].
      exfalso. tauto. }
    mstep. destruct (piperead_copy_spec n p (Ctx t (Lpipe a :: h) w) I) as (p' & E & Hp').
    exists p'. split; [by mrun | done].
Qed.

(** ** Processes taking turns on one pipe

    A writer that has been put to sleep resumes in its loop with the bytes it
    has not stored yet; [p->nwrite] tells how many it has. *)

Variable t : thread.

Definition writer_turn (pending : list Z) (p : pipe) : pipe * list Z :=
  match pipewrite_loop a (Z.of_nat (length pending)) pending (Ctx t [Lpipe a] []) p with
  | Ret _ _ p' => (p', [])
  | Sleep _ _ _ p' => (p', drop (Z.to_nat (u32 (nwrite p' - nwrite p))) pending)
  | _ => (p, pending)
  end.

Definition reader_turn (n : nat) (p : pipe) : pipe * list Z :=
  match piperead a n (Ctx t [] []) p with
  | Ret (Some l) _ p' => (p', l)
  | Sleep _ _ _ p' => (p', [])
  | _ => (p, [])
  end.

Inductive turn := Write | Read (n : nat).

(** The pipe, the bytes the writer still has to store, and those read. *)
Definition system : Type := pipe * list Z * list Z.

Definition turn_step (s : system) (e : turn) : system :=
  let '(p, pending, out) := s in
  match e with
  | Write => let '(p', rest) := writer_turn pending p in (p', rest, out)
  | Read n => let '(p', l) := reader_turn n p in (p', pending, out ++ l)
  end.

Definition run_turns (s : system) (es : list turn) : system := fold_left turn_step es s.

Definition open_pipe (p : pipe) : Prop :=
  pipe_inv p /\ readopen p = true /\ writeopen p = true.

Lemma written_count p p' addr k :
  pipe_inv p -> pipe_inv p' -> nread p' = nread p ->
  contents p' = contents p ++ take k addr ->
  Z.to_nat (u32 (nwrite p' - nwrite p)) = length (take k addr).
Proof.
  intros (_ & Hr & Hw & Hc) (_ & Hr' & Hw' & Hc') En Ec.
  assert (Z.to_nat (count p') = (Z.to_nat (count p) + length (take k addr))%nat) as E.
  { by rewrite <- !length_contents, Ec, length_app. }
  pose proof (count_range p). pose proof (count_range p').
  unfold count, PIPESIZE in *. rewrite En in *. word_lia.
Qed.

Lemma writer_turn_spec pending p :
  t_killed t = false -> open_pipe p ->
  let k := Z.to_nat (PIPESIZE - count p) in
  exists p', writer_turn pending p = (p', drop k pending) /\ open_pipe p' /\
    contents p' = contents p ++ take k pending.
Proof.
  intros Ht (I & Ro & Wo) k. unfold writer_turn.
  destruct (pipewrite_loop_spec pending (Z.of_nat (length pending)) p t [] I)
    as (p' & I' & Ec & En & Er & Ew & ->). fold k in Ec |- *.
  exists p'. rewrite Ro, Ht. cbn [negb orb].
  assert (open_pipe p') by (unfold open_pipe; rewrite Er, Ew; done).
  destruct (decide _) as [Hk|Hk].
  - by rewrite drop_ge by lia.
  - rewrite (written_count p p' pending k) by done.
    rewrite length_take. replace (k `min` length pending)%nat with k by lia. done.
Qed.

Lemma reader_turn_spec n p :
  t_killed t = false -> open_pipe p ->
  exists p', reader_turn n p = (p', take n (contents p)) /\ open_pipe p' /\
    contents p' = drop n (contents p).
Proof.
  intros Ht (I & Ro & Wo). unfold reader_turn.
  destruct (piperead_spec n p t [] [] I) as [He Hn]; [lock_tac | lock_tac|].
  destruct (contents p) as [|c l] eqn:E.
  - rewrite He, Ht, sleep_only by done. exists p. rewrite E, take_nil, drop_nil. done.
  - destruct Hn as (p' & -> & I' & Ec & _ & Er & Ew); [by left|].
    exists p'. split; [done|]. split; [|done]. unfold open_pipe. by rewrite Er, Ew.
Qed.

Lemma turn_step_spec p pending out e :
  t_killed t = false -> open_pipe p ->
  exists p' pending' out', turn_step (p, pending, out) e = (p', pending', out') /\
    open_pipe p' /\ out' ++ contents p' ++ pending' = out ++ contents p ++ pending.
Proof.
  intros Ht O. destruct e as [|n]; cbn [turn_step].
  - destruct (writer_turn_spec pending p Ht O) as (p' & -> & O' & Ec).
    do 3 eexists. split; [done|]. split; [done|].
    by rewrite Ec, <- !app_assoc, take_drop.
  - destruct (reader_turn_spec n p Ht O) as (p' & -> & O' & Ec).
    do 3 eexists. split; [done|]. split; [done|].
    by rewrite Ec, <- !app_assoc, (app_assoc (take _ _)), take_drop.
Qed.

(** One write turn and one read turn deliver at least a byte. *)
Lemma round_progress p pending out n :
  t_killed t = false -> open_pipe p -> (0 < n)%nat ->
  exists p' pending' out', run_turns (p, pending, out) [Write; Read n] = (p', pending', out') /\
    open_pipe p' /\ out' ++ contents p' ++ pending' = out ++ contents p ++ pending /\
    (length (contents p' ++ pending') <= length (contents p ++ pending) - 1)%nat.
Proof.
  intros Ht O Hn. unfold run_turns. cbn [fold_left turn_step].
  destruct (writer_turn_spec pending p Ht O) as (p1 & -> & O1 & Ec1). cbn [turn_step].
  destruct (reader_turn_spec n p1 Ht O1) as (p2 & -> & O2 & Ec2).
  do 3 eexists. split; [done|]. split; [done|]. split.
  - rewrite Ec2, <- !app_assoc, (app_assoc (take n _)), take_drop, Ec1, <- app_assoc, take_drop. done.
  - rewrite Ec2, Ec1. pose proof (length_contents p) as HL. destruct O as ((_ & _ & _ & Hc) & _).
    pose proof (count_range p). rewrite !length_app, !length_drop, !length_app, length_take.
    unfold PIPESIZE in *. lia.
Qed.

Lemma run_turns_app s es es' : run_turns s (es ++ es') = run_turns (run_turns s es) es'.
Proof. apply fold_left_app. Qed.

Lemma rounds_deliver n k : forall p pending out,
  t_killed t = false -> open_pipe p -> (0 < n)%nat ->
  (length (contents p ++ pending) <= k)%nat ->
  exists p', run_turns (p, pending, out) (concat (replicate k [Write; Read n])) =
    (p', [], out ++ contents p ++ pending) /\ open_pipe p' /\ contents p' = [].
Proof.
  induction k as [|k IH]; intros p pending out Ht O Hn Hk.
  - destruct (contents p) eqn:E1, pending; cbn in Hk; try lia.
    exists p. cbn. by rewrite app_nil_r.
  - cbn [replicate concat]. rewrite run_turns_app.
    destruct (round_progress p pending out n Ht O Hn) as (p' & pe & o & -> & O' & Hq & Hl).
    destruct (IH p' pe o Ht O' Hn) as (p'' & -> & O'' & E''); [lia|].
    exists p''. by rewrite Hq.
Qed.

End simulation.

(** A fresh pipe satisfies the invariant and is empty, whatever the page held. *)
Lemma new_pipe_open junk :
  length junk = Z.to_nat PIPESIZE -> open_pipe (new_pipe junk) /\ contents (new_pipe junk) = [].
Proof. intros H. repeat split; try done; cbn; lia. Qed.

(** ** The claims *)

(** [pipewrite] on every branch.  With room for all bytes it stores them
    behind the queue, wakes the readers and returns their number; otherwise it
    fills the ring and, if the read end is closed or the process was killed,
    returns -1, else wakes the readers and sleeps on [&p->nwrite] with the lock
    released. *)
Theorem pipewrite_refines_queue a addr p t :
  pipe_inv p ->
  let k := Z.to_nat (PIPESIZE - count p) in
  exists p', pipe_inv p' /\ contents p' = contents p ++ take k addr /\
    pipewrite a addr (Ctx t [] []) p =
      if decide (length addr <= k)%nat
      then Ret (Z.of_nat (length addr)) (Ctx t [] [Cnread a]) p'
      else if negb (readopen p) || t_killed t then Ret (-1) (Ctx t [] []) p'
      else Sleep (Cnwrite a) (Lpipe a) (Ctx t [] [Cnread a]) p'.
Proof.
  intros I k. unfold pipewrite. mstep.
  destruct (pipewrite_loop_spec a addr (Z.of_nat (length addr)) p t [] I)
    as (p' & I' & Ec & _ & _ & _ & Er).
  exists p'. done.
Qed.

Definition witness_thread : thread := Thread 5 false.
Definition witness_pipe : pipe := new_pipe (replicate 512 0).

Lemma pipewrite_refines_queue_witness : exists p',
  pipewrite 7 (replicate 513 65) (Ctx witness_thread [] []) witness_pipe =
    Sleep (Cnwrite 7) (Lpipe 7) (Ctx witness_thread [] [Cnread 7]) p' /\
  contents p' = replicate 512 65.
Proof.
  destruct (pipewrite_refines_queue 7 (replicate 513 65) witness_pipe witness_thread)
    as (p' & _ & Ec & E).
  - apply new_pipe_open. reflexivity.
  - exists p'. split; [exact E | exact Ec].
Defined.

(** [piperead] on every branch.  On an empty pipe with an open write end it
    returns -1 for a killed process and otherwise sleeps; in every other case it
    returns the oldest [n] bytes, or all there are, removes exactly those, and
    wakes the writers (at end of file it returns no bytes). *)
Theorem piperead_refines_queue a n p t :
  pipe_inv p ->
  let run := piperead a n (Ctx t [] []) p in
  (contents p = [] -> writeopen p = true ->
   run = if t_killed t then Ret None (Ctx t [] []) p
         else Sleep (Cnread a) (Lpipe a) (Ctx t [] []) p) /\
  (contents p ≠ [] \/ writeopen p = false ->
   exists p', run = Ret (Some (take n (contents p))) (Ctx t [] [Cnwrite a]) p' /\
     pipe_inv p' /\ contents p' = drop n (contents p)).
Proof.
  intros I run. destruct (piperead_spec a n p t [] [] I) as [He Hn]; [lock_tac | lock_tac|].
  split.
  - intros H1 H2. unfold run. rewrite He by done. by rewrite sleep_only.
  - intros H. destruct (Hn H) as (p' & E & I' & Ec & _). exists p'. done.
Qed.

Lemma piperead_refines_queue_witness :
  piperead 7 4 (Ctx witness_thread [] []) witness_pipe =
  Sleep (Cnread 7) (Lpipe 7) (Ctx witness_thread [] []) witness_pipe.
Proof.
  apply (piperead_refines_queue 7 4 witness_pipe witness_thread); try reflexivity.
  apply new_pipe_open. reflexivity.
Defined.

(** first in, first out, for every schedule.  However the turns of a
    writer and a reader interleave, what has been read, followed by what is in
    the ring, followed by what the writer still holds, is the data written. *)
Theorem pipe_fifo a t p src es :
  t_killed t = false -> open_pipe p -> contents p = [] ->
  let '(p', pending, out) := run_turns a t (p, src, []) es in
  out ++ contents p' ++ pending = src.
Proof.
  intros Ht O E0.
  assert (forall es q pe o, open_pipe q -> o ++ contents q ++ pe = src ->
    let '(p', pending, out) := run_turns a t (q, pe, o) es in
    out ++ contents p' ++ pending = src) as H.
  { clear p O E0 es. induction es as [|e es IH]; intros q pe o O E; [done|].
    cbn [run_turns fold_left].
    destruct (turn_step_spec a t q pe o e Ht O) as (p' & pe' & o' & -> & O' & E').
    apply IH; [done | congruence]. }
  apply H; [done|]. by rewrite E0.
Qed.

Lemma pipe_fifo_witness :
  let '(p', pending, out) :=
    run_turns 7 witness_thread (witness_pipe, str "hello", []) [Read 3; Write; Read 2] in
  out ++ contents p' ++ pending = str "hello".
Proof.
  apply (pipe_fifo 7 witness_thread witness_pipe (str "hello") [Read 3; Write; Read 2]);
    try reflexivity.
  apply new_pipe_open. reflexivity.
Defined.


