(* ===== verification/Spinlock.v ===== *)
(** spinlock.c: [pushcli]/[popcli], the spinlock operations as sequential code of
    one processor, and the same operations as a small-step machine in which any
    number of processors interleave at every shared-memory access.  The machine
    is proved to give mutual exclusion, to keep interrupts off in critical
    sections and to restore them afterwards; the lock operations of the kernel
    monad are proved to be a correct summary of the sequential code. *)

From stdpp Require Import base numbers list strings functions.
From S2P Require Import Xv6 Prelude Kstring.

Module Spinlock.

Definition FL_IF : Z := 0x200.

(** proc.h [struct cpu] (the fields this code reads) and spinlock.h. *)
Record cpu := Cpu { apicid : Z; ncli : Z; intena : Z }.
Record spinlock := Lock { locked : Z; cpu_of : option nat; pcs : list Z }.

(** [cpus] with its first [length cpus] entries in use, each processor's
    %eflags, and the locks. *)
Record mach := Mach { cpus : list cpu; eflags : nat -> Z; locks : lockid -> spinlock }.

Inductive result (A : Type) := Ok (a : A) | Panicked (msg : string).
Arguments Ok {A}.
Arguments Panicked {A}.

Definition set_cpu (i : nat) (f : cpu -> cpu) (m : mach) : mach :=
  Mach (alter f i (cpus m)) (eflags m) (locks m).
Definition set_eflags (i : nat) (v : Z) (m : mach) : mach :=
  Mach (cpus m) (<[i := v]> (eflags m)) (locks m).
Definition set_lock (l : lockid) (k : spinlock) (m : mach) : mach :=
  Mach (cpus m) (eflags m) (<[l := k]> (locks m)).

Definition initlock : spinlock := Lock 0 None (replicate 10 0).

(** Follow the %ebp chain for at most [n] frames from [ebp]. *)
Fixpoint caller_chain (mm : mem) (n : nat) (ebp : Z) : list Z :=
  match n with
  | O => []
  | S n' => if (ebp =? 0) || (ebp <? KERNBASE) || (ebp =? 0xffffffff) then []
            else load32 mm (u32 (ebp + 4)) :: caller_chain mm n' (load32 mm ebp)
  end.

Definition getcallerpcs (mm : mem) (v : Z) : list Z :=
  let frames := caller_chain mm 10 (u32 (v - 8)) in
  frames ++ replicate (10 - length frames) 0.

Section processor.
(** What [lapicid()] reads on each processor. *)
Variable lapicid : nat -> Z.

Definition interruptible (i : nat) (m : mach) : bool := negb (Z.land (eflags m i) FL_IF =? 0).
Definition cli (i : nat) (m : mach) : mach := set_eflags i (Z.ldiff (eflags m i) FL_IF) m.
Definition sti (i : nat) (m : mach) : mach := set_eflags i (Z.lor (eflags m i) FL_IF) m.

Fixpoint find_cpu (id : Z) (l : list cpu) : option nat :=
  match l with
  | [] => None
  | c :: l' => if apicid c =? id then Some O else S <$> find_cpu id l'
  end.

Definition mycpu (i : nat) (m : mach) : result nat :=
  if interruptible i m then Panicked "mycpu called with interrupts enabled"
  else match find_cpu (lapicid i) (cpus m) with
       | Some k => Ok k
       | None => Panicked "unknown apicid"
       end.

Definition ncli_of (k : nat) (m : mach) : Z := default 0 (ncli <$> cpus m !! k).
Definition intena_of (k : nat) (m : mach) : Z := default 0 (intena <$> cpus m !! k).

Definition pushcli (i : nat) (m : mach) : result mach :=
  let fl := eflags m i in
  let m := cli i m in
  match mycpu i m with
  | Panicked msg => Panicked msg
  | Ok k =>
      let m := if ncli_of k m =? 0
               then set_cpu k (fun c => Cpu (apicid c) (ncli c) (Z.land fl FL_IF)) m else m in
      Ok (set_cpu k (fun c => Cpu (apicid c) (ncli c + 1) (intena c)) m)
  end.

Definition popcli (i : nat) (m : mach) : result mach :=
  if interruptible i m then Panicked "popcli - interruptible"
  else match mycpu i m with
  | Panicked msg => Panicked msg
  | Ok k =>
      let m := set_cpu k (fun c => Cpu (apicid c) (ncli c - 1) (intena c)) m in
      if ncli_of k m <? 0 then Panicked "popcli"
      else if (ncli_of k m =? 0) && negb (intena_of k m =? 0) then Ok (sti i m)
      else Ok m
  end.

Definition holding (l : lockid) (i : nat) (m : mach) : result (bool * mach) :=
  match pushcli i m with
  | Panicked msg => Panicked msg
  | Ok m => match mycpu i m with
    | Panicked msg => Panicked msg
    | Ok k =>
        let r := negb (locked (locks m l) =? 0) && bool_decide (cpu_of (locks m l) = Some k) in
        match popcli i m with Panicked msg => Panicked msg | Ok m => Ok (r, m) end
    end
  end.

(** [xchg(&lk->locked, 1)]: the old value, and the lock taken. *)
Definition xchg_locked (l : lockid) (m : mach) : Z * mach :=
  let k := locks m l in (locked k, set_lock l (Lock 1 (cpu_of k) (pcs k)) m).

(** [lk->cpu = mycpu(); getcallerpcs(&lk, lk->pcs)]. *)
Definition record_owner (mm : mem) (arg : Z) (l : lockid) (k : nat) (m : mach) : mach :=
  set_lock l (Lock (locked (locks m l)) (Some k) (getcallerpcs mm arg)) m.

(** [lk->pcs[0] = 0; lk->cpu = 0]. *)
Definition clear_owner (l : lockid) (m : mach) : mach :=
  let k := locks m l in set_lock l (Lock (locked k) None (<[O := 0]> (pcs k))) m.

Definition clear_locked (l : lockid) (m : mach) : mach :=
  let k := locks m l in set_lock l (Lock 0 (cpu_of k) (pcs k)) m.

Variable stack : mem.
Variable arg : nat -> lockid -> Z.

(** [acquire] run without interference: [None] when the lock is taken, in which
    case the processor spins. *)
Definition acquire (l : lockid) (i : nat) (m : mach) : result (option mach) :=
  match pushcli i m with
  | Panicked msg => Panicked msg
  | Ok m => match holding l i m with
    | Panicked msg => Panicked msg
    | Ok (true, _) => Panicked "acquire"
    | Ok (false, m) =>
        let '(old, m) := xchg_locked l m in
        if negb (old =? 0) then Ok None
        else match mycpu i m with
             | Panicked msg => Panicked msg
             | Ok k => Ok (Some (record_owner stack (arg i l) l k m))
             end
    end
  end.

Definition release (l : lockid) (i : nat) (m : mach) : result mach :=
  match holding l i m with
  | Panicked msg => Panicked msg
  | Ok (false, _) => Panicked "release"
  | Ok (true, m) => popcli i (clear_locked l (clear_owner l m))
  end.

(** ** The processors interleaved

    Where a processor stands in the code: between lock calls, or before the
    named shared-memory access of [acquire] or [release]. *)
Inductive pc :=
| Run
| AcqLocked (l : lockid) | AcqCpu (l : lockid) | AcqXchg (l : lockid) | AcqRecord (l : lockid)
| RelLocked (l : lockid) | RelCpu (l : lockid) | RelClear (l : lockid) | RelStore (l : lockid)
| RelPop (l : lockid)
| Dead (msg : string) (l : lockid).

(** [cs i] is a history variable: the locks for which [acquire] has returned on
    processor [i] and [release] has not got past its check. *)
Record smp := Smp { m_of : mach; pc_of : nat -> pc; cs : nat -> list lockid }.

Definition goto (i : nat) (p : pc) (s : smp) : smp := Smp (m_of s) (<[i := p]> (pc_of s)) (cs s).
Definition with_mach (m : mach) (s : smp) : smp := Smp m (pc_of s) (cs s).
Definition with_cs (i : nat) (h : list lockid) (s : smp) : smp :=
  Smp (m_of s) (pc_of s) (<[i := h]> (cs s)).

Definition without (l : lockid) (h : list lockid) : list lockid := filter (fun x => x ≠ l) h.

(** [holding] inside [acquire] and [release]: its [popcli] follows the reads. *)
Inductive step : smp -> smp -> Prop :=
| step_acquire i l s m1 m2 :
    pc_of s i = Run -> pushcli i (m_of s) = Ok m1 -> pushcli i m1 = Ok m2 ->
    step s (goto i (AcqLocked l) (with_mach m2 s))
| step_acq_free i l s m1 :
    pc_of s i = AcqLocked l -> locked (locks (m_of s) l) = 0 -> popcli i (m_of s) = Ok m1 ->
    step s (goto i (AcqXchg l) (with_mach m1 s))
| step_acq_taken i l s :
    pc_of s i = AcqLocked l -> locked (locks (m_of s) l) ≠ 0 ->
    step s (goto i (AcqCpu l) s)
| step_acq_self i l s k :
    pc_of s i = AcqCpu l -> mycpu i (m_of s) = Ok k -> cpu_of (locks (m_of s) l) = Some k ->
    step s (goto i (Dead "acquire" l) s)
| step_acq_other i l s k m1 :
    pc_of s i = AcqCpu l -> mycpu i (m_of s) = Ok k -> cpu_of (locks (m_of s) l) ≠ Some k ->
    popcli i (m_of s) = Ok m1 ->
    step s (goto i (AcqXchg l) (with_mach m1 s))
| step_spin i l s old m1 :
    pc_of s i = AcqXchg l -> xchg_locked l (m_of s) = (old, m1) -> old ≠ 0 ->
    step s (with_mach m1 s)
| step_take i l s old m1 :
    pc_of s i = AcqXchg l -> xchg_locked l (m_of s) = (old, m1) -> old = 0 ->
    step s (goto i (AcqRecord l) (with_mach m1 s))
| step_record i l s k :
    pc_of s i = AcqRecord l -> mycpu i (m_of s) = Ok k ->
    step s (goto i Run (with_cs i (l :: cs s i)
      (with_mach (record_owner stack (arg i l) l k (m_of s)) s)))
| step_release i l s m1 :
    pc_of s i = Run -> pushcli i (m_of s) = Ok m1 ->
    step s (goto i (RelLocked l) (with_mach m1 s))
| step_rel_free i l s :
    pc_of s i = RelLocked l -> locked (locks (m_of s) l) = 0 ->
    step s (goto i (Dead "release" l) s)
| step_rel_taken i l s :
    pc_of s i = RelLocked l -> locked (locks (m_of s) l) ≠ 0 ->
    step s (goto i (RelCpu l) s)
| step_rel_other i l s k :
    pc_of s i = RelCpu l -> mycpu i (m_of s) = Ok k -> cpu_of (locks (m_of s) l) ≠ Some k ->
    step s (goto i (Dead "release" l) s)
| step_rel_mine i l s k m1 :
    pc_of s i = RelCpu l -> mycpu i (m_of s) = Ok k -> cpu_of (locks (m_of s) l) = Some k ->
    popcli i (m_of s) = Ok m1 ->
    step s (goto i (RelClear l) (with_cs i (without l (cs s i)) (with_mach m1 s)))
| step_rel_clear i l s :
    pc_of s i = RelClear l ->
    step s (goto i (RelStore l) (with_mach (clear_owner l (m_of s)) s))
| step_rel_store i l s :
    pc_of s i = RelStore l ->
    step s (goto i (RelPop l) (with_mach (clear_locked l (m_of s)) s))
| step_rel_pop i l s m1 :
    pc_of s i = RelPop l -> popcli i (m_of s) = Ok m1 ->
    step s (goto i Run (with_mach m1 s)).

(** Power-on state: nobody holds anything and interrupts are as [m] has them. *)
Definition boot (m : mach) : smp := Smp m (fun _ => Run) (fun _ => []).

Inductive reachable (s0 : smp) : smp -> Prop :=
| reach_refl : reachable s0 s0
| reach_step s s' : reachable s0 s -> step s s' -> reachable s0 s'.

(** ** The interrupt flag and its nesting depth *)

Variable saved : nat -> Z.

(** Entry [k] of [cpus] describes processor [k]. *)
Definition wf_cpus (m : mach) : Prop :=
  forall k c, cpus m !! k = Some c -> apicid c = lapicid k.

Hypothesis lapicid_inj : forall i j, lapicid i = lapicid j -> i = j.

(** Processor [i] is [n] levels deep in [pushcli]. *)
Definition cli_depth (i : nat) (m : mach) (n : Z) : Prop :=
  exists c, cpus m !! i = Some c /\ ncli c = n /\
    (n = 0 -> Z.land (eflags m i) FL_IF = saved i) /\
    (0 < n -> Z.land (eflags m i) FL_IF = 0 /\ intena c = saved i).

Lemma find_cpu_spec m i c : wf_cpus m -> cpus m !! i = Some c ->
  find_cpu (lapicid i) (cpus m) = Some i.
Proof.
  unfold wf_cpus. destruct m as [l e k]. cbn [cpus]. clear e k.
  assert (forall off i, (forall k c, l !! k = Some c -> apicid c = lapicid (off + k)%nat) ->
    l !! i = Some c -> find_cpu (lapicid (off + i)%nat) l = Some i) as H.
  { induction l as [|x l IH]; intros off i' W E; [done|]. cbn [find_cpu].
    destruct (Z.eqb_spec (apicid x) (lapicid (off + i')%nat)) as [H|H].
    - rewrite (W O x eq_refl) in H. apply lapicid_inj in H. f_equal. lia.
    - destruct i' as [|i']; [destruct H; exact (W O x eq_refl)|].
      replace (off + S i')%nat with (S off + i')%nat by lia. rewrite (IH (S off)); [done| |done].
      intros k y Hk. rewrite (W (S k) y Hk). f_equal. lia. }
  intros W E. by apply (H O).
Qed.

Lemma find_cpu_some m i k : wf_cpus m -> find_cpu (lapicid i) (cpus m) = Some k ->
  k = i /\ is_Some (cpus m !! i).
Proof.
  intros W F.
  assert (exists c, cpus m !! k = Some c /\ apicid c = lapicid i) as (c & Hc & Ha).
  { clear W. revert k F. induction (cpus m) as [|x l IH]; intros k F; [done|].
    cbn [find_cpu] in F. destruct (Z.eqb_spec (apicid x) (lapicid i)) as [H|H].
    - simplify_eq. by exists x.
    - destruct (find_cpu _ l) as [j|]; [|done]. simplify_eq/=. by apply IH. }
  assert (k = i) as -> by (apply lapicid_inj; rewrite <- (W k c Hc); done).
  split; [done|]. by exists c.
Qed.

Lemma mycpu_self m i k : wf_cpus m -> mycpu i m = Ok k -> k = i.
Proof.
  unfold mycpu. intros W. destruct (interruptible i m); [done|].
  destruct (find_cpu _ _) as [j|] eqn:F; intros [= <-]. by destruct (find_cpu_some m i j W F).
Qed.

Lemma mycpu_ok m i c : wf_cpus m -> cpus m !! i = Some c ->
  Z.land (eflags m i) FL_IF = 0 -> mycpu i m = Ok i.
Proof.
  intros W E H. unfold mycpu, interruptible. rewrite H. cbn. by rewrite (find_cpu_spec m i c).
Qed.

Lemma ldiff_FL_IF z : Z.land (Z.ldiff z FL_IF) FL_IF = 0.
Proof.
  apply Z.bits_inj'. intros n Hn. rewrite Z.land_spec, Z.ldiff_spec, Z.bits_0.
  by destruct (Z.testbit z n), (Z.testbit FL_IF n).
Qed.

Lemma lor_FL_IF z : Z.land (Z.lor z FL_IF) FL_IF = FL_IF.
Proof.
  apply Z.bits_inj'. intros n Hn. rewrite Z.land_spec, Z.lor_spec.
  by destruct (Z.testbit z n), (Z.testbit FL_IF n).
Qed.

Lemma cli_depth_other j m m' n :
  cpus m' !! j = cpus m !! j -> eflags m' j = eflags m j ->
  cli_depth j m n -> cli_depth j m' n.
Proof. unfold cli_depth. intros -> ->. done. Qed.

(** What [pushcli] and [popcli] leave alone. *)
Definition same_but_cpu (i : nat) (m m' : mach) : Prop :=
  locks m' = locks m /\ (wf_cpus m -> wf_cpus m') /\
  forall j, j ≠ i -> cpus m' !! j = cpus m !! j /\ eflags m' j = eflags m j.

Lemma set_cpu_same i f m : (forall c, apicid (f c) = apicid c) -> same_but_cpu i m (set_cpu i f m).
Proof.
  intros Hf. split; [done|]. split.
  - intros W k c. cbn. destruct (decide (k = i)) as [->|Hk].
    + rewrite list_lookup_alter_eq. destruct (cpus m !! i) as [c0|] eqn:E; [|done].
      intros [= <-]. rewrite Hf. by apply W.
    + rewrite list_lookup_alter_ne by done. apply W.
  - intros j Hj. cbn. by rewrite list_lookup_alter_ne.
Qed.

Lemma set_eflags_same i v m : same_but_cpu i m (set_eflags i v m).
Proof. split; [done|]. split; [done|]. intros j Hj. cbn. by rewrite fn_lookup_insert_ne. Qed.

Lemma same_but_cpu_trans i m1 m2 m3 :
  same_but_cpu i m1 m2 -> same_but_cpu i m2 m3 -> same_but_cpu i m1 m3.
Proof.
  intros (E1 & W1 & O1) (E2 & W2 & O2). split; [congruence|]. split; [auto|].
  intros j Hj. destruct (O1 j Hj), (O2 j Hj). split; congruence.
Qed.

Lemma pushcli_spec i m n : wf_cpus m -> cli_depth i m n -> 0 <= n ->
  exists m', pushcli i m = Ok m' /\ cli_depth i m' (n + 1) /\ same_but_cpu i m m'.
Proof.
  intros W (c & Ec & En & H0 & H1) Hn. unfold pushcli.
  assert (same_but_cpu i m (cli i m)) as S1 by apply set_eflags_same.
  rewrite (mycpu_ok (cli i m) i c); [|by apply S1|done|].
  2: { cbn. rewrite fn_lookup_insert. apply ldiff_FL_IF. }
  unfold ncli_of. cbn [cpus cli set_eflags]. rewrite Ec. cbn.
  rewrite En. destruct (Z.eqb_spec n 0) as [Hz|Hz]; eexists; (split; [reflexivity|]); split.
  - eexists. cbn. rewrite !list_lookup_alter_eq, Ec. cbn. split; [done|]. cbn.
    split; [lia|]. split; [lia|]. rewrite fn_lookup_insert, ldiff_FL_IF. auto.
  - do 2 (eapply same_but_cpu_trans; [|by apply set_cpu_same]). done.
  - eexists. cbn. rewrite !list_lookup_alter_eq, Ec. cbn. split; [done|]. cbn.
    split; [lia|]. split; [lia|]. rewrite fn_lookup_insert, ldiff_FL_IF.
    intros _. split; [done|]. apply H1. lia.
  - eapply same_but_cpu_trans; [|by apply set_cpu_same]. done.
Qed.

Hypothesis saved_flag : forall i, saved i = 0 \/ saved i = FL_IF.

Lemma popcli_spec i m n : wf_cpus m -> cli_depth i m n -> 1 <= n ->
  exists m', popcli i m = Ok m' /\ cli_depth i m' (n - 1) /\ same_but_cpu i m m'.
Proof.
  intros W (c & Ec & En & _ & H1) Hn. destruct H1 as [Hf Hi]; [lia|]. unfold popcli.
  assert (interruptible i m = false) as -> by (unfold interruptible; by rewrite Hf).
  rewrite (mycpu_ok m i c) by done. unfold ncli_of, intena_of. cbn [cpus set_cpu].
  rewrite list_lookup_alter_eq, Ec. cbn. rewrite En.
  destruct (Z.ltb_spec (n - 1) 0); [lia|].
  set (f := fun c0 => Cpu (apicid c0) (ncli c0 - 1) (intena c0)).
  assert (same_but_cpu i m (set_cpu i f m)) as S1 by by apply set_cpu_same.
  destruct (Z.eqb_spec (n - 1) 0) as [Hz|Hz]; cbn [andb].
  - rewrite Hi. destruct (saved_flag i) as [E|E]; rewrite E; cbn [negb Z.eqb FL_IF].
    + eexists. split; [reflexivity|]. split; [|done]. eexists. cbn.
      rewrite list_lookup_alter_eq, Ec. split; [done|]. cbn. split; [lia|]. split; [congruence|lia].
    + eexists. split; [reflexivity|]. split.
      * eexists. cbn. rewrite list_lookup_alter_eq, Ec. split; [done|]. cbn.
        split; [lia|]. rewrite fn_lookup_insert, lor_FL_IF. split; [congruence|lia].
      * eapply same_but_cpu_trans; [exact S1 | apply set_eflags_same].
  - eexists. split; [reflexivity|]. split; [|done]. eexists. cbn.
    rewrite list_lookup_alter_eq, Ec. split; [done|]. cbn. split; [lia|]. split; [lia|auto].
Qed.

(** ** Invariants of the interleaved machine *)

Definition pc_depth (p : pc) : Z :=
  match p with
  | Run | Dead _ _ => 0
  | AcqLocked _ | AcqCpu _ => 2
  | _ => 1
  end.

(** Every live processor is as deep in [pushcli] as the locks it holds and the
    call it is in. *)
Definition cli_inv (s : smp) : Prop :=
  wf_cpus (m_of s) /\
  forall i, is_Some (cpus (m_of s) !! i) -> (forall msg l, pc_of s i ≠ Dead msg l) ->
    cli_depth i (m_of s) (Z.of_nat (length (cs s i)) + pc_depth (pc_of s i)).

(** Processor [i] owns the memory word [locked] of [l]. *)
Definition owns (s : smp) (i : nat) (l : lockid) : Prop :=
  l ∈ cs s i \/ pc_of s i = AcqRecord l \/ pc_of s i = RelClear l \/ pc_of s i = RelStore l.
(** ... and is named in its [cpu] field. *)
Definition recorded (s : smp) (i : nat) (l : lockid) : Prop :=
  l ∈ cs s i \/ pc_of s i = RelClear l.

Record lock_inv (s : smp) : Prop := {
  inv_locked l : locked (locks (m_of s) l) ≠ 0 <-> exists i, owns s i l;
  inv_unique i j l : owns s i l -> owns s j l -> i = j;
  inv_cpu i l : cpu_of (locks (m_of s) l) = Some i <-> recorded s i l;
  inv_nodup i : NoDup (cs s i);
  inv_fresh i l : pc_of s i = AcqRecord l \/ pc_of s i = RelClear l \/ pc_of s i = RelStore l ->
    l ∉ cs s i;
  inv_dead_acquire i l : pc_of s i = Dead "acquire" l -> l ∈ cs s i;
  inv_dead_release i l : pc_of s i = Dead "release" l -> l ∉ cs s i }.

(** A step that changes neither [locked] nor [cpu] nor the ownership of any
    lock: only [pc_of s i] moves, between two places that own the same. *)
Lemma lock_inv_move s i p m :
  lock_inv s -> locks m = locks (m_of s) ->
  (forall l, p ≠ AcqRecord l /\ p ≠ RelClear l /\ p ≠ RelStore l) ->
  (forall l, pc_of s i ≠ AcqRecord l /\ pc_of s i ≠ RelClear l /\ pc_of s i ≠ RelStore l) ->
  (forall l, p = Dead "acquire" l -> l ∈ cs s i) ->
  (forall l, p = Dead "release" l -> l ∉ cs s i) ->
  lock_inv (goto i p (with_mach m s)).
Proof.
  intros [I1 I2 I3 I4 I5 I6 I7] El Hp Hs Ha Hr.
  assert (forall j l, owns (goto i p (with_mach m s)) j l <-> owns s j l) as EO.
  { intros j l. unfold owns. cbn. destruct (decide (j = i)) as [->|N].
    - rewrite fn_lookup_insert. specialize (Hp l). specialize (Hs l). tauto.
    - by rewrite fn_lookup_insert_ne. }
  assert (forall j l, recorded (goto i p (with_mach m s)) j l <-> recorded s j l) as ER.
  { intros j l. unfold recorded. cbn. destruct (decide (j = i)) as [->|N].
    - rewrite fn_lookup_insert. specialize (Hp l). specialize (Hs l). tauto.
    - by rewrite fn_lookup_insert_ne. }
  split; cbn.
  - intros l. rewrite El, I1. by setoid_rewrite EO.
  - intros j k l. rewrite !EO. apply I2.
  - intros j l. rewrite El, I3, ER. done.
  - done.
  - intros j l. destruct (decide (j = i)) as [->|N].
    + rewrite fn_lookup_insert. specialize (Hp l). tauto.
    + rewrite fn_lookup_insert_ne by done. apply I5.
  - intros j l. destruct (decide (j = i)) as [->|N].
    + rewrite fn_lookup_insert. apply Ha.
    + rewrite fn_lookup_insert_ne by done. apply I6.
  - intros j l. destruct (decide (j = i)) as [->|N].
    + rewrite fn_lookup_insert. apply Hr.
    + rewrite fn_lookup_insert_ne by done. apply I7.
Qed.

(** A step of processor [i] on a lock [l] that no other processor owns. *)
Lemma lock_inv_at s s' i l :
  lock_inv s ->
  (forall j, j ≠ i -> ~ owns s j l) ->
  (forall j, j ≠ i -> pc_of s' j = pc_of s j /\ cs s' j = cs s j) ->
  (forall l', l' ≠ l -> locks (m_of s') l' = locks (m_of s) l' /\
     (owns s' i l' <-> owns s i l') /\ (recorded s' i l' <-> recorded s i l')) ->
  (locked (locks (m_of s') l) ≠ 0 <-> owns s' i l) ->
  (forall j, cpu_of (locks (m_of s') l) = Some j <-> j = i /\ recorded s' i l) ->
  NoDup (cs s' i) ->
  (forall l', pc_of s' i = AcqRecord l' \/ pc_of s' i = RelClear l' \/ pc_of s' i = RelStore l' ->
     l' ∉ cs s' i) ->
  (forall msg l', pc_of s' i ≠ Dead msg l') ->
  lock_inv s'.
Proof.
  intros [I1 I2 I3 I4 I5 I6 I7] No Hj Hl H1 H3 H4 H5 H6.
  assert (forall j l', j ≠ i -> (owns s' j l' <-> owns s j l') /\
    (recorded s' j l' <-> recorded s j l')) as EO.
  { intros j l' N. unfold owns, recorded. by destruct (Hj j N) as [-> ->]. }
  assert (forall j l', l' ≠ l -> (owns s' j l' <-> owns s j l') /\
    (recorded s' j l' <-> recorded s j l')) as EL.
  { intros j l' N. destruct (decide (j = i)) as [->|]; [by apply Hl | by apply EO]. }
  assert (forall j, recorded s j l -> owns s j l) as RO by (unfold recorded, owns; tauto).
  split.
  - intros l'. destruct (decide (l' = l)) as [->|N].
    + rewrite H1. split; [by exists i|]. intros [j Oj]. destruct (decide (j = i)) as [->|Nj]; [done|].
      destruct (No j Nj). by apply EO.
    + destruct (Hl l' N) as [-> _]. rewrite I1. split; intros [j Oj]; exists j; by apply EL.
  - intros j k l'. destruct (decide (l' = l)) as [->|N].
    + destruct (decide (j = i)), (decide (k = i)); subst; try done; intros Oj Ok;
        exfalso; eapply No; eauto; by apply EO.
    + rewrite !(proj1 (EL _ l' N)). apply I2.
  - intros j l'. destruct (decide (l' = l)) as [->|N].
    + rewrite H3. split; [by intros [-> R]|]. intros R.
      destruct (decide (j = i)) as [->|Nj]; [done|]. destruct (No j Nj). by apply RO, EO.
    + destruct (Hl l' N) as [-> _]. rewrite I3. symmetry. by apply EL.
  - intros j. destruct (decide (j = i)) as [->|Nj]; [done|]. by rewrite (proj2 (Hj j Nj)).
  - intros j l'. destruct (decide (j = i)) as [->|Nj]; [apply H5|].
    destruct (Hj j Nj) as [-> ->]. apply I5.
  - intros j l'. destruct (decide (j = i)) as [->|Nj]; [intros E; by destruct (H6 _ _ E)|].
    destruct (Hj j Nj) as [-> ->]. apply I6.
  - intros j l'. destruct (decide (j = i)) as [->|Nj]; [intros E; by destruct (H6 _ _ E)|].
    destruct (Hj j Nj) as [-> ->]. apply I7.
Qed.

Lemma elem_of_without l l' h : l' ∈ without l h <-> l' ≠ l /\ l' ∈ h.
Proof. unfold without. by rewrite list_elem_of_filter. Qed.

(** Discharges the side conditions of [lock_inv_at] for a concrete step. *)
Ltac at_step Epc :=
  unfold owns, recorded; cbn;
  repeat first [ rewrite fn_lookup_insert | rewrite fn_lookup_insert_ne by done ];
  rewrite ?Epc, ?elem_of_cons, ?elem_of_without;
  cbn; try (split; [|split]); try done; intuition congruence.

Lemma owner_alone s i l : lock_inv s -> owns s i l -> forall j, j ≠ i -> ~ owns s j l.
Proof. intros I O j N Oj. apply N. by apply (inv_unique s I j i l). Qed.

Lemma take_inv s i l :
  lock_inv s -> pc_of s i = AcqXchg l -> locked (locks (m_of s) l) = 0 ->
  lock_inv (goto i (AcqRecord l) (with_mach (xchg_locked l (m_of s)).2 s)).
Proof.
  intros I Epc E0.
  assert (forall j, ~ owns s j l) as No.
  { intros j O. by destruct (proj2 (inv_locked s I l) (ex_intro _ j O)). }
  assert (forall j, ~ recorded s j l) as Nr by (intros j R; apply (No j); unfold recorded, owns in *; tauto).
  assert (l ∉ cs s i) by (intros H; apply (No i); by left).
  pose proof (inv_nodup s I i).
  eapply (lock_inv_at s _ i l I); [auto|..].
  - intros j N. at_step Epc.
  - intros l' N. at_step Epc.
  - at_step Epc.
  - intros j. cbn. rewrite fn_lookup_insert. cbn. rewrite (inv_cpu s I).
    specialize (Nr j). unfold recorded in Nr. at_step Epc.
  - done.
  - intros l'. at_step Epc.
  - intros msg l'. at_step Epc.
Qed.

Lemma record_inv s i l a :
  lock_inv s -> pc_of s i = AcqRecord l ->
  lock_inv (goto i Run (with_cs i (l :: cs s i) (with_mach (record_owner stack a l i (m_of s)) s))).
Proof.
  intros I Epc. assert (owns s i l) as O by (unfold owns; auto).
  assert (l ∉ cs s i) by (apply (inv_fresh s I); auto).
  assert (locked (locks (m_of s) l) ≠ 0) by (apply (inv_locked s I); eauto).
  pose proof (inv_nodup s I i).
  eapply (lock_inv_at s _ i l I); [by apply owner_alone|..].
  - intros j N. at_step Epc.
  - intros l' N. at_step Epc.
  - at_step Epc.
  - intros j. at_step Epc.
  - cbn. rewrite fn_lookup_insert. by constructor.
  - intros l'. at_step Epc.
  - intros msg l'. at_step Epc.
Qed.

Lemma rel_mine_inv s i l m :
  lock_inv s -> locks m = locks (m_of s) -> pc_of s i = RelCpu l -> l ∈ cs s i ->
  lock_inv (goto i (RelClear l) (with_cs i (without l (cs s i)) (with_mach m s))).
Proof.
  intros I El Epc Hl. assert (owns s i l) as O by (unfold owns; auto).
  assert (locked (locks (m_of s) l) ≠ 0) by (apply (inv_locked s I); eauto).
  assert (cpu_of (locks (m_of s) l) = Some i) by (apply (inv_cpu s I); by left).
  pose proof (inv_nodup s I i).
  eapply (lock_inv_at s _ i l I); [by apply owner_alone|..]; cbn; rewrite ?El.
  - intros j N. at_step Epc.
  - intros l' N. at_step Epc.
  - at_step Epc.
  - intros j. at_step Epc.
  - cbn. rewrite fn_lookup_insert. unfold without. eapply sublist_NoDup; [done|apply sublist_filter].
  - intros l'. at_step Epc.
  - intros msg l'. at_step Epc.
Qed.

Lemma rel_clear_inv s i l :
  lock_inv s -> pc_of s i = RelClear l ->
  lock_inv (goto i (RelStore l) (with_mach (clear_owner l (m_of s)) s)).
Proof.
  intros I Epc. assert (owns s i l) as O by (unfold owns; auto).
  assert (locked (locks (m_of s) l) ≠ 0) by (apply (inv_locked s I); eauto).
  assert (l ∉ cs s i) by (apply (inv_fresh s I); auto).
  pose proof (inv_nodup s I i).
  eapply (lock_inv_at s _ i l I); [by apply owner_alone|..].
  - intros j N. at_step Epc.
  - intros l' N. at_step Epc.
  - at_step Epc.
  - intros j. at_step Epc.
  - done.
  - intros l'. at_step Epc.
  - intros msg l'. at_step Epc.
Qed.

Lemma rel_store_inv s i l :
  lock_inv s -> pc_of s i = RelStore l ->
  lock_inv (goto i (RelPop l) (with_mach (clear_locked l (m_of s)) s)).
Proof.
  intros I Epc. assert (owns s i l) as O by (unfold owns; auto).
  assert (l ∉ cs s i) by (apply (inv_fresh s I); auto).
  assert (forall j, ~ recorded s j l) as Nr.
  { intros j R. assert (j = i) as -> by (apply (inv_unique s I j i l); [unfold owns, recorded in *; tauto|done]).
    destruct R; congruence. }
  pose proof (inv_nodup s I i).
  eapply (lock_inv_at s _ i l I); [by apply owner_alone|..].
  - intros j N. at_step Epc.
  - intros l' N. at_step Epc.
  - at_step Epc.
  - intros j. cbn. rewrite fn_lookup_insert. cbn. rewrite (inv_cpu s I).
    specialize (Nr j). unfold recorded in Nr. at_step Epc.
  - done.
  - intros l'. at_step Epc.
  - intros msg l'. at_step Epc.
Qed.

Lemma spin_inv s l : lock_inv s -> locked (locks (m_of s) l) ≠ 0 ->
  lock_inv (with_mach (xchg_locked l (m_of s)).2 s).
Proof.
  intros [I1 I2 I3 I4 I5 I6 I7] E. split; try done; cbn.
  - intros l'. change (exists i, owns (with_mach _ s) i l') with (exists i, owns s i l').
    rewrite <- I1. destruct (decide (l' = l)) as [->|N].
    + rewrite fn_lookup_insert. cbn. lia.
    + by rewrite fn_lookup_insert_ne.
  - intros i l'. change (recorded (with_mach _ s) i l') with (recorded s i l').
    rewrite <- I3. destruct (decide (l' = l)) as [->|N].
    + by rewrite fn_lookup_insert.
    + by rewrite fn_lookup_insert_ne.
Qed.

(** Processor [i] moves with its depth adjusted; the others stay. *)
Lemma cli_inv_step s s' i :
  cli_inv s -> wf_cpus (m_of s') ->
  (forall j, j ≠ i -> cpus (m_of s') !! j = cpus (m_of s) !! j /\
     eflags (m_of s') j = eflags (m_of s) j /\ pc_of s' j = pc_of s j /\ cs s' j = cs s j) ->
  ((forall msg l, pc_of s' i ≠ Dead msg l) -> is_Some (cpus (m_of s') !! i) ->
     cli_depth i (m_of s') (Z.of_nat (length (cs s' i)) + pc_depth (pc_of s' i))) ->
  cli_inv s'.
Proof.
  intros [W D] W' Hj Hd. split; [done|]. intros j Hi.
  destruct (decide (j = i)) as [->|N]; [auto|].
  destruct (Hj j N) as (Ec & Ee & -> & ->). intros HD.
  eapply cli_depth_other; [done..|]. apply D; [by rewrite <- Ec | done].
Qed.

(** The depth of a processor that is inside a call or about to make one. *)
Lemma cli_inv_at s i p : cli_inv s -> pc_of s i = p -> (forall msg l, p ≠ Dead msg l) ->
  is_Some (cpus (m_of s) !! i) ->
  cli_depth i (m_of s) (Z.of_nat (length (cs s i)) + pc_depth p).
Proof. intros [_ D] <- HD Hi. by apply D. Qed.

Lemma without_absent l h : l ∉ h -> without l h = h.
Proof.
  unfold without. induction h as [|y h IH]; [done|]. intros [Hy Hx]%not_elem_of_cons.
  rewrite filter_cons_True by congruence. by rewrite IH.
Qed.

Lemma length_without l h : NoDup h -> l ∈ h -> Z.of_nat (length h) = Z.of_nat (length (without l h)) + 1.
Proof.
  induction 1 as [|x h Hx Hn IH]; intros Hl; [by apply not_elem_of_nil in Hl|].
  unfold without in *. rewrite filter_cons. apply elem_of_cons in Hl.
  destruct (decide (x ≠ l)) as [N|N].
  - destruct Hl as [?|Hl]; [congruence|]. cbn. specialize (IH Hl). lia.
  - apply dec_stable in N. subst x.
    change (filter _ h) with (without l h). rewrite without_absent by done. cbn. lia.
Qed.

(** A processor that could run [mycpu], [pushcli] or [popcli] is in the table. *)
Lemma mycpu_present i m k : wf_cpus m -> mycpu i m = Ok k -> k = i /\ is_Some (cpus m !! i).
Proof.
  unfold mycpu. intros W. destruct (interruptible i m); [done|].
  destruct (find_cpu _ _) as [j|] eqn:F; intros [= <-]. by apply find_cpu_some.
Qed.

Lemma pushcli_present i m m' : wf_cpus m -> pushcli i m = Ok m' -> is_Some (cpus m !! i).
Proof.
  intros W. unfold pushcli. destruct (mycpu i (cli i m)) as [k|] eqn:E; [|done]. intros _.
  assert (wf_cpus (cli i m)) as W' by exact W. by destruct (mycpu_present i (cli i m) k W' E).
Qed.

Lemma popcli_present i m m' : wf_cpus m -> popcli i m = Ok m' -> is_Some (cpus m !! i).
Proof.
  intros W. unfold popcli. destruct (interruptible i m); [done|].
  destruct (mycpu i m) as [k|] eqn:E; [|done]. intros _. by destruct (mycpu_present i m k W E).
Qed.

Lemma pushcli_inv i m m' n : wf_cpus m -> cli_depth i m n -> pushcli i m = Ok m' -> 0 <= n ->
  cli_depth i m' (n + 1) /\ same_but_cpu i m m'.
Proof. intros W D E Hn. destruct (pushcli_spec i m n W D Hn) as (m2 & E2 & H).
  rewrite E in E2. by injection E2 as ->. Qed.

Lemma popcli_inv i m m' n : wf_cpus m -> cli_depth i m n -> popcli i m = Ok m' -> 1 <= n ->
  cli_depth i m' (n - 1) /\ same_but_cpu i m m'.
Proof. intros W D E Hn. destruct (popcli_spec i m n W D Hn) as (m2 & E2 & H).
  rewrite E in E2. by injection E2 as ->. Qed.

(** Applies [cli_inv_step] for processor [i]; [S] says what the step left alone
    of the processors.  The depth of processor [i] remains to be shown. *)
Ltac cli_step C i S :=
  eapply (cli_inv_step _ _ i C); cbn;
  [ first [apply (proj1 (proj2 S)), C | apply C]
  | let j := fresh "j" in let N := fresh "N" in
    intros j N; rewrite ?fn_lookup_insert_ne by done;
    first [destruct (proj2 (proj2 S) j N) as [-> ->]; done | done]
  | rewrite ?fn_lookup_insert; intros HD Hi ].

Lemma step_cli_inv s s' : cli_inv s -> lock_inv s -> step s s' -> cli_inv s'.
Proof.
  intros C I St. pose proof (proj1 C) as W.
  pose proof (fun i p E => cli_inv_at s i p C E) as At.
  destruct St as
    [ i l s m1 m2 Epc E1 E2 | i l s m1 Epc E0 E1 | i l s Epc E0 | i l s k Epc Ek Ec
    | i l s k m1 Epc Ek Ec E1 | i l s old m1 Epc E0 E1 | i l s old m1 Epc E0 E1 | i l s k Epc Ek
    | i l s m1 Epc E1 | i l s Epc E0 | i l s Epc E0 | i l s k Epc Ek Ec | i l s k m1 Epc Ek Ec E1
    | i l s Epc | i l s Epc | i l s m1 Epc E1 ];
    specialize (At i _ Epc ltac:(discriminate)); cbn [pc_depth] in At.
  - pose proof (pushcli_present _ _ _ W E1) as P. specialize (At P).
    destruct (pushcli_inv i _ _ _ W At E1 ltac:(lia)) as [D1 S1].
    assert (wf_cpus m1) as W1 by by apply S1.
    destruct (pushcli_inv i _ _ _ W1 D1 E2 ltac:(lia)) as [D2 S2].
    pose proof (same_but_cpu_trans _ _ _ _ S1 S2) as S3. cli_step C i S3.
    cbn. by replace (_ + 2) with (Z.of_nat (length (cs s i)) + 0 + 1 + 1) by lia.
  - specialize (At (popcli_present _ _ _ W E1)).
    destruct (popcli_inv i _ _ _ W At E1 ltac:(lia)) as [D1 S1]. cli_step C i S1.
    cbn. by replace (_ + 1) with (Z.of_nat (length (cs s i)) + 2 - 1) by lia.
  - cli_step C i C. by apply At.
  - cli_step C i C. by destruct (HD "acquire" l).
  - specialize (At (popcli_present _ _ _ W E1)).
    destruct (popcli_inv i _ _ _ W At E1 ltac:(lia)) as [D1 S1]. cli_step C i S1.
    cbn. by replace (_ + 1) with (Z.of_nat (length (cs s i)) + 2 - 1) by lia.
  - injection E0 as _ <-. cli_step C i C. rewrite Epc. by apply At.
  - injection E0 as _ <-. cli_step C i C. by apply At.
  - cli_step C i C. cbn [length]. replace (_ + _) with (Z.of_nat (length (cs s i)) + 1) by (cbn; lia).
    by apply At.
  - specialize (At (pushcli_present _ _ _ W E1)).
    destruct (pushcli_inv i _ _ _ W At E1 ltac:(lia)) as [D1 S1]. cli_step C i S1.
    cbn. by replace (_ + 1) with (Z.of_nat (length (cs s i)) + 0 + 1) by lia.
  - cli_step C i C. by destruct (HD "release" l).
  - cli_step C i C. by apply At.
  - cli_step C i C. by destruct (HD "release" l).
  - specialize (At (popcli_present _ _ _ W E1)).
    destruct (popcli_inv i _ _ _ W At E1 ltac:(lia)) as [D1 S1].
    rewrite (mycpu_self _ _ _ W Ek) in Ec. apply (inv_cpu s I) in Ec as [Ec|Ec]; [|congruence].
    rewrite (length_without l _ (inv_nodup s I i) Ec) in D1. cli_step C i S1.
    cbn. by replace (_ + 1) with (Z.of_nat (length (without l (cs s i))) + 1 + 1 - 1) by lia.
  - cli_step C i C. by apply At.
  - cli_step C i C. by apply At.
  - specialize (At (popcli_present _ _ _ W E1)).
    destruct (popcli_inv i _ _ _ W At E1 ltac:(lia)) as [D1 S1]. cli_step C i S1.
    cbn. by replace (_ + 0) with (Z.of_nat (length (cs s i)) + 1 - 1) by lia.
Qed.

Lemma step_lock_inv s s' : cli_inv s -> lock_inv s -> step s s' -> lock_inv s'.
Proof.
  intros C I St. pose proof (proj1 C) as W.
  pose proof (fun i p E => cli_inv_at s i p C E) as At.
  destruct St as
    [ i l s m1 m2 Epc E1 E2 | i l s m1 Epc E0 E1 | i l s Epc E0 | i l s k Epc Ek Ec
    | i l s k m1 Epc Ek Ec E1 | i l s old m1 Epc E0 E1 | i l s old m1 Epc E0 E1 | i l s k Epc Ek
    | i l s m1 Epc E1 | i l s Epc E0 | i l s Epc E0 | i l s k Epc Ek Ec | i l s k m1 Epc Ek Ec E1
    | i l s Epc | i l s Epc | i l s m1 Epc E1 ];
    specialize (At i _ Epc ltac:(discriminate)); cbn [pc_depth] in At;
    try rewrite (mycpu_self _ _ _ W Ek) in *.
  - specialize (At (pushcli_present _ _ _ W E1)).
    destruct (pushcli_inv i _ _ _ W At E1 ltac:(lia)) as [D1 S1].
    assert (wf_cpus m1) as W1 by by apply S1.
    destruct (pushcli_inv i _ _ _ W1 D1 E2 ltac:(lia)) as [D2 S2].
    apply lock_inv_move; try done; [destruct S1, S2; congruence | by rewrite Epc].
  - specialize (At (popcli_present _ _ _ W E1)).
    destruct (popcli_inv i _ _ _ W At E1 ltac:(lia)) as [D1 S1].
    apply lock_inv_move; try done; [apply S1 | by rewrite Epc].
  - apply (lock_inv_move s i _ (m_of s)); try done; by rewrite Epc.
  - apply (lock_inv_move s i _ (m_of s)); try done; [by rewrite Epc|].
    intros ? [= <-]. apply (inv_cpu s I) in Ec as [Ec|Ec]; [done|congruence].
  - specialize (At (popcli_present _ _ _ W E1)).
    destruct (popcli_inv i _ _ _ W At E1 ltac:(lia)) as [D1 S1].
    apply lock_inv_move; try done; [apply S1 | by rewrite Epc].
  - injection E0 as <- <-. by apply spin_inv.
  - injection E0 as <- <-. by apply take_inv.
  - by apply record_inv.
  - specialize (At (pushcli_present _ _ _ W E1)).
    destruct (pushcli_inv i _ _ _ W At E1 ltac:(lia)) as [D1 S1].
    apply lock_inv_move; try done; [apply S1 | by rewrite Epc].
  - apply (lock_inv_move s i _ (m_of s)); try done; [by rewrite Epc|].
    intros ? [= <-] Hl. apply (inv_locked s I l); [|done]. exists i. by left.
  - apply (lock_inv_move s i _ (m_of s)); try done; by rewrite Epc.
  - apply (lock_inv_move s i _ (m_of s)); try done; [by rewrite Epc|].
    intros ? [= <-] Hl. apply Ec, (inv_cpu s I). by left.
  - specialize (At (popcli_present _ _ _ W E1)).
    destruct (popcli_inv i _ _ _ W At E1 ltac:(lia)) as [D1 S1].
    apply rel_mine_inv; try done; [apply S1|].
    apply (inv_cpu s I) in Ec as [Ec|Ec]; [done|congruence].
  - by apply rel_clear_inv.
  - by apply rel_store_inv.
  - specialize (At (popcli_present _ _ _ W E1)).
    destruct (popcli_inv i _ _ _ W At E1 ltac:(lia)) as [D1 S1].
    apply lock_inv_move; try done; [apply S1 | by rewrite Epc].
Qed.

(** What the boot code leaves: every lock initialised, no processor inside
    [pushcli]. *)
Definition booted (m : mach) : Prop :=
  wf_cpus m /\ (forall k c, cpus m !! k = Some c -> ncli c = 0) /\
  (forall l, locked (locks m l) = 0 /\ cpu_of (locks m l) = None) /\
  (forall i, saved i = Z.land (eflags m i) FL_IF).

Lemma boot_inv m : booted m -> cli_inv (boot m) /\ lock_inv (boot m).
Proof.
  intros (W & Hn & Hl & Hs). split.
  - split; [done|]. intros i [c Hc] _. exists c. cbn. split; [done|].
    rewrite (Hn i c Hc). split; [done|]. split; [by rewrite Hs | lia].
  - assert (forall i l, ~ owns (boot m) i l) as No.
    { intros i l [H|[H|[H|H]]]; try discriminate. by apply not_elem_of_nil in H. }
    split; cbn; try done.
    + intros l. rewrite (proj1 (Hl l)). split; [done|]. intros [i O]. by destruct (No i l).
    + intros i j l O. by destruct (No i l).
    + intros i l. rewrite (proj2 (Hl l)). split; [done|]. intros [O|O]; [|done].
      by apply not_elem_of_nil in O.
    + intros i. apply NoDup_nil_2.
    + intros i l [H|[H|H]]; done.
Qed.

Lemma reachable_inv m s : booted m -> reachable (boot m) s -> cli_inv s /\ lock_inv s.
Proof.
  intros B. induction 1 as [|s s' R [C I] St]; [by apply boot_inv|].
  split; [by apply (step_cli_inv s) | by apply (step_lock_inv s)].
Qed.

(** What a live processor can do next.  Only a spinning processor whose lock is
    owned stays where it is. *)
Lemma can_step s i :
  cli_inv s -> is_Some (cpus (m_of s) !! i) -> (forall msg l, pc_of s i ≠ Dead msg l) ->
  exists s', step s s' /\
    (pc_of s' i ≠ pc_of s i \/
     exists l, pc_of s i = AcqXchg l /\ locked (locks (m_of s) l) ≠ 0).
Proof.
  intros C P HD. pose proof (proj1 C) as W. pose proof (proj2 C i P HD) as D.
  assert (1 <= pc_depth (pc_of s i) -> mycpu i (m_of s) = Ok i) as My.
  { intros Hd. destruct D as (c & Hc & _ & _ & Hp). eapply mycpu_ok; [done..|]. apply Hp. lia. }
  assert (1 <= pc_depth (pc_of s i) -> exists m', popcli i (m_of s) = Ok m') as Pop.
  { intros Hd. destruct (popcli_spec i _ _ W D ltac:(lia)) as (m' & E & _). by exists m'. }
  destruct (pc_of s i) as [|l|l|l|l|l|l|l|l|l|msg l] eqn:Epc; cbn [pc_depth] in *;
    try specialize (My ltac:(lia)); try destruct (Pop ltac:(lia)) as [m' Em'].
  - destruct (pushcli_spec i _ _ W D ltac:(lia)) as (m1 & E1 & _).
    eexists. split; [by eapply (step_release i Lkmem)|]. left. cbn. by rewrite fn_lookup_insert.
  - destruct (decide (locked (locks (m_of s) l) = 0)); eexists;
      (split; [by eauto using step_acq_free, step_acq_taken|]); left; cbn; by rewrite fn_lookup_insert.
  - destruct (decide (cpu_of (locks (m_of s) l) = Some i)); eexists;
      (split; [by eauto using step_acq_self, step_acq_other|]); left; cbn; by rewrite fn_lookup_insert.
  - destruct (decide (locked (locks (m_of s) l) = 0)) as [E|E].
    + eexists. split; [by eapply (step_take i l)|]. left. cbn. by rewrite fn_lookup_insert.
    + eexists. split; [by eapply (step_spin i l)|]. right. by exists l.
  - eexists. split; [by eapply step_record|]. left. cbn. by rewrite fn_lookup_insert.
  - destruct (decide (locked (locks (m_of s) l) = 0)); eexists;
      (split; [by eauto using step_rel_free, step_rel_taken|]); left; cbn; by rewrite fn_lookup_insert.
  - destruct (decide (cpu_of (locks (m_of s) l) = Some i)); eexists;
      (split; [by eauto using step_rel_mine, step_rel_other|]); left; cbn; by rewrite fn_lookup_insert.
  - eexists. split; [by eapply step_rel_clear|]. left. cbn. by rewrite fn_lookup_insert.
  - eexists. split; [by eapply step_rel_store|]. left. cbn. by rewrite fn_lookup_insert.
  - eexists. split; [by eapply step_rel_pop|]. left. cbn. by rewrite fn_lookup_insert.
  - by destruct (HD msg l).
Qed.

(** ** The kernel monad's locks

    [holds m i h]: the locks [h] are those processor [i] holds, and it is that
    deep in [pushcli]. *)
Definition holds (m : mach) (i : nat) (h : list lockid) : Prop :=
  wf_cpus m /\ NoDup h /\ cli_depth i m (Z.of_nat (length h)) /\
  forall l, (locked (locks m l) ≠ 0 /\ cpu_of (locks m l) = Some i) <-> l ∈ h.

Lemma holding_spec m i l n :
  wf_cpus m -> cli_depth i m n -> 0 <= n ->
  exists m', holding l i m =
    Ok (negb (locked (locks m l) =? 0) && bool_decide (cpu_of (locks m l) = Some i), m') /\
    cli_depth i m' n /\ same_but_cpu i m m'.
Proof.
  intros W D Hn. unfold holding.
  destruct (pushcli_spec i m n W D Hn) as (m1 & -> & D1 & S1).
  assert (wf_cpus m1) as W1 by by apply S1.
  assert (mycpu i m1 = Ok i) as ->.
  { destruct D1 as (c & Hc & _ & _ & Hp). eapply mycpu_ok; [done..|]. apply Hp. lia. }
  destruct (popcli_spec i m1 (n + 1) W1 D1 ltac:(lia)) as (m2 & -> & D2 & S2).
  exists m2. destruct S1 as (El & S1). rewrite El. split; [done|].
  replace (n + 1 - 1) with n in D2 by lia. split; [done|].
  eapply same_but_cpu_trans; [|exact S2]. by split.
Qed.

Lemma holding_decides m i l h : holds m i h ->
  negb (locked (locks m l) =? 0) && bool_decide (cpu_of (locks m l) = Some i) = bool_decide (l ∈ h).
Proof.
  intros (_ & _ & _ & H). specialize (H l). apply eq_bool_prop_intro.
  rewrite andb_True, !bool_decide_spec, negb_True, Is_true_true, Z.eqb_eq. exact H.
Qed.

Lemma depth_mycpu m i n : wf_cpus m -> cli_depth i m n -> 1 <= n -> mycpu i m = Ok i.
Proof.
  intros W (c & Hc & _ & _ & Hp) Hn. eapply mycpu_ok; [done..|]. apply Hp. lia.
Qed.

Lemma acquire_spec m i l h :
  holds m i h -> l ∈ h \/ locked (locks m l) = 0 ->
  if decide (l ∈ h) then acquire l i m = Panicked "acquire"
  else exists m', acquire l i m = Ok (Some m') /\ holds m' i (l :: h).
Proof.
  intros H Hl. pose proof (holding_decides m i l h H) as Hd. destruct H as (W & Hnd & D & HL).
  unfold acquire. destruct (pushcli_spec i m _ W D ltac:(lia)) as (m1 & -> & D1 & S1).
  assert (wf_cpus m1) as W1 by by apply S1.
  destruct (holding_spec m1 i l _ W1 D1 ltac:(lia)) as (m2 & -> & D2 & S2).
  destruct S1 as (E1 & S1). rewrite E1, Hd.
  destruct (decide (l ∈ h)) as [Hin|Hin];
    [by rewrite bool_decide_eq_true_2 | rewrite bool_decide_eq_false_2 by done].
  destruct Hl as [?|H0]; [done|]. destruct S2 as (E2 & W2 & _). specialize (W2 W1).
  cbn [xchg_locked]. unfold xchg_locked. rewrite E2, E1, H0. cbn [negb Z.eqb].
  set (m3 := set_lock l _ m2). assert (cli_depth i m3 (Z.of_nat (length h) + 1)) as D3 by exact D2.
  assert (wf_cpus m3) as W3 by exact W2.
  rewrite (depth_mycpu m3 i _ W3 D3) by lia. eexists. split; [reflexivity|].
  split; [done|]. split; [by constructor|]. split.
  - replace (Z.of_nat (length (l :: h))) with (Z.of_nat (length h) + 1) by (cbn; lia). exact D3.
  - intros l'. cbn. destruct (decide (l' = l)) as [->|N].
    + rewrite !fn_lookup_insert. cbn. split; [left|done].
    + rewrite !fn_lookup_insert_ne by done. rewrite E2, E1, HL, elem_of_cons. intuition congruence.
Qed.

Lemma drop_lock_spec l h : NoDup h ->
  drop_lock l h = if decide (l ∈ h) then Some (without l h) else None.
Proof.
  induction 1 as [|x h Hx Hn IH]; [by rewrite decide_False by apply not_elem_of_nil|].
  cbn [drop_lock]. unfold without in *. rewrite filter_cons. destruct (decide (x = l)) as [->|N].
  - rewrite decide_True by apply list_elem_of_here. rewrite decide_False by congruence.
    f_equal. symmetry. by apply without_absent.
  - rewrite IH, (decide_True _ _ N). destruct (decide (l ∈ h)) as [Hl|Hl].
    + by rewrite decide_True by by apply list_elem_of_further.
    + rewrite decide_False; [done|]. rewrite elem_of_cons. intuition congruence.
Qed.

Lemma release_spec m i l h :
  holds m i h ->
  if decide (l ∈ h) then exists m', release l i m = Ok m' /\ holds m' i (without l h)
  else release l i m = Panicked "release".
Proof.
  intros H. pose proof (holding_decides m i l h H) as Hd. destruct H as (W & Hnd & D & HL).
  unfold release. destruct (holding_spec m i l _ W D ltac:(lia)) as (m2 & -> & D2 & S2).
  rewrite Hd. destruct (decide (l ∈ h)) as [Hin|Hin];
    [rewrite bool_decide_eq_true_2 by done | by rewrite bool_decide_eq_false_2].
  destruct S2 as (E2 & W2 & _). specialize (W2 W).
  set (m3 := clear_locked l _). assert (cli_depth i m3 (Z.of_nat (length h))) as D3 by exact D2.
  rewrite (length_without l h Hnd Hin) in D3.
  assert (wf_cpus m3) as W3 by exact W2.
  destruct (popcli_spec i m3 _ W3 D3 ltac:(lia)) as (m4 & -> & D4 & S4).
  eexists. split; [reflexivity|]. split; [by apply S4|].
  split; [eapply sublist_NoDup; [done|apply sublist_filter]|]. split.
  - by replace (Z.of_nat (length (without l h)) + 1 - 1) with (Z.of_nat (length (without l h))) in D4 by lia.
  - intros l'. rewrite (proj1 S4). cbn. rewrite elem_of_without. destruct (decide (l' = l)) as [->|N].
    + rewrite !fn_lookup_insert. cbn. intuition congruence.
    + rewrite !fn_lookup_insert_ne by done. rewrite E2, HL. intuition congruence.
Qed.

End processor.

Definition boot_flag (m : mach) (i : nat) : Z := Z.land (eflags m i) FL_IF.

Lemma boot_flag_cases m i : boot_flag m i = 0 \/ boot_flag m i = FL_IF.
Proof.
  unfold boot_flag. change FL_IF with (Z.shiftl 1 9).
  destruct (Z.testbit (eflags m i) 9) eqn:E; [right|left]; apply Z.bits_inj'; intros n Hn;
    rewrite Z.land_spec, ?Z.bits_0; (destruct (Z.eq_dec n 9) as [->|N]; [by rewrite E|]);
    rewrite Z.shiftl_spec by lia;
    assert (Z.testbit 1 (n - 9) = false) as ->
      by (destruct (Z.le_gt_cases 9 n); [apply (Z.bits_above_log2 1); cbn; lia | by apply Z.testbit_neg_r; lia]);
    by rewrite andb_false_r.
Qed.

(** A machine as main.c leaves it: [cpus[k]] describes processor [k], the locks
    are initialised and nobody is inside [pushcli]. *)
Definition initial (lapicid : nat -> Z) (m : mach) : Prop :=
  wf_cpus lapicid m /\ (forall k c, cpus m !! k = Some c -> ncli c = 0) /\
  (forall l, locked (locks m l) = 0 /\ cpu_of (locks m l) = None).

Lemma initial_inv lapicid stack arg m s :
  (forall i j, lapicid i = lapicid j -> i = j) -> initial lapicid m ->
  reachable lapicid stack arg (boot m) s -> cli_inv lapicid (boot_flag m) s /\ lock_inv s.
Proof.
  intros Inj (W & N & L) R. eapply (reachable_inv lapicid stack arg (boot_flag m) Inj (boot_flag_cases m) m); [|done].
  split; [done|]. split; [done|]. by split.
Qed.

(** C6: mutual exclusion.  In every interleaving of any number of processors,
    each calling [acquire] and [release] on any locks at any time, at most one
    processor is between the return of [acquire(l)] and [release(l)]. *)
Theorem mutual_exclusion lapicid stack arg m s i j l :
  (forall i j, lapicid i = lapicid j -> i = j) -> initial lapicid m ->
  reachable lapicid stack arg (boot m) s ->
  l ∈ cs s i -> l ∈ cs s j -> i = j.
Proof.
  intros Inj B R Hi Hj. destruct (initial_inv lapicid stack arg m s Inj B R) as [_ I].
  apply (inv_unique s I i j l); by left.
Qed.

(** critical sections are not interrupted, and interrupts come back.  A live
    processor that holds a lock has %eflags.IF clear; one that holds none and is
    outside the lock code is at nesting depth 0 with IF as it was at boot. *)
Theorem interrupts_off_in_critical_section lapicid stack arg m s i :
  (forall i j, lapicid i = lapicid j -> i = j) -> initial lapicid m ->
  reachable lapicid stack arg (boot m) s ->
  is_Some (cpus (m_of s) !! i) -> pc_of s i = Run ->
  (cs s i ≠ [] -> interruptible i (m_of s) = false) /\
  (cs s i = [] -> ncli_of i (m_of s) = 0 /\ boot_flag (m_of s) i = boot_flag m i).
Proof.
  intros Inj B R P Epc. destruct (initial_inv lapicid stack arg m s Inj B R) as [C _].
  destruct (cli_inv_at _ _ s i Run C Epc ltac:(discriminate) P) as (c & Hc & Hn & H0 & H1).
  cbn [pc_depth] in *. split; intros E.
  - unfold interruptible. destruct H1 as [-> _]; [|done]. destruct (cs s i); [done|]. cbn. lia.
  - rewrite E in Hn, H0. unfold ncli_of. rewrite Hc. cbn in *. split; [lia | by apply H0].
Qed.

(** no false alarms and no stuck processor.  A processor dies in [acquire]
    only on a lock it already holds and in [release] only on one it does not
    hold; every other processor can take a step, and that step advances it
    unless it is spinning on a lock some processor owns. *)
Theorem locks_panic_only_on_misuse lapicid stack arg m s i :
  (forall i j, lapicid i = lapicid j -> i = j) -> initial lapicid m ->
  reachable lapicid stack arg (boot m) s -> is_Some (cpus (m_of s) !! i) ->
  (forall l, pc_of s i = Dead "acquire" l -> l ∈ cs s i) /\
  (forall l, pc_of s i = Dead "release" l -> l ∉ cs s i) /\
  ((forall msg l, pc_of s i ≠ Dead msg l) ->
   exists s', step lapicid stack arg s s' /\
     (pc_of s' i ≠ pc_of s i \/ exists l j, pc_of s i = AcqXchg l /\ owns s j l)).
Proof.
  intros Inj B R P. destruct (initial_inv lapicid stack arg m s Inj B R) as [C I].
  split; [apply (inv_dead_acquire s I)|]. split; [apply (inv_dead_release s I)|]. intros HD.
  destruct (can_step lapicid stack arg (boot_flag m) Inj (boot_flag_cases m) s i C P HD)
    as (s' & St & [H|(l & Epc & Hl)]); exists s'; (split; [done|]); [by left|right].
  apply (inv_locked s I l) in Hl as [j Hj]. by exists l, j.
Qed.

(** C31: the kernel monad's [acquire] and [release] summarise spinlock.c.  On a
    processor that holds the locks [h], the C code panics exactly where the
    summary does, with the same message, and otherwise leaves the processor
    holding the summary's list, one [pushcli] per lock. *)
Theorem spinlock_refines_monad lapicid stack arg m i l h t w :
  (forall i j, lapicid i = lapicid j -> i = j) ->
  holds lapicid (boot_flag m) m i h -> l ∈ h \/ locked (locks m l) = 0 ->
  match Prelude.acquire l (Ctx t h w) tt with
  | Ret _ c _ => exists m', acquire lapicid stack arg l i m = Ok (Some m') /\
      holds lapicid (boot_flag m) m' i (held c)
  | Panic msg => acquire lapicid stack arg l i m = Panicked msg
  | _ => False
  end /\
  match Prelude.release l (Ctx t h w) tt with
  | Ret _ c _ => exists m', release lapicid l i m = Ok m' /\
      holds lapicid (boot_flag m) m' i (held c)
  | Panic msg => release lapicid l i m = Panicked msg
  | _ => False
  end.
Proof.
  intros Inj H Hl.
  pose proof (acquire_spec lapicid stack arg _ Inj (boot_flag_cases m) m i l h H Hl) as Ha.
  pose proof (release_spec lapicid arg _ Inj (boot_flag_cases m) m i l h H) as Hr.
  unfold Prelude.acquire, Prelude.release. cbn [held].
  rewrite drop_lock_spec by apply H. by destruct (decide (l ∈ h)).
Qed.

(** ** Witnesses: two processors, the first holding [kmem.lock] *)

Definition two_cpus : mach :=
  Mach [Cpu 0 0 0; Cpu 1 0 0] (fun _ => FL_IF) (fun _ => initlock).
Definition no_stack : mem := fun _ => 0.
Definition no_arg (_ : nat) (_ : lockid) : Z := 0.

Lemma two_cpus_initial : initial Z.of_nat two_cpus.
Proof.
  split; [|split; [|done]]; intros [|[|k]] c [= <-]; done.
Qed.

Lemma two_cpus_holding : exists s,
  reachable Z.of_nat no_stack no_arg (boot two_cpus) s /\
  cs s 0%nat = [Lkmem] /\ pc_of s 0%nat = Run /\ is_Some (cpus (m_of s) !! 0%nat).
Proof.
  eexists. split.
  - eapply reach_step; [eapply reach_step; [eapply reach_step; [eapply reach_step; [apply reach_refl|]|]|]|].
    + by eapply (step_acquire _ _ _ 0 Lkmem).
    + by eapply (step_acq_free _ _ _ 0 Lkmem).
    + by eapply (step_take _ _ _ 0 Lkmem).
    + by eapply (step_record _ _ _ 0 Lkmem).
  - split; [reflexivity|]. split; [reflexivity|]. eexists. reflexivity.
Qed.

Lemma mutual_exclusion_witness : exists s,
  reachable Z.of_nat no_stack no_arg (boot two_cpus) s /\ forall j, Lkmem ∈ cs s j -> 0%nat = j.
Proof.
  destruct two_cpus_holding as (s & R & E & _). exists s. split; [exact R|]. intros j Hj.
  apply (mutual_exclusion Z.of_nat no_stack no_arg two_cpus s 0 j Lkmem);
    [intros ? ?; lia | exact two_cpus_initial | exact R | rewrite E; by left | exact Hj].
Defined.

Lemma interrupts_off_in_critical_section_witness : exists s,
  cs s 0%nat = [Lkmem] /\ interruptible 0 (m_of s) = false.
Proof.
  destruct two_cpus_holding as (s & R & E & Epc & P). exists s. split; [exact E|].
  apply (interrupts_off_in_critical_section Z.of_nat no_stack no_arg two_cpus s 0);
    [intros ? ?; lia | exact two_cpus_initial | exact R | exact P | exact Epc | by rewrite E].
Defined.

Lemma locks_panic_only_on_misuse_witness : exists s s',
  reachable Z.of_nat no_stack no_arg (boot two_cpus) s /\ step Z.of_nat no_stack no_arg s s'.
Proof.
  destruct two_cpus_holding as (s & R & E & Epc & P).
  destruct (locks_panic_only_on_misuse Z.of_nat no_stack no_arg two_cpus s 0)
    as (_ & _ & H); [intros ? ?; lia | exact two_cpus_initial | exact R | exact P |].
  destruct H as (s' & St & _); [by rewrite Epc|]. exists s, s'. split; [exact R | exact St].
Defined.

Lemma spinlock_refines_monad_witness : exists m',
  acquire Z.of_nat no_stack no_arg Lkmem 0 two_cpus = Ok (Some m').
Proof.
  destruct (spinlock_refines_monad Z.of_nat no_stack no_arg two_cpus 0 Lkmem [] (Thread 1 false) [])
    as [H _].
  - intros ? ?; lia.
  - split; [apply two_cpus_initial|]. split; [apply NoDup_nil_2|]. split.
    + exists (Cpu 0 0 0). done.
    + intros l. cbn. rewrite elem_of_nil. split; [by intros [? ?]|done].
  - by right.
  - destruct H as (m' & E & _). by exists m'.
Defined.

End Spinlock.
