(* ===== verification/Sleeplock.v ===== *)
(** sleeplock.c: the sleeping lock of buffers and inodes, in the kernel monad,
    and the protocol of the processes that use one: mutual exclusion, and no
    process asleep on a free lock. *)

From stdpp Require Import base numbers list strings functions.
From S2P Require Import Xv6 Prelude.

(** sleeplock.h; the spinlock [lk] is the lock [Lsleep id] of the monad. *)
Record sleeplock := Sleeplock { locked : bool; pid : Z }.

Definition initsleeplock : sleeplock := Sleeplock false 0.

(** The loop around [sleep] is resumed by running [acquiresleep] again: a
    sleeper wakes with [lk->lk] held and tests [lk->locked]. *)
Definition acquiresleep (id : Z) : M sleeplock unit :=
  acquire (Lsleep id);;
  b <- gets locked;;
  if b then sleep (Csleeplock id) (Lsleep id)
  else
    p <- myproc;;
    put (Sleeplock true (t_pid p));;
    release (Lsleep id).

Definition releasesleep (id : Z) : M sleeplock unit :=
  acquire (Lsleep id);;
  put (Sleeplock false 0);;
  wakeup (Csleeplock id);;
  release (Lsleep id).

Definition holdingsleep (id : Z) : M sleeplock bool :=
  acquire (Lsleep id);;
  p <- myproc;;
  k <- get;;
  release (Lsleep id);;
  ret (locked k && (pid k =? t_pid p)).

Section ops.
Variables (id : Z) (t : thread) (h : list lockid) (w : list chan).
Hypothesis Hid : Lsleep id ∉ h.
Hypothesis Hpt : Lptable ∉ h.

Lemma acquiresleep_free n :
  acquiresleep id (Ctx t h w) (Sleeplock false n) = Ret tt (Ctx t h w) (Sleeplock true (t_pid t)).
Proof. unfold acquiresleep. mrun. cbn [locked]. mrun. apply release_head. Qed.

Lemma releasesleep_runs k :
  releasesleep id (Ctx t h w) k = Ret tt (Ctx t h (w ++ [Csleeplock id])) (Sleeplock false 0).
Proof. unfold releasesleep. mrun. apply release_head. Qed.

Lemma holdingsleep_runs k :
  holdingsleep id (Ctx t h w) k = Ret (locked k && (pid k =? t_pid t)) (Ctx t h w) k.
Proof. unfold holdingsleep. mrun. done. Qed.

End ops.

Lemma acquiresleep_taken id t w n :
  acquiresleep id (Ctx t [] w) (Sleeplock true n) =
  Sleep (Csleeplock id) (Lsleep id) (Ctx t [] w) (Sleeplock true n).
Proof. unfold acquiresleep. mrun. cbn [locked]. by apply sleep_only. Qed.

(** ** The processes around one lock *)

Module Protocol.

Inductive phase := Outside | Wants | Asleep | Inside.

#[export] Instance phase_eq_dec : EqDecision phase.
Proof. solve_decision. Defined.

Record world := World { lk_of : sleeplock; phase_of : Z -> phase }.

(** [wakeup] makes every process sleeping on the channel runnable. *)
Definition wake_all (woken : list chan) (id : Z) (f : Z -> phase) : Z -> phase := fun p =>
  match f p with
  | Asleep => if decide (Csleeplock id ∈ woken) then Wants else Asleep
  | x => x
  end.

Inductive step (id : Z) : world -> world -> Prop :=
| step_want s p : phase_of s p = Outside ->
    step id s (World (lk_of s) (<[p := Wants]> (phase_of s)))
| step_enter s p b c k : phase_of s p = Wants ->
    acquiresleep id (Ctx (Thread p b) [] []) (lk_of s) = Ret tt c k ->
    step id s (World k (<[p := Inside]> (phase_of s)))
| step_block s p b ch lk c k : phase_of s p = Wants ->
    acquiresleep id (Ctx (Thread p b) [] []) (lk_of s) = Sleep ch lk c k ->
    step id s (World k (<[p := Asleep]> (phase_of s)))
| step_leave s p b c k : phase_of s p = Inside ->
    releasesleep id (Ctx (Thread p b) [] []) (lk_of s) = Ret tt c k ->
    step id s (World k (wake_all (woken c) id (<[p := Outside]> (phase_of s)))).

Definition start : world := World initsleeplock (fun _ => Outside).

Inductive reachable (id : Z) : world -> Prop :=
| reach_start : reachable id start
| reach_step s s' : reachable id s -> step id s s' -> reachable id s'.

(** The lock word and its [pid] say who is inside; nobody sleeps on a free lock. *)
Definition inv (s : world) : Prop :=
  (forall p, phase_of s p = Inside <-> locked (lk_of s) = true /\ pid (lk_of s) = p) /\
  (forall p, phase_of s p = Asleep -> locked (lk_of s) = true).

Lemma step_inv id s s' : inv s -> step id s s' -> inv s'.
Proof.
  intros [I1 I2] St.
  destruct St as [[k f] p E|[k f] p b c k' E R|[k f] p b ch lk c k' E R|[k f] p b c k' E R];
    cbn [lk_of phase_of] in *.
  - assert (~ (locked k = true /\ pid k = p)) as N by (rewrite <- I1; congruence).
    split; cbn; intros q; destruct (decide (q = p)) as [->|Nq];
      rewrite ?fn_lookup_insert, ?fn_lookup_insert_ne by done; try apply I1; try apply I2;
      [by split|done].
  - destruct k as [[] n]; [by rewrite acquiresleep_taken in R|].
    rewrite acquiresleep_free in R by apply not_elem_of_nil. minv. cbn in *.
    split; cbn; intros q; destruct (decide (q = p)) as [->|Nq];
      rewrite ?fn_lookup_insert, ?fn_lookup_insert_ne by done; try done.
    rewrite I1. intuition congruence.
  - destruct k as [[] n]; [|by rewrite acquiresleep_free in R by apply not_elem_of_nil].
    rewrite acquiresleep_taken in R. minv. cbn in *.
    assert (~ (true = true /\ n = p)) as N by (rewrite <- I1; congruence).
    split; cbn; intros q; destruct (decide (q = p)) as [->|Nq];
      rewrite ?fn_lookup_insert, ?fn_lookup_insert_ne by done; try done; try apply I1.
  - rewrite releasesleep_runs in R by apply not_elem_of_nil. minv.
    assert (forall q, q ≠ p -> f q ≠ Inside) as Alone.
    { intros q Nq Eq. apply I1 in E, Eq. destruct E, Eq. congruence. }
    split; cbn; unfold wake_all; intros q; destruct (decide (q = p)) as [->|Nq];
      rewrite ?fn_lookup_insert, ?fn_lookup_insert_ne by done; try done.
    + split; [done | by intros []].
    + split; [|by intros []]. destruct (f q) eqn:Eq; try done; [|by destruct (Alone q Nq)].
      by destruct (decide _).
    + destruct (f q) eqn:Eq; try done. rewrite decide_True; [done|]. by apply list_elem_of_singleton.
Qed.

Lemma protocol_inv id s : reachable id s -> inv s.
Proof.
  induction 1 as [|s s' R I St]; [|by eapply step_inv].
  split; cbn; intros p; [split; [done | by intros []] | done].
Qed.

(** C32: a sleeping lock excludes.  In every interleaving of processes that take
    and release it, at most one is inside, [holdingsleep] is true for exactly
    that process, and a process sleeps only while another is inside: no wakeup
    is lost. *)
Theorem sleeplock_excludes id s p b :
  reachable id s ->
  (forall q, phase_of s p = Inside -> phase_of s q = Inside -> p = q) /\
  holdingsleep id (Ctx (Thread p b) [] []) (lk_of s) =
    Ret (bool_decide (phase_of s p = Inside)) (Ctx (Thread p b) [] []) (lk_of s) /\
  (phase_of s p = Asleep -> exists q, phase_of s q = Inside /\ p ≠ q).
Proof.
  intros R. destruct (protocol_inv id s R) as [I1 I2]. split; [|split].
  - intros q Hp Hq. apply I1 in Hp, Hq. destruct Hp, Hq. congruence.
  - rewrite holdingsleep_runs by apply not_elem_of_nil. f_equal. cbn [t_pid].
    specialize (I1 p). destruct (locked (lk_of s)); cbn.
    + destruct (Z.eqb_spec (pid (lk_of s)) p).
      * by rewrite bool_decide_eq_true_2 by by apply I1.
      * rewrite bool_decide_eq_false_2; [done|]. rewrite I1. intuition congruence.
    + rewrite bool_decide_eq_false_2; [done|]. rewrite I1. intuition congruence.
  - intros Hp. exists (pid (lk_of s)). assert (phase_of s (pid (lk_of s)) = Inside) as E.
    { apply I1. split; [by apply (I2 p) | done]. }
    split; [done|]. intros ->. congruence.
Qed.

Lemma sleeplock_excludes_witness : exists s,
  phase_of s 3 = Asleep /\ exists q, phase_of s q = Inside /\ 3 ≠ q.
Proof.
  assert (exists s, reachable 7 s /\ phase_of s 3 = Asleep) as (s & R & E).
  { eexists. split.
    - eapply reach_step; [eapply reach_step; [eapply reach_step; [eapply reach_step;
        [apply reach_start|]|]|]|].
      + by eapply (step_want 7 _ 2).
      + by eapply (step_enter 7 _ 2 false).
      + by eapply (step_want 7 _ 3).
      + by eapply (step_block 7 _ 3 false).
    - reflexivity. }
  exists s. split; [exact E|].
  apply (sleeplock_excludes 7 s 3 false); [exact R | exact E].
Defined.

End Protocol.
