(* ===== verification/Proc.v ===== *)
(** proc.c, the core of the scheduler and of process life cycles: the process
    table, [allocproc], [userinit], [fork], [exit], [wait], [scheduler], [sched],
    [yield], [forkret], [sleep], [wakeup], [kill], [growproc], [proc_ps] and
    [proc_nice].  What proc.c calls in the allocator, the virtual memory, the
    file table and the file system is the interface [ProcEnv]. *)

From stdpp Require Import base numbers list strings.
From S2P Require Import Xv6 Prelude Kstring.

(** ** Data: types.h, proc.h, x86.h *)

Inductive procstate := UNUSED | EMBRYO | SLEEPING | RUNNABLE | RUNNING | ZOMBIE.

#[export] Instance procstate_eq_dec : EqDecision procstate.
Proof. solve_decision. Defined.

Definition procstate_num (st : procstate) : Z :=
  match st with
  | UNUSED => 0 | EMBRYO => 1 | SLEEPING => 2 | RUNNABLE => 3 | RUNNING => 4 | ZOMBIE => 5
  end.

(** struct trapframe, without its padding. *)
Record trapframe := Trapframe {
  tf_edi : Z; tf_esi : Z; tf_ebp : Z; tf_oesp : Z; tf_ebx : Z; tf_edx : Z; tf_ecx : Z; tf_eax : Z;
  tf_gs : Z; tf_fs : Z; tf_es : Z; tf_ds : Z; tf_trapno : Z;
  tf_err : Z; tf_eip : Z; tf_cs : Z; tf_eflags : Z; tf_esp : Z; tf_ss : Z }.

Definition zero_tf : trapframe := Trapframe 0 0 0 0 0 0 0 0 0 0 0 0 0 0 0 0 0 0 0.

Definition set_eax (v : Z) (f : trapframe) : trapframe :=
  Trapframe (tf_edi f) (tf_esi f) (tf_ebp f) (tf_oesp f) (tf_ebx f) (tf_edx f) (tf_ecx f) v
    (tf_gs f) (tf_fs f) (tf_es f) (tf_ds f) (tf_trapno f)
    (tf_err f) (tf_eip f) (tf_cs f) (tf_eflags f) (tf_esp f) (tf_ss f).

Definition set_eip_esp (eip esp : Z) (f : trapframe) : trapframe :=
  Trapframe (tf_edi f) (tf_esi f) (tf_ebp f) (tf_oesp f) (tf_ebx f) (tf_edx f) (tf_ecx f) (tf_eax f)
    (tf_gs f) (tf_fs f) (tf_es f) (tf_ds f) (tf_trapno f)
    (tf_err f) eip (tf_cs f) (tf_eflags f) esp (tf_ss f).

(** struct context. *)
Record context_regs := Context { c_edi : Z; c_esi : Z; c_ebx : Z; c_ebp : Z; c_eip : Z }.

(** struct proc.  Pointers into the process, file and inode tables are indices,
    the null pointer is [None]; [tfp] and [contextp] are the addresses in the
    kernel stack, [tf], [ret_eip] and [context] what is stored there: the trap
    frame, the word below it through which [forkret] returns, and the context. *)
Record proc := Proc {
  sz : Z;
  pgdir : Z;
  kstack : Z;
  state : procstate;
  pid : Z;
  parent : option nat;
  tfp : Z;
  tf : trapframe;
  ret_eip : Z;
  contextp : Z;
  context : context_regs;
  chan_of : option chan;
  killed : bool;
  ofile : list (option nat);
  cwd : option nat;
  name : list Z;
  ticksAtStart : Z;
  ticksScheduled : Z;
  priority : Z }.

Definition set_sz (v : Z) (p : proc) : proc :=
  Proc v (pgdir p) (kstack p) (state p) (pid p) (parent p) (tfp p) (tf p) (ret_eip p) (contextp p)
    (context p) (chan_of p) (killed p) (ofile p) (cwd p) (name p) (ticksAtStart p) (ticksScheduled p) (priority p).
Definition set_pgdir (v : Z) (p : proc) : proc :=
  Proc (sz p) v (kstack p) (state p) (pid p) (parent p) (tfp p) (tf p) (ret_eip p) (contextp p)
    (context p) (chan_of p) (killed p) (ofile p) (cwd p) (name p) (ticksAtStart p) (ticksScheduled p) (priority p).
Definition set_kstack (v : Z) (p : proc) : proc :=
  Proc (sz p) (pgdir p) v (state p) (pid p) (parent p) (tfp p) (tf p) (ret_eip p) (contextp p)
    (context p) (chan_of p) (killed p) (ofile p) (cwd p) (name p) (ticksAtStart p) (ticksScheduled p) (priority p).
Definition set_state (v : procstate) (p : proc) : proc :=
  Proc (sz p) (pgdir p) (kstack p) v (pid p) (parent p) (tfp p) (tf p) (ret_eip p) (contextp p)
    (context p) (chan_of p) (killed p) (ofile p) (cwd p) (name p) (ticksAtStart p) (ticksScheduled p) (priority p).
Definition set_pid (v : Z) (p : proc) : proc :=
  Proc (sz p) (pgdir p) (kstack p) (state p) v (parent p) (tfp p) (tf p) (ret_eip p) (contextp p)
    (context p) (chan_of p) (killed p) (ofile p) (cwd p) (name p) (ticksAtStart p) (ticksScheduled p) (priority p).
Definition set_parent (v : option nat) (p : proc) : proc :=
  Proc (sz p) (pgdir p) (kstack p) (state p) (pid p) v (tfp p) (tf p) (ret_eip p) (contextp p)
    (context p) (chan_of p) (killed p) (ofile p) (cwd p) (name p) (ticksAtStart p) (ticksScheduled p) (priority p).
Definition set_tfp (v : Z) (p : proc) : proc :=
  Proc (sz p) (pgdir p) (kstack p) (state p) (pid p) (parent p) v (tf p) (ret_eip p) (contextp p)
    (context p) (chan_of p) (killed p) (ofile p) (cwd p) (name p) (ticksAtStart p) (ticksScheduled p) (priority p).
Definition set_tf (v : trapframe) (p : proc) : proc :=
  Proc (sz p) (pgdir p) (kstack p) (state p) (pid p) (parent p) (tfp p) v (ret_eip p) (contextp p)
    (context p) (chan_of p) (killed p) (ofile p) (cwd p) (name p) (ticksAtStart p) (ticksScheduled p) (priority p).
Definition set_ret_eip (v : Z) (p : proc) : proc :=
  Proc (sz p) (pgdir p) (kstack p) (state p) (pid p) (parent p) (tfp p) (tf p) v (contextp p)
    (context p) (chan_of p) (killed p) (ofile p) (cwd p) (name p) (ticksAtStart p) (ticksScheduled p) (priority p).
Definition set_contextp (v : Z) (p : proc) : proc :=
  Proc (sz p) (pgdir p) (kstack p) (state p) (pid p) (parent p) (tfp p) (tf p) (ret_eip p) v
    (context p) (chan_of p) (killed p) (ofile p) (cwd p) (name p) (ticksAtStart p) (ticksScheduled p) (priority p).
Definition set_context (v : context_regs) (p : proc) : proc :=
  Proc (sz p) (pgdir p) (kstack p) (state p) (pid p) (parent p) (tfp p) (tf p) (ret_eip p) (contextp p)
    v (chan_of p) (killed p) (ofile p) (cwd p) (name p) (ticksAtStart p) (ticksScheduled p) (priority p).
Definition set_chan_of (v : option chan) (p : proc) : proc :=
  Proc (sz p) (pgdir p) (kstack p) (state p) (pid p) (parent p) (tfp p) (tf p) (ret_eip p) (contextp p)
    (context p) v (killed p) (ofile p) (cwd p) (name p) (ticksAtStart p) (ticksScheduled p) (priority p).
Definition set_killed (v : bool) (p : proc) : proc :=
  Proc (sz p) (pgdir p) (kstack p) (state p) (pid p) (parent p) (tfp p) (tf p) (ret_eip p) (contextp p)
    (context p) (chan_of p) v (ofile p) (cwd p) (name p) (ticksAtStart p) (ticksScheduled p) (priority p).
Definition set_ofile (v : list (option nat)) (p : proc) : proc :=
  Proc (sz p) (pgdir p) (kstack p) (state p) (pid p) (parent p) (tfp p) (tf p) (ret_eip p) (contextp p)
    (context p) (chan_of p) (killed p) v (cwd p) (name p) (ticksAtStart p) (ticksScheduled p) (priority p).
Definition set_cwd (v : option nat) (p : proc) : proc :=
  Proc (sz p) (pgdir p) (kstack p) (state p) (pid p) (parent p) (tfp p) (tf p) (ret_eip p) (contextp p)
    (context p) (chan_of p) (killed p) (ofile p) v (name p) (ticksAtStart p) (ticksScheduled p) (priority p).
Definition set_name (v : list Z) (p : proc) : proc :=
  Proc (sz p) (pgdir p) (kstack p) (state p) (pid p) (parent p) (tfp p) (tf p) (ret_eip p) (contextp p)
    (context p) (chan_of p) (killed p) (ofile p) (cwd p) v (ticksAtStart p) (ticksScheduled p) (priority p).
Definition set_ticksAtStart (v : Z) (p : proc) : proc :=
  Proc (sz p) (pgdir p) (kstack p) (state p) (pid p) (parent p) (tfp p) (tf p) (ret_eip p) (contextp p)
    (context p) (chan_of p) (killed p) (ofile p) (cwd p) (name p) v (ticksScheduled p) (priority p).
Definition set_ticksScheduled (v : Z) (p : proc) : proc :=
  Proc (sz p) (pgdir p) (kstack p) (state p) (pid p) (parent p) (tfp p) (tf p) (ret_eip p) (contextp p)
    (context p) (chan_of p) (killed p) (ofile p) (cwd p) (name p) (ticksAtStart p) v (priority p).
Definition set_priority (v : Z) (p : proc) : proc :=
  Proc (sz p) (pgdir p) (kstack p) (state p) (pid p) (parent p) (tfp p) (tf p) (ret_eip p) (contextp p)
    (context p) (chan_of p) (killed p) (ofile p) (cwd p) (name p) (ticksAtStart p) (ticksScheduled p) v.

Definition sizeof_trapframe : Z := 76.
Definition sizeof_context : Z := 20.
Definition SEG_UCODE : Z := 3.
Definition SEG_UDATA : Z := 4.
Definition DPL_USER : Z := 3.
Definition FL_IF : Z := 0x200.

(** A slot of the zeroed [ptable] of the kernel's bss. *)
Definition unused_proc : proc :=
  Proc 0 0 0 UNUSED 0 None 0 zero_tf 0 0 (Context 0 0 0 0 0) None false (replicate NOFILE None) None
    (replicate 16 0) 0 0 0.

(** [safestrcpy(dst, src, 16)] on two 16-byte arrays. *)
Definition copy_name (dst src : list Z) : list Z :=
  bytes_at (safestrcpy (put_bytes (put_bytes (fun _ => 0) 0 src) 16 dst) 16 0 16) 16 16.

(** ** What proc.c calls in other components *)

Class ProcEnv (E : Type) := {
  kalloc : M E Z;
  kfree : Z -> M E unit;
  setupkvm : M E Z;
  inituvm : Z -> M E unit;
  allocuvm : Z -> Z -> Z -> M E Z;
  deallocuvm : Z -> Z -> Z -> M E Z;
  copyuvm : Z -> Z -> M E Z;
  freevm : Z -> M E unit;
  switchuvm : Z -> Z -> M E unit;
  filedup : nat -> M E nat;
  fileclose : nat -> M E unit;
  idup : nat -> M E nat;
  iput : nat -> M E unit;
  namei_root : M E (option nat);
  begin_op : M E unit;
  end_op : M E unit;
  iinit : Z -> M E unit;
  initlog : Z -> M E unit }.

(** [cur] is [myproc()]; [past_end] is the word the code reads as the priority
    of [ptable.proc[NPROC]], one past the table. *)
Record pst (E : Type) := Pst {
  procs : list proc; nextpid : Z; initproc : option nat; ticks : Z;
  cur : option nat; first : bool; past_end : Z; env : E }.
Arguments Pst {E}.
Arguments procs {E}.
Arguments nextpid {E}.
Arguments initproc {E}.
Arguments ticks {E}.
Arguments cur {E}.
Arguments first {E}.
Arguments past_end {E}.
Arguments env {E}.

Section proc.
Context {E : Type} `{ProcEnv E}.
Implicit Types (s : pst E).

Definition set_procs (ps : list proc) s : pst E :=
  Pst ps (nextpid s) (initproc s) (ticks s) (cur s) (first s) (past_end s) (env s).
Definition set_nextpid (n : Z) s : pst E :=
  Pst (procs s) n (initproc s) (ticks s) (cur s) (first s) (past_end s) (env s).
Definition set_initproc (i : option nat) s : pst E :=
  Pst (procs s) (nextpid s) i (ticks s) (cur s) (first s) (past_end s) (env s).
Definition set_cur (c : option nat) s : pst E :=
  Pst (procs s) (nextpid s) (initproc s) (ticks s) c (first s) (past_end s) (env s).
Definition set_first (b : bool) s : pst E :=
  Pst (procs s) (nextpid s) (initproc s) (ticks s) (cur s) b (past_end s) (env s).
Definition set_env (e : E) s : pst E :=
  Pst (procs s) (nextpid s) (initproc s) (ticks s) (cur s) (first s) (past_end s) e.

(** A call into another component. *)
Definition call {A} (m : M E A) : M (pst E) A := zoom env set_env m.

(** Reading and writing through a pointer to a table slot. *)
Definition load (i : nat) : M (pst E) proc :=
  s <- get;; match procs s !! i with Some p => ret p | None => undef "bad proc pointer" end.
Definition store (i : nat) (f : proc -> proc) : M (pst E) unit :=
  modify (fun s => set_procs (alter f i (procs s)) s).
(** [myproc()], dereferenced. *)
Definition curproc : M (pst E) nat :=
  c <- gets cur;; match c with Some i => ret i | None => undef "null myproc()" end.

(** ** Operations *)

(** The loop of [allocproc]: the table with the priority of every slot looked
    at cleared, and the first UNUSED slot. *)
Fixpoint alloc_scan (l : list proc) : list proc * option nat :=
  match l with
  | [] => ([], None)
  | p :: l' =>
      let p := set_priority 0 p in
      if decide (state p = UNUSED) then (p :: l', Some O)
      else let '(l'', r) := alloc_scan l' in (p :: l'', S <$> r)
  end.

(** The addresses of [forkret] and [trapret]. *)
Context (forkret_eip trapret_eip : Z).

Definition allocproc : M (pst E) (option nat) :=
  acquire Lptable;;
  s <- get;;
  let '(ps, r) := alloc_scan (procs s) in
  modify (set_procs ps);;
  match r with
  | None => release Lptable;; ret None
  | Some i =>
      store i (set_state EMBRYO);;
      store i (set_pid (nextpid s));;
      modify (set_nextpid (s32 (nextpid s + 1)));;
      release Lptable;;
      k <- call kalloc;;
      store i (set_kstack k);;
      if k =? 0 then store i (set_state UNUSED);; ret None
      else
        let sp := k + KSTACKSIZE in
        let sp := sp - sizeof_trapframe in
        store i (set_tfp sp);;
        let sp := sp - 4 in
        store i (set_ret_eip trapret_eip);;
        let sp := sp - sizeof_context in
        store i (set_contextp sp);;
        store i (set_context (Context 0 0 0 0 forkret_eip));;
        ret (Some i)
  end.

Definition user_tf : trapframe :=
  let ds := Z.lor (Z.shiftl SEG_UDATA 3) DPL_USER in
  Trapframe 0 0 0 0 0 0 0 0 0 0 ds ds 0 0 0 (Z.lor (Z.shiftl SEG_UCODE 3) DPL_USER) FL_IF PGSIZE ds.

Definition userinit : M (pst E) unit :=
  r <- allocproc;;
  modify (set_initproc r);;
  match r with
  | None => undef "userinit: null proc"
  | Some i =>
      pd <- call setupkvm;;
      store i (set_pgdir pd);;
      if pd =? 0 then panic "userinit: out of memory?"
      else
        call (inituvm pd);;
        store i (set_sz PGSIZE);;
        store i (set_tf user_tf);;
        p <- load i;;
        store i (set_name (copy_name (name p) (str "initcode" ++ replicate 8 0)));;
        c <- call namei_root;;
        store i (set_cwd c);;
        t <- gets ticks;;
        store i (set_ticksAtStart t);;
        store i (set_ticksScheduled 0);;
        acquire Lptable;;
        store i (set_state RUNNABLE);;
        release Lptable
  end.

Definition growproc (n : Z) : M (pst E) Z :=
  i <- curproc;;
  p <- load i;;
  sz' <- (if 0 <? n then call (allocuvm (pgdir p) (sz p) (u32 (sz p + n)))
          else if n <? 0 then call (deallocuvm (pgdir p) (sz p) (u32 (sz p + n)))
          else ret (sz p));;
  if negb (n =? 0) && (sz' =? 0) then ret (-1)
  else
    store i (set_sz sz');;
    call (switchuvm (pgdir p) (kstack p));;
    ret 0.

(** The loop of [fork] over the descriptors [fds], the first of which is [i]. *)
Fixpoint dup_files (np : nat) (fds : list (option nat)) (i : nat) : M (pst E) unit :=
  match fds with
  | [] => ret tt
  | None :: fds' => dup_files np fds' (S i)
  | Some f :: fds' =>
      f' <- call (filedup f);;
      store np (fun p => set_ofile (<[i := Some f']> (ofile p)) p);;
      dup_files np fds' (S i)
  end.

Definition fork : M (pst E) Z :=
  c <- curproc;;
  r <- allocproc;;
  match r with
  | None => ret (-1)
  | Some np =>
      p <- load c;;
      pd <- call (copyuvm (pgdir p) (sz p));;
      store np (set_pgdir pd);;
      if pd =? 0 then
        q <- load np;;
        call (kfree (kstack q));;
        store np (set_kstack 0);;
        store np (set_state UNUSED);;
        ret (-1)
      else
        store np (set_sz (sz p));;
        store np (set_parent (Some c));;
        store np (set_tf (tf p));;
        store np (fun q => set_tf (set_eax 0 (tf q)) q);;
        dup_files np (ofile p) 0;;
        (match cwd p with
         | None => undef "idup of a null inode"
         | Some ip => d <- call (idup ip);; store np (set_cwd (Some d))
         end);;
        store np (fun q => set_name (copy_name (name q) (name p)) q);;
        q <- load np;;
        let pid := pid q in
        acquire Lptable;;
        store np (set_state RUNNABLE);;
        t <- gets ticks;;
        store np (set_ticksAtStart t);;
        store np (set_ticksScheduled 0);;
        release Lptable;;
        ret pid
  end.

Definition wakeup_proc (ch : option chan) (p : proc) : proc :=
  if decide (state p = SLEEPING /\ chan_of p = ch) then set_state RUNNABLE p else p.

Definition wakeup1 (ch : option chan) : M (pst E) unit :=
  modify (fun s => set_procs (map (wakeup_proc ch) (procs s)) s).

Definition wakeup (ch : chan) : M (pst E) unit :=
  acquire Lptable;; wakeup1 (Some ch);; release Lptable.

(** [sched] up to [swtch]. *)
Definition sched : M (pst E) unit := fun c s =>
  (i <- curproc;;
   p <- load i;;
   if negb (bool_decide (Lptable ∈ held c)) then panic "sched ptable.lock"
   else if negb (Nat.eqb (length (held c)) 1) then panic "sched locks"
   else if decide (state p = RUNNING) then panic "sched running"
   else
     store i (fun p => set_ticksScheduled (s32 (ticksScheduled p + 1)) p);;
     (fun c s => Switch c s)) c s.

Definition yield : M (pst E) unit :=
  acquire Lptable;;
  i <- curproc;;
  store i (set_state RUNNABLE);;
  sched.

(** ... and what follows [sched()] when the process runs again. *)
Definition yield_resumed : M (pst E) unit := release Lptable.

(** [sleep] up to [swtch]. *)
Definition sleep (ch : chan) (lk : lockid) : M (pst E) unit :=
  c <- gets cur;;
  match c with
  | None => panic "sleep"
  | Some i =>
      (if decide (lk = Lptable) then ret tt else acquire Lptable;; release lk);;
      store i (set_chan_of (Some ch));;
      store i (set_state SLEEPING);;
      sched
  end.

(** ... and what follows [sched()] when the process runs again. *)
Definition sleep_resumed (lk : lockid) : M (pst E) unit :=
  i <- curproc;;
  store i (set_chan_of None);;
  if decide (lk = Lptable) then ret tt else release Lptable;; acquire lk.

Definition forkret : M (pst E) unit :=
  release Lptable;;
  b <- gets first;;
  if b : bool then
    modify (set_first false);;
    call (iinit ROOTDEV);;
    call (initlog ROOTDEV)
  else ret tt.

(** The loop of [exit] that closes the descriptors from [fd] on. *)
Fixpoint close_files (i : nat) (n : nat) (fd : nat) : M (pst E) unit :=
  match n with
  | O => ret tt
  | S n' =>
      p <- load i;;
      (match ofile p !! fd with
       | Some (Some f) =>
           call (fileclose f);;
           store i (fun p => set_ofile (<[fd := None]> (ofile p)) p)
       | _ => ret tt
       end);;
      close_files i n' (S fd)
  end.

(** The body of the loop of [exit] that passes the children of [i] to init. *)
Definition pass_to_init (i j : nat) : M (pst E) unit :=
  p <- load j;;
  if decide (parent p = Some i) then
    ip <- gets initproc;;
    store j (set_parent ip);;
    if decide (state p = ZOMBIE) then wakeup1 (Cproc <$> ip) else ret tt
  else ret tt.

Fixpoint reparent (i : nat) (n : nat) (j : nat) : M (pst E) unit :=
  match n with
  | O => ret tt
  | S n' => pass_to_init i j;; reparent i n' (S j)
  end.

Definition exit : M (pst E) unit :=
  i <- curproc;;
  ip <- gets initproc;;
  if decide (Some i = ip) then panic "init exiting"
  else
    close_files i NOFILE 0;;
    call begin_op;;
    p <- load i;;
    (match cwd p with None => undef "iput of a null inode" | Some d => call (iput d) end);;
    call end_op;;
    store i (set_cwd None);;
    acquire Lptable;;
    p <- load i;;
    wakeup1 (Cproc <$> parent p);;
    reparent i NPROC 0;;
    store i (set_state ZOMBIE);;
    sched;;
    panic "zombie exit".

(** The scan of [wait]: the first ZOMBIE child of [i], or whether there is a
    child at all. *)
Fixpoint wait_scan (i : nat) (l : list proc) (havekids : bool) : option nat * bool :=
  match l with
  | [] => (None, havekids)
  | p :: l' =>
      if decide (parent p = Some i) then
        if decide (state p = ZOMBIE) then (Some O, true)
        else let '(r, k) := wait_scan i l' true in (S <$> r, k)
      else let '(r, k) := wait_scan i l' havekids in (S <$> r, k)
  end.

Definition wait_loop : M (pst E) Z :=
  i <- curproc;;
  s <- get;;
  let '(r, havekids) := wait_scan i (procs s) false in
  match r with
  | Some j =>
      p <- load j;;
      call (kfree (kstack p));;
      store j (set_kstack 0);;
      call (freevm (pgdir p));;
      store j (set_pid 0);;
      store j (set_parent None);;
      store j (fun p => set_name (<[O := 0]> (name p)) p);;
      store j (set_killed false);;
      store j (set_state UNUSED);;
      release Lptable;;
      ret (pid p)
  | None =>
      p <- load i;;
      if negb havekids || killed p then release Lptable;; ret (-1)
      else sleep (Cproc i) Lptable;; ret 0
  end.

Definition wait : M (pst E) Z := acquire Lptable;; wait_loop.
(** [wait] when it is woken: the rest of [sleep], then the loop again. *)
Definition wait_resumed : M (pst E) Z := sleep_resumed Lptable;; wait_loop.

(** The loop of [kill]. *)
Fixpoint kill_scan (pid' : Z) (l : list proc) : option (list proc) :=
  match l with
  | [] => None
  | p :: l' =>
      if pid p =? pid' then
        let p := set_killed true p in
        Some ((if decide (state p = SLEEPING) then set_state RUNNABLE p else p) :: l')
      else cons p <$> kill_scan pid' l'
  end.

Definition kill (pid : Z) : M (pst E) Z :=
  acquire Lptable;;
  s <- get;;
  match kill_scan pid (procs s) with
  | Some ps => modify (set_procs ps);; release Lptable;; ret 0
  | None => release Lptable;; ret (-1)
  end.

(** [proc_nice] takes no lock; after its loop [p] points one past the table. *)
Definition proc_nice (PID prio : Z) : M (pst E) Z :=
  modify (fun s => set_procs
    (map (fun p => if pid p =? PID then set_priority prio p else p) (procs s)) s);;
  gets past_end.

(** types.h [struct procInfo]. *)
Record procInfo := ProcInfo { pi_state : Z; pi_pid : Z; pi_cpuPercent : Z; pi_name : list Z }.

Definition cpu_percent (currentTicks : Z) (p : proc) : Z :=
  let elapsedTicks := s32 (currentTicks - ticksAtStart p) in
  if (0 <? elapsedTicks) && (1 <? ticksScheduled p) then
    let c := Z.quot (s32 (ticksScheduled p * 100)) elapsedTicks in
    if 100 <? c then 100 else c
  else 0.

(** The loop of [proc_ps] fills the caller's array from its first entry on; the
    names of the entries are overwritten in place. *)
Fixpoint ps_fill (currentTicks : Z) (l : list proc) (array : list procInfo) : list procInfo * Z :=
  match l with
  | [] => (array, 0)
  | p :: l' =>
      if decide (state p = UNUSED) then ps_fill currentTicks l' array
      else
        let old := match array with q :: _ => pi_name q | [] => replicate 16 0 end in
        let q := ProcInfo (procstate_num (state p)) (pid p) (cpu_percent currentTicks p)
                   (copy_name old (name p)) in
        let '(rest, n) := ps_fill currentTicks l' (tail array) in
        (q :: rest, n + 1)
  end.

(** [array] is the memory from [arrayOfProcInfo] on, as records; the result is
    that memory afterwards.  It grows when more entries are written than the
    caller's array has. *)
Definition proc_ps (numberOfProcs : Z) (array : list procInfo) : M (pst E) (Z * list procInfo) :=
  currentTicks <- gets ticks;;
  acquire Lptable;;
  s <- get;;
  let '(array', n) := ps_fill currentTicks (procs s) array in
  release Lptable;;
  ret (n, array').

(** ** The scheduler

    [run i] is what happens between the [swtch] to process [i] and the [swtch]
    back; [idle] is what other processors do between two passes, while
    [ptable.lock] is free.  The result is [lowestPriority] and the slots
    dispatched, with the priority each had then. *)
Section scheduler.
Context (run : nat -> M (pst E) unit) (idle : M (pst E) unit).

Fixpoint scheduler_scan (slots : list nat) (lowestPriority : Z) : M (pst E) (Z * list (nat * Z)) :=
  match slots with
  | [] => ret (lowestPriority, [])
  | i :: slots' =>
      p <- load i;;
      if negb (bool_decide (state p = RUNNABLE)) || (lowestPriority <? priority p)
      then scheduler_scan slots' lowestPriority
      else
        let lowestPriority := priority p in
        modify (set_cur (Some i));;
        call (switchuvm (pgdir p) (kstack p));;
        store i (set_state RUNNING);;
        run i;;
        modify (set_cur None);;
        r <- scheduler_scan slots' lowestPriority;;
        ret (r.1, (i, lowestPriority) :: r.2)
  end.

(** [n] passes of the endless loop. *)
Fixpoint scheduler_passes (n : nat) (lowestPriority : Z) : M (pst E) (Z * list (nat * Z)) :=
  match n with
  | O => ret (lowestPriority, [])
  | S n' =>
      idle;;
      acquire Lptable;;
      r <- scheduler_scan (seq 0 NPROC) lowestPriority;;
      release Lptable;;
      r' <- scheduler_passes n' r.1;;
      ret (r'.1, r.2 ++ r'.2)
  end.

Definition scheduler (n : nat) : M (pst E) (Z * list (nat * Z)) :=
  modify (set_cur None);; scheduler_passes n 0x77777777.

End scheduler.

End proc.
