(* ===== verification/ProcTable.v ===== *)
(** The process table: its invariant and its preservation by every operation of
    proc.c, and the life cycle [fork] / [exit] / [wait]. *)

From stdpp Require Import base numbers list strings.
From S2P Require Import Xv6 Prelude Kstring Proc.

Definition live (p : proc) : Prop := state p ≠ UNUSED /\ state p ≠ ZOMBIE.

#[export] Instance live_dec p : Decision (live p).
Proof. unfold live. apply _. Defined.

Definition live_at (ps : list proc) (i : nat) : Prop := exists q, ps !! i = Some q /\ live q.

(** What holds of a slot on its own. *)
Definition slot_ok (np : Z) (p : proc) : Prop :=
  0 <= pid p < np /\ length (ofile p) = NOFILE /\
  (state p ≠ UNUSED -> 0 < pid p) /\
  (state p = UNUSED -> parent p = None /\ kstack p = 0) /\
  (~ live p -> ofile p = replicate NOFILE None).

Record table_inv (ps : list proc) (np : Z) (ip : option nat) : Prop := {
  ti_len : length ps = NPROC;
  ti_np : 0 < np;
  ti_slot i p : ps !! i = Some p -> slot_ok np p;
  ti_pid i j p q : ps !! i = Some p -> ps !! j = Some q -> pid p = pid q -> pid p ≠ 0 -> i = j;
  ti_parent i p j : ps !! i = Some p -> parent p = Some j -> live_at ps j;
  ti_init i : ip = Some i -> live_at ps i }.

(** The table at boot. *)
Lemma table_inv_boot : table_inv (replicate NPROC unused_proc) 1 None.
Proof.
  split; try done.
  - intros i p [-> _]%lookup_replicate. repeat split; done.
  - intros i j p q [-> _]%lookup_replicate _ _ Hp. by destruct Hp.
  - intros i p j [-> _]%lookup_replicate. done.
Qed.

(** Nobody points to slot [i] as a parent, and it is not init. *)
Definition unreferenced (ps : list proc) (ip : option nat) (i : nat) : Prop :=
  (forall j q, ps !! j = Some q -> parent q ≠ Some i) /\ ip ≠ Some i.

Lemma live_at_alter ps i f p j :
  ps !! i = Some p -> (j = i -> live (f p)) -> live_at ps j -> live_at (alter f i ps) j.
Proof.
  intros Ei Hf (q & Eq & Hq). destruct (decide (j = i)) as [->|N].
  - exists (f p). rewrite list_lookup_alter_eq, Ei. split; [done|auto].
  - exists q. by rewrite list_lookup_alter_ne.
Qed.

(** Changing one slot. *)
Lemma table_inv_alter ps np ip i f p :
  table_inv ps np ip -> ps !! i = Some p ->
  slot_ok np (f p) -> pid (f p) = pid p \/ pid (f p) = 0 ->
  (forall j, parent (f p) = Some j -> live_at ps j) ->
  live (f p) \/ unreferenced ps ip i /\ parent (f p) ≠ Some i ->
  table_inv (alter f i ps) np ip.
Proof.
  intros [L N T P F I] Ei Hs Hp Hf Hl.
  assert (forall j, live_at ps j -> j ≠ i \/ live (f p) -> live_at (alter f i ps) j) as LA.
  { intros j Hj Hc. eapply live_at_alter; [done| |done]. intros ->. by destruct Hc. }
  split.
  - by rewrite length_alter.
  - done.
  - intros j q. destruct (decide (j = i)) as [->|Nj].
    + rewrite list_lookup_alter_eq, Ei. by intros [= <-].
    + rewrite list_lookup_alter_ne by done. apply T.
  - intros j k q r. destruct (decide (j = i)) as [->|Nj], (decide (k = i)) as [->|Nk]; try done;
      rewrite ?list_lookup_alter_eq, ?list_lookup_alter_ne, ?Ei by done.
    + intros [= <-] Er Ep Hn. destruct Hp as [Hp|Hp]; [|done]. apply (P i k p r); congruence.
    + intros Eq [= <-] Ep Hn. destruct Hp as [Hp|Hp]; [|congruence]. apply (P j i q p); congruence.
    + apply P.
  - intros j q k. destruct (decide (j = i)) as [->|Nj].
    + rewrite list_lookup_alter_eq, Ei. intros [= <-] Ek. apply LA; [auto|].
      destruct Hl as [?|[_ Hn]]; [by right|]. left. congruence.
    + rewrite list_lookup_alter_ne by done. intros Eq Ek. apply LA; [by apply (F j q)|].
      destruct Hl as [?|[[Hu _] _]]; [by right|]. left. intros ->. by apply (Hu j q Eq).
  - intros j Ej. apply LA; [by apply I|].
    destruct Hl as [?|[[_ Hu] _]]; [by right|]. left. congruence.
Qed.

(** Changes that keep what the invariant reads. *)
Definition same_identity (p q : proc) : Prop :=
  pid q = pid p /\ parent q = parent p /\ length (ofile q) = length (ofile p).

Lemma slot_ok_live np p q :
  slot_ok np p -> live p -> live q -> pid q = pid p -> length (ofile q) = length (ofile p) ->
  slot_ok np q.
Proof.
  intros (S1 & S2 & S3 & S4 & S5) Hl [Hu Hz] Hp Ho. unfold slot_ok, live. rewrite Hp, Ho.
  split; [done|]. split; [done|]. split; [intros _; apply S3, Hl|]. split; [done|]. tauto.
Qed.

Lemma table_inv_touch ps np ip i f p :
  table_inv ps np ip -> ps !! i = Some p -> same_identity p (f p) -> live p -> live (f p) ->
  table_inv (alter f i ps) np ip.
Proof.
  intros I Ei (Hp & Hpa & Ho) Hl Hl'.
  eapply table_inv_alter; [done|done| |by left| |by left].
  - eapply slot_ok_live; [by eapply (ti_slot _ _ _ I) | done..].
  - intros j. rewrite Hpa. by apply (ti_parent _ _ _ I i p).
Qed.

(** Changing many slots at once in what the invariant does not read. *)
Definition kept (p q : proc) : Prop :=
  pid q = pid p /\ parent q = parent p /\ kstack q = kstack p /\ ofile q = ofile p /\
  (state q = UNUSED <-> state p = UNUSED) /\ (live p <-> live q).

#[export] Instance kept_refl : Reflexive kept.
Proof. done. Qed.

Lemma table_inv_kept ps ps' np ip :
  table_inv ps np ip -> Forall2 kept ps ps' -> table_inv ps' np ip.
Proof.
  intros [L N T P F I] K.
  assert (forall i, live_at ps i -> live_at ps' i) as LA.
  { intros i (p & Ep & Hp). destruct (Forall2_lookup_l _ _ _ _ _ K Ep) as (q & Eq & Kq).
    exists q. split; [done|]. by apply Kq. }
  pose proof (fun i q E => Forall2_lookup_r _ _ _ i q K E) as Lk.
  split.
  - by rewrite <- (Forall2_length _ _ _ K).
  - done.
  - intros i q Eq. destruct (Lk i q Eq) as (p & Ep & H1 & H2 & Hk & Ho & Hu & Hl).
    unfold slot_ok. rewrite H1, H2, Hu, Hk, Ho, <- Hl. by apply (T i).
  - intros i j q r Eq Er. destruct (Lk i q Eq) as (p & Ep & -> & _), (Lk j r Er) as (p' & Ep' & -> & _).
    by apply P.
  - intros i q j Eq. destruct (Lk i q Eq) as (p & Ep & _ & -> & _). intros Ej. by apply LA, (F i p).
  - intros i Ei. by apply LA, I.
Qed.

(** ** The scans *)

(** [alloc_scan] clears the priority of the slots up to the one it finds. *)
Definition beyond (r : option nat) (j : nat) : bool :=
  match r with Some i => (i <? j)%nat | None => false end.

Lemma alloc_scan_lookup l j :
  (alloc_scan l).1 !! j = (if beyond (alloc_scan l).2 j then id else set_priority 0) <$> l !! j.
Proof.
  revert j. induction l as [|p l IH]; intros j; [by destruct (beyond _ _)|]. cbn [alloc_scan].
  destruct (decide (state (set_priority 0 p) = UNUSED)) as [E|E].
  - cbn. destruct j as [|j]; [done|]. cbn. by destruct (l !! j).
  - destruct (alloc_scan l) as [l' r]. cbn [fst snd] in *.
    destruct j as [|j]; [by destruct r|]. rewrite <- !lookup_tail. cbn [tail]. rewrite IH.
    by destruct r as [i|].
Qed.

Lemma alloc_scan_kept l : Forall2 kept l (alloc_scan l).1.
Proof.
  induction l as [|p l IH]; [constructor|]. cbn [alloc_scan].
  destruct (decide _); [|destruct (alloc_scan l)]; constructor; try done.
Qed.

Lemma alloc_scan_found l i : (alloc_scan l).2 = Some i ->
  (exists p, l !! i = Some p /\ state p = UNUSED) /\
  forall j q, (j < i)%nat -> l !! j = Some q -> state q ≠ UNUSED.
Proof.
  revert i. induction l as [|p l IH]; intros i; [done|]. cbn [alloc_scan].
  destruct (decide (state (set_priority 0 p) = UNUSED)) as [E|E].
  - intros [= <-]. split; [by exists p|]. lia.
  - destruct (alloc_scan l) as [l' [k|]] eqn:El; intros [= <-]. destruct (IH k eq_refl) as [H1 H2].
    split; [done|]. intros [|j] q Hj Eq; [by injection Eq as <-|]. apply (H2 j q); [lia|done].
Qed.

Lemma alloc_scan_full l : (alloc_scan l).2 = None <-> forall j q, l !! j = Some q -> state q ≠ UNUSED.
Proof.
  induction l as [|p l IH]; [done|]. cbn [alloc_scan].
  destruct (decide (state (set_priority 0 p) = UNUSED)) as [E|E].
  - split; [done|]. intros Hl. by destruct (Hl O p).
  - destruct (alloc_scan l) as [l' r]. cbn in *. rewrite fmap_None, IH. split.
    + intros Hl [|j] q Eq; [by injection Eq as <-|]. by apply (Hl j).
    + intros Hl j q Eq. by apply (Hl (S j)).
Qed.

Lemma wakeup_proc_awake ch p : state p ≠ SLEEPING -> wakeup_proc ch p = p.
Proof. intros Hs. unfold wakeup_proc. rewrite decide_False; [done|]. by intros []. Qed.

Lemma wakeup_kept ch l : Forall2 kept l (map (wakeup_proc ch) l).
Proof.
  induction l as [|p l IH]; constructor; [|done]. unfold wakeup_proc.
  destruct (decide _) as [[E _]|]; [|done]. repeat split; try done; cbn; congruence.
Qed.

Lemma kill_scan_kept n l l' : kill_scan n l = Some l' -> Forall2 kept l l'.
Proof.
  revert l'. induction l as [|p l IH]; intros l'; [done|]. cbn [kill_scan].
  destruct (pid p =? n).
  - intros [= <-]. constructor; [|done]. destruct (decide (state _ = SLEEPING)) as [E|]; cbn in *; [|done].
    repeat split; try done; cbn; congruence.
  - destruct (kill_scan n l) as [l2|]; intros [= <-]. constructor; [done|auto].
Qed.

(** [wait_scan] finds the first ZOMBIE child, and knows whether there is a child. *)
Lemma wait_scan_found i l b j b' : wait_scan i l b = (Some j, b') ->
  exists p, l !! j = Some p /\ parent p = Some i /\ state p = ZOMBIE.
Proof.
  revert b j. induction l as [|p l IH]; intros b j; [done|]. cbn [wait_scan].
  destruct (decide (parent p = Some i)) as [Hp|Hp]; [destruct (decide (state p = ZOMBIE)) as [Hz|Hz]|].
  - intros [= <- <-]. by exists p.
  - destruct (wait_scan i l true) as [[k|] b2] eqn:E; intros [= <- <-]. by apply (IH true).
  - destruct (wait_scan i l b) as [[k|] b2] eqn:E; intros [= <- <-]. by apply (IH b).
Qed.

Lemma wait_scan_none i l b b' : wait_scan i l b = (None, b') ->
  (b' = true <-> b = true \/ exists j p, l !! j = Some p /\ parent p = Some i) /\
  forall j p, l !! j = Some p -> parent p = Some i -> state p ≠ ZOMBIE.
Proof.
  revert b b'. induction l as [|p l IH]; intros b b'.
  { intros [= <-]. split; [|done]. split; [by left|]. by intros [?|(j & p & ? & _)]. }
  cbn [wait_scan].
  destruct (decide (parent p = Some i)) as [Hp|Hp]; [destruct (decide (state p = ZOMBIE)) as [Hz|Hz]|].
  - done.
  - destruct (wait_scan i l true) as [[k|] b2] eqn:E; intros [= <-]. destruct (IH _ _ E) as [H1 H2].
    split.
    + split; [|by intros _; apply H1; left]. intros _. right. by exists O, p.
    + intros [|j] q Eq; [by injection Eq as <-|]. by apply (H2 j).
  - destruct (wait_scan i l b) as [[k|] b2] eqn:E; intros [= <-]. destruct (IH _ _ E) as [H1 H2].
    split.
    + rewrite H1. split; (intros [?|(j & q & Eq & Hq)]; [by left|right]).
      * by exists (S j), q.
      * destruct j as [|j]; [cbn in Eq; congruence|]. by exists j, q.
    + intros [|j] q Eq; [by injection Eq as <-|]. by apply (H2 j).
Qed.

(** ** Every operation preserves the invariant *)

Section ops.
Context {E : Type} `{ProcEnv E}.
Implicit Types (s : pst E) (R : pst E -> Prop).

Definition inv s : Prop := table_inv (procs s) (nextpid s) (initproc s).

(** Slot [i] is the running process. *)
Definition running s (i : nat) : Prop :=
  cur s = Some i /\ exists p, procs s !! i = Some p /\ state p = RUNNING.

Lemma wp_load i Q R s : (forall p, procs s !! i = Some p -> Q p s) -> wp (load i) Q R s.
Proof.
  intros HQ. apply wp_bind, wp_get. destruct (procs s !! i) as [p|] eqn:Ep;
    [apply wp_ret; auto | apply wp_undef].
Qed.

Lemma wp_store i f Q R s : Q tt (set_procs (alter f i (procs s)) s) -> wp (store i f) Q R s.
Proof. intros HQ. by apply wp_modify. Qed.

Lemma wp_curproc Q R s : (forall i, cur s = Some i -> Q i s) -> wp curproc Q R s.
Proof.
  intros HQ. apply wp_bind, wp_gets. destruct (cur s) as [i|] eqn:Ei;
    [apply wp_ret; auto | apply wp_undef].
Qed.

Lemma wp_call {A} (m : M E A) Q R s :
  (forall a e, Q a (set_env e s)) -> (forall e, R (set_env e s)) -> wp (call m) Q R s.
Proof. apply wp_zoom. Qed.

Lemma wp_sched Q R s :
  (forall i p, cur s = Some i -> procs s !! i = Some p ->
     R (set_procs (alter (fun p => set_ticksScheduled (s32 (ticksScheduled p + 1)) p) i (procs s)) s)) ->
  wp sched Q R s.
Proof.
  intros HR c. unfold sched. revert c.
  enough (forall c', wp (i <- curproc;;
    p <- load i;;
    if negb (bool_decide (Lptable ∈ held c')) then panic "sched ptable.lock"
    else if negb (Nat.eqb (length (held c')) 1) then panic "sched locks"
    else if decide (state p = RUNNING) then panic "sched running"
    else
      store i (fun p => set_ticksScheduled (s32 (ticksScheduled p + 1)) p);;
      (fun c s => Switch c s)) Q R s) as W by (intros c; apply (W c)).
  intros c'. apply wp_bind, wp_curproc. intros i Ei. apply wp_bind, wp_load. intros p Ep.
  destruct (negb _); [apply wp_panic|]. destruct (negb _); [apply wp_panic|].
  destruct (decide _); [apply wp_panic|]. apply wp_bind, wp_store. intros c. by apply (HR i p).
Qed.

End ops.

(** Runs the primitive at the head of a [wp] goal. *)
Ltac wp_step :=
  lazymatch goal with
  | |- wp (bind _ _) _ _ _ => apply wp_bind
  | |- wp (ret _) _ _ _ => apply wp_ret
  | |- wp get _ _ _ => apply wp_get
  | |- wp (gets _) _ _ _ => apply wp_gets
  | |- wp (modify _) _ _ _ => apply wp_modify
  | |- wp (acquire _) _ _ _ => apply wp_acquire
  | |- wp (release _) _ _ _ => apply wp_release
  | |- wp (panic _) _ _ _ => apply wp_panic
  | |- wp (undef _) _ _ _ => apply wp_undef
  | |- wp (load _) _ _ _ => apply wp_load; intros
  | |- wp (store _ _) _ _ _ => apply wp_store
  | |- wp curproc _ _ _ => apply wp_curproc; intros
  | |- wp sched _ _ _ => apply wp_sched; intros
  end; cbv beta.
Ltac wp_run := repeat wp_step.

(** A live slot changed in fields the invariant does not constrain. *)
Ltac touch I Ep :=
  eapply (table_inv_touch _ _ _ _ _ _ I Ep); [done | split; cbn; congruence | split; cbn; congruence].

Section preservation.
Context {E : Type} `{ProcEnv E}.
Implicit Types (s : pst E).
Variables forkret_eip trapret_eip : Z.

(** What [allocproc] hands out: an EMBRYO nobody else can see through its pid. *)
Definition embryo s (i : nat) : Prop :=
  exists p, procs s !! i = Some p /\ state p = EMBRYO /\ parent p = None /\
    ofile p = replicate NOFILE None /\ unreferenced (procs s) (initproc s) i.

(** Giving an EMBRYO back. *)
Lemma free_embryo s i e :
  inv s -> embryo s i ->
  inv (set_env e (set_procs (alter (set_state UNUSED) i (alter (set_kstack 0) i (procs s))) s)).
Proof.
  intros I (p & Ep & He & Hp & Ho & Hu). unfold inv. cbn -[alter].
  rewrite alter_alter. destruct (ti_slot _ _ _ I i p Ep) as (S1 & S2 & S3 & S4).
  eapply table_inv_alter; [exact I | exact Ep | | by left | cbn; congruence | right; cbn; split; [done|congruence]].
  split; [done|]. split; [done|]. split; [done|]. done.
Qed.

Lemma unreferenced_alter ps ip i j f :
  (forall p, parent (f p) = parent p) -> unreferenced ps ip i -> unreferenced (alter f j ps) ip i.
Proof.
  intros Hf [H1 H2]. split; [|done]. intros k q. destruct (decide (k = j)) as [->|N].
  - rewrite list_lookup_alter_eq. destruct (ps !! j) as [r|] eqn:Er; [|done].
    intros [= <-]. rewrite Hf. by apply (H1 j).
  - rewrite list_lookup_alter_ne by done. apply H1.
Qed.

Lemma alloc_inv s i p :
  inv s -> nextpid s < 2 ^ 31 - 1 -> procs s !! i = Some p -> state p = UNUSED ->
  inv (set_nextpid (s32 (nextpid s + 1))
    (set_procs (alter (set_pid (nextpid s)) i (alter (set_state EMBRYO) i (procs s))) s)).
Proof.
  intros [L N T P F I] Hn Ep Eu. destruct (T i p Ep) as (S1 & S2 & S3 & S4).
  destruct S4 as [S4 S5]. destruct (S4 Eu) as (Hpa & Hk).
  assert (s32 (nextpid s + 1) = nextpid s + 1) as En by (apply s32_small; lia).
  assert (forall j, live_at (procs s) j ->
    live_at (alter (set_pid (nextpid s)) i (alter (set_state EMBRYO) i (procs s))) j) as LA.
  { intros j Hj. eapply live_at_alter; [by rewrite list_lookup_alter_eq, Ep | |]; [done|].
    eapply live_at_alter; done. }
  unfold inv. cbn. rewrite En. split.
  - by rewrite !length_alter.
  - lia.
  - intros j q. destruct (decide (j = i)) as [->|Nj].
    + rewrite !list_lookup_alter_eq, Ep. intros [= <-]. split; [cbn; lia|]. split; [done|]. split; [done|].
      split; [done|]. intros Hl. destruct Hl. done.
    + rewrite !list_lookup_alter_ne by done. intros Eq. destruct (T j q Eq) as (H1 & H2 & H3 & H4).
      split; [lia|]. done.
  - intros j k q r. destruct (decide (j = i)) as [->|Nj], (decide (k = i)) as [->|Nk]; try done;
      rewrite ?list_lookup_alter_eq, ?list_lookup_alter_ne, ?Ep by done.
    + intros [= <-] Er Hp. cbn in Hp. destruct (T k r Er) as (H1 & _). lia.
    + intros Eq [= <-] Hp. cbn in Hp. destruct (T j q Eq) as (H1 & _). lia.
    + apply P.
  - intros j q k. destruct (decide (j = i)) as [->|Nj].
    + rewrite !list_lookup_alter_eq, Ep. intros [= <-]. cbn. congruence.
    + rewrite !list_lookup_alter_ne by done. intros Eq Ek. by apply LA, (F j q).
  - intros j Ej. by apply LA, I.
Qed.

(** Filling in the fields of an EMBRYO. *)
Lemma embryo_store s i f :
  inv s -> embryo s i ->
  (forall p, same_identity p (f p) /\ state (f p) = state p /\ ofile (f p) = ofile p) ->
  inv (set_procs (alter f i (procs s)) s) /\ embryo (set_procs (alter f i (procs s)) s) i.
Proof.
  intros I (p & Ep & He & Hp & Ho & Hu) Hf. destruct (Hf p) as (Hi & Hs & Hof). split.
  - eapply table_inv_touch; [exact I | exact Ep | done | |]; split; congruence.
  - exists (f p). cbn -[alter]. rewrite list_lookup_alter_eq, Ep. destruct Hi as (_ & Hpa & _).
    split; [done|]. do 3 (split; [congruence|]). apply unreferenced_alter; [|done]. intros q. apply Hf.
Qed.

Lemma not_live_unreferenced ps np ip i p :
  table_inv ps np ip -> ps !! i = Some p -> ~ live p -> unreferenced ps ip i.
Proof.
  intros I Ep Hl. split.
  - intros j q Eq Hq. destruct (ti_parent _ _ _ I j q i Eq Hq) as (r & Er & Hr). congruence.
  - intros Hi. destruct (ti_init _ _ _ I i Hi) as (r & Er & Hr). congruence.
Qed.

(** The slots in use before are still there; at most a priority is cleared. *)
Definition others s s' : Prop :=
  cur s' = cur s /\ initproc s' = initproc s /\
  forall j p, procs s !! j = Some p -> state p ≠ UNUSED ->
    procs s' !! j = Some p \/ procs s' !! j = Some (set_priority 0 p).

Lemma others_running s s' i : others s s' -> running s i -> running s' i.
Proof.
  intros (Ec & _ & Ho) (Ei & p & Ep & Hr). split; [congruence|].
  destruct (Ho i p Ep) as [E'|E']; [by rewrite Hr | by exists p | by exists (set_priority 0 p)].
Qed.

Lemma others_alter s s' i p f :
  others s s' -> procs s !! i = Some p -> state p = UNUSED ->
  others s (set_procs (alter f i (procs s')) s').
Proof.
  intros (Ec & Ei & Ho) Ep Eu. split; [done|]. split; [done|]. intros j q Eq Hq. cbn -[alter].
  rewrite list_lookup_alter_ne by congruence. by apply Ho.
Qed.

Lemma wp_allocproc s :
  inv s -> nextpid s < 2 ^ 31 - 1 ->
  wp (allocproc forkret_eip trapret_eip)
    (fun r s' => inv s' /\ others s s' /\ match r with Some i => embryo s' i | None => True end) inv s.
Proof.
  intros I Hn. unfold allocproc. wp_run.
  pose proof (table_inv_kept _ _ _ _ I (alloc_scan_kept (procs s))) as I1.
  pose proof (alloc_scan_lookup (procs s)) as Lk. pose proof (alloc_scan_found (procs s)) as Fd.
  destruct (alloc_scan (procs s)) as [ps r]. cbn [fst snd] in *.
  assert (others s (set_procs ps s)) as O1.
  { split; [done|]. split; [done|]. intros j p Ep _. cbn. rewrite Lk, Ep.
    destruct (beyond r j); [left|right]; done. }
  destruct r as [i|]; wp_run; [|done].
  destruct (Fd i eq_refl) as [(p & Ep & Eu) _].
  assert (ps !! i = Some (set_priority 0 p)) as Ei
    by (rewrite Lk, Ep; unfold beyond; by rewrite Nat.ltb_irrefl).
  pose proof (alloc_inv (set_procs ps s) i _ I1 Hn Ei Eu) as I2.
  destruct (ti_slot _ _ _ I1 i _ Ei) as (_ & _ & _ & Hu & Hof). destruct (Hu Eu) as (Hpa & _).
  specialize (Hof (fun L => proj1 L Eu)).
  pose proof (not_live_unreferenced ps _ _ i _ I1 Ei (fun L => proj1 L Eu)) as Hun.
  apply wp_call; [|intros; exact I2]. intros k e.
  match goal with |- wp _ _ _ ?s' => set (s1 := s') end.
  assert (embryo s1 i) as Em.
  { exists (set_pid (nextpid s) (set_state EMBRYO (set_priority 0 p))). subst s1. cbn -[alter].
    rewrite !list_lookup_alter_eq, Ei. do 4 (split; [done|]). by do 2 (apply unreferenced_alter; [done|]). }
  assert (others s s1) as O2.
  { eapply others_alter in O1; [|done..]. eapply others_alter in O1; [|done..]. exact O1. }
  assert (inv s1) as I3 by exact I2. clearbody s1. clear I1 I2 O1 Lk Fd Ei Hun.
  wp_run. destruct (Z.eqb_spec k 0) as [->|Hk]; wp_run.
  - split; [by apply (free_embryo s1 i (env s1))|]. split; [|done].
    by do 2 (eapply others_alter; [|done..]).
  - assert (forall f s', inv s' /\ others s s' /\ embryo s' i ->
      (forall p, same_identity p (f p) /\ state (f p) = state p /\ ofile (f p) = ofile p) ->
      let s'' := set_procs (alter f i (procs s')) s' in inv s'' /\ others s s'' /\ embryo s'' i) as HP.
    { intros f s' (I' & O' & E') Hf. destruct (embryo_store s' i f I' E' Hf) as [I'' E''].
      split; [done|]. split; [by eapply others_alter|done]. }
    by repeat (apply HP; [|done]).
Qed.


(** While [fork] fills in slot [np] for its caller [c]. *)
Definition forming s (c np : nat) : Prop :=
  inv s /\ running s c /\ np ≠ c /\ live_at (procs s) np.

Lemma running_live s c : running s c -> live_at (procs s) c.
Proof. intros (_ & p & Ep & Hr). exists p. split; [done|]. split; by rewrite Hr. Qed.

Lemma forming_store s c np f :
  forming s c np ->
  (forall p, pid (f p) = pid p /\ (parent (f p) = parent p \/ parent (f p) = Some c) /\
     length (ofile (f p)) = length (ofile p) /\ (live p -> live (f p))) ->
  forming (set_procs (alter f np (procs s)) s) c np.
Proof.
  intros (I & Rn & Hc & p & Ep & Hl) Hf. destruct (Hf p) as (H1 & H2 & H3 & H4).
  specialize (H4 Hl).
  split; [|split; [|split; [done|]]].
  - eapply table_inv_alter; [exact I | exact Ep | | by left | | by left].
    + eapply slot_ok_live; [by eapply (ti_slot _ _ _ I) | done..].
    + intros j. destruct H2 as [->| ->]; [by apply (ti_parent _ _ _ I np p)|].
      intros [= <-]. by apply running_live.
  - destruct Rn as (Ec & q & Eq & Hq). split; [done|]. cbn -[alter].
    exists q. rewrite list_lookup_alter_ne by congruence. done.
  - exists (f p). cbn -[alter]. rewrite list_lookup_alter_eq, Ep. done.
Qed.

Ltac forming_ok :=
  intros ?; cbn; split; [done|]; split; [by auto|]; split; [by rewrite ?length_insert|];
  unfold live; cbn; intuition congruence.

Lemma forming_env s c np e : forming s c np -> forming (set_env e s) c np.
Proof. done. Qed.

Lemma wp_dup_files c np fds i s :
  forming s c np -> wp (dup_files np fds i) (fun _ s' => forming s' c np) inv s.
Proof.
  revert s i. induction fds as [|[f|] fds IH]; intros s i F; cbn [dup_files]; wp_run; [done| |by apply IH].
  apply wp_call; [|intros; apply F]. intros f' e. wp_run. apply IH, forming_store; [done|].
  forming_ok.
Qed.

Lemma wp_fork s c :
  inv s -> nextpid s < 2 ^ 31 - 1 -> running s c ->
  wp (fork forkret_eip trapret_eip) (fun _ s' => inv s' /\ running s' c) inv s.
Proof.
  intros I Hn Rn. unfold fork. wp_step. apply wp_curproc. intros i Ei.
  assert (i = c) as -> by (destruct Rn; congruence). wp_step.
  eapply wp_mono; [by apply wp_allocproc|]. intros [np|] s1 (I1 & O1 & Em); wp_run;
    [|split; [done | by eapply others_running]].
  assert (forming s1 c np) as F1.
  { assert (running s1 c) as R1 by by eapply others_running. split; [done|]. split; [done|].
    destruct Em as (q & Eq & Hq & _), R1 as (_ & r & Er & Hr). split; [congruence|].
    exists q. split; [done|]. split; by rewrite Hq. }
  apply wp_call; [|intros; apply F1]. intros pd e. wp_run.
  assert (embryo (set_env e s1) np) as Em1 by done. assert (inv (set_env e s1)) as I1' by done.
  destruct (embryo_store _ np (set_pgdir pd) I1' Em1) as [I2 Em2]; [done|].
  apply (forming_env _ _ _ e), (forming_store _ _ _ (set_pgdir pd)) in F1; [|forming_ok].
  match goal with |- wp _ _ _ ?s' => set (s2 := s') in * end. clearbody s2.
  destruct (Z.eqb_spec pd 0) as [_|_]; wp_run.
  - apply wp_call; [|done]. intros _ e2. wp_run. split; [exact (free_embryo s2 np e2 I2 Em2)|].
    destruct Em2 as (q & Eq & He & _). destruct F1 as (_ & (Ec & r & Er & Hr) & _).
    split; [done|]. exists r. cbn -[alter]. rewrite !list_lookup_alter_ne by congruence. done.
  - eapply wp_mono; [apply (wp_dup_files c)|].
    { do 4 (apply forming_store; [|forming_ok]). exact F1. }
    intros [] s3 F3. wp_run. destruct (cwd _) as [ip|]; wp_run.
    apply wp_call; [|intros; apply F3]. intros d e3. wp_run.
    apply (forming_env _ _ _ e3), (forming_store _ _ _ (set_cwd (Some d))) in F3; [|forming_ok].
    apply (forming_store _ _ _ (fun q => set_name (copy_name (name q) (name p)) q)) in F3; [|forming_ok].
    apply (forming_store _ _ _ (set_state RUNNABLE)) in F3; [|forming_ok].
    match type of F3 with forming ?s' _ _ =>
      apply (forming_store _ _ _ (set_ticksAtStart (ticks s'))),
            (forming_store _ _ _ (set_ticksScheduled 0)) in F3; [|forming_ok..] end.
    destruct F3 as (I3 & R3 & _). done.
Qed.


(** The running process changes its own slot. *)
Lemma running_store s i f :
  inv s -> running s i ->
  (forall p, same_identity p (f p) /\ state (f p) = state p) ->
  inv (set_procs (alter f i (procs s)) s) /\ running (set_procs (alter f i (procs s)) s) i.
Proof.
  intros I (Ec & p & Ep & Hr) Hf. destruct (Hf p) as [Hi Hs]. split.
  - eapply table_inv_touch; [exact I | exact Ep | done | split; congruence | split; congruence].
  - split; [done|]. exists (f p). cbn -[alter]. rewrite list_lookup_alter_eq, Ep. split; [done|congruence].
Qed.

(** The descriptors of slot [i] below [fd] are closed. *)
Definition closed s (i fd : nat) : Prop :=
  exists p, procs s !! i = Some p /\ forall k, (k < fd)%nat -> ofile p !! k = Some None.

Lemma wp_close_files i n fd s :
  inv s -> running s i -> closed s i fd -> (fd + n = NOFILE)%nat ->
  wp (close_files i n fd)
    (fun _ s' => inv s' /\ running s' i /\ initproc s' = initproc s /\ closed s' i NOFILE) inv s.
Proof.
  revert s fd. induction n as [|n IH]; intros s fd I Rn Cl Hn; cbn [close_files]; wp_run.
  { rewrite Nat.add_0_r in Hn. by subst fd. }
  rename p into q. rename H0 into Eq. destruct Cl as (q' & Eq' & Cl). assert (q' = q) as -> by congruence.
  destruct (ti_slot _ _ _ I i q Eq) as (_ & Lo & _).
  destruct (lookup_lt_is_Some_2 (ofile q) fd) as [[f|] Ef]; [lia|..]; rewrite Ef; wp_run.
  - apply wp_call; [|done]. intros [] e. wp_run.
    destruct (running_store (set_env e s) i (fun p => set_ofile (<[fd:=None]> (ofile p)) p) I Rn) as [I' R'].
    { intros r. unfold same_identity. cbn. by rewrite length_insert. }
    refine (IH _ (S fd) I' R' _ _); [|lia].
    exists (set_ofile (<[fd:=None]> (ofile q)) q). cbn -[alter]. rewrite list_lookup_alter_eq, Eq.
    split; [done|]. intros k Hk. destruct (decide (k = fd)) as [->|N].
    + apply list_lookup_insert_eq. lia.
    + rewrite list_lookup_insert_ne by done. apply Cl. lia.
  - apply IH; [done..| |lia]. exists q. split; [done|]. intros k Hk.
    destruct (decide (k = fd)) as [->|N]; [done|]. apply Cl. lia.
Qed.

Definition no_files s (i : nat) : Prop :=
  exists p, procs s !! i = Some p /\ ofile p = replicate NOFILE None.

Lemma closed_no_files s i : inv s -> closed s i NOFILE -> no_files s i.
Proof.
  intros I (p & Ep & Cl). exists p. split; [done|]. destruct (ti_slot _ _ _ I i p Ep) as (_ & Lo & _).
  apply list_eq. intros k. destruct (decide (k < NOFILE)%nat) as [Hk|Hk].
  - rewrite Cl by done. symmetry. by apply lookup_replicate_2.
  - rewrite !lookup_ge_None_2; [done| rewrite length_replicate; lia | lia].
Qed.

Lemma no_files_wakeup s ch i :
  no_files s i -> no_files (set_procs (map (wakeup_proc ch) (procs s)) s) i.
Proof.
  intros (p & Ep & Hp). exists (wakeup_proc ch p). cbn. rewrite list_lookup_fmap, Ep. split; [done|].
  unfold wakeup_proc. by destruct (decide _).
Qed.

Lemma no_files_store s i j f :
  (forall p, ofile (f p) = ofile p) -> no_files s i -> no_files (set_procs (alter f j (procs s)) s) i.
Proof.
  intros Hf (p & Ep & Hp). unfold no_files. cbn -[alter]. destruct (decide (i = j)) as [->|N].
  - exists (f p). rewrite list_lookup_alter_eq, Ep. split; [done|]. by rewrite Hf.
  - exists p. by rewrite list_lookup_alter_ne.
Qed.

Lemma wakeup1_running s ch i :
  inv s -> running s i ->
  let s' := set_procs (map (wakeup_proc ch) (procs s)) s in inv s' /\ running s' i.
Proof.
  intros I (Ec & p & Ep & Hr). split.
  - eapply table_inv_kept; [exact I | apply wakeup_kept].
  - split; [done|]. exists p. cbn. rewrite list_lookup_fmap, Ep. split; [|done]. cbn. f_equal.
    apply wakeup_proc_awake. by rewrite Hr.
Qed.

(** The slots below [j] are not children of [i]. *)
Definition adopted (ps : list proc) (i j : nat) : Prop :=
  forall k q, (k < j)%nat -> ps !! k = Some q -> parent q ≠ Some i.

Lemma adopted_wakeup ps ch i j : adopted ps i j -> adopted (map (wakeup_proc ch) ps) i j.
Proof.
  intros Ha k q Hk. rewrite list_lookup_fmap. destruct (ps !! k) as [r|] eqn:Er; [|done].
  intros [= <-]. assert (parent (wakeup_proc ch r) = parent r) as ->; [|by apply (Ha k)].
  unfold wakeup_proc. by destruct (decide _).
Qed.

Lemma wp_reparent i n j s :
  inv s -> running s i -> initproc s ≠ Some i -> no_files s i -> adopted (procs s) i j ->
  wp (reparent i n j) (fun _ s' => inv s' /\ running s' i /\ initproc s' ≠ Some i /\ no_files s' i /\
    adopted (procs s') i (j + n)) inv s.
Proof.
  revert s j. induction n as [|n IH]; intros s j I Rn Hip Nf Ha; cbn [reparent]; unfold pass_to_init; wp_run.
  { by rewrite Nat.add_0_r. }
  rename p into q. rename H0 into Eq. replace (j + S n)%nat with (S j + n)%nat by lia.
  destruct (decide (parent q = Some i)) as [Hp|Hp]; wp_run.
  - set (s1 := set_procs (alter (set_parent (initproc s)) j (procs s)) s).
    assert (inv s1) as I1.
    { destruct (ti_slot _ _ _ I j q Eq) as (S1 & S2 & S3 & S4 & S5).
      destruct (decide (state q = UNUSED)) as [Hu|Hu]; [destruct (S4 Hu); congruence|].
      assert (forall k, initproc s = Some k -> live_at (procs s) k) as Hl by apply (ti_init _ _ _ I).
      eapply table_inv_alter; [exact I | exact Eq | | by left | done |].
      - split; [done|]. split; [done|]. split; [done|]. split; [|exact S5]. intros Hu'. by destruct (Hu Hu').
      - destruct (decide (live q)) as [L|L]; [by left|right].
        pose proof (not_live_unreferenced _ _ _ j q I Eq L) as U. split; [done|]. apply U. }
    assert (running s1 i) as R1.
    { destruct Rn as (Ec & r & Er & Hr). split; [done|]. cbn -[alter].
      destruct (decide (i = j)) as [->|N].
      - exists (set_parent (initproc s) r). by rewrite list_lookup_alter_eq, Er.
      - exists r. by rewrite list_lookup_alter_ne. }
    assert (adopted (procs s1) i (S j)) as A1.
    { intros k r Hk. subst s1. cbn -[alter]. destruct (decide (k = j)) as [->|N].
      - rewrite list_lookup_alter_eq, Eq. by intros [= <-].
      - rewrite list_lookup_alter_ne by done. apply Ha. lia. }
    assert (no_files s1 i) as N1 by by apply no_files_store.
    destruct (decide (state q = ZOMBIE)); unfold wakeup1; wp_run; [|by apply (IH s1)].
    destruct (wakeup1_running s1 (Cproc <$> initproc s) i I1 R1) as [I2 R2].
    apply IH; [exact I2 | exact R2 | done | by apply no_files_wakeup | by apply adopted_wakeup].
  - apply IH; [done..|]. intros k r Hk Er. destruct (decide (k = j)) as [->|N]; [congruence|].
    apply (Ha k r); [lia|done].
Qed.

(** [exit] does not return; the process is a ZOMBIE when it gives up the CPU,
    unless it is still closing its files. *)
Lemma wp_exit s i : inv s -> running s i -> wp exit (fun _ _ => False) inv s.
Proof.
  intros I Rn. unfold exit. wp_step. apply wp_curproc. intros i' Ei.
  assert (i' = i) as -> by (destruct Rn; congruence). wp_run.
  destruct (decide _) as [|Hip]; wp_run.
  eapply wp_mono; [apply wp_close_files; [done|done| |done]|].
  { destruct Rn as (_ & p & Ep & _). exists p. split; [done|]. lia. }
  intros [] s1 (I1 & R1 & E1 & C1). apply closed_no_files in C1; [|done]. wp_run.
  apply wp_call; [|done]. intros [] e1. wp_run.
  destruct (cwd _) as [d|]; wp_run. apply wp_call; [|done]. intros [] e2. wp_run.
  apply wp_call; [|done]. intros [] e3. wp_run.
  match goal with |- context [set_procs (alter (set_cwd None) i (procs ?x)) ?x] =>
    destruct (running_store x i (set_cwd None) I1 R1) as [I2 R2]; [done|];
    pose proof (no_files_store x i i (set_cwd None) ltac:(done) C1) as N2 end.
  match type of I2 with inv ?x => set (s2 := x) in *; assert (initproc s2 ≠ Some i) as H2 by (cbn; congruence) end.
  unfold wakeup1 at 1. wp_run.
  destruct (wakeup1_running s2 (Cproc <$> parent p0) i I2 R2) as [I3 R3].
  eapply wp_mono; [apply wp_reparent; [exact I3 | exact R3 | exact H2 | by apply no_files_wakeup
    | intros k q Hk; lia]|].
  intros [] s3 (I4 & (Ec & p3 & Ep3 & Hr3) & H4 & (p4 & Ep4 & Nf) & A4). wp_run.
  assert (p4 = p3) as -> by congruence.
  assert (i0 = i) as -> by (cbn in *; congruence). unfold inv. cbn -[alter]. rewrite alter_alter.
  destruct (ti_slot _ _ _ I4 i p3 Ep3) as (S1 & S2 & S3 & S4 & S5).
  assert (forall k q, procs s3 !! k = Some q -> parent q ≠ Some i) as Hno.
  { intros k q Eq. apply (A4 k q); [|done]. rewrite <- (ti_len _ _ _ I4). by apply lookup_lt_Some in Eq. }
  eapply table_inv_alter; [exact I4 | exact Ep3 | | by left
    | intros j; exact (ti_parent _ _ _ I4 i p3 j Ep3) |].
  - split; [done|]. split; [done|]. split; [|done]. intros _. apply S3. by rewrite Hr3.
  - right. split; [done|]. by apply (Hno i p3).
Qed.

(** Reaping: a ZOMBIE's slot becomes UNUSED. *)
Lemma reap_inv s j p f :
  inv s -> procs s !! j = Some p -> state p = ZOMBIE ->
  pid (f p) = 0 -> parent (f p) = None -> kstack (f p) = 0 -> ofile (f p) = ofile p -> ~ live (f p) ->
  (state (f p) = ZOMBIE -> False) ->
  inv (set_procs (alter f j (procs s)) s).
Proof.
  intros I Ep Hz Hp Hpa Hk Ho Hl Hnz.
  destruct (ti_slot _ _ _ I j p Ep) as (S1 & S2 & S3 & S4 & S5).
  eapply table_inv_alter; [exact I | exact Ep | | by right | rewrite Hpa; done |].
  - pose proof (ti_np _ _ _ I). cbn [nextpid set_procs]. split; [lia|]. split; [congruence|]. split; [|split; [done|]].
    + unfold live in Hl. tauto.
    + intros _. rewrite Ho. apply S5. intros [_ ?]. done.
  - right. split; [|congruence].
    by apply (not_live_unreferenced _ _ _ j p I Ep (fun L => proj2 L Hz)).
Qed.

(** The kernel stack of a ZOMBIE is freed. *)
Lemma zombie_kstack_inv s j p :
  inv s -> procs s !! j = Some p -> state p = ZOMBIE ->
  inv (set_procs (alter (set_kstack 0) j (procs s)) s).
Proof.
  intros I Ep Hz. destruct (ti_slot _ _ _ I j p Ep) as (S1 & S2 & S3 & S4 & S5).
  pose proof (not_live_unreferenced _ _ _ j p I Ep (fun L => proj2 L Hz)) as U.
  eapply table_inv_alter; [exact I | exact Ep | | by left
    | intros k; exact (ti_parent _ _ _ I j p k Ep) | right; split; [done | apply (proj1 U j p), Ep]].
  split; [done|]. split; [done|]. split; [done|]. split; [|done].
  intros Hu. destruct (S4 Hu). done.
Qed.

Lemma inv_live_store s i p f :
  inv s -> procs s !! i = Some p -> live p -> same_identity p (f p) -> live (f p) ->
  inv (set_procs (alter f i (procs s)) s).
Proof. intros I Ep Hl Hi Hl'. by eapply table_inv_touch. Qed.

(** A live process marks itself and enters the scheduler. *)
Lemma wp_park s i f Q :
  inv s -> running s i -> (forall p, same_identity p (f p) /\ live (f p)) ->
  wp sched Q inv (set_procs (alter f i (procs s)) s).
Proof.
  intros I (Ec & p & Ep & Hr) Hf. apply wp_sched. intros i' p' Ec' _.
  assert (i' = i) as -> by (cbn in Ec'; congruence). unfold inv. cbn -[alter]. rewrite alter_alter.
  eapply (inv_live_store s i p); [done | done | split; congruence | apply (Hf p) | apply (Hf p)].
Qed.

Lemma wp_sleep ch lk s i Q : inv s -> running s i -> wp (sleep ch lk) Q inv s.
Proof.
  intros I Rn. unfold sleep. wp_run. rewrite (proj1 Rn). wp_step.
  assert (wp (store i (set_chan_of (Some ch));; store i (set_state SLEEPING);; sched) Q inv s) as W.
  { do 4 wp_step. destruct (running_store s i (set_chan_of (Some ch)) I Rn) as [I' R']; [done|].
    by apply wp_park. }
  destruct (decide (lk = Lptable)); repeat (exact W || wp_step).
Qed.

Lemma wp_yield s i Q : inv s -> running s i -> wp yield Q inv s.
Proof.
  intros I Rn. unfold yield. do 3 wp_step. wp_step. assert (i0 = i) as -> by (destruct Rn; congruence).
  do 2 wp_step. by apply wp_park.
Qed.

Lemma wp_wait_loop s i : inv s -> running s i ->
  wp wait_loop (fun _ s' => inv s' /\ running s' i) inv s.
Proof.
  intros I Rn. unfold wait_loop. wp_step. apply wp_curproc. intros i' Ei.
  assert (i' = i) as -> by (destruct Rn; congruence). wp_run.
  destruct (wait_scan i (procs s) false) as [[j|] hk] eqn:Sc; wp_run.
  - destruct (wait_scan_found _ _ _ _ _ Sc) as (p' & Ep' & Hpar & Hz).
    assert (p = p') as -> by congruence.
    assert (j ≠ i) as Nji by (destruct Rn as (_ & r & Er & Hr); congruence).
    apply wp_call; [|done]. intros [] e1. wp_run. apply wp_call.
    2: { intros e. by apply (zombie_kstack_inv s j p'). }
    intros [] e2. wp_run. split.
    + unfold inv. cbn -[alter]. rewrite !alter_alter.
      eapply (reap_inv s j p'); try done. by intros [].
    + destruct Rn as (Ec & r & Er & Hr). split; [done|]. exists r. cbn -[alter].
      by rewrite !list_lookup_alter_ne.
  - destruct (negb hk || killed p); wp_run; [done|]. eapply wp_mono; [by apply (wp_sleep _ _ s i (fun _ _ => False))|].
    done.
Qed.


Lemma wp_kill n s i : inv s -> running s i -> wp (kill n) (fun _ s' => inv s') inv s.
Proof.
  intros I Rn. unfold kill. wp_run. destruct (kill_scan n (procs s)) as [ps|] eqn:K; wp_run; [|done].
  eapply table_inv_kept; [exact I | by eapply kill_scan_kept].
Qed.

Lemma nice_kept n prio l :
  Forall2 kept l (map (fun p => if pid p =? n then set_priority prio p else p) l).
Proof. induction l as [|p l IH]; constructor; [|done]. by destruct (pid p =? n). Qed.

Lemma wp_growproc n s i : inv s -> running s i -> wp (growproc n) (fun _ s' => inv s') inv s.
Proof.
  intros I Rn. unfold growproc. wp_run. assert (i0 = i) as -> by (destruct Rn; congruence). wp_run.
  assert (forall sz' e, wp (if negb (n =? 0) && (sz' =? 0) then ret (-1) else
    store i (set_sz sz');; call (switchuvm (pgdir p) (kstack p));; ret 0) (fun _ s' => inv s') inv
    (set_env e s)) as W.
  { intros sz' e. destruct (negb (n =? 0) && (sz' =? 0)); wp_run; [done|].
    destruct (running_store (set_env e s) i (set_sz sz') I Rn) as [I' R']; [done|].
    apply wp_call; [|done]. intros [] e'. by wp_run. }
  assert (set_env (env s) s = s) as Es by by destruct s.
  destruct (0 <? n); [|destruct (n <? 0)]; [apply wp_call; auto..|]. wp_run.
  specialize (W (sz p) (env s)). by rewrite Es in W.
Qed.

(** While [userinit] fills in init's slot. *)
Definition booting s (i : nat) : Prop := inv s /\ live_at (procs s) i /\ initproc s = Some i.

Lemma wp_store_booting s i f Q R :
  booting s i -> (forall p, same_identity p (f p) /\ (live p -> live (f p))) ->
  (forall s', booting s' i -> Q tt s') -> wp (store i f) Q R s.
Proof.
  intros (I & (p & Ep & Hl) & Ei) Hf HQ. destruct (Hf p) as [Hi Hl']. apply wp_store, HQ.
  split; [|split; [|done]].
  - by apply (inv_live_store s i p); auto.
  - exists (f p). cbn -[alter]. rewrite list_lookup_alter_eq, Ep. auto.
Qed.

Lemma wp_call_booting {A} (m : M E A) s i Q :
  booting s i -> (forall a s', booting s' i -> Q a s') -> wp (call m) Q inv s.
Proof. intros B HQ. apply wp_call; [intros a e; by apply HQ | intros e; apply B]. Qed.

Ltac booting_step :=
  match goal with
  | B : booting ?s ?i |- wp (store _ _) _ _ ?s =>
      apply (wp_store_booting s i _ _ _ B);
      [by (intros ?; split; [done|]; unfold live; cbn; intuition congruence) |];
      let s' := fresh "s" in intros s' ?; clear B
  | B : booting ?s ?i |- wp (call _) _ _ ?s =>
      apply (wp_call_booting _ s i _ B); let s' := fresh "s" in intros ? s' ?; clear B
  | _ => wp_step
  end.

(** [userinit] at boot. *)
Lemma wp_userinit s :
  inv s -> nextpid s < 2 ^ 31 - 1 ->
  wp (userinit forkret_eip trapret_eip) (fun _ s' => inv s' /\ exists i, initproc s' = Some i) inv s.
Proof.
  intros I Hn. unfold userinit. wp_step. eapply wp_mono; [by apply wp_allocproc|].
  intros r s1 (I1 & O1 & Em). wp_run. destruct r as [i|]; wp_run.
  assert (booting (set_initproc (Some i) s1) i) as B.
  { destruct Em as (p & Ep & Hp & _).
    assert (live_at (procs s1) i) as Hl by (exists p; split; [done|]; split; by rewrite Hp).
    split; [|done]. destruct I1 as [L N T P F J]. split; try done. by intros j [= <-]. }
  clear I1 Em O1 I Hn. booting_step. destruct (a =? 0); repeat booting_step.
  destruct H0 as (I & _ & Ei). eauto.
Qed.

End preservation.

(** ** Running the operations *)

Section runs.
Context {E : Type} `{ProcEnv E}.
Implicit Types (s : pst E) (c : ctx).

Lemma curproc_runs c s i : cur s = Some i -> curproc c s = Ret i c s.
Proof. intros Ei. unfold curproc. mrun. by rewrite Ei. Qed.

Lemma load_runs c s i p : procs s !! i = Some p -> load i c s = Ret p c s.
Proof. intros Ep. unfold load. mrun. by rewrite Ep. Qed.

Lemma store_runs c s i f : store i f c s = Ret tt c (set_procs (alter f i (procs s)) s).
Proof. done. Qed.

Lemma call_runs {A} (m : M E A) c s a e :
  m c (env s) = Ret a c e -> call m c s = Ret a c (set_env e s).
Proof. intros Em. unfold call, zoom. by rewrite Em. Qed.

Lemma sched_runs t w s i p :
  cur s = Some i -> procs s !! i = Some p -> state p ≠ RUNNING ->
  sched (Ctx t [Lptable] w) s = Switch (Ctx t [Lptable] w)
    (set_procs (alter (fun p => set_ticksScheduled (s32 (ticksScheduled p + 1)) p) i (procs s)) s).
Proof.
  intros Ei Ep Hr. unfold sched. rewrite (bind_Ret _ _ _ _ _ _ _ (curproc_runs _ s i Ei)).
  rewrite (bind_Ret _ _ _ _ _ _ _ (load_runs _ s i p Ep)). cbn [held length Nat.eqb negb].
  rewrite bool_decide_eq_true_2 by by left. cbn [negb]. by rewrite decide_False.
Qed.

End runs.

#[export] Hint Resolve curproc_runs load_runs : xv6.

Section sleeping.
Context {E : Type} `{ProcEnv E}.
Implicit Types (s : pst E).

(** The slot of a process that went to sleep on [ch]. *)
Definition asleep_slot (ch : chan) (p : proc) : proc :=
  set_ticksScheduled (s32 (ticksScheduled p + 1)) (set_state SLEEPING (set_chan_of (Some ch) p)).

Lemma sleep_runs t w s i ch lk :
  running s i ->
  sleep ch lk (Ctx t [lk] w) s =
  Switch (Ctx t [Lptable] w) (set_procs (alter (asleep_slot ch) i (procs s)) s).
Proof.
  intros (Ei & p & Ep & Hr). unfold sleep. mrun. rewrite Ei.
  assert (forall c s', s' = s -> held c = [Lptable] -> me c = t -> woken c = w ->
    (store i (set_chan_of (Some ch));; store i (set_state SLEEPING);; sched) c s' =
    Switch (Ctx t [Lptable] w) (set_procs (alter (asleep_slot ch) i (procs s)) s)) as W.
  { intros [t' h' w'] s' -> Hh Ht Hw. cbn in Hh, Ht, Hw. subst t' h' w'.
    do 2 (erewrite bind_Ret; [|apply store_runs]).
    erewrite sched_runs; [|done|cbn -[alter]; by rewrite !list_lookup_alter_eq, Ep | done].
    f_equal. unfold set_procs. cbn -[alter]. f_equal. rewrite !alter_alter. done. }
  destruct (decide (lk = Lptable)) as [->|N].
  - mstep. by apply W.
  - mstep. mstep.
    assert (release lk (Ctx t [Lptable; lk] w) s = Ret tt (Ctx t [Lptable] w) s) as Er.
    { unfold release. cbn [held drop_lock]. rewrite decide_False by congruence.
      by rewrite decide_True. }
    rewrite (bind_Ret _ _ _ _ _ _ _ Er). by apply W.
Qed.

(** [wakeup] with [ptable.lock] free. *)
Lemma wakeup_runs t h w s ch : Lptable ∉ h ->
  wakeup ch (Ctx t h w) s = Ret tt (Ctx t h w) (set_procs (map (wakeup_proc (Some ch)) (procs s)) s).
Proof. intros Hl. unfold wakeup, wakeup1. mrun. by rewrite release_head. Qed.

End sleeping.

(** ** Running [fork], [exit] and [wait] to the end

    The calls into other components are assumed to return, leaving the locks
    as they were. *)

Section lifecycle.
Context {E : Type} `{ProcEnv E}.
Implicit Types (s : pst E) (c : ctx).

(** file.c [filedup] and fs.c [idup] return their argument. *)
Definition dups_return : Prop :=
  (forall f c e, exists e', filedup f c e = Ret f c e') /\
  (forall d c e, exists e', idup d c e = Ret d c e').

Definition closes_return : Prop :=
  (forall f c e, exists e', fileclose f c e = Ret tt c e') /\
  (forall d c e, exists e', iput d c e = Ret tt c e') /\
  (forall c e, exists e', begin_op c e = Ret tt c e') /\
  (forall c e, exists e', end_op c e = Ret tt c e').

Lemma store_env e i f s :
  set_procs (alter f i (procs (set_env e s))) (set_env e s) = set_env e (set_procs (alter f i (procs s)) s).
Proof. done. Qed.

Lemma dup_files_runs np fds : forall pre s c p,
  dups_return -> procs s !! np = Some p -> ofile p = pre ++ replicate (length fds) None ->
  exists e', dup_files np fds (length pre) c s =
    Ret tt c (set_env e' (set_procs (alter (set_ofile (pre ++ fds)) np (procs s)) s)).
Proof.
  induction fds as [|[f|] fds IH]; intros pre s c p D Ep Ho; cbn [dup_files].
  - exists (env s). cbn in Ho. rewrite app_nil_r in *. unfold ret. f_equal.
    rewrite <- Ho. assert (alter (set_ofile (ofile p)) np (procs s) = procs s) as ->; [|by destruct s].
    apply list_eq. intros k. destruct (decide (k = np)) as [->|N].
    + rewrite list_lookup_alter_eq, Ep. by destruct p.
    + by rewrite list_lookup_alter_ne.
  - destruct (proj1 D f c (env s)) as [e1 E1].
    rewrite (bind_Ret _ _ _ _ _ _ _ (call_runs _ c s f e1 E1)).
    erewrite bind_Ret; [|apply store_runs].
    destruct (IH (pre ++ [Some f]) (set_procs (alter (fun p => set_ofile (<[length pre:=Some f]> (ofile p)) p) np (procs s)) (set_env e1 s))
      c (set_ofile (pre ++ Some f :: replicate (length fds) None) p) D) as [e' E'].
    + cbn -[alter]. rewrite list_lookup_alter_eq, Ep. cbn. f_equal. f_equal. rewrite Ho.
      rewrite insert_app_r_alt by lia. by rewrite Nat.sub_diag.
    + cbn. by rewrite <- app_assoc.
    + exists e'. rewrite length_app, Nat.add_1_r in E'. etransitivity; [exact E'|]. f_equal. unfold set_env, set_procs.
      cbn -[alter]. f_equal. rewrite alter_alter, <- app_assoc. done.
  - destruct (IH (pre ++ [None]) s c p D Ep) as [e' E'].
    + by rewrite Ho, <- app_assoc.
    + exists e'. rewrite length_app, Nat.add_1_r in E'. by rewrite E', <- app_assoc.
Qed.

(** The same steps on states written out, which keeps them from growing. *)
Lemma store_Pst c i f ps np ip tk cu fi pe (e : E) :
  store i f c (Pst ps np ip tk cu fi pe e) = Ret tt c (Pst (alter f i ps) np ip tk cu fi pe e).
Proof. done. Qed.

Lemma call_Pst {A} (m : M E A) c ps np ip tk cu fi pe e a e' :
  m c e = Ret a c e' ->
  call m c (Pst ps np ip tk cu fi pe e) = Ret a c (Pst ps np ip tk cu fi pe e').
Proof. intros Em. unfold call, zoom. cbn [env]. by rewrite Em. Qed.

Lemma load_Pst c i ps np ip tk cu fi pe (e : E) p :
  ps !! i = Some p ->
  load i c (Pst ps np ip tk cu fi pe e) = Ret p c (Pst ps np ip tk cu fi pe e).
Proof. intros Ep. by apply load_runs. Qed.

Ltac pst_norm :=
  cbv beta iota delta [procs nextpid initproc ticks cur first past_end env
    set_procs set_nextpid set_initproc set_cur set_first set_env].

(** One step of an operation on a written-out state. *)
Ltac pst_step :=
  lazymatch goal with
  | |- context [bind (store ?i ?f) ?k ?c (Pst ?ps ?np ?ip ?tk ?cu ?fi ?pe ?e)] =>
      rewrite (bind_Ret (store i f) k _ _ _ _ _ (store_Pst c i f ps np ip tk cu fi pe e)); cbv beta
  | _ => mstep; pst_norm
  end.

(** The slot [allocproc] returns. *)
Definition embryo_slot (forkret_eip trapret_eip k np : Z) (p : proc) : proc :=
  set_context (Context 0 0 0 0 forkret_eip)
    (set_contextp (k + KSTACKSIZE - sizeof_trapframe - 4 - sizeof_context)
      (set_ret_eip trapret_eip
        (set_tfp (k + KSTACKSIZE - sizeof_trapframe)
          (set_kstack k (set_pid np (set_state EMBRYO p)))))).

Lemma allocproc_runs fe te t h w s ps i k e :
  Lptable ∉ h -> alloc_scan (procs s) = (ps, Some i) ->
  kalloc (Ctx t h w) (env s) = Ret k (Ctx t h w) e -> k ≠ 0 ->
  allocproc fe te (Ctx t h w) s =
  Ret (Some i) (Ctx t h w)
    (Pst (alter (embryo_slot fe te k (nextpid s)) i ps) (s32 (nextpid s + 1)) (initproc s) (ticks s)
       (cur s) (first s) (past_end s) e).
Proof.
  intros Hl Sc Ek Hk. destruct s as [ps0 np ip tk cu fi pe e0]. pst_norm. cbn [procs env] in *.
  unfold allocproc. do 2 pst_step. rewrite Sc. repeat pst_step.
  erewrite (bind_Ret (call kalloc)); [|by apply call_Pst]. pst_step.
  destruct (Z.eqb_spec k 0); [done|]. repeat pst_step. by rewrite !alter_alter.
Qed.

(** The child that [fork] makes of its caller [p] in a slot that held [q]. *)
Definition child_slot (fe te k pd np : Z) (now : Z) (c : nat) (p q : proc) : proc :=
  Proc (sz p) pd k RUNNABLE np (Some c)
    (k + KSTACKSIZE - sizeof_trapframe) (set_eax 0 (tf p)) te
    (k + KSTACKSIZE - sizeof_trapframe - 4 - sizeof_context) (Context 0 0 0 0 fe)
    (chan_of q) (killed q) (ofile p) (cwd p) (copy_name (name q) (name p)) now 0 0.

Lemma fork_runs fe te t w s ps i k e1 pd e2 (me : nat) p q d :
  inv s -> running s me -> dups_return ->
  procs s !! me = Some p -> cwd p = Some d ->
  alloc_scan (procs s) = (ps, Some i) -> procs s !! i = Some q ->
  kalloc (Ctx t [] w) (env s) = Ret k (Ctx t [] w) e1 -> k ≠ 0 ->
  copyuvm (pgdir p) (sz p) (Ctx t [] w) e1 = Ret pd (Ctx t [] w) e2 -> pd ≠ 0 ->
  exists e', fork fe te (Ctx t [] w) s = Ret (nextpid s) (Ctx t [] w)
    (Pst (<[i := child_slot fe te k pd (nextpid s) (ticks s) me p q]> ps) (s32 (nextpid s + 1))
       (initproc s) (ticks s) (cur s) (first s) (past_end s) e').
Proof.
  intros I Rn D Ec Hcwd Sc Eq Ek Hk Ep Hpd.
  pose proof (alloc_scan_lookup (procs s)) as Lk. pose proof (alloc_scan_found (procs s)) as Fd.
  rewrite Sc in Lk, Fd. cbn [fst snd] in Lk, Fd. destruct (Fd i eq_refl) as [(q' & Eq' & Hu) _].
  assert (q' = q) as -> by congruence. clear Fd Eq'.
  assert (i ≠ me) as Nic by (destruct Rn as (_ & r & Er & Hr); congruence).
  assert (ps !! i = Some (set_priority 0 q)) as Ei
    by (rewrite Lk, Eq; unfold beyond; by rewrite Nat.ltb_irrefl).
  destruct (ti_slot _ _ _ I i q Eq) as (_ & _ & _ & _ & Ho).
  specialize (Ho (fun L => proj1 L Hu)).
  destruct (ti_slot _ _ _ I me p Ec) as (_ & Lo & _).
  assert (exists p', ps !! me = Some p' /\ p' = set_priority (priority p') p) as (p' & Ep' & Hp').
  { rewrite Lk, Ec. destruct (beyond (Some i) me); eexists; (split; [reflexivity|]); [by destruct p|done]. }
  unfold fork. erewrite bind_Ret; [|apply curproc_runs; apply Rn].
  erewrite bind_Ret; [|eapply allocproc_runs; [apply not_elem_of_nil|done..]].
  destruct s as [ps0 np ip tk cu fi pe e0]. pst_norm.
  assert (pgdir p' = pgdir p /\ sz p' = sz p /\ tf p' = tf p /\ ofile p' = ofile p /\
    cwd p' = cwd p /\ name p' = name p) as (Hpg & Hsz & Htf & Hof & Hcw & Hnm) by by rewrite Hp'.
  clear Hp' Lk Rn I.
  erewrite bind_Ret; [|apply load_Pst; rewrite list_lookup_alter_ne by done; exact Ep'].
  rewrite Hpg, Hsz, Htf, Hof, Hcw, Hnm, Hcwd.
  erewrite (bind_Ret (call _)); [|by apply call_Pst]. pst_step.
  destruct (Z.eqb_spec pd 0); [done|]. do 4 pst_step. rewrite !alter_alter.
  match goal with |- context [alter ?f i ps] => set (F := f) end.
  destruct (dup_files_runs i (ofile p) [] (Pst (alter F i ps) (s32 (np + 1)) ip tk cu fi pe e2)
    (Ctx t [] w) (F (set_priority 0 q)) D) as [e3 E3].
  { cbn -[alter]. by rewrite list_lookup_alter_eq, Ei. }
  { by rewrite Lo. }
  cbn [length] in E3. rewrite (bind_Ret _ _ _ _ _ _ _ E3). pst_norm.
  destruct (proj2 D d (Ctx t [] w) e3) as [e4 E4]. rewrite bind_assoc.
  erewrite (bind_Ret (call _)); [|by apply call_Pst]. do 2 pst_step. rewrite !alter_alter.
  erewrite bind_Ret; [|apply load_Pst; by rewrite list_lookup_alter_eq, Ei].
  repeat pst_step. exists e4. unfold ret. f_equal. f_equal. rewrite !alter_alter.
  apply list_eq. intros j. destruct (decide (j = i)) as [->|Nj].
  - rewrite list_lookup_alter_eq, Ei, list_lookup_insert_eq by by apply lookup_lt_Some in Ei. unfold child_slot. by rewrite Hcwd.
  - by rewrite list_lookup_alter_ne, list_lookup_insert_ne.
Qed.

(** A reaped slot. *)
Definition reaped (p : proc) : proc :=
  set_state UNUSED (set_killed false (set_name (<[O := 0]> (name p))
    (set_parent None (set_pid 0 (set_kstack 0 p))))).

Lemma wait_loop_reaps t w s i j b p e1 e2 :
  cur s = Some i -> wait_scan i (procs s) false = (Some j, b) -> procs s !! j = Some p ->
  kfree (kstack p) (Ctx t [Lptable] w) (env s) = Ret tt (Ctx t [Lptable] w) e1 ->
  freevm (pgdir p) (Ctx t [Lptable] w) e1 = Ret tt (Ctx t [Lptable] w) e2 ->
  wait_loop (Ctx t [Lptable] w) s =
  Ret (pid p) (Ctx t [] w) (set_env e2 (set_procs (alter reaped j (procs s)) s)).
Proof.
  intros Ec Sc Ep E1 E2. unfold wait_loop. erewrite bind_Ret; [|by apply curproc_runs]. mstep. rewrite Sc.
  erewrite bind_Ret; [|by apply load_runs].
  destruct s as [ps0 np ip tk cu fi pe e0]. pst_norm.
  erewrite (bind_Ret (call _)); [|by apply call_Pst]. pst_step.
  erewrite (bind_Ret (call _)); [|by apply call_Pst]. repeat pst_step. by rewrite !alter_alter.
Qed.

Lemma wait_loop_none t w s i b p :
  running s i -> wait_scan i (procs s) false = (None, b) -> procs s !! i = Some p ->
  wait_loop (Ctx t [Lptable] w) s =
  if negb b || killed p then Ret (-1) (Ctx t [] w) s
  else Switch (Ctx t [Lptable] w) (set_procs (alter (asleep_slot (Cproc i)) i (procs s)) s).
Proof.
  intros Rn Sc Ep. unfold wait_loop. erewrite bind_Ret; [|apply curproc_runs, Rn]. mstep. rewrite Sc.
  erewrite bind_Ret; [|by apply load_runs]. destruct (negb b || killed p).
  - by mrun.
  - apply bind_Switch. by apply sleep_runs.
Qed.

(** What [reparent] and [wakeup1] do to a slot of another process. *)
Definition evolves (i : nat) (q q' : proc) : Prop :=
  pid q' = pid q /\ ofile q' = ofile q /\ cwd q' = cwd q /\
  (state q' = state q \/ state q = SLEEPING /\ state q' = RUNNABLE) /\
  (parent q ≠ Some i -> parent q' = parent q).

#[local] Instance evolves_preorder i : PreOrder (evolves i).
Proof.
  split.
  - intros q. repeat split; auto.
  - intros p q r (A1 & A2 & A3 & A4 & A5) (B1 & B2 & B3 & B4 & B5).
    split; [congruence|]. split; [congruence|]. split; [congruence|]. split; [intuition congruence|].
    intros Hp. rewrite B5; [auto|]. by rewrite A5.
Qed.

Lemma wakeup_evolves ch i ps : Forall2 (evolves i) ps (map (wakeup_proc ch) ps).
Proof.
  induction ps as [|q ps IH]; constructor; [|done].
  unfold wakeup_proc. destruct (decide _) as [[Hs _]|]; [|done]. repeat split; auto.
Qed.

Lemma alter_evolves i j f ps :
  (forall q, ps !! j = Some q -> evolves i q (f q)) -> Forall2 (evolves i) ps (alter f j ps).
Proof.
  intros Hf. apply Forall2_same_length_lookup_2; [by rewrite length_alter|]. intros k p q Ep.
  destruct (decide (k = j)) as [->|N].
  - rewrite list_lookup_alter_eq, Ep. intros [= <-]. by apply Hf.
  - rewrite list_lookup_alter_ne, Ep by done. by intros [= <-].
Qed.

Lemma pass_to_init_runs i j s c q :
  procs s !! j = Some q ->
  exists s', pass_to_init i j c s = Ret tt c s' /\ cur s' = cur s /\
    Forall2 (evolves i) (procs s) (procs s').
Proof.
  intros Eq. unfold pass_to_init. erewrite bind_Ret; [|by apply load_runs].
  destruct (decide (parent q = Some i)) as [Hp|Hp]; [|by exists s].
  mstep. erewrite bind_Ret; [|apply store_runs].
  assert (Forall2 (evolves i) (procs s) (alter (set_parent (initproc s)) j (procs s))) as Fe.
  { apply alter_evolves. intros r Er. assert (r = q) as -> by congruence. repeat split; auto. done. }
  destruct (decide (state q = ZOMBIE)).
  - eexists. split; [reflexivity|]. split; [done|]. etransitivity; [exact Fe|]. apply wakeup_evolves.
  - by eexists.
Qed.

Lemma reparent_runs i n : forall j s c,
  (j + n <= length (procs s))%nat ->
  exists s', reparent i n j c s = Ret tt c s' /\ cur s' = cur s /\
    Forall2 (evolves i) (procs s) (procs s').
Proof.
  induction n as [|n IH]; intros j s c Hj; cbn [reparent]; [by exists s|].
  destruct (lookup_lt_is_Some_2 (procs s) j) as [q Eq]; [lia|].
  destruct (pass_to_init_runs i j s c q Eq) as (s1 & E1 & Ec & Fe).
  rewrite (bind_Ret _ _ _ _ _ _ _ E1).
  destruct (IH (S j) s1 c) as (s2 & -> & Ec2 & Fe2).
  { rewrite <- (Forall2_length _ _ _ Fe). lia. }
  exists s2. split; [done|]. split; [congruence|]. by etransitivity.
Qed.

Lemma close_files_runs i n : forall fd s c p,
  closes_return -> procs s !! i = Some p -> (fd + n = length (ofile p))%nat ->
  exists e', close_files i n fd c s =
    Ret tt c (set_env e' (set_procs
      (alter (fun p => set_ofile (take fd (ofile p) ++ replicate n None) p) i (procs s)) s)).
Proof.
  induction n as [|n IH]; intros fd s c p D Ep Hn; cbn [close_files].
  - exists (env s). unfold ret. f_equal. destruct s as [ps0 np ip tk cu fi pe e0]. pst_norm. f_equal.
    apply list_eq. intros k. destruct (decide (k = i)) as [->|N]; [|by rewrite list_lookup_alter_ne].
    rewrite list_lookup_alter_eq. cbn in Ep. rewrite Ep. cbn.
    rewrite app_nil_r, take_ge by lia. by destruct p.
  - erewrite bind_Ret; [|by apply load_runs].
    destruct (lookup_lt_is_Some_2 (ofile p) fd) as [x Ex]; [lia|]. rewrite Ex.
    destruct x as [f|].
    + rewrite bind_assoc. destruct (proj1 D f c (env s)) as [e1 E1].
      rewrite (bind_Ret _ _ _ _ _ _ _ (call_runs _ c s tt e1 E1)).
      erewrite bind_Ret; [|apply store_runs].
      destruct (IH (S fd) (set_procs (alter (fun p => set_ofile (<[fd:=None]> (ofile p)) p) i (procs s))
        (set_env e1 s)) c (set_ofile (<[fd:=None]> (ofile p)) p) D) as [e' E'].
      * cbn -[alter]. by rewrite list_lookup_alter_eq, Ep.
      * cbn. rewrite length_insert. lia.
      * exists e'. etransitivity; [exact E'|]. f_equal. destruct s as [ps0 np ip tk cu fi pe e0]. pst_norm.
        f_equal. rewrite alter_alter. apply list_eq. intros k.
        destruct (decide (k = i)) as [->|N]; [|by rewrite !list_lookup_alter_ne].
        rewrite !list_lookup_alter_eq. cbn in Ep. rewrite Ep. cbn. f_equal.
        transitivity (set_ofile (take (S fd) (<[fd:=None]> (ofile p)) ++ replicate n None) p); [done|].
        f_equal. rewrite (take_S_r _ _ None) by (apply list_lookup_insert_eq; lia).
        rewrite take_insert_ge by lia. by rewrite <- app_assoc.
    + mstep. destruct (IH (S fd) s c p D Ep) as [e' E']; [lia|].
      exists e'. rewrite E'. f_equal. destruct s as [ps0 np ip tk cu fi pe e0]. pst_norm.
      f_equal. apply list_eq. intros k.
      destruct (decide (k = i)) as [->|N]; [|by rewrite !list_lookup_alter_ne].
      rewrite !list_lookup_alter_eq. cbn in Ep. rewrite Ep. cbn. f_equal. f_equal.
      rewrite (take_S_r _ _ None) by done. by rewrite <- app_assoc.
Qed.

Lemma exit_runs t w s i p d :
  inv s -> running s i -> closes_return -> initproc s ≠ Some i ->
  procs s !! i = Some p -> cwd p = Some d ->
  exists s', exit (Ctx t [] w) s = Switch (Ctx t [Lptable] w) s' /\
    (exists p', procs s' !! i = Some p' /\ state p' = ZOMBIE /\ pid p' = pid p /\
       ofile p' = replicate NOFILE None /\ cwd p' = None /\
       (parent p ≠ Some i -> parent p' = parent p)) /\
    (forall j q, parent p = Some j -> j ≠ i -> procs s !! j = Some q -> state q = SLEEPING ->
       chan_of q = Some (Cproc j) -> exists q', procs s' !! j = Some q' /\ state q' = RUNNABLE) /\
    (forall k r', k ≠ i -> procs s' !! k = Some r' -> exists r, procs s !! k = Some r /\ evolves i r r').
Proof.
  intros I Rn D Hip Ep Hd. destruct (ti_slot _ _ _ I i p Ep) as (_ & Lo & _).
  pose proof (ti_len _ _ _ I) as Len.
  unfold exit. erewrite bind_Ret; [|apply curproc_runs, Rn]. mstep. rewrite decide_False by congruence.
  destruct (close_files_runs i NOFILE 0 s (Ctx t [] w) p D Ep) as [e1 E1]; [by rewrite Lo|].
  rewrite (bind_Ret _ _ _ _ _ _ _ E1).
  set (p1 := set_ofile (replicate NOFILE None) p).
  assert (alter (fun p => set_ofile (take 0 (ofile p) ++ replicate NOFILE None) p) i (procs s) =
    <[i := p1]> (procs s)) as -> by (by apply alter_insert).
  destruct D as (_ & Di & Db & De).
  destruct s as [ps0 np ip tk cu fi pe e0]. pst_norm. cbn in Ep, Len, Hip.
  assert (i < length ps0)%nat as Hi by by apply lookup_lt_Some in Ep.
  destruct (Db (Ctx t [] w) e1) as [e2 E2]. erewrite (bind_Ret (call _)); [|by apply call_Pst].
  erewrite bind_Ret; [|apply load_Pst; by apply list_lookup_insert_eq].
  cbn [cwd set_ofile p1]. rewrite Hd.
  destruct (Di d (Ctx t [] w) e2) as [e3 E3]. erewrite (bind_Ret (call _)); [|by apply call_Pst].
  destruct (De (Ctx t [] w) e3) as [e4 E4]. erewrite (bind_Ret (call _)); [|by apply call_Pst].
  rewrite (bind_Ret (store _ _) _ _ _ _ _ _ (store_Pst _ _ _ _ _ _ _ _ _ _ _)).
  set (p2 := set_cwd None p1). assert (alter (set_cwd None) i (<[i := p1]> ps0) = <[i := p2]> ps0) as ->.
  { rewrite (alter_insert _ i _ p1) by by apply list_lookup_insert_eq. by rewrite list_insert_insert_eq. }
  mstep. erewrite bind_Ret; [|apply load_Pst; by apply list_lookup_insert_eq].
  unfold wakeup1 at 1. mstep. pst_norm. change (parent p2) with (parent p).
  set (ps3 := map (wakeup_proc (Cproc <$> parent p)) (<[i:=p2]> ps0)).
  assert (length ps3 = NPROC) as L3 by (unfold ps3; by rewrite length_map, length_insert).
  destruct (reparent_runs i NPROC 0 (Pst ps3 np ip tk cu fi pe e4) (Ctx t [Lptable] w))
    as (s4 & E5 & Ec4 & Fe); [cbn; lia|].
  rewrite (bind_Ret _ _ _ _ _ _ _ E5). erewrite bind_Ret; [|apply store_runs].
  assert (ps3 !! i = Some p2) as Ep3.
  { unfold ps3. rewrite list_lookup_fmap, list_lookup_insert_eq by done. cbn. f_equal.
    apply wakeup_proc_awake. cbn. destruct Rn as (_ & r & Er & Hr). cbn in Er. congruence. }
  destruct (Forall2_lookup_l _ _ _ _ _ Fe Ep3) as (p4 & Ep4 & V1 & V2 & V3 & V4 & V5).
  erewrite bind_Switch; [|eapply sched_runs].
  2: { cbn. rewrite Ec4. apply Rn. }
  2: { cbn -[alter]. by rewrite list_lookup_alter_eq, Ep4. }
  2: { done. }
  eexists. split; [reflexivity|]. cbn -[alter]. rewrite alter_alter. split; [|split].
  - eexists. rewrite list_lookup_alter_eq, Ep4. split; [done|]. split; [done|]. cbn. by rewrite V1, V2, V3.
  - intros j q Hj Nj Eq Hs Hc. rewrite list_lookup_alter_ne by done. cbn in Eq.
    assert (ps3 !! j = Some (set_state RUNNABLE q)) as E3'.
    { unfold ps3. rewrite list_lookup_fmap, list_lookup_insert_ne, Eq by done. cbn. f_equal.
      unfold wakeup_proc. rewrite decide_True; [done|]. by rewrite Hj. }
    destruct (Forall2_lookup_l _ _ _ _ _ Fe E3') as (q' & Eq' & _ & _ & _ & [Hq|[Hq _]] & _); [|done].
    exists q'. by split.
  - intros k r' Nk. rewrite list_lookup_alter_ne by done. intros Er'.
    assert (Forall2 (evolves i) (<[i:=p2]> ps0) (procs s4)) as Fe'.
    { etransitivity; [apply wakeup_evolves|exact Fe]. }
    destruct (Forall2_lookup_r _ _ _ _ _ Fe' Er') as (r & Er & Hv).
    rewrite list_lookup_insert_ne in Er by done. by exists r.
Qed.

Lemma wait_scan_only i j l p :
  l !! i = Some p -> parent p = Some j -> state p = ZOMBIE ->
  (forall k r, l !! k = Some r -> parent r = Some j -> state r = ZOMBIE -> k = i) ->
  exists b, wait_scan j l false = (Some i, b).
Proof.
  intros Ep Hp Hz Hu. destruct (wait_scan j l false) as [[k|] b] eqn:Sc.
  - destruct (wait_scan_found _ _ _ _ _ Sc) as (r & Er & Hr & Hrz). rewrite (Hu k r Er Hr Hrz). by exists b.
  - destruct (wait_scan_none _ _ _ _ Sc) as [_ Hn]. by destruct (Hn i p Ep Hp).
Qed.

(** The scheduler gives the CPU to process [j]. *)
Definition dispatch (j : nat) s : pst E := set_cur (Some j) (set_procs (alter (set_state RUNNING) j (procs s)) s).

Definition frees_return : Prop :=
  (forall a c e, exists e', kfree a c e = Ret tt c e') /\
  (forall a c e, exists e', freevm a c e = Ret tt c e').

End lifecycle.

(** ** The claims *)

Section claims.
Context {E : Type} `{ProcEnv E}.
Implicit Types (s : pst E).

(** Every entry point of proc.c that changes the table. *)
Inductive operation :=
| Fork | Exit | Wait | Wait_resumed | Yield | Sleep_on (ch : chan) (lk : lockid) | Wakeup (ch : chan)
| Kill (pid : Z) | Grow (n : Z) | Nice (pid prio : Z) | Ps (n : Z) (array : list procInfo).

Definition perform (forkret_eip trapret_eip : Z) (o : operation) : M (pst E) unit :=
  match o with
  | Fork => fork forkret_eip trapret_eip;; ret tt
  | Exit => exit
  | Wait => wait;; ret tt
  | Wait_resumed => wait_resumed;; ret tt
  | Yield => yield
  | Sleep_on ch lk => sleep ch lk
  | Wakeup ch => wakeup ch
  | Kill n => kill n;; ret tt
  | Grow n => growproc n;; ret tt
  | Nice n prio => proc_nice n prio;; ret tt
  | Ps n a => proc_ps n a;; ret tt
  end.

(** C5: the process table stays well formed.  Whatever operation of proc.c the
    running process performs, and however it ends, pids of slots in use are
    unique and below [nextpid], every parent and init are alive, and unused
    slots own no kernel stack, parent or file. *)
Theorem ptable_invariant forkret_eip trapret_eip o s i :
  inv s -> running s i -> nextpid s < 2 ^ 31 - 1 ->
  wp (perform forkret_eip trapret_eip o) (fun _ s' => inv s') inv s.
Proof.
  intros I Rn Hn. destruct o; cbn [perform].
  - wp_step. eapply wp_mono; [by eapply wp_fork|]. intros r s' [I' _]. by wp_run.
  - eapply wp_mono; [by eapply wp_exit|]. done.
  - unfold wait. do 3 wp_step. eapply wp_mono; [by eapply wp_wait_loop|]. intros r s' [I' _]. by wp_run.
  - unfold wait_resumed, sleep_resumed. do 4 wp_step.
    assert (i0 = i) as -> by (destruct Rn; congruence). do 2 wp_step.
    destruct (running_store s i (set_chan_of None) I Rn) as [I' R']; [done|].
    rewrite decide_True by done. wp_step.
    eapply wp_mono; [by eapply wp_wait_loop|]. intros r s' [I'' _]. by wp_run.
  - by eapply wp_yield.
  - by eapply wp_sleep.
  - unfold wakeup, wakeup1. wp_run. eapply table_inv_kept; [exact I | apply wakeup_kept].
  - wp_step. eapply wp_mono; [by eapply wp_kill|]. intros r s' I'. by wp_run.
  - wp_step. eapply wp_mono; [by eapply wp_growproc|]. intros r s' I'. by wp_run.
  - unfold proc_nice. wp_run. eapply table_inv_kept; [exact I | apply nice_kept].
  - unfold proc_ps. wp_run. destruct (ps_fill _ _ _). by wp_run.
Qed.



End claims.
