(* ===== verification/Sched.v ===== *)
(** Blocking, killing and scheduling: [sleep] against [wakeup], [wait] that has
    nothing to reap, [kill], the priorities and the schedule they produce, and
    what [proc_ps] writes; with the concrete machine the witnesses run on. *)

From stdpp Require Import base numbers list strings sorting.
From S2P Require Import Xv6 Prelude Kstring Proc ProcTable.

(** ** [kill] *)

Lemma kill_scan_none n l : kill_scan n l = None <-> forall k p, l !! k = Some p -> pid p ≠ n.
Proof.
  induction l as [|p l IH]; cbn [kill_scan]; [done|].
  destruct (Z.eqb_spec (pid p) n) as [E|E].
  - split; [done|]. intros Hl. by destruct (Hl O p).
  - rewrite fmap_None, IH. split.
    + intros Hl [|k] q Eq; [by injection Eq as <-|]. by apply (Hl k).
    + intros Hl k q Eq. by apply (Hl (S k)).
Qed.

(** A killed process, woken if it slept. *)
Definition killed_slot (p : proc) : proc :=
  if decide (state p = SLEEPING) then set_state RUNNABLE (set_killed true p) else set_killed true p.

Lemma kill_scan_some n l i p :
  l !! i = Some p -> pid p = n -> (forall k q, (k < i)%nat -> l !! k = Some q -> pid q ≠ n) ->
  kill_scan n l = Some (<[i := killed_slot p]> l).
Proof.
  revert i. induction l as [|x l IH]; intros i Ep Hn Hf; [done|]. cbn [kill_scan].
  destruct i as [|i].
  - injection Ep as <-. rewrite (proj2 (Z.eqb_eq _ _) Hn). unfold killed_slot. by destruct (decide _).
  - destruct (Z.eqb_spec (pid x) n) as [E|E]; [by destruct (Hf O x); [lia|..]|].
    rewrite (IH i); [done..|]. intros k q Hk. apply (Hf (S k)). lia.
Qed.

(** ** The scheduler *)

Section scheduler.
Context {E : Type} `{ProcEnv E}.
Context (run : nat -> M (pst E) unit) (idle : M (pst E) unit).

(** A run of [m] dispatches slots in order of non-increasing priority, none of
    them above [low]; its first component is the last of them, or [low]. *)
Definition descending (low : Z) (r : Z * list (nat * Z)) : Prop :=
  StronglySorted (fun a b => b.2 <= a.2) r.2 /\ Forall (fun a => r.1 <= a.2 <= low) r.2 /\ r.1 <= low.

Lemma descending_app low r r' :
  descending low r -> descending r.1 r' -> descending low (r'.1, r.2 ++ r'.2).
Proof.
  intros (S1 & F1 & H1) (S2 & F2 & H2). split; [|split]; cbn; [| |lia].
  - induction S1 as [|a l Sl IH Ha]; [done|]. cbn. inversion F1 as [|? ? Fa Fl]; subst.
    constructor; [by apply IH|]. apply Forall_app. split; [done|].
    eapply Forall_impl; [exact F2|]. cbn. intros b Hb. lia.
  - apply Forall_app. split; (eapply Forall_impl; [done|]); cbn; intros a Ha; lia.
Qed.

Lemma wp_scheduler_scan slots : forall low s,
  wp (scheduler_scan run slots low) (fun r _ => descending low r) (fun _ => True) s.
Proof.
  induction slots as [|i slots IH]; intros low s; cbn [scheduler_scan].
  { wp_run. split; [constructor|]. split; [constructor|]. cbn. lia. }
  wp_step. wp_step. destruct (negb (bool_decide (state p = RUNNABLE)) || (low <? priority p)) eqn:G; [apply IH|].
  apply orb_false_iff in G as [_ Hp]. apply Z.ltb_ge in Hp. do 3 wp_step.
  apply wp_call; [|done]. intros _ e. do 3 wp_step. apply wp_any; [|done]. intros _ s1.
  do 3 wp_step. eapply wp_mono; [apply IH|]. intros r s' Hr. wp_run.
  eapply (descending_app low (priority p, [(i, priority p)]) r); [|done].
  split; [|split]; cbn; [by repeat constructor | | lia]. constructor; [cbn; lia|done].
Qed.

Lemma wp_scheduler_passes n : forall low s,
  wp (scheduler_passes run idle n low) (fun r _ => descending low r) (fun _ => True) s.
Proof.
  induction n as [|n IH]; intros low s; cbn [scheduler_passes].
  { wp_run. split; [constructor|]. split; [constructor|]. cbn. lia. }
  wp_step. apply wp_any; [|done]. intros _ s1. do 3 wp_step.
  eapply wp_mono; [apply wp_scheduler_scan|]. intros r s2 Hr. do 3 wp_step.
  eapply wp_mono; [apply IH|]. intros r' s3 Hr'. wp_run. by apply descending_app.
Qed.

(** the scheduler never lets a less urgent process run again.
    [lowestPriority] is not reset between passes: however the processes behave
    and the other processors interfere, the priorities one processor dispatches
    form a non-increasing sequence, so after it has run a process of priority
    [v] no process of a higher number ever runs on it. *)
Theorem scheduler_priorities_descend n c s r c' s' :
  scheduler run idle n c s = Ret r c' s' ->
  StronglySorted (fun a b => b.2 <= a.2) r.2 /\ Forall (fun a => a.2 <= 0x77777777) r.2.
Proof.
  intros Er. assert (wp (scheduler run idle n) (fun r _ => descending 0x77777777 r) (fun _ => True) s) as W.
  { unfold scheduler. do 2 wp_step. apply wp_scheduler_passes. }
  specialize (W c). rewrite Er in W. destruct W as (S1 & F1 & _). split; [done|].
  eapply Forall_impl; [exact F1|]. cbn. intros a Ha. lia.
Qed.

(** Slots that are not eligible are passed over. *)
Lemma scheduler_scan_idle slots low c (s : pst E) :
  Forall (fun i => exists p, procs s !! i = Some p /\ (state p = RUNNABLE -> low < priority p)) slots ->
  scheduler_scan run slots low c s = Ret (low, []) c s.
Proof.
  induction 1 as [|i slots (p & Ep & Hp) _ IH]; cbn [scheduler_scan]; [done|].
  erewrite bind_Ret; [|by apply load_runs].
  assert (negb (bool_decide (state p = RUNNABLE)) || (low <? priority p) = true) as ->; [|done].
  case_bool_decide as Hr; cbn; [|done]. apply Z.ltb_lt. auto.
Qed.

Lemma all_slots (P : proc -> Prop) (s : pst E) :
  length (procs s) = NPROC -> (forall i p, procs s !! i = Some p -> P p) ->
  Forall (fun i => exists p, procs s !! i = Some p /\ P p) (seq 0 NPROC).
Proof.
  intros L Hp. apply Forall_forall. intros i Hi%elem_of_seq.
  destruct (lookup_lt_is_Some_2 (procs s) i) as [p Ep]; [lia|]. eauto.
Qed.

(** starvation.  Once [lowestPriority] is below the priority of every
    RUNNABLE process, the processor idles in every later pass although there is
    a process to run. *)
Theorem scheduler_starves n low t w (s : pst E) i p :
  length (procs s) = NPROC -> idle = ret tt ->
  procs s !! i = Some p -> state p = RUNNABLE ->
  (forall j q, procs s !! j = Some q -> state q = RUNNABLE -> low < priority q) ->
  scheduler_passes run idle n low (Ctx t [] w) s = Ret (low, []) (Ctx t [] w) s.
Proof.
  intros L -> Ep Hr Hlow. induction n as [|n IH]; cbn [scheduler_passes]; [done|]. mrun.
  erewrite bind_Ret; [|apply scheduler_scan_idle, (all_slots (fun q => state q = RUNNABLE -> low < priority q));
    [done|exact Hlow]].
  mstep. cbn [fst snd]. by rewrite (bind_Ret _ _ _ _ _ _ _ IH).
Qed.

(** What is needed of a process for one turn: it comes back to the scheduler
    with the locks as they were, having changed no other slot's eligibility. *)
Definition minds_its_business : Prop :=
  forall i c s, exists s', run i c s = Ret tt c s' /\
    forall j, j ≠ i -> procs s' !! j = procs s !! j.

Definition is_runnable (s : pst E) (i : nat) : bool :=
  match procs s !! i with Some p => bool_decide (state p = RUNNABLE) | None => false end.

Lemma scheduler_scan_fair v : forall slots low c (s : pst E),
  minds_its_business -> (forall pd k c e, exists e', switchuvm pd k c e = Ret tt c e') ->
  NoDup slots -> v <= low ->
  Forall (fun i => exists p, procs s !! i = Some p /\ priority p = v) slots ->
  exists low' s', scheduler_scan run slots low c s =
    Ret (low', map (fun i => (i, v)) (filter (fun i => is_runnable s i = true) slots)) c s'.
Proof.
  induction slots as [|i slots IH]; intros low c s Hrun Hsw Hnd Hv Hall; cbn [scheduler_scan].
  { by exists low, s. }
  inversion Hnd as [|? ? Hi Hnd']; subst. inversion Hall as [|? ? (p & Ep & Hp) Hall']; subst.
  erewrite bind_Ret; [|by apply load_runs]. rewrite filter_cons.
  assert (is_runnable s i = bool_decide (state p = RUNNABLE)) as -> by (unfold is_runnable; by rewrite Ep).
  rewrite (proj2 (Z.ltb_ge low (priority p)) Hv), orb_false_r.
  destruct (bool_decide (state p = RUNNABLE)) eqn:Hr; cbn [negb].
  - rewrite decide_True by done. mstep. destruct (Hsw (pgdir p) (kstack p) c (env s)) as [e He].
    erewrite (bind_Ret (call _)); [|by apply call_runs]. erewrite bind_Ret; [|apply store_runs].
    match goal with |- context [bind (run i) _ c ?s1] => destruct (Hrun i c s1) as (s2 & E2 & Ho) end.
    rewrite (bind_Ret _ _ _ _ _ _ _ E2). mstep.
    assert (forall j, j ≠ i -> procs s2 !! j = procs s !! j) as Ho'.
    { intros j Nj. rewrite Ho by done. cbn -[alter]. by rewrite list_lookup_alter_ne. }
    destruct (IH (priority p) c (set_cur None s2) Hrun Hsw Hnd') as (low' & s3 & E3); [lia| |].
    { apply Forall_forall. intros j Hj. rewrite Forall_forall in Hall'.
      cbn. rewrite Ho' by congruence. by apply Hall'. }
    rewrite (bind_Ret _ _ _ _ _ _ _ E3). exists low', s3. unfold ret. cbn [fst snd map]. f_equal. f_equal.
    f_equal. f_equal. apply filter_ext_in. intros j Hj. unfold is_runnable. cbn.
    by rewrite Ho' by congruence.
  - rewrite decide_False by done. by apply IH.
Qed.

(** with equal priorities the scheduler is round robin.  If all processes
    have the same priority, not above [lowestPriority], and each gives the CPU
    back without touching the others, one pass runs every process that was
    RUNNABLE, once, in table order. *)
Theorem equal_priorities_round_robin v low c (s : pst E) :
  minds_its_business -> (forall pd k c e, exists e', switchuvm pd k c e = Ret tt c e') ->
  length (procs s) = NPROC -> v <= low -> (forall i p, procs s !! i = Some p -> priority p = v) ->
  exists low' s', scheduler_scan run (seq 0 NPROC) low c s =
    Ret (low', map (fun i => (i, v)) (filter (fun i => is_runnable s i = true) (seq 0 NPROC))) c s'.
Proof.
  intros Hrun Hsw L Hv Hp. apply scheduler_scan_fair; [done..|by apply NoDup_seq|done|].
  by apply (all_slots (fun p => priority p = v)).
Qed.

End scheduler.

(** ** Claims on blocking and killing *)

Section blocking.
Context {E : Type} `{ProcEnv E}.
Implicit Types (s : pst E).

(** no lost wakeup.  [sleep] gives up [lk] only with [ptable.lock] held, so
    whoever calls [wakeup] on the channel afterwards finds the process SLEEPING
    and makes it RUNNABLE, while a [wakeup] on another channel leaves it alone;
    when it runs again it holds [lk] and nothing else. *)
Theorem wakeup_finds_sleeper t t2 w h2 w2 s i ch ch' lk :
  running s i -> lk ≠ Lptable -> Lptable ∉ h2 ->
  exists s1, sleep ch lk (Ctx t [lk] w) s = Switch (Ctx t [Lptable] w) s1 /\
    (exists p1, procs s1 !! i = Some p1 /\ state p1 = SLEEPING /\ chan_of p1 = Some ch) /\
    exists s2, wakeup ch' (Ctx t2 h2 w2) s1 = Ret tt (Ctx t2 h2 w2) s2 /\
      (exists p2, procs s2 !! i = Some p2 /\
         state p2 = if decide (ch' = ch) then RUNNABLE else SLEEPING) /\
      exists s3, sleep_resumed lk (Ctx t [Lptable] w) (dispatch i s2) = Ret tt (Ctx t [lk] w) s3 /\
        running s3 i.
Proof.
  intros Rn Hlk Hh. exists (set_procs (alter (asleep_slot ch) i (procs s)) s).
  split; [by apply sleep_runs|]. destruct Rn as (Ei & p & Ep & Hr).
  assert (alter (asleep_slot ch) i (procs s) !! i = Some (asleep_slot ch p)) as E1
    by by rewrite list_lookup_alter_eq, Ep.
  split; [by exists (asleep_slot ch p)|]. eexists. split; [by apply wakeup_runs|].
  set (p2 := wakeup_proc (Some ch') (asleep_slot ch p)).
  assert (map (wakeup_proc (Some ch')) (alter (asleep_slot ch) i (procs s)) !! i = Some p2) as E2
    by by rewrite list_lookup_fmap, E1.
  split.
  - exists p2. split; [exact E2|]. unfold p2, wakeup_proc. destruct (decide (ch' = ch)) as [->|N].
    + by rewrite decide_True.
    + rewrite decide_False; [done|]. cbn. intros [_ [= Hc]]. congruence.
  - unfold sleep_resumed. erewrite bind_Ret; [|by apply curproc_runs]. erewrite bind_Ret; [|apply store_runs].
    rewrite decide_False by done. mrun. rewrite acquire_free by apply not_elem_of_nil.
    eexists. split; [reflexivity|]. split; [done|]. eexists. cbn -[alter map].
    rewrite !list_lookup_alter_eq, E2. done.
Qed.

(** the kernel monad's [sleep] summarises proc.c's.  From any held locks,
    proc.c's [sleep] panics exactly when the summary does, with the same
    message, and otherwise enters the scheduler holding only [ptable.lock]. *)
Theorem sleep_refines_monad t h w s i ch lk :
  running s i -> lk ≠ Lptable ->
  match Prelude.sleep (A := unit) ch lk (Ctx t h w) tt with
  | Sleep ch' lk' c _ => ch' = ch /\ lk' = lk /\ held c = [] /\
      sleep ch lk (Ctx t h w) s =
      Switch (Ctx t [Lptable] w) (set_procs (alter (asleep_slot ch) i (procs s)) s)
  | Panic msg => sleep ch lk (Ctx t h w) s = Panic msg
  | _ => False
  end.
Proof.
  intros Rn Hlk. unfold Prelude.sleep. cbn [held].
  destruct (decide (Lptable ∈ h)) as [Hp|Hp].
  - unfold sleep. mstep. rewrite (proj1 Rn), decide_False by done.
    rewrite bind_assoc. apply bind_Panic. by apply acquire_held.
  - destruct (drop_lock lk h) as [[|l h']|] eqn:Ed.
    + do 3 (split; [done|]). destruct h as [|x h]; [done|]. cbn [drop_lock] in Ed.
      destruct (decide (x = lk)) as [->|N]; [injection Ed as ->; by apply sleep_runs|].
      by destruct (drop_lock lk h).
    + unfold sleep. mstep. rewrite (proj1 Rn), decide_False by done. rewrite bind_assoc. mstep.
      assert (release lk (Ctx t (Lptable :: h) w) s = Ret tt (Ctx t (Lptable :: l :: h') w) s) as Er.
      { unfold release. cbn [held drop_lock]. rewrite decide_False by congruence. by rewrite Ed. }
      rewrite (bind_Ret _ _ _ _ _ _ _ Er). do 2 (erewrite bind_Ret; [|apply store_runs]).
      destruct Rn as (Ei & p & Ep & Hr). unfold sched.
      erewrite bind_Ret; [|by apply curproc_runs].
      erewrite bind_Ret; [|apply load_runs; cbn -[alter]; by rewrite !list_lookup_alter_eq, Ep].
      cbn [held length Nat.eqb negb]. by rewrite bool_decide_eq_true_2 by by left.
    + unfold sleep. mstep. rewrite (proj1 Rn), decide_False by done. rewrite bind_assoc. mstep.
      apply bind_Panic. unfold release. cbn [held drop_lock]. rewrite decide_False by congruence.
      by rewrite Ed.
Qed.

(** [wait] with nothing to reap.  Without children, or killed, it returns -1
    and changes nothing; with live children only it sleeps on its own slot. *)
Theorem wait_without_zombies t w s i p :
  running s i -> procs s !! i = Some p ->
  (forall k r, procs s !! k = Some r -> parent r = Some i -> state r ≠ ZOMBIE) ->
  ((forall k r, procs s !! k = Some r -> parent r ≠ Some i) \/ killed p = true ->
   wait (Ctx t [] w) s = Ret (-1) (Ctx t [] w) s) /\
  (forall k r, procs s !! k = Some r -> parent r = Some i -> killed p = false ->
   wait (Ctx t [] w) s = Switch (Ctx t [Lptable] w)
     (set_procs (alter (asleep_slot (Cproc i)) i (procs s)) s)).
Proof.
  intros Rn Ep Hz. unfold wait. destruct (wait_scan i (procs s) false) as [[j|] b] eqn:Sc.
  { destruct (wait_scan_found _ _ _ _ _ Sc) as (r & Er & Hr & Hrz). by destruct (Hz j r Er Hr). }
  destruct (wait_scan_none _ _ _ _ Sc) as [Hb _].
  split.
  - intros Hc. mstep. rewrite (wait_loop_none t w s i b p Rn Sc Ep).
    assert (negb b || killed p = true) as ->; [|done]. destruct Hc as [Hc| ->]; [|apply orb_true_r].
    destruct b; [|done]. destruct (proj1 Hb eq_refl) as [?|(k & r & Er & Hr)]; [done|].
    by destruct (Hc k r Er).
  - intros k r Er Hr Hk. mstep. rewrite (wait_loop_none t w s i b p Rn Sc Ep).
    assert (b = true) as -> by (apply Hb; right; by exists k, r). by rewrite Hk.
Qed.

(** [kill] hits exactly the process it names.  For a pid in use it returns 0
    after marking that one slot, waking it if it slept; for any other pid it
    returns -1 and changes nothing. *)
Theorem kill_hits_one_process t h w s n :
  inv s -> Lptable ∉ h -> n ≠ 0 ->
  (forall i p, procs s !! i = Some p -> pid p = n ->
     kill n (Ctx t h w) s = Ret 0 (Ctx t h w) (set_procs (<[i := killed_slot p]> (procs s)) s)) /\
  ((forall i p, procs s !! i = Some p -> pid p ≠ n) ->
     kill n (Ctx t h w) s = Ret (-1) (Ctx t h w) s).
Proof.
  intros I Hh Hn. unfold kill. split.
  - intros i p Ep Hp. do 2 mstep. rewrite (kill_scan_some n (procs s) i p Ep Hp); [by mrun|].
    intros k q Hk Eq Hq. assert (k = i); [|lia]. apply (ti_pid _ _ _ I k i q p); congruence.
  - intros Hnone. do 2 mstep. rewrite (proj2 (kill_scan_none n (procs s)) Hnone). by mrun.
Qed.

End blocking.

(** ** Claims on what the tables report and forget *)

Section reporting.
Context {E : Type} `{ProcEnv E}.
Implicit Types (s : pst E).

(** [kill(0)] kills a process that does not exist yet.  Pid 0 matches an
    UNUSED slot; [kill] marks it and reports success, [allocproc] does not clear
    the mark, and the next process created in that slot is born killed. *)
Theorem kill_zero_poisons_next_child fe te t w s ps i k e1 pd e2 (me : nat) p q d :
  inv s -> running s me -> dups_return (E := E) -> procs s !! me = Some p -> cwd p = Some d ->
  alloc_scan (procs s) = (ps, Some i) -> procs s !! i = Some q -> pid q = 0 ->
  kalloc (Ctx t [] w) (env s) = Ret k (Ctx t [] w) e1 -> k ≠ 0 ->
  copyuvm (pgdir p) (sz p) (Ctx t [] w) e1 = Ret pd (Ctx t [] w) e2 -> pd ≠ 0 ->
  exists s1 s2 child, kill 0 (Ctx t [] w) s = Ret 0 (Ctx t [] w) s1 /\
    fork fe te (Ctx t [] w) s1 = Ret (nextpid s) (Ctx t [] w) s2 /\
    procs s2 !! i = Some child /\ killed child = true.
Proof.
  intros I Rn D Ep Hcwd Sc Eq Hpid Ek Hk Ec Hpd.
  pose proof (alloc_scan_found (procs s) i ltac:(by rewrite Sc)) as [(q' & Eq' & Hu) Hbefore].
  assert (q' = q) as -> by congruence. clear Eq'.
  set (s1 := set_procs (<[i := set_killed true q]> (procs s)) s).
  assert (kill_scan 0 (procs s) = Some (<[i := set_killed true q]> (procs s))) as Ks.
  { rewrite (kill_scan_some 0 (procs s) i q Eq Hpid).
    - unfold killed_slot. by rewrite decide_False by congruence.
    - intros j r Hj Er Hr. destruct (ti_slot _ _ _ I j r Er) as (_ & _ & Hn & _).
      specialize (Hn (Hbefore j r Hj Er)). lia. }
  assert (inv s1) as I1 by (eapply table_inv_kept; [exact I | by eapply kill_scan_kept]).
  assert (i ≠ me) as Nim by (destruct Rn as (_ & r & Er & Hr); congruence).
  assert (running s1 me) as R1.
  { destruct Rn as (Ei & r & Er & Hr). split; [done|]. exists r. cbn. by rewrite list_lookup_insert_ne. }
  assert (exists ps1, alloc_scan (procs s1) = (ps1, Some i)) as [ps1 Sc1].
  { destruct (alloc_scan (procs s1)) as [ps1 r1] eqn:Sc1. exists ps1. f_equal.
    assert (forall j, (exists r, procs s1 !! j = Some r /\ state r = UNUSED) <->
      exists r, procs s !! j = Some r /\ state r = UNUSED) as Same.
    { intros j. subst s1. cbn. destruct (decide (j = i)) as [->|N].
      - rewrite list_lookup_insert_eq by by apply lookup_lt_Some in Eq. split; intros _; [by exists q | by exists (set_killed true q)].
      - by rewrite list_lookup_insert_ne. }
    pose proof (alloc_scan_found (procs s1)) as F1. rewrite Sc1 in F1. cbn in F1.
    destruct r1 as [j|].
    - destruct (F1 j eq_refl) as [Hj Hj']. f_equal. apply Same in Hj as (r & Er & Hr).
      destruct (Nat.lt_trichotomy j i) as [L|[->|L]]; [by destruct (Hbefore j r L Er)|done|].
      exfalso. destruct (proj2 (Same i)) as (r' & Er' & Hr'); [by exists q|]. by apply (Hj' i r' L Er').
    - pose proof (proj1 (alloc_scan_full (procs s1)) ltac:(by rewrite Sc1)) as Hfull.
      destruct (proj2 (Same i)) as (r' & Er' & Hr'); [by exists q|]. by destruct (Hfull i r' Er'). }
  destruct (fork_runs fe te t w s1 ps1 i k e1 pd e2 me p (set_killed true q) d I1 R1 D) as [e' Ef]; try done.
  { cbn. by rewrite list_lookup_insert_ne. }
  { cbn. apply list_lookup_insert_eq. by apply lookup_lt_Some in Eq. }
  exists s1. do 2 eexists. split.
  { unfold kill. do 2 mstep. rewrite Ks. by mrun. }
  split; [exact Ef|]. cbn [procs]. split.
  - apply list_lookup_insert_eq.
    pose proof (Forall2_length _ _ _ (alloc_scan_kept (procs s1))) as L. rewrite Sc1 in L. cbn in L.
    rewrite <- L, length_insert. by apply lookup_lt_Some in Eq.
  - done.
Qed.

Definition in_use (p : proc) : Prop := state p ≠ UNUSED.
#[local] Instance in_use_dec p : Decision (in_use p).
Proof. unfold in_use. apply _. Defined.

Lemma ps_fill_spec now l : forall array,
  exists entries, ps_fill now l array = (entries ++ drop (length entries) array, Z.of_nat (length entries)) /\
    map pi_pid entries = map pid (filter in_use l) /\
    map pi_state entries = map (procstate_num ∘ state) (filter in_use l) /\
    map pi_cpuPercent entries = map (cpu_percent now) (filter in_use l).
Proof.
  induction l as [|p l IH]; intros array; cbn [ps_fill]; [by exists []|]. rewrite filter_cons.
  destruct (decide (state p = UNUSED)) as [Hu|Hu].
  - rewrite decide_False by (intros Hi; by apply Hi). apply IH.
  - rewrite decide_True by done. destruct (IH (tail array)) as (es & -> & H1 & H2 & H3).
    eexists (ProcInfo (procstate_num (state p)) (pid p) (cpu_percent now p) _ :: es).
    cbn [length map app]. rewrite H1, H2, H3. split; [|done].
    f_equal; [|lia]. f_equal. f_equal. destruct array; cbn; [by rewrite drop_nil|done].
Qed.

Lemma cpu_percent_range now p :
  0 <= ticksScheduled p -> ticksScheduled p * 100 < 2 ^ 31 -> 0 <= cpu_percent now p <= 100.
Proof.
  intros H1 H2. unfold cpu_percent. set (e := s32 _). rewrite s32_small by lia.
  destruct (Z.ltb_spec 0 e); cbn [andb]; [|lia]. destruct (Z.ltb_spec 1 (ticksScheduled p)); [|lia].
  pose proof (Z.quot_pos (ticksScheduled p * 100) e ltac:(lia) ltac:(lia)).
  destruct (Z.ltb_spec 100 (Z.quot (ticksScheduled p * 100) e)); lia.
Qed.

(** what [proc_ps] writes.  It reports every slot in use, in table order,
    with its pid, state and a percentage between 0 and 100, and leaves the rest
    of the caller's memory alone; but the number of entries is that of the
    processes, whatever [numberOfProcs] says, so a shorter array is overrun. *)
Theorem proc_ps_reports_all t h w s numberOfProcs array :
  Lptable ∉ h ->
  exists entries, proc_ps numberOfProcs array (Ctx t h w) s =
      Ret (Z.of_nat (length entries), entries ++ drop (length entries) array) (Ctx t h w) s /\
    length entries = length (filter in_use (procs s)) /\
    map pi_pid entries = map pid (filter in_use (procs s)) /\
    map pi_state entries = map (procstate_num ∘ state) (filter in_use (procs s)) /\
    ((forall i p, procs s !! i = Some p -> 0 <= ticksScheduled p /\ ticksScheduled p * 100 < 2 ^ 31) ->
     Forall (fun e => 0 <= pi_cpuPercent e <= 100) entries).
Proof.
  intros Hh. unfold proc_ps. do 3 mstep.
  destruct (ps_fill_spec (ticks s) (procs s) array) as (es & -> & H1 & H2 & H3). exists es.
  split; [by mrun|]. split; [by rewrite <- (length_map pi_pid), H1, length_map|].
  split; [done|]. split; [done|]. intros Ht. 
  apply (List.Forall_map pi_cpuPercent (fun z => 0 <= z <= 100)). rewrite H3.
  apply List.Forall_map, Forall_forall. intros p Hp. apply list_elem_of_filter in Hp as [_ Hp].
  apply list_elem_of_lookup in Hp as [i Ei]. destruct (Ht i p Ei). by apply cpu_percent_range.
Qed.

End reporting.

(** ** The machine of the witnesses

    Memory is handed out by a bump allocator and every other call returns at
    once.  Slot 0 is init, asleep in [wait]; slot 1 is its child, running. *)

#[local] Instance bump : ProcEnv Z := {|
  kalloc := fun c e => Ret e c (e + PGSIZE);
  kfree := fun _ c e => Ret tt c e;
  setupkvm := fun c e => Ret e c (e + PGSIZE);
  inituvm := fun _ c e => Ret tt c e;
  allocuvm := fun _ _ newsz c e => Ret newsz c e;
  deallocuvm := fun _ _ newsz c e => Ret newsz c e;
  copyuvm := fun _ _ c e => Ret e c (e + PGSIZE);
  freevm := fun _ c e => Ret tt c e;
  switchuvm := fun _ _ c e => Ret tt c e;
  filedup := fun f c e => Ret f c e;
  fileclose := fun _ c e => Ret tt c e;
  idup := fun d c e => Ret d c e;
  iput := fun _ c e => Ret tt c e;
  namei_root := fun c e => Ret (Some O) c e;
  begin_op := fun c e => Ret tt c e;
  end_op := fun c e => Ret tt c e;
  iinit := fun _ c e => Ret tt c e;
  initlog := fun _ c e => Ret tt c e |}.

Definition demo_init : proc :=
  set_chan_of (Some (Cproc 0)) (set_state SLEEPING (set_pid 1 (set_cwd (Some O)
    (set_pgdir 8192 (set_kstack 4096 unused_proc))))).
Definition demo_child : proc :=
  set_parent (Some O) (set_state RUNNING (set_pid 2 (set_cwd (Some O) (set_sz 4096
    (set_pgdir 16384 (set_kstack 12288 unused_proc)))))).
Definition demo_procs : list proc := demo_init :: demo_child :: replicate 62 unused_proc.
Definition demo : pst Z := Pst demo_procs 3 (Some O) 100 (Some 1%nat) false 0 65536.

Lemma demo_lookup i p : demo_procs !! i = Some p ->
  (i = O /\ p = demo_init) \/ (i = 1%nat /\ p = demo_child) \/ p = unused_proc.
Proof.
  destruct i as [|[|i]]; cbn -[replicate]; [intros [= <-]; auto..|].
  intros [-> _]%lookup_replicate. auto.
Qed.

Lemma demo_inv : inv demo.
Proof.
  split; cbn -[demo_procs].
  - done.
  - done.
  - intros i p [[_ ->]|[[_ ->]| ->]]%demo_lookup; (split; [cbn; lia|]); (split; [done|]); (split; [done|]);
      split; try done; intros Hl; destruct Hl; done.
  - intros i j p q [[-> ->]|[[-> ->]| ->]]%demo_lookup [[-> ->]|[[-> ->]| ->]]%demo_lookup; cbn; lia.
  - intros i p j [[-> ->]|[[-> ->]| ->]]%demo_lookup; try done. intros [= <-]. by exists demo_init.
  - intros i [= <-]. by exists demo_init.
Qed.

Lemma demo_running : running demo 1.
Proof. split; [done|]. by exists demo_child. Qed.

Lemma ptable_invariant_witness : wp (perform 7 8 Fork) (fun _ s' => inv s') inv demo.
Proof.
  apply (ptable_invariant 7 8 Fork demo 1); [exact demo_inv | exact demo_running | cbn; lia].
Defined.

Lemma demo_dups : dups_return (E := Z).
Proof. split; intros; by eexists. Qed.
Lemma demo_closes : closes_return (E := Z).
Proof. repeat split; intros; by eexists. Qed.
Lemma demo_frees : frees_return (E := Z).
Proof. split; intros; by eexists. Qed.

Definition demo_thread : thread := Thread 2 false.



Lemma wakeup_finds_sleeper_witness : exists s1,
  sleep (Cbuf 3) Lide (Ctx demo_thread [Lide] []) demo = Switch (Ctx demo_thread [Lptable] []) s1.
Proof.
  destruct (wakeup_finds_sleeper demo_thread demo_thread [] [] [] demo 1 (Cbuf 3) (Cbuf 3) Lide)
    as (s1 & E1 & _); [exact demo_running | discriminate | apply not_elem_of_nil |].
  exists s1. exact E1.
Defined.

Lemma sleep_refines_monad_witness :
  sleep (Cbuf 3) Lide (Ctx demo_thread [Lide; Lbcache] []) demo = Panic "sched locks".
Proof.
  apply (sleep_refines_monad demo_thread [Lide; Lbcache] [] demo 1 (Cbuf 3) Lide);
    [exact demo_running | discriminate].
Defined.

Lemma wait_without_zombies_witness :
  wait (Ctx demo_thread [] []) demo = Ret (-1) (Ctx demo_thread [] []) demo.
Proof.
  apply (wait_without_zombies demo_thread [] demo 1 demo_child);
    [exact demo_running | reflexivity | |].
  - intros k r [[_ ->]|[[_ ->]| ->]]%demo_lookup _; discriminate.
  - left. intros k r [[_ ->]|[[_ ->]| ->]]%demo_lookup; discriminate.
Defined.

Lemma kill_hits_one_process_witness : kill 9 (Ctx demo_thread [] []) demo = Ret (-1) (Ctx demo_thread [] []) demo.
Proof.
  apply (kill_hits_one_process demo_thread [] [] demo 9);
    [exact demo_inv | apply not_elem_of_nil | lia |].
  intros i p [[_ ->]|[[_ ->]| ->]]%demo_lookup; discriminate.
Defined.

Lemma kill_zero_poisons_next_child_witness : exists s1 s2 child,
  kill 0 (Ctx demo_thread [] []) demo = Ret 0 (Ctx demo_thread [] []) s1 /\
  fork 7 8 (Ctx demo_thread [] []) s1 = Ret 3 (Ctx demo_thread [] []) s2 /\
  procs s2 !! 2%nat = Some child /\ killed child = true.
Proof.
  apply (kill_zero_poisons_next_child 7 8 demo_thread [] demo (alloc_scan demo_procs).1 2 65536 69632 69632
    73728 1 demo_child unused_proc 0);
    [exact demo_inv | exact demo_running | exact demo_dups | reflexivity | reflexivity | reflexivity
    | reflexivity | reflexivity | reflexivity | lia | reflexivity | lia].
Defined.

Lemma proc_ps_reports_all_witness : exists entries,
  proc_ps 1 [] (Ctx demo_thread [] []) demo =
    Ret (Z.of_nat (length entries), entries ++ drop (length entries) []) (Ctx demo_thread [] []) demo /\
  map pi_pid entries = [1; 2].
Proof.
  destruct (proc_ps_reports_all demo_thread [] [] demo 1 []) as (es & E1 & _ & E2 & _);
    [apply not_elem_of_nil|].
  exists es. split; [exact E1 | exact E2].
Defined.

(** Processes that yield, and a table in which process 1 has been niced. *)
Definition yields (i : nat) : M (pst Z) unit := store i (set_state RUNNABLE).
Definition niced : pst Z :=
  set_procs (alter (set_priority 5 ∘ set_state RUNNABLE) 1%nat demo_procs) demo.

Lemma scheduler_priorities_descend_witness : exists r c' s',
  scheduler yields (ret tt) 2 (Ctx demo_thread [] []) niced = Ret r c' s' /\
  StronglySorted (fun a b : nat * Z => b.2 <= a.2) r.2.
Proof.
  destruct (scheduler yields (ret tt) 2 (Ctx demo_thread [] []) niced) as [r c' s'| | | |] eqn:Er;
    [|exfalso; vm_compute in Er; discriminate..].
  exists r, c', s'. split; [reflexivity|].
  apply (scheduler_priorities_descend yields (ret tt) 2 (Ctx demo_thread [] []) niced r c' s'). exact Er.
Defined.

Lemma scheduler_starves_witness :
  scheduler_passes yields (ret tt) 3 0 (Ctx demo_thread [] []) niced =
  Ret (0, []) (Ctx demo_thread [] []) niced.
Proof.
  apply (scheduler_starves yields (ret tt) 3 0 demo_thread [] niced 1
    (set_priority 5 (set_state RUNNABLE demo_child))); try reflexivity.
  intros [|[|j]] q; cbn -[replicate]; [by intros [= <-] | by intros [= <-] |].
  intros [-> _]%lookup_replicate. discriminate.
Defined.

Lemma equal_priorities_round_robin_witness : exists low' s',
  scheduler_scan yields (seq 0 NPROC) 0 (Ctx demo_thread [Lptable] [])
    (set_procs (alter (set_state RUNNABLE) 1%nat demo_procs) demo) =
  Ret (low', [(1%nat, 0)]) (Ctx demo_thread [Lptable] []) s'.
Proof.
  destruct (equal_priorities_round_robin yields 0 0 (Ctx demo_thread [Lptable] [])
    (set_procs (alter (set_state RUNNABLE) 1%nat demo_procs) demo)) as (low' & s' & E').
  - intros i c s. eexists. split; [reflexivity|]. intros j Nj. cbn -[alter]. by rewrite list_lookup_alter_ne.
  - intros pd k c e. by exists e.
  - reflexivity.
  - lia.
  - intros [|[|j]] q; cbn -[replicate]; [by intros [= <-] | by intros [= <-] |].
    by intros [-> _]%lookup_replicate.
  - exists low', s'. rewrite E'. reflexivity.
Defined.
