(* ===== verification/Kalloc.v ===== *)
(** kalloc.c: the physical page allocator.  The free list is threaded through the
    free pages themselves, in memory; it is proved to represent an abstract list
    of pages, with [kalloc] its pop and [kfree] its push. *)

From stdpp Require Import base numbers list strings.
From S2P Require Import Xv6 Prelude Kstring.

(** [kmem], together with the memory the free pages live in. *)
Record kmem := Kmem { use_lock : bool; freelist : Z; ram : mem }.

Definition V2P (a : Z) : Z := u32 (a - KERNBASE).

Section kalloc.
(** The first address after the kernel, from the linker script. *)
Variable end_ : Z.

Definition kfree (v : Z) : M kmem unit :=
  if negb (v mod PGSIZE =? 0) || (v <? end_) || (PHYSTOP <=? V2P v) then panic "kfree"
  else
    modify (fun k => Kmem (use_lock k) (freelist k) (memset (ram k) v 1 PGSIZE));;
    k <- get;;
    (if use_lock k then acquire Lkmem else ret tt);;
    modify (fun k => Kmem (use_lock k) (freelist k) (store32 (ram k) v (freelist k)));;
    modify (fun k => Kmem (use_lock k) v (ram k));;
    (if use_lock k then release Lkmem else ret tt).

Definition kalloc : M kmem Z :=
  k <- get;;
  (if use_lock k then acquire Lkmem else ret tt);;
  r <- gets freelist;;
  (if negb (r =? 0) then modify (fun k => Kmem (use_lock k) (load32 (ram k) r) (ram k)) else ret tt);;
  (if use_lock k then release Lkmem else ret tt);;
  ret r.

(** The loop of [freerange], with fuel for the pages of the range. *)
Fixpoint freerange_loop (fuel : nat) (p vend : Z) : M kmem unit :=
  match fuel with
  | O => undef "freerange: out of fuel"
  | S f => if u32 (p + PGSIZE) <=? vend then kfree p;; freerange_loop f (u32 (p + PGSIZE)) vend
           else ret tt
  end.

(** Each round consumes a page below [vend]. *)
Definition freerange (vstart vend : Z) : M kmem unit :=
  if vend <? vstart then panic "freerange"
  else freerange_loop (S (Z.to_nat (vend / PGSIZE))) (PGROUNDUP vstart) vend.

Definition kinit1 (vstart vend : Z) : M kmem unit :=
  modify (fun k => Kmem false (freelist k) (ram k));;
  freerange vstart vend.

Definition kinit2 (vstart vend : Z) : M kmem unit :=
  freerange vstart vend;;
  modify (fun k => Kmem true (freelist k) (ram k)).

(** ** The free list as a list of pages *)

Definition page (v : Z) : Prop :=
  v mod PGSIZE = 0 /\ end_ <= v /\ KERNBASE <= v < KERNBASE + PHYSTOP.

(** The pages [l] are linked from [r] in memory [m]. *)
Fixpoint linked (m : mem) (r : Z) (l : list Z) : Prop :=
  match l with
  | [] => r = 0
  | v :: l' => r = v /\ page v /\ linked m (load32 m v) l'
  end.

Definition represents (k : kmem) (l : list Z) : Prop := linked (ram k) (freelist k) l /\ NoDup l.

Lemma page_apart v v' x : page v -> page v' -> v ≠ v' -> v <= x < v + PGSIZE -> ~ (v' <= x < v' + PGSIZE).
Proof.
  unfold page, PGSIZE. intros (H1 & _) (H2 & _) N Hx Hx'.
  Z.to_euclidean_division_equations. lia.
Qed.

Lemma linked_pages m r l : linked m r l -> Forall page l.
Proof. revert r. induction l as [|v l IH]; intros r Hl; constructor; [apply Hl | eapply IH, Hl]. Qed.

(** Writing a page that is not on the list does not disturb the list. *)
Lemma linked_frame m m' r l v :
  page v -> v ∉ l -> (forall x, ~ (v <= x < v + PGSIZE) -> m' x = m x) ->
  linked m r l -> linked m' r l.
Proof.
  intros Pv. revert r. induction l as [|w l IH]; intros r Nv Hm; [done|].
  apply not_elem_of_cons in Nv as [Nw Nl]. intros (-> & Pw & Hl). split; [done|]. split; [done|].
  rewrite (load32_ext m' m w); [by apply IH|]. intros x Hx. apply Hm.
  apply (page_apart w v); [done..|congruence|]. unfold PGSIZE. lia.
Qed.

(** The memory of a page after [kfree]: the link, then junk. *)
Definition junk_page (m : mem) (v next : Z) : mem := store32 (memset m v 1 PGSIZE) v next.

Lemma junk_page_other m v next x : ~ (v <= x < v + PGSIZE) -> junk_page m v next x = m x.
Proof.
  unfold PGSIZE. intros Hx. unfold junk_page. rewrite store32_other by lia.
  rewrite memset_at by done. range_cases; [|done]. unfold PGSIZE in *. lia.
Qed.

Lemma kfree_valid v :
  page v -> negb (v mod PGSIZE =? 0) || (v <? end_) || (PHYSTOP <=? V2P v) = false.
Proof.
  intros (H1 & H2 & H3). rewrite H1. cbn [negb Z.eqb orb].
  destruct (Z.ltb_spec v end_); [lia|]. cbn [orb]. apply Z.leb_gt. unfold V2P, KERNBASE, PHYSTOP in *. word_lia.
Qed.

Lemma kfree_runs v t h w k :
  page v -> Lkmem ∉ h ->
  kfree v (Ctx t h w) k = Ret tt (Ctx t h w) (Kmem (use_lock k) v (junk_page (ram k) v (freelist k))).
Proof.
  intros Pv Hl. unfold kfree. rewrite kfree_valid by done. mrun. cbn [use_lock].
  destruct (use_lock k); mrun; [by rewrite release_head | done].
Qed.

Lemma linked_head m r l : linked m r l -> r = default 0 (head l).
Proof. destruct l; [done|]. by intros [-> _]. Qed.

Lemma page_pos v : page v -> 0 < v < 2 ^ 32.
Proof. unfold page, KERNBASE, PHYSTOP. lia. Qed.

Lemma represents_free k l v :
  represents k l -> page v -> v ∉ l ->
  represents (Kmem (use_lock k) v (junk_page (ram k) v (freelist k))) (v :: l).
Proof.
  intros [Hl Hn] Pv Nv. split; [|by constructor]. cbn. split; [done|]. split; [done|].
  assert (0 <= freelist k < 2 ^ 32) as Hr.
  { rewrite (linked_head _ _ _ Hl). pose proof (linked_pages _ _ _ Hl) as Hp.
    destruct l as [|w l]; cbn; [lia|]. inversion Hp as [|? ? Pw]; subst. pose proof (page_pos w Pw). lia. }
  unfold junk_page at 2. rewrite load32_store32 by done.
  eapply linked_frame; [exact Pv | done | | exact Hl]. intros x. apply junk_page_other.
Qed.

Lemma kalloc_runs t h w k l :
  represents k l -> Lkmem ∉ h ->
  exists k', kalloc (Ctx t h w) k = Ret (default 0 (head l)) (Ctx t h w) k' /\
    represents k' (tail l) /\ ram k' = ram k /\ use_lock k' = use_lock k.
Proof.
  intros [Hl Hn] Hh. unfold kalloc. rewrite <- (linked_head _ _ _ Hl).
  destruct l as [|v l].
  - exists k. cbn in Hl. split; [|done]. mstep. destruct (use_lock k) eqn:U; mrun;
      rewrite Hl; cbn [negb Z.eqb]; by mrun.
  - destruct Hl as (Er & Pv & Hl). pose proof (page_pos v Pv).
    exists (Kmem (use_lock k) (load32 (ram k) v) (ram k)). split; [|split; [|done]].
    + mstep. destruct (use_lock k) eqn:U; mrun; rewrite Er;
        (destruct (Z.eqb_spec v 0); [lia|]); cbn [negb]; mrun; by rewrite U.
    + split; [done|]. by inversion Hn.
Qed.

(** ** The pages of a range *)

(** [n] pages from [p] on, as [freerange] leaves them on the list. *)
Fixpoint pages_from (p : Z) (n : nat) : list Z :=
  match n with
  | O => []
  | S n' => pages_from (p + PGSIZE) n' ++ [p]
  end.

Lemma elem_of_pages_from p n v :
  v ∈ pages_from p n <-> exists k : nat, (k < n)%nat /\ v = p + Z.of_nat k * PGSIZE.
Proof.
  revert p. induction n as [|n IH]; intros p; cbn [pages_from].
  - rewrite elem_of_nil. split; [done|]. intros (k & Hk & _). lia.
  - rewrite elem_of_app, list_elem_of_singleton, IH. split.
    + intros [(k & Hk & ->)| ->]; [exists (S k); lia | exists O; lia].
    + intros ([|k] & Hk & ->); [right; lia | left; exists k; lia].
Qed.

Lemma freerange_loop_runs n : forall fuel p vend t h w k l,
  (n < fuel)%nat -> Lkmem ∉ h -> represents k l ->
  (forall v, v ∈ pages_from p n -> page v /\ v ∉ l) ->
  p + Z.of_nat n * PGSIZE <= vend < p + (Z.of_nat n + 1) * PGSIZE -> 0 <= p ->
  vend + PGSIZE < 2 ^ 32 ->
  exists k', freerange_loop fuel p vend (Ctx t h w) k = Ret tt (Ctx t h w) k' /\
    represents k' (pages_from p n ++ l) /\ use_lock k' = use_lock k.
Proof.
  induction n as [|n IH]; intros [|fuel] p vend t h w k l Hf Hh Hk Hp Hv Hp0 Hmax; try lia; cbn [freerange_loop].
  - exists k. rewrite u32_small by (unfold PGSIZE in *; lia).
    destruct (Z.leb_spec (p + PGSIZE) vend); [unfold PGSIZE in *; lia|]. done.
  - rewrite u32_small by (unfold PGSIZE in *; lia).
    destruct (Z.leb_spec (p + PGSIZE) vend); [|unfold PGSIZE in *; lia].
    destruct (Hp p) as [Pp Np]; [apply elem_of_pages_from; exists O; lia|].
    rewrite (bind_Ret _ _ _ _ _ _ _ (kfree_runs p t h w k Pp Hh)).
    pose proof (represents_free k l p Hk Pp Np) as Hk'.
    destruct (IH fuel (p + PGSIZE) vend t h w (Kmem (use_lock k) p (junk_page (ram k) p (freelist k))) (p :: l)) as (k' & E & R & U);
      [lia | done | exact Hk' | | lia | unfold PGSIZE in *; lia | done |].
    + intros v Hv'. apply elem_of_pages_from in Hv' as (j & Hj & ->).
      destruct (Hp (p + PGSIZE + Z.of_nat j * PGSIZE)) as [Pv Nv].
      { apply elem_of_pages_from. exists (S j). lia. }
      split; [done|]. apply not_elem_of_cons. split; [unfold PGSIZE; lia | done].
    + exists k'. split; [exact E|]. split; [|exact U]. cbn [pages_from]. by rewrite <- app_assoc.
Qed.

(** ** Claims *)

(** C30: the allocator is a stack of pages.  [kalloc] returns the first page of the
    free list and removes it, or returns 0 on an empty list, without touching
    memory; [kfree] of a page that is not free puts it in front, filling it with
    junk and changing no other byte; both leave the locks as they were. *)
Theorem kalloc_kfree_refine_stack t h w k l v :
  represents k l -> Lkmem ∉ h -> page v -> v ∉ l ->
  (exists k1, kalloc (Ctx t h w) k = Ret (default 0 (head l)) (Ctx t h w) k1 /\
     represents k1 (tail l) /\ ram k1 = ram k) /\
  (exists k2, kfree v (Ctx t h w) k = Ret tt (Ctx t h w) k2 /\ represents k2 (v :: l) /\
     (forall x, ~ (v <= x < v + PGSIZE) -> ram k2 x = ram k x) /\
     (forall x, v + 4 <= x < v + PGSIZE -> ram k2 x = 1)).
Proof.
  intros Hk Hh Pv Nv. split.
  - destruct (kalloc_runs t h w k l Hk Hh) as (k1 & E & R & M & _). by exists k1.
  - eexists. split; [by apply kfree_runs|]. split; [by apply represents_free|]. split.
    + intros x Hx. by apply junk_page_other.
    + intros x Hx. cbn. unfold junk_page. rewrite store32_other by lia. rewrite memset_at by done.
      range_cases; [done|lia].
Qed.

(** [kfree] rejects what is not a page.  An address that is not aligned, lies
    inside the kernel or at or above [PHYSTOP] panics and changes nothing. *)
Theorem kfree_rejects v t h w k :
  v mod PGSIZE ≠ 0 \/ v < end_ \/ PHYSTOP <= V2P v -> kfree v (Ctx t h w) k = Panic "kfree".
Proof.
  intros Hv. unfold kfree.
  assert (negb (v mod PGSIZE =? 0) || (v <? end_) || (PHYSTOP <=? V2P v) = true) as ->; [|done].
  destruct Hv as [Hv|[Hv|Hv]].
  - by rewrite (proj2 (Z.eqb_neq _ _) Hv).
  - rewrite (proj2 (Z.ltb_lt _ _) Hv). by rewrite orb_true_r.
  - rewrite (proj2 (Z.leb_le _ _) Hv). by rewrite orb_true_r.
Qed.

Lemma PGROUNDUP_spec a : 0 <= a -> a + PGSIZE <= 2 ^ 32 ->
  PGROUNDUP a mod PGSIZE = 0 /\ a <= PGROUNDUP a < a + PGSIZE.
Proof.
  unfold PGROUNDUP, PGSIZE. intros H0 H1. rewrite u32_small by lia.
  rewrite (land_lnot_pow2 _ 12) by lia. change (2 ^ 12) with 4096.
  Z.to_euclidean_division_equations. lia.
Qed.

(** [freerange] frees exactly the whole pages of its range.  From an empty
    or disjoint free list it terminates and leaves on the list, highest first,
    all pages that lie between the rounded-up start and the end. *)
Theorem freerange_frees_range vstart vend t h w k l :
  Lkmem ∉ h -> represents k l ->
  KERNBASE <= vstart <= vend -> end_ <= vstart -> vend <= KERNBASE + PHYSTOP ->
  (forall v, v ∈ l -> vend <= v) ->
  let p := PGROUNDUP vstart in
  let n := Z.to_nat ((vend - p) / PGSIZE) in
  p <= vend ->
  exists k', freerange vstart vend (Ctx t h w) k = Ret tt (Ctx t h w) k' /\
    represents k' (pages_from p n ++ l).
Proof.
  intros Hh Hk Hv He Hmax Hl p n Hp. unfold freerange. destruct (Z.ltb_spec vend vstart); [lia|].
  unfold KERNBASE, PHYSTOP in *.
  destruct (PGROUNDUP_spec vstart) as [Ha Hr]; [lia | unfold PGSIZE; lia |]. fold p in Ha, Hr |- *.
  assert (p + Z.of_nat n * PGSIZE <= vend < p + (Z.of_nat n + 1) * PGSIZE) as Hn.
  { unfold n. rewrite Z2Nat.id by (apply Z.div_pos; [lia | done]). unfold PGSIZE.
    Z.to_euclidean_division_equations. lia. }
  destruct (freerange_loop_runs n (S (Z.to_nat (vend / PGSIZE))) p vend t h w k l) as (k' & E & R & _);
    [| done | done | | done | lia | unfold PGSIZE; lia | by exists k'].
  - assert ((vend - p) / PGSIZE <= vend / PGSIZE) by (apply Z.div_le_mono; [done | lia]).
    assert (0 <= (vend - p) / PGSIZE) by (apply Z.div_pos; [lia | done]). unfold n. lia.
  - intros v Hv'. apply elem_of_pages_from in Hv' as (j & Hj & ->).
    assert (Z.of_nat j * PGSIZE + PGSIZE <= Z.of_nat n * PGSIZE) by (unfold PGSIZE; lia).
    split.
    + split; [rewrite Z_mod_plus_full; exact Ha|]. unfold KERNBASE, PHYSTOP, PGSIZE in *. lia.
    + intros Hin. specialize (Hl _ Hin). unfold PGSIZE in *. lia.
Qed.

End kalloc.

(** Two pages freed at boot. *)
Definition empty_kmem : kmem := Kmem false 0 (fun _ => 0).

Lemma empty_represents end_ : represents end_ empty_kmem [].
Proof. split; [done | apply NoDup_nil_2]. Qed.

Lemma kalloc_kfree_refine_stack_witness : exists k2,
  kfree 0x80100000 0x80200000 (Ctx (Thread 1 false) [] []) empty_kmem =
    Ret tt (Ctx (Thread 1 false) [] []) k2 /\ represents 0x80100000 k2 [0x80200000].
Proof.
  destruct (kalloc_kfree_refine_stack 0x80100000 (Thread 1 false) [] [] empty_kmem [] 0x80200000)
    as [_ (k2 & E & R & _)].
  - apply empty_represents.
  - apply not_elem_of_nil.
  - split; [reflexivity|]. unfold KERNBASE, PHYSTOP. lia.
  - apply not_elem_of_nil.
  - exists k2. split; [exact E | exact R].
Defined.

Lemma kfree_rejects_witness :
  kfree 0x80100000 0x80200001 (Ctx (Thread 1 false) [] []) empty_kmem = Panic "kfree".
Proof. apply (kfree_rejects 0x80100000 0x80200001). left. discriminate. Defined.

Lemma freerange_frees_range_witness : exists k',
  freerange 0x80100000 0x80100001 0x80103000 (Ctx (Thread 1 false) [] []) empty_kmem =
    Ret tt (Ctx (Thread 1 false) [] []) k' /\
  represents 0x80100000 k' [0x80102000; 0x80101000].
Proof.
  apply (freerange_frees_range 0x80100000 0x80100001 0x80103000 (Thread 1 false) [] [] empty_kmem []).
  - apply not_elem_of_nil.
  - apply empty_represents.
  - unfold KERNBASE. lia.
  - lia.
  - unfold KERNBASE, PHYSTOP. lia.
  - intros v Hv. by apply elem_of_nil in Hv.
  - discriminate.
Defined.
