(* ===== verification/Vm.v ===== *)
(** vm.c: page tables in memory.  A page directory and its page tables are pages
    of [kmem]; kernel virtual addresses index the memory [ram], user addresses
    go through the tables. *)

From stdpp Require Import functions base numbers list strings.
From S2P Require Import Xv6 Prelude Kstring Kalloc.

(** mmu.h *)
Definition PTE_P : Z := 1.
Definition PTE_W : Z := 2.
Definition PTE_U : Z := 4.
Definition NPDENTRIES : Z := 1024.
Definition PDX (va : Z) : Z := Z.land (Z.shiftr va 22) 0x3FF.
Definition PTX (va : Z) : Z := Z.land (Z.shiftr va 12) 0x3FF.
Definition PGADDR (d t o : Z) : Z := u32 (Z.lor (Z.lor (Z.shiftl d 22) (Z.shiftl t 12)) o).
Definition PTE_ADDR (pte : Z) : Z := Z.land pte (Z.lnot 0xFFF).
Definition PTE_FLAGS (pte : Z) : Z := Z.land pte 0xFFF.
Definition present (pte : Z) : bool := negb (Z.land pte PTE_P =? 0).
Definition user (pte : Z) : bool := negb (Z.land pte PTE_U =? 0).

(** The inline functions of memlayout.h, which check their argument. *)
Definition v2p (a : Z) : M kmem Z := if a <? KERNBASE then panic "V2P on address < KERNBASE" else ret (a - KERNBASE).
Definition p2v (a : Z) : M kmem Z := if KERNBASE <? a then panic "P2V on address > KERNBASE" else ret (u32 (a + KERNBASE)).

(** Words of memory; the null pointer is not one. *)
Definition peek (a : Z) : M kmem Z :=
  if a =? 0 then undef "null pointer" else gets (fun k => load32 (ram k) a).
Definition poke (a x : Z) : M kmem unit :=
  if a =? 0 then undef "null pointer" else modify (fun k => Kmem (use_lock k) (freelist k) (store32 (ram k) a x)).
Definition on_ram (f : mem -> mem) : M kmem unit := modify (fun k => Kmem (use_lock k) (freelist k) (f (ram k))).

(** A row of [kmap]. *)
Record kmap_row := Kmap { virt : Z; phys_start : Z; phys_end : Z; kperm : Z }.

Section vm.
(** The addresses [end] and [data] of the linker script. *)
Variables (end_ data : Z).

(** The address of the entry for [va], or 0. *)
Definition walkpgdir (pgdir va : Z) (alloc : bool) : M kmem Z :=
  let pde := pgdir + 4 * PDX va in
  e <- peek pde;;
  if present e then
    pgtab <- p2v (PTE_ADDR e);;
    ret (pgtab + 4 * PTX va)
  else if negb alloc then ret 0
  else
    pgtab <- kalloc;;
    if pgtab =? 0 then ret 0
    else
      on_ram (fun m => memset m pgtab 0 PGSIZE);;
      pa <- v2p pgtab;;
      poke pde (Z.lor (Z.lor (Z.lor pa PTE_P) PTE_W) PTE_U);;
      ret (pgtab + 4 * PTX va).

Fixpoint mappages_loop (k : nat) (pgdir a last pa perm : Z) : M kmem Z :=
  match k with
  | O => undef "mappages: fuel"
  | S k =>
      pte <- walkpgdir pgdir a true;;
      if pte =? 0 then ret (-1)
      else
        e <- peek pte;;
        if present e then panic "remap"
        else
          poke pte (Z.lor (Z.lor pa perm) PTE_P);;
          if a =? last then ret 0
          else mappages_loop k pgdir (u32 (a + PGSIZE)) last (u32 (pa + PGSIZE)) perm
  end.
Definition mappages (pgdir va size pa perm : Z) : M kmem Z :=
  mappages_loop (Z.to_nat (size / PGSIZE + 2)) pgdir (PGROUNDDOWN va) (PGROUNDDOWN (u32 (va + size - 1))) pa perm.

(** The loop of [deallocuvm] from [a]; a missing table is skipped as a whole. *)
Fixpoint dealloc_loop (k : nat) (pgdir a oldsz : Z) : M kmem unit :=
  if oldsz <=? a then ret tt
  else match k with
  | O => undef "deallocuvm: fuel"
  | S k =>
      pte <- walkpgdir pgdir a false;;
      if pte =? 0 then dealloc_loop k pgdir (u32 (u32 (PGADDR (PDX a + 1) 0 0 - PGSIZE) + PGSIZE)) oldsz
      else
        e <- peek pte;;
        (if present e then
           let pa := PTE_ADDR e in
           if pa =? 0 then panic "kfree"
           else
             v <- p2v pa;;
             kfree end_ v;;
             poke pte 0
         else ret tt);;
        dealloc_loop k pgdir (u32 (a + PGSIZE)) oldsz
  end.
Definition deallocuvm (pgdir oldsz newsz : Z) : M kmem Z :=
  if oldsz <=? newsz then ret oldsz
  else
    dealloc_loop (Z.to_nat (oldsz / PGSIZE + 1)) pgdir (PGROUNDUP newsz) oldsz;;
    ret newsz.

(** The loop of [freevm] over the directory entries from [i]. *)
Fixpoint freevm_loop (k : nat) (pgdir i : Z) : M kmem unit :=
  match k with
  | O => ret tt
  | S k =>
      e <- peek (pgdir + 4 * i);;
      (if present e then v <- p2v (PTE_ADDR e);; kfree end_ v else ret tt);;
      freevm_loop k pgdir (i + 1)
  end.
Definition freevm (pgdir : Z) : M kmem unit :=
  if pgdir =? 0 then panic "freevm: no pgdir"
  else
    deallocuvm pgdir KERNBASE 0;;
    freevm_loop (Z.to_nat NPDENTRIES) pgdir 0;;
    kfree end_ pgdir.

Definition kmap : list kmap_row :=
  [ Kmap KERNBASE 0 EXTMEM PTE_W;
    Kmap KERNLINK (KERNLINK - KERNBASE) (data - KERNBASE) 0;
    Kmap data (data - KERNBASE) PHYSTOP PTE_W;
    Kmap DEVSPACE DEVSPACE 0 PTE_W ].

Fixpoint setupkvm_loop (l : list kmap_row) (pgdir : Z) : M kmem Z :=
  match l with
  | [] => ret pgdir
  | k :: l =>
      r <- mappages pgdir (virt k) (u32 (phys_end k - phys_start k)) (phys_start k) (kperm k);;
      if r <? 0 then freevm pgdir;; ret 0 else setupkvm_loop l pgdir
  end.
Definition setupkvm : M kmem Z :=
  pgdir <- kalloc;;
  if pgdir =? 0 then ret 0
  else
    on_ram (fun m => memset m pgdir 0 PGSIZE);;
    top <- p2v PHYSTOP;;
    if DEVSPACE <? top then panic "PHYSTOP too high"
    else setupkvm_loop kmap pgdir.

Definition inituvm (pgdir : Z) (init : list Z) : M kmem unit :=
  if PGSIZE <=? Z.of_nat (length init) then panic "inituvm: more than a page"
  else
    p <- kalloc;;
    (if p =? 0 then undef "null pointer" else on_ram (fun m => memset m p 0 PGSIZE));;
    pa <- v2p p;;
    mappages pgdir 0 PGSIZE pa (Z.lor PTE_W PTE_U);;
    on_ram (fun m => put_bytes m p init).

Fixpoint alloc_loop (k : nat) (pgdir a oldsz newsz : Z) : M kmem Z :=
  if newsz <=? a then ret newsz
  else match k with
  | O => undef "allocuvm: fuel"
  | S k =>
      p <- kalloc;;
      if p =? 0 then
        deallocuvm pgdir newsz oldsz;;
        ret 0
      else
        on_ram (fun m => memset m p 0 PGSIZE);;
        pa <- v2p p;;
        r <- mappages pgdir a PGSIZE pa (Z.lor PTE_W PTE_U);;
        if r <? 0 then
          deallocuvm pgdir newsz oldsz;;
          kfree end_ p;;
          ret 0
        else alloc_loop k pgdir (u32 (a + PGSIZE)) oldsz newsz
  end.
Definition allocuvm (pgdir oldsz newsz : Z) : M kmem Z :=
  if KERNBASE <=? newsz then ret 0
  else if newsz <? oldsz then ret oldsz
  else alloc_loop (Z.to_nat (newsz / PGSIZE + 1)) pgdir (PGROUNDUP oldsz) oldsz newsz.

Definition clearpteu (pgdir uva : Z) : M kmem unit :=
  pte <- walkpgdir pgdir uva false;;
  if pte =? 0 then panic "clearpteu"
  else
    e <- peek pte;;
    poke pte (Z.land e (Z.lnot PTE_U)).

Fixpoint copy_loop (k : nat) (d pgdir i sz : Z) : M kmem Z :=
  if sz <=? i then ret d
  else match k with
  | O => undef "copyuvm: fuel"
  | S k =>
      pte <- walkpgdir pgdir i false;;
      if pte =? 0 then panic "copyuvm: pte should exist"
      else
        e <- peek pte;;
        if negb (present e) then panic "copyuvm: page not present"
        else
          p <- kalloc;;
          if p =? 0 then freevm d;; ret 0
          else
            src <- p2v (PTE_ADDR e);;
            on_ram (fun m => memmove m p src PGSIZE);;
            pa <- v2p p;;
            r <- mappages d i PGSIZE pa (PTE_FLAGS e);;
            if r <? 0 then
              kfree end_ p;;
              freevm d;;
              ret 0
            else copy_loop k d pgdir (u32 (i + PGSIZE)) sz
  end.
Definition copyuvm (pgdir sz : Z) : M kmem Z :=
  d <- setupkvm;;
  if d =? 0 then ret 0 else copy_loop (Z.to_nat (sz / PGSIZE + 1)) d pgdir 0 sz.

(** The entry is read without a check that there is one. *)
Definition uva2ka (pgdir uva : Z) : M kmem Z :=
  pte <- walkpgdir pgdir uva false;;
  e <- peek pte;;
  if negb (present e) then ret 0
  else if negb (user e) then ret 0
  else p2v (PTE_ADDR e).

Fixpoint copyout_loop (k : nat) (pgdir va : Z) (buf : list Z) : M kmem Z :=
  match buf with
  | [] => ret 0
  | _ :: _ =>
      match k with
      | O => undef "copyout: fuel"
      | S k =>
          let va0 := PGROUNDDOWN va in
          pa0 <- uva2ka pgdir va0;;
          if pa0 =? 0 then ret (-1)
          else
            let n := Z.min (PGSIZE - (va - va0)) (Z.of_nat (length buf)) in
            on_ram (fun m => put_bytes m (pa0 + (va - va0)) (take (Z.to_nat n) buf));;
            copyout_loop k pgdir (u32 (va0 + PGSIZE)) (drop (Z.to_nat n) buf)
      end
  end.
Definition copyout (pgdir va : Z) (buf : list Z) : M kmem Z :=
  copyout_loop (Z.to_nat (Z.of_nat (length buf) / PGSIZE + 2)) pgdir va buf.

End vm.
