(* ===== verification/PageTable.v ===== *)
(** Page tables of vm.c as maps from user and kernel addresses to entries:
    [walkpgdir] and [mappages]. *)

From stdpp Require Import functions base numbers list strings.
From S2P Require Import Xv6 Prelude Kstring Kalloc Vm.

(** ** Memory *)

Lemma wf_store32 m a v : wf_mem m -> wf_mem (store32 m a v).
Proof. intros H. unfold store32. repeat apply wf_upd; auto using u8_range. Qed.

Lemma wf_memset m a c n : 0 <= n -> wf_mem m -> wf_mem (memset m a c n).
Proof. intros Hn H x. rewrite memset_at by done. destruct (in_range a n x); [apply u8_range|apply H]. Qed.

(** ** Entries *)

Lemma present_mod e : 0 <= e -> present e = negb (e mod 2 =? 0).
Proof.
  intros He. unfold present, PTE_P. f_equal. f_equal.
  change 1 with (Z.ones 1) at 1. rewrite Z.land_ones by lia. done.
Qed.

Lemma PTE_ADDR_div e : 0 <= e -> PTE_ADDR e = e / 4096 * 4096.
Proof. intros He. unfold PTE_ADDR. change 0xFFF with (2 ^ 12 - 1). by rewrite land_lnot_pow2. Qed.

Lemma PTE_FLAGS_mod e : PTE_FLAGS e = e mod 4096.
Proof. unfold PTE_FLAGS. change 0xFFF with (Z.ones 12). by rewrite Z.land_ones. Qed.

Lemma lor_page pa perm : pa mod 4096 = 0 -> 0 <= pa -> 0 <= perm < 4096 -> Z.lor pa perm = pa + perm.
Proof.
  intros Hpa H0 Hp. rewrite Z.lor_comm. replace pa with (Z.shiftl (pa / 4096) 12) at 1.
  - rewrite lor_disjoint_add by lia. change (2 ^ 12) with 4096. Z.to_euclidean_division_equations. lia.
  - rewrite Z.shiftl_mul_pow2 by lia. change (2 ^ 12) with 4096. Z.to_euclidean_division_equations. lia.
Qed.

Lemma lor_flags perm : 0 <= perm < 4096 -> 0 <= Z.lor perm PTE_P < 4096.
Proof.
  intros Hp. assert (0 <= Z.lor perm PTE_P) by (apply Z.lor_nonneg; unfold PTE_P; lia). split; [done|].
  destruct (decide (Z.lor perm PTE_P = 0)) as [->|N]; [lia|]. change 4096 with (2 ^ 12). apply Z.log2_lt_pow2; [lia|].
  rewrite Z.log2_lor by (unfold PTE_P; lia). apply Z.max_lub_lt; [|done].
  destruct (decide (perm = 0)) as [->|Np]; [done|]. apply Z.log2_lt_pow2; lia.
Qed.

Lemma entry_add pa perm : pa mod 4096 = 0 -> 0 <= pa -> 0 <= perm < 4096 ->
  Z.lor (Z.lor pa perm) PTE_P = pa + Z.lor perm PTE_P.
Proof. intros H1 H2 H3. rewrite <- Z.lor_assoc. apply lor_page; [done|done|]. by apply lor_flags. Qed.

(** The entry for a page: its address, its flags, present. *)
Lemma entry_fields pa perm : pa mod 4096 = 0 -> 0 <= pa <= 2 ^ 32 - 4096 -> 0 <= perm < 4096 ->
  let e := Z.lor (Z.lor pa perm) PTE_P in
  0 <= e < 2 ^ 32 /\ present e = true /\ PTE_ADDR e = pa /\ PTE_FLAGS e = Z.lor perm PTE_P.
Proof.
  intros Hpa H0 Hp e. pose proof (lor_flags perm Hp) as Hf.
  assert (e = pa + Z.lor perm PTE_P) as He by (apply entry_add; lia || done).
  assert (Z.lor perm PTE_P mod 2 = 1) as Ho.
  { change 2 with (2 ^ 1). rewrite <- Z.land_ones by lia. change (Z.ones 1) with 1. unfold PTE_P.
    rewrite Z.land_lor_distr_l. change (Z.land 1 1) with 1. change 1 with (Z.ones 1) at 1. rewrite Z.land_ones by lia.
    change (2 ^ 1) with 2. pose proof (Z.mod_pos_bound perm 2 ltac:(lia)).
    assert (perm mod 2 = 0 \/ perm mod 2 = 1) as [->| ->] by lia; done. }
  rewrite He. repeat split; try lia.
  - rewrite present_mod by lia. replace ((pa + Z.lor perm PTE_P) mod 2) with 1; [done|].
    Z.to_euclidean_division_equations. lia.
  - rewrite PTE_ADDR_div by lia. Z.to_euclidean_division_equations. lia.
  - rewrite PTE_FLAGS_mod. Z.to_euclidean_division_equations. lia.
Qed.

Lemma PDX_div va : 0 <= va < 2 ^ 32 -> PDX va = va / 4194304.
Proof.
  intros Hv. unfold PDX. change 0x3FF with (Z.ones 10). rewrite Z.land_ones, Z.shiftr_div_pow2 by lia.
  change (2 ^ 22) with 4194304. change (2 ^ 10) with 1024. word_lia.
Qed.
Lemma PTX_mod va : 0 <= va < 2 ^ 32 -> PTX va = va / 4096 mod 1024.
Proof.
  intros Hv. unfold PTX. change 0x3FF with (Z.ones 10). rewrite Z.land_ones, Z.shiftr_div_pow2 by lia. done.
Qed.
Lemma PDX_range va : 0 <= PDX va < 1024.
Proof. unfold PDX. change 0x3FF with (Z.ones 10). rewrite Z.land_ones by lia. apply Z.mod_pos_bound. lia. Qed.
Lemma PTX_range va : 0 <= PTX va < 1024.
Proof. unfold PTX. change 0x3FF with (Z.ones 10). rewrite Z.land_ones by lia. apply Z.mod_pos_bound. lia. Qed.

(** Two addresses have the same entry when they lie in the same page. *)
Lemma same_page va va' : 0 <= va < 2 ^ 32 -> 0 <= va' < 2 ^ 32 ->
  PDX va = PDX va' -> PTX va = PTX va' -> va / 4096 = va' / 4096.
Proof. intros Hv Hv'. rewrite !PDX_div, !PTX_mod by done. intros H1 H2. Z.to_euclidean_division_equations. lia. Qed.

(** ** Page directories *)

Definition dirent (m : mem) (pg d : Z) : Z := load32 m (pg + 4 * d).
(** The page table of directory entry [d]. *)
Definition tab (m : mem) (pg d : Z) : Z := PTE_ADDR (dirent m pg d) + KERNBASE.
(** The entry for address [va], 0 when there is no table for it. *)
Definition entry (m : mem) (pg va : Z) : Z :=
  if present (dirent m pg (PDX va)) then load32 m (tab m pg (PDX va) + 4 * PTX va) else 0.

Section tables.
Variable end_ : Z.
Hypothesis Hend : KERNBASE + EXTMEM <= end_.
Implicit Types (k : kmem) (free : list Z) (pg : Z) (t : thread) (w : list chan).

Record pgdir_ok k free pg : Prop := {
  po_free : represents end_ k free;
  po_wf : wf_mem (ram k);
  po_page : page end_ pg;
  po_notfree : pg ∉ free;
  po_tab d : 0 <= d < 1024 -> present (dirent (ram k) pg d) = true ->
    page end_ (tab (ram k) pg d) /\ (tab (ram k) pg d ∉ free) /\ tab (ram k) pg d <> pg;
  po_inj d d' : 0 <= d < 1024 -> 0 <= d' < 1024 ->
    present (dirent (ram k) pg d) = true -> present (dirent (ram k) pg d') = true ->
    tab (ram k) pg d = tab (ram k) pg d' -> d = d' }.

(** A page that is not free and no part of the page table. *)
Definition outside k free pg (p : Z) : Prop :=
  page end_ p /\ (p ∉ free) /\ p <> pg /\
  forall d, 0 <= d < 1024 -> present (dirent (ram k) pg d) = true -> tab (ram k) pg d <> p.

(** A page table of the directory. *)
Definition is_tab k pg (p : Z) : Prop :=
  exists d, 0 <= d < 1024 /\ present (dirent (ram k) pg d) = true /\ tab (ram k) pg d = p.

Lemma is_tab_same k k' pg p : (forall d, 0 <= d < 1024 -> dirent (ram k') pg d = dirent (ram k) pg d) ->
  is_tab k' pg p <-> is_tab k pg p.
Proof.
  intros Ed. split; intros (d & Hd & H1 & H2); exists d; (split; [done|]); unfold tab in *;
    [rewrite Ed in H1, H2 by done|rewrite Ed by done]; done.
Qed.

Definition page_same (m m' : mem) (p : Z) : Prop := forall x, p <= x < p + PGSIZE -> m' x = m x.

(** The table grew, and only its own pages and free pages changed. *)
Record vstep k free pg k' free' : Prop := {
  vs_ok : pgdir_ok k' free' pg;
  vs_free : exists l, free = l ++ free' /\ forall p, is_tab k' pg p <-> is_tab k pg p \/ p ∈ l;
  vs_keep p : outside k free pg p -> outside k' free' pg p /\ page_same (ram k) (ram k') p;
  vs_lock : use_lock k' = use_lock k }.

Lemma vstep_refl k free pg : pgdir_ok k free pg -> vstep k free pg k free.
Proof. intros P. split; [done| |by intros p Hp|done]. exists []. split; [done|]. intros p. rewrite elem_of_nil. tauto. Qed.

Lemma vstep_trans k1 f1 pg k2 f2 k3 f3 : vstep k1 f1 pg k2 f2 -> vstep k2 f2 pg k3 f3 -> vstep k1 f1 pg k3 f3.
Proof.
  intros [P1 (l1 & -> & T1) K1 L1] [P2 (l2 & -> & T2) K2 L2]. split; [done| | |congruence].
  - exists (l1 ++ l2). rewrite app_assoc. split; [done|]. intros p. rewrite T2, T1, elem_of_app. tauto.
  - intros p Hp. destruct (K1 p Hp) as [Hp2 E1]. destruct (K2 p Hp2) as [Hp3 E2]. split; [done|].
    intros x Hx. rewrite E2, E1; done.
Qed.

Lemma page_aligned p : page end_ p -> p mod 4096 = 0 /\ KERNBASE <= p < KERNBASE + PHYSTOP.
Proof. intros (H1 & _ & H2). done. Qed.

Lemma page_low p : page end_ p -> KERNBASE + EXTMEM <= p.
Proof. intros (_ & H & _). lia. Qed.

Ltac vm_const := unfold PGSIZE, KERNBASE, PHYSTOP, EXTMEM, DEVSPACE in *.

Lemma load32_page m m' p o : page_same m m' p -> 0 <= o -> o + 4 <= 4096 -> load32 m' (p + o) = load32 m (p + o).
Proof. intros H H1 H2. apply load32_ext. intros x Hx. apply H. vm_const. lia. Qed.

Lemma dirent_same m m' pg d : page_same m m' pg -> 0 <= d < 1024 -> dirent m' pg d = dirent m pg d.
Proof. intros H Hd. unfold dirent. apply load32_page; [done|lia|lia]. Qed.

(** Pages are disjoint. *)
Lemma page_disjoint p q x : page end_ p -> page end_ q -> p <> q -> p <= x < p + PGSIZE -> ~ (q <= x < q + PGSIZE).
Proof. apply page_apart. Qed.

Lemma store_other_page m p q o v : page end_ p -> page end_ q -> p <> q -> 0 <= o -> o + 4 <= 4096 ->
  page_same m (store32 m (p + o) v) q.
Proof.
  intros Hp Hq N H1 H2 x Hx. apply store32_other. intros Hx'.
  apply (page_disjoint q p x Hq Hp ltac:(congruence) Hx). vm_const. lia.
Qed.

Lemma store_free k free p o v : represents end_ k free -> page end_ p -> p ∉ free -> 0 <= o -> o + 4 <= 4096 ->
  represents end_ (Kmem (use_lock k) (freelist k) (store32 (ram k) (p + o) v)) free.
Proof.
  intros [Hl Hn] Hp Np H1 H2. split; [|done]. cbn. eapply linked_frame; [exact Hp|done| |exact Hl].
  intros x Hx. apply store32_other. vm_const. lia.
Qed.

(** *** Storing a page-table entry *)

Lemma set_entry k free pg va x :
  pgdir_ok k free pg -> 0 <= va < 2 ^ 32 -> present (dirent (ram k) pg (PDX va)) = true -> 0 <= x < 2 ^ 32 ->
  let k' := Kmem (use_lock k) (freelist k) (store32 (ram k) (tab (ram k) pg (PDX va) + 4 * PTX va) x) in
  vstep k free pg k' free /\ (forall va', 0 <= va' < 2 ^ 32 ->
    entry (ram k') pg va' = if va' / 4096 =? va / 4096 then x else entry (ram k) pg va').
Proof.
  intros P Hva Hpr Hx k'. pose proof (PDX_range va) as Hd. pose proof (PTX_range va) as Ht.
  destruct (po_tab _ _ _ P (PDX va) Hd Hpr) as (Pt & Nt & Npg). set (T := tab (ram k) pg (PDX va)) in *.
  assert (forall q, page end_ q -> q <> T -> page_same (ram k) (ram k') q) as Hsame.
  { intros q Hq N. apply store_other_page; try done; try lia. }
  assert (forall d, 0 <= d < 1024 -> dirent (ram k') pg d = dirent (ram k) pg d) as Ed.
  { intros d Hdr. apply dirent_same; [|done]. apply Hsame; [apply P|congruence]. }
  split.
  - split.
    + split.
      * apply store_free; try done; try lia. apply P.
      * apply wf_store32, P.
      * apply P.
      * apply P.
      * intros d Hdr. unfold tab. rewrite Ed by done. apply (po_tab _ _ _ P d Hdr).
      * intros d d' H1 H2. unfold tab. rewrite !Ed by done. by apply (po_inj _ _ _ P).
    + exists []. split; [done|]. intros p. rewrite elem_of_nil, (is_tab_same k k') by done. tauto.
    + intros p (Pp & Np & Npg' & Ho). split.
      * split; [done|]. split; [done|]. split; [done|]. intros d Hdr. unfold tab. rewrite Ed by done. by apply Ho.
      * apply Hsame; [done|]. intros ->. by apply (Ho (PDX va)).
    + done.
  - intros va' Hva'. pose proof (PDX_range va') as Hd'. pose proof (PTX_range va') as Ht'.
    unfold entry. rewrite Ed by done. destruct (Z.eqb_spec (va' / 4096) (va / 4096)) as [E|N].
    + assert (PDX va' = PDX va /\ PTX va' = PTX va) as [-> ->].
      { rewrite !PDX_div, !PTX_mod by done. split; [|by rewrite E]. Z.to_euclidean_division_equations. lia. }
      rewrite Hpr. unfold tab. rewrite Ed by done. by apply load32_store32.
    + destruct (present (dirent (ram k) pg (PDX va'))) eqn:Hpr'; [|done]. unfold tab at 1. rewrite Ed by done.
      fold (tab (ram k) pg (PDX va')). destruct (decide (PDX va' = PDX va)) as [EP|NP].
      * rewrite EP. fold T. apply load32_ext. intros y Hy. apply store32_other. intros Hy'. apply N.
        apply same_page; try done. lia.
      * apply load32_page; [|lia|lia]. destruct (po_tab _ _ _ P (PDX va') Hd' Hpr') as (Pt' & _ & _).
        apply Hsame; [done|]. intros E. apply NP. by apply (po_inj _ _ _ P).
Qed.

(** *** A new page table *)

Lemma dir_entry_fields v : page end_ v ->
  let e := Z.lor (Z.lor (Z.lor (v - KERNBASE) PTE_P) PTE_W) PTE_U in
  0 <= e < 2 ^ 32 /\ present e = true /\ PTE_ADDR e + KERNBASE = v.
Proof.
  intros Hv e. destruct (page_aligned v Hv) as [Ha Hr].
  assert (e = Z.lor (Z.lor (v - KERNBASE) (Z.lor PTE_W PTE_U)) PTE_P) as ->.
  { unfold e. rewrite <- !Z.lor_assoc. f_equal. }
  destruct (entry_fields (v - KERNBASE) (Z.lor PTE_W PTE_U)) as (H1 & H2 & H3 & _).
  - vm_const. Z.to_euclidean_division_equations. lia.
  - vm_const. lia.
  - done.
  - rewrite H3. split; [done|]. split; [done|]. lia.
Qed.

Lemma load32_zero m v o : 0 <= o -> o + 4 <= 4096 -> load32 (memset m v 0 PGSIZE) (v + o) = 0.
Proof.
  intros H1 H2. unfold load32. rewrite !memset_at by done.
  assert (forall i, 0 <= i < 4 -> in_range v PGSIZE (v + o + i) = true) as E by (intros i Hi; apply in_range_spec; vm_const; lia).
  pose proof (E 0 ltac:(lia)) as E0. rewrite Z.add_0_r in E0. rewrite E0, (E 1), (E 2), (E 3) by lia. done.
Qed.

Lemma new_table k k1 v free pg va :
  pgdir_ok k (v :: free) pg -> represents end_ k1 free -> ram k1 = ram k -> use_lock k1 = use_lock k ->
  0 <= va < 2 ^ 32 -> present (dirent (ram k) pg (PDX va)) = false ->
  let e := Z.lor (Z.lor (Z.lor (v - KERNBASE) PTE_P) PTE_W) PTE_U in
  let k' := Kmem (use_lock k1) (freelist k1) (store32 (memset (ram k1) v 0 PGSIZE) (pg + 4 * PDX va) e) in
  vstep k (v :: free) pg k' free /\ (forall va', 0 <= va' < 2 ^ 32 -> entry (ram k') pg va' = entry (ram k) pg va') /\
  present (dirent (ram k') pg (PDX va)) = true /\ tab (ram k') pg (PDX va) = v.
Proof.
  intros P R1 Em Eu Hva Hnp e k'. pose proof (PDX_range va) as Hd.
  destruct (po_free _ _ _ P) as [Hl Hnd]. pose proof (linked_pages end_ _ _ _ Hl) as Hpages.
  inversion Hpages as [|? ? Pv Pfree]; subst. apply NoDup_cons in Hnd as [Nv Hnd].
  pose proof (po_notfree _ _ _ P) as Npg. apply not_elem_of_cons in Npg as [Nvpg Npg].
  pose proof (po_page _ _ _ P) as Ppg. destruct (dir_entry_fields v Pv) as (He1 & He2 & He3). fold e in He1, He2, He3.
  assert (forall q, page end_ q -> q <> v -> q <> pg -> page_same (ram k) (ram k') q) as Hsame.
  { intros q Hq N1 N2 x Hx. unfold k'. cbn. rewrite (store_other_page _ pg q (4 * PDX va) e) by (done || lia || congruence).
    rewrite memset_at by done. range_cases; [|by rewrite Em]. exfalso. by apply (page_disjoint q v x Hq Pv N1 Hx). }
  assert (forall d, 0 <= d < 1024 -> dirent (ram k') pg d = if d =? PDX va then e else dirent (ram k) pg d) as Ed.
  { intros d Hdr. unfold dirent, k'. cbn. destruct (Z.eqb_spec d (PDX va)) as [->|N].
    - by apply load32_store32.
    - rewrite (load32_ext _ (memset (ram k1) v 0 PGSIZE)) by (intros x Hx; apply store32_other; lia).
      apply load32_ext. intros x Hx. rewrite memset_at by done. range_cases; [|by rewrite Em].
      exfalso. apply (page_disjoint pg v x Ppg Pv ltac:(congruence)); vm_const; lia. }
  assert (tab (ram k') pg (PDX va) = v) as Etab by (unfold tab; by rewrite Ed, Z.eqb_refl).
  assert (forall d, 0 <= d < 1024 -> d <> PDX va -> present (dirent (ram k') pg d) = present (dirent (ram k) pg d) /\
    tab (ram k') pg d = tab (ram k) pg d) as Eother.
  { intros d Hdr N. unfold tab. rewrite Ed by done. by rewrite (proj2 (Z.eqb_neq _ _) N). }
  assert (pgdir_ok k' free pg) as P'.
  { split.
    - split; [|done]. destruct R1 as [Hl1 _]. cbn.
      eapply linked_frame; [exact Ppg|done| |].
      { intros x Hx. apply store32_other. vm_const. lia. }
      eapply linked_frame; [exact Pv|done| |exact Hl1]. intros x Hx. rewrite memset_at by done. by range_cases.
    - apply wf_store32, wf_memset; [done|]. rewrite Em. apply P.
    - done.
    - done.
    - intros d Hdr. destruct (decide (d = PDX va)) as [->|N]; [rewrite Etab; intros _; split; [done|split; [done|congruence]]|].
      destruct (Eother d Hdr N) as [-> ->]. intros Hpr. destruct (po_tab _ _ _ P d Hdr Hpr) as (H1 & H2 & H3).
      apply not_elem_of_cons in H2 as [_ H2]. done.
    - intros d d' H1 H2. destruct (decide (d = PDX va)) as [->|N], (decide (d' = PDX va)) as [->|N']; try done.
      + destruct (Eother d' H2 N') as [-> ->]. rewrite Etab. intros _ Hpr E. exfalso.
        destruct (po_tab _ _ _ P d' H2 Hpr) as (_ & H3 & _). apply H3. rewrite <- E. left.
      + destruct (Eother d H1 N) as [-> ->]. rewrite Etab. intros Hpr _ E. exfalso.
        destruct (po_tab _ _ _ P d H1 Hpr) as (_ & H3 & _). apply H3. rewrite E. left.
      + destruct (Eother d H1 N) as [-> ->], (Eother d' H2 N') as [-> ->]. by apply (po_inj _ _ _ P). }
  split; [|split; [|split; [|done]]].
  - split; [done| | |by cbn; rewrite Eu].
    { exists [v]. split; [done|]. intros p. rewrite list_elem_of_singleton. split.
      - intros (d & Hdr & H1 & H2). destruct (decide (d = PDX va)) as [->|N]; [right; congruence|left]. exists d.
        destruct (Eother d Hdr N) as [E1 E2]. rewrite E1, E2 in *. done.
      - intros [(d & Hdr & H1 & H2)| ->].
        + exists d. split; [done|]. destruct (Eother d Hdr) as [-> ->]; [congruence|done].
        + exists (PDX va). split; [done|]. split; [|done]. by rewrite Ed, Z.eqb_refl. }
    intros p (Pp & Np & Npp & Ho). apply not_elem_of_cons in Np as [Npv Np]. split.
    + split; [done|]. split; [done|]. split; [done|]. intros d Hdr. destruct (decide (d = PDX va)) as [->|N].
      * rewrite Etab. congruence.
      * destruct (Eother d Hdr N) as [-> ->]. by apply Ho.
    + by apply Hsame.
  - intros va' Hva'. pose proof (PDX_range va') as Hd'. pose proof (PTX_range va') as Ht'. unfold entry.
    destruct (decide (PDX va' = PDX va)) as [E|N].
    + rewrite E, Hnp, Ed, Z.eqb_refl, He2, Etab by done. unfold k'. cbn.
      rewrite (load32_page (memset (ram k1) v 0 PGSIZE)); [by rewrite load32_zero by lia| |lia|lia].
      apply store_other_page; done || lia || congruence.
    + destruct (Eother _ Hd' N) as [-> ->]. destruct (present (dirent (ram k) pg (PDX va'))) eqn:Hpr; [|done].
      destruct (po_tab _ _ _ P _ Hd' Hpr) as (H1 & H2 & H3). apply not_elem_of_cons in H2 as [H2 _].
      apply load32_page; [by apply Hsame|lia|lia].
  - rewrite Ed, Z.eqb_refl by done. done.
Qed.

(** *** [walkpgdir] *)

Lemma peek_runs a c k : a <> 0 -> peek a c k = Ret (load32 (ram k) a) c k.
Proof. intros Ha. unfold peek. by rewrite (proj2 (Z.eqb_neq _ _) Ha). Qed.

Lemma p2v_page e c k : page end_ (PTE_ADDR e + KERNBASE) -> p2v (PTE_ADDR e) c k = Ret (PTE_ADDR e + KERNBASE) c k.
Proof.
  intros Hp. destruct (page_aligned _ Hp) as [_ Hr]. unfold p2v.
  destruct (Z.ltb_spec KERNBASE (PTE_ADDR e)); [vm_const; lia|]. unfold ret. rewrite u32_small; [done|]. vm_const. lia.
Qed.

Lemma dir_addr k free pg d : pgdir_ok k free pg -> 0 <= d < 1024 -> pg + 4 * d <> 0.
Proof. intros P Hd. destruct (page_aligned _ (po_page _ _ _ P)) as [_ Hr]. vm_const. lia. Qed.

Lemma walk_runs t h w k free pg va : pgdir_ok k free pg ->
  walkpgdir pg va false (Ctx t h w) k =
  Ret (if present (dirent (ram k) pg (PDX va)) then tab (ram k) pg (PDX va) + 4 * PTX va else 0) (Ctx t h w) k.
Proof.
  intros P. pose proof (PDX_range va) as Hd. unfold walkpgdir.
  run (peek_runs (pg + 4 * PDX va) (Ctx t h w) k (dir_addr _ _ _ _ P Hd)). fold (dirent (ram k) pg (PDX va)).
  destruct (present (dirent (ram k) pg (PDX va))) eqn:E; cbn [negb]; [|done].
  run (p2v_page (dirent (ram k) pg (PDX va)) (Ctx t h w) k ltac:(by apply (po_tab _ _ _ P))). done.
Qed.

Lemma walk_alloc_runs t h w k free pg va : pgdir_ok k free pg -> Lkmem ∉ h -> 0 <= va < 2 ^ 32 ->
  exists a k' free', walkpgdir pg va true (Ctx t h w) k = Ret a (Ctx t h w) k' /\ vstep k free pg k' free' /\
    (forall va', 0 <= va' < 2 ^ 32 -> entry (ram k') pg va' = entry (ram k) pg va') /\
    (a = 0 /\ free' = [] \/
     a = tab (ram k') pg (PDX va) + 4 * PTX va /\ present (dirent (ram k') pg (PDX va)) = true).
Proof.
  intros P Hh Hva. pose proof (PDX_range va) as Hd. unfold walkpgdir.
  run (peek_runs (pg + 4 * PDX va) (Ctx t h w) k (dir_addr _ _ _ _ P Hd)). fold (dirent (ram k) pg (PDX va)).
  destruct (present (dirent (ram k) pg (PDX va))) eqn:E; cbn [negb].
  { run (p2v_page (dirent (ram k) pg (PDX va)) (Ctx t h w) k ltac:(by apply (po_tab _ _ _ P))).
    eexists _, k, free. split; [done|]. split; [by apply vstep_refl|]. split; [done|]. by right. }
  destruct (kalloc_runs end_ t h w k free (po_free _ _ _ P) Hh) as (k1 & R1 & Hk1 & Em & Eu). run R1.
  destruct free as [|v free]; cbn [default head tail from_option id] in *.
  - cbn [Z.eqb]. exists 0, k1, []. split; [done|]. split; [|split; [by rewrite Em|by left]].
    split; [| |by rewrite Em; intros p (? & ? & ? & ?); unfold outside; rewrite Em|done];
      [|exists []; split; [done|]; intros p; rewrite elem_of_nil; unfold is_tab; rewrite Em; tauto].
    destruct P as [P1 P2 P3 P4 P5 P6]. split; rewrite ?Em; done.
  - pose proof (po_free _ _ _ P) as [Hl _]. destruct Hl as (_ & Pv & _). pose proof (page_pos end_ v Pv).
    destruct (Z.eqb_spec v 0); [lia|]. unfold on_ram. mstep. unfold v2p. destruct (page_aligned v Pv) as [_ Hr].
    destruct (Z.ltb_spec v KERNBASE); [lia|]. mstep. unfold poke.
    rewrite (proj2 (Z.eqb_neq _ _) (dir_addr _ _ _ _ P Hd)). mstep.
    destruct (new_table k k1 v free pg va P Hk1 Em Eu Hva E) as (V & En & Hpr & Ht).
    eexists _, _, free. split; [done|]. split; [exact V|]. split; [exact En|]. right. split; [|done].
    f_equal. symmetry. exact Ht.
Qed.

(** *** [mappages] *)

(** The entries of [n] pages from [a] are for the pages from [pa]. *)
Definition map_range (a pa perm n : Z) (f : Z -> Z) (va : Z) : Z :=
  if (a <=? va) && (va <? a + 4096 * n) then Z.lor (Z.lor (pa + (va / 4096 * 4096 - a)) perm) PTE_P else f va.

Lemma mappages_loop_runs t h w pg perm n : forall fuel k free a pa,
  pgdir_ok k free pg -> Lkmem ∉ h -> (n < fuel)%nat -> a mod 4096 = 0 -> pa mod 4096 = 0 ->
  0 <= a -> a + 4096 * (Z.of_nat n + 1) <= 2 ^ 32 -> 0 <= pa -> pa + 4096 * (Z.of_nat n + 1) <= 2 ^ 32 -> 0 <= perm < 4096 ->
  (forall va, a <= va < a + 4096 * (Z.of_nat n + 1) -> present (entry (ram k) pg va) = false) ->
  exists r k' free' j, mappages_loop fuel pg a (a + 4096 * Z.of_nat n) pa perm (Ctx t h w) k = Ret r (Ctx t h w) k' /\
    vstep k free pg k' free' /\ (r = 0 /\ j = Z.of_nat n + 1 \/ r = -1 /\ 0 <= j <= Z.of_nat n /\ free' = []) /\
    forall va, 0 <= va < 2 ^ 32 -> entry (ram k') pg va = map_range a pa perm j (entry (ram k) pg) va.
Proof.
  induction n as [|n IH]; intros fuel k free a pa P Hh Hf Ha Hpa Ha0 Ha1 Hp0 Hp1 Hperm Hno;
    (destruct fuel as [|fuel]; [lia|]); cbn [mappages_loop];
    destruct (walk_alloc_runs t h w k free pg a P Hh ltac:(lia)) as (pte & k1 & free1 & R1 & V1 & En1 & Hc); run R1.
  all: destruct Hc as [[-> Ef]|[Ept Hpr]];
    [exists (-1), k1, free1, 0; split; [done|]; split; [done|]; split; [right; lia || done|]; intros va Hva; rewrite En1 by done;
     unfold map_range; destruct (Z.leb_spec a va), (Z.ltb_spec va (a + 4096 * 0)); cbn [andb]; done || lia|].
  all: pose proof (vs_ok _ _ _ _ _ V1) as P1; pose proof (PDX_range a) as Hd; pose proof (PTX_range a) as Ht;
    destruct (po_tab _ _ _ P1 (PDX a) Hd Hpr) as (Pt & _ & _); destruct (page_aligned _ Pt) as [_ Hr];
    assert (pte <> 0) as Hpte by (rewrite Ept; vm_const; lia);
    rewrite (proj2 (Z.eqb_neq _ _) Hpte); run (peek_runs pte (Ctx t h w) k1 Hpte);
    assert (load32 (ram k1) pte = entry (ram k1) pg a) as -> by (unfold entry; by rewrite Hpr, Ept);
    rewrite En1, Hno by lia; unfold poke; rewrite (proj2 (Z.eqb_neq _ _) Hpte); mstep;
    destruct (entry_fields pa perm) as (He1 & He2 & _); [done|lia|done|];
    destruct (set_entry k1 free1 pg a (Z.lor (Z.lor pa perm) PTE_P) P1 ltac:(lia) Hpr He1) as [V2 En2]; rewrite Ept;
    set (k2 := Kmem _ _ _) in *; pose proof (vstep_trans _ _ _ _ _ _ _ V1 V2) as V.
  - replace (a + 4096 * Z.of_nat 0) with a by lia. rewrite Z.eqb_refl.
    exists 0, k2, free1, 1. split; [done|]. split; [done|]. split; [left; lia|]. intros va Hva. rewrite En2, En1 by done.
    unfold map_range. destruct (Z.eqb_spec (va / 4096) (a / 4096)) as [E|N].
    + destruct (Z.leb_spec a va), (Z.ltb_spec va (a + 4096 * 1)); cbn [andb]; try (exfalso; Z.to_euclidean_division_equations; lia).
      do 2 f_equal. Z.to_euclidean_division_equations. lia.
    + destruct (Z.leb_spec a va), (Z.ltb_spec va (a + 4096 * 1)); cbn [andb]; try done. exfalso. Z.to_euclidean_division_equations. lia.
  - destruct (Z.eqb_spec a (a + 4096 * Z.of_nat (S n))); [lia|].
    assert (u32 (a + PGSIZE) = a + 4096 /\ u32 (pa + PGSIZE) = pa + 4096) as [-> ->] by (rewrite !u32_small by (vm_const; lia); done).
    destruct (IH fuel k2 free1 (a + 4096) (pa + 4096)) as (r & k3 & free3 & j & R3 & V3 & Hr3 & En3); try done; try lia.
    { apply V2. } { Z.to_euclidean_division_equations. lia. } { Z.to_euclidean_division_equations. lia. }
    { intros va Hva. rewrite En2 by lia. destruct (Z.eqb_spec (va / 4096) (a / 4096)) as [E|N].
      - exfalso. Z.to_euclidean_division_equations. lia.
      - rewrite En1 by lia. apply Hno. lia. }
    replace (a + 4096 * Z.of_nat (S n)) with (a + 4096 + 4096 * Z.of_nat n) by lia.
    exists r, k3, free3, (j + 1). split; [done|]. split; [by eapply vstep_trans|]. split; [destruct Hr3 as [[? ?]|(? & ? & ?)]; [left; lia|right; split; [done|split; [lia|done]]]|].
    assert (0 <= j) as Hj by lia. intros va Hva. rewrite En3 by done. unfold map_range. rewrite En2, En1 by done.
    destruct (Z.eqb_spec (va / 4096) (a / 4096)) as [E|N].
    + assert (a <= va < a + 4096) as Hin by (Z.to_euclidean_division_equations; lia).
      rewrite (proj2 (Z.leb_gt (a + 4096) va)), (proj2 (Z.leb_le a va)), (proj2 (Z.ltb_lt va (a + 4096 * (j + 1)))) by lia. cbn [andb].
      replace (va / 4096 * 4096 - a) with 0 by (Z.to_euclidean_division_equations; lia). by rewrite Z.add_0_r.
    + assert (~ (a <= va < a + 4096)) as Hin by (Z.to_euclidean_division_equations; lia).
      destruct (Z.leb_spec (a + 4096) va), (Z.ltb_spec va (a + 4096 + 4096 * j)), (Z.leb_spec a va), (Z.ltb_spec va (a + 4096 * (j + 1)));
        cbn [andb]; try done; try lia. do 2 f_equal. lia.
Qed.

Lemma PGROUNDDOWN_div x : 0 <= x -> PGROUNDDOWN x = x / 4096 * 4096.
Proof. intros Hx. unfold PGROUNDDOWN. change (PGSIZE - 1) with (2 ^ 12 - 1). by rewrite land_lnot_pow2. Qed.

(** [mappages] of [n + 1] whole pages. *)
Lemma mappages_runs t h w pg perm n k free va pa :
  pgdir_ok k free pg -> Lkmem ∉ h -> va mod 4096 = 0 -> pa mod 4096 = 0 ->
  0 <= va -> va + 4096 * (Z.of_nat n + 1) <= 2 ^ 32 -> 0 <= pa -> pa + 4096 * (Z.of_nat n + 1) <= 2 ^ 32 -> 0 <= perm < 4096 ->
  (forall a, va <= a < va + 4096 * (Z.of_nat n + 1) -> present (entry (ram k) pg a) = false) ->
  exists r k' free' j, mappages pg va (4096 * (Z.of_nat n + 1)) pa perm (Ctx t h w) k = Ret r (Ctx t h w) k' /\
    vstep k free pg k' free' /\ (r = 0 /\ j = Z.of_nat n + 1 \/ r = -1 /\ 0 <= j <= Z.of_nat n /\ free' = []) /\
    forall a, 0 <= a < 2 ^ 32 -> entry (ram k') pg a = map_range va pa perm j (entry (ram k) pg) a.
Proof.
  intros P Hh Ha Hpa H1 H2 H3 H4 H5 Hno. unfold mappages.
  rewrite !PGROUNDDOWN_div by (done || apply u32_range). rewrite u32_small by lia.
  replace (va / 4096 * 4096) with va by (Z.to_euclidean_division_equations; lia).
  replace ((va + 4096 * (Z.of_nat n + 1) - 1) / 4096 * 4096) with (va + 4096 * Z.of_nat n) by (Z.to_euclidean_division_equations; lia).
  apply mappages_loop_runs; try done.
  vm_const. rewrite Z.mul_comm, Z.div_mul by lia. lia.
Qed.

End tables.
