(* ===== verification/Uvm.v ===== *)
(** User memory: [allocuvm] and [deallocuvm] of vm.c on page tables that own
    their pages. *)

From stdpp Require Import functions base numbers list strings.
From S2P Require Import Xv6 Prelude Kstring Kalloc Vm PageTable.

Ltac vm_const := unfold KERNLINK, PGSIZE, KERNBASE, PHYSTOP, EXTMEM, DEVSPACE in *.

(** The page mapped at [va], by its kernel address. *)
Definition upage (m : mem) (pg va : Z) : Z := PTE_ADDR (entry m pg va) + KERNBASE.
(** The byte a process with page directory [pg] sees at [va]. *)
Definition ubyte (m : mem) (pg va : Z) : Z := m (upage m pg va + va mod 4096).

Section uvm.
Variable end_ : Z.
Hypothesis Hend : KERNBASE + EXTMEM <= end_.
Implicit Types (k : kmem) (free : list Z) (pg : Z) (t : thread) (w : list chan) (h : list lockid).

(** User pages are pages of their own, each mapped once. *)
Record uvm_ok k free pg : Prop := {
  uo_dir : pgdir_ok end_ k free pg;
  uo_page va : 0 <= va < KERNBASE -> present (entry (ram k) pg va) = true -> outside end_ k free pg (upage (ram k) pg va);
  uo_inj va va' : 0 <= va < KERNBASE -> 0 <= va' < KERNBASE ->
    present (entry (ram k) pg va) = true -> present (entry (ram k) pg va') = true ->
    upage (ram k) pg va = upage (ram k) pg va' -> va / 4096 = va' / 4096 }.

(** A page that is neither free nor part of the address space. *)
Definition apart k free pg (p : Z) : Prop :=
  outside end_ k free pg p /\ forall va, 0 <= va < KERNBASE -> present (entry (ram k) pg va) = true -> upage (ram k) pg va <> p.

Lemma entry_page m pg va va' : 0 <= va < 2 ^ 32 -> 0 <= va' < 2 ^ 32 -> va / 4096 = va' / 4096 -> entry m pg va = entry m pg va'.
Proof.
  intros Hv Hv' E. unfold entry. rewrite !PDX_div, !PTX_mod by done.
  replace (va / 4194304) with (va' / 4194304) by (Z.to_euclidean_division_equations; lia). by rewrite E.
Qed.

Lemma user_range va : 0 <= va < KERNBASE -> 0 <= va < 2 ^ 32.
Proof. vm_const. lia. Qed.

Lemma kernel_page_range p : page end_ p -> 0 <= p - KERNBASE /\ p - KERNBASE + 4096 <= 2 ^ 32 /\ (p - KERNBASE) mod 4096 = 0.
Proof. intros (H1 & H2 & H3). vm_const. split; [lia|]. split; [lia|]. Z.to_euclidean_division_equations. lia. Qed.

(** *** Freeing the page at [va] *)

(** Memory changed in page [p] only. *)
Lemma dir_frame k free pg p m' fl :
  pgdir_ok end_ k free pg -> page end_ p -> p <> pg ->
  (forall d, 0 <= d < 1024 -> present (dirent (ram k) pg d) = true -> tab (ram k) pg d <> p) ->
  (forall x, ~ (p <= x < p + PGSIZE) -> m' x = ram k x) ->
  let k' := Kmem (use_lock k) fl m' in
  (forall d, 0 <= d < 1024 -> dirent (ram k') pg d = dirent (ram k) pg d) /\
  (forall va, entry (ram k') pg va = entry (ram k) pg va).
Proof.
  intros P Pp Npg Nt Hm k'.
  assert (forall q, page end_ q -> q <> p -> page_same (ram k) m' q) as Hs.
  { intros q Pq N x Hx. apply Hm. by apply (page_disjoint end_ q p). }
  assert (forall d, 0 <= d < 1024 -> dirent m' pg d = dirent (ram k) pg d) as Ed.
  { intros d Hd. apply dirent_same; [|done]. apply Hs; [apply P|congruence]. }
  split; [done|]. intros va. unfold entry, tab. cbn. pose proof (PDX_range va) as Hd. pose proof (PTX_range va) as Ht.
  rewrite Ed by done. destruct (present (dirent (ram k) pg (PDX va))) eqn:Hpr; [|done].
  apply load32_page; [|lia|lia]. apply Hs; [by apply (po_tab _ _ _ _ P)|]. by apply Nt.
Qed.

Lemma pgdir_ok_frame k free free' pg p m' fl :
  pgdir_ok end_ k free pg -> page end_ p -> p <> pg ->
  (forall d, 0 <= d < 1024 -> present (dirent (ram k) pg d) = true -> tab (ram k) pg d <> p) ->
  (forall x, ~ (p <= x < p + PGSIZE) -> m' x = ram k x) -> wf_mem m' ->
  represents end_ (Kmem (use_lock k) fl m') free' -> (forall q, q ∈ free' -> q ∈ free \/ q = p) ->
  pgdir_ok end_ (Kmem (use_lock k) fl m') free' pg.
Proof.
  intros P Pp Npg Nt Hm Hw Hr Hf. destruct (dir_frame k free pg p m' fl P Pp Npg Nt Hm) as [Ed _]. cbn [ram] in Ed. split.
  - done.
  - done.
  - apply P.
  - intros Hin. destruct (Hf _ Hin) as [?| ->]; [by apply (po_notfree _ _ _ _ P)|done].
  - intros d Hd. unfold tab. cbn [ram]. rewrite Ed by done. intros Hpr. destruct (po_tab _ _ _ _ P d Hd Hpr) as (H1 & H2 & H3).
    split; [done|]. split; [|done]. intros Hin. destruct (Hf _ Hin) as [?|E]; [done|]. by apply (Nt d Hd Hpr).
  - intros d d' Hd Hd'. unfold tab. cbn [ram]. rewrite !Ed by done. by apply (po_inj _ _ _ _ P).
Qed.

Lemma wf_junk m v next : wf_mem m -> wf_mem (junk_page m v next).
Proof. intros H. apply wf_store32, wf_memset; [done|done]. Qed.

(** The state after [kfree] of a page outside the table. *)
Lemma kfree_outside k free pg v :
  pgdir_ok end_ k free pg -> outside end_ k free pg v ->
  let k1 := Kmem (use_lock k) v (junk_page (ram k) v (freelist k)) in
  pgdir_ok end_ k1 (v :: free) pg /\ (forall va, entry (ram k1) pg va = entry (ram k) pg va) /\
  (forall p, outside end_ k free pg p -> p <> v -> outside end_ k1 (v :: free) pg p /\ page_same (ram k) (ram k1) p) /\
  (forall p, is_tab k1 pg p <-> is_tab k pg p).
Proof.
  intros P (Pv & Nf & Npg & Nt) k1.
  assert (forall x, ~ (v <= x < v + PGSIZE) -> ram k1 x = ram k x) as Hm by (intros x; apply junk_page_other).
  destruct (dir_frame k free pg v (ram k1) v P Pv Npg Nt Hm) as [Ed En]. cbn [ram] in Ed. split; [|split; [|split]].
  - eapply (pgdir_ok_frame k free (v :: free)); try done.
    + apply wf_junk, P.
    + apply represents_free; [apply P|done|done].
    + intros q [->|Hq]%elem_of_cons; auto.
  - exact En.
  - intros p (Pp & Npf & Npp & Npt) N. split.
    + split; [done|]. split; [by apply not_elem_of_cons|]. split; [done|].
      intros d Hd. unfold tab. cbn [k1 ram]. rewrite Ed by done. by apply Npt.
    + intros x Hx. apply Hm. by apply (page_disjoint end_ p v).
  - intros p. by apply is_tab_same.
Qed.

Lemma free_user_page t h w k free pg va :
  uvm_ok k free pg -> Lkmem ∉ h -> 0 <= va < KERNBASE -> present (entry (ram k) pg va) = true ->
  let v := upage (ram k) pg va in
  exists k1 k', kfree end_ v (Ctx t h w) k = Ret tt (Ctx t h w) k1 /\
    poke (tab (ram k) pg (PDX va) + 4 * PTX va) 0 (Ctx t h w) k1 = Ret tt (Ctx t h w) k' /\ uvm_ok k' (v :: free) pg /\
    (forall a, 0 <= a < 2 ^ 32 -> entry (ram k') pg a = if a / 4096 =? va / 4096 then 0 else entry (ram k) pg a) /\
    (forall p, outside end_ k free pg p -> p <> v -> outside end_ k' (v :: free) pg p /\ page_same (ram k) (ram k') p) /\
    use_lock k' = use_lock k /\ (forall p, is_tab k' pg p <-> is_tab k pg p).
Proof.
  intros U Hh Hva Hpr v. pose proof (uo_page _ _ _ U va Hva Hpr) as Ho. fold v in Ho. pose proof (user_range va Hva) as Hva'.
  pose proof (uo_dir _ _ _ U) as P. destruct (kfree_outside k free pg v P Ho) as (P1 & En1 & K1 & T1).
  set (k1 := Kmem (use_lock k) v _) in *.
  assert (present (dirent (ram k) pg (PDX va)) = true) as Hd.
  { unfold entry in Hpr. destruct (present (dirent (ram k) pg (PDX va))) eqn:E; [done|]. done. }
  pose proof (PDX_range va) as Hdr. pose proof (PTX_range va) as Htr.
  assert (dirent (ram k1) pg (PDX va) = dirent (ram k) pg (PDX va)) as Ed.
  { apply dirent_same; [|done]. intros x Hx. unfold k1. cbn. apply junk_page_other.
    destruct Ho as (Pv & _ & Npg & _). by apply (page_disjoint end_ pg v x (po_page _ _ _ _ P) Pv). }
  destruct (set_entry end_ k1 (v :: free) pg va 0 P1 Hva' ltac:(by rewrite Ed) ltac:(lia)) as [V En2].
  unfold tab in V, En2. rewrite Ed in V, En2. fold (tab (ram k) pg (PDX va)) in V, En2. set (k2 := Kmem _ _ (store32 _ _ _)) in *.
  assert (forall a, 0 <= a < 2 ^ 32 -> entry (ram k2) pg a = if a / 4096 =? va / 4096 then 0 else entry (ram k) pg a) as En.
  { intros a Ha. rewrite En2 by done. by rewrite En1. }
  assert (forall p, outside end_ k free pg p -> p <> v -> outside end_ k2 (v :: free) pg p /\ page_same (ram k) (ram k2) p) as K.
  { intros p Hp N. destruct (K1 p Hp N) as [Hp1 E1]. destruct (vs_keep _ _ _ _ _ _ V p Hp1) as [Hp2 E2].
    split; [done|]. intros x Hx. rewrite E2, E1; done. }
  exists k1, k2. split; [by apply (kfree_runs end_); [apply Ho|]|]. split; [|split; [|split; [done|split; [done|split; [done|]]]]].
  - destruct (po_tab _ _ _ _ P _ Hdr Hd) as (Pt & _). destruct (page_aligned end_ _ Pt) as [_ Hr].
    unfold poke. destruct (Z.eqb_spec (tab (ram k) pg (PDX va) + 4 * PTX va) 0); [vm_const; lia|]. done.
  - split; [apply V|..].
    + intros a Ha. rewrite En by (by apply user_range). destruct (Z.eqb_spec (a / 4096) (va / 4096)) as [E|N]; [done|].
      intros Hpa. unfold upage. rewrite En by (by apply user_range). rewrite (proj2 (Z.eqb_neq _ _) N).
      apply K; [by apply U|]. intros E. apply N. by apply (uo_inj _ _ _ U).
    + intros a b Ha Hb. unfold upage. rewrite !En by (by apply user_range).
      destruct (Z.eqb_spec (a / 4096) (va / 4096)); [done|]. destruct (Z.eqb_spec (b / 4096) (va / 4096)); [done|].
      by apply (uo_inj _ _ _ U).
  - intros p. rewrite <- T1. apply is_tab_same. intros d Hdd. apply dirent_same; [|done].
    apply (store_other_page end_); [by apply (po_tab _ _ _ _ P)|apply P| |lia|lia]. by apply (po_tab _ _ _ _ P).
Qed.

(** ** [deallocuvm] *)

(** [va] lies in a page that starts below [top], from [a] on. *)
Definition in_pages (a top va : Z) : Prop := a <= va /\ va / 4096 * 4096 < top.
#[local] Instance in_pages_dec a top va : Decision (in_pages a top va).
Proof. unfold in_pages. apply _. Defined.

(** The user pages of [[a, top)] are unmapped and free, nothing else changed. *)
Record unmapped k free pg (a top : Z) k' free' : Prop := {
  un_ok : uvm_ok k' free' pg;
  un_gone va : 0 <= va < KERNBASE -> in_pages a top va -> present (entry (ram k') pg va) = false;
  un_same va : 0 <= va < 2 ^ 32 -> ~ in_pages a top va -> entry (ram k') pg va = entry (ram k) pg va;
  un_free p : p ∈ free' <-> p ∈ free \/ exists va, 0 <= va < KERNBASE /\ in_pages a top va /\
    present (entry (ram k) pg va) = true /\ p = upage (ram k) pg va;
  un_keep p : outside end_ k free pg p ->
    (forall va, 0 <= va < KERNBASE -> in_pages a top va -> present (entry (ram k) pg va) = true -> upage (ram k) pg va <> p) ->
    outside end_ k' free' pg p /\ page_same (ram k) (ram k') p;
  un_tab p : is_tab k' pg p <-> is_tab k pg p;
  un_lock : use_lock k' = use_lock k }.

(** A first stretch with nothing mapped. *)
Lemma unmapped_skip k free pg a b top k' free' :
  a <= b -> (forall va, 0 <= va < 2 ^ 32 -> a <= va < b -> present (entry (ram k) pg va) = false) ->
  unmapped k free pg b top k' free' -> unmapped k free pg a top k' free'.
Proof.
  intros Hab Hz [U G Sm F K T Lk]. split.
  - done.
  - intros va Hva [H1 H2]. destruct (decide (b <= va)); [by apply G|]. rewrite Sm; [|by apply user_range|intros [? ?]; lia].
    apply Hz; [by apply user_range|lia].
  - intros va Hva Hn. apply Sm; [done|]. intros [H1 H2]. apply Hn. split; [lia|done].
  - intros p. rewrite F. split; (intros [?|(va & Hva & [H1 H2] & Hpr & E)]; [by left|right]).
    + exists va. split; [done|]. split; [split; [lia|done]|done].
    + exists va. split; [done|]. split; [|done]. split; [|done].
      destruct (decide (b <= va)); [done|]. exfalso. rewrite Hz in Hpr; [done|by apply user_range|lia].
  - intros p Hp Hn. apply K; [done|]. intros va Hva [H1 H2]. apply Hn; [done|]. split; [lia|done].
  - done.
  - done.
Qed.

(** The first page, then the others. *)
Lemma unmapped_first k free pg a top v k1 k' free' :
  uvm_ok k free pg -> 0 <= a -> a mod 4096 = 0 -> a < top -> top <= KERNBASE -> present (entry (ram k) pg a) = true ->
  v = upage (ram k) pg a ->
  (forall x, 0 <= x < 2 ^ 32 -> entry (ram k1) pg x = if x / 4096 =? a / 4096 then 0 else entry (ram k) pg x) ->
  (forall p, outside end_ k free pg p -> p <> v -> outside end_ k1 (v :: free) pg p /\ page_same (ram k) (ram k1) p) ->
  use_lock k1 = use_lock k -> (forall p, is_tab k1 pg p <-> is_tab k pg p) ->
  unmapped k1 (v :: free) pg (a + 4096) top k' free' -> unmapped k free pg a top k' free'.
Proof.
  intros U Ha Hal Hlt Ht Hpr Ev En K1 Lk1 T1 [U' G Sm F K T Lk].
  assert (forall x, x / 4096 = a / 4096 <-> a <= x < a + 4096) as Hpg by (intros x; Z.to_euclidean_division_equations; lia).
  assert (forall x, 0 <= x < 2 ^ 32 -> ~ (a <= x < a + 4096) -> entry (ram k1) pg x = entry (ram k) pg x) as Enn.
  { intros x Hx Nx. rewrite En by done. destruct (Z.eqb_spec (x / 4096) (a / 4096)) as [E|]; [|done]. by apply Hpg in E. }
  assert (forall x, 0 <= x < 2 ^ 32 -> a <= x < a + 4096 -> entry (ram k1) pg x = 0) as Enz.
  { intros x Hx Nx. rewrite En by done. by rewrite (proj2 (Z.eqb_eq _ _)) by by apply Hpg. }
  split.
  - done.
  - intros va Hva [H1 H2]. destruct (decide (a + 4096 <= va)); [by apply G|].
    rewrite Sm by (by apply user_range || (intros [? ?]; lia)). rewrite Enz; [done|by apply user_range|lia].
  - intros va Hva Hn. rewrite Sm; [|done|].
    + apply Enn; [done|]. intros Hin. apply Hn. split; [lia|]. apply Hpg in Hin. Z.to_euclidean_division_equations. lia.
    + intros [H1 H2]. apply Hn. split; [lia|done].
  - intros p. rewrite F, elem_of_cons. split.
    + intros [[->|?]|(va & Hva & [H1 H2] & Hp & E)]; [right|by left|right].
      * exists a. split; [lia|]. split; [split; [lia|Z.to_euclidean_division_equations; lia]|done].
      * exists va. rewrite Enn in Hp by (by apply user_range || lia). split; [done|]. split; [split; [lia|done]|].
        split; [done|]. rewrite E. unfold upage. by rewrite Enn by (by apply user_range || lia).
    + intros [?|(va & Hva & [H1 H2] & Hp & E)]; [left; by right|]. destruct (decide (a + 4096 <= va)) as [Hge|Hge].
      * right. exists va. split; [done|]. split; [split; [lia|done]|]. unfold upage. rewrite Enn by (by apply user_range || lia). done.
      * left. left. rewrite E, Ev. unfold upage. f_equal. f_equal. apply entry_page; [by apply user_range|apply user_range; lia|].
        apply Hpg. lia.
  - intros p Hp Hn. destruct (K1 p Hp) as [Hp1 E1].
    { rewrite Ev. intros E. apply (Hn a); [lia|split; [lia|Z.to_euclidean_division_equations; lia]|done|done]. }
    destruct (K p Hp1) as [Hp2 E2].
    { intros va Hva [H1 H2]. unfold upage. rewrite Enn by (by apply user_range || lia). intros Hp'.
      apply Hn; [done|split; [lia|done]|done]. }
    split; [done|]. intros x Hx. rewrite E2, E1; done.
  - intros p. by rewrite T, T1.
  - congruence.
Qed.

Lemma dealloc_loop_runs t h w pg top fuel : forall k free a,
  uvm_ok k free pg -> Lkmem ∉ h -> 0 <= a -> a mod 4096 = 0 -> top <= KERNBASE -> top <= a + 4096 * Z.of_nat fuel ->
  exists k' free', dealloc_loop end_ fuel pg a top (Ctx t h w) k = Ret tt (Ctx t h w) k' /\ unmapped k free pg a top k' free'.
Proof.
  induction fuel as [|fuel IH]; intros k free a U Hh Ha Hal Ht Hf; cbn [dealloc_loop];
    (destruct (Z.leb_spec top a) as [Hle|Hlt];
      [exists k, free; split; [done|]; split; [done| |done| |by intros p Hp _|done|done];
        [intros va _ [H1 H2]; exfalso; Z.to_euclidean_division_equations; lia
        |intros p; split; [by left|]; intros [?|(va & _ & [H1 H2] & _)]; [done|exfalso; Z.to_euclidean_division_equations; lia]]|]);
    [lia|].
  assert (0 <= a < KERNBASE) as Har by lia. pose proof (user_range a Har) as Har'.
  rewrite (bind_Ret _ _ _ _ _ _ _ (walk_runs end_ t h w k free pg a (uo_dir _ _ _ U))).
  destruct (present (dirent (ram k) pg (PDX a))) eqn:Hd.
  - pose proof (PDX_range a) as Hdr. pose proof (PTX_range a) as Htr.
    destruct (po_tab _ _ _ _ (uo_dir _ _ _ U) _ Hdr Hd) as (Pt & _). destruct (page_aligned end_ _ Pt) as [_ Hr].
    set (pte := tab (ram k) pg (PDX a) + 4 * PTX a). assert (pte <> 0) as Hpte by (unfold pte; vm_const; lia).
    rewrite (proj2 (Z.eqb_neq _ _) Hpte). run (peek_runs pte (Ctx t h w) k Hpte).
    assert (load32 (ram k) pte = entry (ram k) pg a) as -> by (unfold entry; by rewrite Hd).
    assert (u32 (a + PGSIZE) = a + 4096) as -> by (rewrite u32_small; [done|vm_const; lia]).
    destruct (present (entry (ram k) pg a)) eqn:Hpr.
    + destruct (uo_page _ _ _ U a Har Hpr) as (Pv & _). pose proof (page_low end_ Hend _ Pv) as Hlow. unfold upage in Hlow, Pv.
      destruct (Z.eqb_spec (PTE_ADDR (entry (ram k) pg a)) 0); [vm_const; lia|].
      destruct (free_user_page t h w k free pg a U Hh Har Hpr) as (k1 & k2 & R1 & R2 & U2 & En & K & Lk & T). fold pte in R2.
      rewrite !bind_assoc. run (p2v_page end_ (entry (ram k) pg a) (Ctx t h w) k Pv). rewrite !bind_assoc. run R1. run R2.
      destruct (IH k2 (upage (ram k) pg a :: free) (a + 4096) U2 Hh) as (k' & free' & R & Un); try lia.
      { Z.to_euclidean_division_equations. lia. }
      exists k', free'. split; [done|]. by eapply unmapped_first.
    + mstep. destruct (IH k free (a + 4096) U Hh) as (k' & free' & R & Un); try lia.
      { Z.to_euclidean_division_equations. lia. }
      exists k', free'. split; [done|]. eapply (unmapped_skip k free pg a (a + 4096)); [lia| |done].
      intros va Hva Hvb. rewrite (entry_page _ _ _ a); [done|done|done|Z.to_euclidean_division_equations; lia].
  - cbn [Z.eqb].
    assert (u32 (u32 (PGADDR (PDX a + 1) 0 0 - PGSIZE) + PGSIZE) = (a / 4194304 + 1) * 4194304) as ->.
    { rewrite PDX_div by done. unfold PGADDR. rewrite Z.shiftl_0_l, !Z.lor_0_r, Z.shiftl_mul_pow2 by lia.
      change (2 ^ 22) with 4194304. vm_const. word_lia. }
    set (b := (a / 4194304 + 1) * 4194304). assert (a < b) as Hab by (unfold b; Z.to_euclidean_division_equations; lia).
    destruct (IH k free b U Hh) as (k' & free' & R & Un).
    + lia.
    + unfold b. Z.to_euclidean_division_equations. lia.
    + done.
    + assert (a + 4096 <= b) by (unfold b; Z.to_euclidean_division_equations; lia). lia.
    + exists k', free'. split; [done|]. eapply (unmapped_skip k free pg a b); [lia| |done].
      intros va Hva Hvb. unfold entry. replace (PDX va) with (PDX a); [by rewrite Hd|].
      rewrite !PDX_div by done. unfold b in Hvb. Z.to_euclidean_division_equations. lia.
Qed.

Lemma PGROUNDUP_div x : 0 <= x <= KERNBASE -> PGROUNDUP x = (x + 4095) / 4096 * 4096.
Proof.
  intros Hx. unfold PGROUNDUP. change (PGSIZE - 1) with (2 ^ 12 - 1). rewrite land_lnot_pow2 by lia.
  rewrite u32_small by (vm_const; lia). change (2 ^ 12) with 4096. f_equal. f_equal. vm_const. lia.
Qed.

Lemma deallocuvm_runs t h w k free pg oldsz newsz :
  uvm_ok k free pg -> Lkmem ∉ h -> 0 <= newsz < oldsz -> oldsz <= KERNBASE ->
  exists k' free', deallocuvm end_ pg oldsz newsz (Ctx t h w) k = Ret newsz (Ctx t h w) k' /\
    unmapped k free pg (PGROUNDUP newsz) oldsz k' free'.
Proof.
  intros U Hh Hn Ho. unfold deallocuvm. destruct (Z.leb_spec oldsz newsz); [lia|].
  destruct (dealloc_loop_runs t h w pg oldsz (Z.to_nat (oldsz / PGSIZE + 1)) k free (PGROUNDUP newsz) U Hh) as (k' & free' & R & Un).
  - rewrite PGROUNDUP_div by lia. Z.to_euclidean_division_equations. lia.
  - rewrite PGROUNDUP_div by lia. apply Z.mod_mul. lia.
  - done.
  - rewrite PGROUNDUP_div by lia. vm_const. rewrite Z2Nat.id by (Z.to_euclidean_division_equations; lia). Z.to_euclidean_division_equations. lia.
  - run R. by exists k', free'.
Qed.

(** ** [allocuvm] *)

(** A page taken from the free list and filled with [f]. *)
Lemma take_page k k1 free pg p m' :
  pgdir_ok end_ k (p :: free) pg -> represents end_ k1 free -> ram k1 = ram k -> use_lock k1 = use_lock k ->
  (forall x, ~ (p <= x < p + PGSIZE) -> m' x = ram k x) -> wf_mem m' ->
  let k2 := Kmem (use_lock k1) (freelist k1) m' in
  pgdir_ok end_ k2 free pg /\ (forall va, entry (ram k2) pg va = entry (ram k) pg va) /\ outside end_ k2 free pg p /\
  (forall q, outside end_ k (p :: free) pg q -> q <> p -> outside end_ k2 free pg q /\ page_same (ram k) (ram k2) q).
Proof.
  intros P R1 Em Eu Hm Hw k2. destruct (po_free _ _ _ _ P) as [Hl Hnd]. pose proof (linked_pages end_ _ _ _ Hl) as Hpages.
  inversion Hpages as [|? ? Pp Pfree]; subst. apply NoDup_cons in Hnd as [Np Hnd].
  pose proof (po_notfree _ _ _ _ P) as Npg. apply not_elem_of_cons in Npg as [Npg _].
  assert (forall d, 0 <= d < 1024 -> present (dirent (ram k) pg d) = true -> tab (ram k) pg d <> p) as Nt.
  { intros d Hd Hpr E. destruct (po_tab _ _ _ _ P d Hd Hpr) as (_ & H & _). apply H. rewrite E. left. }
  unfold k2. rewrite Eu. destruct (dir_frame k (p :: free) pg p m' (freelist k1) P Pp ltac:(congruence) Nt Hm) as [Ed En].
  cbn [ram] in Ed. split; [|split; [exact En|split]].
  - apply (pgdir_ok_frame k (p :: free) free pg p); try done; [|by intros q Hq; left; right].
    split; [|done]. destruct R1 as [Hl1 _]. cbn. eapply linked_frame; [exact Pp|done| |exact Hl1]. intros x Hx. by rewrite Em, Hm.
  - split; [done|]. split; [done|]. split; [congruence|]. intros d Hd. unfold tab. cbn [ram]. rewrite Ed by done. by apply Nt.
  - intros q (Pq & Nq & Nqg & Nqt) N. apply not_elem_of_cons in Nq as [_ Nq]. split.
    + split; [done|]. split; [done|]. split; [done|]. intros d Hd. unfold tab. cbn [ram]. rewrite Ed by done. by apply Nqt.
    + intros x Hx. apply Hm. by apply (page_disjoint end_ q p).
Qed.

(** The user pages are untouched. *)
Lemma uvm_ok_kept k free pg k' free' :
  uvm_ok k free pg -> pgdir_ok end_ k' free' pg ->
  (forall va, 0 <= va < KERNBASE -> entry (ram k') pg va = entry (ram k) pg va) ->
  (forall va, 0 <= va < KERNBASE -> present (entry (ram k) pg va) = true -> outside end_ k' free' pg (upage (ram k) pg va)) ->
  uvm_ok k' free' pg.
Proof.
  intros U P En K. split; [done|..].
  - intros va Hva. unfold upage. rewrite En by done. by apply K.
  - intros a b Ha Hb. unfold upage. rewrite !En by done. by apply (uo_inj _ _ _ U).
Qed.

Definition fresh_entry (p : Z) : Z := Z.lor (Z.lor (p - KERNBASE) (Z.lor PTE_W PTE_U)) PTE_P.

Lemma fresh_entry_fields p : page end_ p ->
  0 <= fresh_entry p < 2 ^ 32 /\ present (fresh_entry p) = true /\ PTE_ADDR (fresh_entry p) + KERNBASE = p /\
  PTE_FLAGS (fresh_entry p) = 7.
Proof.
  intros Hp. destruct (kernel_page_range p Hp) as (H1 & H2 & H3).
  destruct (entry_fields (p - KERNBASE) (Z.lor PTE_W PTE_U)) as (E1 & E2 & E3 & E4); [done|lia|done|].
  fold (fresh_entry p) in *. rewrite E3, E4. split; [done|]. split; [done|]. split; [lia|done].
Qed.

(** Mapping a page of one's own at [va]. *)
Lemma map_page t h w k free pg p va e :
  uvm_ok k free pg -> apart k free pg p -> Lkmem ∉ h -> va mod 4096 = 0 -> 0 <= va < KERNBASE ->
  present (entry (ram k) pg va) = false -> 0 <= e < 4096 ->
  exists r k' free', mappages pg va PGSIZE (p - KERNBASE) e (Ctx t h w) k = Ret r (Ctx t h w) k' /\
    vstep end_ k free pg k' free' /\ uvm_ok k' free' pg /\
    (r = 0 /\ (forall a, 0 <= a < 2 ^ 32 -> entry (ram k') pg a =
        if a / 4096 =? va / 4096 then Z.lor (Z.lor (p - KERNBASE) e) PTE_P else entry (ram k) pg a) \/
     r = -1 /\ free' = [] /\ apart k' free' pg p /\ (forall a, 0 <= a < 2 ^ 32 -> entry (ram k') pg a = entry (ram k) pg a)).
Proof.
  intros U [Ho Na] Hh Hal Hva Hno He. destruct Ho as (Pp & Hrest). destruct (kernel_page_range p Pp) as (H1 & H2 & H3).
  assert (forall a, 0 <= a < 2 ^ 32 -> a / 4096 = va / 4096 <-> va <= a < va + 4096) as Hpg
    by (intros a Ha; Z.to_euclidean_division_equations; lia).
  destruct (mappages_runs end_ t h w pg e 0 k free va (p - KERNBASE)) as (r & k' & free' & j & R & V & Hr & En);
    try done; try (vm_const; lia).
  { apply U. }
  { intros a Ha. rewrite (entry_page _ _ a va); [done|vm_const; lia|by apply user_range|]. apply Hpg; [vm_const; lia|lia]. }
  exists r, k', free'. change (4096 * (Z.of_nat 0 + 1)) with PGSIZE in R. split; [done|]. split; [done|].
  assert (outside end_ k free pg p) as Hout by done.
  destruct Hr as [[-> ->]|(-> & Hj & Hf)].
  - assert (forall a, 0 <= a < 2 ^ 32 -> entry (ram k') pg a =
      if a / 4096 =? va / 4096 then Z.lor (Z.lor (p - KERNBASE) e) PTE_P else entry (ram k) pg a) as En'.
    { intros a Ha. rewrite En by done. unfold map_range. specialize (Hpg a Ha).
      destruct (Z.eqb_spec (a / 4096) (va / 4096)) as [E|N], (Z.leb_spec va a), (Z.ltb_spec a (va + 4096 * (Z.of_nat 0 + 1)));
        cbn [andb]; try done; try (exfalso; lia).
      rewrite E. replace (va / 4096 * 4096 - va) with 0 by (Z.to_euclidean_division_equations; lia). by rewrite Z.add_0_r. }
    split; [|by left]. destruct (entry_fields (p - KERNBASE) e) as (E1 & E2 & E3 & _); [done|lia|done|].
    assert (forall a, 0 <= a < KERNBASE -> present (entry (ram k') pg a) = true ->
      a / 4096 = va / 4096 /\ upage (ram k') pg a = p \/
      a / 4096 <> va / 4096 /\ present (entry (ram k) pg a) = true /\ upage (ram k') pg a = upage (ram k) pg a) as Hcase.
    { intros a Ha. unfold upage. rewrite En' by (by apply user_range).
      destruct (Z.eqb_spec (a / 4096) (va / 4096)); [left; split; [done|rewrite E3; lia]|by right]. }
    split; [apply V|..].
    + intros a Ha Hpr. destruct (Hcase a Ha Hpr) as [[_ ->]|(_ & Hp & ->)]; apply V; [done|by apply U].
    + intros a b Ha Hb Hpa Hpb. destruct (Hcase a Ha Hpa) as [[E ->]|(N & Hp & ->)], (Hcase b Hb Hpb) as [[E' ->]|(N' & Hp' & ->)].
      * congruence.
      * intros E2'. by destruct (Na b Hb Hp').
      * intros E2'. by destruct (Na a Ha Hp).
      * by apply (uo_inj _ _ _ U).
  - assert (forall a, 0 <= a < 2 ^ 32 -> entry (ram k') pg a = entry (ram k) pg a) as En'.
    { intros a Ha. rewrite En by done. unfold map_range. destruct (Z.leb_spec va a), (Z.ltb_spec a (va + 4096 * j)); cbn [andb]; done || lia. }
    assert (uvm_ok k' free' pg) as U'.
    { eapply uvm_ok_kept; [done|apply V| |].
      - intros a Ha. by apply En', user_range.
      - intros a Ha Hpr. apply V. by apply U. }
    split; [done|]. right. split; [done|]. split; [done|]. split; [|done]. split; [by apply V|].
    intros a Ha. unfold upage. rewrite En' by (by apply user_range). by apply Na.
Qed.

(** The address space grew from [a0] to [a] with zeroed pages of the free list;
    the pages [ex] are taken but not mapped. *)
Record grown k0 free0 pg (a0 a : Z) (ex : list Z) k free : Prop := {
  gw_ok : uvm_ok k free pg;
  gw_same va : 0 <= va < 2 ^ 32 -> ~ (a0 <= va < a) -> entry (ram k) pg va = entry (ram k0) pg va;
  gw_new va : a0 <= va < a -> exists p, page end_ p /\ p ∈ free0 /\ entry (ram k) pg va = fresh_entry p /\
    forall x, p <= x < p + PGSIZE -> ram k x = 0;
  gw_keep p : outside end_ k0 free0 pg p -> outside end_ k free pg p /\ page_same (ram k0) (ram k) p;
  gw_free p : p ∈ free0 <-> p ∈ free \/ p ∈ ex \/ (p ∈ free0 /\ is_tab k pg p) \/
    exists va, a0 <= va < a /\ upage (ram k) pg va = p;
  gw_lock : use_lock k = use_lock k0 }.

Lemma grown_refl k free pg a : uvm_ok k free pg -> grown k free pg a a [] k free.
Proof.
  intros U. split; [done|done|lia|by intros p Hp| |done].
  intros p. split; [by left|]. intros [?|[?%not_elem_of_nil|[[? _]|(va & ? & _)]]]; [done|done|done|lia].
Qed.

(** [kalloc] on an empty list. *)
Lemma kalloc_empty t h w k pg : uvm_ok k [] pg -> Lkmem ∉ h ->
  exists k1, kalloc (Ctx t h w) k = Ret 0 (Ctx t h w) k1 /\ uvm_ok k1 [] pg /\ ram k1 = ram k /\ use_lock k1 = use_lock k.
Proof.
  intros U Hh. destruct (kalloc_runs end_ t h w k [] (po_free _ _ _ _ (uo_dir _ _ _ U)) Hh) as (k1 & R & Hk1 & Em & Eu).
  exists k1. split; [done|]. split; [|done]. destruct U as [[P1 P2 P3 P4 P5 P6] U1 U2].
  split; unfold outside, upage in *; rewrite ?Em; try done. split; rewrite ?Em; done.
Qed.

(** [kalloc] of a page, filled with [f]. *)
Lemma kalloc_fill t h w k p free pg f : uvm_ok k (p :: free) pg -> Lkmem ∉ h ->
  (forall m x, ~ (p <= x < p + PGSIZE) -> f m x = m x) -> (forall m, wf_mem m -> wf_mem (f m)) ->
  exists k1, kalloc (Ctx t h w) k = Ret p (Ctx t h w) k1 /\ page end_ p /\ ram k1 = ram k /\
    let k2 := Kmem (use_lock k1) (freelist k1) (f (ram k1)) in
    on_ram f (Ctx t h w) k1 = Ret tt (Ctx t h w) k2 /\ uvm_ok k2 free pg /\ apart k2 free pg p /\
    (forall va, entry (ram k2) pg va = entry (ram k) pg va) /\
    (forall q, outside end_ k (p :: free) pg q -> outside end_ k2 free pg q /\ page_same (ram k) (ram k2) q) /\
    use_lock k2 = use_lock k /\ (forall q, is_tab k2 pg q <-> is_tab k pg q).
Proof.
  intros U Hh Hf Hw. pose proof (uo_dir _ _ _ U) as P.
  destruct (kalloc_runs end_ t h w k (p :: free) (po_free _ _ _ _ P) Hh) as (k1 & R & Hk1 & Em & Eu).
  exists k1. split; [done|]. pose proof (po_free _ _ _ _ P) as [(_ & Pp & _) _]. split; [done|]. split; [done|]. intros k2. split; [done|].
  destruct (take_page k k1 free pg p (f (ram k1)) P Hk1 Em Eu) as (P2 & En & Ho & K).
  { intros x Hx. by rewrite Hf, Em. } { apply Hw. rewrite Em. apply P. }
  fold k2 in P2, En, Ho, K.
  assert (forall q, outside end_ k (p :: free) pg q -> q <> p) as Nq.
  { intros q (_ & Hq & _) ->. apply Hq. left. }
  assert (forall q, outside end_ k (p :: free) pg q -> outside end_ k2 free pg q /\ page_same (ram k) (ram k2) q) as K'.
  { intros q Hq. apply K; [done|]. by apply Nq. }
  split; [|split; [|split; [done|split; [done|split; [by cbn; rewrite Eu|]]]]].
  - eapply uvm_ok_kept; [done|done|by intros|]. intros va Hva Hpr. by apply K', U.
  - split; [done|]. intros va Hva. unfold upage. rewrite En. intros Hpr. by apply Nq, U.
  - intros q. apply is_tab_same. intros d Hd. apply dirent_same; [|done]. intros x Hx. cbn. rewrite Hf, Em; [done|].
    apply (page_disjoint end_ pg p x); [apply P|done| |done].
    pose proof (po_notfree _ _ _ _ P) as N. apply not_elem_of_cons in N as [N _]. done.
Qed.

Lemma zero_page p : page end_ p -> (forall m x, ~ (p <= x < p + PGSIZE) -> memset m p 0 PGSIZE x = m x) /\
  (forall m, wf_mem m -> wf_mem (memset m p 0 PGSIZE)) /\ (forall m x, p <= x < p + PGSIZE -> memset m p 0 PGSIZE x = 0).
Proof.
  intros Hp. split; [|split].
  - intros m x Hx. rewrite memset_at by done. by range_cases.
  - intros m Hm. by apply wf_memset.
  - intros m x Hx. rewrite memset_at by done. by range_cases.
Qed.

Lemma v2p_page p c k : page end_ p -> v2p p c k = Ret (p - KERNBASE) c k.
Proof. intros Hp. destruct (page_aligned end_ p Hp) as [_ Hr]. unfold v2p. destruct (Z.ltb_spec p KERNBASE); [lia|done]. Qed.

(** One more page, or the page is left over. *)
Lemma grown_step k0 free0 pg a0 a k p free k2 k3 free3 r :
  grown k0 free0 pg a0 a [] k (p :: free) -> page end_ p -> a mod 4096 = 0 -> 0 <= a0 <= a -> a < KERNBASE ->
  (forall va, entry (ram k2) pg va = entry (ram k) pg va) ->
  (forall q, outside end_ k (p :: free) pg q -> outside end_ k2 free pg q /\ page_same (ram k) (ram k2) q) ->
  (forall x, p <= x < p + PGSIZE -> ram k2 x = 0) -> use_lock k2 = use_lock k -> (forall q, is_tab k2 pg q <-> is_tab k pg q) ->
  apart k2 free pg p -> vstep end_ k2 free pg k3 free3 -> uvm_ok k3 free3 pg ->
  (r = 0 /\ (forall x, 0 <= x < 2 ^ 32 -> entry (ram k3) pg x =
       if x / 4096 =? a / 4096 then fresh_entry p else entry (ram k2) pg x) \/
   r = -1 /\ free3 = [] /\ apart k3 free3 pg p /\ (forall x, 0 <= x < 2 ^ 32 -> entry (ram k3) pg x = entry (ram k2) pg x)) ->
  r = 0 /\ grown k0 free0 pg a0 (a + 4096) [] k3 free3 \/ r = -1 /\ grown k0 free0 pg a0 a [p] k3 free3 /\ apart k3 free3 pg p.
Proof.
  intros G Pp Hal Ha0 Ha En2 K2 Hz Lk2 T2 Ap V U3 Hr. pose proof (gw_ok _ _ _ _ _ _ _ _ G) as U.
  destruct (vs_free _ _ _ _ _ _ V) as (l & El & Tl).
  assert (forall q, outside end_ k (p :: free) pg q -> outside end_ k3 free3 pg q /\ page_same (ram k) (ram k3) q) as K3.
  { intros q Hq. destruct (K2 q Hq) as [Hq2 E2]. destruct (vs_keep _ _ _ _ _ _ V q Hq2) as [Hq3 E3].
    split; [done|]. intros x Hx. rewrite E3, E2; done. }
  assert (page_same (ram k2) (ram k3) p) as Ep by (apply (vs_keep _ _ _ _ _ _ V); apply Ap).
  assert (forall q, q ∈ free -> q ∈ free0) as Hsub by (intros q Hq; apply (gw_free _ _ _ _ _ _ _ _ G); left; by right).
  assert (p ∈ free0) as Hp0 by (apply (gw_free _ _ _ _ _ _ _ _ G); left; left).
  assert (forall q, q ∈ free0 <-> q ∈ free3 \/ q = p \/ (q ∈ free0 /\ is_tab k3 pg q) \/
    exists va, a0 <= va < a /\ upage (ram k) pg va = q) as Hfree.
  { intros q. rewrite (gw_free _ _ _ _ _ _ _ _ G q) at 1. rewrite elem_of_cons, El, elem_of_app. split.
    - intros [[->|[Hq|Hq]]|[?%not_elem_of_nil|[[Hq1 Hq2]|Hq]]]; try done; try tauto.
      + right. right. left. split; [apply Hsub; rewrite El, elem_of_app; by left|apply Tl; by right].
      + right. right. left. split; [done|]. apply Tl. left. by apply T2.
    - intros [Hq|[->|[[Hq1 Hq2]|Hq]]]; [tauto|tauto| |tauto].
      apply (gw_free _ _ _ _ _ _ _ _ G) in Hq1. rewrite elem_of_cons, El, elem_of_app in Hq1. tauto. }
  assert (forall va, a0 <= va < a -> exists q, page end_ q /\ q ∈ free0 /\ entry (ram k) pg va = fresh_entry q /\
    forall x, q <= x < q + PGSIZE -> ram k3 x = 0) as Hnew.
  { intros va Hva. destruct (gw_new _ _ _ _ _ _ _ _ G va Hva) as (q & Pq & Hq & Eq & Zq). exists q. split; [done|].
    split; [done|]. split; [done|]. destruct (fresh_entry_fields q Pq) as (_ & E2 & E3 & _).
    pose proof (uo_page _ _ _ U va ltac:(lia)) as Ho. unfold upage in Ho. rewrite Eq, E3 in Ho.
    intros x Hx. rewrite (proj2 (K3 q (Ho E2))) by done. by apply Zq. }
  assert (forall q, outside end_ k0 free0 pg q -> outside end_ k3 free3 pg q /\ page_same (ram k0) (ram k3) q) as Hkeep.
  { intros q Hq. destruct (gw_keep _ _ _ _ _ _ _ _ G q Hq) as [Hq1 E1]. destruct (K3 q Hq1) as [Hq3 E3].
    split; [done|]. intros x Hx. rewrite E3, E1; done. }
  assert (use_lock k3 = use_lock k0) as Hlk by (rewrite (vs_lock _ _ _ _ _ _ V), Lk2; apply G).
  assert (forall x, 0 <= x < 2 ^ 32 -> x / 4096 = a / 4096 <-> a <= x < a + 4096) as Hpg
    by (intros x Hx; Z.to_euclidean_division_equations; lia).
  destruct Hr as [[-> En3]|(-> & -> & Ap3 & En3)]; [left|right]; split; try done.
  - assert (forall x, 0 <= x < 2 ^ 32 -> ~ (a <= x < a + 4096) -> entry (ram k3) pg x = entry (ram k) pg x) as Enn.
    { intros x Hx N. rewrite En3, En2 by done. destruct (Z.eqb_spec (x / 4096) (a / 4096)) as [E|]; [|done]. by apply Hpg in E. }
    assert (forall x, a <= x < a + 4096 -> entry (ram k3) pg x = fresh_entry p) as Enp.
    { intros x Hx. assert (0 <= x < 2 ^ 32) as Hxr by (vm_const; lia). rewrite En3 by done.
      by rewrite (proj2 (Z.eqb_eq _ _)) by by apply Hpg. }
    split; try done.
    + intros va Hva Hn. rewrite Enn by (done || lia). apply (gw_same _ _ _ _ _ _ _ _ G); [done|lia].
    + intros va Hva. destruct (decide (va < a)) as [Hlt|Hge].
      * destruct (Hnew va ltac:(lia)) as (q & Pq & Hq & Eq & Zq). exists q. rewrite Enn by (vm_const; lia). done.
      * exists p. split; [done|]. split; [done|]. split; [apply Enp; lia|]. intros x Hx. rewrite Ep by done. by apply Hz.
    + intros q. rewrite (Hfree q) at 1. destruct (fresh_entry_fields p Pp) as (_ & _ & E3 & _). split.
      * intros [?|[->|[?|(va & Hva & E)]]]; [by left| |by right; right; left|].
        -- right. right. right. exists a. split; [lia|]. unfold upage. rewrite Enp by lia. done.
        -- right. right. right. exists va. split; [lia|]. unfold upage. rewrite Enn by (vm_const; lia). done.
      * intros [?|[?%not_elem_of_nil|[?|(va & Hva & E)]]]; [by left|done|by right; right; left|].
        destruct (decide (va < a)) as [Hlt|Hge].
        -- right. right. right. exists va. split; [lia|]. rewrite <- E. unfold upage. rewrite Enn by (vm_const; lia). done.
        -- right. left. rewrite <- E. unfold upage. rewrite Enp by lia. done.
  - split; [|done]. assert (forall x, 0 <= x < 2 ^ 32 -> entry (ram k3) pg x = entry (ram k) pg x) as Enn.
    { intros x Hx. by rewrite En3, En2. }
    split; try done.
    + intros va Hva Hn. rewrite Enn by done. by apply (gw_same _ _ _ _ _ _ _ _ G).
    + intros va Hva. destruct (Hnew va Hva) as (q & Pq & Hq & Eq & Zq). exists q. rewrite Enn by (vm_const; lia). done.
    + intros q. rewrite (Hfree q) at 1. rewrite list_elem_of_singleton. split; (intros [?|[?|[?|(va & Hva & E)]]]; [by left|by right; left|by right; right; left|]);
        right; right; right; exists va; (split; [done|]); unfold upage in *; [rewrite Enn by (vm_const; lia)|rewrite Enn in E by (vm_const; lia)]; done.
Qed.

(** The address space is as it was; what was taken is free again, or holds
    page tables. *)
Record restored k0 free0 pg (ex : list Z) k free : Prop := {
  rs_ok : uvm_ok k free pg;
  rs_present va : 0 <= va < 2 ^ 32 -> present (entry (ram k) pg va) = present (entry (ram k0) pg va);
  rs_entry va : 0 <= va < 2 ^ 32 -> present (entry (ram k0) pg va) = true -> entry (ram k) pg va = entry (ram k0) pg va;
  rs_keep p : outside end_ k0 free0 pg p -> outside end_ k free pg p /\ page_same (ram k0) (ram k) p;
  rs_free p : p ∈ free0 <-> p ∈ free \/ p ∈ ex \/ (p ∈ free0 /\ is_tab k pg p);
  rs_lock : use_lock k = use_lock k0 }.

Lemma shrink_back k0 free0 pg a0 a ex k free top k' free' :
  grown k0 free0 pg a0 a ex k free -> 0 <= a0 <= a -> a mod 4096 = 0 -> a <= top -> top <= KERNBASE ->
  (forall va, a0 <= va -> va / 4096 * 4096 < top -> present (entry (ram k0) pg va) = false) ->
  unmapped k free pg a0 top k' free' -> restored k0 free0 pg ex k' free'.
Proof.
  intros [U Sm Nw K F Lk] Ha Hal Hat Ht Hno [U' G' S' F' K' T' Lk'].
  assert (forall va, 0 <= va < KERNBASE -> in_pages a0 top va -> present (entry (ram k) pg va) = true -> va < a) as Hin.
  { intros va Hva [H1 H2] Hpr. destruct (decide (va < a)); [done|]. exfalso. rewrite Sm in Hpr by (by apply user_range || lia).
    rewrite Hno in Hpr; done. }
  assert (forall va, 0 <= va < 2 ^ 32 -> in_pages a0 top va -> present (entry (ram k0) pg va) = false) as Hno0.
  { intros va Hva [H1 H2]. by apply Hno. }
  assert (forall va, in_pages a0 top va -> va < KERNBASE) as Hlow.
  { intros va [H1 H2]. vm_const. Z.to_euclidean_division_equations. lia. }
  assert (forall va, 0 <= va < 2 ^ 32 -> ~ in_pages a0 top va -> entry (ram k') pg va = entry (ram k0) pg va) as Eout.
  { intros va Hva Hn. rewrite S' by done. apply Sm; [done|]. intros Hi. apply Hn. split; [lia|].
    Z.to_euclidean_division_equations. lia. }
  assert (forall va, {in_pages a0 top va} + {~ in_pages a0 top va}) as Hdec by (intros va; apply (decide _)).
  split.
  - done.
  - intros va Hva. destruct (Hdec va) as [Hi|Hn]; [|by rewrite Eout].
    rewrite Hno0 by done. apply G'; [|done]. pose proof (Hlow va Hi). lia.
  - intros va Hva Hpr. destruct (Hdec va) as [Hi|Hn]; [|by rewrite Eout]. rewrite Hno0 in Hpr; done.
  - intros p Hp. destruct (K p Hp) as [Hp1 E1]. destruct (K' p Hp1) as [Hp2 E2].
    { intros va Hva Hi Hpr E. pose proof (Hin va Hva Hi Hpr) as Hlt. destruct (Nw va) as (q & Pq & Hq & Eq & _).
      { destruct Hi. lia. }
      unfold upage in E. rewrite Eq in E. destruct (fresh_entry_fields q Pq) as (_ & _ & E3 & _). rewrite E3 in E. subst q.
      destruct Hp as (_ & Hnf & _). done. }
    split; [done|]. intros x Hx. rewrite E2, E1; done.
  - intros p. rewrite F at 1. rewrite F'. setoid_rewrite T'. split.
    + intros [?|[?|[?|(va & Hva & E)]]]; [tauto|tauto|tauto|]. left. right. exists va. split; [lia|].
      split; [split; [lia|Z.to_euclidean_division_equations; lia]|]. split; [|done].
      destruct (Nw va Hva) as (q & Pq & _ & Eq & _). rewrite Eq. by apply fresh_entry_fields.
    + intros [[?|(va & Hva & Hi & Hpr & E)]|[?|?]]; [tauto| |tauto|tauto]. right. right. right. exists va.
      split; [|done]. split; [apply Hi|by apply Hin].
  - congruence.
Qed.

Lemma kfree_restored k0 free0 pg p k free :
  restored k0 free0 pg [p] k free -> outside end_ k free pg p ->
  (forall va, 0 <= va < KERNBASE -> present (entry (ram k) pg va) = true -> upage (ram k) pg va <> p) ->
  ~ outside end_ k0 free0 pg p ->
  restored k0 free0 pg [] (Kmem (use_lock k) p (junk_page (ram k) p (freelist k))) (p :: free).
Proof.
  intros [U Pr En K F Lk] Ho Na No. destruct (kfree_outside k free pg p (uo_dir _ _ _ U) Ho) as (P1 & En1 & K1 & T1).
  set (k1 := Kmem _ _ _) in *. split.
  - eapply uvm_ok_kept; [done|done|by intros|]. intros va Hva Hpr. apply K1; [by apply U|by apply Na].
  - intros va Hva. rewrite En1. by apply Pr.
  - intros va Hva Hpr. rewrite En1. by apply En.
  - intros q Hq. destruct (K q Hq) as [Hq1 E1]. destruct (K1 q Hq1) as [Hq2 E2]; [by intros ->|].
    split; [done|]. intros x Hx. rewrite E2, E1; done.
  - intros q. rewrite F at 1. rewrite T1, !elem_of_cons, !elem_of_nil. tauto.
  - done.
Qed.

(** A list of page tables, of the pages [ex] and of the user pages of a range is
    not longer than these are many. *)
Lemma pages_bound k pg a0 a ex (l : list Z) :
  NoDup l -> 0 <= a0 -> a0 mod 4096 = 0 -> a < 2 ^ 32 ->
  (forall p, p ∈ l -> is_tab k pg p \/ p ∈ ex \/ exists va, a0 <= va < a /\ upage (ram k) pg va = p) ->
  Z.of_nat (length l) <= 1024 + Z.of_nat (length ex) + Z.max 0 ((a - a0 + 4095) / 4096).
Proof.
  intros Hnd H0 Hal Ha Hl.
  set (c := map (tab (ram k) pg) (seqZ 0 1024) ++ ex ++ map (fun i => upage (ram k) pg (a0 + 4096 * i)) (seqZ 0 ((a - a0 + 4095) / 4096))).
  assert (l ⊆+ c) as Hs%submseteq_length.
  { apply NoDup_submseteq; [done|]. intros p Hp. unfold c. rewrite !elem_of_app. destruct (Hl p Hp) as [(i & Hi & _ & E)|[?|(va & Hva & E)]].
    - left. apply list_elem_of_fmap. exists i. split; [done|]. apply elem_of_seqZ. lia.
    - by right; left.
    - right. right. apply list_elem_of_fmap. exists ((va - a0) / 4096). split.
      + rewrite <- E. unfold upage. f_equal. f_equal. apply entry_page; Z.to_euclidean_division_equations; lia.
      + apply elem_of_seqZ. Z.to_euclidean_division_equations. lia. }
  unfold c in Hs. rewrite !length_app, !length_map, !length_seqZ in Hs. lia.
Qed.

Lemma alloc_loop_runs t h w pg oldsz newsz k0 free0 fuel : NoDup free0 -> forall k free a,
  let a0 := PGROUNDUP oldsz in
  0 <= oldsz <= newsz -> newsz < KERNBASE -> Lkmem ∉ h ->
  (forall va, a0 <= va -> va / 4096 * 4096 < newsz -> present (entry (ram k0) pg va) = false) ->
  grown k0 free0 pg a0 a [] k free -> a0 <= a -> a mod 4096 = 0 -> newsz <= a + 4096 * Z.of_nat fuel ->
  a <= (newsz + 4095) / 4096 * 4096 \/ a = a0 ->
  exists r k' free', alloc_loop end_ fuel pg a oldsz newsz (Ctx t h w) k = Ret r (Ctx t h w) k' /\
    (r = newsz /\ grown k0 free0 pg a0 (Z.max a ((newsz + 4095) / 4096 * 4096)) [] k' free' \/
     r = 0 /\ restored k0 free0 pg [] k' free' /\ Z.of_nat (length free0) <= 1024 + ((newsz + 4095) / 4096 * 4096 - a0) / 4096).
Proof.
  intros Hnd0. induction fuel as [|fuel IH]; intros k free a a0 Ho Hn Hh Hno G Ha Hal Hf Hlast; cbn [alloc_loop];
    (destruct (Z.leb_spec newsz a) as [Hle|Hlt];
      [exists newsz, k, free; split; [done|]; left; split; [done|]; rewrite Z.max_l by (Z.to_euclidean_division_equations; lia); done|]);
    [lia|].
  assert (0 <= a0) as Ha00 by (unfold a0; rewrite PGROUNDUP_div by lia; Z.to_euclidean_division_equations; lia).
  pose proof (gw_ok _ _ _ _ _ _ _ _ G) as U.
  assert (a0 mod 4096 = 0) as Ha0m by (unfold a0; rewrite PGROUNDUP_div by lia; apply Z.mod_mul; lia).
  assert (oldsz < newsz) as Hon by (assert (oldsz <= a0) by (unfold a0; rewrite PGROUNDUP_div by lia; Z.to_euclidean_division_equations; lia); lia).
  destruct free as [|p free].
  - destruct (kalloc_empty t h w k pg U Hh) as (k1 & R1 & U1 & Em & Eu). run R1. cbn [Z.eqb].
    assert (grown k0 free0 pg a0 a [] k1 []) as G1.
    { destruct G as [_ G2 G3 G4 G5 G6]. split; unfold is_tab, outside, upage in *; rewrite ?Em; try done. by rewrite Eu. }
    destruct (deallocuvm_runs t h w k1 [] pg newsz oldsz U1 Hh ltac:(lia) ltac:(lia)) as (k2 & free2 & R2 & Un). run R2.
    exists 0, k2, free2. split; [done|]. right. split; [done|]. split;
      [|etransitivity; [apply (pages_bound k1 pg a0 a []); [exact Hnd0|done|done|vm_const; lia|]|cbn [length]; Z.to_euclidean_division_equations; lia];
        intros q Hq; rewrite (gw_free _ _ _ _ _ _ _ _ G1), elem_of_nil in Hq; tauto].
    eapply (shrink_back k0 free0 pg a0 a [] k1 [] newsz); try done; lia.
  - destruct (zero_page p) as (Z1 & Z2 & Z3). { pose proof (po_free _ _ _ _ (uo_dir _ _ _ U)) as [(_ & Pp & _) _]. done. }
    destruct (kalloc_fill t h w k p free pg (fun m => memset m p 0 PGSIZE) U Hh Z1 Z2) as (k1 & R1 & Pp & Em & R2 & U2 & Ap & En & K & Lk & T).
    run R1. pose proof (page_pos end_ p Pp) as Hpos. destruct (Z.eqb_spec p 0); [lia|]. run R2.
    set (k2 := Kmem _ _ _) in *. run (v2p_page p (Ctx t h w) k2 Pp).
    assert (present (entry (ram k) pg a) = false) as Hpa.
    { rewrite (gw_same _ _ _ _ _ _ _ _ G) by (vm_const; lia). apply Hno; [lia|]. Z.to_euclidean_division_equations. lia. }
    destruct (map_page t h w k2 free pg p a (Z.lor PTE_W PTE_U) U2 Ap Hh Hal ltac:(lia) ltac:(by rewrite En) ltac:(done))
      as (r & k3 & free3 & R3 & V & U3 & Hr). run R3.
    destruct (grown_step k0 free0 pg a0 a k p free k2 k3 free3 r) as [[-> G3]|(-> & G3 & Ap3)]; try done; try lia.
    { intros x Hx. cbn. by apply Z3. }
    + cbn [Z.ltb Z.compare]. assert (u32 (a + PGSIZE) = a + 4096) as -> by (rewrite u32_small; [done|vm_const; lia]).
      destruct (IH k3 free3 (a + 4096)) as (r & k4 & free4 & R4 & Hr4); try done; try lia.
      { Z.to_euclidean_division_equations. lia. } { left. Z.to_euclidean_division_equations. lia. }
      exists r, k4, free4. split; [done|]. fold a0 in Hr4. destruct Hr4 as [[-> G4]|?]; [left|by right]. split; [done|].
      rewrite Z.max_r in G4 by (Z.to_euclidean_division_equations; lia). rewrite Z.max_r by (Z.to_euclidean_division_equations; lia). done.
    + cbn [Z.ltb Z.compare].
      destruct (deallocuvm_runs t h w k3 free3 pg newsz oldsz U3 Hh ltac:(lia) ltac:(lia)) as (k4 & free4 & R4 & Un). run R4.
      pose proof (shrink_back k0 free0 pg a0 a [p] k3 free3 newsz k4 free4 G3 ltac:(lia) Hal ltac:(lia) ltac:(lia) Hno Un) as Rs.
      destruct (un_keep _ _ _ _ _ _ _ Un p) as [Ho4 E4]; [apply Ap3|intros va Hva _; by apply Ap3|].
      run (kfree_runs end_ p t h w k4 Pp Hh). eexists 0, _, _. split; [done|]. right. split; [done|]. split;
        [|etransitivity; [apply (pages_bound k3 pg a0 a [p]); [exact Hnd0|done|done|vm_const; lia|]|cbn [length]; Z.to_euclidean_division_equations; lia];
          intros q Hq; rewrite (gw_free _ _ _ _ _ _ _ _ G3) in Hq; destruct Hr as [[? _]|(_ & -> & _)]; [done|]; rewrite elem_of_nil in Hq; tauto].
      apply kfree_restored; [done|done| |].
      * intros va Hva Hpr E. destruct (decide (in_pages (PGROUNDUP oldsz) newsz va)) as [Hi|Hi].
        -- by rewrite (un_gone _ _ _ _ _ _ _ Un) in Hpr.
        -- unfold upage in E. rewrite (un_same _ _ _ _ _ _ _ Un) in Hpr, E by (by apply user_range || done).
           by apply (proj2 Ap3 va Hva Hpr).
      * intros (_ & Hp0 & _). apply Hp0. apply (gw_free _ _ _ _ _ _ _ _ G). left. left.
Qed.

Lemma allocuvm_runs t h w k free pg oldsz newsz :
  uvm_ok k free pg -> Lkmem ∉ h -> 0 <= oldsz <= newsz -> newsz < KERNBASE ->
  (forall va, PGROUNDUP oldsz <= va -> va / 4096 * 4096 < newsz -> present (entry (ram k) pg va) = false) ->
  exists r k' free', allocuvm end_ pg oldsz newsz (Ctx t h w) k = Ret r (Ctx t h w) k' /\
    (r = newsz /\ grown k free pg (PGROUNDUP oldsz) (Z.max (PGROUNDUP oldsz) (PGROUNDUP newsz)) [] k' free' \/
     r = 0 /\ restored k free pg [] k' free' /\ Z.of_nat (length free) <= 1024 + (PGROUNDUP newsz - PGROUNDUP oldsz) / 4096).
Proof.
  intros U Hh Ho Hn Hno. unfold allocuvm. destruct (Z.leb_spec KERNBASE newsz); [lia|]. destruct (Z.ltb_spec newsz oldsz); [lia|].
  rewrite (PGROUNDUP_div newsz) by lia. apply (alloc_loop_runs t h w pg oldsz newsz k free _ (proj2 (po_free _ _ _ _ (uo_dir _ _ _ U))) k free (PGROUNDUP oldsz)); try done.
  - by apply grown_refl.
  - rewrite PGROUNDUP_div by lia. apply Z.mod_mul. lia.
  - rewrite PGROUNDUP_div by lia. vm_const. rewrite Z2Nat.id by (Z.to_euclidean_division_equations; lia). Z.to_euclidean_division_equations. lia.
  - by right.
Qed.

(** C8: [allocuvm] grows a process or leaves it as it was.  On success every page
    from the old size to the new one is mapped, writable and user-accessible, to
    a page of its own taken from the free list and filled with zeros; on
    failure, which happens only when the free list does not have the pages to
    map and 1024 more for page tables, the result is 0, every mapping is what it
    was, and each page taken is free again unless it holds a page table.
    Nothing else changes:
    the entries elsewhere, and the contents of every page that was not free. *)
Theorem allocuvm_grows_or_restores t h w k free pg oldsz newsz :
  uvm_ok k free pg -> Lkmem ∉ h -> 0 <= oldsz <= newsz -> newsz < KERNBASE ->
  (forall va, PGROUNDUP oldsz <= va -> va / 4096 * 4096 < newsz -> present (entry (ram k) pg va) = false) ->
  exists r k' free', allocuvm end_ pg oldsz newsz (Ctx t h w) k = Ret r (Ctx t h w) k' /\
    (r = newsz /\ grown k free pg (PGROUNDUP oldsz) (Z.max (PGROUNDUP oldsz) (PGROUNDUP newsz)) [] k' free' \/
     r = 0 /\ restored k free pg [] k' free' /\ Z.of_nat (length free) <= 1024 + (PGROUNDUP newsz - PGROUNDUP oldsz) / 4096).
Proof. apply allocuvm_runs. Qed.

(** [deallocuvm] unmaps and frees the user pages between the two sizes, and
    nothing else: what becomes free are exactly the pages that were mapped
    there, all other entries are unchanged and so are all other pages. *)
Theorem deallocuvm_frees_pages t h w k free pg oldsz newsz :
  uvm_ok k free pg -> Lkmem ∉ h -> 0 <= newsz < oldsz -> oldsz <= KERNBASE ->
  exists k' free', deallocuvm end_ pg oldsz newsz (Ctx t h w) k = Ret newsz (Ctx t h w) k' /\
    unmapped k free pg (PGROUNDUP newsz) oldsz k' free'.
Proof. apply deallocuvm_runs. Qed.

End uvm.
