(* ===== verification/Copyuvm.v ===== *)
(** Whole address spaces of vm.c: [freevm] gives back every page, [setupkvm]
    builds the kernel's part, [copyuvm] copies a process for [fork], [copyout]
    stores into one. *)

From stdpp Require Import functions base numbers list strings.
From S2P Require Import Xv6 Prelude Kstring Kalloc Vm PageTable Uvm.

Section vm.
Variable end_ : Z.
Hypothesis Hend : KERNBASE + EXTMEM <= end_.
Implicit Types (k : kmem) (free : list Z) (pg : Z) (t : thread) (w : list chan) (h : list lockid).

(** ** [freevm] *)

Lemma freevm_loop_runs t h w pg m1 n : forall k fr i,
  represents end_ k fr -> Lkmem ∉ h -> page end_ pg -> page_same m1 (ram k) pg -> 0 <= i -> i + Z.of_nat n <= 1024 ->
  (forall d, i <= d < i + Z.of_nat n -> present (dirent m1 pg d) = true ->
    page end_ (tab m1 pg d) /\ (tab m1 pg d ∉ fr) /\ tab m1 pg d <> pg) ->
  (forall d d', i <= d < i + Z.of_nat n -> i <= d' < i + Z.of_nat n -> present (dirent m1 pg d) = true ->
    present (dirent m1 pg d') = true -> tab m1 pg d = tab m1 pg d' -> d = d') ->
  exists k' fr', freevm_loop end_ n pg i (Ctx t h w) k = Ret tt (Ctx t h w) k' /\ represents end_ k' fr' /\
    (forall p, p ∈ fr' <-> p ∈ fr \/ exists d, i <= d < i + Z.of_nat n /\ present (dirent m1 pg d) = true /\ tab m1 pg d = p) /\
    (forall p, page end_ p -> p ∉ fr' -> page_same (ram k) (ram k') p) /\ (wf_mem (ram k) -> wf_mem (ram k')) /\
    use_lock k' = use_lock k.
Proof.
  induction n as [|n IH]; intros k fr i Hr Hh Ppg Hpg Hi Hn Ht Hinj; cbn [freevm_loop].
  { exists k, fr. split; [done|]. split; [done|]. split; [|done].
    intros p. split; [by left|]. intros [?|(d & ? & _)]; [done|lia]. }
  destruct (page_aligned end_ pg Ppg) as [_ Hpr]. assert (pg + 4 * i <> 0) as Ha by (vm_const; lia).
  run (peek_runs (pg + 4 * i) (Ctx t h w) k Ha). fold (dirent (ram k) pg i).
  rewrite (dirent_same m1 (ram k)) by (done || lia).
  assert (forall d d', i + 1 <= d < i + 1 + Z.of_nat n -> i + 1 <= d' < i + 1 + Z.of_nat n -> present (dirent m1 pg d) = true ->
    present (dirent m1 pg d') = true -> tab m1 pg d = tab m1 pg d' -> d = d') as Hinj' by (intros; apply Hinj; done || lia).
  destruct (present (dirent m1 pg i)) eqn:Hp.
  - destruct (Ht i ltac:(lia) Hp) as (Pt & Nt & Npg). rewrite bind_assoc.
    run (p2v_page end_ (dirent m1 pg i) (Ctx t h w) k Pt). fold (tab m1 pg i). set (v := tab m1 pg i) in *.
    run (kfree_runs end_ v t h w k Pt Hh). set (k1 := Kmem _ _ _).
    destruct (IH k1 (v :: fr) (i + 1)) as (k' & fr' & R & Hr' & Hf & Hs & Hw & Lk); try done; try lia.
    { by apply represents_free. }
    { intros x Hx. cbn. rewrite junk_page_other; [by apply Hpg|]. by apply (page_disjoint end_ pg v). }
    { intros d Hd Hpd. destruct (Ht d ltac:(lia) Hpd) as (H1 & H2 & H3). split; [done|]. split; [|done].
      apply not_elem_of_cons. split; [|done]. intros E. assert (d = i); [|lia]. by apply Hinj; try lia. }
    exists k', fr'. split; [done|]. split; [done|]. split; [|split; [|split; [|done]]].
    + intros p. rewrite Hf, elem_of_cons. split.
      * intros [[->|?]|(d & Hd & ?)]; [right; exists i; split; [lia|done]|by left|right; exists d; split; [lia|done]].
      * intros [?|(d & Hd & Hpd & E)]; [by left; right|]. destruct (decide (d = i)) as [->|N]; [by left; left|].
        right. exists d. split; [lia|done].
    + intros p Pp Np x Hx. rewrite Hs by done. cbn. apply junk_page_other. apply (page_disjoint end_ p v x Pp Pt); [|done].
      intros ->. apply Np, Hf. left. left.
    + intros Hwf. apply Hw. by apply wf_junk.
  - mstep. destruct (IH k fr (i + 1)) as (k' & fr' & R & Hr' & Hf & Hs & Hw & Lk); try done; try lia.
    { intros d Hd. apply Ht. lia. }
    exists k', fr'. split; [done|]. split; [done|]. split; [|done].
    intros p. rewrite Hf. split; (intros [?|(d & Hd & Hpd & E)]; [by left|right]); exists d; (split; [|done]); [lia|].
    destruct (decide (d = i)) as [->|N]; [congruence|lia].
Qed.

(** A page of the address space of [pg]. *)
Definition owned k pg (p : Z) : Prop :=
  p = pg \/ is_tab k pg p \/ exists va, 0 <= va < KERNBASE /\ present (entry (ram k) pg va) = true /\ upage (ram k) pg va = p.

Lemma freevm_runs t h w k free pg :
  uvm_ok end_ k free pg -> Lkmem ∉ h ->
  exists k' free', freevm end_ pg (Ctx t h w) k = Ret tt (Ctx t h w) k' /\ represents end_ k' free' /\
    (forall p, p ∈ free' <-> p ∈ free \/ owned k pg p) /\
    (forall p, page end_ p -> p ∉ free -> ~ owned k pg p -> page_same (ram k) (ram k') p) /\
    wf_mem (ram k') /\ use_lock k' = use_lock k.
Proof.
  intros U Hh. pose proof (uo_dir _ _ _ _ U) as P. pose proof (po_page _ _ _ _ P) as Ppg. pose proof (page_pos end_ pg Ppg) as Hpos.
  unfold freevm. destruct (Z.eqb_spec pg 0); [lia|].
  destruct (deallocuvm_runs end_ Hend t h w k free pg KERNBASE 0 U Hh ltac:(vm_const; lia) ltac:(lia)) as (k1 & free1 & R1 & Un).
  run R1. change (PGROUNDUP 0) with 0 in Un. pose proof (un_ok _ _ _ _ _ _ _ _ Un) as U1. pose proof (uo_dir _ _ _ _ U1) as P1.
  destruct (freevm_loop_runs t h w pg (ram k1) (Z.to_nat NPDENTRIES) k1 free1 0) as (k2 & free2 & R2 & Hr2 & Hf2 & Hs2 & Hw2 & Lk2); try done.
  { apply P1. } { intros d Hd. apply (po_tab _ _ _ _ P1). change (Z.of_nat (Z.to_nat NPDENTRIES)) with 1024 in Hd. lia. }
  { intros d d' Hd Hd'. change (Z.of_nat (Z.to_nat NPDENTRIES)) with 1024 in *. apply (po_inj _ _ _ _ P1); lia. }
  run R2.
  assert (pg ∉ free2) as Npg.
  { rewrite Hf2. intros [H|(d & Hd & Hp & E)]; [by apply (po_notfree _ _ _ _ P1)|].
    change (Z.of_nat (Z.to_nat NPDENTRIES)) with 1024 in Hd. by apply (po_tab _ _ _ _ P1 d). }
  assert (forall p, p ∈ free2 <-> p ∈ free \/ is_tab k pg p \/
    exists va, 0 <= va < KERNBASE /\ present (entry (ram k) pg va) = true /\ upage (ram k) pg va = p) as Hf.
  { intros p. rewrite Hf2, (un_free _ _ _ _ _ _ _ _ Un). rewrite <- (un_tab _ _ _ _ _ _ _ _ Un). unfold is_tab.
    change (Z.of_nat (Z.to_nat NPDENTRIES)) with 1024. split.
    - intros [[?|(va & Hva & _ & Hp & E)]|(d & Hd & H1 & H2)]; [by left|right; right; by exists va|right; left; exists d; split; [lia|done]].
    - intros [?|[(d & Hd & H1 & H2)|(va & Hva & Hp & E)]]; [by left; left|right; exists d; split; [lia|done]|left; right].
      exists va. split; [done|]. split; [|done]. split; [lia|]. vm_const. Z.to_euclidean_division_equations. lia. }
  exists (Kmem (use_lock k2) pg (junk_page (ram k2) pg (freelist k2))), (pg :: free2).
  split; [by rewrite (kfree_runs end_ pg t h w k2 Ppg Hh)|]. split; [by apply represents_free|]. split; [|split; [|split]].
  - intros p. rewrite elem_of_cons, Hf. unfold owned. tauto.
  - intros p Pp Np No x Hx. cbn. rewrite junk_page_other.
    + rewrite Hs2; [|done| |done].
      * destruct (un_keep _ _ _ _ _ _ _ _ Un p) as [_ E]; [| |by apply E].
        -- split; [done|]. split; [done|]. split; [intros ->; apply No; by left|]. intros d Hd Hp E. apply No. right. left. by exists d.
        -- intros va Hva _ Hp E. apply No. right. right. by exists va.
      * rewrite Hf. intros [?|H]; [done|]. apply No. by right.
    + apply (page_disjoint end_ p pg x Pp Ppg); [|done]. intros ->. apply No. by left.
  - apply wf_junk, Hw2, P1.
  - cbn. rewrite Lk2. apply Un.
Qed.

(** ** Address spaces built from the free list *)

(** Directory [d] and all its pages came from the free list [free0] of [k0], and
    no other page changed; the pages [ex] are taken but not part of it. *)
Record built k0 free0 d (ex : list Z) k free : Prop := {
  bt_ok : uvm_ok end_ k free d;
  bt_free p : p ∈ free0 <-> p ∈ free \/ p ∈ ex \/ owned k d p;
  bt_keep p : page end_ p -> p ∉ free0 -> page_same (ram k0) (ram k) p;
  bt_lock : use_lock k = use_lock k0 }.

(** Everything is back on the free list. *)
Record undone k0 free0 k free : Prop := {
  ud_free : represents end_ k free;
  ud_same p : p ∈ free <-> p ∈ free0;
  ud_keep p : page end_ p -> p ∉ free0 -> page_same (ram k0) (ram k) p;
  ud_wf : wf_mem (ram k);
  ud_lock : use_lock k = use_lock k0 }.

Lemma owned_same k k' d q :
  (is_tab k' d q <-> is_tab k d q) -> (forall va, 0 <= va < KERNBASE -> entry (ram k') d va = entry (ram k) d va) ->
  owned k' d q <-> owned k d q.
Proof.
  intros T En. unfold owned. rewrite T. unfold upage.
  split; (intros [?|[?|(va & Hva & Hp & E)]]; [by left|by right; left|right; right; exists va]).
  - rewrite En in Hp, E by done. done.
  - rewrite En by done. done.
Qed.

Lemma built_freevm t h w k0 free0 d k free : built k0 free0 d [] k free -> Lkmem ∉ h ->
  exists k' free', freevm end_ d (Ctx t h w) k = Ret tt (Ctx t h w) k' /\ undone k0 free0 k' free'.
Proof.
  intros B Hh. destruct (freevm_runs t h w k free d (bt_ok _ _ _ _ _ _ B) Hh) as (k' & free' & R & Hr & Hf & Hs & Hw & Lk).
  exists k', free'. split; [done|]. split; [done| | |done|by rewrite Lk; apply B].
  - intros p. rewrite Hf, (bt_free _ _ _ _ _ _ B), elem_of_nil. tauto.
  - intros p Pp Np. rewrite (bt_free _ _ _ _ _ _ B), elem_of_nil in Np. intros x Hx.
    rewrite Hs; [|done|tauto|tauto|done]. apply (bt_keep _ _ _ _ _ _ B p Pp); [|done].
    rewrite (bt_free _ _ _ _ _ _ B), elem_of_nil. done.
Qed.

(** The page table grows. *)
Lemma built_vstep k0 free0 d ex k free k' free' :
  built k0 free0 d ex k free -> vstep end_ k free d k' free' -> uvm_ok end_ k' free' d ->
  (forall va, 0 <= va < KERNBASE -> entry (ram k') d va = entry (ram k) d va) -> (forall p, p ∈ ex -> outside end_ k free d p) ->
  built k0 free0 d ex k' free'.
Proof.
  intros B V U' En Hex. pose proof (bt_ok _ _ _ _ _ _ B) as U. destruct (vs_free _ _ _ _ _ _ V) as (l & El & T). split; [done| | |].
  - intros p. rewrite (bt_free _ _ _ _ _ _ B), El, elem_of_app. unfold owned, upage. rewrite T.
    split; (intros [?|[?|[?|[?|(va & Hva & Hp & E)]]]]); try tauto.
    + right. right. right. right. exists va. by rewrite En.
    + right. right. right. right. exists va. rewrite En in Hp, E by done. done.
  - intros p Pp Np x Hx. pose proof Np as Np'. rewrite (bt_free _ _ _ _ _ _ B) in Np'. unfold owned in Np'.
    destruct (vs_keep _ _ _ _ _ _ V p) as [_ E].
    + split; [done|]. split; [tauto|]. split; [tauto|]. intros i Hi H1 H2. apply Np'. right. right. right. left. by exists i.
    + rewrite E by done. by apply (bt_keep _ _ _ _ _ _ B p).
  - rewrite (vs_lock _ _ _ _ _ _ V). apply B.
Qed.

(** When the list is used up, it was no longer than what is built. *)
Lemma built_bound k0 free0 d ex k free a :
  built k0 free0 d ex k free -> NoDup free0 -> free = [] -> 0 <= a <= KERNBASE ->
  (forall va, a <= va < KERNBASE -> present (entry (ram k) d va) = false) ->
  Z.of_nat (length free0) <= 1025 + Z.of_nat (length ex) + (a + 4095) / 4096.
Proof.
  intros B Hnd -> Ha Hno. pose proof (pages_bound k d 0 a (d :: ex) free0 Hnd) as H. cbn [length] in H.
  replace (a - 0 + 4095) with (a + 4095) in H by lia. rewrite Z.max_r in H by (Z.to_euclidean_division_equations; lia).
  etransitivity; [apply H|lia]; [lia|done|vm_const; lia|]. intros p. rewrite (bt_free _ _ _ _ _ _ B), elem_of_nil, elem_of_cons. unfold owned.
  intros [?|[?|[?|[?|(va & Hva & Hp & E)]]]]; try tauto. right. right. exists va. split; [|done].
  destruct (decide (va < a)); [lia|]. rewrite Hno in Hp; [done|lia].
Qed.

(** ** [setupkvm] *)

(** A zeroed page is an address space with no mappings. *)
Lemma new_dir k k1 d free : represents end_ k (d :: free) -> represents end_ k1 free -> ram k1 = ram k -> wf_mem (ram k) ->
  use_lock k1 = use_lock k ->
  let k2 := Kmem (use_lock k1) (freelist k1) (memset (ram k1) d 0 PGSIZE) in
  built k (d :: free) d [] k2 free /\ (forall va, entry (ram k2) d va = 0) /\ forall p, ~ is_tab k2 d p.
Proof.
  intros [Hl Hnd] [Hl1 _] Em Hw Lk k2. destruct Hl as (_ & Pd & Hl). apply NoDup_cons in Hnd as [Nd Hnd].
  destruct (zero_page end_ d Pd) as (Z1 & Z2 & Z3).
  assert (forall i, 0 <= i < 1024 -> present (dirent (ram k2) d i) = false) as Hno.
  { intros i Hi. unfold dirent, k2. cbn. by rewrite load32_zero by lia. }
  assert (forall va, entry (ram k2) d va = 0) as He.
  { intros va. unfold entry. by rewrite Hno by apply PDX_range. }
  split; [|split; [done|intros p (i & Hi & Hp & _); by rewrite Hno in Hp]]. split.
  - split; [|intros va _; rewrite He; done|intros va va' _ _; rewrite He; done]. split; try done.
    + split; [|done]. cbn. eapply linked_frame; [exact Pd|done| |exact Hl1]. intros x Hx. by apply Z1.
    + cbn. apply Z2. by rewrite Em.
    + intros i Hi. by rewrite Hno.
    + intros i i' Hi _. by rewrite Hno.
  - intros p. rewrite elem_of_cons, elem_of_nil. unfold owned. split.
    + intros [->|?]; tauto.
    + intros [?|[?|[->|[(i & Hi & Hp & _)|(va & _ & Hp & _)]]]]; [tauto|done|tauto|by rewrite Hno in Hp|by rewrite He in Hp].
  - intros p Pp Np x Hx. cbn. rewrite Z1, Em; [done|]. apply not_elem_of_cons in Np as [Np _]. by apply (page_disjoint end_ p d).
  - done.
Qed.

Lemma built_take k0 free0 d k p free k2 :
  built k0 free0 d [] k (p :: free) -> uvm_ok end_ k2 free d -> (forall va, entry (ram k2) d va = entry (ram k) d va) ->
  (forall q, outside end_ k (p :: free) d q -> outside end_ k2 free d q /\ page_same (ram k) (ram k2) q) ->
  use_lock k2 = use_lock k -> (forall q, is_tab k2 d q <-> is_tab k d q) -> built k0 free0 d [p] k2 free.
Proof.
  intros [U F K Lk] U2 En K2 Lk2 T. split; [done| | |congruence].
  - intros q. rewrite F, (owned_same k k2) by auto. rewrite !elem_of_cons, !elem_of_nil. tauto.
  - intros q Pq Nq x Hx. pose proof Nq as Nq'. rewrite F in Nq'. unfold owned, is_tab in Nq'.
    destruct (K2 q) as [_ E]; [|by rewrite E, (K q)]. split; [done|]. split; [tauto|]. split; [tauto|].
    intros i Hi H1 H2. apply Nq'. right. right. right. left. by exists i.
Qed.

Lemma built_map t h w k0 free0 d p k free va e :
  built k0 free0 d [p] k free -> apart end_ k free d p -> Lkmem ∉ h -> va mod 4096 = 0 -> 0 <= va < KERNBASE ->
  present (entry (ram k) d va) = false -> 0 <= e < 4096 ->
  exists r k' free', mappages d va PGSIZE (p - KERNBASE) e (Ctx t h w) k = Ret r (Ctx t h w) k' /\
    (forall q, outside end_ k free d q -> page_same (ram k) (ram k') q) /\
    (r = 0 /\ built k0 free0 d [] k' free' /\ (forall a, 0 <= a < 2 ^ 32 -> entry (ram k') d a =
        if a / 4096 =? va / 4096 then Z.lor (Z.lor (p - KERNBASE) e) PTE_P else entry (ram k) d a) \/
     r = -1 /\ built k0 free0 d [p] k' free' /\ apart end_ k' free' d p /\ free' = [] /\
       forall a, 0 <= a < 2 ^ 32 -> entry (ram k') d a = entry (ram k) d a).
Proof.
  intros B Ap Hh Hal Hva Hno He. pose proof (bt_ok _ _ _ _ _ _ B) as U.
  destruct (map_page end_ t h w k free d p va e U Ap Hh Hal Hva Hno He) as (r & k' & free' & R & V & U' & Hr).
  exists r, k', free'. split; [done|]. split; [intros q Hq; by apply V|].
  destruct Hr as [[-> En]|(-> & Hf & Ap' & En)]; [left|right; split; [done|split; [|done]]].
  - split; [done|]. split; [|done]. destruct (vs_free _ _ _ _ _ _ V) as (l & El & T). destruct Ap as [Ho Na].
    destruct (kernel_page_range end_ p (proj1 Ho)) as (P1 & P2 & P3).
    destruct (entry_fields (p - KERNBASE) e) as (_ & E2 & E3 & _); [done|lia|done|].
    split; [done| | |rewrite (vs_lock _ _ _ _ _ _ V); apply B].
    + intros q. rewrite (bt_free _ _ _ _ _ _ B), El, elem_of_app, elem_of_cons, !elem_of_nil. unfold owned, upage. rewrite T. split.
      * intros [[?|?]|[[->|?]|[?|[?|(a & Ha & Hp & E)]]]]; try tauto; right; right; right; right.
        -- exists va. split; [done|]. rewrite En, Z.eqb_refl by (by apply user_range). split; [done|]. rewrite E3. lia.
        -- exists a. split; [done|]. rewrite En by (by apply user_range). destruct (Z.eqb_spec (a / 4096) (va / 4096)) as [Ea|]; [|done].
           exfalso. rewrite (entry_page _ _ a va) in Hp by (done || by apply user_range). congruence.
      * intros [?|[?|[?|[[?|?]|(a & Ha & Hp & E)]]]]; try tauto. rewrite En in Hp, E by (by apply user_range).
        destruct (Z.eqb_spec (a / 4096) (va / 4096)) as [Ea|]; [rewrite E3 in E; assert (q = p) by lia; tauto|].
        right. right. right. right. by exists a.
    + intros q Pq Nq x Hx. pose proof Nq as Nq'. rewrite (bt_free _ _ _ _ _ _ B) in Nq'. unfold owned, is_tab in Nq'.
      destruct (vs_keep _ _ _ _ _ _ V q) as [_ E]; [|by rewrite E; [apply (bt_keep _ _ _ _ _ _ B q)|]].
      split; [done|]. split; [tauto|]. split; [tauto|]. intros i Hi H1 H2. apply Nq'. right. right. right. left. by exists i.
  - apply (built_vstep k0 free0 d [p] k free); [done|done|done| |].
    + intros a Ha. by apply En, user_range.
    + intros q ->%list_elem_of_singleton. apply Ap.
Qed.

Lemma built_kfree k0 free0 d p k free : built k0 free0 d [p] k free -> apart end_ k free d p -> p ∈ free0 ->
  built k0 free0 d [] (Kmem (use_lock k) p (junk_page (ram k) p (freelist k))) (p :: free).
Proof.
  intros B [Ho Na] Hp0. pose proof (bt_ok _ _ _ _ _ _ B) as U.
  destruct (kfree_outside end_ k free d p (uo_dir _ _ _ _ U) Ho) as (P1 & En1 & K1 & T1). set (k1 := Kmem _ _ _) in *. split.
  - eapply uvm_ok_kept; [done|done|by intros|]. intros va Hva Hpr. apply K1; [by apply U|by apply Na].
  - intros q. rewrite (bt_free _ _ _ _ _ _ B), (owned_same k k1) by auto. rewrite !elem_of_cons, !elem_of_nil. tauto.
  - intros q Pq Nq x Hx. cbn. rewrite junk_page_other; [by apply (bt_keep _ _ _ _ _ _ B q)|].
    apply (page_disjoint end_ q p x Pq (proj1 Ho)); [|done]. by intros ->.
  - apply B.
Qed.

(** The other address space is as it was. *)
Lemma built_parent k0 free0 d ex k free pg : uvm_ok end_ k0 free0 pg -> built k0 free0 d ex k free ->
  pgdir_ok end_ k free pg /\ (forall va, entry (ram k) pg va = entry (ram k0) pg va) /\
  (forall p, outside end_ k0 free0 pg p -> page_same (ram k0) (ram k) p).
Proof.
  intros U B. pose proof (uo_dir _ _ _ _ U) as P.
  assert (forall q, page end_ q -> (q ∉ free0) -> q ∉ free) as Hsub by (intros q _ Nq Hq; apply Nq; rewrite (bt_free _ _ _ _ _ _ B); tauto).
  pose proof (bt_keep _ _ _ _ _ _ B pg (po_page _ _ _ _ P) (po_notfree _ _ _ _ P)) as Hpg.
  assert (forall i, 0 <= i < 1024 -> dirent (ram k) pg i = dirent (ram k0) pg i) as Ed by (intros i Hi; by apply dirent_same).
  split; [|split].
  - split; try apply (bt_ok _ _ _ _ _ _ B); try apply P.
    + apply Hsub; apply P.
    + intros i Hi. unfold tab. rewrite Ed by done. intros Hp. destruct (po_tab _ _ _ _ P i Hi Hp) as (H1 & H2 & H3).
      split; [done|]. split; [|done]. by apply Hsub.
    + intros i i' Hi Hi'. unfold tab. rewrite !Ed by done. by apply (po_inj _ _ _ _ P).
  - intros va. pose proof (PDX_range va) as Hd. pose proof (PTX_range va) as Ht. unfold entry, tab. rewrite Ed by done.
    destruct (present (dirent (ram k0) pg (PDX va))) eqn:Hp; [|done]. destruct (po_tab _ _ _ _ P _ Hd Hp) as (H1 & H2 & H3).
    apply load32_page; [|lia|lia]. by apply (bt_keep _ _ _ _ _ _ B).
  - intros p (Pp & Np & _). by apply (bt_keep _ _ _ _ _ _ B).
Qed.

Section kernel_map.
Variable data : Z.
Hypotheses (Hdata : data mod 4096 = 0) (Hrange : KERNLINK < data < KERNBASE + PHYSTOP).

Definition row_pages (r : kmap_row) : Z := u32 (phys_end r - phys_start r) / 4096.

Definition row_ok (r : kmap_row) : Prop :=
  virt r mod 4096 = 0 /\ phys_start r mod 4096 = 0 /\ KERNBASE <= virt r /\ 0 <= phys_start r /\ 0 <= kperm r < 4096 /\
  u32 (phys_end r - phys_start r) mod 4096 = 0 /\ 0 < row_pages r /\
  virt r + 4096 * row_pages r <= 2 ^ 32 /\ phys_start r + 4096 * row_pages r <= 2 ^ 32.

(** The entries the rows make. *)
Definition rows_map (l : list kmap_row) (f : Z -> Z) : Z -> Z :=
  fold_left (fun f r => map_range (virt r) (phys_start r) (kperm r) (row_pages r) f) l f.

Lemma rows_map_ext va l : forall f g, f va = g va -> rows_map l f va = rows_map l g va.
Proof. induction l as [|a l IH]; intros f g E; cbn [rows_map fold_left]; [done|]. apply IH. unfold map_range. by rewrite E. Qed.

Definition disjoint_rows (r r' : kmap_row) : Prop :=
  virt r + 4096 * row_pages r <= virt r' \/ virt r' + 4096 * row_pages r' <= virt r.

Lemma map_range_user a pa perm n f va : KERNBASE <= a -> va < KERNBASE -> map_range a pa perm n f va = f va.
Proof. intros. unfold map_range. destruct (Z.leb_spec a va); [lia|done]. Qed.

Lemma setup_loop_runs t h w d k0 free0 l : NoDup free0 -> forall k free,
  built k0 free0 d [] k free -> (forall va, 0 <= va < KERNBASE -> present (entry (ram k) d va) = false) -> Lkmem ∉ h -> Forall row_ok l -> ForallOrdPairs disjoint_rows l ->
  (forall r va, r ∈ l -> virt r <= va < virt r + 4096 * row_pages r -> present (entry (ram k) d va) = false) ->
  exists r k' free', setupkvm_loop end_ l d (Ctx t h w) k = Ret r (Ctx t h w) k' /\
    (r = d /\ built k0 free0 d [] k' free' /\ (forall va, 0 <= va < 2 ^ 32 -> entry (ram k') d va = rows_map l (entry (ram k) d) va) \/
     r = 0 /\ undone k0 free0 k' free' /\ Z.of_nat (length free0) <= 1025).
Proof.
  intros Hnd. induction l as [|r l IH]; intros k free B Hu Hh Hok Hdis Hno; cbn [setupkvm_loop].
  { exists d, k, free. split; [done|]. by left. }
  apply Forall_cons in Hok as [(H1 & H2 & H3 & H4 & H5 & H6 & H7 & H8 & H9) Hok].
  inversion Hdis as [|? ? Hd1 Hd2]; subst. pose proof (bt_ok _ _ _ _ _ _ B) as U.
  destruct (mappages_runs end_ t h w d (kperm r) (Z.to_nat (row_pages r - 1)) k free (virt r) (phys_start r))
    as (x & k1 & free1 & j & R & V & Hx & En); try done; try (vm_const; lia).
  { apply U. } { intros a Ha. apply (Hno r a); [left|]. lia. }
  replace (Z.of_nat (Z.to_nat (row_pages r - 1)) + 1) with (row_pages r) in * by lia.
  replace (4096 * row_pages r) with (u32 (phys_end r - phys_start r)) in R by (unfold row_pages; Z.to_euclidean_division_equations; lia).
  run R.
  assert (forall va, 0 <= va < KERNBASE -> entry (ram k1) d va = entry (ram k) d va) as Eu.
  { intros va Hva. rewrite En by (by apply user_range). apply map_range_user; [done|lia]. }
  assert (built k0 free0 d [] k1 free1) as B1.
  { apply (built_vstep k0 free0 d [] k free); [done|done| |done|by intros p ?%not_elem_of_nil].
    eapply uvm_ok_kept; [done|apply V|done|]. intros va Hva Hp. apply V. by apply U. }
  destruct Hx as [[-> ->]|(-> & Hj & Ef)]; cbn [Z.ltb Z.compare].
  - destruct (IH k1 free1) as (y & k2 & free2 & R2 & Hy); try done.
    { intros va Hva. by rewrite Eu, Hu. }
    { intros r' va Hr' Hva. rewrite En; [|apply (list_elem_of_In _ _) in Hr'; pose proof (proj1 (List.Forall_forall _ _) Hok _ Hr') as (? & ? & ? & ? & ? & ? & ? & ? & ?); vm_const; lia].
      unfold map_range. pose proof (proj1 (Forall_forall _ _) Hd1 _ Hr') as Hdd. unfold disjoint_rows in Hdd.
      destruct (Z.leb_spec (virt r) va), (Z.ltb_spec va (virt r + 4096 * row_pages r)); cbn [andb]; try lia; (apply (Hno r'); [by right|done]). }
    exists y, k2, free2. split; [done|]. destruct Hy as [(-> & B2 & E2)|?]; [left|by right]. split; [done|]. split; [done|].
    intros va Hva. rewrite E2 by done. cbn [rows_map fold_left].
    apply rows_map_ext. by apply En.
  - destruct (built_freevm t h w k0 free0 d k1 free1 B1 Hh) as (k2 & free2 & R2 & Ud). run R2.
    exists 0, k2, free2. split; [done|]. right. split; [done|]. split; [done|].
    apply (built_bound k0 free0 d [] k1 free1 0) in B1; [change ((0 + 4095) / 4096) with 0 in B1; cbn [length] in B1; lia|done|done|vm_const; lia|]. intros va Hva. by rewrite Eu, Hu.
Qed.

(** The kernel's part of every address space. *)
Definition kentry : Z -> Z := rows_map (kmap data) (fun _ => 0).

Lemma row_sizes : u32 (EXTMEM - 0) = EXTMEM /\ u32 (data - KERNBASE - (KERNLINK - KERNBASE)) = data - KERNLINK /\
  u32 (PHYSTOP - (data - KERNBASE)) = PHYSTOP + KERNBASE - data /\ u32 (0 - DEVSPACE) = 2 ^ 32 - DEVSPACE.
Proof. split; [done|]. split; [|split; [|done]]; rewrite u32_small by (vm_const; lia); lia. Qed.

Lemma kmap_ok : Forall row_ok (kmap data) /\ ForallOrdPairs disjoint_rows (kmap data).
Proof.
  destruct row_sizes as (E1 & E2 & E3 & E4).
  unfold kmap. split.
  - repeat apply Forall_cons_2; try apply Forall_nil_2; unfold row_ok, row_pages; cbn [virt phys_start phys_end kperm];
      rewrite ?E1, ?E2, ?E3, ?E4; clear E1 E2 E3 E4; vm_const; unfold PTE_W; Z.to_euclidean_division_equations; lia.
  - repeat constructor; unfold disjoint_rows, row_pages; cbn [virt phys_start phys_end kperm];
      rewrite ?E1, ?E2, ?E3, ?E4; clear E1 E2 E3 E4; vm_const; Z.to_euclidean_division_equations; lia.
Qed.

(** The entry of address [va] in a fresh address space: physical memory from
    [KERNBASE] on, the kernel's text read-only, devices at their own addresses,
    nothing for users. *)
Definition kernel_entry (va : Z) : Z :=
  let a := va / 4096 * 4096 in
  if va <? KERNBASE then 0
  else if va <? KERNLINK then a - KERNBASE + (PTE_W + PTE_P)
  else if va <? data then a - KERNBASE + PTE_P
  else if va <? KERNBASE + PHYSTOP then a - KERNBASE + (PTE_W + PTE_P)
  else if va <? DEVSPACE then 0 else a + (PTE_W + PTE_P).

Ltac decide_cmp := match goal with
  | |- context [?a <=? ?b] => first [rewrite (proj2 (Z.leb_le a b)) by lia | rewrite (proj2 (Z.leb_gt a b)) by lia]
  | |- context [?a <? ?b] => first [rewrite (proj2 (Z.ltb_lt a b)) by lia | rewrite (proj2 (Z.ltb_ge a b)) by lia]
  end; cbn [andb].

Lemma kentry_spec va : 0 <= va < 2 ^ 32 -> kentry va = kernel_entry va.
Proof.
  intros Hva. unfold kentry, rows_map, kmap, row_pages. cbn [fold_left virt phys_start phys_end kperm].
  destruct row_sizes as (-> & -> & -> & ->). unfold map_range, kernel_entry.
  replace (4096 * (EXTMEM / 4096)) with EXTMEM by done.
  replace (4096 * ((data - KERNLINK) / 4096)) with (data - KERNLINK) by (vm_const; Z.to_euclidean_division_equations; lia).
  replace (4096 * ((PHYSTOP + KERNBASE - data) / 4096)) with (PHYSTOP + KERNBASE - data) by (vm_const; Z.to_euclidean_division_equations; lia).
  replace (4096 * ((2 ^ 32 - DEVSPACE) / 4096)) with (2 ^ 32 - DEVSPACE) by done.
  pose proof (Z.div_mod va 4096 ltac:(lia)) as Hd. pose proof (Z.mod_pos_bound va 4096 ltac:(lia)) as Hb.
  assert (va / 4096 * 4096 mod 4096 = 0) as Ha by (apply Z.mod_mul; lia). set (a := va / 4096 * 4096) in *.
  assert (a <= va < a + 4096) as Hav by lia. clear Hd Hb. clearbody a.
  change (PTE_W + PTE_P) with (Z.lor PTE_W PTE_P). change (Z.lor 0 PTE_P) with PTE_P. vm_const.
  destruct (Z.ltb_spec va 2147483648); [by repeat decide_cmp|].
  destruct (Z.ltb_spec va (2147483648 + 1048576));
    [repeat decide_cmp; rewrite entry_add by (unfold PTE_W; Z.to_euclidean_division_equations; lia); lia|].
  destruct (Z.ltb_spec va data);
    [repeat decide_cmp; rewrite entry_add by (unfold PTE_W; Z.to_euclidean_division_equations; lia); change (Z.lor 0 PTE_P) with PTE_P; lia|].
  destruct (Z.ltb_spec va (2147483648 + 234881024));
    [repeat decide_cmp; rewrite entry_add by (unfold PTE_W; Z.to_euclidean_division_equations; lia); lia|].
  destruct (Z.ltb_spec va 4261412864); [by repeat decide_cmp|].
  repeat decide_cmp; rewrite entry_add by (unfold PTE_W; Z.to_euclidean_division_equations; lia); lia.
Qed.

Lemma setupkvm_runs t h w k free : represents end_ k free -> wf_mem (ram k) -> Lkmem ∉ h ->
  exists d k' free', setupkvm end_ data (Ctx t h w) k = Ret d (Ctx t h w) k' /\
    (d <> 0 /\ built k free d [] k' free' /\ (forall va, 0 <= va < 2 ^ 32 -> entry (ram k') d va = kernel_entry va) \/
     d = 0 /\ undone k free k' free' /\ Z.of_nat (length free) <= 1025).
Proof.
  intros Hr Hw Hh. unfold setupkvm. destruct (kalloc_runs end_ t h w k free Hr Hh) as (k1 & R1 & Hk1 & Em & Eu). run R1.
  destruct free as [|d free]; cbn [default head tail from_option id] in *.
  { exists 0, k1, []. split; [done|]. right. split; [done|]. split; [|done]. split; rewrite ?Em; done. }
  pose proof Hr as [(_ & Pd & _) _]. pose proof (page_pos end_ d Pd). destruct (Z.eqb_spec d 0); [lia|]. unfold on_ram. mstep.
  change (p2v PHYSTOP) with (ret (S := kmem) (u32 (PHYSTOP + KERNBASE))). mstep. change (DEVSPACE <? u32 (PHYSTOP + KERNBASE)) with false. cbn iota.
  destruct (new_dir k k1 d free Hr Hk1 Em Hw Eu) as (B2 & E2 & _). set (k2 := Kmem _ _ _) in *. destruct kmap_ok as [K1 K2].
  destruct (setup_loop_runs t h w d k (d :: free) (kmap data) (proj2 Hr) k2 free B2) as (r & k3 & free3 & R3 & H3); try done.
  { intros. by rewrite E2. }
  { intros. by rewrite E2. }
  exists r, k3, free3. split; [done|]. destruct H3 as [(-> & B3 & E3)|?]; [left|by right]. split; [done|]. split; [done|].
  intros va Hva. rewrite E3 by done. rewrite <- kentry_spec by done. unfold kentry. apply rows_map_ext. apply E2.
Qed.

(** ** [copyuvm] *)

(** The first [i] bytes are copied: each page has a copy of its own, with the
    same flags. *)
Record copied k0 free0 pg d (i : Z) k free : Prop := {
  cp_built : built k0 free0 d [] k free;
  cp_user va : 0 <= va < i -> present (entry (ram k) d va) = true /\
    PTE_FLAGS (entry (ram k) d va) = PTE_FLAGS (entry (ram k0) pg va) /\
    forall o, 0 <= o < 4096 -> ram k (upage (ram k) d va + o) = ram k0 (upage (ram k0) pg va + o);
  cp_rest va : i <= va < 2 ^ 32 -> entry (ram k) d va = kernel_entry va }.

Lemma flags_P e : 0 <= e -> present e = true -> Z.lor (PTE_FLAGS e) PTE_P = PTE_FLAGS e.
Proof.
  intros He Hp. apply Z.bits_inj'. intros n Hn. rewrite Z.lor_spec. unfold PTE_P, PTE_FLAGS.
  destruct (decide (n = 0)) as [->|N].
  - rewrite orb_true_r. symmetry. rewrite present_mod in Hp by done. rewrite Z.land_spec. change (Z.testbit 4095 0) with true.
    rewrite andb_true_r, Z.bit0_odd. rewrite Zmod_odd in Hp. by destruct (Z.odd e).
  - replace (Z.testbit 1 n) with false; [by rewrite orb_false_r|]. symmetry. change 1 with (2 ^ 0). apply Z.pow2_bits_false. lia.
Qed.

Lemma PTE_FLAGS_range e : 0 <= PTE_FLAGS e < 4096.
Proof. rewrite PTE_FLAGS_mod. apply Z.mod_pos_bound. lia. Qed.

Lemma entry_range m pg va : wf_mem m -> 0 <= entry m pg va.
Proof. intros Hw. unfold entry. destruct (present _); [|done]. by apply load32_range. Qed.

Lemma copied_step k0 free0 pg d i p k free k2 k3 free3 src e :
  copied k0 free0 pg d i k (p :: free) -> page end_ p -> i mod 4096 = 0 -> 0 <= i < KERNBASE -> wf_mem (ram k0) ->
  e = entry (ram k0) pg i -> present e = true -> src = PTE_ADDR e + KERNBASE ->
  (forall va, entry (ram k2) d va = entry (ram k) d va) ->
  (forall q, outside end_ k (p :: free) d q -> outside end_ k2 free d q /\ page_same (ram k) (ram k2) q) ->
  (forall o, 0 <= o < 4096 -> ram k2 (p + o) = ram k0 (src + o)) -> outside end_ k2 free d p ->
  (forall q, outside end_ k2 free d q -> page_same (ram k2) (ram k3) q) ->
  built k0 free0 d [] k3 free3 ->
  (forall a, 0 <= a < 2 ^ 32 -> entry (ram k3) d a =
     if a / 4096 =? i / 4096 then Z.lor (Z.lor (p - KERNBASE) (PTE_FLAGS e)) PTE_P else entry (ram k2) d a) ->
  copied k0 free0 pg d (i + 4096) k3 free3.
Proof.
  intros [B Us Rs] Pp Hal Hi Hw He Hpe Hsrc En2 K2 Hsrc2 Op K3 B3 En3. pose proof (bt_ok _ _ _ _ _ _ B) as U.
  destruct (kernel_page_range end_ p Pp) as (P1 & P2 & P3). pose proof (PTE_FLAGS_range e) as Hfl.
  destruct (entry_fields (p - KERNBASE) (PTE_FLAGS e)) as (_ & F2 & F3 & F4); [done|lia|done|].
  rewrite flags_P in F4 by (done || rewrite He; by apply entry_range). split; [done|..].
  - intros va Hva. assert (0 <= va < 2 ^ 32) as Hva' by (vm_const; lia). unfold upage. rewrite En3 by done.
    destruct (Z.eqb_spec (va / 4096) (i / 4096)) as [Ev|Nv].
    + rewrite (entry_page _ pg va i) by (done || by apply user_range). rewrite <- He. split; [done|]. split; [done|].
      intros o Ho. rewrite F3, <- Hsrc. replace (p - KERNBASE + KERNBASE) with p by lia.
      rewrite (K3 p Op) by (vm_const; lia). by apply Hsrc2.
    + assert (va < i) by (Z.to_euclidean_division_equations; lia). rewrite En2. destruct (Us va) as (H1 & H2 & H3); [lia|].
      split; [done|]. split; [done|]. intros o Ho. fold (upage (ram k) d va). pose proof (uo_page _ _ _ _ U va ltac:(lia) H1) as Hou.
      destruct (K2 _ Hou) as [Hou2 E2]. rewrite (K3 _ Hou2), E2 by (vm_const; lia). by apply H3.
  - intros va Hva. rewrite En3, En2 by lia. destruct (Z.eqb_spec (va / 4096) (i / 4096)) as [Ev|Nv]; [Z.to_euclidean_division_equations; lia|].
    apply Rs. lia.
Qed.

Lemma copy_loop_runs t h w pg sz k0 free0 d fuel : forall k free i,
  uvm_ok end_ k0 free0 pg -> Lkmem ∉ h -> 0 <= sz <= KERNBASE ->
  (forall va, 0 <= va < sz -> present (entry (ram k0) pg va) = true) ->
  copied k0 free0 pg d i k free -> 0 <= i -> i mod 4096 = 0 -> i <= PGROUNDUP sz -> sz <= i + 4096 * Z.of_nat fuel ->
  exists r k' free', copy_loop end_ fuel d pg i sz (Ctx t h w) k = Ret r (Ctx t h w) k' /\
    (r = d /\ copied k0 free0 pg d (PGROUNDUP sz) k' free' \/
     r = 0 /\ undone k0 free0 k' free' /\ Z.of_nat (length free0) <= 1025 + PGROUNDUP sz / 4096).
Proof.
  induction fuel as [|fuel IH]; intros k free i U0 Hh Hsz Hpr C Hi Hal Hle Hf; cbn [copy_loop];
    (destruct (Z.leb_spec sz i) as [Hsi|Hlt];
      [exists d, k, free; split; [done|]; left; split; [done|]; rewrite PGROUNDUP_div in * by done;
       replace ((sz + 4095) / 4096 * 4096) with i by (Z.to_euclidean_division_equations; lia); done|]); [lia|].
  pose proof (cp_built _ _ _ _ _ _ _ C) as B. destruct (built_parent _ _ _ _ _ _ pg U0 B) as (Ppar & Epar & Kpar).
  rewrite PGROUNDUP_div in Hle by done. assert (0 <= i < KERNBASE) as Hik by lia. pose proof (user_range i Hik) as Hi32.
  assert (forall va, i <= va < KERNBASE -> present (entry (ram k) d va) = false) as Hrest.
  { intros va Hva. rewrite (cp_rest _ _ _ _ _ _ _ C) by (vm_const; lia). unfold kernel_entry. by destruct (Z.ltb_spec va KERNBASE); [|lia]. }
  assert (NoDup free0) as Hnd0 by apply (po_free _ _ _ _ (uo_dir _ _ _ _ U0)).
  specialize (Hpr i ltac:(lia)) as Hpi. set (e := entry (ram k0) pg i) in *. pose proof (PDX_range i). pose proof (PTX_range i).
  run (walk_runs end_ t h w k free pg i Ppar).
  assert (present (dirent (ram k) pg (PDX i)) = true) as Hdp.
  { specialize (Epar i). fold e in Epar. unfold entry in Epar at 1. destruct (present (dirent (ram k) pg (PDX i))); [done|]. by rewrite <- Epar in Hpi. }
  rewrite Hdp. destruct (po_tab _ _ _ _ Ppar _ (PDX_range i) Hdp) as (Pt & _ & _). destruct (page_aligned _ _ Pt) as [_ Hptr].
  assert (tab (ram k) pg (PDX i) + 4 * PTX i <> 0) as Hnz by (vm_const; lia). rewrite (proj2 (Z.eqb_neq _ _) Hnz).
  run (peek_runs _ (Ctx t h w) k Hnz).
  assert (load32 (ram k) (tab (ram k) pg (PDX i) + 4 * PTX i) = e) as ->.
  { unfold e. rewrite <- Epar. unfold entry. by rewrite Hdp. }
  rewrite Hpi. cbn [negb]. destruct free as [|p free].
  { destruct (kalloc_empty end_ t h w k d (bt_ok _ _ _ _ _ _ B) Hh) as (k1 & R1 & U1 & Em & Eu). run R1. cbn [Z.eqb].
    destruct (built_freevm t h w k0 free0 d k1 []) as (k2 & free2 & R2 & Ud); [|done|].
    { destruct B as [_ B2 B3 B4]. split; unfold owned, is_tab, upage in *; rewrite ?Em; try done. by rewrite Eu. }
    run R2. exists 0, k2, free2. split; [done|]. right. split; [done|]. split; [done|].
    pose proof (built_bound k0 free0 d [] k [] i B Hnd0 eq_refl ltac:(lia) Hrest) as Hb. cbn [length] in Hb.
    rewrite PGROUNDUP_div by done. Z.to_euclidean_division_equations. lia. }
  pose proof (uo_page _ _ _ _ U0 i Hik Hpi) as Osrc. set (src := upage (ram k0) pg i) in *.
  destruct (kalloc_fill end_ t h w k p free d (fun m => memmove m p src PGSIZE) (bt_ok _ _ _ _ _ _ B) Hh)
    as (k1 & R1 & Pp & Em & R2 & U2 & Ap & En & K & Lk & T).
  { intros m x Hx. rewrite memmove_at by done. by range_cases. }
  { intros m Hm x. rewrite memmove_at by done. destruct (in_range _ _ _); apply Hm. }
  run R1. pose proof (page_pos end_ p Pp) as Hpos. destruct (Z.eqb_spec p 0); [lia|].
  run (p2v_page end_ e (Ctx t h w) k1 (proj1 Osrc)). fold (upage (ram k0) pg i). fold src. run R2. set (k2 := Kmem _ _ _) in *.
  run (v2p_page end_ p (Ctx t h w) k2 Pp).
  pose proof (built_take k0 free0 d k p free k2 B U2 En K Lk T) as B2.
  destruct (built_map t h w k0 free0 d p k2 free i (PTE_FLAGS e) B2 Ap Hh Hal Hik) as (r & k3 & free3 & R3 & K3 & Hr).
  { rewrite En. apply Hrest. lia. }
  { apply PTE_FLAGS_range. }
  run R3. assert (p ∈ free0) as Hp0 by (apply (bt_free _ _ _ _ _ _ B); left; left).
  destruct Hr as [(-> & B3 & En3)|(-> & B3 & Ap3 & Hf3 & En3)]; cbn [Z.ltb Z.compare].
  - rewrite u32_small by (vm_const; lia). change (i + PGSIZE) with (i + 4096).
    apply IH with (free := free3); try done; try lia.
    + eapply (copied_step k0 free0 pg d i p k free k2 k3 free3 src e C Pp Hal Hik); try done; [apply U0| |apply Ap].
      intros o Ho. unfold k2. cbn. rewrite memmove_at by done. range_cases; [|vm_const; lia]. rewrite Em.
      replace (src + (p + o - p)) with (src + o) by lia. apply (Kpar src Osrc). vm_const. lia.
    + Z.to_euclidean_division_equations. lia.
    + rewrite PGROUNDUP_div by done. Z.to_euclidean_division_equations. lia.
  - run (kfree_runs end_ p t h w k3 Pp Hh). pose proof (built_kfree k0 free0 d p k3 free3 B3 Ap3 Hp0) as B4.
    destruct (built_freevm t h w k0 free0 d _ _ B4 Hh) as (k5 & free5 & R5 & Ud). run R5. exists 0, k5, free5. split; [done|].
    right. split; [done|]. split; [done|].
    pose proof (built_bound k0 free0 d [p] k3 free3 i B3 Hnd0 Hf3 ltac:(lia)) as Hb. cbn [length] in Hb.
    rewrite PGROUNDUP_div by done. etransitivity; [apply Hb|Z.to_euclidean_division_equations; lia].
    intros va Hva. rewrite En3 by (by apply user_range; lia). rewrite En. by apply Hrest.
Qed.

(** C4: [copyuvm] gives the child a copy of the parent's memory or changes
    nothing.  On success every user page of the parent has a page of its own in
    the child with the same flags and the same bytes, the rest of the child's
    table is the kernel's, and all its pages came from the free list; on
    failure, which happens only when the free list has no more than the pages of
    the process and 1025 others for the table, the result is 0 and every page
    taken is free again.  In both cases
    no page that was in use, the parent's among them, is changed. *)
Theorem copyuvm_copies t h w k free pg sz :
  uvm_ok end_ k free pg -> Lkmem ∉ h -> 0 <= sz <= KERNBASE ->
  (forall va, 0 <= va < sz -> present (entry (ram k) pg va) = true) ->
  exists d k' free', copyuvm end_ data pg sz (Ctx t h w) k = Ret d (Ctx t h w) k' /\
    (d <> 0 /\ copied k free pg d (PGROUNDUP sz) k' free' \/
     d = 0 /\ undone k free k' free' /\ Z.of_nat (length free) <= 1025 + PGROUNDUP sz / 4096).
Proof.
  intros U Hh Hsz Hpr. unfold copyuvm.
  destruct (setupkvm_runs t h w k free) as (d & k1 & free1 & R1 & H1); [apply U|apply U|done|]. run R1.
  destruct H1 as [(Nd & B & En)|(-> & Ud & Hb)].
  2: { cbn [Z.eqb]. exists 0, k1, free1. split; [done|]. right. split; [done|]. split; [done|].
       rewrite PGROUNDUP_div by done. Z.to_euclidean_division_equations. lia. }
  rewrite (proj2 (Z.eqb_neq _ _) Nd).
  destruct (copy_loop_runs t h w pg sz k free d (Z.to_nat (sz / PGSIZE + 1)) k1 free1 0) as (r & k2 & free2 & R2 & H2); try done.
  - split; [done|intros; lia|]. intros va Hva. by apply En.
  - rewrite PGROUNDUP_div by done. Z.to_euclidean_division_equations. lia.
  - vm_const. rewrite Z2Nat.id by (Z.to_euclidean_division_equations; lia). Z.to_euclidean_division_equations. lia.
  - exists r, k2, free2. split; [done|]. destruct H2 as [[-> ?]|[-> ?]]; [by left|by right].
Qed.

(** [setupkvm] builds the kernel's part of an address space, or, when fewer
    than 1026 pages are free, may change nothing: every address of physical memory is mapped above [KERNBASE], the
    kernel's text read-only, the devices at their own addresses, and nothing
    is mapped for users. *)
Theorem setupkvm_maps_kernel t h w k free : represents end_ k free -> wf_mem (ram k) -> Lkmem ∉ h ->
  exists d k' free', setupkvm end_ data (Ctx t h w) k = Ret d (Ctx t h w) k' /\
    (d <> 0 /\ built k free d [] k' free' /\ (forall va, 0 <= va < 2 ^ 32 -> entry (ram k') d va = kernel_entry va) \/
     d = 0 /\ undone k free k' free' /\ Z.of_nat (length free) <= 1025).
Proof. apply setupkvm_runs. Qed.

End kernel_map.

(** C23: [freevm] gives back exactly the address space: the user pages, the page
    tables and the directory become free, and no other page changes. *)
Theorem freevm_frees_all t h w k free pg :
  uvm_ok end_ k free pg -> Lkmem ∉ h ->
  exists k' free', freevm end_ pg (Ctx t h w) k = Ret tt (Ctx t h w) k' /\ represents end_ k' free' /\
    (forall p, p ∈ free' <-> p ∈ free \/ owned k pg p) /\
    (forall p, page end_ p -> p ∉ free -> ~ owned k pg p -> page_same (ram k) (ram k') p) /\
    wf_mem (ram k') /\ use_lock k' = use_lock k.
Proof. apply freevm_runs. Qed.

(** ** Stores into user memory *)

(** The bytes [l] are stored at user address [va], and nothing else changes. *)
Record stored k free pg (va : Z) (l : list Z) k' : Prop := {
  sd_ok : uvm_ok end_ k' free pg;
  sd_entry a : entry (ram k') pg a = entry (ram k) pg a;
  sd_byte a : 0 <= a < KERNBASE -> present (entry (ram k) pg a) = true ->
    ubyte (ram k') pg a = if (va <=? a) && (a <? va + Z.of_nat (length l)) then nth (Z.to_nat (a - va)) l 0 else ubyte (ram k) pg a;
  sd_keep p : page end_ p -> (forall a, 0 <= a < KERNBASE -> present (entry (ram k) pg a) = true -> upage (ram k) pg a <> p) ->
    page_same (ram k) (ram k') p;
  sd_lock : use_lock k' = use_lock k }.

Lemma stored_nil k free pg va : uvm_ok end_ k free pg -> stored k free pg va [] k.
Proof. intros U. split; try done. intros a Ha Hp. cbn [length]. zcases; cbn [andb]; done || lia. Qed.

Lemma stored_app k free pg va l1 l2 k1 k2 :
  stored k free pg va l1 k1 -> stored k1 free pg (va + Z.of_nat (length l1)) l2 k2 -> stored k free pg va (l1 ++ l2) k2.
Proof.
  intros [A1 A2 A3 A4 A5] [B1 B2 B3 B4 B5]. split; [done|by intros; rewrite B2| | |congruence].
  - intros a Ha Hp. rewrite B3, A3 by (done || by rewrite A2). rewrite length_app.
    destruct (Z.leb_spec (va + Z.of_nat (length l1)) a), (Z.ltb_spec a (va + Z.of_nat (length l1) + Z.of_nat (length l2))),
      (Z.leb_spec va a), (Z.ltb_spec a (va + Z.of_nat (length l1))), (Z.ltb_spec a (va + Z.of_nat (length l1 + length l2)));
      cbn [andb]; try lia; try done.
    + rewrite app_nth2 by lia. f_equal. lia.
    + by rewrite app_nth1 by lia.
  - intros p Pp Hp x Hx. rewrite B4; [by apply (A4 p)|done| |done]. intros a Ha. unfold upage. rewrite A2. by apply Hp.
Qed.

(** Within one page. *)
Lemma store_page k free pg va l :
  uvm_ok end_ k free pg -> 0 <= va < KERNBASE -> present (entry (ram k) pg va) = true -> va mod 4096 + Z.of_nat (length l) <= 4096 ->
  Forall (fun b => 0 <= b < 256) l ->
  stored k free pg va l (Kmem (use_lock k) (freelist k) (put_bytes (ram k) (upage (ram k) pg va + va mod 4096) l)).
Proof.
  intros U Hva Hp Hlen Hl. pose proof (uo_dir _ _ _ _ U) as P. pose proof (uo_page _ _ _ _ U va Hva Hp) as (Pp & Np & Ng & Nt).
  set (p := upage (ram k) pg va) in *. set (m' := put_bytes _ _ _).
  pose proof (Z.mod_pos_bound va 4096 ltac:(lia)) as Ho.
  assert (forall x, ~ (p <= x < p + PGSIZE) -> m' x = ram k x) as Hm.
  { intros x Hx. unfold m', put_bytes. vm_const. zcases; cbn [andb]; try lia; done. }
  assert (wf_mem m') as Hw.
  { intros x. unfold m', put_bytes. destruct (_ && _) eqn:E; [|apply P]. apply andb_prop in E as [E1%Z.leb_le E2%Z.ltb_lt].
    rewrite Forall_forall in Hl. apply Hl, list_elem_of_In, nth_In. lia. }
  assert (represents end_ (Kmem (use_lock k) (freelist k) m') free) as Hr.
  { destruct (po_free _ _ _ _ P) as [R1 R2]. split; [|done]. cbn. by apply (linked_frame end_ (ram k) m' _ free p Pp). }
  destruct (dir_frame end_ k free pg p m' (freelist k) P Pp Ng Nt Hm) as [Ed En]. cbn [ram] in Ed, En.
  pose proof (pgdir_ok_frame end_ k free free pg p m' (freelist k) P Pp Ng Nt Hm Hw Hr ltac:(by left)) as P'.
  split; [|done| | |done].
  - eapply uvm_ok_kept; [done|done|by intros; apply En|]. intros a Ha Hpa. destruct (uo_page _ _ _ _ U a Ha Hpa) as (H1 & H2 & H3 & H4).
    split; [done|]. split; [done|]. split; [done|]. intros i Hi. unfold tab. cbn [ram]. rewrite Ed by done. by apply H4.
  - intros a Ha Hpa. unfold ubyte. cbn [ram]. unfold upage. rewrite En. fold (upage (ram k) pg a).
    pose proof (Z.mod_pos_bound a 4096 ltac:(lia)) as Hoa. destruct (decide (a / 4096 = va / 4096)) as [E|N].
    + assert (upage (ram k) pg a = p) as -> by (unfold p, upage; by rewrite (entry_page _ _ a va) by (done || by apply user_range)).
      unfold m', put_bytes. pose proof (Z.div_mod a 4096 ltac:(lia)). pose proof (Z.div_mod va 4096 ltac:(lia)).
      zcases; cbn [andb]; try lia; try done. f_equal. lia.
    + destruct (uo_page _ _ _ _ U a Ha Hpa) as (H1 & _).
      rewrite Hm.
      * destruct (Z.leb_spec va a), (Z.ltb_spec a (va + Z.of_nat (length l))); cbn [andb]; try done.
        exfalso. apply N. Z.to_euclidean_division_equations. lia.
      * apply (page_disjoint end_ (upage (ram k) pg a) p); [done|done| |vm_const; lia]. intros E. apply N. by apply (uo_inj _ _ _ _ U).
  - intros q Pq Hq x Hx. apply Hm. apply (page_disjoint end_ q p); [done|done| |done]. intros ->. by apply (Hq va).
Qed.

(** ** [uva2ka] and [copyout] *)

Lemma uva2ka_runs t h w k free pg va :
  uvm_ok end_ k free pg -> 0 <= va < KERNBASE -> present (dirent (ram k) pg (PDX va)) = true ->
  uva2ka pg va (Ctx t h w) k =
  Ret (if present (entry (ram k) pg va) && user (entry (ram k) pg va) then upage (ram k) pg va else 0) (Ctx t h w) k.
Proof.
  intros U Hva Hd. pose proof (uo_dir _ _ _ _ U) as P. unfold uva2ka. run (walk_runs end_ t h w k free pg va P). rewrite Hd.
  destruct (po_tab _ _ _ _ P _ (PDX_range va) Hd) as (Pt & _ & _). destruct (page_aligned _ _ Pt) as [_ Hptr]. pose proof (PTX_range va).
  assert (tab (ram k) pg (PDX va) + 4 * PTX va <> 0) as Hnz by (vm_const; lia). run (peek_runs _ (Ctx t h w) k Hnz).
  assert (load32 (ram k) (tab (ram k) pg (PDX va) + 4 * PTX va) = entry (ram k) pg va) as -> by (unfold entry; by rewrite Hd).
  destruct (present (entry (ram k) pg va)) eqn:Hp; cbn [negb andb]; [|done].
  destruct (user (entry (ram k) pg va)); cbn [negb]; [|done]. apply p2v_page with (end_ := end_). by apply (uo_page _ _ _ _ U va).
Qed.

Lemma present_dir m pg va : present (entry m pg va) = true -> present (dirent m pg (PDX va)) = true.
Proof. unfold entry. by destruct (present (dirent m pg (PDX va))). Qed.

(** The user can reach every byte of the range. *)
Definition reachable k pg (va n : Z) : Prop :=
  forall a, va <= a < va + n -> present (entry (ram k) pg a) = true /\ user (entry (ram k) pg a) = true.

Lemma copyout_loop_runs t h w pg fuel : forall k free va buf,
  uvm_ok end_ k free pg -> 0 <= va -> va + Z.of_nat (length buf) <= KERNBASE -> reachable k pg va (Z.of_nat (length buf)) ->
  Forall (fun b => 0 <= b < 256) buf -> va mod 4096 + Z.of_nat (length buf) <= 4096 * Z.of_nat fuel ->
  exists k', copyout_loop fuel pg va buf (Ctx t h w) k = Ret 0 (Ctx t h w) k' /\ stored k free pg va buf k'.
Proof.
  induction fuel as [|fuel IH]; intros k free va buf U Hva Hle Hre Hb Hf; (destruct buf as [|b buf];
    [exists k; split; [done|]; by apply stored_nil|]); cbn [length] in Hle, Hf; pose proof (Z.mod_pos_bound va 4096 ltac:(lia)) as Ho; [lia|].
  cbn [copyout_loop]. cbv beta iota zeta. set (l := b :: buf) in *. assert (length l = S (length buf)) as El by done. rewrite El in Hre.
  destruct (Hre va ltac:(lia)) as [Hp Hu]. rewrite PGROUNDDOWN_div by done. set (va0 := va / 4096 * 4096).
  assert (0 <= va0 <= va /\ va - va0 = va mod 4096) as [Hva0 Eo] by (unfold va0; Z.to_euclidean_division_equations; lia).
  assert (entry (ram k) pg va0 = entry (ram k) pg va) as E0.
  { apply entry_page; [vm_const; lia|vm_const; lia|]. unfold va0. by rewrite Z.div_mul by lia. }
  assert (upage (ram k) pg va0 = upage (ram k) pg va) as Eu by (unfold upage; by rewrite E0).
  run (uva2ka_runs t h w k free pg va0 U ltac:(lia) ltac:(apply present_dir; by rewrite E0)). rewrite E0, Hp, Hu, Eu. cbn [andb].
  destruct (page_aligned end_ _ (proj1 (uo_page _ _ _ _ U va ltac:(lia) Hp))) as [_ Hr].
  destruct (Z.eqb_spec (upage (ram k) pg va) 0) as [|_]; [vm_const; lia|]. unfold on_ram. mstep. rewrite Eo.
  set (n := Z.min (PGSIZE - va mod 4096) (Z.of_nat (length l))). assert (0 < n <= Z.of_nat (length l)) as Hn by (unfold n; vm_const; lia).
  assert (length (take (Z.to_nat n) l) = Z.to_nat n) as Et by (rewrite length_take; lia).
  pose proof (store_page k free pg va (take (Z.to_nat n) l) U ltac:(lia) Hp ltac:(rewrite Et; unfold n; vm_const; lia)
    ltac:(by apply Forall_take)) as S1. set (k1 := Kmem _ _ _) in *.
  rewrite u32_small by (vm_const; lia).
  destruct (decide (n = Z.of_nat (length l))) as [En|Nn].
  - rewrite En, Nat2Z.id, drop_ge in * by lia. rewrite take_ge in S1 by lia. destruct fuel; cbn [copyout_loop]; by exists k1.
  - assert (n = 4096 - va mod 4096 /\ va0 + PGSIZE = va + n) as [En Ev] by (unfold n in *; vm_const; lia). rewrite Ev.
    destruct (IH k1 free (va + n) (drop (Z.to_nat n) l)) as (k2 & R2 & S2).
    { apply S1. } { lia. } { rewrite length_drop. lia. }
    { intros a. rewrite length_drop. intros Ha. rewrite (sd_entry _ _ _ _ _ _ S1). apply Hre. lia. }
    { by apply Forall_drop. }
    { rewrite length_drop. replace ((va + n) mod 4096) with 0; [lia|]. rewrite <- Ev. unfold va0. vm_const. Z.to_euclidean_division_equations. lia. }
    exists k2. split; [done|]. rewrite <- (take_drop (Z.to_nat n) l). eapply stored_app; [done|]. rewrite Et.
    by replace (va + Z.of_nat (Z.to_nat n)) with (va + n) by lia.
Qed.

(** [copyout] stores exactly the bytes: when the user can reach the whole
    range, it returns 0, the bytes of the range are the buffer's, and no other
    byte of any page, and no mapping, changes. *)
Theorem copyout_stores_bytes t h w k free pg va buf :
  uvm_ok end_ k free pg -> 0 <= va -> va + Z.of_nat (length buf) <= KERNBASE -> reachable k pg va (Z.of_nat (length buf)) ->
  Forall (fun b => 0 <= b < 256) buf ->
  exists k', copyout pg va buf (Ctx t h w) k = Ret 0 (Ctx t h w) k' /\ stored k free pg va buf k'.
Proof.
  intros U Hva Hle Hre Hb. apply (copyout_loop_runs t h w pg _ k free va buf); try done.
  pose proof (Z.mod_pos_bound va 4096 ltac:(lia)). vm_const. rewrite Z2Nat.id by (Z.to_euclidean_division_equations; lia).
  Z.to_euclidean_division_equations. lia.
Qed.

(** [uva2ka] of an address whose page table does not exist dereferences the
    null pointer that [walkpgdir] returns: it does not return 0, so [copyout]
    to such an address has no defined behaviour. *)
Theorem uva2ka_null_table t h w k free pg va :
  pgdir_ok end_ k free pg -> present (dirent (ram k) pg (PDX va)) = false ->
  uva2ka pg va (Ctx t h w) k = Undef "null pointer".
Proof. intros P Hd. unfold uva2ka. run (walk_runs end_ t h w k free pg va P). by rewrite Hd. Qed.

End vm.
