(* ===== verification/VmDemo.v ===== *)
(** A small memory with one address space, on which the theorems of vm.c are
    applied. *)

From stdpp Require Import functions base numbers list strings.
From S2P Require Import Xv6 Prelude Kstring Kalloc Vm PageTable Uvm Copyuvm.

Definition demo_end : Z := 0x80110000.
Definition demo_data : Z := 0x80108000.
(** Page [i] of the memory. *)
Definition pg_at (i : Z) : Z := demo_end + 4096 * i.
Definition demo_me : thread := Thread 1 false.

Lemma demo_end_ok : KERNBASE + EXTMEM <= demo_end.
Proof. vm_const. unfold demo_end. lia. Qed.

Lemma demo_data_ok : demo_data mod 4096 = 0 /\ KERNLINK < demo_data < KERNBASE + PHYSTOP.
Proof. split; [done|]. vm_const. unfold demo_data. lia. Qed.

Lemma pg_at_page i : 0 <= i < 100 -> page demo_end (pg_at i).
Proof.
  intros Hi. unfold page, pg_at, demo_end. vm_const. split; [Z.to_euclidean_division_equations; lia|]. lia.
Qed.

Lemma pg_at_inj i j : i <> j -> pg_at i <> pg_at j.
Proof. unfold pg_at. lia. Qed.

(** Memory after pages are freed in turn. *)
Definition freed (l : list Z) : kmem :=
  foldr (fun v k => Kmem (use_lock k) v (junk_page (ram k) v (freelist k))) empty_kmem l.

Lemma freed_represents l : Forall (page demo_end) l -> NoDup l -> represents demo_end (freed l) l /\ wf_mem (ram (freed l)).
Proof.
  induction l as [|v l IH]; intros Hp Hn; [split; [apply empty_represents|]; intros x; cbn; lia|].
  apply Forall_cons in Hp as [Pv Hp]. apply NoDup_cons in Hn as [Nv Hn]. destruct (IH Hp Hn) as [R W]. cbn [freed foldr].
  split; [by apply represents_free|]. by apply wf_junk.
Qed.

Definition demo_pages : list Z := map pg_at [0; 1; 2; 3; 4].

Lemma demo_pages_ok : Forall (page demo_end) demo_pages /\ NoDup demo_pages.
Proof.
  split.
  - unfold demo_pages. cbn [map]. repeat apply Forall_cons_2; try apply Forall_nil_2; apply pg_at_page; lia.
  - apply (bool_decide_unpack _). vm_compute. exact I.
Qed.

(** One address space with page 2 mapped at address 0 and page 1 as its table. *)
Lemma demo_space : exists k, uvm_ok demo_end k [pg_at 3; pg_at 4] (pg_at 0) /\
  forall va, 0 <= va < 2 ^ 32 -> entry (ram k) (pg_at 0) va = if va / 4096 =? 0 then fresh_entry (pg_at 2) else 0.
Proof.
  pose proof demo_end_ok as He. destruct demo_pages_ok as [Hp Hn]. destruct (freed_represents demo_pages Hp Hn) as [R0 W0].
  set (k0 := freed demo_pages) in *. clearbody k0. unfold demo_pages in R0. cbn [map] in R0.
  assert (Lkmem ∉ ([] : list lockid)) as Hh by apply not_elem_of_nil.
  destruct (kalloc_runs demo_end demo_me [] [] k0 _ R0 Hh) as (k1 & _ & R1 & Em1 & Eu1). cbn [tail] in R1.
  destruct (new_dir demo_end k0 k1 _ _ R0 R1 Em1 W0 Eu1) as (B2 & E2 & N2).
  set (k2 := Kmem _ _ _) in *. clearbody k2. pose proof (bt_ok _ _ _ _ _ _ _ B2) as U2.
  destruct (kalloc_runs demo_end demo_me [] [] k2 _ (po_free _ _ _ _ (uo_dir _ _ _ _ U2)) Hh) as (k3 & _ & R3 & Em3 & Eu3). cbn [tail] in R3.
  destruct (new_table demo_end k2 k3 (pg_at 1) _ (pg_at 0) 0 (uo_dir _ _ _ _ U2) R3 Em3 Eu3 ltac:(lia)) as (V4 & E4 & D4 & T4).
  { apply not_true_is_false. intros E. apply (N2 (tab (ram k2) (pg_at 0) (PDX 0))). exists (PDX 0). split; [apply PDX_range|by split]. }
  set (k4 := Kmem _ _ _) in *. clearbody k4.
  assert (uvm_ok demo_end k4 [pg_at 2; pg_at 3; pg_at 4] (pg_at 0)) as U4.
  { eapply uvm_ok_kept; [exact U2|apply V4|intros va Hva; by apply E4, user_range|]. intros va Hva. by rewrite E2. }
  destruct (kalloc_fill demo_end demo_me [] [] k4 (pg_at 2) _ (pg_at 0) (fun m => m) U4 Hh) as (k5 & _ & Pp & Em5 & _ & U6 & Ap & E6 & K6 & _ & T6);
    [done|done|]. set (k6 := Kmem _ _ _) in *.
  assert (present (dirent (ram k6) (pg_at 0) (PDX 0)) = true) as D6.
  { unfold k6. cbn [ram]. by rewrite Em5. }
  clearbody k6.
  destruct (fresh_entry_fields demo_end (pg_at 2) Pp) as (F1 & F2 & F3 & F4).
  destruct (set_entry demo_end k6 _ (pg_at 0) 0 (fresh_entry (pg_at 2)) (uo_dir _ _ _ _ U6) ltac:(lia) D6 F1) as [V7 E7].
  set (k7 := Kmem _ _ _) in *.
  assert (forall va, 0 <= va < 2 ^ 32 -> entry (ram k7) (pg_at 0) va = if va / 4096 =? 0 then fresh_entry (pg_at 2) else 0) as E.
  { intros va Hva. rewrite E7, E6, E4, E2 by done. done. }
  exists k7. split; [|done]. split; [apply V7|..].
  - intros va Hva. unfold upage. rewrite E by (by apply user_range). destruct (va / 4096 =? 0); [|done]. intros _. rewrite F3. apply V7, Ap.
  - intros a b Ha Hb. unfold upage. rewrite !E by (by apply user_range).
    destruct (Z.eqb_spec (a / 4096) 0), (Z.eqb_spec (b / 4096) 0); try done. by intros; congruence.
Qed.

Lemma no_locks : Lkmem ∉ ([] : list lockid).
Proof. apply not_elem_of_nil. Qed.

Lemma allocuvm_grows_or_restores_witness : exists k free r k' free',
  allocuvm demo_end (pg_at 0) 4096 8192 (Ctx demo_me [] []) k = Ret r (Ctx demo_me [] []) k' /\
  (r = 8192 /\ grown demo_end k free (pg_at 0) 4096 8192 [] k' free' \/
   r = 0 /\ restored demo_end k free (pg_at 0) [] k' free' /\ Z.of_nat (length free) <= 1025).
Proof.
  destruct demo_space as (k & U & E). exists k, [pg_at 3; pg_at 4].
  apply (allocuvm_grows_or_restores demo_end demo_end_ok demo_me [] [] k [pg_at 3; pg_at 4] (pg_at 0) 4096 8192 U no_locks).
  - lia.
  - vm_const. lia.
  - intros va H1 H2. change (PGROUNDUP 4096) with 4096 in H1. rewrite E by (Z.to_euclidean_division_equations; lia).
    destruct (Z.eqb_spec (va / 4096) 0); [Z.to_euclidean_division_equations; lia|done].
Defined.

Lemma deallocuvm_frees_pages_witness : exists k free k' free',
  deallocuvm demo_end (pg_at 0) 4096 0 (Ctx demo_me [] []) k = Ret 0 (Ctx demo_me [] []) k' /\
  unmapped demo_end k free (pg_at 0) 0 4096 k' free'.
Proof.
  destruct demo_space as (k & U & E). exists k, [pg_at 3; pg_at 4].
  apply (deallocuvm_frees_pages demo_end demo_end_ok demo_me [] [] k [pg_at 3; pg_at 4] (pg_at 0) 4096 0 U no_locks).
  - lia.
  - vm_const. lia.
Defined.

Lemma freevm_frees_all_witness : exists k (free : list Z) k' (free' : list Z),
  freevm demo_end (pg_at 0) (Ctx demo_me [] []) k = Ret tt (Ctx demo_me [] []) k' /\
  (forall p, p ∈ free' <-> p ∈ free \/ owned k (pg_at 0) p).
Proof.
  destruct demo_space as (k & U & E). exists k, [pg_at 3; pg_at 4].
  destruct (freevm_frees_all demo_end demo_end_ok demo_me [] [] k [pg_at 3; pg_at 4] (pg_at 0) U no_locks) as (k' & f' & R & _ & H & _).
  exists k', f'. split; [exact R|exact H].
Defined.

Lemma copyuvm_copies_witness : exists k free d k' free',
  copyuvm demo_end demo_data (pg_at 0) 4096 (Ctx demo_me [] []) k = Ret d (Ctx demo_me [] []) k' /\
  (d <> 0 /\ copied demo_end demo_data k free (pg_at 0) d 4096 k' free' \/
   d = 0 /\ undone demo_end k free k' free' /\ Z.of_nat (length free) <= 1026).
Proof.
  destruct demo_space as (k & U & E). exists k, [pg_at 3; pg_at 4]. destruct demo_data_ok as [D1 D2].
  apply (copyuvm_copies demo_end demo_end_ok demo_data D1 D2 demo_me [] [] k [pg_at 3; pg_at 4] (pg_at 0) 4096 U no_locks).
  - vm_const. lia.
  - intros va Hva. rewrite E by lia. replace (va / 4096) with 0 by (Z.to_euclidean_division_equations; lia).
    apply (fresh_entry_fields demo_end). apply pg_at_page. lia.
Defined.

Lemma setupkvm_maps_kernel_witness : exists d k' free',
  setupkvm demo_end demo_data (Ctx demo_me [] []) (freed demo_pages) = Ret d (Ctx demo_me [] []) k' /\
  (d <> 0 /\ built demo_end (freed demo_pages) demo_pages d [] k' free' /\
    (forall va, 0 <= va < 2 ^ 32 -> entry (ram k') d va = kernel_entry demo_data va) \/
   d = 0 /\ undone demo_end (freed demo_pages) demo_pages k' free' /\ Z.of_nat (length demo_pages) <= 1025).
Proof.
  destruct demo_data_ok as [D1 D2]. destruct demo_pages_ok as [P1 P2]. destruct (freed_represents demo_pages P1 P2) as [R W].
  apply (setupkvm_maps_kernel demo_end demo_end_ok demo_data D1 D2 demo_me [] [] (freed demo_pages) demo_pages R W no_locks).
Defined.

Lemma copyout_stores_bytes_witness : exists k free k',
  copyout (pg_at 0) 100 [7; 8] (Ctx demo_me [] []) k = Ret 0 (Ctx demo_me [] []) k' /\ stored demo_end k free (pg_at 0) 100 [7; 8] k'.
Proof.
  destruct demo_space as (k & U & E). exists k, [pg_at 3; pg_at 4].
  apply (copyout_stores_bytes demo_end demo_me [] [] k [pg_at 3; pg_at 4] (pg_at 0) 100 [7; 8] U).
  - lia.
  - vm_const. cbn. lia.
  - intros a Ha. cbn [length] in Ha. rewrite E by lia. replace (a / 4096) with 0 by (Z.to_euclidean_division_equations; lia).
    split; [|done]. apply (fresh_entry_fields demo_end). apply pg_at_page. lia.
  - repeat apply Forall_cons_2; try apply Forall_nil_2; lia.
Defined.

Lemma uva2ka_null_table_witness : exists k, uva2ka (pg_at 0) 0 (Ctx demo_me [] []) k = Undef "null pointer".
Proof.
  destruct demo_pages_ok as [P1 P2]. destruct (freed_represents demo_pages P1 P2) as [R W].
  destruct (kalloc_runs demo_end demo_me [] [] _ _ R no_locks) as (k1 & _ & R1 & Em1 & Eu1).
  destruct (new_dir demo_end (freed demo_pages) k1 (pg_at 0) _ R R1 Em1 W Eu1) as (B & _ & N).
  eexists. apply (uva2ka_null_table demo_end demo_me [] [] _ _ (pg_at 0) 0 (uo_dir _ _ _ _ (bt_ok _ _ _ _ _ _ _ B))).
  apply not_true_is_false. intros H. eapply N. exists (PDX 0). split; [apply PDX_range|]. split; [exact H|reflexivity].
Defined.
