(* ===== verification/Bio.v ===== *)
(** bio.c and memide.c: the buffer cache over a disk, with the doubly linked LRU
    list kept in the [prev] and [next] pointers of the buffers.  The pointers are
    proved to represent a list of all buffers, most recently released first; the
    operations are proved to search, recycle and reorder that list, to keep at
    most one buffer per block, and to return what is on the disk. *)

From stdpp Require Import functions base numbers list strings.
From S2P Require Import Xv6 Prelude Kstring Sleeplock.

Definition B_VALID : Z := 0x2.
Definition B_DIRTY : Z := 0x4.

(** buf.h [struct buf].  Buffers are numbered 0 to [NBUF] - 1, [bcache.head] is
    [NBUF], and pointers to buffers are those numbers. *)
Record buf := Buf {
  flags : Z; dev : Z; blockno : Z; lock : sleeplock; refcnt : Z;
  prev : nat; next : nat; qnext : option nat; data : list Z }.

Definition set_flags (v : Z) (b : buf) : buf :=
  Buf v (dev b) (blockno b) (lock b) (refcnt b) (prev b) (next b) (qnext b) (data b).
Definition set_lock (v : sleeplock) (b : buf) : buf :=
  Buf (flags b) (dev b) (blockno b) v (refcnt b) (prev b) (next b) (qnext b) (data b).
Definition set_refcnt (v : Z) (b : buf) : buf :=
  Buf (flags b) (dev b) (blockno b) (lock b) v (prev b) (next b) (qnext b) (data b).
Definition set_prev (v : nat) (b : buf) : buf :=
  Buf (flags b) (dev b) (blockno b) (lock b) (refcnt b) v (next b) (qnext b) (data b).
Definition set_next (v : nat) (b : buf) : buf :=
  Buf (flags b) (dev b) (blockno b) (lock b) (refcnt b) (prev b) v (qnext b) (data b).
Definition set_qnext (v : option nat) (b : buf) : buf :=
  Buf (flags b) (dev b) (blockno b) (lock b) (refcnt b) (prev b) (next b) v (data b).
Definition set_data (v : list Z) (b : buf) : buf :=
  Buf (flags b) (dev b) (blockno b) (lock b) (refcnt b) (prev b) (next b) (qnext b) v.
(** [b->dev = dev; b->blockno = blockno; b->flags = 0; b->refcnt = 1]. *)
Definition assign (dv bn : Z) (b : buf) : buf :=
  Buf 0 dv bn (lock b) 1 (prev b) (next b) (qnext b) (data b).

Definition has_flag (f : Z) (b : buf) : bool := negb (Z.land (flags b) f =? 0).

(** The buffers, and the state of the disk driver below them. *)
Record bcache (D : Type) := Bcache { bufs : nat -> buf; disk : D }.
Arguments Bcache {D}.
Arguments bufs {D}.
Arguments disk {D}.

Definition head : nat := NBUF.

(** The driver: [iderw] transfers one locked buffer. *)
Class DiskDriver (D : Type) := { iderw : nat -> buf -> M D buf }.

Section bio.
Context {D : Type} `{DiskDriver D}.
Implicit Types (s : bcache D) (bs : nat -> buf).

Definition set_bufs bs s : bcache D := Bcache bs (disk s).
Definition upd (i : nat) (f : buf -> buf) s : bcache D := set_bufs (<[i := f (bufs s i)]> (bufs s)) s.

(** The operations of sleeplock.c on the lock of buffer [i]. *)
Definition on_lock {A} (i : nat) (m : Z -> M sleeplock A) : M (bcache D) A :=
  zoom (fun s => lock (bufs s i)) (fun k s => upd i (set_lock k) s) (m (Z.of_nat i)).

(** ... and those that only read it. *)
Definition peek_lock {A} (i : nat) (m : Z -> M sleeplock A) : M (bcache D) A :=
  zoom (fun s => lock (bufs s i)) (fun _ s => s) (m (Z.of_nat i)).

(** [bcache.head.next->prev = b; bcache.head.next = b], after the two stores to
    [b] that precede it in [binit] and [brelse]. *)
Definition push_front (i : nat) s : bcache D :=
  let s := upd i (set_next (next (bufs s head))) s in
  let s := upd i (set_prev head) s in
  let s := upd (next (bufs s head)) (set_prev i) s in
  upd head (set_next i) s.

(** The order of the stores differs between [binit] and [brelse] only in the
    place of [initsleeplock]. *)
Definition binit : M (bcache D) unit :=
  modify (upd head (set_prev head));;
  modify (upd head (set_next head));;
  modify (fun s => fold_left (fun s i => push_front i (upd i (set_lock initsleeplock) s)) (seq 0 NBUF) s).

(** A scan of the list from [b] along [step]: [Some (Some i)] when buffer [i]
    passes the test, [Some None] when the list head is reached. *)
Fixpoint scan (step : nat -> nat) (test : nat -> bool) (fuel : nat) (b : nat) : option (option nat) :=
  match fuel with
  | O => None
  | S f => if Nat.eqb b head then Some None
           else if test b then Some (Some b) else scan step test f (step b)
  end.

Definition bget (dv bn : Z) : M (bcache D) nat :=
  acquire Lbcache;;
  s <- get;;
  let bs := bufs s in
  match scan (fun i => next (bs i)) (fun i => (dev (bs i) =? dv) && (blockno (bs i) =? bn))
          (S NBUF) (next (bs head)) with
  | None => undef "buffer list without end"
  | Some (Some i) =>
      modify (upd i (fun b => set_refcnt (u32 (refcnt b + 1)) b));;
      release Lbcache;;
      on_lock i acquiresleep;;
      ret i
  | Some None =>
      match scan (fun i => prev (bs i)) (fun i => (refcnt (bs i) =? 0) && negb (has_flag B_DIRTY (bs i)))
              (S NBUF) (prev (bs head)) with
      | None => undef "buffer list without end"
      | Some (Some i) =>
          modify (upd i (assign dv bn));;
          release Lbcache;;
          on_lock i acquiresleep;;
          ret i
      | Some None => panic "bget: no buffers"
      end
  end.

(** A call of the driver on buffer [i]. *)
Definition rw (i : nat) : M (bcache D) unit :=
  s <- get;;
  b <- zoom disk (fun d s => Bcache (bufs s) d) (iderw i (bufs s i));;
  modify (upd i (fun _ => b)).

Definition bread (dv bn : Z) : M (bcache D) nat :=
  i <- bget dv bn;;
  s <- get;;
  (if negb (has_flag B_VALID (bufs s i)) then rw i else ret tt);;
  ret i.

Definition bwrite (i : nat) : M (bcache D) unit :=
  h <- peek_lock i holdingsleep;;
  if negb h then panic "bwrite"
  else
    modify (upd i (fun b => set_flags (Z.lor (flags b) B_DIRTY) b));;
    rw i.

(** [b->next->prev = b->prev; b->prev->next = b->next]. *)
Definition unlink (i : nat) s : bcache D :=
  let s := upd (next (bufs s i)) (set_prev (prev (bufs s i))) s in
  upd (prev (bufs s i)) (set_next (next (bufs s i))) s.

Definition brelse (i : nat) : M (bcache D) unit :=
  h <- peek_lock i holdingsleep;;
  if negb h then panic "brelse"
  else
    on_lock i releasesleep;;
    acquire Lbcache;;
    modify (upd i (fun b => set_refcnt (u32 (refcnt b - 1)) b));;
    s <- get;;
    (if refcnt (bufs s i) =? 0 then modify (fun s => push_front i (unlink i s)) else ret tt);;
    release Lbcache.

End bio.

(** ** memide.c: the disk in memory *)

Record memdisk := Memdisk { disksize : Z; image : mem }.

(** Block [n] of the image. *)
Definition block_of (d : memdisk) (n : Z) : list Z := bytes_at (image d) (n * BSIZE) (Z.to_nat BSIZE).

Definition memide_iderw (i : nat) (b : buf) : M memdisk buf :=
  h <- zoom (fun _ => lock b) (fun _ d => d) (holdingsleep (Z.of_nat i));;
  d <- get;;
  if negb h then panic "iderw: buf not locked"
  else if Z.land (flags b) (Z.lor B_VALID B_DIRTY) =? B_VALID then panic "iderw: nothing to do"
  else if negb (dev b =? 1) then panic "iderw: request not for disk 1"
  else if disksize d <=? blockno b then panic "iderw: block out of range"
  else if has_flag B_DIRTY b then
    modify (fun d => Memdisk (disksize d) (put_bytes (image d) (blockno b * BSIZE) (data b)));;
    ret (set_flags (Z.lor (Z.ldiff (flags b) B_DIRTY) B_VALID) b)
  else ret (set_flags (Z.lor (flags b) B_VALID) (set_data (block_of d (blockno b)) b)).

#[export] Instance memide : DiskDriver memdisk := {| iderw := memide_iderw |}.

(** ** Doubly linked segments

    [seg nxt prv x l y]: following [nxt] from [x] visits the nodes of [l] and
    arrives at [y], and following [prv] from [y] visits them in reverse. *)
Fixpoint seg (nxt prv : nat -> nat) (x : nat) (l : list nat) (y : nat) : Prop :=
  match l with
  | [] => nxt x = y /\ prv y = x
  | z :: l' => nxt x = z /\ prv z = x /\ seg nxt prv z l' y
  end.

Lemma seg_ext nxt prv nxt' prv' l : forall x y,
  (forall z, z ∈ x :: l -> nxt' z = nxt z) -> (forall z, z ∈ l ++ [y] -> prv' z = prv z) ->
  seg nxt prv x l y -> seg nxt' prv' x l y.
Proof.
  induction l as [|z l IH]; intros x y Hn Hp; cbn [seg].
  - intros [H1 H2]. rewrite Hn by by left. rewrite Hp by by left. done.
  - intros (H1 & H2 & Hs). rewrite Hn by by left. rewrite Hp by by left. split; [done|]. split; [done|].
    apply IH; [intros w Hw; apply Hn; by right | intros w Hw; apply Hp; by right | done].
Qed.

Lemma seg_app nxt prv l1 z l2 : forall x y,
  seg nxt prv x (l1 ++ z :: l2) y <-> seg nxt prv x l1 z /\ seg nxt prv z l2 y.
Proof. induction l1 as [|w l1 IH]; intros x y; cbn [seg app]; [|rewrite IH]; tauto. Qed.

Lemma seg_prv_in nxt prv l : forall x y, seg nxt prv x l y -> prv y ∈ x :: l.
Proof.
  induction l as [|z l IH]; intros x y; cbn [seg].
  - intros [_ ->]. by left.
  - intros (_ & _ & Hs). right. by apply IH.
Qed.

Lemma seg_nxt_in nxt prv l x y : seg nxt prv x l y -> nxt x ∈ l ++ [y].
Proof. destruct l; cbn [seg app]; intros [-> _]; by left. Qed.

(** Taking [b] out: [b->next->prev = b->prev; b->prev->next = b->next]. *)
Lemma seg_unlink nxt prv b l2 y : forall l1 x,
  NoDup (l1 ++ b :: l2) -> x ∉ l1 ++ b :: l2 -> y ∉ l1 ++ b :: l2 ->
  seg nxt prv x (l1 ++ b :: l2) y ->
  seg (<[prv b := nxt b]> nxt) (<[nxt b := prv b]> prv) x (l1 ++ l2) y.
Proof.
  induction l1 as [|w l1 IH]; intros x Hn Hx Hy Hs; cbn [app] in *.
  - apply not_elem_of_cons in Hx as [Nxb Nx]. apply not_elem_of_cons in Hy as [Nyb Ny].
    apply NoDup_cons in Hn as [Nb Hn]. destruct Hs as (H1 & H2 & Hs). rewrite H2.
    destruct l2 as [|z l3]; cbn [seg] in *.
    + destruct Hs as [-> _]. by rewrite !fn_lookup_insert.
    + destruct Hs as (-> & _ & Hs). rewrite !fn_lookup_insert. split; [done|]. split; [done|].
      apply not_elem_of_cons in Nx as [Nxz Nx]. apply not_elem_of_cons in Ny as [Nyz Ny].
      apply NoDup_cons in Hn as [Nz Hn].
      eapply seg_ext; [| |exact Hs].
      * intros v Hv. apply fn_lookup_insert_ne. intros ->. apply elem_of_cons in Hv as [?|?]; congruence.
      * intros v Hv. apply fn_lookup_insert_ne. intros ->. apply elem_of_app in Hv as [?|Hv]; [congruence|].
        apply list_elem_of_singleton in Hv. congruence.
  - apply not_elem_of_cons in Hx as [Nxw Nx]. apply not_elem_of_cons in Hy as [Nyw Ny].
    apply NoDup_cons in Hn as [Nw Hn]. destruct Hs as (H1 & H2 & Hs).
    pose proof (proj1 (seg_app _ _ _ _ _ _ _) Hs) as [Hs1 Hs2].
    pose proof (seg_prv_in _ _ _ _ _ Hs1) as Hpb. pose proof (seg_nxt_in _ _ _ _ _ Hs2) as Hnb.
    assert (w ∉ l2 ++ [y]) as Nw2.
    { rewrite elem_of_app, list_elem_of_singleton. intros [?|?]; [|congruence].
      apply Nw, elem_of_app. right. by right. }
    cbn [seg]. rewrite (fn_lookup_insert_ne prv) by congruence. rewrite fn_lookup_insert_ne.
    + split; [done|]. split; [done|]. by apply IH.
    + intros Heq. rewrite Heq in Hpb. apply elem_of_cons in Hpb as [?|Hpb]; [congruence|].
      apply Nx, elem_of_app. by left.
Qed.

(** Putting [b] in front. *)
Lemma seg_push nxt prv b l x y :
  NoDup l -> b ∉ l -> b ≠ x -> b ≠ y -> x ∉ l -> y ∉ l -> seg nxt prv x l y ->
  seg (<[x := b]> (<[b := nxt x]> nxt)) (<[nxt x := b]> (<[b := x]> prv)) x (b :: l) y.
Proof.
  intros Hn Nb Nx Ny Nxl Nyl Hs. cbn [seg]. rewrite fn_lookup_insert. split; [done|].
  pose proof (seg_nxt_in _ _ _ _ _ Hs) as Hin.
  assert (nxt x ≠ b) as Nn.
  { intros Heq. rewrite Heq in Hin. apply elem_of_app in Hin as [?|Hin]; [done|].
    apply list_elem_of_singleton in Hin. congruence. }
  split; [by rewrite fn_lookup_insert_ne, fn_lookup_insert|].
  destruct l as [|z l]; cbn [seg] in *.
  - destruct Hs as [-> _]. rewrite fn_lookup_insert_ne, !fn_lookup_insert by congruence. done.
  - destruct Hs as (-> & _ & Hs). apply not_elem_of_cons in Nb as [Nbz Nb].
    rewrite fn_lookup_insert_ne, !fn_lookup_insert by congruence. split; [done|]. split; [done|].
    apply not_elem_of_cons in Nxl as [Nxz Nxl]. apply not_elem_of_cons in Nyl as [Nyz Nyl].
    apply NoDup_cons in Hn as [Nz Hn]. eapply seg_ext; [| |exact Hs].
    + intros v Hv. rewrite !fn_lookup_insert_ne; [done|..]; intros ->;
        apply elem_of_cons in Hv as [?|?]; congruence.
    + intros v Hv. rewrite !fn_lookup_insert_ne; [done|..]; intros ->;
        (apply elem_of_app in Hv as [?|Hv]; [congruence|]);
        apply list_elem_of_singleton in Hv; congruence.
Qed.

(** ** The LRU list *)

Definition nexts (bs : nat -> buf) (i : nat) : nat := next (bs i).
Definition prevs (bs : nat -> buf) (i : nat) : nat := prev (bs i).

(** The pointers of [bs] link all buffers into a ring, in the order [l]. *)
Definition lru (bs : nat -> buf) (l : list nat) : Prop :=
  seg (nexts bs) (prevs bs) head l head /\ NoDup l /\ forall i, i ∈ l <-> (i < NBUF)%nat.

Ltac fn_cases :=
  unfold insert, fn_insert in *;
  repeat (case_decide; subst; cbn in *; try congruence; try done).

Section lists.
Context {D : Type}.
Implicit Types (s : bcache D).

Lemma push_front_links i s j :
  i ≠ head ->
  nexts (bufs (push_front i s)) j = (<[head := i]> (<[i := nexts (bufs s) head]> (nexts (bufs s)))) j /\
  prevs (bufs (push_front i s)) j =
    (<[nexts (bufs s) head := i]> (<[i := head]> (prevs (bufs s)))) j.
Proof.
  intros Hi. unfold push_front, nexts, prevs, upd, set_bufs. cbn. split; fn_cases.
Qed.

Lemma unlink_links i s j :
  nexts (bufs s) i ≠ i ->
  nexts (bufs (unlink i s)) j = (<[prevs (bufs s) i := nexts (bufs s) i]> (nexts (bufs s))) j /\
  prevs (bufs (unlink i s)) j = (<[nexts (bufs s) i := prevs (bufs s) i]> (prevs (bufs s))) j.
Proof.
  intros Hi. unfold unlink, nexts, prevs, upd, set_bufs in *. cbn in *. split; fn_cases.
Qed.

(** What a list operation leaves alone. *)
Definition content (b : buf) : Z * Z * Z * sleeplock * Z * list Z :=
  (flags b, dev b, blockno b, lock b, refcnt b, data b).

Lemma push_front_content i s j : content (bufs (push_front i s) j) = content (bufs s j).
Proof. unfold push_front, upd, set_bufs, content. cbn. fn_cases. Qed.

Lemma unlink_content i s j : content (bufs (unlink i s) j) = content (bufs s j).
Proof. unfold unlink, upd, set_bufs, content. cbn. fn_cases. Qed.

Lemma seg_push_front i s l :
  NoDup l -> i ∉ l -> i ≠ head -> head ∉ l ->
  seg (nexts (bufs s)) (prevs (bufs s)) head l head ->
  seg (nexts (bufs (push_front i s))) (prevs (bufs (push_front i s))) head (i :: l) head.
Proof.
  intros Hn Ni Nh Nhl Hs. eapply seg_ext; [| |by apply seg_push].
  - intros z _. by apply push_front_links.
  - intros z _. by apply push_front_links.
Qed.

Lemma lru_head bs l : lru bs l -> head ∉ l.
Proof. intros (_ & _ & Hi) Hin. apply Hi in Hin. unfold head in Hin. lia. Qed.

(** Moving a buffer to the front of the list. *)
Lemma move_to_front i s l1 l2 :
  lru (bufs s) (l1 ++ i :: l2) -> lru (bufs (push_front i (unlink i s))) (i :: l1 ++ l2).
Proof.
  intros L. pose proof (lru_head _ _ L) as Nh. destruct L as (Hs & Hn & Hi).
  assert (i ∈ l1 ++ i :: l2) as Hin by (apply elem_of_app; right; by left).
  assert (i ≠ head) as Nih by congruence.
  pose proof (proj1 (seg_app _ _ _ _ _ _ _) Hs) as [_ Hs2].
  assert (l1 ++ i :: l2 ≡ₚ i :: l1 ++ l2) as Hp by (symmetry; apply Permutation_middle).
  assert (NoDup (i :: l1 ++ l2)) as Hn' by by rewrite <- Hp.
  apply NoDup_cons in Hn' as [Ni Hn'].
  assert (nexts (bufs s) i ≠ i) as Nn.
  { pose proof (seg_nxt_in _ _ _ _ _ Hs2) as Hx. intros Heq. rewrite Heq in Hx.
    apply elem_of_app in Hx as [Hx|Hx]; [apply Ni, elem_of_app; by right|].
    apply list_elem_of_singleton in Hx. done. }
  assert (head ∉ l1 ++ l2) as Nh' by (intros Hx; apply Nh; rewrite Hp; by right).
  split; [|split].
  - apply seg_push_front; try done. eapply seg_ext; [| |by apply (seg_unlink (nexts (bufs s)) (prevs (bufs s)) i l2 head l1 head)].
    + intros z _. by apply unlink_links.
    + intros z _. by apply unlink_links.
  - by constructor.
  - intros j. rewrite <- Hi, Hp. done.
Qed.

Lemma binit_links n s :
  (n <= NBUF)%nat -> seg (nexts (bufs s)) (prevs (bufs s)) head [] head ->
  let s' := fold_left (fun s i => push_front i (upd i (set_lock initsleeplock) s)) (seq 0 n) s in
  seg (nexts (bufs s')) (prevs (bufs s')) head (reverse (seq 0 n)) head.
Proof.
  intros Hn Hs. induction n as [|n IH]; [done|].
  rewrite seq_S, fold_left_app, reverse_snoc. cbn [fold_left Nat.add].
  apply seg_push_front.
  - rewrite reverse_Permutation. apply NoDup_seq.
  - rewrite reverse_Permutation, elem_of_seq. lia.
  - unfold head. lia.
  - rewrite reverse_Permutation, elem_of_seq. unfold head. lia.
  - eapply seg_ext; [| |apply IH; lia].
    + intros z _. unfold nexts, upd, set_bufs. cbn. fn_cases.
    + intros z _. unfold prevs, upd, set_bufs. cbn. fn_cases.
Qed.

(** Scanning a segment is searching its list. *)
Lemma scan_find nxt prv test l : forall fuel x,
  (length l < fuel)%nat -> head ∉ l -> seg nxt prv x l head ->
  scan nxt test fuel (nxt x) = Some (List.find test l).
Proof.
  induction l as [|z l IH]; intros [|fuel] x Hf Nh Hs; cbn [length] in Hf; try lia; cbn [scan seg List.find] in *.
  - destruct Hs as [-> _]. by rewrite Nat.eqb_refl.
  - destruct Hs as (-> & _ & Hs). apply not_elem_of_cons in Nh as [Nz Nh].
    destruct (Nat.eqb_spec z head); [congruence|]. destruct (test z); [done|]. apply IH; [lia|done..].
Qed.

Lemma seg_rev nxt prv l : forall x y, seg nxt prv x l y -> seg prv nxt y (reverse l) x.
Proof.
  induction l as [|z l IH]; intros x y; [intros [? ?]; by split | cbn [seg]].
  intros (H1 & H2 & Hs). rewrite reverse_cons. apply seg_app. split; [by apply IH | done].
Qed.

Lemma lru_length bs l : lru bs l -> length l = NBUF.
Proof.
  intros (_ & Hn & Hi). rewrite <- (length_seq NBUF 0). apply Permutation_length, NoDup_Permutation;
    [done | apply NoDup_seq |]. intros i. rewrite Hi, elem_of_seq. lia.
Qed.

End lists.

(** ** The cache invariant *)

Section cache.
Context {D : Type}.
Implicit Types (s : bcache D).

Definition good_flags (b : buf) : Prop := flags b ∈ [0; B_VALID; Z.lor B_VALID B_DIRTY].

(** The list is well formed; no block of a real device is in two buffers; a
    buffer nobody refers to is not locked. *)
Record cache_inv s (l : list nat) : Prop := {
  ci_lru : lru (bufs s) l;
  ci_unique i j : (i < NBUF)%nat -> (j < NBUF)%nat -> dev (bufs s i) ≠ 0 ->
    dev (bufs s i) = dev (bufs s j) -> blockno (bufs s i) = blockno (bufs s j) -> i = j;
  ci_idle i : (i < NBUF)%nat -> refcnt (bufs s i) = 0 -> locked (lock (bufs s i)) = false;
  ci_refcnt i : (i < NBUF)%nat -> 0 <= refcnt (bufs s i) < 2 ^ 31;
  ci_flags i : (i < NBUF)%nat -> good_flags (bufs s i);
  ci_data i : (i < NBUF)%nat -> length (data (bufs s i)) = Z.to_nat BSIZE }.

(** The tests of the two scans of [bget]. *)
Definition caches s (dv bn : Z) (i : nat) : bool :=
  (dev (bufs s i) =? dv) && (blockno (bufs s i) =? bn).
Definition recyclable s (i : nat) : bool :=
  (refcnt (bufs s i) =? 0) && negb (has_flag B_DIRTY (bufs s i)).

Lemma scan_cached s l dv bn : lru (bufs s) l ->
  scan (fun i => next (bufs s i)) (fun i => (dev (bufs s i) =? dv) && (blockno (bufs s i) =? bn))
    (S NBUF) (next (bufs s head)) = Some (List.find (caches s dv bn) l).
Proof.
  intros L. pose proof (lru_length _ _ L) as Len. pose proof (lru_head _ _ L) as Nh. destruct L as (Hs & _).
  eapply (scan_find (nexts (bufs s)) (prevs (bufs s)) (caches s dv bn) l (S NBUF) head); [lia|done|done].
Qed.

Lemma scan_recyclable s l : lru (bufs s) l ->
  scan (fun i => prev (bufs s i)) (fun i => (refcnt (bufs s i) =? 0) && negb (has_flag B_DIRTY (bufs s i)))
    (S NBUF) (prev (bufs s head)) = Some (List.find (recyclable s) (reverse l)).
Proof.
  intros L. pose proof (lru_length _ _ L) as Len. pose proof (lru_head _ _ L) as Nh. destruct L as (Hs & _).
  eapply (scan_find (prevs (bufs s)) (nexts (bufs s)) (recyclable s) (reverse l) (S NBUF) head).
  - rewrite length_reverse. lia.
  - by rewrite reverse_Permutation.
  - by apply seg_rev.
Qed.

(** Changing fields of one buffer other than its pointers. *)
Lemma lru_upd i f s l :
  next (f (bufs s i)) = next (bufs s i) /\ prev (f (bufs s i)) = prev (bufs s i) ->
  lru (bufs s) l -> lru (bufs (upd i f s)) l.
Proof.
  intros Hf (Hs & Hn & Hi). split; [|done]. eapply seg_ext; [| |exact Hs].
  - intros z _. unfold nexts, upd, set_bufs. cbn. unfold insert, fn_insert. case_decide; subst; [apply Hf|done].
  - intros z _. unfold prevs, upd, set_bufs. cbn. unfold insert, fn_insert. case_decide; subst; [apply Hf|done].
Qed.

Lemma buf_upd_same i f s : bufs (upd i f s) i = f (bufs s i).
Proof. unfold upd, set_bufs. cbn. apply fn_lookup_insert. Qed.
Lemma buf_upd_other i j f s : j ≠ i -> bufs (upd i f s) j = bufs s j.
Proof. intros N. unfold upd, set_bufs. cbn. by rewrite fn_lookup_insert_ne. Qed.

Lemma find_some_in {A} (f : A -> bool) l x : List.find f l = Some x -> x ∈ l /\ f x = true.
Proof. intros Hf. apply List.find_some in Hf as [Hi Hf]. by rewrite list_elem_of_In. Qed.

(** What [acquiresleep] on the lock of buffer [i] does. *)
Lemma on_lock_acquire i t h w s :
  Lsleep (Z.of_nat i) ∉ h -> locked (lock (bufs s i)) = false ->
  on_lock i acquiresleep (Ctx t h w) s =
  Ret tt (Ctx t h w) (upd i (set_lock (Sleeplock true (t_pid t))) s).
Proof.
  intros Hl Hf. unfold on_lock, zoom. destruct (lock (bufs s i)) as [b n]. cbn in Hf. subst b.
  by rewrite acquiresleep_free.
Qed.

Lemma on_lock_block i t w s :
  locked (lock (bufs s i)) = true ->
  on_lock i acquiresleep (Ctx t [] w) s =
  Sleep (Csleeplock (Z.of_nat i)) (Lsleep (Z.of_nat i)) (Ctx t [] w) (upd i (set_lock (lock (bufs s i))) s).
Proof.
  intros Hf. unfold on_lock, zoom. destruct (lock (bufs s i)) as [b n]. cbn in Hf. subst b.
  by rewrite acquiresleep_taken.
Qed.

Lemma peek_lock_holding i t h w s :
  Lsleep (Z.of_nat i) ∉ h ->
  peek_lock i holdingsleep (Ctx t h w) s =
  Ret (locked (lock (bufs s i)) && (pid (lock (bufs s i)) =? t_pid t)) (Ctx t h w) s.
Proof. intros Hl. unfold peek_lock, zoom. by rewrite holdingsleep_runs. Qed.

Lemma on_lock_release i t h w s :
  Lsleep (Z.of_nat i) ∉ h -> Lptable ∉ h ->
  on_lock i releasesleep (Ctx t h w) s =
  Ret tt (Ctx t h (w ++ [Csleeplock (Z.of_nat i)])) (upd i (set_lock (Sleeplock false 0)) s).
Proof. intros Hl Hp. unfold on_lock, zoom. by rewrite releasesleep_runs. Qed.

End cache.

#[global] Arguments upd : simpl never.

(** ** The operations *)

Section operations.
Context {D : Type} `{DiskDriver D}.
Implicit Types (s : bcache D).

(** Buffer [i] locked by thread [t] with one more reference. *)
Definition taken (t : thread) (i : nat) s : bcache D :=
  upd i (set_lock (Sleeplock true (t_pid t))) (upd i (fun b => set_refcnt (u32 (refcnt b + 1)) b) s).

(** Buffer [i] recycled for a block and locked by thread [t]. *)
Definition recycled (t : thread) (dv bn : Z) (i : nat) s : bcache D :=
  upd i (set_lock (Sleeplock true (t_pid t))) (upd i (assign dv bn) s).

Lemma bget_cached t w s l dv bn i :
  lru (bufs s) l -> List.find (caches s dv bn) l = Some i -> locked (lock (bufs s i)) = false ->
  bget dv bn (Ctx t [] w) s = Ret i (Ctx t [] w) (taken t i s).
Proof.
  intros L F Hf. unfold bget. do 2 mstep. rewrite (scan_cached s l dv bn L), F. mrun.
  erewrite bind_Ret; [|apply on_lock_acquire; [apply not_elem_of_nil|by rewrite buf_upd_same]]. done.
Qed.

Lemma bget_recycles t w s l dv bn i :
  lru (bufs s) l -> List.find (caches s dv bn) l = None ->
  List.find (recyclable s) (reverse l) = Some i -> locked (lock (bufs s i)) = false ->
  bget dv bn (Ctx t [] w) s = Ret i (Ctx t [] w) (recycled t dv bn i s).
Proof.
  intros L F R Hf. unfold bget. do 2 mstep. rewrite (scan_cached s l dv bn L), F, (scan_recyclable s l L), R.
  mrun. erewrite bind_Ret; [|apply on_lock_acquire; [apply not_elem_of_nil|by rewrite buf_upd_same]]. done.
Qed.

(** Replacing the contents of one buffer keeps the invariant if the buffer
    stays well formed and no other holds its block. *)
Lemma cache_inv_upd i f s l :
  cache_inv s l -> (i < NBUF)%nat ->
  next (f (bufs s i)) = next (bufs s i) /\ prev (f (bufs s i)) = prev (bufs s i) ->
  let b := f (bufs s i) in
  (refcnt b = 0 -> locked (lock b) = false) -> 0 <= refcnt b < 2 ^ 31 -> good_flags b ->
  length (data b) = Z.to_nat BSIZE ->
  (forall j, (j < NBUF)%nat -> j ≠ i -> dev b ≠ 0 -> dev b = dev (bufs s j) ->
     blockno b = blockno (bufs s j) -> False) ->
  cache_inv (upd i f s) l.
Proof.
  intros [L U Id Rc Fl Da] Hi Hf b H1 H2 H3 H4 H5.
  assert (forall j (P : buf -> Prop), (j = i -> P b) -> (j ≠ i -> P (bufs s j)) -> P (bufs (upd i f s) j)) as Cs.
  { intros j P P1 P2. destruct (decide (j = i)) as [->|N]; [rewrite buf_upd_same; auto | rewrite buf_upd_other; auto]. }
  split.
  - by apply lru_upd.
  - intros j k Hj Hk. destruct (decide (j = i)) as [->|Nj], (decide (k = i)) as [->|Nk]; try done;
      rewrite ?buf_upd_same, ?buf_upd_other by done; fold b; intros E1 E2 E3.
    + exfalso. by apply (H5 k).
    + exfalso. apply (H5 j); congruence.
    + by apply U.
  - intros j Hj. apply Cs; auto.
  - intros j Hj. apply Cs; auto.
  - intros j Hj. apply Cs; auto.
  - intros j Hj. apply Cs; auto.
Qed.

Lemma cache_inv_ext s s' l : (forall j, bufs s' j = bufs s j) -> cache_inv s l -> cache_inv s' l.
Proof.
  intros E [(Hs & Hn & Hi) U Id Rc Fl Da]. split; try (intros; rewrite ?E in *; eauto).
  split; [|done]. eapply seg_ext; [| |exact Hs]; intros z _; unfold nexts, prevs; by rewrite E.
Qed.

Lemma find_ext {A} (f g : A -> bool) l : (forall x, f x = g x) -> List.find f l = List.find g l.
Proof. intros E. induction l as [|x l IH]; cbn; [done|]. by rewrite E, IH. Qed.

Lemma find_none_all {A} (f : A -> bool) l x : List.find f l = None -> x ∈ l -> f x = false.
Proof. intros Hf Hx. eapply List.find_none; [done|]. by apply list_elem_of_In. Qed.

Lemma cache_inv_taken t s l i :
  cache_inv s l -> (i < NBUF)%nat -> refcnt (bufs s i) + 1 < 2 ^ 31 -> cache_inv (taken t i s) l.
Proof.
  intros C Hi Hr. pose proof (ci_refcnt s l C i Hi) as R0.
  assert (u32 (refcnt (bufs s i) + 1) = refcnt (bufs s i) + 1) as Eu by (apply u32_small; lia).
  assert (forall j, (j < NBUF)%nat -> j ≠ i -> dev (bufs s i) ≠ 0 -> dev (bufs s i) = dev (bufs s j) ->
    blockno (bufs s i) = blockno (bufs s j) -> False) as Hu.
  { intros j Hj Nj N0 E1 E2. apply Nj. symmetry. by apply (ci_unique s l C i j). }
  unfold taken. apply cache_inv_upd; [|done|done|..]; rewrite ?buf_upd_same; cbn; rewrite ?Eu; try lia;
    try by apply (ci_flags s l C i). 
  - apply cache_inv_upd; cbn; rewrite ?Eu; try done; try lia; [by apply (ci_flags s l C i) | by apply (ci_data s l C i)].
  - by apply (ci_data s l C i).
  - intros j Hj Nj. rewrite buf_upd_other by done. by apply Hu.
Qed.

Lemma cache_inv_recycled t s l dv bn i :
  cache_inv s l -> (i < NBUF)%nat -> List.find (caches s dv bn) l = None -> cache_inv (recycled t dv bn i s) l.
Proof.
  intros C Hi F.
  assert (forall j, (j < NBUF)%nat -> j ≠ i -> dv ≠ 0 -> dv = dev (bufs s j) ->
    bn = blockno (bufs s j) -> False) as Hu.
  { intros j Hj Nj _ E1 E2. destruct (ci_lru s l C) as (_ & _ & Hin).
    pose proof (find_none_all _ _ j F (proj2 (Hin j) Hj)) as Hc. unfold caches in Hc.
    rewrite <- E1, <- E2, !Z.eqb_refl in Hc. done. }
  assert (cache_inv (upd i (assign dv bn) s) l) as C1.
  { apply cache_inv_upd; cbn; try done; try lia; [by left | by apply (ci_data s l C i)]. }
  unfold recycled. apply cache_inv_upd; [done..| | | | |]; rewrite ?buf_upd_same; cbn; try done; try lia.
  - by left.
  - by apply (ci_data s l C i).
  - intros j Hj Nj. rewrite buf_upd_other by done. by apply Hu.
Qed.

End operations.

(** ** The cache over the memory disk *)

Lemma bytes_at_length m a n : length (bytes_at m a n) = n.
Proof. unfold bytes_at. by rewrite length_map, length_seq. Qed.

Lemma bytes_at_lookup m a n k : (k < n)%nat -> bytes_at m a n !! k = Some (m (a + Z.of_nat k)).
Proof.
  intros Hk. unfold bytes_at. rewrite list_lookup_fmap, lookup_seq_lt by done. done.
Qed.

Lemma bytes_at_put_same m a l : bytes_at (put_bytes m a l) a (length l) = l.
Proof.
  apply list_eq. intros k. destruct (decide (k < length l)%nat) as [Hk|Hk].
  - rewrite bytes_at_lookup by done. unfold put_bytes. zcases; try lia. cbn [andb].
    destruct (lookup_lt_is_Some_2 l k Hk) as [x Ex]. rewrite Ex. f_equal.
    replace (Z.to_nat (a + Z.of_nat k - a)) with k by lia. by apply nth_lookup_Some.
  - rewrite !lookup_ge_None_2; [done | lia | rewrite bytes_at_length; lia].
Qed.

Lemma bytes_at_put_other m a l b n :
  b + Z.of_nat n <= a \/ a + Z.of_nat (length l) <= b -> bytes_at (put_bytes m a l) b n = bytes_at m b n.
Proof.
  intros Hd. unfold bytes_at. apply map_ext_in. intros k Hk%in_seq. unfold put_bytes.
  zcases; cbn [andb]; lia || done.
Qed.

Definition write_block (d : memdisk) (n : Z) (l : list Z) : memdisk :=
  Memdisk (disksize d) (put_bytes (image d) (n * BSIZE) l).

Lemma block_write_same d n l : length l = Z.to_nat BSIZE -> block_of (write_block d n l) n = l.
Proof. intros Hl. unfold block_of, write_block. cbn [image]. rewrite <- Hl. apply bytes_at_put_same. Qed.

Lemma block_write_other d n l k :
  length l = Z.to_nat BSIZE -> k ≠ n -> block_of (write_block d n l) k = block_of d k.
Proof.
  intros Hl Hk. unfold block_of, write_block. cbn [image]. apply bytes_at_put_other.
  rewrite Hl. unfold BSIZE. lia.
Qed.

Lemma length_block_of d n : length (block_of d n) = Z.to_nat BSIZE.
Proof. apply bytes_at_length. Qed.

Definition valid (b : buf) : bool := has_flag B_VALID b.
Definition dirty (b : buf) : bool := has_flag B_DIRTY b.

(** The three values of [flags]. *)
Lemma flags_cases b : good_flags b ->
  (valid b = false /\ dirty b = false /\ flags b = 0) \/ (valid b = true /\ dirty b = false /\ flags b = B_VALID) \/
  (valid b = true /\ dirty b = true /\ flags b = Z.lor B_VALID B_DIRTY).
Proof.
  unfold good_flags, valid, dirty, has_flag. rewrite !elem_of_cons, elem_of_nil.
  intros [E|[E|[E|[]]]]; rewrite E; vm_compute; auto 6.
Qed.

Lemma memide_reads i b t h w d :
  Lsleep (Z.of_nat i) ∉ h -> lock b = Sleeplock true (t_pid t) -> flags b = 0 -> dev b = 1 ->
  blockno b < disksize d ->
  memide_iderw i b (Ctx t h w) d =
  Ret (set_flags B_VALID (set_data (block_of d (blockno b)) b)) (Ctx t h w) d.
Proof.
  intros Hl Hk Hf Hd Hb. unfold memide_iderw.
  erewrite bind_Ret; [|unfold zoom; rewrite holdingsleep_runs by done; reflexivity]. mstep.
  rewrite Hk. cbn [locked pid]. rewrite Z.eqb_refl, Hf, Hd. cbn [andb negb].
  change (Z.land 0 (Z.lor B_VALID B_DIRTY) =? B_VALID) with false. cbn [Z.eqb negb].
  destruct (Z.leb_spec (disksize d) (blockno b)); [lia|].
  assert (has_flag B_DIRTY b = false) as -> by (unfold has_flag; by rewrite Hf). done.
Qed.

Lemma memide_writes i b t h w d :
  Lsleep (Z.of_nat i) ∉ h -> lock b = Sleeplock true (t_pid t) -> good_flags b -> dirty b = true -> dev b = 1 ->
  blockno b < disksize d ->
  memide_iderw i b (Ctx t h w) d =
  Ret (set_flags B_VALID b) (Ctx t h w) (write_block d (blockno b) (data b)).
Proof.
  intros Hl Hk Hf Hdi Hd Hb. unfold memide_iderw.
  erewrite bind_Ret; [|unfold zoom; rewrite holdingsleep_runs by done; reflexivity]. mstep.
  rewrite Hk. cbn [locked pid]. rewrite Z.eqb_refl, Hd. cbn [andb negb].
  assert ((Z.land (flags b) (Z.lor B_VALID B_DIRTY) =? B_VALID) = false /\
    Z.lor (Z.ldiff (flags b) B_DIRTY) B_VALID = B_VALID) as [-> ->].
  { destruct (flags_cases b Hf) as [(_ & E & _)|[(_ & E & _)|(_ & _ & E)]];
      [congruence..|]; by rewrite E. }
  cbn [Z.eqb negb]. destruct (Z.leb_spec (disksize d) (blockno b)); [lia|].
  unfold dirty in Hdi. rewrite Hdi. by mrun.
Qed.

(** What the cache relies on in the driver of device 1: each block of the device
    has contents, [iderw] reads the contents of a buffer that is not valid and
    writes those of a dirty one. *)
Class Disk (D : Type) `{DiskDriver D} := {
  nblocks : D -> Z;
  block : D -> Z -> list Z;
  put_block : D -> Z -> list Z -> D;
  nblocks_put d n l : nblocks (put_block d n l) = nblocks d;
  block_put_same d n l : length l = Z.to_nat BSIZE -> block (put_block d n l) n = l;
  block_put_other d n l k : length l = Z.to_nat BSIZE -> k ≠ n -> block (put_block d n l) k = block d k;
  length_block d n : length (block d n) = Z.to_nat BSIZE;
  iderw_reads i b t h w d :
    Lsleep (Z.of_nat i) ∉ h -> lock b = Sleeplock true (t_pid t) -> flags b = 0 -> dev b = 1 ->
    blockno b < nblocks d ->
    iderw i b (Ctx t h w) d = Ret (set_flags B_VALID (set_data (block d (blockno b)) b)) (Ctx t h w) d;
  iderw_writes i b t h w d :
    Lsleep (Z.of_nat i) ∉ h -> lock b = Sleeplock true (t_pid t) -> good_flags b -> dirty b = true ->
    dev b = 1 -> blockno b < nblocks d ->
    iderw i b (Ctx t h w) d = Ret (set_flags B_VALID b) (Ctx t h w) (put_block d (blockno b) (data b)) }.

#[export] Program Instance memide_disk : Disk memdisk :=
  {| nblocks := disksize; block := block_of; put_block := write_block |}.
Solve Obligations with eauto using block_write_same, block_write_other, length_block_of, memide_reads, memide_writes.

Section over_disk.
Context {D : Type} {Drv : DiskDriver D} {Dsk : Disk D}.
Implicit Types (s : bcache D).

(** What a reader of block [n] sees: the cached copy if there is one. *)
Definition view s (n : Z) : list Z :=
  match List.find (fun i => caches s 1 n i && valid (bufs s i)) (seq 0 NBUF) with
  | Some i => data (bufs s i)
  | None => block (disk s) n
  end.

(** A buffer that [bget] may recycle holds what is on the disk. *)
Definition coherent s : Prop :=
  forall i, (i < NBUF)%nat -> dev (bufs s i) = 1 -> valid (bufs s i) = true -> recyclable s i = true ->
    data (bufs s i) = block (disk s) (blockno (bufs s i)).

Lemma caches_spec s dv bn i : caches s dv bn i = true <-> dev (bufs s i) = dv /\ blockno (bufs s i) = bn.
Proof. unfold caches. by rewrite andb_true_iff, !Z.eqb_eq. Qed.

Lemma view_cached s l n i :
  cache_inv s l -> (i < NBUF)%nat -> dev (bufs s i) = 1 -> blockno (bufs s i) = n ->
  valid (bufs s i) = true -> view s n = data (bufs s i).
Proof.
  intros C Hi Hd Hb Hv. unfold view.
  destruct (List.find _ (seq 0 NBUF)) as [j|] eqn:F.
  - apply find_some_in in F as [Hj Hc]. apply andb_true_iff in Hc as [Hc _].
    apply caches_spec in Hc as [H1 H2]. apply elem_of_seq in Hj.
    assert (j = i) as ->; [|done]. apply (ci_unique s l C); try lia; congruence.
  - assert (i ∈ seq 0 NBUF) as Hin by (apply elem_of_seq; lia).
    pose proof (find_none_all _ _ i F Hin) as Hc. cbv beta in Hc. rewrite Hv, andb_true_r in Hc.
    rewrite (proj2 (caches_spec s 1 n i)) in Hc; done.
Qed.

Lemma view_uncached s n :
  (forall i, (i < NBUF)%nat -> dev (bufs s i) = 1 -> blockno (bufs s i) = n -> valid (bufs s i) = false) ->
  view s n = block (disk s) n.
Proof.
  intros Hu. unfold view. destruct (List.find _ (seq 0 NBUF)) as [j|] eqn:F; [|done].
  apply find_some_in in F as [Hj Hc]. apply andb_true_iff in Hc as [Hc Hv].
  apply caches_spec in Hc as [H1 H2]. apply elem_of_seq in Hj. rewrite Hu in Hv by (lia || done). done.
Qed.

(** A change of buffer [i] that does not concern block [m]. *)
Lemma view_frame s s' i m :
  (forall j, (j < NBUF)%nat -> j ≠ i -> content (bufs s' j) = content (bufs s j)) ->
  block (disk s') m = block (disk s) m ->
  caches s 1 m i && valid (bufs s i) = false -> caches s' 1 m i && valid (bufs s' i) = false ->
  view s' m = view s m.
Proof.
  intros Ho Hb H1 H2. unfold view.
  assert (forall j, (j < NBUF)%nat -> caches s' 1 m j && valid (bufs s' j) = caches s 1 m j && valid (bufs s j) /\
    (caches s 1 m j && valid (bufs s j) = true -> data (bufs s' j) = data (bufs s j))) as Heq.
  { intros j Hj. destruct (decide (j = i)) as [->|N]; [by rewrite H1, H2|].
    specialize (Ho j Hj N). unfold content in Ho. injection Ho as E1 E2 E3 E4 E5 E6.
    unfold caches, valid, has_flag. by rewrite E1, E2, E3. }
  assert (forall l, (forall j, j ∈ l -> (j < NBUF)%nat) ->
    match List.find (fun j => caches s' 1 m j && valid (bufs s' j)) l with
    | Some j => data (bufs s' j) | None => block (disk s') m end =
    match List.find (fun j => caches s 1 m j && valid (bufs s j)) l with
    | Some j => data (bufs s j) | None => block (disk s) m end) as Hl.
  { induction l as [|j l IH]; intros Hin; cbn [List.find]; [done|].
    destruct (Heq j) as [-> Hd]; [apply Hin; by left|].
    destruct (caches s 1 m j && valid (bufs s j)); [by apply Hd|]. apply IH. intros k Hk. apply Hin. by right. }
  apply Hl. intros j Hj%elem_of_seq. lia.
Qed.

(** Buffer [i] is block [n], locked by [t]. *)
Definition owned (t : thread) s (i : nat) (n : Z) : Prop :=
  (i < NBUF)%nat /\ lock (bufs s i) = Sleeplock true (t_pid t) /\
  dev (bufs s i) = 1 /\ blockno (bufs s i) = n.

Lemma rw_reads t w s i n :
  owned t s i n -> flags (bufs s i) = 0 -> n < nblocks (disk s) ->
  rw i (Ctx t [] w) s = Ret tt (Ctx t [] w)
    (upd i (fun _ => set_flags B_VALID (set_data (block (disk s) n) (bufs s i))) s).
Proof.
  intros (Hi & Hk & Hd & Hb) Hf Hn. unfold rw. mstep.
  erewrite bind_Ret.
  2: { unfold zoom. rewrite iderw_reads by (done || lia || apply not_elem_of_nil).
       rewrite Hb. reflexivity. }
  cbn. unfold modify. by destruct s.
Qed.

Lemma bread_runs t w s n i s1 :
  bget 1 n (Ctx t [] w) s = Ret i (Ctx t [] w) s1 ->
  owned t s1 i n -> good_flags (bufs s1 i) -> n < nblocks (disk s1) ->
  bread 1 n (Ctx t [] w) s = Ret i (Ctx t [] w)
    (if valid (bufs s1 i) then s1
     else upd i (fun _ => set_flags B_VALID (set_data (block (disk s1) n) (bufs s1 i))) s1).
Proof.
  intros Hg Ho Hf Hn. unfold bread. rewrite (bind_Ret _ _ _ _ _ _ _ Hg). mstep.
  fold (valid (bufs s1 i)). destruct (valid (bufs s1 i)) eqn:Hv; cbn [negb]; [done|].
  destruct (flags_cases _ Hf) as [(_ & _ & E)|[(E & _)|(E & _)]]; [|congruence..].
  by rewrite (bind_Ret _ _ _ _ _ _ _ (rw_reads t w s1 i n Ho E Hn)).
Qed.

(** The buffer that [bread] will use for block [n]: the cached one if nobody has
    it locked, else the least recently used one that is free. *)
Definition bread_picks s (l : list nat) (n : Z) (i : nat) : Prop :=
  (List.find (caches s 1 n) l = Some i /\ locked (lock (bufs s i)) = false /\
     refcnt (bufs s i) + 1 < 2 ^ 31) \/
  (List.find (caches s 1 n) l = None /\ List.find (recyclable s) (reverse l) = Some i).

Lemma lru_find_lt bs l f i : lru bs l -> List.find f l = Some i -> (i < NBUF)%nat.
Proof. intros (_ & _ & Hi) Hf. apply Hi. by apply find_some_in in Hf as [? _]. Qed.

Lemma lru_rfind_lt bs l f i : lru bs l -> List.find f (reverse l) = Some i -> (i < NBUF)%nat.
Proof.
  intros (_ & _ & Hi) Hf. apply Hi. apply find_some_in in Hf as [Hf _]. by rewrite reverse_Permutation in Hf.
Qed.

(** Where [bget] leaves the cache. *)
Lemma bget_runs t w s l n i :
  cache_inv s l -> coherent s -> bread_picks s l n i ->
  exists s1, bget 1 n (Ctx t [] w) s = Ret i (Ctx t [] w) s1 /\ cache_inv s1 l /\ owned t s1 i n /\
    disk s1 = disk s /\ refcnt (bufs s1 i) = refcnt (bufs s i) + 1 /\ dirty (bufs s1 i) = dirty (bufs s i) /\
    (forall j, j ≠ i -> bufs s1 j = bufs s j) /\ (forall m, view s1 m = view s m).
Proof.
  intros C Co Hp. pose proof (ci_lru s l C) as L.
  destruct Hp as [(F & Hf & Hr)|(F & R)].
  - pose proof (lru_find_lt _ _ _ _ L F) as Hi. exists (taken t i s).
    split; [by eapply bget_cached|]. split; [by apply cache_inv_taken|].
    apply find_some_in in F as [_ Hc]. apply caches_spec in Hc as [Hd Hb].
    assert (bufs (taken t i s) i = set_lock (Sleeplock true (t_pid t))
      (set_refcnt (u32 (refcnt (bufs s i) + 1)) (bufs s i))) as Ei by (unfold taken; by rewrite !buf_upd_same).
    assert (forall j, j ≠ i -> bufs (taken t i s) j = bufs s j) as Hj
      by (intros j N; unfold taken; by rewrite !buf_upd_other).
    pose proof (ci_refcnt s l C i Hi) as R0.
    split; [unfold owned; rewrite Ei; done|]. split; [done|]. split; [|split; [by rewrite Ei|split; [done|]]].
    { rewrite Ei. cbn. rewrite u32_small; lia. }
    intros m. unfold view. assert (forall j, caches (taken t i s) 1 m j && valid (bufs (taken t i s) j) =
      caches s 1 m j && valid (bufs s j) /\ data (bufs (taken t i s) j) = data (bufs s j)) as Heq.
    { intros j. unfold caches, valid, has_flag. destruct (decide (j = i)) as [->|N]; [by rewrite Ei | by rewrite Hj]. }
    rewrite (find_ext _ _ _ (fun j => proj1 (Heq j))). destruct (List.find _ _) as [j|]; [apply Heq|done].
  - pose proof (lru_rfind_lt _ _ _ _ L R) as Hi. exists (recycled t 1 n i s).
    pose proof R as R'. apply find_some_in in R' as [_ Hrec].
    assert (refcnt (bufs s i) = 0) as Hr0 by (unfold recyclable in Hrec; apply andb_true_iff in Hrec; lia).
    split; [eapply bget_recycles; try done; by apply (ci_idle s l C)|].
    split; [by apply cache_inv_recycled|].
    assert (bufs (recycled t 1 n i s) i = set_lock (Sleeplock true (t_pid t)) (assign 1 n (bufs s i))) as Ei
      by (unfold recycled; by rewrite !buf_upd_same).
    assert (forall j, j ≠ i -> bufs (recycled t 1 n i s) j = bufs s j) as Hj
      by (intros j N; unfold recycled; by rewrite !buf_upd_other).
    split; [unfold owned; rewrite Ei; done|]. split; [done|]. split; [rewrite Ei, Hr0; done|].
    split; [unfold recyclable in Hrec; apply andb_true_iff in Hrec as [_ Hnd];
      apply negb_true_iff in Hnd; unfold dirty at 2; rewrite Hnd, Ei; done|]. split; [done|].
    intros m. destruct (caches s 1 m i && valid (bufs s i)) eqn:Hc.
    + apply andb_true_iff in Hc as [Hc Hv]. apply caches_spec in Hc as [Hd Hb].
      rewrite (view_cached s l m i C Hi Hd Hb Hv). rewrite (Co i Hi Hd Hv Hrec), Hb.
      etransitivity; [apply view_uncached|done]. intros j Hjn. destruct (decide (j = i)) as [->|N]; [by rewrite Ei|].
      rewrite Hj by done. intros E1 E2. exfalso. apply N.
      apply (ci_unique s l C); try done; congruence.
    + apply (view_frame s _ i m); [by intros j _ N; rewrite Hj | done | done |].
      rewrite Ei. unfold valid. cbn. apply andb_false_r.
Qed.

(** [bread], with what it does to each buffer. *)
Lemma bread_spec t w s l n i :
  cache_inv s l -> coherent s -> bread_picks s l n i -> n < nblocks (disk s) ->
  exists s', bread 1 n (Ctx t [] w) s = Ret i (Ctx t [] w) s' /\
    owned t s' i n /\ valid (bufs s' i) = true /\ data (bufs s' i) = view s n /\
    disk s' = disk s /\ (forall m, view s' m = view s m) /\ cache_inv s' l /\ coherent s' /\
    refcnt (bufs s' i) = refcnt (bufs s i) + 1 /\ dirty (bufs s' i) = dirty (bufs s i) /\
    (forall j, j ≠ i -> bufs s' j = bufs s j).
Proof.
  intros C Co Hp Hn. destruct (bget_runs t w s l n i C Co Hp) as (s1 & Hg & C1 & O1 & Dk & Hr & Hdt & Hj & Hv).
  pose proof O1 as (Hi & Hk & Hd & Hb). rewrite <- Dk in Hn. pose proof (ci_refcnt s l C i Hi) as R0.
  pose proof (bread_runs t w s n i s1 Hg O1 (ci_flags s1 l C1 i Hi) Hn) as Er.
  destruct (valid (bufs s1 i)) eqn:Ev.
  - exists s1. split; [exact Er|]. do 2 (split; [done|]). split.
    { rewrite <- Hv. symmetry. by apply (view_cached s1 l). }
    do 3 (split; [done|]). split; [|done]. intros j Hjn E1 E2 E3. destruct (decide (j = i)) as [->|N].
    + unfold recyclable in E3. apply andb_true_iff in E3 as [E3 _]. lia.
    + unfold recyclable in E3. rewrite Dk, Hj in * by done. by apply Co.
  - set (s2 := upd i _ s1) in Er. exists s2. split; [exact Er|].
    assert (bufs s2 i = set_flags B_VALID (set_data (block (disk s1) n) (bufs s1 i))) as Ei
      by (unfold s2; by rewrite buf_upd_same).
    assert (forall j, j ≠ i -> bufs s2 j = bufs s1 j) as Hj2 by (intros j N; unfold s2; by rewrite buf_upd_other).
    assert (cache_inv s2 l) as C2.
    { apply cache_inv_upd; cbn; try done.
      - intros H0. lia.
      - by apply (ci_refcnt s1 l C1 i).
      - unfold good_flags. cbn. rewrite !elem_of_cons. auto.
      - apply length_block.
      - intros j Hjn N H0 E1 E2. apply N. symmetry. by apply (ci_unique s1 l C1 i j). }
    assert (owned t s2 i n) as O2 by (unfold owned; rewrite Ei; done).
    assert (valid (bufs s2 i) = true) as V2 by (by rewrite Ei).
    assert (view s1 n = block (disk s1) n) as Hvn.
    { apply view_uncached. intros j Hjn E1 E2. destruct (decide (j = i)) as [->|N]; [done|].
      exfalso. apply N. apply (ci_unique s1 l C1 j i); try done; congruence. }
    assert (forall m, view s2 m = view s1 m) as Hv2.
    { intros m. destruct (decide (m = n)) as [->|Nm].
      - rewrite (view_cached s2 l n i C2 Hi), Hvn, Ei; [done|..]; rewrite ?Ei; done.
      - apply (view_frame s1 s2 i m); [by intros j _ N; rewrite Hj2 | done | by rewrite Ev, andb_false_r |].
        destruct (caches s2 1 m i) eqn:Ec; [|done]. apply caches_spec in Ec as [_ Ec].
        destruct O2 as (_ & _ & _ & Hb2). congruence. }
    split; [done|]. split; [done|]. split; [rewrite <- Hv, Hvn, Ei; done|].
    split; [done|]. split; [intros m; by rewrite Hv2, Hv|]. split; [done|]. split.
    2: { split; [by rewrite Ei|]. split; [|by intros j N; rewrite Hj2, Hj].
         rewrite <- Hdt. destruct (flags_cases _ (ci_flags s1 l C1 i Hi)) as [(_ & -> & _)|[(E & _)|(E & _)]];
           [by rewrite Ei|congruence..]. }
    intros j Hjn E1 E2 E3. destruct (decide (j = i)) as [->|N].
    + unfold recyclable in E3. rewrite Ei in E3. cbn in E3. apply andb_true_iff in E3 as [E3 _]. lia.
    + unfold recyclable in E3. change (disk s2) with (disk s1). rewrite Dk, Hj2, Hj in * by done. by apply Co.
Qed.

(** C26: [bread] returns the block.  In a coherent cache with a buffer to use, it
    returns a buffer locked by the caller that holds block [n], valid, with the
    contents a reader sees; it writes nothing to the disk, changes what nobody
    sees of any block, and keeps the cache invariant and coherence. *)
Theorem bread_returns_block t w s l n i :
  cache_inv s l -> coherent s -> bread_picks s l n i -> n < nblocks (disk s) ->
  exists s', bread 1 n (Ctx t [] w) s = Ret i (Ctx t [] w) s' /\
    owned t s' i n /\ valid (bufs s' i) = true /\ data (bufs s' i) = view s n /\
    disk s' = disk s /\ (forall m, view s' m = view s m) /\ cache_inv s' l /\ coherent s'.
Proof.
  intros C Co Hp Hn. destruct (bread_spec t w s l n i C Co Hp Hn) as (s' & ? & ? & ? & ? & ? & ? & ? & ? & _).
  by exists s'.
Qed.

Lemma rw_writes t w s i n :
  owned t s i n -> good_flags (bufs s i) -> dirty (bufs s i) = true -> n < nblocks (disk s) ->
  rw i (Ctx t [] w) s = Ret tt (Ctx t [] w)
    (Bcache (<[i := set_flags B_VALID (bufs s i)]> (bufs s)) (put_block (disk s) n (data (bufs s i)))).
Proof.
  intros (Hi & Hk & Hd & Hb) Hf Hdi Hn. unfold rw. mstep.
  erewrite bind_Ret.
  2: { unfold zoom. rewrite iderw_writes by (done || lia || apply not_elem_of_nil).
       rewrite Hb. reflexivity. }
  done.
Qed.

(** What a reader can see of a buffer. *)
Definition look (b : buf) : Z * Z * Z * list Z := (flags b, dev b, blockno b, data b).

Lemma content_look b b' : content b' = content b -> look b' = look b /\ refcnt b' = refcnt b /\ lock b' = lock b.
Proof. unfold content, look. intros [= E1 E2 E3 E4 E5 E6]. split; [congruence|done]. Qed.

Lemma view_ext s s' m :
  (forall j, look (bufs s' j) = look (bufs s j)) -> block (disk s') m = block (disk s) m ->
  view s' m = view s m.
Proof.
  intros Hc Hb. unfold view.
  assert (forall j, caches s' 1 m j && valid (bufs s' j) = caches s 1 m j && valid (bufs s j) /\
    data (bufs s' j) = data (bufs s j)) as Heq.
  { intros j. specialize (Hc j). unfold look in Hc. injection Hc as E1 E2 E3 E4.
    unfold caches, valid, has_flag. by rewrite E1, E2, E3. }
  rewrite (find_ext _ _ _ (fun j => proj1 (Heq j))). destruct (List.find _ _) as [j|]; [apply Heq|done].
Qed.

(** [bwrite], with what it does to each buffer. *)
Lemma bwrite_spec t w s l i n :
  cache_inv s l -> owned t s i n -> valid (bufs s i) = true -> n < nblocks (disk s) ->
  exists s', bwrite i (Ctx t [] w) s = Ret tt (Ctx t [] w) s' /\
    disk s' = put_block (disk s) n (data (bufs s i)) /\ bufs s' i = set_flags B_VALID (bufs s i) /\
    (forall j, j ≠ i -> bufs s' j = bufs s j) /\ (forall m, view s' m = view s m) /\ cache_inv s' l.
Proof.
  intros C O Hv Hn. pose proof O as (Hi & Hk & Hd & Hb). unfold bwrite.
  rewrite (bind_Ret _ _ _ _ _ _ _ (peek_lock_holding i t [] w s (not_elem_of_nil _))).
  rewrite Hk. cbn [locked pid]. rewrite Z.eqb_refl. cbn [andb negb]. mstep.
  set (s1 := upd i _ s).
  assert (bufs s1 i = set_flags (Z.lor (flags (bufs s i)) B_DIRTY) (bufs s i)) as E1 by (unfold s1; by rewrite buf_upd_same).
  assert (flags (bufs s1 i) = Z.lor B_VALID B_DIRTY) as F1.
  { rewrite E1. cbn. destruct (flags_cases _ (ci_flags s l C i Hi)) as [(E & _)|[(_ & _ & E)|(_ & _ & E)]];
      [congruence|by rewrite E|by rewrite E]. }
  assert (owned t s1 i n) as O1 by (unfold owned; rewrite E1; done).
  rewrite (rw_writes t w s1 i n O1); [|unfold good_flags; rewrite F1, !elem_of_cons; auto
    |unfold dirty, has_flag; by rewrite F1 | done].
  eexists. split; [reflexivity|]. cbn [disk bufs].
  assert (data (bufs s1 i) = data (bufs s i)) as Ed by (by rewrite E1).
  pose proof (ci_data s l C i Hi) as Hlen. change (disk s1) with (disk s). rewrite Ed.
  set (s2 := Bcache _ _).
  assert (bufs s2 i = set_flags B_VALID (bufs s i)) as E2.
  { unfold s2. cbn. rewrite fn_lookup_insert, E1. done. }
  assert (forall j, j ≠ i -> bufs s2 j = bufs s j) as Hj.
  { intros j N. unfold s2. cbn. rewrite fn_lookup_insert_ne by done. unfold s1. by rewrite buf_upd_other. }
  assert (cache_inv s2 l) as C2.
  { assert (cache_inv (upd i (set_flags B_VALID) s) l) as C'.
    { apply cache_inv_upd; cbn; try done.
      - by apply (ci_idle s l C i).
      - by apply (ci_refcnt s l C i).
      - unfold good_flags. cbn. rewrite !elem_of_cons. auto.
      - intros j Hjn N H0 E3 E4. apply N. symmetry. by apply (ci_unique s l C i j). }
    eapply cache_inv_ext; [|exact C']. intros j. destruct (decide (j = i)) as [->|N].
    - by rewrite E2, buf_upd_same.
    - by rewrite Hj, buf_upd_other. }
  split; [done|]. split; [done|]. split; [done|]. split; [|done]. intros m. destruct (decide (m = n)) as [->|Nm].
  - rewrite (view_cached s l n i C Hi Hd Hb Hv).
    rewrite (view_cached s2 l n i C2 Hi); rewrite ?E2; done.
  - apply (view_frame s s2 i m); [by intros j _ N; rewrite Hj | by apply block_put_other | |].
    + destruct (caches s 1 m i) eqn:Ec; [|done]. apply caches_spec in Ec. destruct Ec. congruence.
    + destruct (caches s2 1 m i) eqn:Ec; [|done]. apply caches_spec in Ec. rewrite E2 in Ec. cbn in Ec.
      destruct Ec. congruence.
Qed.

(** [bwrite] writes through.  Called on a valid buffer the caller has locked,
    it puts the buffer's data on the disk block and nowhere else, leaves the
    buffer valid and clean, and changes what no reader sees. *)
Theorem bwrite_writes_through t w s l i n :
  cache_inv s l -> owned t s i n -> valid (bufs s i) = true -> n < nblocks (disk s) ->
  exists s', bwrite i (Ctx t [] w) s = Ret tt (Ctx t [] w) s' /\
    block (disk s') n = data (bufs s i) /\
    (forall m, m ≠ n -> block (disk s') m = block (disk s) m) /\
    owned t s' i n /\ flags (bufs s' i) = B_VALID /\ data (bufs s' i) = data (bufs s i) /\
    (forall m, view s' m = view s m) /\ cache_inv s' l.
Proof.
  intros C O Hv Hn. pose proof O as (Hi & Hk & Hd & Hb). pose proof (ci_data s l C i Hi) as Hl.
  destruct (bwrite_spec t w s l i n C O Hv Hn) as (s' & Er & Ed & Ei & _ & ? & ?).
  exists s'. unfold owned. rewrite Ed, Ei, block_put_same by done.
  split; [done|]. split; [done|]. split; [intros m Hm; by apply block_put_other|]. done.
Qed.

(** The buffer after [releasesleep] and the decrement of its count. *)
Definition dropped (b : buf) : buf := set_refcnt (u32 (refcnt b - 1)) (set_lock (Sleeplock false 0) b).

Lemma cache_inv_content s s' l l' :
  (forall j, content (bufs s' j) = content (bufs s j)) -> lru (bufs s') l' -> cache_inv s l -> cache_inv s' l'.
Proof.
  intros Hc L [_ U Id Rc Fl Da].
  assert (forall j, flags (bufs s' j) = flags (bufs s j) /\ dev (bufs s' j) = dev (bufs s j) /\
    blockno (bufs s' j) = blockno (bufs s j) /\ lock (bufs s' j) = lock (bufs s j) /\
    refcnt (bufs s' j) = refcnt (bufs s j) /\ data (bufs s' j) = data (bufs s j)) as E.
  { intros j. specialize (Hc j). unfold content in Hc. by injection Hc. }
  split; [done|..]; intros i; destruct (E i) as (E1 & E2 & E3 & E4 & E5 & E6).
  - intros j. destruct (E j) as (_ & F2 & F3 & _). rewrite E2, E3, F2, F3. apply U.
  - rewrite E4, E5. apply Id.
  - rewrite E5. apply Rc.
  - unfold good_flags. rewrite E1. apply Fl.
  - rewrite E6. apply Da.
Qed.

Lemma coherent_content s s' :
  (forall j, content (bufs s' j) = content (bufs s j)) -> disk s' = disk s -> coherent s -> coherent s'.
Proof.
  intros Hc Hd Co j Hj. specialize (Hc j). unfold content in Hc. injection Hc as F1 F2 F3 F4 F5 F6.
  unfold recyclable, valid, has_flag. rewrite F1, F2, F3, F5, F6, Hd. by apply Co.
Qed.

(** [brelse], with what it does to each buffer. *)
Lemma brelse_spec t w s l1 l2 i n :
  cache_inv s (l1 ++ i :: l2) -> owned t s i n -> 0 < refcnt (bufs s i) ->
  exists s', brelse i (Ctx t [] w) s = Ret tt (Ctx t [] (w ++ [Csleeplock (Z.of_nat i)])) s' /\
    disk s' = disk s /\ (forall m, view s' m = view s m) /\
    locked (lock (bufs s' i)) = false /\ refcnt (bufs s' i) = refcnt (bufs s i) - 1 /\
    cache_inv s' (if refcnt (bufs s i) =? 1 then i :: l1 ++ l2 else l1 ++ i :: l2) /\
    (coherent s -> dirty (bufs s i) = true \/ 1 < refcnt (bufs s i) \/
       data (bufs s i) = block (disk s) n -> coherent s') /\
    look (bufs s' i) = look (bufs s i) /\ (forall j, j ≠ i -> content (bufs s' j) = content (bufs s j)).
Proof.
  intros C O Hr. pose proof O as (Hi & Hk & Hd & Hb). pose proof (ci_refcnt s _ C i Hi) as R0. unfold brelse.
  rewrite (bind_Ret _ _ _ _ _ _ _ (peek_lock_holding i t [] w s (not_elem_of_nil _))).
  rewrite Hk. cbn [locked pid]. rewrite Z.eqb_refl. cbn [andb negb].
  rewrite (bind_Ret _ _ _ _ _ _ _ (on_lock_release i t [] w s (not_elem_of_nil _) (not_elem_of_nil _))).
  do 3 mstep. set (s1 := upd i (fun b => set_refcnt _ b) _).
  assert (bufs s1 i = dropped (bufs s i)) as E1 by (unfold s1; by rewrite !buf_upd_same).
  assert (forall j, j ≠ i -> bufs s1 j = bufs s j) as Hj by (intros j N; unfold s1; by rewrite !buf_upd_other).
  assert (refcnt (dropped (bufs s i)) = refcnt (bufs s i) - 1) as Er by (cbn; apply u32_small; lia).
  assert (cache_inv s1 (l1 ++ i :: l2)) as C1.
  { eapply cache_inv_ext; [|apply (cache_inv_upd i dropped s); try done].
    - intros j. destruct (decide (j = i)) as [->|N]; [by rewrite E1, buf_upd_same | by rewrite Hj, buf_upd_other].
    - rewrite Er. lia.
    - by apply (ci_flags s _ C i).
    - by apply (ci_data s _ C i).
    - intros j Hjn N H0 E3 E4. apply N. symmetry. by apply (ci_unique s _ C i j). }
  assert (forall m, view s1 m = view s m) as V1.
  { intros m. apply view_ext; [|done]. intros j.
    destruct (decide (j = i)) as [->|N]; [by rewrite E1 | by rewrite Hj]. }
  assert (coherent s -> dirty (bufs s i) = true \/ 1 < refcnt (bufs s i) \/
       data (bufs s i) = block (disk s) n -> coherent s1) as Co1.
  { intros Co Hc j Hjn. destruct (decide (j = i)) as [->|N].
    - unfold recyclable, valid, has_flag. rewrite E1, Er. cbn. intros _ _ Hrec.
      apply andb_true_iff in Hrec as [H0 Hnd]. apply Z.eqb_eq in H0.
      destruct Hc as [Hc|[Hc|Hc]]; [|lia|by rewrite Hb].
      unfold dirty, has_flag in Hc. by rewrite Hc in Hnd.
    - unfold recyclable. rewrite Hj by done. by apply Co. }
  rewrite E1, Er. destruct (Z.eqb_spec (refcnt (bufs s i)) 1) as [H1|H1].
  - rewrite (proj2 (Z.eqb_eq _ 0)) by lia. mrun. rewrite release_head.
    assert (forall j, content (bufs (push_front i (unlink i s1)) j) = content (bufs s1 j)) as Hc
      by (intros j; by rewrite push_front_content, unlink_content).
    destruct (content_look _ _ (Hc i)) as (_ & Hri & Hli).
    eexists. split; [reflexivity|]. split; [done|]. split.
    { intros m. rewrite <- V1. apply view_ext; [|done]. intros j. by apply content_look. }
    rewrite Hri, Hli, E1. split; [done|]. split; [done|]. split.
    { eapply cache_inv_content; [exact Hc | apply move_to_front, C1 | exact C1]. }
    split; [intros Co Hcond; by apply (coherent_content s1); auto|].
    split; [rewrite (proj1 (content_look _ _ (Hc i))), E1; done | intros j N; by rewrite Hc, Hj].
  - rewrite (proj2 (Z.eqb_neq _ 0)) by lia. mrun. rewrite release_head.
    eexists. split; [reflexivity|]. split; [done|]. split; [done|]. rewrite E1.
    do 4 (split; [done|]). split; [done|]. intros j N. by rewrite Hj.
Qed.

(** [brelse] gives the buffer back.  The lock is free, its sleepers woken, the
    count one lower; when it reaches zero the buffer becomes the most recently
    used and the order of the others stays.  No reader sees a change, and the
    cache stays coherent if the buffer was dirty, still referred to, or equal
    to its disk block. *)
Theorem brelse_moves_to_front t w s l1 l2 i n :
  cache_inv s (l1 ++ i :: l2) -> owned t s i n -> 0 < refcnt (bufs s i) ->
  exists s', brelse i (Ctx t [] w) s = Ret tt (Ctx t [] (w ++ [Csleeplock (Z.of_nat i)])) s' /\
    disk s' = disk s /\ (forall m, view s' m = view s m) /\
    locked (lock (bufs s' i)) = false /\ refcnt (bufs s' i) = refcnt (bufs s i) - 1 /\
    cache_inv s' (if refcnt (bufs s i) =? 1 then i :: l1 ++ l2 else l1 ++ i :: l2) /\
    (coherent s -> dirty (bufs s i) = true \/ 1 < refcnt (bufs s i) \/
       data (bufs s i) = block (disk s) n -> coherent s').
Proof.
  intros C O Hr. destruct (brelse_spec t w s l1 l2 i n C O Hr) as (s' & ? & ? & ? & ? & ? & ? & ? & _).
  by exists s'.
Qed.

End over_disk.

Section claims.
Context {D : Type} `{DiskDriver D}.
Implicit Types (s : bcache D).

(** [bget] on every branch.  A cached block is found wherever it is in the
    list: the caller gets it with the count raised, or sleeps on its lock if
    another process has it.  Otherwise the least recently used buffer that is
    neither referred to nor dirty is recycled; if there is none, it panics. *)
Theorem bget_searches_lru t w s l dv bn :
  lru (bufs s) l ->
  match List.find (caches s dv bn) l with
  | Some i =>
      bget dv bn (Ctx t [] w) s =
      if locked (lock (bufs s i))
      then Sleep (Csleeplock (Z.of_nat i)) (Lsleep (Z.of_nat i)) (Ctx t [] w)
             (upd i (set_lock (lock (bufs s i))) (upd i (fun b => set_refcnt (u32 (refcnt b + 1)) b) s))
      else Ret i (Ctx t [] w) (taken t i s)
  | None =>
      match List.find (recyclable s) (reverse l) with
      | Some i => locked (lock (bufs s i)) = false ->
          bget dv bn (Ctx t [] w) s = Ret i (Ctx t [] w) (recycled t dv bn i s)
      | None => bget dv bn (Ctx t [] w) s = Panic "bget: no buffers"
      end
  end.
Proof.
  intros L. destruct (List.find (caches s dv bn) l) as [i|] eqn:F.
  - destruct (locked (lock (bufs s i))) eqn:Hk; [|by eapply bget_cached].
    unfold bget. do 2 mstep. rewrite (scan_cached s l dv bn L), F. mrun.
    erewrite bind_Sleep; [|apply on_lock_block; by rewrite buf_upd_same]. by rewrite buf_upd_same.
  - destruct (List.find (recyclable s) (reverse l)) as [i|] eqn:R.
    + intros Hf. by eapply bget_recycles.
    + unfold bget. do 2 mstep. by rewrite (scan_cached s l dv bn L), F, (scan_recyclable s l L), R.
Qed.

(** [binit] links the buffers.  Whatever the pointers were, afterwards they
    form the list of all buffers, the last initialised first, and every lock is
    free. *)
Theorem binit_links_all t h w s :
  exists s', binit (Ctx t h w) s = Ret tt (Ctx t h w) s' /\ lru (bufs s') (reverse (seq 0 NBUF)).
Proof.
  unfold binit. do 2 mstep. eexists. split; [reflexivity|]. split.
  - apply (binit_links NBUF); [done|]. unfold nexts, prevs, upd, set_bufs. cbn. by rewrite !fn_lookup_insert.
  - split; [rewrite reverse_Permutation; apply NoDup_seq|].
    intros i. rewrite reverse_Permutation, elem_of_seq. lia.
Qed.

End claims.

(** ** The cache after boot

    [bcache] is static data, so it is zero before [binit]. *)

Definition zero_buf : buf := Buf 0 0 0 (Sleeplock false 0) 0 0 0 None (replicate (Z.to_nat BSIZE) 0).
Section boot.
Context {D : Type} (d0 : D).

Definition unlinked : bcache D :=
  upd head (set_next head) (upd head (set_prev head) (Bcache (fun _ => zero_buf) d0)).
Definition booted : bcache D :=
  fold_left (fun s i => push_front i (upd i (set_lock initsleeplock) s)) (seq 0 NBUF) unlinked.

Lemma content_relock b : lock b = initsleeplock -> content (set_lock initsleeplock b) = content b.
Proof. intros E. unfold content. cbn. by rewrite E. Qed.

Lemma booted_content n j :
  let s := fold_left (fun s i => push_front i (upd i (set_lock initsleeplock) s)) (seq 0 n) unlinked in
  content (bufs s j) = content zero_buf /\ disk s = d0.
Proof.
  induction n as [|n IH].
  - cbn. unfold unlinked, upd, set_bufs, content. cbn. split; [|done]. fn_cases.
  - rewrite seq_S, fold_left_app. cbn [fold_left Nat.add].
    set (s := fold_left _ (seq 0 n) _) in *. cbn zeta in IH |- *. destruct IH as [IH Hd]. split; [|exact Hd].
    rewrite push_front_content. destruct (decide (j = n)) as [->|N].
    + rewrite buf_upd_same, <- IH. apply content_relock. destruct (content_look _ _ IH) as (_ & _ & ->). done.
    + by rewrite buf_upd_other.
Qed.

Lemma content_zero b : content b = content zero_buf ->
  dev b = 0 /\ refcnt b = 0 /\ flags b = 0 /\ lock b = Sleeplock false 0 /\
  data b = replicate (Z.to_nat BSIZE) 0.
Proof. destruct b. unfold content, zero_buf. cbn. by intros [= -> -> -> -> -> ->]. Qed.

Lemma booted_bufs j : dev (bufs booted j) = 0 /\ refcnt (bufs booted j) = 0 /\ flags (bufs booted j) = 0 /\
  lock (bufs booted j) = Sleeplock false 0 /\ data (bufs booted j) = replicate (Z.to_nat BSIZE) 0.
Proof. apply content_zero, (proj1 (booted_content NBUF j)). Qed.

Lemma booted_disk : disk booted = d0.
Proof. exact (proj2 (booted_content NBUF 0)). Qed.

Lemma booted_lru : lru (bufs booted) (reverse (seq 0 NBUF)).
Proof.
  split; [|split; [rewrite reverse_Permutation; apply NoDup_seq
    | intros i; rewrite reverse_Permutation, elem_of_seq; lia]].
  assert (seg (nexts (bufs unlinked)) (prevs (bufs unlinked)) head [] head) as Hs.
  { unfold unlinked, nexts, prevs, upd, set_bufs. cbn. by rewrite !fn_lookup_insert. }
  exact (binit_links NBUF unlinked (le_n _) Hs).
Qed.

Lemma booted_inv : cache_inv booted (reverse (seq 0 NBUF)).
Proof.
  split; [apply booted_lru|..].
  - intros i j _ _ H0. destruct (booted_bufs i). congruence.
  - intros i _ _. by destruct (booted_bufs i) as (_ & _ & _ & -> & _).
  - intros i _. destruct (booted_bufs i) as (_ & -> & _). lia.
  - intros i _. unfold good_flags. destruct (booted_bufs i) as (_ & _ & -> & _). by left.
  - intros i _. destruct (booted_bufs i) as (_ & _ & _ & _ & ->). apply length_replicate.
Qed.

Lemma booted_coherent {Drv : DiskDriver D} {Dsk : Disk D} : coherent booted.
Proof. intros i _ Hd. destruct (booted_bufs i). congruence. Qed.

Lemma booted_uncached n l : List.find (caches booted 1 n) l = None.
Proof.
  induction l as [|j l IH]; [done|]. cbn [List.find]. unfold caches at 1.
  destruct (booted_bufs j) as (-> & _). exact IH.
Qed.

Lemma find_head {A} (f : A -> bool) x l : f x = true -> List.find f (x :: l) = Some x.
Proof. intros H. cbn. by rewrite H. Qed.

Lemma booted_victim : List.find (recyclable booted) (reverse (reverse (seq 0 NBUF))) = Some O.
Proof.
  rewrite reverse_involutive. apply (find_head (recyclable booted) O (seq 1 29)).
  unfold recyclable, has_flag. destruct (booted_bufs 0) as (_ & -> & -> & _). done.
Qed.

(** [binit] makes it. *)
Lemma booted_binit t h w :
  binit (Ctx t h w) (Bcache (fun _ => zero_buf) d0) = Ret tt (Ctx t h w) booted.
Proof. unfold binit. do 2 mstep. done. Qed.

End boot.

(** ** Witnesses: over an empty disk *)

Definition zero_disk : memdisk := Memdisk 1000 (fun _ => 0).
Definition demo_thread : thread := Thread 3 false.

Lemma bread_returns_block_witness : exists s',
  bread 1 5 (Ctx demo_thread [] []) (booted zero_disk) = Ret O (Ctx demo_thread [] []) s'.
Proof.
  destruct (bread_returns_block demo_thread [] (booted zero_disk) (reverse (seq 0 NBUF)) 5 0) as (s' & E & _).
  - exact (booted_inv _).
  - exact (booted_coherent _).
  - right. split; [apply booted_uncached | apply booted_victim].
  - rewrite booted_disk. reflexivity.
  - exists s'. exact E.
Defined.

(** Block 5 in buffer 0, locked and modified by process 3. *)
Definition holding5 : bcache memdisk :=
  upd 0 (fun b => Buf B_VALID 1 5 (Sleeplock true 3) 1 (prev b) (next b) (qnext b)
    (replicate (Z.to_nat BSIZE) 65)) (booted zero_disk).

Lemma holding5_inv : cache_inv holding5 (reverse (seq 0 NBUF)).
Proof.
  apply cache_inv_upd; cbn; try done; try lia; [apply booted_inv | unfold NBUF; lia |..].
  - unfold good_flags. cbn. rewrite !elem_of_cons. auto.
  - intros j _ _ _ E. destruct (booted_bufs zero_disk j). congruence.
Qed.

Lemma holding5_owned : owned demo_thread holding5 0 5.
Proof.
  assert (bufs holding5 0%nat = Buf B_VALID 1 5 (Sleeplock true 3) 1 (prev (bufs (booted zero_disk) 0%nat))
    (next (bufs (booted zero_disk) 0%nat)) (qnext (bufs (booted zero_disk) 0%nat)) (replicate (Z.to_nat BSIZE) 65)) as E
    by apply buf_upd_same.
  unfold owned. rewrite E. split; [unfold NBUF; lia|done].
Qed.

Lemma bwrite_writes_through_witness : exists s',
  bwrite 0 (Ctx demo_thread [] []) holding5 = Ret tt (Ctx demo_thread [] []) s'.
Proof.
  destruct (bwrite_writes_through demo_thread [] holding5 (reverse (seq 0 NBUF)) 0 5) as (s' & E & _).
  - exact holding5_inv.
  - exact holding5_owned.
  - unfold holding5. rewrite buf_upd_same. reflexivity.
  - change (disk holding5) with (disk (booted zero_disk)). rewrite booted_disk. reflexivity.
  - exists s'. exact E.
Defined.

Lemma brelse_moves_to_front_witness : exists s',
  brelse 0 (Ctx demo_thread [] []) holding5 = Ret tt (Ctx demo_thread [] [Csleeplock 0]) s' /\
  cache_inv s' (O :: reverse (seq 1 29)).
Proof.
  destruct (brelse_moves_to_front demo_thread [] holding5 (reverse (seq 1 29)) [] 0 5)
    as (s' & E & _ & _ & _ & _ & C & _).
  - exact holding5_inv.
  - exact holding5_owned.
  - unfold holding5. rewrite buf_upd_same. cbn. lia.
  - exists s'. split; [exact E|]. revert C. unfold holding5 at 1. rewrite buf_upd_same. cbn [refcnt Z.eqb Pos.eqb].
    by rewrite app_nil_r.
Defined.

Lemma bget_searches_lru_witness : exists s',
  bget 1 7 (Ctx demo_thread [] []) (booted zero_disk) = Ret O (Ctx demo_thread [] []) s'.
Proof.
  pose proof (bget_searches_lru demo_thread [] (booted zero_disk) (reverse (seq 0 NBUF)) 1 7 (booted_lru _)) as G.
  rewrite booted_uncached, booted_victim in G. eexists. apply G.
  by destruct (booted_bufs zero_disk 0) as (_ & _ & _ & -> & _).
Defined.
