(* ===== verification/Bytes.v ===== *)
(** Fields of on-disk structures: little-endian integers at byte offsets of a
    block image, as the C code reads and writes them through a pointer into
    [b->data].  Shared by the log header, the superblock, inodes, directory
    entries and the program headers of executables. *)

From stdpp Require Import base numbers list.
From S2P Require Import Xv6 Prelude.

Definition byte (l : list Z) (k : nat) : Z := default 0 (l !! k).

Definition get16 (l : list Z) (k : nat) : Z := byte l k + 2 ^ 8 * byte l (k + 1).
Definition get32 (l : list Z) (k : nat) : Z :=
  byte l k + 2 ^ 8 * byte l (k + 1) + 2 ^ 16 * byte l (k + 2) + 2 ^ 24 * byte l (k + 3).

Definition put16 (k : nat) (v : Z) (l : list Z) : list Z :=
  <[k := u8 v]> (<[(k + 1)%nat := u8 (v / 2 ^ 8)]> l).
Definition put32 (k : nat) (v : Z) (l : list Z) : list Z :=
  <[k := u8 v]> (<[(k + 1)%nat := u8 (v / 2 ^ 8)]> (<[(k + 2)%nat := u8 (v / 2 ^ 16)]>
    (<[(k + 3)%nat := u8 (v / 2 ^ 24)]> l))).

(** Consecutive words from offset [o]. *)
Fixpoint put_words (o : nat) (ws : list Z) (l : list Z) : list Z :=
  match ws with
  | [] => l
  | w :: ws => put_words (o + 4) ws (put32 o w l)
  end.

(** [memmove] of [src] over the bytes of [l] from offset [k]. *)
Definition splice (k : nat) (src l : list Z) : list Z :=
  take k l ++ src ++ drop (k + length src) l.
(** The [n] bytes of [l] from offset [k]. *)
Definition slice (k n : nat) (l : list Z) : list Z := take n (drop k l).

Definition is_bytes (l : list Z) : Prop := Forall (fun b => 0 <= b < 256) l.

Section words.
Implicit Types (l : list Z) (k j : nat).

Lemma byte_insert_eq l k v : (k < length l)%nat -> byte (<[k := v]> l) k = v.
Proof. intros H. unfold byte. by rewrite list_lookup_insert_eq. Qed.

Lemma byte_insert_ne l k j v : k ≠ j -> byte (<[k := v]> l) j = byte l j.
Proof. intros H. unfold byte. by rewrite list_lookup_insert_ne. Qed.

Lemma length_put16 k v l : length (put16 k v l) = length l.
Proof. unfold put16. by rewrite !length_insert. Qed.

Lemma length_put32 k v l : length (put32 k v l) = length l.
Proof. unfold put32. by rewrite !length_insert. Qed.

(** Evaluates [byte] on a chain of stores at known distances. *)
Ltac byte_tac :=
  repeat first [ rewrite byte_insert_eq by (rewrite ?length_insert; lia)
               | rewrite byte_insert_ne by lia ].

Lemma get16_put16 k v l : (k + 1 < length l)%nat -> get16 (put16 k v l) k = u16 v.
Proof. intros H. unfold get16, put16. byte_tac. word_lia. Qed.

Lemma get32_put32 k v l : (k + 3 < length l)%nat -> get32 (put32 k v l) k = u32 v.
Proof.
  intros H. unfold get32, put32. byte_tac.
  change (2 ^ 24) with 16777216. word_lia.
Qed.

Lemma get32_put32_ne k j v l : (j + 3 < k \/ k + 3 < j)%nat -> get32 (put32 k v l) j = get32 l j.
Proof. intros H. unfold get32, put32. by byte_tac. Qed.

Lemma get16_put16_ne k j v l : (j + 1 < k \/ k + 1 < j)%nat -> get16 (put16 k v l) j = get16 l j.
Proof. intros H. unfold get16, put16. by byte_tac. Qed.

Lemma get16_put32_ne k j v l : (j + 1 < k \/ k + 3 < j)%nat -> get16 (put32 k v l) j = get16 l j.
Proof. intros H. unfold get16, put32. by byte_tac. Qed.

Lemma get32_put16_ne k j v l : (j + 3 < k \/ k + 1 < j)%nat -> get32 (put16 k v l) j = get32 l j.
Proof. intros H. unfold get32, put16. by byte_tac. Qed.

Lemma byte_range l k : is_bytes l -> 0 <= byte l k < 256.
Proof.
  intros H. unfold byte. destruct (l !! k) eqn:E; cbn; [|lia]. by apply (Forall_lookup_1 _ _ _ _ H E).
Qed.

Lemma get16_range l k : is_bytes l -> 0 <= get16 l k < 2 ^ 16.
Proof. intros H. unfold get16. pose proof (byte_range l k H). pose proof (byte_range l (k + 1) H). lia. Qed.

Lemma get32_range l k : is_bytes l -> 0 <= get32 l k < 2 ^ 32.
Proof.
  intros H. unfold get32. pose proof (byte_range l k H). pose proof (byte_range l (k + 1) H).
  pose proof (byte_range l (k + 2) H). pose proof (byte_range l (k + 3) H). lia.
Qed.

Lemma is_bytes_insert l k v : is_bytes l -> 0 <= v < 256 -> is_bytes (<[k := v]> l).
Proof. intros Hl Hv. by apply Forall_insert. Qed.

Lemma is_bytes_put16 k v l : is_bytes l -> is_bytes (put16 k v l).
Proof. intros H. unfold put16. repeat apply is_bytes_insert; auto using u8_range. Qed.

Lemma is_bytes_put32 k v l : is_bytes l -> is_bytes (put32 k v l).
Proof. intros H. unfold put32. repeat apply is_bytes_insert; auto using u8_range. Qed.

Lemma length_put_words o ws l : length (put_words o ws l) = length l.
Proof. revert o l. induction ws as [|w ws IH]; intros o l; cbn; [done|]. by rewrite IH, length_put32. Qed.

(** Words stored elsewhere do not matter. *)
Lemma get32_put_words_ne o ws l k : (k + 3 < o \/ o + 4 * length ws <= k)%nat ->
  get32 (put_words o ws l) k = get32 l k.
Proof.
  revert o l. induction ws as [|w ws IH]; intros o l Hk; cbn in *; [done|].
  rewrite IH by lia. apply get32_put32_ne. lia.
Qed.

Lemma get16_put_words_ne o ws l k : (k + 1 < o \/ o + 4 * length ws <= k)%nat ->
  get16 (put_words o ws l) k = get16 l k.
Proof.
  revert o l. induction ws as [|w ws IH]; intros o l Hk; cbn in *; [done|].
  rewrite IH by lia. apply get16_put32_ne. lia.
Qed.

Lemma get32_put_words o ws l i w :
  ws !! i = Some w -> (o + 4 * length ws <= length l)%nat -> get32 (put_words o ws l) (o + 4 * i) = u32 w.
Proof.
  revert o l i. induction ws as [|x ws IH]; intros o l i Hi Hl; [done|]. cbn [put_words]. cbn [length] in Hl.
  destruct i as [|i]; cbn in Hi.
  - injection Hi as ->. rewrite Nat.mul_0_r, Nat.add_0_r, get32_put_words_ne by lia. apply get32_put32. lia.
  - replace (o + 4 * S i)%nat with (o + 4 + 4 * i)%nat by lia. apply IH; [done|].
    rewrite length_put32. lia.
Qed.

Lemma is_bytes_put_words o ws l : is_bytes l -> is_bytes (put_words o ws l).
Proof. revert o l. induction ws as [|w ws IH]; intros o l Hl; cbn; [done|]. by apply IH, is_bytes_put32. Qed.

(** ** Copies *)

Lemma length_splice k src l : (k + length src <= length l)%nat -> length (splice k src l) = length l.
Proof. intros H. unfold splice. rewrite !length_app, length_take, length_drop. lia. Qed.

Lemma splice_lookup k src l j : (k + length src <= length l)%nat ->
  splice k src l !! j = if decide (k <= j < k + length src)%nat then src !! (j - k)%nat else l !! j.
Proof.
  intros H. unfold splice. destruct (decide _) as [D|D].
  - rewrite lookup_app_r by (rewrite length_take; lia). rewrite length_take, Nat.min_l by lia.
    by rewrite lookup_app_l by lia.
  - destruct (decide (j < k)%nat).
    + rewrite lookup_app_l by (rewrite length_take; lia). by rewrite lookup_take_lt.
    + rewrite lookup_app_r by (rewrite length_take; lia). rewrite length_take, Nat.min_l by lia.
      rewrite lookup_app_r by lia. rewrite lookup_drop. f_equal. lia.
Qed.

Lemma slice_lookup k n l j : slice k n l !! j = if decide (j < n)%nat then l !! (k + j)%nat else None.
Proof.
  unfold slice. destruct (decide _).
  - by rewrite lookup_take_lt, lookup_drop.
  - apply lookup_take_ge. lia.
Qed.

Lemma length_slice k n l : (k + n <= length l)%nat -> length (slice k n l) = n.
Proof. intros H. unfold slice. rewrite length_take, length_drop. lia. Qed.

Lemma slice_splice k src l : (k + length src <= length l)%nat -> slice k (length src) (splice k src l) = src.
Proof.
  intros H. apply list_eq. intros j. rewrite slice_lookup, splice_lookup by done.
  destruct (decide (j < length src)%nat); [rewrite decide_True by lia; f_equal; lia|].
  symmetry. apply lookup_ge_None. lia.
Qed.

Lemma byte_splice k src l j : (k + length src <= length l)%nat ->
  byte (splice k src l) j = if decide (k <= j < k + length src)%nat then byte src (j - k) else byte l j.
Proof. intros H. unfold byte. rewrite splice_lookup by done. by destruct (decide _). Qed.

Lemma splice_all src l : length src = length l -> splice 0 src l = src.
Proof. intros H. unfold splice. rewrite take_0, Nat.add_0_l, H, drop_all, app_nil_r. done. Qed.

Lemma is_bytes_splice k src l : is_bytes src -> is_bytes l -> is_bytes (splice k src l).
Proof. intros H1 H2. unfold splice. apply Forall_app; split; [by apply Forall_take|]. apply Forall_app; split; [done|by apply Forall_drop]. Qed.

Lemma is_bytes_slice k n l : is_bytes l -> is_bytes (slice k n l).
Proof. intros H. by apply Forall_take, Forall_drop. Qed.

(** Stores of words are copies of their bytes. *)

Lemma splice_snoc k x y l : (k + length x + length y <= length l)%nat ->
  splice (k + length x) y (splice k x l) = splice k (x ++ y) l.
Proof.
  intros H. apply list_eq. intros j. rewrite !splice_lookup by (rewrite ?length_splice, ?length_app; lia).
  rewrite length_app. destruct (decide (k + length x <= j < k + length x + length y)%nat).
  - rewrite decide_True by lia. rewrite lookup_app_r by lia. f_equal. lia.
  - destruct (decide (k <= j < k + length x)%nat).
    + rewrite decide_True by lia. rewrite lookup_app_l by lia. done.
    + rewrite decide_False by lia. done.
Qed.

Lemma splice_cons k x y l : (k + length x + length y <= length l)%nat ->
  splice k x (splice (k + length x) y l) = splice k (x ++ y) l.
Proof.
  intros H. apply list_eq. intros j. rewrite !splice_lookup by (rewrite ?length_splice, ?length_app; lia).
  rewrite length_app. destruct (decide (k <= j < k + length x)%nat).
  - rewrite decide_True by lia. rewrite lookup_app_l by lia. done.
  - destruct (decide (k + length x <= j < k + length x + length y)%nat).
    + rewrite decide_True by lia. rewrite lookup_app_r by lia. f_equal. lia.
    + rewrite decide_False by lia. done.
Qed.

Lemma splice_over k x y l : (length x <= length y)%nat -> (k + length y <= length l)%nat ->
  splice k x (splice k y l) = splice k (x ++ drop (length x) y) l.
Proof.
  intros H1 H2. apply list_eq. intros j.
  rewrite !splice_lookup by (rewrite ?length_splice, ?length_app, ?length_drop; lia).
  rewrite length_app, length_drop. destruct (decide (k <= j < k + length x)%nat).
  - rewrite decide_True by lia. rewrite lookup_app_l by lia. done.
  - destruct (decide (k <= j < k + length y)%nat).
    + rewrite decide_True by lia. rewrite lookup_app_r, lookup_drop by lia. f_equal. lia.
    + rewrite decide_False by lia. done.
Qed.

Lemma insert_splice k x l : (k < length l)%nat -> <[k := x]> l = splice k [x] l.
Proof. intros H. rewrite insert_take_drop by done. unfold splice. cbn. by rewrite Nat.add_1_r. Qed.

Lemma put16_splice k v l : (k + 2 <= length l)%nat -> put16 k v l = splice k [u8 v; u8 (v / 2 ^ 8)] l.
Proof.
  intros H. unfold put16. rewrite !insert_splice by (rewrite ?length_insert; lia).
  rewrite (splice_cons k [_] [_]) by (cbn; lia). done.
Qed.

Lemma put32_splice k v l : (k + 4 <= length l)%nat ->
  put32 k v l = splice k [u8 v; u8 (v / 2 ^ 8); u8 (v / 2 ^ 16); u8 (v / 2 ^ 24)] l.
Proof.
  intros H. unfold put32. rewrite !insert_splice by (rewrite ?length_insert; lia).
  replace (k + 3)%nat with (k + 2 + 1)%nat by lia. rewrite (splice_cons (k + 2) [_] [_]) by (cbn; lia).
  replace (k + 2)%nat with (k + 1 + 1)%nat by lia. rewrite (splice_cons (k + 1) [_] ([_] ++ _)) by (cbn; lia).
  rewrite (splice_cons k [_] ([_] ++ _)) by (cbn; lia). done.
Qed.

Lemma put_words_zero n : forall o l, (o + 4 * n <= length l)%nat ->
  put_words o (replicate n 0) l = splice o (replicate (4 * n) 0) l.
Proof.
  induction n as [|n IH]; intros o l H.
  - cbn. unfold splice. cbn. by rewrite Nat.add_0_r, take_drop.
  - cbn [replicate put_words]. rewrite IH by (rewrite length_put32; lia). rewrite put32_splice by lia.
    rewrite (splice_snoc o [_; _; _; _]) by (cbn; rewrite length_replicate; lia). f_equal.
    replace (4 * S n)%nat with (4 + 4 * n)%nat by lia. by rewrite replicate_add.
Qed.

End words.

#[export] Hint Resolve length_put16 length_put32 is_bytes_put16 is_bytes_put32 get16_range get32_range : xv6.
