(* ===== verification/Blocks.v ===== *)
(** The contract between the buffer cache and the code above it (log.c, fs.c).

    [BufferCache] lists the operations of bio.c that code uses, with the
    accesses to the fields of a buffer; [BlockStore] says what they do to the
    blocks of the disk, for one process running alone in the cache.  Clients are
    proved against [BlockStore]; the second half of the file proves that bio.c
    over any disk with a record of its writes provides it. *)

From stdpp Require Import functions base numbers list strings.
From S2P Require Import Xv6 Prelude Kstring Sleeplock Bio.

Class BufferCache (S : Type) := {
  c_bread : Z -> Z -> M S nat;
  c_bwrite : nat -> M S unit;
  c_brelse : nat -> M S unit;
  c_data : nat -> S -> list Z;           (* b->data *)
  c_blockno : nat -> S -> Z;             (* b->blockno *)
  c_store : nat -> list Z -> S -> S;     (* stores to b->data *)
  c_pin : nat -> S -> S }.               (* b->flags |= B_DIRTY *)

(** What a cache shows: the contents a reader sees, those on the disk, the
    writes made to the disk so far, the blocks kept in the cache because they
    differ from the disk, and the buffers locked by the process. *)
Record bview := Bview {
  seen : Z -> list Z;
  ondisk : Z -> list Z;
  writes : list (Z * list Z);
  pinned : list Z;
  holds : list (nat * Z) }.

Definition holding_buf (i : nat) (n : Z) (v : bview) : bview :=
  Bview (seen v) (ondisk v) (writes v) (pinned v) ((i, n) :: holds v).
Definition written (n : Z) (v : bview) : bview :=
  Bview (seen v) (<[n := seen v n]> (ondisk v)) (writes v ++ [(n, seen v n)])
    (filter (fun m => m ≠ n) (pinned v)) (holds v).
Definition released (h : list (nat * Z)) (v : bview) : bview :=
  Bview (seen v) (ondisk v) (writes v) (pinned v) h.
Definition stored (n : Z) (l : list Z) (v : bview) : bview :=
  Bview (<[n := l]> (seen v)) (ondisk v) (writes v) (pinned v) (holds v).
Definition pinning (n : Z) (v : bview) : bview :=
  Bview (seen v) (ondisk v) (writes v)
    (if decide (n ∈ pinned v) then pinned v else n :: pinned v) (holds v).

(** Views that say the same of every block. *)
#[export] Instance bview_equiv : Equiv bview := fun v v' =>
  (forall n, seen v n = seen v' n) /\ (forall n, ondisk v n = ondisk v' n) /\ writes v = writes v' /\
  pinned v = pinned v' /\ holds v = holds v'.
#[export] Instance bview_equivalence : Equivalence (≡@{bview}).
Proof.
  split.
  - intros v. done.
  - intros v v' (? & ? & ? & ? & ?). split_and!; intros; by symmetry.
  - intros v1 v2 v3 (? & ? & ? & ? & ?) (? & ? & ? & ? & ?). split_and!; intros; etransitivity; eauto.
Qed.

(** There is a buffer for block [n]. *)
Definition room (n : Z) (v : bview) : Prop :=
  n ∈ pinned v \/ (length (holds v) + length (pinned v) < NBUF)%nat.

Class BlockStore (S : Type) `{BufferCache S} := {
  (** The cache of a disk of [N] blocks, as process [t] sees it. *)
  shows : thread -> Z -> bview -> S -> Prop;
  shows_proper t N :: Proper ((≡) ==> (=) ==> impl) (shows t N);
  shows_length t N v s n : shows t N v s -> length (seen v n) = Z.to_nat BSIZE;
  shows_nodup t N v s : shows t N v s -> NoDup (pinned v) /\ NoDup (holds v).*2;
  shows_clean t N v s n : shows t N v s -> n ∉ pinned v -> n ∉ (holds v).*2 -> seen v n = ondisk v n;
  shows_held t N v s i n : shows t N v s -> (i, n) ∈ holds v -> c_data i s = seen v n /\ c_blockno i s = n;
  shows_thread t t' N v s : shows t N v s -> holds v = [] -> shows t' N v s;
  bread_law t N v s w n : shows t N v s -> 0 <= n < N -> n ∉ (holds v).*2 -> room n v ->
    exists i s', c_bread 1 n (Ctx t [] w) s = Ret i (Ctx t [] w) s' /\ shows t N (holding_buf i n v) s';
  bwrite_law t N v s w i n : shows t N v s -> (i, n) ∈ holds v ->
    exists s', c_bwrite i (Ctx t [] w) s = Ret tt (Ctx t [] w) s' /\ shows t N (written n v) s';
  brelse_law t N v s w h1 h2 i n : shows t N v s -> holds v = h1 ++ (i, n) :: h2 ->
    n ∈ pinned v \/ seen v n = ondisk v n ->
    exists w' s', c_brelse i (Ctx t [] w) s = Ret tt (Ctx t [] w') s' /\ shows t N (released (h1 ++ h2) v) s';
  store_law t N v s i n l : shows t N v s -> (i, n) ∈ holds v -> length l = Z.to_nat BSIZE ->
    shows t N (stored n l v) (c_store i l s);
  pin_law t N v s i n : shows t N v s -> (i, n) ∈ holds v -> shows t N (pinning n v) (c_pin i s) }.

(** ** A disk that records its writes *)

Record recorded (D : Type) := Recorded { under : D; record : list (Z * list Z) }.
Arguments Recorded {D}.
Arguments under {D}.
Arguments record {D}.

#[export] Instance recorded_driver {D} `{DiskDriver D} : DiskDriver (recorded D) := {|
  iderw i b :=
    b' <- zoom under (fun d r => Recorded d (record r)) (iderw i b);;
    modify (fun r => Recorded (under r)
      (record r ++ if dirty b then [(blockno b, data b)] else []));;
    ret b' |}.

#[export] Program Instance recorded_disk {D} `{Disk D} : Disk (recorded D) := {|
  nblocks r := nblocks (under r);
  block r n := block (under r) n;
  put_block r n l := Recorded (put_block (under r) n l) (record r ++ [(n, l)]) |}.
Next Obligation. intros. apply nblocks_put. Qed.
Next Obligation. intros. by apply block_put_same. Qed.
Next Obligation. intros. by apply block_put_other. Qed.
Next Obligation. intros. apply length_block. Qed.
Next Obligation.
  intros D Dr Dk i b t h w d Hl Hk Hf Hd Hb. cbn [iderw recorded_driver].
  erewrite bind_Ret; [|unfold zoom; rewrite iderw_reads by done; reflexivity]. mstep. unfold ret.
  assert (dirty b = false) as -> by (unfold dirty, has_flag; by rewrite Hf).
  rewrite app_nil_r. by destruct d.
Qed.
Next Obligation.
  intros D Dr Dk i b t h w d Hl Hk Hf Hdi Hd Hb. cbn [iderw recorded_driver].
  erewrite bind_Ret; [|unfold zoom; rewrite iderw_writes by done; reflexivity]. mstep.
  by rewrite Hdi.
Qed.

(** ** bio.c provides the contract *)

Section bio_store.
Context {D : Type} {Drv : DiskDriver D} {Dsk : Disk D}.
Implicit Types (s : bcache (recorded D)) (v : bview) (t : thread).

#[export] Instance bio_cache : BufferCache (bcache (recorded D)) := {|
  c_bread := bread;
  c_bwrite := bwrite;
  c_brelse := brelse;
  c_data i s := data (bufs s i);
  c_blockno i s := blockno (bufs s i);
  c_store i l s := upd i (set_data l) s;
  c_pin i s := upd i (fun b => set_flags (Z.lor (flags b) B_DIRTY) b) s |}.

Record bio_shows t (N : Z) v s : Prop := {
  bs_inv : exists l, cache_inv s l;
  bs_coherent : coherent s;
  bs_size : nblocks (disk s) = N;
  bs_seen n : view s n = seen v n;
  bs_disk n : block (disk s) n = ondisk v n;
  bs_writes : record (disk s) = writes v;
  bs_held i n : (i, n) ∈ holds v ->
    owned t s i n /\ valid (bufs s i) = true /\ refcnt (bufs s i) = 1 /\ 0 <= n < N;
  bs_idle i : (i < NBUF)%nat -> i ∉ (holds v).*1 -> refcnt (bufs s i) = 0;
  bs_dirty i : (i < NBUF)%nat -> dirty (bufs s i) = true ->
    dev (bufs s i) = 1 /\ blockno (bufs s i) ∈ pinned v;
  bs_pinned n : n ∈ pinned v ->
    exists i, (i < NBUF)%nat /\ dev (bufs s i) = 1 /\ blockno (bufs s i) = n /\ dirty (bufs s i) = true;
  bs_nodup_pinned : NoDup (pinned v);
  bs_nodup_bufs : NoDup (holds v).*1;
  bs_nodup_held : NoDup (holds v).*2 }.

Lemma elem_of_fst (i : nat) (h : list (nat * Z)) : i ∈ h.*1 <-> exists n, (i, n) ∈ h.
Proof. rewrite list_elem_of_fmap. split; [intros ([? n] & -> & ?); by exists n | intros [n ?]; by exists (i, n)]. Qed.

Lemma elem_of_snd (n : Z) (h : list (nat * Z)) : n ∈ h.*2 <-> exists i, (i, n) ∈ h.
Proof. rewrite list_elem_of_fmap. split; [intros ([i ?] & -> & ?); by exists i | intros [i ?]; by exists (i, n)]. Qed.

Lemma bio_view_held t N v s i n : bio_shows t N v s -> (i, n) ∈ holds v -> data (bufs s i) = seen v n.
Proof.
  intros Hb Hi. destruct (bs_held t N v s Hb i n Hi) as ((Hlt & _ & Hd & Hn) & Hv & _).
  destruct (bs_inv t N v s Hb) as [l C]. rewrite <- (bs_seen t N v s Hb). symmetry. by eapply view_cached.
Qed.

(** Two buffers with the same block are the same. *)
Lemma bio_unique t N v s i j : bio_shows t N v s -> (i < NBUF)%nat -> (j < NBUF)%nat ->
  dev (bufs s i) = 1 -> dev (bufs s j) = 1 -> blockno (bufs s i) = blockno (bufs s j) -> i = j.
Proof.
  intros Hb Hi Hj Di Dj E. destruct (bs_inv t N v s Hb) as [l C]. apply (ci_unique s l C); congruence.
Qed.

(** A buffer of a block that is not held is not held. *)
Lemma bio_not_held t N v s i n : bio_shows t N v s -> (i < NBUF)%nat -> dev (bufs s i) = 1 ->
  blockno (bufs s i) = n -> n ∉ (holds v).*2 -> i ∉ (holds v).*1.
Proof.
  intros Hb Hi Hd Hn Hh [m Hm]%elem_of_fst. destruct (bs_held t N v s Hb i m Hm) as ((_ & _ & _ & E) & _).
  apply Hh, elem_of_snd. exists i. congruence.
Qed.

Lemma bio_clean t N v s n : bio_shows t N v s -> n ∉ pinned v -> n ∉ (holds v).*2 -> seen v n = ondisk v n.
Proof.
  intros Hb Hp Hh. rewrite <- (bs_seen t N v s Hb), <- (bs_disk t N v s Hb). unfold view.
  destruct (List.find _ (seq 0 NBUF)) as [i|] eqn:F; [|done].
  apply find_some_in in F as [Hi Hc]. apply elem_of_seq in Hi. apply andb_true_iff in Hc as [Hc Hv].
  apply caches_spec in Hc as [Hd Hn]. assert (i < NBUF)%nat as Hlt by lia. rewrite <- Hn.
  apply (bs_coherent t N v s Hb); try done. unfold recyclable. fold (dirty (bufs s i)).
  rewrite (bs_idle t N v s Hb i Hlt) by (by eapply bio_not_held). cbn.
  destruct (dirty (bufs s i)) eqn:Ed; [|done].
  apply (bs_dirty t N v s Hb i Hlt) in Ed as [_ Ed]. congruence.
Qed.

(** A buffer that is neither held nor dirty exists while there is room. *)
Lemma bio_free_buffer t N v s : bio_shows t N v s -> (length (holds v) + length (pinned v) < NBUF)%nat ->
  exists i, (i < NBUF)%nat /\ recyclable s i = true.
Proof.
  intros Hb Hr.
  destruct (decide (Exists (fun i => recyclable s i = true) (seq 0 NBUF))) as [He|He].
  { apply Exists_exists in He as (i & Hi%elem_of_seq & Hrec). exists i. split; [lia|done]. }
  exfalso. apply not_Exists_Forall in He; [|apply _]. rewrite Forall_forall in He.
  set (key := fun i => if decide (i ∈ (holds v).*1) then inl i else inr (blockno (bufs s i)) : nat + Z).
  assert (NoDup (key <$> seq 0 NBUF)) as Hnd.
  { apply NoDup_fmap_2_strong; [|apply NoDup_seq]. intros i j Hi%elem_of_seq Hj%elem_of_seq. unfold key.
    destruct (decide (i ∈ (holds v).*1)) as [Ei|Ei], (decide (j ∈ (holds v).*1)) as [Ej|Ej]; try done.
    - by intros [= ->].
    - intros [= E].
      assert (forall k, (k < NBUF)%nat -> k ∉ (holds v).*1 -> dirty (bufs s k) = true) as Hd.
      { intros k Hk Hn. destruct (dirty (bufs s k)) eqn:Ed; [done|]. exfalso.
        apply (He k); [apply elem_of_seq; lia|]. unfold recyclable. unfold dirty in Ed.
        by rewrite Ed, (bs_idle t N v s Hb k Hk Hn). }
      assert (i < NBUF)%nat as Li by lia. assert (j < NBUF)%nat as Lj by lia.
      apply (bio_unique t N v s i j Hb Li Lj); [..|done]; by apply (bs_dirty t N v s Hb), Hd. }
  assert (forall x, x ∈ (key <$> seq 0 NBUF) -> x ∈ (inl <$> (holds v).*1) ++ (inr <$> pinned v)) as Hin.
  { intros x (i & -> & Hi%elem_of_seq)%list_elem_of_fmap. unfold key. apply elem_of_app.
    assert (i < NBUF)%nat as Li by lia.
    destruct (decide (i ∈ (holds v).*1)) as [Ei|Ei]; [left; by apply list_elem_of_fmap_2|right].
    apply list_elem_of_fmap_2. apply (bs_dirty t N v s Hb i Li).
    destruct (dirty (bufs s i)) eqn:Ed; [done|]. exfalso. apply (He i); [apply elem_of_seq; lia|].
    unfold recyclable. unfold dirty in Ed. by rewrite Ed, (bs_idle t N v s Hb i Li Ei). }
  pose proof (submseteq_length _ _ (NoDup_submseteq _ _ Hnd Hin)) as Hlen.
  rewrite length_app, !length_fmap, length_seq in Hlen. lia.
Qed.

(** The buffer [bread] takes. *)
Lemma bio_picks t N v s n l : bio_shows t N v s -> cache_inv s l -> n ∉ (holds v).*2 -> room n v ->
  exists i, (i < NBUF)%nat /\ (i ∉ (holds v).*1) /\ refcnt (bufs s i) = 0 /\ bread_picks s l n i /\
    (dirty (bufs s i) = true -> dev (bufs s i) = 1 /\ blockno (bufs s i) = n).
Proof.
  intros Hb C Hh Hr. pose proof (ci_lru s l C) as L. destruct (List.find (caches s 1 n) l) as [i|] eqn:F.
  - pose proof (lru_find_lt _ _ _ _ L F) as Hi. exists i.
    pose proof F as F'. apply find_some_in in F' as [_ Hc]. apply caches_spec in Hc as [Hd Hn].
    pose proof (bio_not_held t N v s i n Hb Hi Hd Hn Hh) as Hni.
    pose proof (bs_idle t N v s Hb i Hi Hni) as Hz. repeat (split; [done|]). split; [|done].
    left. split; [done|]. split; [by apply (ci_idle s l C)|]. rewrite Hz. lia.
  - assert (exists i, (i < NBUF)%nat /\ recyclable s i = true) as (k & Hk & Hrec).
    { destruct Hr as [Hp|Hr]; [|by eapply bio_free_buffer]. exfalso.
      destruct (bs_pinned t N v s Hb n Hp) as (k & Hk & Hd & Hn & _).
      assert (caches s 1 n k = false) as E; [|by rewrite (proj2 (caches_spec s 1 n k)) in E].
      eapply find_none_all; [exact F|]. by apply L. }
    destruct (List.find (recyclable s) (reverse l)) as [i|] eqn:R.
    + pose proof (lru_rfind_lt _ _ _ _ L R) as Hi. exists i.
      pose proof R as R'. apply find_some_in in R' as [_ Hri]. unfold recyclable in Hri.
      apply andb_true_iff in Hri as [H0 Hnd]. apply Z.eqb_eq in H0. apply negb_true_iff in Hnd.
      split; [done|]. split.
      { intros [m Hm]%elem_of_fst. destruct (bs_held t N v s Hb i m Hm) as (_ & _ & H1 & _). lia. }
      split; [done|]. split; [by right|]. unfold dirty. by rewrite Hnd.
    + exfalso. rewrite (find_none_all _ _ k R) in Hrec; [done|]. rewrite reverse_Permutation. by apply L.
Qed.

Lemma bio_bread t N v s w n : bio_shows t N v s -> 0 <= n < N -> n ∉ (holds v).*2 -> room n v ->
  exists i s', bread 1 n (Ctx t [] w) s = Ret i (Ctx t [] w) s' /\ bio_shows t N (holding_buf i n v) s'.
Proof.
  intros Hb Hn Hh Hr. destruct (bs_inv t N v s Hb) as [l C].
  destruct (bio_picks t N v s n l Hb C Hh Hr) as (i & Hi & Hni & H0 & Hp & Hdn).
  destruct (bread_spec t w s l n i C (bs_coherent t N v s Hb) Hp) as
    (s' & E & Ho & Hv & _ & Hdk & Hvw & C' & Co' & Hrc & Hdt & Hj); [rewrite (bs_size t N v s Hb); lia|].
  exists i, s'. split; [exact E|]. pose proof Ho as (_ & _ & Hdi & Hbi).
  assert (forall j, j ∈ (holds v).*1 -> bufs s' j = bufs s j) as Hold by (intros j Hin; apply Hj; congruence).
  split; cbn [holding_buf seen ondisk writes pinned holds]; rewrite ?Hdk.
  - by exists l.
  - done.
  - apply Hb.
  - intros m. rewrite Hvw. apply Hb.
  - apply Hb.
  - apply Hb.
  - intros j m [[= -> ->]|Hm]%elem_of_cons; [split; [done|split; [done|split; [lia|done]]]|].
    unfold owned. rewrite Hold by (apply elem_of_fst; by exists m). by apply Hb.
  - intros j Hlt Hnj. cbn in Hnj. apply not_elem_of_cons in Hnj as [N1 N2]. rewrite Hj by done. by apply Hb.
  - intros j Hlt Hd. destruct (decide (j = i)) as [->|Nj].
    + rewrite Hdt in Hd. destruct (Hdn Hd) as [_ En]. apply (bs_dirty t N v s Hb i Hi) in Hd as [_ Hd].
      rewrite Hdi, Hbi. split; [done|congruence].
    + rewrite Hj in * by done. by apply Hb.
  - intros m Hm. destruct (bs_pinned t N v s Hb m Hm) as (j & Hlt & Hd & Hn' & Hdd). exists j.
    destruct (decide (j = i)) as [->|Nj]; [|rewrite Hj by done; done].
    destruct (Hdn Hdd) as [_ En]. repeat (split; [congruence|]). by rewrite Hdt.
  - apply Hb.
  - cbn. apply NoDup_cons. split; [done|apply Hb].
  - cbn. apply NoDup_cons. split; [done|apply Hb].
Qed.

Lemma bio_bwrite t N v s w i n : bio_shows t N v s -> (i, n) ∈ holds v ->
  exists s', bwrite i (Ctx t [] w) s = Ret tt (Ctx t [] w) s' /\ bio_shows t N (written n v) s'.
Proof.
  intros Hb Hin. destruct (bs_inv t N v s Hb) as [l C].
  destruct (bs_held t N v s Hb i n Hin) as (Ho & Hv & Hr1 & HN). pose proof Ho as (Hi & Hk & Hd & Hn).
  destruct (bwrite_spec t w s l i n C Ho Hv) as (s' & E & Edk & Ei & Hj & Hvw & C');
    [rewrite (bs_size t N v s Hb); lia|].
  pose proof (ci_data s l C i Hi) as Hlen. pose proof (bio_view_held t N v s i n Hb Hin) as Hdata.
  assert (forall j, (j < NBUF)%nat -> j ≠ i -> dev (bufs s j) = 1 -> blockno (bufs s j) ≠ n) as Hne.
  { intros j Hlt N1 D1 D2. apply N1. apply (bio_unique t N v s j i Hb); congruence. }
  exists s'. split; [exact E|]. split; cbn [written seen ondisk writes pinned holds]; rewrite ?Edk.
  - by exists l.
  - intros j Hlt Dj Vj Rj. destruct (decide (j = i)) as [->|N1].
    + exfalso. unfold recyclable in Rj. rewrite Ei in Rj. cbn in Rj. rewrite Hr1 in Rj. done.
    + rewrite Edk. unfold recyclable in Rj. rewrite Hj in * by done. rewrite block_put_other; auto.
      by apply (bs_coherent t N v s Hb).
  - rewrite nblocks_put. apply Hb.
  - intros m. rewrite Hvw. apply Hb.
  - intros m. destruct (decide (m = n)) as [->|Nm].
    + rewrite block_put_same, fn_lookup_insert by done. done.
    + rewrite block_put_other, fn_lookup_insert_ne by done. apply Hb.
  - cbn. by rewrite (bs_writes t N v s Hb), Hdata.
  - intros j m Hm. unfold owned. destruct (decide (j = i)) as [->|N1].
    + destruct (bs_held t N v s Hb i m Hm) as (O' & _ & ? & ?). rewrite Ei. by split.
    + rewrite Hj by done. by apply (bs_held t N v s Hb j m).
  - intros j Hlt Hnj. rewrite Hj; [by apply Hb|]. intros ->. apply Hnj, elem_of_fst. by exists n.
  - intros j Hlt Dj. destruct (decide (j = i)) as [->|N1]; [by rewrite Ei in Dj|].
    rewrite Hj in * by done. destruct (bs_dirty t N v s Hb j Hlt Dj) as [D1 D2]. split; [done|].
    apply list_elem_of_filter. split; [by apply Hne|done].
  - intros m [Nm Hm]%list_elem_of_filter. destruct (bs_pinned t N v s Hb m Hm) as (j & Hlt & D1 & D2 & D3).
    exists j. rewrite Hj; [done|]. intros ->. congruence.
  - by apply NoDup_filter, Hb.
  - apply Hb.
  - apply Hb.
Qed.

Lemma bio_brelse t N v s w h1 h2 i n : bio_shows t N v s -> holds v = h1 ++ (i, n) :: h2 ->
  n ∈ pinned v \/ seen v n = ondisk v n ->
  exists w' s', brelse i (Ctx t [] w) s = Ret tt (Ctx t [] w') s' /\ bio_shows t N (released (h1 ++ h2) v) s'.
Proof.
  intros Hb Eh Hc. destruct (bs_inv t N v s Hb) as [l C].
  assert ((i, n) ∈ holds v) as Hin by (rewrite Eh; apply elem_of_app; right; left).
  destruct (bs_held t N v s Hb i n Hin) as (Ho & Hv & Hr1 & HN). pose proof Ho as (Hi & Hk & Hd & Hn).
  assert (i ∈ l) as Hil by (by apply (ci_lru s l C)).
  apply list_elem_of_split in Hil as (l1 & l2 & ->).
  destruct (brelse_spec t w s l1 l2 i n C Ho) as
    (s' & E & Edk & Hvw & Hfr & Hrc & C' & Co' & Hlk & Hj); [lia|].
  eexists _, s'. split; [exact E|].
  pose proof (bs_nodup_bufs t N v s Hb) as Nd1. pose proof (bs_nodup_held t N v s Hb) as Nd2.
  rewrite Eh, fmap_app in Nd1. rewrite Eh, fmap_app in Nd2. cbn in Nd1, Nd2.
  apply NoDup_app in Nd1 as (P1 & P2 & P3). apply NoDup_cons in P3 as [P3 P4].
  apply NoDup_app in Nd2 as (Q1 & Q2 & Q3). apply NoDup_cons in Q3 as [Q3 Q4].
  assert (i ∉ (h1 ++ h2).*1) as Hout.
  { rewrite fmap_app. intros [X|X]%elem_of_app; [|done]. apply (P2 i X). left. }
  assert (forall j, look (bufs s' j) = look (bufs s j)) as Hlook.
  { intros j. destruct (decide (j = i)) as [->|N1]; [done|]. by apply content_look, Hj. }
  split; cbn [released seen ondisk writes pinned holds]; rewrite ?Edk.
  - eexists. exact C'.
  - apply Co'; [apply Hb|]. destruct Hc as [Hp|Hs].
    + left. destruct (bs_pinned t N v s Hb n Hp) as (j & Hlt & D1 & D2 & D3).
      replace i with j; [done|]. apply (bio_unique t N v s j i Hb); congruence.
    + right. right. by rewrite (bio_view_held t N v s i n Hb Hin), (bs_disk t N v s Hb).
  - apply Hb.
  - intros m. rewrite Hvw. apply Hb.
  - apply Hb.
  - apply Hb.
  - intros j m Hm.
    assert (j ≠ i) as N1 by (intros ->; apply Hout, elem_of_fst; by exists m).
    assert ((j, m) ∈ holds v) as Hm' by (rewrite Eh; apply elem_of_app in Hm as [?|?]; apply elem_of_app; [by left | right; by right]).
    destruct (bs_held t N v s Hb j m Hm') as ((? & ? & ? & ?) & Hv' & ? & ?).
    specialize (Hj j N1). unfold content in Hj. injection Hj as E1 E2 E3 E4 E5 E6.
    unfold owned, valid, has_flag in *. rewrite E1, E2, E3, E4, E5. done.
  - intros j Hlt Hnj. destruct (decide (j = i)) as [->|N1]; [lia|].
    destruct (content_look _ _ (Hj j N1)) as (_ & -> & _). apply Hb; [done|].
    rewrite Eh, fmap_app. intros [X|[X|X]%elem_of_cons]%elem_of_app; [|by simpl in X|];
      apply Hnj; rewrite fmap_app; apply elem_of_app; auto.
  - intros j Hlt Dj. specialize (Hlook j). unfold look in Hlook. injection Hlook as E1 E2 E3 E4.
    unfold dirty, has_flag in Dj. rewrite E1 in Dj. rewrite E2, E3. by apply (bs_dirty t N v s Hb).
  - intros m Hm. destruct (bs_pinned t N v s Hb m Hm) as (j & Hlt & D1 & D2 & D3). exists j.
    specialize (Hlook j). unfold look in Hlook. injection Hlook as E1 E2 E3 E4.
    unfold dirty, has_flag in *. by rewrite E1, E2, E3.
  - apply Hb.
  - rewrite fmap_app. apply NoDup_app. split; [done|]. split; [|done]. intros x Hx Hx2. apply (P2 x Hx). by right.
  - rewrite fmap_app. apply NoDup_app. split; [done|]. split; [|done]. intros x Hx Hx2. apply (Q2 x Hx). by right.
Qed.

(** A change of the data and the [B_DIRTY] flag of a held buffer. *)
Lemma bio_upd t N v v' s i n (f : buf -> buf) :
  bio_shows t N v s -> (i, n) ∈ holds v ->
  (forall b, f b = set_data (data (f b)) (set_flags (flags (f b)) b)) ->
  flags (f (bufs s i)) ∈ [B_VALID; Z.lor B_VALID B_DIRTY] ->
  length (data (f (bufs s i))) = Z.to_nat BSIZE ->
  (forall m, seen v' m = <[n := data (f (bufs s i))]> (seen v) m) ->
  ondisk v' = ondisk v -> writes v' = writes v -> holds v' = holds v -> NoDup (pinned v') ->
  (forall m, m ≠ n -> m ∈ pinned v' <-> m ∈ pinned v) ->
  (n ∈ pinned v' <-> dirty (f (bufs s i)) = true) ->
  bio_shows t N v' (upd i f s).
Proof.
  intros Hb Hin Hf Hfl Hl Es Ed Ew Eh Hnd Hp Hpn. destruct (bs_inv t N v s Hb) as [l C].
  destruct (bs_held t N v s Hb i n Hin) as (Ho & Hv & Hr1 & HN). pose proof Ho as (Hi & Hk & Hd & Hn).
  pose proof (Hf (bufs s i)) as Ef. set (b := f (bufs s i)) in *.
  assert (bufs (upd i f s) i = b) as Eb by apply buf_upd_same.
  assert (forall j, j ≠ i -> bufs (upd i f s) j = bufs s j) as Hj by (intros; by apply buf_upd_other).
  assert (dev b = 1 /\ blockno b = n /\ refcnt b = 1 /\ lock b = Sleeplock true (t_pid t) /\
    next b = next (bufs s i) /\ prev b = prev (bufs s i)) as (B1 & B2 & B3 & B4 & B5 & B6)
    by (rewrite Ef; done).
  assert (valid b = true) as B7.
  { unfold valid, has_flag. rewrite !elem_of_cons, elem_of_nil in Hfl. by destruct Hfl as [->|[->|[]]]. }
  assert (cache_inv (upd i f s) l) as C'.
  { apply cache_inv_upd; fold b; rewrite ?B3; try done; try lia.
    - unfold good_flags. rewrite !elem_of_cons, elem_of_nil in *. tauto.
    - rewrite B1, B2. intros j Hlt N1 _ D1 D2. apply N1. apply (bio_unique t N v s j i Hb); congruence. }
  split; rewrite ?Ed, ?Ew, ?Eh; try apply Hb.
  - by exists l.
  - intros j Hlt D1 V1 R1. destruct (decide (j = i)) as [->|N1].
    + unfold recyclable in R1. rewrite Eb, B3 in R1. done.
    + unfold recyclable in R1. rewrite Hj in * by done. by apply (bs_coherent t N v s Hb).
  - intros m. rewrite Es. destruct (decide (m = n)) as [->|Nm].
    + rewrite fn_lookup_insert, (view_cached (upd i f s) l n i C' Hi), Eb; rewrite ?Eb; done.
    + rewrite fn_lookup_insert_ne, <- (bs_seen t N v s Hb) by done.
      apply (view_frame s _ i m); [by intros j _ N1; rewrite Hj | done |..].
      * destruct (caches s 1 m i) eqn:Ec; [|done]. apply caches_spec in Ec. destruct Ec. congruence.
      * destruct (caches (upd i f s) 1 m i) eqn:Ec; [|done]. apply caches_spec in Ec. rewrite Eb in Ec.
        destruct Ec. congruence.
  - intros j m Hm. unfold owned. destruct (decide (j = i)) as [->|N1].
    + destruct (bs_held t N v s Hb i m Hm) as ((_ & _ & _ & E') & _). rewrite Eb.
      replace m with n by congruence. done.
    + rewrite Hj by done. by apply (bs_held t N v s Hb).
  - intros j Hlt Hnj. rewrite Hj; [by apply Hb|]. intros ->. apply Hnj, elem_of_fst. by exists n.
  - intros j Hlt Dj. destruct (decide (j = i)) as [->|N1].
    + rewrite Eb in *. rewrite B1, B2. split; [done|by apply Hpn].
    + rewrite Hj in * by done. destruct (bs_dirty t N v s Hb j Hlt Dj) as [D1 D2]. split; [done|].
      apply Hp; [|done]. intros D3. apply N1. apply (bio_unique t N v s j i Hb); congruence.
  - intros m Hm. destruct (decide (m = n)) as [->|Nm].
    + exists i. rewrite Eb. repeat (split; [done|]). by apply Hpn.
    + apply Hp in Hm; [|done]. destruct (bs_pinned t N v s Hb m Hm) as (j & Hlt & D1 & D2 & D3).
      exists j. rewrite Hj; [done|]. intros ->. congruence.
  - done.
Qed.

#[export] Program Instance bio_store : BlockStore (bcache (recorded D)) := {| shows := bio_shows |}.
Next Obligation.
  intros t N v v' (E1 & E2 & E3 & E4 & E5) s ? <- Hb.
  split; rewrite <- ?E3, <- ?E4, <- ?E5; try apply Hb; intros n; rewrite <- ?E1, <- ?E2; apply Hb.
Qed.
Next Obligation.
  intros t N v s n Hb. destruct (bs_inv t N v s Hb) as [l C]. rewrite <- (bs_seen t N v s Hb). unfold view.
  destruct (List.find _ (seq 0 NBUF)) as [i|] eqn:F; [|apply length_block].
  apply find_some_in in F as [Hi%elem_of_seq _]. apply (ci_data s l C). lia.
Qed.
Next Obligation. intros t N v s Hb. split; apply Hb. Qed.
Next Obligation. apply bio_clean. Qed.
Next Obligation.
  intros t N v s i n Hb Hin. split; [by eapply bio_view_held|]. by apply (bs_held t N v s Hb i n).
Qed.
Next Obligation.
  intros t t' N v s Hb Eh. split; try apply Hb. rewrite Eh. intros i n []%not_elem_of_nil.
Qed.
Next Obligation. apply bio_bread. Qed.
Next Obligation. apply bio_bwrite. Qed.
Next Obligation. apply bio_brelse. Qed.
Next Obligation.
  intros t N v s i n l Hb Hin Hl. destruct (bs_held t N v s Hb i n Hin) as ((Hi & _ & Hd & Hn) & Hv & _).
  destruct (bs_inv t N v s Hb) as [l' C].
  eapply (bio_upd t N v); try done; cbn.
  - destruct (flags_cases _ (ci_flags s l' C i Hi)) as [(E & _)|[(_ & _ & E)|(_ & _ & E)]]; [congruence|..];
      rewrite E; rewrite !elem_of_cons; auto.
  - apply Hb.
  - unfold dirty, has_flag. cbn. fold (has_flag B_DIRTY (bufs s i)). fold (dirty (bufs s i)). split.
    + intros (j & Hlt & D1 & D2 & D3)%(bs_pinned t N v s Hb).
      replace i with j; [done|]. apply (bio_unique t N v s j i Hb); congruence.
    + intros Dd. apply (bs_dirty t N v s Hb i Hi) in Dd as [_ Dd]. congruence.
Qed.
Next Obligation.
  intros t N v s i n Hb Hin. destruct (bs_held t N v s Hb i n Hin) as ((Hi & _ & Hd & Hn) & Hv & _).
  destruct (bs_inv t N v s Hb) as [l' C].
  assert (flags (bufs s i) = B_VALID \/ flags (bufs s i) = Z.lor B_VALID B_DIRTY) as Hfl.
  { destruct (flags_cases _ (ci_flags s l' C i Hi)) as [(E & _)|[(_ & _ & E)|(_ & _ & E)]]; [congruence|auto..]. }
  eapply (bio_upd t N v); try done; cbn.
  - destruct Hfl as [->| ->]; rewrite !elem_of_cons; auto.
  - by apply (ci_data s l' C).
  - intros m. destruct (decide (m = n)) as [->|Nm]; [|by rewrite fn_lookup_insert_ne].
    rewrite fn_lookup_insert. symmetry. by eapply bio_view_held.
  - destruct (decide (n ∈ pinned v)); [apply Hb|]. apply NoDup_cons. split; [done|apply Hb].
  - intros m Nm. destruct (decide (n ∈ pinned v)); [done|]. rewrite elem_of_cons. intuition congruence.
  - split; intros _.
    + unfold dirty, has_flag. cbn. by destruct Hfl as [->| ->].
    + destruct (decide (n ∈ pinned v)); [done|]. left.
Qed.

End bio_store.

(** After [binit], with nothing read yet, the cache shows the disk. *)
Lemma booted_shows {D} {Drv : DiskDriver D} {Dsk : Disk D} t (d : D) :
  shows t (nblocks d) (Bview (block d) (block d) [] [] []) (booted (Recorded d [])).
Proof.
  pose proof (booted_bufs (Recorded d [])) as Hz. pose proof (booted_disk (Recorded d [])) as Hd.
  split; cbn [seen ondisk writes pinned holds]; rewrite ?Hd.
  - exists (reverse (seq 0 NBUF)). apply booted_inv.
  - apply booted_coherent.
  - reflexivity.
  - intros n. rewrite view_uncached; [by rewrite Hd|]. intros i _ H1. destruct (Hz i). congruence.
  - reflexivity.
  - reflexivity.
  - intros i n []%not_elem_of_nil.
  - intros i _ _. apply Hz.
  - intros i _. unfold dirty, has_flag. by destruct (Hz i) as (_ & _ & -> & _).
  - intros n []%not_elem_of_nil.
  - constructor.
  - constructor.
  - constructor.
Qed.
