(* ===== verification/Log.v ===== *)
(** log.c: the write-ahead log, over any buffer cache that keeps the contract of
    [BlockStore].

    This file is the code; what it does, and what recovery finds after a crash,
    is in Crash.v. *)

From stdpp Require Import functions base numbers list strings.
From S2P Require Import Xv6 Prelude Kstring Bytes Blocks.

(** fs.h [struct superblock], and fs.c [readsb]. *)
Record superblock := Superblock {
  sb_size : Z; sb_nblocks : Z; sb_ninodes : Z; sb_nlog : Z;
  sb_logstart : Z; sb_inodestart : Z; sb_bmapstart : Z }.

Definition superblock_of (d : list Z) : superblock :=
  Superblock (get32 d 0) (get32 d 4) (get32 d 8) (get32 d 12) (get32 d 16) (get32 d 20) (get32 d 24).

Record logheader := Logheader { lh_n : Z; lh_block : list Z }.
Record log := Log {
  log_start : Z; log_size : Z; outstanding : Z; committing : bool; log_dev : Z; lh : logheader }.

Definition sizeof_logheader : Z := 4 + 4 * LOGSIZE.

(** The log and the buffer cache below it. *)
Record lst (S : Type) := Lst { lg : log; cache : S }.
Arguments Lst {S}.
Arguments lg {S}.
Arguments cache {S}.

Definition set_lh (h : logheader) (l : log) : log :=
  Log (log_start l) (log_size l) (outstanding l) (committing l) (log_dev l) h.
Definition set_outstanding (n : Z) (l : log) : log :=
  Log (log_start l) (log_size l) n (committing l) (log_dev l) (lh l).
Definition set_committing (b : bool) (l : log) : log :=
  Log (log_start l) (log_size l) (outstanding l) b (log_dev l) (lh l).

Section log.
Context {S : Type} `{BufferCache S}.
Implicit Types (s : lst S).

Definition on_cache {A} (m : M S A) : M (lst S) A := zoom cache (fun c s => Lst (lg s) c) m.
Definition bread (dev n : Z) : M (lst S) nat := on_cache (c_bread dev n).
Definition bwrite (i : nat) : M (lst S) unit := on_cache (c_bwrite i).
Definition brelse (i : nat) : M (lst S) unit := on_cache (c_brelse i).
Definition bdata (i : nat) : M (lst S) (list Z) := gets (fun s => c_data i (cache s)).
Definition bstore (i : nat) (l : list Z) : M (lst S) unit := modify (fun s => Lst (lg s) (c_store i l (cache s))).
Definition set_log (f : log -> log) : M (lst S) unit := modify (fun s => Lst (f (lg s)) (cache s)).

Definition readsb (dev : Z) : M (lst S) superblock :=
  bp <- bread dev 1;;
  d <- bdata bp;;
  brelse bp;;
  ret (superblock_of d).

(** [log.lh.block[i]]. *)
Definition log_block (i : nat) : M (lst S) Z :=
  l <- gets lg;;
  match lh_block (lh l) !! i with
  | Some b => ret b
  | None => undef "log.lh.block"
  end.

(** The loop of [install_trans], [k] iterations from [tail]. *)
Fixpoint install_loop (k tail : nat) : M (lst S) unit :=
  match k with
  | O => ret tt
  | Datatypes.S k =>
      l <- gets lg;;
      lbuf <- bread (log_dev l) (u32 (log_start l + Z.of_nat tail + 1));;
      b <- log_block tail;;
      dbuf <- bread (log_dev l) (u32 b);;
      d <- bdata lbuf;;
      bstore dbuf d;;
      bwrite dbuf;;
      brelse lbuf;;
      brelse dbuf;;
      install_loop k (Datatypes.S tail)
  end.
Definition install_trans : M (lst S) unit :=
  l <- gets lg;;
  install_loop (Z.to_nat (lh_n (lh l))) 0.

(** [lh->n] and [lh->block[i]] in the header block. *)
Definition head_n (d : list Z) : Z := s32 (get32 d 0).
Definition head_block (d : list Z) (i : nat) : Z := s32 (get32 d (4 + 4 * i)).

Definition read_head : M (lst S) unit :=
  l <- gets lg;;
  buf <- bread (log_dev l) (u32 (log_start l));;
  d <- bdata buf;;
  if LOGSIZE <? head_n d then undef "log.lh.block"
  else
    let n := Z.to_nat (head_n d) in
    set_log (set_lh (Logheader (head_n d) ((head_block d <$> seq 0 n) ++ drop n (lh_block (lh l)))));;
    brelse buf.

(** The stores of [write_head] to the header block. *)
Definition put_head (h : logheader) (d : list Z) : list Z :=
  put_words 4 (take (Z.to_nat (lh_n h)) (lh_block h)) (put32 0 (lh_n h) d).

Definition write_head : M (lst S) unit :=
  l <- gets lg;;
  buf <- bread (log_dev l) (u32 (log_start l));;
  d <- bdata buf;;
  if LOGSIZE <? lh_n (lh l) then undef "log.lh.block"
  else
    bstore buf (put_head (lh l) d);;
    bwrite buf;;
    brelse buf.

Definition clear_n : M (lst S) unit := set_log (fun l => set_lh (Logheader 0 (lh_block (lh l))) l).

Definition recover_from_log : M (lst S) unit :=
  read_head;;
  install_trans;;
  clear_n;;
  write_head.

Definition initlog (dev : Z) : M (lst S) unit :=
  if BSIZE <=? sizeof_logheader then panic "initlog: too big logheader"
  else
    sb <- readsb dev;;
    set_log (fun l => Log (s32 (sb_logstart sb)) (s32 (sb_nlog sb)) (outstanding l) (committing l) dev (lh l));;
    recover_from_log.

(** One turn of the loop of [begin_op]; a process that sleeps runs it again
    when it is woken. *)
Definition begin_loop : M (lst S) unit :=
  l <- gets lg;;
  if committing l then sleep Clog Llog
  else if LOGSIZE <? lh_n (lh l) + (outstanding l + 1) * MAXOPBLOCKS then sleep Clog Llog
  else
    set_log (set_outstanding (outstanding l + 1));;
    release Llog.
Definition begin_op : M (lst S) unit := acquire Llog;; begin_loop.

Fixpoint write_loop (k tail : nat) : M (lst S) unit :=
  match k with
  | O => ret tt
  | Datatypes.S k =>
      l <- gets lg;;
      to <- bread (log_dev l) (u32 (log_start l + Z.of_nat tail + 1));;
      b <- log_block tail;;
      from <- bread (log_dev l) (u32 b);;
      d <- bdata from;;
      bstore to d;;
      bwrite to;;
      brelse from;;
      brelse to;;
      write_loop k (Datatypes.S tail)
  end.
Definition write_log : M (lst S) unit :=
  l <- gets lg;;
  write_loop (Z.to_nat (lh_n (lh l))) 0.

Definition commit : M (lst S) unit :=
  l <- gets lg;;
  if 0 <? lh_n (lh l) then
    write_log;;
    write_head;;
    install_trans;;
    clear_n;;
    write_head
  else ret tt.

Definition end_op : M (lst S) unit :=
  acquire Llog;;
  set_log (fun l => set_outstanding (outstanding l - 1) l);;
  l <- gets lg;;
  if committing l then panic "log.committing"
  else if outstanding l =? 0 then
    set_log (set_committing true);;
    release Llog;;
    commit;;
    acquire Llog;;
    set_log (set_committing false);;
    wakeup Clog;;
    release Llog
  else
    wakeup Clog;;
    release Llog.

(** The first index below [n] at which block [b] is logged, or [n]. *)
Fixpoint absorb (b : Z) (bs : list Z) (n : nat) : nat :=
  match n, bs with
  | Datatypes.S n, x :: bs => if u32 x =? b then O else Datatypes.S (absorb b bs n)
  | _, _ => O
  end.

Definition log_write (i : nat) : M (lst S) unit :=
  l <- gets lg;;
  if (LOGSIZE <=? lh_n (lh l)) || (log_size l - 1 <=? lh_n (lh l)) then panic "too big a transaction"
  else if outstanding l <? 1 then panic "log_write outside of trans"
  else
    acquire Llog;;
    b <- gets (fun s => c_blockno i (cache s));;
    let j := absorb b (lh_block (lh l)) (Z.to_nat (lh_n (lh l))) in
    set_log (set_lh (Logheader
      (if Z.of_nat j =? lh_n (lh l) then lh_n (lh l) + 1 else lh_n (lh l))
      (<[j := s32 b]> (lh_block (lh l)))));;
    modify (fun s => Lst (lg s) (c_pin i (cache s)));;
    release Llog.

End log.
