(* ===== verification/Crash.v ===== *)
(** Crash safety of log.c.  The operations of Log.v are run against the contract
    of the buffer cache: which blocks they write, in which order, and what a
    reader sees afterwards.  From the order follows what recovery finds after a
    crash at any point. *)

From stdpp Require Import functions base numbers list strings.
From S2P Require Import Xv6 Prelude Kstring Bytes Blocks Log.

(** ** Sequences of block writes *)

Definition apply_writes (ws : list (Z * list Z)) (d : Z -> list Z) : Z -> list Z :=
  foldl (fun d p => <[p.1 := p.2]> d) d ws.

#[global] Arguments apply_writes : simpl never.

Section writes.
Implicit Types (ws : list (Z * list Z)) (d : Z -> list Z).

Lemma apply_nil d : apply_writes [] d = d.
Proof. done. Qed.

Lemma apply_cons p ws d : apply_writes (p :: ws) d = apply_writes ws (<[p.1 := p.2]> d).
Proof. done. Qed.

Lemma apply_app ws ws' d : apply_writes (ws ++ ws') d = apply_writes ws' (apply_writes ws d).
Proof. apply foldl_app. Qed.

Lemma apply_ext ws d d' n : (forall m, d m = d' m) -> apply_writes ws d n = apply_writes ws d' n.
Proof.
  revert d d'. induction ws as [|[a l] ws IH]; intros d d' E; [apply E|]. rewrite !apply_cons. apply IH.
  intros m. cbn. destruct (decide (m = a)) as [->|N]; [by rewrite !fn_lookup_insert | by rewrite !fn_lookup_insert_ne].
Qed.

Lemma apply_other ws d n : n ∉ ws.*1 -> apply_writes ws d n = d n.
Proof.
  revert d. induction ws as [|[a l] ws IH]; intros d Hn; [done|]. rewrite apply_cons.
  cbn in Hn. apply not_elem_of_cons in Hn as [N1 N2]. rewrite IH by done. by rewrite fn_lookup_insert_ne.
Qed.

Lemma apply_at ws d n l : NoDup ws.*1 -> (n, l) ∈ ws -> apply_writes ws d n = l.
Proof.
  revert d. induction ws as [|[a l'] ws IH]; intros d Hnd Hin; [by apply not_elem_of_nil in Hin|].
  cbn in Hnd. apply NoDup_cons in Hnd as [N1 N2]. rewrite apply_cons. apply elem_of_cons in Hin as [[= <- <-]|Hin]; [|by apply IH].
  rewrite apply_other by done. by rewrite fn_lookup_insert.
Qed.

End writes.

(** The view after the blocks of [ws] have been changed and written. *)
Definition wrote_all (ws : list (Z * list Z)) (v : bview) : bview :=
  Bview (apply_writes ws (seen v)) (apply_writes ws (ondisk v)) (writes v ++ ws)
    (filter (fun n => n ∉ ws.*1) (pinned v)) (holds v).

Lemma wrote_all_nil v : wrote_all [] v ≡ v.
Proof.
  split_and!; try done; cbn; [apply app_nil_r|].
  apply filter_keep, Forall_forall. intros n _. apply not_elem_of_nil.
Qed.

Lemma wrote_all_app ws ws' v : wrote_all ws' (wrote_all ws v) ≡ wrote_all (ws ++ ws') v.
Proof.
  split_and!; cbn; intros; rewrite ?apply_app, ?app_assoc; try done.
  rewrite list_filter_filter. apply list_filter_iff. intros n. rewrite fmap_app, elem_of_app. tauto.
Qed.

#[export] Instance wrote_all_proper ws : Proper ((≡) ==> (≡)) (wrote_all ws).
Proof.
  intros v v' (E1 & E2 & E3 & E4 & E5). split_and!; cbn; try congruence; intros n; by apply apply_ext.
Qed.

(** ** Running the operations *)

Section runs.
Context {S : Type} {BC : BufferCache S} {BS : BlockStore S}.
Variables (N : Z) (t : thread).
Implicit Types (v : bview) (c : S) (l : Log.log) (w : list chan).

Lemma on_cache_Ret {A} (m : M S A) cx l c a cx' c' :
  m cx c = Ret a cx' c' -> on_cache m cx (Lst l c) = Ret a cx' (Lst l c').
Proof. intros E. unfold on_cache, zoom. cbn. by rewrite E. Qed.

Lemma log_bread_runs v c l w n :
  shows t N v c -> 0 <= n < N -> n ∉ (holds v).*2 -> room n v ->
  exists i c', Log.bread 1 n (Ctx t [] w) (Lst l c) = Ret i (Ctx t [] w) (Lst l c') /\
    shows t N (holding_buf i n v) c'.
Proof.
  intros Hs Hn Hh Hr. destruct (bread_law t N v c w n Hs Hn Hh Hr) as (i & c' & E & Hs').
  exists i, c'. split; [by apply on_cache_Ret|done].
Qed.

Lemma log_bwrite_runs v c l w i n :
  shows t N v c -> (i, n) ∈ holds v ->
  exists c', Log.bwrite i (Ctx t [] w) (Lst l c) = Ret tt (Ctx t [] w) (Lst l c') /\ shows t N (written n v) c'.
Proof.
  intros Hs Hh. destruct (bwrite_law t N v c w i n Hs Hh) as (c' & E & Hs').
  exists c'. split; [by apply on_cache_Ret|done].
Qed.

Lemma log_brelse_runs v c l w h1 h2 i n :
  shows t N v c -> holds v = h1 ++ (i, n) :: h2 -> n ∈ pinned v \/ seen v n = ondisk v n ->
  exists w' c', Log.brelse i (Ctx t [] w) (Lst l c) = Ret tt (Ctx t [] w') (Lst l c') /\
    shows t N (released (h1 ++ h2) v) c'.
Proof.
  intros Hs Hh Hc. destruct (brelse_law t N v c w h1 h2 i n Hs Hh Hc) as (w' & c' & E & Hs').
  exists w', c'. split; [by apply on_cache_Ret|done].
Qed.

Lemma bstore_runs v c l w i n d :
  shows t N v c -> (i, n) ∈ holds v -> length d = Z.to_nat BSIZE ->
  exists c', Log.bstore i d (Ctx t [] w) (Lst l c) = Ret tt (Ctx t [] w) (Lst l c') /\ shows t N (stored n d v) c'.
Proof. intros Hs Hh Hl. eexists. split; [reflexivity|]. by apply store_law. Qed.

Lemma bdata_runs v c l w i n :
  shows t N v c -> (i, n) ∈ holds v ->
  Log.bdata i (Ctx t [] w) (Lst l c) = Ret (seen v n) (Ctx t [] w) (Lst l c).
Proof. intros Hs Hh. unfold Log.bdata, gets. cbn. by rewrite (proj1 (shows_held t N v c i n Hs Hh)). Qed.

Lemma log_block_runs c l w j b :
  lh_block (lh l) !! j = Some b -> log_block j (Ctx t [] w) (Lst l c) = Ret b (Ctx t [] w) (Lst l c).
Proof. intros E. unfold log_block. mstep. cbn [lg]. by rewrite E. Qed.

End runs.


(** ** The layout of the log on the disk *)

Section layout.
Context {S : Type} {BC : BufferCache S} {BS : BlockStore S}.
Variables (N st sz : Z).
Hypotheses (Hst : 0 <= st) (HN : st + sz <= N) (HN31 : N < 2 ^ 31).
Implicit Types (v : bview) (c : S) (l : Log.log) (w : list chan) (B : list Z) (t : thread).

(** The blocks outside the log. *)
Definition home (n : Z) : Prop := 0 <= n < N /\ ~ (st <= n < st + sz).
Definition slot (j : nat) : Z := st + Z.of_nat j + 1.

(** A set of blocks that fits the log. *)
Definition fits B : Prop :=
  NoDup B /\ Forall home B /\ Z.of_nat (length B) < sz /\ Z.of_nat (length B) <= LOGSIZE.

(** The log in memory: its place on the disk, and the blocks of the header. *)
Definition log_is l B : Prop :=
  log_start l = st /\ log_size l = sz /\ log_dev l = 1 /\ lh_n (lh l) = Z.of_nat (length B) /\
  take (length B) (lh_block (lh l)) = B /\ length (lh_block (lh l)) = Z.to_nat LOGSIZE.

(** The writes of [write_log] and of [install_trans] for blocks [B] from slot [j]. *)
Fixpoint log_writes (j : nat) B (d : Z -> list Z) : list (Z * list Z) :=
  match B with
  | [] => []
  | b :: B => (slot j, d b) :: log_writes (Datatypes.S j) B d
  end.
Fixpoint home_writes (j : nat) B (d : Z -> list Z) : list (Z * list Z) :=
  match B with
  | [] => []
  | b :: B => (b, d (slot j)) :: home_writes (Datatypes.S j) B d
  end.

Lemma slot_range j : Z.of_nat j + 1 < sz -> st < slot j < st + sz.
Proof. unfold slot. lia. Qed.

Lemma home_not_slot b j : home b -> Z.of_nat j + 1 < sz -> b ≠ slot j.
Proof. intros [_ Hb] Hj ->. pose proof (slot_range j Hj). apply Hb. lia. Qed.

Lemma u32_block b : 0 <= b < N -> u32 b = b.
Proof. intros. apply u32_small. lia. Qed.

Lemma log_is_block l B j b : log_is l B -> B !! j = Some b -> lh_block (lh l) !! j = Some b.
Proof.
  intros (_ & _ & _ & _ & E & _) Hj. rewrite <- E in Hj.
  apply lookup_take_Some in Hj. tauto.
Qed.

Lemma log_writes_fst j B d : (log_writes j B d).*1 = slot <$> seq j (length B).
Proof. revert j. induction B as [|b B IH]; intros j; cbn; [done|]. by rewrite IH. Qed.

Lemma home_writes_fst j B d : (home_writes j B d).*1 = B.
Proof. revert j. induction B as [|b B IH]; intros j; cbn; [done|]. by rewrite IH. Qed.

Lemma log_writes_ext j B d d' : (forall b, b ∈ B -> d b = d' b) -> log_writes j B d = log_writes j B d'.
Proof.
  revert j. induction B as [|b B IH]; intros j E; cbn; [done|]. rewrite E by left.
  f_equal. apply IH. intros x Hx. apply E. by right.
Qed.

Lemma home_writes_ext j B d d' :
  (forall k, (j <= k < j + length B)%nat -> d (slot k) = d' (slot k)) -> home_writes j B d = home_writes j B d'.
Proof.
  revert j. induction B as [|b B IH]; intros j E; cbn; [done|]. rewrite E by (cbn; lia).
  f_equal. apply IH. intros k Hk. apply E. cbn. lia.
Qed.

(** One turn of [write_log]: home block [b], which is pinned, to slot [j]. *)
Lemma write_turn t v c l w B j b k :
  shows t N v c -> holds v = [] -> log_is l B -> fits B -> B !! j = Some b -> b ∈ pinned v ->
  slot j ∉ pinned v -> (length (pinned v) < NBUF)%nat ->
  exists w' c', write_loop (Datatypes.S k) j (Ctx t [] w) (Lst l c) =
      write_loop k (Datatypes.S j) (Ctx t [] w') (Lst l c') /\
    shows t N (wrote_all [(slot j, seen v b)] v) c'.
Proof.
  intros Hs Hh Hl HB Hj Hp Hnp Hroom. destruct HB as (Hnd & Hhome & Hlen & _).
  pose proof (Forall_lookup_1 _ _ _ _ Hhome Hj) as Hb. pose proof (lookup_lt_Some _ _ _ Hj) as Hjl.
  pose proof (slot_range j ltac:(lia)) as Hsl. pose proof (home_not_slot b j Hb ltac:(lia)) as Hne.
  pose proof Hl as (E1 & _ & E3 & _). cbn [write_loop]. mstep. cbn [lg]. rewrite E1, E3.
  replace (u32 (st + Z.of_nat j + 1)) with (slot j) by (unfold slot in *; rewrite u32_block; lia).
  destruct (log_bread_runs N t v c l w (slot j) Hs ltac:(lia) ltac:(rewrite Hh; apply not_elem_of_nil))
    as (ti & c1 & R1 & S1); [right; by rewrite Hh|]. run R1.
  run (log_block_runs t c1 l w j b (log_is_block l B j b Hl Hj)).
  rewrite (u32_block b) by apply Hb.
  destruct (log_bread_runs N t _ c1 l w b S1 ltac:(apply Hb)) as (fi & c2 & R2 & S2).
  { cbn. rewrite Hh. cbn. by rewrite list_elem_of_singleton. } { by left. } run R2.
  run (bdata_runs N t _ c2 l w fi b S2 ltac:(left)). cbn [holding_buf seen].
  destruct (bstore_runs N t _ c2 l w ti (slot j) (seen v b) S2) as (c3 & R3 & S3);
    [right; left | by eapply shows_length |]. run R3.
  destruct (log_bwrite_runs N t _ c3 l w ti (slot j) S3) as (c4 & R4 & S4); [right; left|]. run R4.
  destruct (log_brelse_runs N t _ c4 l w [] [(ti, slot j)] fi b S4) as (w1 & c5 & R5 & S5);
    [cbn; by rewrite Hh | left; cbn; apply list_elem_of_filter; done |]. run R5.
  destruct (log_brelse_runs N t _ c5 l w1 [] [] ti (slot j) S5) as (w2 & c6 & R6 & S6);
    [done | right; cbn; by rewrite !fn_lookup_insert |]. run R6.
  exists w2, c6. split; [done|]. eapply shows_proper; [|reflexivity|exact S6].
  split_and!; cbn; try done.
  - intros n. rewrite fn_lookup_insert. done.
  - by rewrite fn_lookup_insert.
  - apply list_filter_iff. intros n. by rewrite list_elem_of_singleton.
Qed.

(** One turn of [install_trans]: slot [j] to home block [b]. *)
Lemma install_turn t v c l w B j b k :
  shows t N v c -> holds v = [] -> log_is l B -> fits B -> B !! j = Some b ->
  slot j ∉ pinned v -> (length (pinned v) < NBUF)%nat -> b ∈ pinned v \/ (1 + length (pinned v) < NBUF)%nat ->
  exists w' c', install_loop (Datatypes.S k) j (Ctx t [] w) (Lst l c) =
      install_loop k (Datatypes.S j) (Ctx t [] w') (Lst l c') /\
    shows t N (wrote_all [(b, seen v (slot j))] v) c'.
Proof.
  intros Hs Hh Hl HB Hj Hnp Hroom Hrb. destruct HB as (Hnd & Hhome & Hlen & _).
  pose proof (Forall_lookup_1 _ _ _ _ Hhome Hj) as Hb. pose proof (lookup_lt_Some _ _ _ Hj) as Hjl.
  pose proof (slot_range j ltac:(lia)) as Hsl. pose proof (home_not_slot b j Hb ltac:(lia)) as Hne.
  assert (seen v (slot j) = ondisk v (slot j)) as Hcl.
  { eapply shows_clean; [done..|]. rewrite Hh. apply not_elem_of_nil. }
  pose proof Hl as (E1 & _ & E3 & _). cbn [install_loop]. mstep. cbn [lg]. rewrite E1, E3.
  replace (u32 (st + Z.of_nat j + 1)) with (slot j) by (unfold slot in *; rewrite u32_block; lia).
  destruct (log_bread_runs N t v c l w (slot j) Hs ltac:(lia) ltac:(rewrite Hh; apply not_elem_of_nil))
    as (li & c1 & R1 & S1); [right; by rewrite Hh|]. run R1.
  run (log_block_runs t c1 l w j b (log_is_block l B j b Hl Hj)).
  rewrite (u32_block b) by apply Hb.
  destruct (log_bread_runs N t _ c1 l w b S1 ltac:(apply Hb)) as (di & c2 & R2 & S2).
  { cbn. rewrite Hh. cbn. by rewrite list_elem_of_singleton. }
  { destruct Hrb as [Hrb|Hrb]; [by left | right; cbn; by rewrite Hh]. } run R2.
  run (bdata_runs N t _ c2 l w li (slot j) S2 ltac:(right; left)). cbn [holding_buf seen].
  destruct (bstore_runs N t _ c2 l w di b (seen v (slot j)) S2) as (c3 & R3 & S3);
    [left | by eapply shows_length |]. run R3.
  destruct (log_bwrite_runs N t _ c3 l w di b S3) as (c4 & R4 & S4); [left|]. run R4.
  destruct (log_brelse_runs N t _ c4 l w [(di, b)] [] li (slot j) S4) as (w1 & c5 & R5 & S5);
    [cbn; by rewrite Hh | right; cbn; by rewrite !fn_lookup_insert_ne |]. run R5.
  destruct (log_brelse_runs N t _ c5 l w1 [] [] di b S5) as (w2 & c6 & R6 & S6);
    [done | right; cbn; by rewrite !fn_lookup_insert |]. run R6.
  exists w2, c6. split; [done|]. eapply shows_proper; [|reflexivity|exact S6].
  split_and!; cbn; try done.
  - intros n. rewrite fn_lookup_insert. done.
  - by rewrite fn_lookup_insert.
  - apply list_filter_iff. intros n. by rewrite list_elem_of_singleton.
Qed.

Lemma elem_of_dropped {A} (x : A) n (l : list A) : x ∈ drop n l -> x ∈ l.
Proof. intros H. rewrite <- (take_drop n l). apply elem_of_app. by right. Qed.

Lemma Forall_filter_keep {A} (P Q : A -> Prop) `{forall x, Decision (P x)} (l : list A) :
  Forall Q l -> Forall Q (filter P l).
Proof. rewrite !Forall_forall. intros F x [_ Hx]%list_elem_of_filter. auto. Qed.

Lemma write_loop_runs t l B k : forall v c w j,
  shows t N v c -> holds v = [] -> log_is l B -> fits B -> (j + k = length B)%nat ->
  (forall b, b ∈ B -> b ∈ pinned v) -> Forall home (pinned v) -> (length (pinned v) < NBUF)%nat ->
  exists w' c', write_loop k j (Ctx t [] w) (Lst l c) = Ret tt (Ctx t [] w') (Lst l c') /\
    shows t N (wrote_all (log_writes j (drop j B) (seen v)) v) c'.
Proof.
  induction k as [|k IH]; intros v c w j Hs Hh Hl HB Hk Hp Hhp Hroom.
  - exists w, c. split; [done|]. rewrite drop_ge by lia. eapply shows_proper; [|reflexivity|exact Hs].
    symmetry. apply wrote_all_nil.
  - destruct (lookup_lt_is_Some_2 B j ltac:(lia)) as [b Hb].
    pose proof (Forall_lookup_1 _ _ _ _ (proj1 (proj2 HB)) Hb) as Hhb.
    pose proof HB as (_ & HF & Hlen & _).
    assert (slot j ∉ pinned v) as Hns.
    { intros Hin. rewrite Forall_forall in Hhp. by apply (home_not_slot (slot j) j (Hhp _ Hin) ltac:(lia)). }
    destruct (write_turn t v c l w B j b k Hs Hh Hl HB Hb (Hp b ltac:(by eapply list_elem_of_lookup_2)) Hns Hroom)
      as (w1 & c1 & E1 & S1). rewrite E1.
    destruct (IH _ c1 w1 (Datatypes.S j) S1 Hh Hl HB ltac:(lia)) as (w2 & c2 & E2 & S2).
    + intros b' Hb'. cbn. apply list_elem_of_filter. split; [|by apply Hp]. rewrite list_elem_of_singleton.
      apply home_not_slot; [|lia]. rewrite Forall_forall in HF. by apply HF.
    + cbn. by apply Forall_filter_keep.
    + cbn. eapply Nat.le_lt_trans; [apply length_filter|done].
    + exists w2, c2. split; [done|]. rewrite (drop_S B b j Hb). cbn [log_writes].
      eapply shows_proper; [|reflexivity|exact S2]. rewrite wrote_all_app. cbn [wrote_all seen app].
      rewrite (log_writes_ext _ _ _ (seen v)); [done|]. intros b' Hb'. apply fn_lookup_insert_ne.
      intros <-. apply (home_not_slot (slot j) j); [|lia|done]. rewrite Forall_forall in HF. apply HF.
      by eapply elem_of_dropped.
Qed.

Lemma install_loop_runs t l B k : forall v c w j,
  shows t N v c -> holds v = [] -> log_is l B -> fits B -> (j + k = length B)%nat ->
  Forall home (pinned v) -> (length (pinned v) < NBUF)%nat ->
  (forall b, b ∈ drop j B -> b ∈ pinned v \/ (1 + length (pinned v) < NBUF)%nat) ->
  exists w' c', install_loop k j (Ctx t [] w) (Lst l c) = Ret tt (Ctx t [] w') (Lst l c') /\
    shows t N (wrote_all (home_writes j (drop j B) (seen v)) v) c'.
Proof.
  induction k as [|k IH]; intros v c w j Hs Hh Hl HB Hk Hhp Hroom Hrb.
  - exists w, c. split; [done|]. rewrite drop_ge by lia. eapply shows_proper; [|reflexivity|exact Hs].
    symmetry. apply wrote_all_nil.
  - destruct (lookup_lt_is_Some_2 B j ltac:(lia)) as [b Hb]. pose proof HB as (Hnd & HF & Hlen & _).
    pose proof (Forall_lookup_1 _ _ _ _ HF Hb) as Hhb. pose proof (drop_S B b j Hb) as Ed.
    assert (b ∉ drop (Datatypes.S j) B) as Hnb.
    { assert (NoDup (drop j B)) as Hnd' by (rewrite <- (take_drop j B) in Hnd; by apply NoDup_app in Hnd as (_ & _ & ?)).
      rewrite Ed in Hnd'. by apply NoDup_cons in Hnd' as [? _]. }
    assert (slot j ∉ pinned v) as Hns.
    { intros Hin. rewrite Forall_forall in Hhp. by apply (home_not_slot (slot j) j (Hhp _ Hin) ltac:(lia)). }
    destruct (install_turn t v c l w B j b k Hs Hh Hl HB Hb Hns Hroom) as (w1 & c1 & E1 & S1);
      [apply Hrb; rewrite Ed; left|]. rewrite E1.
    assert (length (filter (fun n => n ∉ [b]) (pinned v)) <= length (pinned v))%nat as Hle by apply length_filter.
    destruct (IH _ c1 w1 (Datatypes.S j) S1 Hh Hl HB ltac:(lia)) as (w2 & c2 & E2 & S2); cbn.
    + by apply Forall_filter_keep.
    + lia.
    + intros b' Hb'. destruct (Hrb b') as [Hp|Hp]; [rewrite Ed; by right| |right; lia]. left.
      apply list_elem_of_filter. split; [|done]. rewrite list_elem_of_singleton. congruence.
    + exists w2, c2. split; [done|]. rewrite Ed. cbn [home_writes].
      eapply shows_proper; [|reflexivity|exact S2]. rewrite wrote_all_app. cbn [wrote_all seen app].
      rewrite (home_writes_ext _ _ _ (seen v)); [done|]. intros i Hi. apply fn_lookup_insert_ne.
      rewrite length_drop in Hi. apply home_not_slot; [done|lia].
Qed.

(** [write_head]. *)
Lemma length_put_head h d : length (put_head h d) = length d.
Proof. unfold put_head. by rewrite length_put_words, length_put32. Qed.

Lemma write_head_runs t v c l w B :
  shows t N v c -> holds v = [] -> log_is l B -> fits B ->
  Forall home (pinned v) -> (length (pinned v) < NBUF)%nat ->
  exists w' c', write_head (Ctx t [] w) (Lst l c) = Ret tt (Ctx t [] w') (Lst l c') /\
    shows t N (wrote_all [(st, put_head (lh l) (seen v st))] v) c'.
Proof.
  intros Hs Hh Hl HB Hhp Hroom. pose proof Hl as (E1 & E2 & E3 & E4 & _). pose proof HB as (_ & _ & Hlen & Hlen2).
  unfold write_head. mstep. cbn [lg]. rewrite E1, E3, u32_block by lia.
  destruct (log_bread_runs N t v c l w st Hs ltac:(lia) ltac:(rewrite Hh; apply not_elem_of_nil))
    as (bi & c1 & R1 & S1); [right; by rewrite Hh|]. run R1.
  run (bdata_runs N t _ c1 l w bi st S1 ltac:(left)). cbn [holding_buf seen].
  rewrite E4. destruct (Z.ltb_spec LOGSIZE (Z.of_nat (length B))); [lia|].
  destruct (bstore_runs N t _ c1 l w bi st (put_head (lh l) (seen v st)) S1) as (c2 & R2 & S2);
    [left | rewrite length_put_head; by eapply shows_length |]. run R2.
  destruct (log_bwrite_runs N t _ c2 l w bi st S2) as (c3 & R3 & S3); [left|]. run R3.
  destruct (log_brelse_runs N t _ c3 l w [] [] bi st S3) as (w1 & c4 & R4 & S4);
    [cbn; by rewrite Hh | right; cbn; by rewrite !fn_lookup_insert |]. rewrite R4.
  exists w1, c4. split; [done|]. eapply shows_proper; [|reflexivity|exact S4].
  split_and!; cbn; try done.
  - intros n. rewrite fn_lookup_insert. done.
  - by rewrite fn_lookup_insert.
  - apply list_filter_iff. intros n. by rewrite list_elem_of_singleton.
Qed.

(** *** Headers *)

(** The blocks named by a header block. *)
Definition head_blocks (d : list Z) : list Z :=
  (fun i => u32 (head_block d i)) <$> seq 0 (Z.to_nat (head_n d)).

Lemma head_n_put_head h d : length d = Z.to_nat BSIZE -> 0 <= lh_n h <= LOGSIZE -> head_n (put_head h d) = lh_n h.
Proof.
  intros Hl Hn. unfold head_n, put_head. rewrite get32_put_words_ne by lia.
  rewrite get32_put32 by (rewrite Hl; unfold BSIZE; lia). unfold LOGSIZE, MAXOPBLOCKS in Hn.
  rewrite u32_small by lia. apply s32_small. lia.
Qed.

Lemma head_blocks_empty h d : length d = Z.to_nat BSIZE -> lh_n h = 0 -> head_blocks (put_head h d) = [].
Proof. intros Hl Hn. unfold head_blocks. rewrite head_n_put_head; [by rewrite Hn | done |]. rewrite Hn. done. Qed.

Lemma head_blocks_put_head l B d : log_is l B -> fits B -> length d = Z.to_nat BSIZE ->
  head_blocks (put_head (lh l) d) = B.
Proof.
  intros (_ & _ & _ & En & Et & _) (_ & HF & _ & Hlen) Hl. unfold head_blocks.
  rewrite head_n_put_head by (done || lia). rewrite En, Nat2Z.id. apply list_eq. intros i.
  rewrite list_lookup_fmap. destruct (decide (i < length B)%nat) as [Hi|Hi].
  - rewrite lookup_seq_lt by done. cbn [fmap option_fmap option_map].
    destruct (lookup_lt_is_Some_2 B i Hi) as [b Hb]. rewrite Hb. f_equal.
    unfold head_block, put_head. rewrite En, Nat2Z.id, Et.
    rewrite (get32_put_words 4 B _ i b Hb).
    + pose proof (Forall_lookup_1 _ _ _ _ HF Hb) as [Hb0 _]. rewrite u32_s32, !u32_small; [done|lia|rewrite u32_small; lia].
    + rewrite length_put32, Hl. unfold LOGSIZE, MAXOPBLOCKS, BSIZE in *. lia.
  - rewrite lookup_seq_ge by lia. cbn. symmetry. apply lookup_ge_None. lia.
Qed.

(** *** The order of the writes of a commit *)

Definition self_writes B (d : Z -> list Z) : list (Z * list Z) := (fun b => (b, d b)) <$> B.

Lemma log_writes_lookup j B d k : log_writes j B d !! k = (fun b => (slot (j + k), d b)) <$> B !! k.
Proof.
  revert j k. induction B as [|b B IH]; intros j k; cbn; [done|].
  destruct k as [|k]; cbn; [by rewrite Nat.add_0_r|]. rewrite IH. by rewrite Nat.add_succ_r.
Qed.

Lemma home_writes_lookup j B d k : home_writes j B d !! k = (fun b => (b, d (slot (j + k)))) <$> B !! k.
Proof.
  revert j k. induction B as [|b B IH]; intros j k; cbn; [done|].
  destruct k as [|k]; cbn; [by rewrite Nat.add_0_r|]. rewrite IH. by rewrite Nat.add_succ_r.
Qed.

Lemma log_slot_inj : Inj (=) (=) slot.
Proof. intros i j. unfold slot. lia. Qed.

Lemma log_writes_nodup j B d : NoDup (log_writes j B d).*1.
Proof. rewrite log_writes_fst. apply NoDup_fmap_2; [apply log_slot_inj|apply NoDup_seq]. Qed.

(** The slots hold the logged blocks after [write_log]. *)
Lemma slot_after_log B d k b : B !! k = Some b -> apply_writes (log_writes 0 B d) d (slot k) = d b.
Proof.
  intros Hk. apply apply_at; [apply log_writes_nodup|]. apply list_elem_of_lookup. exists k.
  by rewrite log_writes_lookup, Hk.
Qed.

Lemma home_not_log_write B d n : fits B -> home n -> n ∉ (log_writes 0 B d).*1.
Proof.
  intros (_ & _ & Hlen & _) Hn. rewrite log_writes_fst. intros (k & -> & Hk%elem_of_seq)%list_elem_of_fmap.
  by apply (home_not_slot (slot k) k Hn ltac:(lia)).
Qed.

Lemma st_not_log_write B d : st ∉ (log_writes 0 B d).*1.
Proof. rewrite log_writes_fst. intros (k & E & _)%list_elem_of_fmap. unfold slot in E. lia. Qed.

Lemma st_not_home n : home n -> 0 < sz -> n ≠ st.
Proof. intros [_ Hn] Hs ->. apply Hn. lia. Qed.

(** What [install_trans] writes when the slots hold the blocks of [d]. *)
Lemma home_writes_self B d d' :
  (forall k b, B !! k = Some b -> d' (slot k) = d b) -> home_writes 0 B d' = self_writes B d.
Proof.
  intros E. apply list_eq. intros k. rewrite home_writes_lookup. unfold self_writes. rewrite list_lookup_fmap.
  destruct (B !! k) as [b|] eqn:Hk; cbn; [|done]. by rewrite (E k b Hk).
Qed.

Lemma self_writes_fst B d : (self_writes B d).*1 = B.
Proof. unfold self_writes. rewrite <- list_fmap_compose. apply list_fmap_id. Qed.

Definition cleared l : Log.log := set_lh (Logheader 0 (lh_block (lh l))) l.
#[local] Arguments cleared : simpl never.

(** All writes of [commit]. *)
Definition commit_writes l B v : list (Z * list Z) :=
  let hd := put_head (lh l) (seen v st) in
  log_writes 0 B (seen v) ++ (st, hd) :: self_writes B (seen v) ++ [(st, put_head (lh (cleared l)) hd)].

Lemma log_is_cleared l B : log_is l B -> log_is (cleared l) [].
Proof. intros (E1 & E2 & E3 & E4 & E5 & E6). unfold log_is, cleared. cbn. split_and!; done. Qed.

Lemma fits_nil : 0 < sz -> fits [].
Proof. intros. split_and!; [constructor|constructor|done|done]. Qed.

(** [commit] returns, having made exactly those writes. *)
Lemma commit_runs t v c l w B :
  shows t N v c -> holds v = [] -> log_is l B -> fits B -> B ≠ [] ->
  (forall n, n ∈ pinned v <-> n ∈ B) -> (length (pinned v) < NBUF)%nat ->
  exists w' c', commit (Ctx t [] w) (Lst l c) = Ret tt (Ctx t [] w') (Lst (cleared l) c') /\
    shows t N (wrote_all (commit_writes l B v) v) c'.
Proof.
  intros Hs Hh Hl HB Hne Hp Hroom. pose proof Hl as (E1 & E2 & E3 & E4 & _). pose proof HB as (Hnd & HF & Hlen & _).
  assert (0 < sz) as Hsz by lia.
  assert (Forall home (pinned v)) as Hhp.
  { rewrite Forall_forall in *. intros n Hn. by apply HF, Hp. }
  unfold commit. mstep. cbn [lg]. rewrite E4.
  destruct (Z.ltb_spec 0 (Z.of_nat (length B))); [|destruct B; [done|cbn in *; lia]].
  unfold write_log. mstep. mstep. cbn [lg]. rewrite E4, Nat2Z.id.
  destruct (write_loop_runs t l B (length B) v c w 0 Hs Hh Hl HB eq_refl) as (w1 & c1 & R1 & S1);
    [intros b Hb; by apply Hp | done..|]. run R1. rewrite drop_0 in S1.
  assert (filter (fun n => n ∉ (log_writes 0 B (seen v)).*1) (pinned v) = pinned v) as Ep.
  { apply filter_keep. eapply Forall_impl; [exact Hhp|]. intros n Hn. by apply home_not_log_write. }
  destruct (write_head_runs t _ c1 l w1 B S1) as (w2 & c2 & R2 & S2); cbn; rewrite ?Ep; try done. run R2.
  rewrite wrote_all_app in S2. cbn [wrote_all seen] in S2. rewrite (apply_other _ _ st (st_not_log_write _ _)) in S2.
  set (ws := log_writes 0 B (seen v) ++ _) in S2.
  assert (filter (fun n => n ∉ ws.*1) (pinned v) = pinned v) as Ep2.
  { apply filter_keep. eapply Forall_impl; [exact Hhp|]. intros n Hn. unfold ws. rewrite fmap_app, elem_of_app.
    cbn. rewrite list_elem_of_singleton. intros [?|?]; [by eapply home_not_log_write | by eapply st_not_home]. }
  unfold install_trans. mstep. mstep. cbn [lg]. rewrite E4, Nat2Z.id.
  destruct (install_loop_runs t l B (length B) _ c2 w2 0 S2) as (w3 & c3 & R3 & S3); cbn; rewrite ?Ep2; try done.
  { intros b Hb. left. by apply Hp. } run R3. rewrite wrote_all_app in S3. cbn [wrote_all seen] in S3.
  rewrite drop_0, (home_writes_self B (seen v)) in S3.
  2: { intros k b Hk. unfold ws. rewrite apply_app. change (apply_writes [?p] ?d) with (<[p.1 := p.2]> d). cbn.
       rewrite fn_lookup_insert_ne by (unfold slot; lia). by apply slot_after_log. }
  unfold clear_n, set_log. rewrite bind_modify. cbn [lg cache]. fold (cleared l).
  destruct (write_head_runs t _ c3 (cleared l) w3 [] S3) as (w4 & c4 & R4 & S4); try done.
  { by eapply log_is_cleared. } { by apply fits_nil. } { cbn. by apply Forall_filter_keep. }
  { cbn. eapply Nat.le_lt_trans; [apply length_filter|done]. } rewrite R4.
  exists w4, c4. split; [done|]. eapply shows_proper; [|reflexivity|exact S4].
  assert (apply_writes (ws ++ self_writes B (seen v)) (seen v) st = put_head (lh l) (seen v st)) as Est.
  { rewrite apply_app, apply_other; [unfold ws; rewrite apply_app|].
    - rewrite apply_cons, apply_nil. cbn. by rewrite fn_lookup_insert.
    - rewrite self_writes_fst. intros Hin. rewrite Forall_forall in HF. by apply (st_not_home st (HF _ Hin)). }
  rewrite wrote_all_app. cbn [wrote_all seen]. rewrite Est. unfold commit_writes, ws.
  by rewrite <- !app_assoc.
Qed.

(** *** Recovery *)

Definition valid_head (d : list Z) : Prop := 0 <= head_n d /\ fits (head_blocks d).

(** What recovery makes of a disk, and the writes it makes for it. *)
Definition recovered (d : Z -> list Z) : Z -> list Z :=
  apply_writes (home_writes 0 (head_blocks (d st)) d) d.
Definition recover_writes (d : Z -> list Z) : list (Z * list Z) :=
  home_writes 0 (head_blocks (d st)) d ++ [(st, put32 0 0 (d st))].

(** The disks left by a crash on [d] followed by any number of recoveries that
    crash in their turn. *)
Inductive rebooted (d : Z -> list Z) : (Z -> list Z) -> Prop :=
| rb_crash : rebooted d d
| rb_again d' k : rebooted d d' -> rebooted d (apply_writes (take k (recover_writes d')) d').

Lemma length_head_blocks d : 0 <= head_n d -> Z.of_nat (length (head_blocks d)) = head_n d.
Proof. intros H. unfold head_blocks. rewrite length_fmap, length_seq. lia. Qed.

Lemma head_n_cleared d : length d = Z.to_nat BSIZE -> head_n (put32 0 0 d) = 0.
Proof. intros Hl. unfold head_n. rewrite get32_put32; [done|]. rewrite Hl. unfold BSIZE. lia. Qed.

Lemma head_blocks_zero d : head_n d = 0 -> head_blocks d = [].
Proof. unfold head_blocks. by intros ->. Qed.

Lemma recovered_zero d : head_n (d st) = 0 -> recovered d = d.
Proof. intros E. unfold recovered. by rewrite head_blocks_zero. Qed.

Lemma valid_head_zero d : 0 < sz -> head_n d = 0 -> valid_head d.
Proof. intros Hsz E. split; [lia|]. rewrite head_blocks_zero by done. by apply fits_nil. Qed.

(** Installing again after an interrupted installation. *)
Lemma apply_again ws k d n : NoDup ws.*1 -> apply_writes ws (apply_writes (take k ws) d) n = apply_writes ws d n.
Proof.
  intros Hnd. destruct (decide (n ∈ ws.*1)) as [Hn|Hn].
  - apply list_elem_of_fmap in Hn as ([n' x] & -> & Hn). cbn. by rewrite !(apply_at ws _ n' x).
  - rewrite !(apply_other ws) by done. apply apply_other. intros (p & -> & Hp)%list_elem_of_fmap.
    apply Hn. apply list_elem_of_fmap. exists p. split; [done|].
    rewrite <- (take_drop k ws). apply elem_of_app. by left.
Qed.

Lemma take_fst k (ws : list (Z * list Z)) n : n ∈ (take k ws).*1 -> n ∈ ws.*1.
Proof.
  intros (p & -> & Hp)%list_elem_of_fmap. apply list_elem_of_fmap. exists p. split; [done|].
  rewrite <- (take_drop k ws). apply elem_of_app. by left.
Qed.

(** Blocks of the log keep their contents while home blocks are written. *)
Lemma log_area_kept B ws d n : fits B -> (forall m, m ∈ ws.*1 -> m ∈ B) -> st <= n < st + sz ->
  apply_writes ws d n = d n.
Proof.
  intros (_ & HF & _) Hw Hn. apply apply_other. intros Hin%Hw. rewrite Forall_forall in HF.
  destruct (HF n Hin) as [_ Hh]. lia.
Qed.

(** An interrupted recovery does not change what recovery makes of the disk. *)
Lemma recovery_again d k :
  length (d st) = Z.to_nat BSIZE -> valid_head (d st) ->
  let d' := apply_writes (take k (recover_writes d)) d in
  length (d' st) = Z.to_nat BSIZE /\ valid_head (d' st) /\ (forall n, home n -> recovered d' n = recovered d n).
Proof.
  intros Hl [H0 HB]. set (B := head_blocks (d st)) in *. set (T := home_writes 0 B d).
  pose proof HB as (Hnd & HF & Hlen & _). assert (0 < sz) as Hsz by lia.
  assert (forall j m, m ∈ (take j T).*1 -> m ∈ B) as HT.
  { intros j m Hm%take_fst. unfold T in Hm. by rewrite home_writes_fst in Hm. }
  unfold recover_writes. fold B. fold T. cbn zeta. destruct (decide (k <= length T)%nat) as [Hk|Hk].
  - rewrite take_app_le by done. set (d' := apply_writes (take k T) d).
    assert (forall n, st <= n < st + sz -> d' n = d n) as Harea 
      by (intros n Hn; apply (log_area_kept B); [done|apply HT|done]).
    rewrite (Harea st) by lia. split; [done|]. split; [done|]. intros n Hn. unfold recovered.
    rewrite (Harea st) by lia. fold B. fold T.
    replace (home_writes 0 B d') with T.
    + apply apply_again. unfold T. by rewrite home_writes_fst.
    + apply home_writes_ext. intros j Hj. symmetry. apply Harea. pose proof (slot_range j). lia.
  - rewrite take_ge by (rewrite length_app; cbn; lia). rewrite apply_app, apply_cons, apply_nil. cbn [fst snd].
    set (d' := <[st := _]> _). assert (d' st = put32 0 0 (d st)) as Est by (unfold d'; by rewrite fn_lookup_insert).
    rewrite Est. pose proof (head_n_cleared (d st) Hl) as Hz. split; [by rewrite length_put32|].
    split; [by apply valid_head_zero|]. intros n Hn. rewrite recovered_zero by (by rewrite Est).
    unfold d'. rewrite fn_lookup_insert_ne; [done|]. intros <-. by apply (st_not_home st Hn).
Qed.

Lemma rebooted_recovered d d' :
  length (d st) = Z.to_nat BSIZE -> valid_head (d st) -> rebooted d d' ->
  length (d' st) = Z.to_nat BSIZE /\ valid_head (d' st) /\ (forall n, home n -> recovered d' n = recovered d n).
Proof.
  intros Hl Hv Hr. induction Hr as [|d' k Hr IH]; [done|]. destruct IH as (IH1 & IH2 & IH3).
  destruct (recovery_again d' k IH1 IH2) as (? & ? & E). split; [done|]. split; [done|].
  intros n Hn. by rewrite E, IH3.
Qed.

(** The state of a commit: [B] is logged and the disk still has an empty log. *)
Record committable l B v : Prop := {
  cm_log : log_is l B;
  cm_fits : fits B;
  cm_length n : length (seen v n) = Z.to_nat BSIZE;
  cm_st : seen v st = ondisk v st;
  cm_empty : head_n (ondisk v st) = 0;
  cm_clean n : home n -> n ∉ B -> seen v n = ondisk v n }.

Section prefixes.
Variables (l : Log.log) (B : list Z) (v : bview).
Hypothesis (C : committable l B v).

Let hd := put_head (lh l) (seen v st).
Let T1 := log_writes 0 B (seen v).
Let T2 := self_writes B (seen v).
(** The disk when the header has been written. *)
Let d1 := apply_writes (T1 ++ [(st, hd)]) (ondisk v).

Lemma cm_sz : 0 < sz.
Proof. destruct (cm_fits _ _ _ C) as (_ & _ & ? & _). lia. Qed.

Lemma T1_length : length T1 = length B.
Proof. unfold T1. by rewrite <- (length_fmap fst), log_writes_fst, length_fmap, length_seq. Qed.

Lemma T2_length : length T2 = length B.
Proof. apply length_fmap. Qed.

Lemma T1_area j m : m ∈ (take j T1).*1 -> st < m < st + sz.
Proof.
  intros Hm%take_fst. unfold T1 in Hm. rewrite log_writes_fst in Hm. destruct (cm_fits _ _ _ C) as (_ & _ & ? & _).
  apply list_elem_of_fmap in Hm as (i & -> & Hi%elem_of_seq). apply slot_range. lia.
Qed.

Lemma T2_home j m : m ∈ (take j T2).*1 -> m ∈ B.
Proof. intros Hm%take_fst. unfold T2 in Hm. by rewrite self_writes_fst in Hm. Qed.

Lemma d1_st : d1 st = hd.
Proof. unfold d1. rewrite apply_app, apply_cons, apply_nil. cbn. by rewrite fn_lookup_insert. Qed.

Lemma d1_home n : home n -> d1 n = ondisk v n.
Proof.
  intros [Hn0 Hn]. apply apply_other. rewrite fmap_app, elem_of_app. cbn. rewrite list_elem_of_singleton.
  pose proof cm_sz. intros [Hin|Hin]; [|lia]. rewrite <- (firstn_all T1) in Hin. apply T1_area in Hin. lia.
Qed.

Lemma d1_slot i b : B !! i = Some b -> d1 (slot i) = seen v b.
Proof.
  intros Hi. unfold d1. rewrite apply_app, apply_cons, apply_nil. cbn.
  rewrite fn_lookup_insert_ne by (unfold slot; lia). apply apply_at; [apply log_writes_nodup|].
  apply list_elem_of_lookup. exists i. unfold T1. by rewrite log_writes_lookup, Hi.
Qed.

Lemma hd_facts : length hd = Z.to_nat BSIZE /\ head_blocks hd = B /\ head_n hd = Z.of_nat (length B).
Proof.
  pose proof (cm_length _ _ _ C st) as Hlen. pose proof (cm_fits _ _ _ C) as HB. pose proof (cm_log _ _ _ C) as Hl.
  split; [unfold hd; by rewrite length_put_head|]. split; [by apply head_blocks_put_head|].
  destruct Hl as (_ & _ & _ & E4 & _). destruct HB as (_ & _ & _ & ?).
  unfold hd. rewrite head_n_put_head, E4; [done|done|lia].
Qed.

Lemma T2_installs n : home n -> apply_writes T2 d1 n = seen v n.
Proof.
  pose proof (cm_fits _ _ _ C) as (Hnd & _). intros Hn. destruct (decide (n ∈ B)) as [Hin|Hin].
  - apply apply_at; [unfold T2; by rewrite self_writes_fst|]. apply list_elem_of_fmap. by exists n.
  - rewrite apply_other by (unfold T2; by rewrite self_writes_fst). rewrite d1_home by done.
    symmetry. by apply (cm_clean _ _ _ C).
Qed.

(** A disk on which recovery finds the contents [f]. *)
Definition recovers_to (d f : Z -> list Z) : Prop :=
  length (d st) = Z.to_nat BSIZE /\ valid_head (d st) /\ (forall n, home n -> recovered d n = f n).

(** Before the header is written nothing has happened. *)
Lemma prefix_old k : recovers_to (apply_writes (take k T1) (ondisk v)) (ondisk v).
Proof.
  pose proof (cm_empty _ _ _ C) as Hz. pose proof cm_sz. set (d' := apply_writes _ _).
  assert (d' st = ondisk v st) as Est by (apply apply_other; intros Hin%T1_area; lia).
  unfold recovers_to. rewrite Est. split; [rewrite <- (cm_st _ _ _ C); apply (cm_length _ _ _ C)|].
  split; [by apply valid_head_zero|]. intros n [_ Hn].
  rewrite recovered_zero by (by rewrite Est). apply apply_other. intros Hin%T1_area. lia.
Qed.

(** From then on recovery installs everything ... *)
Lemma prefix_new k : recovers_to (apply_writes (take k T2) d1) (seen v).
Proof.
  pose proof (cm_fits _ _ _ C) as HB. pose proof HB as (Hnd & HF & Hsz & _). destruct hd_facts as (L & Hb & Hn0).
  set (d' := apply_writes (take _ T2) d1).
  assert (forall n, st <= n < st + sz -> d' n = d1 n) as Harea
    by (intros n Hn; apply (log_area_kept B); [done|apply T2_home|done]).
  unfold recovers_to. rewrite (Harea st), d1_st by lia. split; [done|].
  split; [split; [lia|by rewrite Hb]|]. intros n Hn. unfold recovered. rewrite (Harea st), d1_st, Hb by lia.
  rewrite (home_writes_self B (seen v)).
  - fold T2. unfold d'. rewrite apply_again by (unfold T2; by rewrite self_writes_fst). by apply T2_installs.
  - intros i b Hi. rewrite Harea; [by apply d1_slot|]. apply lookup_lt_Some in Hi. pose proof (slot_range i). lia.
Qed.

(** ... and when the header is cleared it has been installed. *)
Lemma prefix_done :
  recovers_to (<[st := put_head (lh (cleared l)) hd]> (apply_writes T2 d1)) (seen v).
Proof.
  destruct hd_facts as (L & _). set (d' := <[st := _]> _).
  assert (d' st = put_head (lh (cleared l)) hd) as Est by (unfold d'; by rewrite fn_lookup_insert).
  assert (head_n (put_head (lh (cleared l)) hd) = 0) as Hz by (rewrite head_n_put_head; done).
  pose proof cm_sz. unfold recovers_to. rewrite Est. split; [by rewrite length_put_head|].
  split; [by apply valid_head_zero|]. intros n Hn. rewrite recovered_zero by (by rewrite Est).
  unfold d'. rewrite fn_lookup_insert_ne; [by apply T2_installs|]. intros <-. by apply (st_not_home st Hn).
Qed.

Lemma commit_prefix k :
  recovers_to (apply_writes (take k (commit_writes l B v)) (ondisk v))
    (if decide (k <= length B)%nat then ondisk v else seen v).
Proof.
  unfold commit_writes. fold hd T1 T2. pose proof T1_length as L1. pose proof T2_length as L2.
  destruct (decide (k <= length B)%nat) as [Hk|Hk].
  { rewrite take_app_le by lia. apply prefix_old. }
  destruct (decide (k <= length T1 + 1 + length T2)%nat) as [Hk2|Hk2].
  - replace (take k _) with ((T1 ++ [(st, hd)]) ++ take (k - length T1 - 1) T2).
    { rewrite apply_app. apply prefix_new. }
    rewrite take_app_ge by lia. rewrite <- app_assoc. f_equal.
    destruct (k - length T1)%nat as [|j] eqn:Ej; [lia|]. cbn. rewrite Nat.sub_0_r, take_app_le by lia. done.
  - rewrite take_ge by (rewrite length_app; cbn; rewrite length_app; cbn; lia).
    replace (T1 ++ _) with ((T1 ++ [(st, hd)]) ++ T2 ++ [(st, put_head (lh (cleared l)) hd)]) by (by rewrite <- app_assoc).
    rewrite apply_app. fold d1. rewrite apply_app, apply_cons, apply_nil. apply prefix_done.
Qed.

End prefixes.

Lemma room_empty n v : holds v = [] -> pinned v = [] -> room n v.
Proof. intros H1 H2. right. rewrite H1, H2. cbn. unfold NBUF. lia. Qed.

(** A log whose place is known; its header is not. *)
Definition placed l : Prop :=
  log_start l = st /\ log_size l = sz /\ log_dev l = 1 /\ length (lh_block (lh l)) = Z.to_nat LOGSIZE.

Lemma read_head_runs t v c l w :
  shows t N v c -> holds v = [] -> pinned v = [] -> placed l -> valid_head (seen v st) ->
  exists w' c' l', read_head (Ctx t [] w) (Lst l c) = Ret tt (Ctx t [] w') (Lst l' c') /\
    shows t N v c' /\ log_is l' (head_blocks (seen v st)) /\
    outstanding l' = outstanding l /\ committing l' = committing l.
Proof.
  intros Hs Hh Hp (E1 & E2 & E3 & E4) [H0 HB]. pose proof HB as (Hnd & HF & Hsz & Hls).
  pose proof (length_head_blocks _ H0) as Hlen. unfold read_head. mstep. cbn [lg]. rewrite E1, E3, u32_block by lia.
  destruct (log_bread_runs N t v c l w st Hs ltac:(lia) ltac:(rewrite Hh; apply not_elem_of_nil))
    as (bi & c1 & R1 & S1); [by apply room_empty|]. run R1.
  run (bdata_runs N t _ c1 l w bi st S1 ltac:(left)). cbn [holding_buf seen].
  destruct (Z.ltb_spec LOGSIZE (head_n (seen v st))); [lia|].
  unfold set_log. rewrite bind_modify. cbn [lg cache]. set (l' := set_lh _ l).
  assert (seen v st = ondisk v st) as Hcl.
  { eapply shows_clean; [done|rewrite Hp; apply not_elem_of_nil|rewrite Hh; apply not_elem_of_nil]. }
  destruct (log_brelse_runs N t _ c1 l' w [] [] bi st S1) as (w1 & c2 & R2 & S2);
    [cbn; by rewrite Hh | by right |]. rewrite R2.
  exists w1, c2, l'. split; [done|]. split.
  { eapply shows_proper; [|reflexivity|exact S2]. by split_and!. }
  split; [|done]. unfold log_is, l'. cbn. do 4 (split; [done|]). split.
  - rewrite take_app_le by (rewrite length_fmap, length_seq; lia).
    unfold head_blocks at 1. rewrite length_fmap, length_seq, take_ge by (by rewrite length_fmap, length_seq).
    unfold head_blocks. apply list_fmap_ext. intros i x Hx. apply lookup_seq in Hx as [-> Hi].
    assert (head_blocks (seen v st) !! i = Some (u32 (head_block (seen v st) i))) as Hi'.
    { unfold head_blocks. rewrite list_lookup_fmap, lookup_seq_lt by done. done. }
    pose proof (Forall_lookup_1 _ _ _ _ HF Hi') as [Hr _]. cbn. unfold head_block in *. rewrite u32_s32 in *. word_lia.
  - rewrite length_app, length_fmap, length_seq, length_drop, E4. unfold LOGSIZE, MAXOPBLOCKS in *. lia.
Qed.

(** Recovery returns, makes the writes of [recover_writes], and leaves an empty
    log. *)
Lemma recover_runs t v c l w :
  shows t N v c -> holds v = [] -> pinned v = [] -> placed l -> valid_head (ondisk v st) ->
  exists w' c' l', recover_from_log (Ctx t [] w) (Lst l c) = Ret tt (Ctx t [] w') (Lst l' c') /\
    shows t N (wrote_all (recover_writes (ondisk v)) v) c' /\ log_is l' [] /\
    outstanding l' = outstanding l /\ committing l' = committing l.
Proof.
  intros Hs Hh Hp Hl Hv.
  assert (forall n, seen v n = ondisk v n) as Hcl.
  { intros n. eapply shows_clean; [done|rewrite Hp; apply not_elem_of_nil|rewrite Hh; apply not_elem_of_nil]. }
  rewrite <- Hcl in Hv. pose proof Hv as [H0 HB]. pose proof HB as (Hnd & HF & Hsz & _).
  unfold recover_from_log. set (B := head_blocks (seen v st)) in *.
  destruct (read_head_runs t v c l w Hs Hh Hp Hl Hv) as (w1 & c1 & l1 & R1 & S1 & Hl1 & Ho & Hc). run R1. fold B in Hl1.
  pose proof Hl1 as (_ & _ & _ & E4 & _).
  unfold install_trans. mstep. mstep. cbn [lg]. rewrite E4, Nat2Z.id.
  destruct (install_loop_runs t l1 B (length B) v c1 w1 0 S1) as (w2 & c2 & R2 & S2); rewrite ?Hp; cbn; try done.
  { unfold NBUF. lia. } { intros b _. right. unfold NBUF. lia. } run R2. rewrite drop_0 in S2.
  unfold clear_n, set_log. rewrite bind_modify. cbn [lg cache]. fold (cleared l1).
  destruct (write_head_runs t _ c2 (cleared l1) w2 [] S2) as (w3 & c3 & R3 & S3);
    [done | by eapply log_is_cleared | apply fits_nil; lia | cbn; by rewrite Hp | cbn; rewrite Hp; cbn; unfold NBUF; lia |].
  rewrite R3.
  exists w3, c3, (cleared l1). split; [done|]. split; [|split; [by eapply log_is_cleared|done]].
  eapply shows_proper; [|reflexivity|exact S3]. rewrite wrote_all_app. cbn [wrote_all seen].
  unfold recover_writes. rewrite <- (Hcl st). fold B.
  rewrite (home_writes_ext 0 B (ondisk v) (seen v)) by (intros; by rewrite Hcl).
  rewrite apply_other; [done|]. rewrite home_writes_fst. intros Hin.
  rewrite Forall_forall in HF. by apply (st_not_home st (HF _ Hin) ltac:(lia)).
Qed.

(** ** Transactions

    The processes of the system run operations bracketed by [begin_op] and
    [end_op], and update blocks in between; the events of an execution are
    interleaved in any way. *)

Inductive event :=
| Begin (t : thread)
| Update (t : thread) (n : Z) (d : list Z)
| End (t : thread).

(** [bp = bread(dev, n); ...; log_write(bp); brelse(bp)]. *)
Definition update (n : Z) (d : list Z) : M (lst S) unit :=
  bp <- Log.bread 1 n;;
  bstore bp d;;
  log_write bp;;
  Log.brelse bp.

Definition perform_event (e : event) (s : lst S) : option (lst S) :=
  match match e with
        | Begin t => begin_op (Ctx t [] []) s
        | Update t n d => update n d (Ctx t [] []) s
        | End t => end_op (Ctx t [] []) s
        end with
  | Ret _ _ s' => Some s'
  | _ => None
  end.

(** What holds between events. *)
Record log_inv v B (s : lst S) : Prop := {
  li_shows t : shows t N v (cache s);
  li_holds : holds v = [];
  li_commit : committable (lg s) B v;
  li_pinned n : n ∈ pinned v <-> n ∈ B;
  li_idle : committing (lg s) = false;
  li_outstanding : 0 <= outstanding (lg s);
  li_quiet : outstanding (lg s) = 0 -> B = [] }.

(** The log of this file system: 30 blocks, as many as the cache has buffers. *)
Hypothesis (Hsz : sz <= LOGSIZE).

Lemma inv_pinned_length v B s : log_inv v B s -> length (pinned v) = length B.
Proof.
  intros I. apply Permutation_length, NoDup_Permutation.
  - apply (shows_nodup (Thread 0 false) N v (cache s) (li_shows _ _ _ I _)).
  - apply (cm_fits _ _ _ (li_commit _ _ _ I)).
  - apply (li_pinned _ _ _ I).
Qed.

Lemma inv_room v B s : log_inv v B s -> (length (pinned v) < NBUF)%nat.
Proof.
  intros I. rewrite (inv_pinned_length v B s I). destruct (cm_fits _ _ _ (li_commit _ _ _ I)) as (_ & _ & ? & _).
  unfold NBUF. unfold LOGSIZE, MAXOPBLOCKS in *. lia.
Qed.

(** [log_is] looks only at the place of the log and its header. *)
Lemma log_is_same l l' B : log_start l' = log_start l -> log_size l' = log_size l -> log_dev l' = log_dev l ->
  lh l' = lh l -> log_is l B -> log_is l' B.
Proof. unfold log_is. by intros -> -> -> ->. Qed.

Lemma committable_same l l' B v : log_start l' = log_start l -> log_size l' = log_size l -> log_dev l' = log_dev l ->
  lh l' = lh l -> committable l B v -> committable l' B v.
Proof. intros E1 E2 E3 E4 [C1 C2 C3 C4 C5 C6]. split; try done. by eapply log_is_same. Qed.

Lemma begin_step v B s s' t : log_inv v B s -> perform_event (Begin t) s = Some s' ->
  log_inv v B s' /\ outstanding (lg s') = outstanding (lg s) + 1 /\
  Z.of_nat (length B) + outstanding (lg s') * MAXOPBLOCKS <= LOGSIZE.
Proof.
  intros I. destruct s as [l c]. unfold perform_event, begin_op, begin_loop. do 2 mstep. cbn [lg].
  destruct (committing l) eqn:Ec; [by rewrite sleep_only|].
  destruct (Z.ltb_spec LOGSIZE (lh_n (lh l) + (outstanding l + 1) * MAXOPBLOCKS)); [by rewrite sleep_only|].
  unfold set_log. mstep. rewrite release_head.
  destruct (cm_log _ _ _ (li_commit _ _ _ I)) as (_ & _ & _ & E4 & _). cbn in E4.
  intros [= <-]. split; [|cbn; split; [done|lia]]. destruct I as [I1 I2 I3 I4 I5 I6 I7]. cbn in *.
  split; cbn; try done; [eapply committable_same; [..|exact I3]; done | lia | lia].
Qed.

(** The search of [log_write]. *)
Lemma absorb_found b bs k : forall B, take k bs = B -> length B = k -> Forall (fun x => u32 x = x) B ->
  if decide (b ∈ B) then B !! absorb b bs k = Some b /\ (absorb b bs k < k)%nat else absorb b bs k = k.
Proof.
  revert bs. induction k as [|k IH]; intros bs B HB Hl HF.
  { rewrite take_0 in HB. subst B. rewrite decide_False by apply not_elem_of_nil. by destruct bs. }
  destruct bs as [|x bs]; [subst B; done|]. cbn in HB. subst B. cbn in Hl. injection Hl as Hl.
  apply Forall_cons in HF as [Hx HF]. specialize (IH bs _ eq_refl Hl HF). cbn [absorb]. rewrite Hx.
  destruct (Z.eqb_spec x b) as [->|Nx].
  - rewrite decide_True by left. split; [done|lia].
  - destruct (decide (b ∈ take k bs)) as [Hin|Hin].
    + rewrite decide_True by (by right). cbn. destruct IH. split; [done|lia].
    + rewrite decide_False by (rewrite elem_of_cons; intuition congruence). lia.
Qed.

Definition logging (n : Z) B : list Z := if decide (n ∈ B) then B else B ++ [n].

Lemma fits_logging n B : fits B -> home n -> Z.of_nat (length B) < sz - 1 -> fits (logging n B).
Proof.
  intros (H1 & H2 & H3 & H4) Hn Hlen. unfold logging. destruct (decide (n ∈ B)) as [|Hin]; [done|].
  unfold fits. rewrite length_app. cbn. split_and!; [|apply Forall_app; auto|lia|lia].
  apply NoDup_app. split; [done|]. split; [|apply NoDup_singleton]. intros x Hx ->%list_elem_of_singleton. done.
Qed.

(** [log_write] on a buffer of home block [n]: the block is in the header once. *)
Lemma log_write_runs t v c l w B i n :
  shows t N v c -> (i, n) ∈ holds v -> log_is l B -> fits B -> home n ->
  Z.of_nat (length B) < sz - 1 -> 1 <= outstanding l ->
  exists l', log_write i (Ctx t [] w) (Lst l c) = Ret tt (Ctx t [] w) (Lst l' (c_pin i c)) /\
    log_is l' (logging n B) /\ outstanding l' = outstanding l /\ committing l' = committing l.
Proof.
  intros Hs Hi (E1 & E2 & E3 & E4 & E5 & E6) HB Hn Hlen Ho. pose proof HB as (Hnd & HF & _ & _).
  unfold log_write. mstep. cbn [lg]. rewrite E4, E2, Nat2Z.id.
  destruct (Z.leb_spec LOGSIZE (Z.of_nat (length B))); [lia|]. destruct (Z.leb_spec (sz - 1) (Z.of_nat (length B))); [lia|].
  cbn [orb]. destruct (Z.ltb_spec (outstanding l) 1); [lia|]. do 2 mstep. cbn [cache].
  rewrite (proj2 (shows_held t N v c i n Hs Hi)).
  assert (s32 n = n) as Es by (apply s32_small; destruct Hn; lia).
  assert (Forall (fun x => u32 x = x) B) as Hu.
  { eapply Forall_impl; [exact HF|]. intros x [Hx _]. by apply u32_block. }
  pose proof (absorb_found n (lh_block (lh l)) (length B) B E5 eq_refl Hu) as Ha. rewrite Es.
  set (j := absorb n _ _) in *. unfold set_log. do 2 mstep. cbn [lg cache]. rewrite release_head.
  eexists. split; [reflexivity|]. split; [|done]. unfold log_is, logging. cbn. do 3 (split; [done|]).
  destruct (decide (n ∈ B)) as [Hin|Hin].
  - destruct Ha as [Hj Hjl]. rewrite (proj2 (Z.eqb_neq _ _)) by lia. split; [done|].
    assert (lh_block (lh l) !! j = Some n) as Hjb by (rewrite <- E5 in Hj; apply lookup_take_Some in Hj; tauto).
    rewrite list_insert_id by done. done.
  - rewrite Ha, Z.eqb_refl, length_app. cbn. split; [lia|]. rewrite length_insert. split; [|done].
    rewrite Nat.add_1_r. erewrite take_S_r; [|apply list_lookup_insert_eq; lia].
    by rewrite take_insert_ge, E5.
Qed.

(** An update, with room in the log and inside an operation. *)
Lemma update_runs t v B s n d :
  log_inv v B s -> home n -> length d = Z.to_nat BSIZE ->
  Z.of_nat (length B) < sz - 1 -> 1 <= outstanding (lg s) ->
  exists w' s' v', update n d (Ctx t [] []) s = Ret tt (Ctx t [] w') s' /\ log_inv v' (logging n B) s' /\
    (forall m, seen v' m = <[n := d]> (seen v) m) /\ ondisk v' = ondisk v /\ writes v' = writes v /\
    outstanding (lg s') = outstanding (lg s).
Proof.
  intros I Hn Hd Hlen Ho. pose proof (inv_room v B s I) as Hroom. pose proof (inv_pinned_length v B s I) as Hpl.
  destruct s as [l c]. destruct I as [I1 I2 I3 I4 I5 I6 I7]. cbn in *. destruct I3 as [C1 C2 C3 C4 C5 C6].
  unfold update.
  destruct (log_bread_runs N t v c l [] n (I1 t) ltac:(apply Hn) ltac:(rewrite I2; apply not_elem_of_nil))
    as (i & c1 & R1 & S1); [right; by rewrite I2|]. run R1.
  destruct (bstore_runs N t _ c1 l [] i n d S1) as (c2 & R2 & S2); [left|done|]. run R2.
  destruct (log_write_runs t _ c2 l [] B i n S2) as (l3 & R3 & Hl3 & Ho3 & Hc3); try done; [left|]. run R3.
  assert (shows t N (pinning n (stored n d (holding_buf i n v))) (c_pin i c2)) as S3
    by (apply pin_law; [done|left]).
  destruct (log_brelse_runs N t _ _ l3 [] [] [] i n S3) as (w4 & c4 & R4 & S4); [cbn; by rewrite I2 | left; cbn |].
  { destruct (decide _); [done|left]. } rewrite R4.
  set (v' := released _ _) in S4. exists w4, (Lst l3 c4), v'. split; [done|].
  split; [|split_and!; done]. split; cbn [lg cache]; rewrite ?Ho3, ?Hc3; try done.
  - intros t'. by eapply shows_thread.
  - assert (n ≠ st) as Nst by (apply st_not_home; [done|lia]). split; cbn; try done.
    + by apply fits_logging.
    + intros m. destruct (decide (m = n)) as [->|Nm]; [by rewrite fn_lookup_insert | by rewrite fn_lookup_insert_ne].
    + by rewrite fn_lookup_insert_ne.
    + intros m Hm Hnm. unfold logging in Hnm. destruct (decide (n ∈ B)) as [Hin|Hin].
      * rewrite fn_lookup_insert_ne by congruence. by apply C6.
      * rewrite elem_of_app, list_elem_of_singleton in Hnm. rewrite fn_lookup_insert_ne by intuition congruence.
        apply C6; intuition.
  - intros m. cbn. unfold logging.
    destruct (decide (n ∈ B)) as [Hin|Hin], (decide (n ∈ pinned v)) as [Hp|Hp];
      rewrite ?elem_of_cons, ?elem_of_app, ?list_elem_of_singleton, <- ?I4; try tauto; exfalso; apply I4 in Hp || apply Hp, I4; done.
  - lia.
Qed.

Lemma commit_writes_fst l B v :
  (commit_writes l B v).*1 = (log_writes 0 B (seen v)).*1 ++ st :: B ++ [st].
Proof. unfold commit_writes. rewrite fmap_app, fmap_cons, fmap_app, self_writes_fst. done. Qed.

(** When all writes have been made the log is empty and the blocks are home. *)
Lemma commit_done l B v : committable l B v ->
  let d' := apply_writes (commit_writes l B v) (ondisk v) in
  head_n (d' st) = 0 /\ (forall n, home n -> d' n = seen v n).
Proof.
  intros C d'.
  assert (head_n (d' st) = 0) as Hz.
  { unfold d', commit_writes. rewrite app_comm_cons, app_assoc, apply_app, apply_cons, apply_nil. cbn [fst snd].
    rewrite fn_lookup_insert. rewrite head_n_put_head; [done| |done].
    rewrite length_put_head. apply (cm_length _ _ _ C). }
  split; [done|]. intros n Hn.
  destruct (commit_prefix l B v C (length (commit_writes l B v))) as (_ & _ & E).
  rewrite take_ge in E by done. fold d' in E. specialize (E n Hn). rewrite recovered_zero in E by done.
  rewrite E, decide_False; [done|]. unfold commit_writes. rewrite length_app. cbn. rewrite length_app.
  rewrite <- (length_fmap fst (log_writes _ _ _)), log_writes_fst, length_fmap, length_seq. cbn. lia.
Qed.

(** What [end_op] does, on each branch. *)
Lemma end_runs t v B s :
  log_inv v B s -> 1 <= outstanding (lg s) ->
  exists w' s' v' B', end_op (Ctx t [] []) s = Ret tt (Ctx t [] w') s' /\ log_inv v' B' s' /\
    outstanding (lg s') = outstanding (lg s) - 1 /\ (forall n, home n -> seen v' n = seen v n) /\
    (B' = [] \/ B' = B) /\
    if decide (outstanding (lg s) = 1 /\ B ≠ [])
    then writes v' = writes v ++ commit_writes (lg s) B v /\
         (forall n, ondisk v' n = apply_writes (commit_writes (lg s) B v) (ondisk v) n)
    else writes v' = writes v /\ ondisk v' = ondisk v.
Proof.
  intros I Ho. pose proof (inv_room v B s I) as Hroom. destruct s as [l c]. pose proof I as [I1 I2 I3 I4 I5 I6 I7].
  cbn in *. unfold end_op. mstep. unfold set_log. mstep. cbn [lg cache]. mstep. cbn [lg].
  change (committing (set_outstanding _ l)) with (committing l). rewrite I5.
  change (outstanding (set_outstanding ?n l)) with n.
  destruct (Z.eqb_spec (outstanding l - 1) 0) as [H0|H0].
  2: { mstep. rewrite release_head. eexists _, _, v, B. split; [reflexivity|].
       rewrite decide_False by (intros [? _]; lia). split; [|split_and!; auto].
       split; cbn; try done; try lia. eapply committable_same; [..|exact I3]; done. }
  mstep. cbn [lg cache]. mstep. set (l1 := set_committing true _).
  assert (forall l2 c2 w, (committing l2 = true) ->
    bind (acquire Llog) (fun _ => modify (fun s => Lst (set_committing false (lg s)) (cache s));; wakeup Clog;; release Llog)
      (Ctx t [] w) (Lst l2 c2) = Ret tt (Ctx t [] (w ++ [Clog])) (Lst (set_committing false l2) c2)) as Htail.
  { intros l2 c2 w _. do 3 mstep. by rewrite release_head. }
  destruct (decide (B = [])) as [->|Hne].
  - pose proof (cm_log _ _ _ I3) as (_ & _ & _ & E4 & _).
    assert (commit (Ctx t [] []) (Lst l1 c) = Ret tt (Ctx t [] []) (Lst l1 c)) as Rc.
    { unfold commit. mstep. cbn. rewrite E4. done. }
    run Rc. rewrite Htail by done. eexists _, _, v, []. split; [reflexivity|].
    rewrite decide_False by (intros [_ ?]; done). split; [|split_and!; auto; cbn; lia].
    split; cbn; try done; try lia. eapply committable_same; [..|exact I3]; done.
  - assert (committable l1 B v) as C1 by (eapply committable_same; [..|exact I3]; done).
    destruct (commit_runs t v c l1 [] B (I1 t) I2 (cm_log _ _ _ C1) (cm_fits _ _ _ C1) Hne I4 Hroom)
      as (w2 & c2 & R2 & S2). run R2. rewrite Htail by done.
    eexists _, _, (wrote_all (commit_writes l1 B v) v), []. split; [reflexivity|].
    rewrite decide_True by (split; [lia|done]).
    assert (commit_writes l1 B v = commit_writes l B v) as Ecw by done. rewrite <- Ecw.
    destruct (commit_done l1 B v C1) as [Hz Hdone].
    assert (pinned (wrote_all (commit_writes l1 B v) v) = []) as Epin.
    { cbn. apply filter_drop. intros n Hn. apply I4 in Hn. rewrite commit_writes_fst, elem_of_app, elem_of_cons, elem_of_app. tauto. }
    assert (forall n, seen (wrote_all (commit_writes l1 B v) v) n = ondisk (wrote_all (commit_writes l1 B v) v) n) as Hcl.
    { intros n. eapply shows_clean; [exact S2|rewrite Epin; apply not_elem_of_nil|]. cbn. rewrite I2. apply not_elem_of_nil. }
    split; [|split; [done|split; [intros n Hn; rewrite Hcl; by apply Hdone|split; [by left|done]]]].
    split; cbn [lg cache]; try done.
    + intros t'. eapply shows_thread; [exact S2|done].
    + split; try done.
      * eapply log_is_same; [..|by eapply log_is_cleared, (cm_log _ _ _ C1)]; done.
      * apply fits_nil. by apply (cm_sz l1 B v).
      * intros n. by eapply shows_length.
    + by rewrite Epin.
    + change (0 <= outstanding l - 1). lia.
Qed.

(** [log_write] refuses a block when the log is full, and outside of an
    operation. *)
Lemma update_panics t v B s n d :
  log_inv v B s -> home n -> length d = Z.to_nat BSIZE ->
  sz - 1 <= Z.of_nat (length B) \/ outstanding (lg s) < 1 ->
  update n d (Ctx t [] []) s =
    Panic (if decide (sz - 1 <= Z.of_nat (length B)) then "too big a transaction" else "log_write outside of trans").
Proof.
  intros I Hn Hd Hf. pose proof (inv_room v B s I) as Hroom. destruct s as [l c].
  destruct I as [I1 I2 I3 I4 I5 I6 I7]. cbn in *. destruct (cm_log _ _ _ I3) as (_ & E2 & _ & E4 & _).
  unfold update.
  destruct (log_bread_runs N t v c l [] n (I1 t) ltac:(apply Hn) ltac:(rewrite I2; apply not_elem_of_nil))
    as (i & c1 & R1 & S1); [right; by rewrite I2|]. run R1.
  destruct (bstore_runs N t _ c1 l [] i n d S1) as (c2 & R2 & S2); [left|done|]. run R2.
  unfold log_write. mstep. mstep. cbn [lg]. rewrite E4, E2.
  destruct (Z.leb_spec LOGSIZE (Z.of_nat (length B))); cbn [orb]; [rewrite decide_True; [done|lia]|].
  destruct (Z.leb_spec (sz - 1) (Z.of_nat (length B))); cbn [orb]; [by rewrite decide_True|].
  destruct (Z.ltb_spec (outstanding l) 1); [|lia]. rewrite decide_False; [done|lia].
Qed.

(** ** Executions *)

Definition valid_event (e : event) : Prop :=
  match e with Update _ n d => home n /\ length d = Z.to_nat BSIZE | _ => True end.

(** Each [end_op] is preceded by its [begin_op]. *)
Fixpoint bracketed (depth : Z) (evs : list event) : Prop :=
  match evs with
  | [] => True
  | Begin _ :: evs => bracketed (depth + 1) evs
  | Update _ _ _ :: evs => bracketed depth evs
  | End _ :: evs => 0 < depth /\ bracketed (depth - 1) evs
  end.

Fixpoint run_events (evs : list event) (s : lst S) : option (lst S) :=
  match evs with
  | [] => Some s
  | e :: evs => match perform_event e s with Some s' => run_events evs s' | None => None end
  end.

Definition delta (e : event) : Z := match e with Begin _ => 1 | Update _ _ _ => 0 | End _ => -1 end.

(** One event: the writes it makes, and what recovery finds after some of them:
    the home blocks on the disk before the event, or those seen after it, in
    which case no operation is running. *)
Lemma event_step v B s e s' :
  log_inv v B s -> valid_event e -> (forall t, e = End t -> 0 < outstanding (lg s)) -> perform_event e s = Some s' ->
  exists v' B' ws, log_inv v' B' s' /\ outstanding (lg s') = outstanding (lg s) + delta e /\
    writes v' = writes v ++ ws /\ (forall n, ondisk v' n = apply_writes ws (ondisk v) n) /\
    forall k, recovers_to (apply_writes (take k ws) (ondisk v)) (ondisk v) \/
      (outstanding (lg s') = 0 /\ recovers_to (apply_writes (take k ws) (ondisk v)) (seen v')).
Proof.
  intros I Hv Hend Hp.
  assert (recovers_to (ondisk v) (ondisk v)) as Hself.
  { pose proof (prefix_old _ _ _ (li_commit _ _ _ I) 0) as Hr. by rewrite take_0 in Hr. }
  destruct e as [t|t n d|t].
  - destruct (begin_step v B s s' t I Hp) as (I' & Ho & _). exists v, B, []. rewrite app_nil_r.
    do 4 (split; [done|]). intros k. left. by rewrite take_nil.
  - destruct Hv as [Hn Hd]. unfold perform_event in Hp.
    destruct (decide (Z.of_nat (length B) < sz - 1 /\ 1 <= outstanding (lg s))) as [[H1 H2]|Hno].
    + destruct (update_runs t v B s n d I Hn Hd H1 H2) as (w' & s1 & v' & R & I' & Hs & Ed & Ew & Ho).
      rewrite R in Hp. injection Hp as <-. exists v', (logging n B), []. rewrite app_nil_r.
      split; [done|]. split; [cbn; lia|]. split; [done|]. rewrite Ed. split; [done|].
      intros k. left. by rewrite take_nil.
    + rewrite (update_panics t v B s n d I Hn Hd) in Hp; [done|].
      destruct (decide (Z.of_nat (length B) < sz - 1)); [right|left; lia].
      destruct (decide (1 <= outstanding (lg s))); [tauto|lia].
  - specialize (Hend t eq_refl). unfold perform_event in Hp.
    destruct (end_runs t v B s I ltac:(lia)) as (w' & s1 & v' & B' & R & I' & Ho & Hs & _ & Hw).
    rewrite R in Hp. injection Hp as <-. destruct (decide (outstanding (lg s) = 1 /\ B ≠ [])) as [[H1 Hne]|Hno].
    + destruct Hw as [Ew Ed]. exists v', B', (commit_writes (lg s) B v). split; [done|]. split; [done|].
      split; [done|]. split; [done|]. intros k.
      pose proof (commit_prefix (lg s) B v (li_commit _ _ _ I) k) as (P1 & P2 & P3).
      destruct (decide (k <= length B)%nat) as [Hk|Hk]; [left; done|right]. split; [lia|]. split; [done|]. split; [done|].
      intros n Hn. rewrite P3, Hs by done. done.
    + destruct Hw as [Ew Ed]. exists v', B', []. rewrite app_nil_r, Ed.
      do 4 (split; [done|]). intros k. left. by rewrite take_nil.
Qed.

Lemma run_events_snoc evs e s : run_events (evs ++ [e]) s = run_events evs s ≫= perform_event e.
Proof.
  revert s. induction evs as [|e' evs IH]; intros s; cbn.
  - by destruct (perform_event e s).
  - destruct (perform_event e' s); [apply IH|done].
Qed.

Definition depth_after (d : Z) (evs : list event) : Z := foldl (fun d e => d + delta e) d evs.

Lemma bracketed_snoc evs e d : bracketed d (evs ++ [e]) ->
  bracketed d evs /\ (forall t, e = End t -> 0 < depth_after d evs).
Proof.
  revert d. induction evs as [|e' evs IH]; intros d; cbn.
  - destruct e; cbn; intros H; split; try done. intros t' _. tauto.
  - unfold depth_after in *. destruct e' as [t|t n l|t]; cbn; [apply IH| |].
    + rewrite Z.add_0_r. apply IH.
    + intros [Hd Hb]. destruct (IH _ Hb). split; [split; done|]. done.
Qed.

(** The home blocks seen at a moment when no operation was running. *)
Definition quiescent (evs : list event) (s : lst S) (f : Z -> list Z) : Prop :=
  exists evs1 evs2 s1 v1, evs = evs1 ++ evs2 /\ run_events evs1 s = Some s1 /\ outstanding (lg s1) = 0 /\
    (exists B1, log_inv v1 B1 s1) /\ (forall n, home n -> f n = seen v1 n).

Lemma quiescent_app evs evs' s f : quiescent evs s f -> quiescent (evs ++ evs') s f.
Proof.
  intros (e1 & e2 & s1 & v1 & -> & Hr). exists e1, (e2 ++ evs'), s1, v1. by rewrite app_assoc.
Qed.

Lemma quiescent_ext evs s f f' : (forall n, home n -> f n = f' n) -> quiescent evs s f -> quiescent evs s f'.
Proof.
  intros E (e1 & e2 & s1 & v1 & H1 & H2 & H3 & H4 & H5). exists e1, e2, s1, v1. do 4 (split; [done|]).
  intros n Hn. by rewrite <- E, H5.
Qed.

(** With no operation running, the home blocks are on the disk. *)
Lemma quiet_durable v B s n : log_inv v B s -> outstanding (lg s) = 0 -> home n -> seen v n = ondisk v n.
Proof.
  intros I Ho Hn. apply (cm_clean _ _ _ (li_commit _ _ _ I)); [done|].
  rewrite (li_quiet _ _ _ I Ho). apply not_elem_of_nil.
Qed.

Lemma recovers_to_ext d d' f : (forall n, d n = d' n) -> recovers_to d f -> recovers_to d' f.
Proof.
  intros E (H1 & H2 & H3). unfold recovers_to, recovered. rewrite <- !(E st). do 2 (split; [done|]).
  intros n Hn. rewrite <- (H3 n Hn). unfold recovered.
  rewrite (home_writes_ext 0 _ d' d) by (intros; by rewrite E). by apply apply_ext.
Qed.

Lemma run_recovers v s evs : forall s',
  log_inv v [] s -> outstanding (lg s) = 0 -> Forall valid_event evs -> bracketed 0 evs ->
  run_events evs s = Some s' ->
  exists v' B' ws, log_inv v' B' s' /\ outstanding (lg s') = depth_after 0 evs /\
    writes v' = writes v ++ ws /\ (forall n, ondisk v' n = apply_writes ws (ondisk v) n) /\
    forall k, exists f, recovers_to (apply_writes (take k ws) (ondisk v)) f /\ quiescent evs s f.
Proof.
  induction evs as [|e evs IH] using rev_ind; intros s' I H0 HF Hb Hr.
  - injection Hr as <-. exists v, [], []. rewrite app_nil_r. do 4 (split; [done|]). intros k. rewrite take_nil, apply_nil.
    exists (ondisk v). split; [pose proof (prefix_old _ _ _ (li_commit _ _ _ I) 0) as P; by rewrite take_0 in P|].
    exists [], [], s, v. do 3 (split; [done|]). split; [by exists []|]. intros n Hn. symmetry. by eapply quiet_durable.
  - rewrite run_events_snoc in Hr. destruct (run_events evs s) as [s1|] eqn:E1; [|done]. cbn in Hr.
    apply bracketed_snoc in Hb as [Hb Hend]. apply Forall_app in HF as [HF [He _]%Forall_cons].
    destruct (IH s1 I H0 HF Hb eq_refl) as (v1 & B1 & ws & I1 & Ho1 & Ew1 & Ed1 & Hk1).
    destruct (event_step v1 B1 s1 e s' I1 He) as (v2 & B2 & we & I2 & Ho2 & Ew2 & Ed2 & Hk2); [by rewrite Ho1|done|].
    exists v2, B2, (ws ++ we). split; [done|]. split; [unfold depth_after in *; rewrite foldl_app; cbn; lia|].
    split; [by rewrite Ew2, Ew1, app_assoc|]. split.
    { intros n. rewrite Ed2, apply_app. by apply apply_ext. }
    intros k. destruct (decide (k <= length ws)%nat) as [Hk|Hk].
    + rewrite take_app_le by done. destruct (Hk1 k) as (f & P & Q). exists f. split; [done|]. by apply quiescent_app.
    + rewrite take_app_ge, apply_app by lia. destruct (Hk2 (k - length ws)%nat) as [P|[Ho P]].
      * exists (ondisk v1). split; [eapply recovers_to_ext; [|exact P]; intros n; by apply apply_ext|].
        apply quiescent_app. destruct (Hk1 (length ws)) as (f & (P1 & P2 & P3) & Q). rewrite take_ge in P3 by done.
        eapply quiescent_ext; [|exact Q]. intros n Hn. rewrite <- P3 by done.
        rewrite recovered_zero; [symmetry; apply Ed1|]. rewrite <- Ed1. apply (cm_empty _ _ _ (li_commit _ _ _ I1)).
      * exists (seen v2). split; [eapply recovers_to_ext; [|exact P]; intros n; by apply apply_ext|].
        exists (evs ++ [e]), [], s', v2. split; [by rewrite app_nil_r|]. split; [by rewrite run_events_snoc, E1|].
        split; [done|]. split; [by exists B2|done].
Qed.

(** C1: The log makes operations atomic across crashes.  Let processes run
    bracketed operations in any interleaving, from a quiet log.  Stop the machine
    after any number of the disk writes made so far, and again during any number
    of recoveries.  What is left is a well-formed log, and recovery makes every
    block outside the log what a reader saw at some earlier moment when no
    operation was running: no operation is ever recovered in part. *)
Theorem log_crash_atomic v s evs s' :
  log_inv v [] s -> outstanding (lg s) = 0 -> Forall valid_event evs -> bracketed 0 evs ->
  run_events evs s = Some s' ->
  exists v' B' ws, log_inv v' B' s' /\ writes v' = writes v ++ ws /\
    (outstanding (lg s') = 0 -> forall n, home n -> ondisk v' n = seen v' n) /\
    forall k d, rebooted (apply_writes (take k ws) (ondisk v)) d ->
      valid_head (d st) /\ exists f, quiescent evs s f /\ forall n, home n -> recovered d n = f n.
Proof.
  intros I H0 HF Hb Hr. destruct (run_recovers v s evs s' I H0 HF Hb Hr) as (v' & B' & ws & I' & _ & Ew & _ & Hk).
  exists v', B', ws. split; [done|]. split; [done|]. split; [intros Ho n Hn; symmetry; by eapply quiet_durable|].
  intros k d Hd. destruct (Hk k) as (f & (P1 & P2 & P3) & Q).
  destruct (rebooted_recovered _ d P1 P2 Hd) as (_ & Hv & E). split; [done|]. exists f. split; [done|].
  intros n Hn. by rewrite E, P3.
Qed.

(** *** Recovery at boot *)

Lemma readsb_runs t v c l w :
  shows t N v c -> holds v = [] -> pinned v = [] -> 1 < N ->
  exists w' c', readsb 1 (Ctx t [] w) (Lst l c) = Ret (superblock_of (ondisk v 1)) (Ctx t [] w') (Lst l c') /\
    shows t N v c'.
Proof.
  intros Hs Hh Hp H1. unfold readsb.
  assert (seen v 1 = ondisk v 1) as Hcl.
  { eapply shows_clean; [done|rewrite Hp; apply not_elem_of_nil|rewrite Hh; apply not_elem_of_nil]. }
  destruct (log_bread_runs N t v c l w 1 Hs ltac:(lia) ltac:(rewrite Hh; apply not_elem_of_nil))
    as (bi & c1 & R1 & S1); [by apply room_empty|]. run R1.
  run (bdata_runs N t _ c1 l w bi 1 S1 ltac:(left)). cbn [holding_buf seen].
  destruct (log_brelse_runs N t _ c1 l w [] [] bi 1 S1) as (w1 & c2 & R2 & S2); [cbn; by rewrite Hh | by right |]. run R2.
  exists w1, c2. rewrite Hcl. split; [done|]. eapply shows_proper; [|reflexivity|exact S2]. by split_and!.
Qed.

(** C15: Booting recovers the disk.  On a cache that holds nothing, over a disk
    whose superblock places the log and whose log is well formed, [initlog]
    returns; the blocks outside the log are then what [recovered] says, on the
    disk and for every reader, the log is empty and ready for operations.  Its
    writes are those of [recover_writes], in that order. *)
Theorem initlog_recovers t v c l w :
  shows t N v c -> holds v = [] -> pinned v = [] -> 1 < N -> length (lh_block (lh l)) = Z.to_nat LOGSIZE ->
  outstanding l = 0 -> committing l = false ->
  sb_logstart (superblock_of (ondisk v 1)) = st -> sb_nlog (superblock_of (ondisk v 1)) = sz ->
  valid_head (ondisk v st) ->
  exists w' s' v', initlog 1 (Ctx t [] w) (Lst l c) = Ret tt (Ctx t [] w') s' /\ log_inv v' [] s' /\
    outstanding (lg s') = 0 /\ writes v' = writes v ++ recover_writes (ondisk v) /\
    (forall n, home n -> ondisk v' n = recovered (ondisk v) n /\ seen v' n = recovered (ondisk v) n).
Proof.
  intros Hs Hh Hp H1 Hlb Ho Hc Est Esz Hv. unfold initlog.
  change (BSIZE <=? sizeof_logheader) with false. cbn iota.
  destruct (readsb_runs t v c l w Hs Hh Hp H1) as (w1 & c1 & R1 & S1). run R1. unfold set_log.
  mstep. cbn [lg cache]. rewrite Est, Esz. destruct Hv as [Hv0 Hv].
  assert (0 < sz) as Hsz0 by (destruct Hv as (_ & _ & ? & _); lia).
  rewrite !s32_small by (unfold LOGSIZE, MAXOPBLOCKS in *; lia).
  set (l1 := Log st sz _ _ _ _).
  destruct (recover_runs t v c1 l1 w1 S1 Hh Hp) as (w2 & c2 & l2 & R2 & S2 & Hl2 & Ho2 & Hc2); [done|by split|].
  rewrite R2. set (v' := wrote_all _ v) in S2. exists w2, (Lst l2 c2), v'. split; [done|].
  assert (pinned v' = []) as Hp' by (cbn; by rewrite Hp).
  assert (forall n, seen v' n = ondisk v' n) as Hcl.
  { intros n. eapply shows_clean; [done|rewrite Hp'; apply not_elem_of_nil|]. cbn. rewrite Hh. apply not_elem_of_nil. }
  assert (length (ondisk v st) = Z.to_nat BSIZE) as Hlen.
  { rewrite <- (shows_clean t N v c st Hs); [by eapply shows_length|rewrite Hp|rewrite Hh]; apply not_elem_of_nil. }
  assert (ondisk v' st = put32 0 0 (ondisk v st)) as Est'.
  { cbn. unfold recover_writes. rewrite apply_app, apply_cons, apply_nil. cbn. by rewrite fn_lookup_insert. }
  split; [split; cbn [lg cache]; try done|].
  - intros t'. by eapply shows_thread.
  - split; try done; [by apply fits_nil | intros n; by eapply shows_length |]. rewrite Est'. by apply head_n_cleared.
  - by rewrite Hp'.
  - by rewrite Hc2.
  - rewrite Ho2. cbn. lia.
  - split; [by rewrite <- Ho|]. split; [done|]. intros n Hn. rewrite Hcl. split; [|].
    all: cbn; unfold recover_writes; rewrite apply_app, apply_cons, apply_nil; cbn;
      by rewrite fn_lookup_insert_ne by (intros <-; by apply (st_not_home st Hn)).
Qed.

(** *** Reservations *)

(** The blocks each running operation may still log, by process. *)
Fixpoint spend (p : Z) (ops : list (Z * nat)) : option (list (Z * nat)) :=
  match ops with
  | [] => None
  | (q, r) :: ops =>
      if decide (p = q) then match r with O => None | Datatypes.S r => Some ((q, r) :: ops) end
      else cons (q, r) <$> spend p ops
  end.
Fixpoint finish (p : Z) (ops : list (Z * nat)) : option (list (Z * nat)) :=
  match ops with
  | [] => None
  | (q, r) :: ops => if decide (p = q) then Some ops else cons (q, r) <$> finish p ops
  end.

(** Operations that log at most [MAXOPBLOCKS] - 1 blocks. *)
Definition budget (e : event) (ops : list (Z * nat)) : option (list (Z * nat)) :=
  match e with
  | Begin t => Some ((t_pid t, Z.to_nat (MAXOPBLOCKS - 1)) :: ops)
  | Update t _ _ => spend (t_pid t) ops
  | End t => finish (t_pid t) ops
  end.

Fixpoint reserved (ops : list (Z * nat)) : Z :=
  match ops with [] => 0 | (_, r) :: ops => Z.of_nat r + 1 + reserved ops end.

Lemma reserved_spend p ops ops' : spend p ops = Some ops' ->
  reserved ops' = reserved ops - 1 /\ length ops' = length ops /\ 2 <= reserved ops.
Proof.
  revert ops'. induction ops as [|[q r] ops IH]; intros ops'; cbn; [done|].
  assert (0 <= reserved ops) as Hr by (clear; induction ops as [|[? ?] ops IH]; cbn; lia).
  destruct (decide (p = q)) as [->|Np].
  - destruct r as [|r]; [done|]. intros [= <-]. cbn. lia.
  - destruct (spend p ops) as [o|]; [|done]. cbn. intros [= <-]. destruct (IH o eq_refl) as (? & ? & ?). cbn. lia.
Qed.

Lemma reserved_finish p ops ops' : finish p ops = Some ops' ->
  reserved ops' <= reserved ops /\ length ops = Datatypes.S (length ops').
Proof.
  revert ops'. induction ops as [|[q r] ops IH]; intros ops'; cbn; [done|].
  destruct (decide (p = q)) as [->|Np].
  - intros [= <-]. lia.
  - destruct (finish p ops) as [o|]; [|done]. cbn. intros [= <-]. destruct (IH o eq_refl). cbn. lia.
Qed.

Lemma reserved_le ops : Forall (fun p => (p.2 <= Z.to_nat (MAXOPBLOCKS - 1))%nat) ops ->
  0 <= reserved ops <= Z.of_nat (length ops) * MAXOPBLOCKS.
Proof. unfold MAXOPBLOCKS. induction 1 as [|[q r] ops Hr HF IH]; cbn in *; lia. Qed.

(** The reservations of the running operations fit the log. *)
Definition reserve_inv B (ops : list (Z * nat)) (s : lst S) : Prop :=
  outstanding (lg s) = Z.of_nat (length ops) /\ Z.of_nat (length B) + reserved ops <= LOGSIZE /\
  Forall (fun p => (p.2 <= Z.to_nat (MAXOPBLOCKS - 1))%nat) ops.

Lemma length_logging n B : (length (logging n B) <= length B + 1)%nat.
Proof. unfold logging. destruct (decide (n ∈ B)); rewrite ?length_app; cbn; lia. Qed.

(** An operation within its budget: only [begin_op] can be refused. *)
Lemma budget_step v B s e ops ops' :
  sz = LOGSIZE -> log_inv v B s -> reserve_inv B ops s -> valid_event e -> budget e ops = Some ops' ->
  ((forall t, e ≠ Begin t) -> is_Some (perform_event e s)) /\
  (forall s', perform_event e s = Some s' -> exists v' B', log_inv v' B' s' /\ reserve_inv B' ops' s').
Proof.
  intros Esz I (Ho & Hr & HF) Hv Hb. destruct e as [t|t n d|t]; cbn in Hb.
  - injection Hb as <-. split; [intros H; by destruct (H t)|]. intros s' Hp.
    destruct (begin_step v B s s' t I Hp) as (I' & Ho' & Hle). exists v, B. split; [done|].
    pose proof (reserved_le ops HF). split; [cbn; lia|]. split; [|by constructor]. cbn.
    unfold MAXOPBLOCKS in *. lia.
  - destruct (reserved_spend _ _ _ Hb) as (E1 & E2 & E3). destruct Hv as [Hn Hd].
    assert (1 <= outstanding (lg s)) as H1.
    { rewrite Ho. destruct ops; [done|cbn; lia]. }
    destruct (update_runs t v B s n d I Hn Hd) as (w' & s1 & v' & R & I' & _ & _ & _ & Ho'); [lia|done|].
    unfold perform_event. rewrite R. split; [by eexists|]. intros s' [= <-]. exists v', (logging n B). split; [done|].
    pose proof (length_logging n B). split; [by rewrite Ho', Ho, E2|]. split; [lia|].
    clear -Hb HF. revert ops' Hb. induction HF as [|[q r] ops Hq HF IH]; intros ops'; cbn; [done|].
    destruct (decide _); [|destruct (spend _ ops) as [o|]; [|done]].
    + destruct r as [|r]; [done|]. intros [= <-]. constructor; [cbn in *; lia|done].
    + intros [= <-]. constructor; [done|by apply IH].
  - destruct (reserved_finish _ _ _ Hb) as (E1 & E2).
    destruct (end_runs t v B s I ltac:(lia)) as (w' & s1 & v' & B' & R & I' & Ho' & _ & HB' & _).
    unfold perform_event. rewrite R. split; [by eexists|]. intros s' [= <-]. exists v', B'. split; [done|].
    split; [lia|]. split; [destruct HB' as [->| ->]; cbn; lia|].
    clear -Hb HF. revert ops' Hb. induction HF as [|[q r] ops Hq HF IH]; intros ops'; cbn; [done|].
    destruct (decide _); [by intros [= <-]|]. destruct (finish _ ops) as [o|]; [|done].
    intros [= <-]. constructor; [done|by apply IH].
Qed.

(** The budgets left after a run. *)
Definition budgets (evs : list event) : option (list (Z * nat)) :=
  foldl (fun o e => o ≫= budget e) (Some []) evs.

Lemma budget_run evs : forall v s s' ops,
  sz = LOGSIZE -> log_inv v [] s -> outstanding (lg s) = 0 -> Forall valid_event evs ->
  run_events evs s = Some s' -> budgets evs = Some ops ->
  exists v' B', log_inv v' B' s' /\ reserve_inv B' ops s'.
Proof.
  induction evs as [|e evs IH] using rev_ind; intros v s s' ops Esz I H0 HF Hr Hb.
  - injection Hr as <-. injection Hb as <-. exists v, []. split; [done|]. split; [done|]. split; [done|constructor].
  - rewrite run_events_snoc in Hr. destruct (run_events evs s) as [s1|] eqn:E1; [|done]. cbn in Hr.
    unfold budgets in Hb. rewrite foldl_app in Hb. cbn in Hb. fold (budgets evs) in Hb.
    destruct (budgets evs) as [o|] eqn:Eo; [|done]. cbn in Hb. apply Forall_app in HF as [HF [He _]%Forall_cons].
    destruct (IH v s s1 o Esz I H0 HF E1 eq_refl) as (v1 & B1 & I1 & R1).
    by apply (budget_step v1 B1 s1 e o ops Esz I1 R1 He Hb).
Qed.


Lemma run_events_app evs evs' s : run_events (evs ++ evs') s = run_events evs s ≫= run_events evs'.
Proof.
  revert s. induction evs as [|e evs IH]; intros s; cbn; [done|]. destruct (perform_event e s); [apply IH|done].
Qed.

(** Updates of distinct blocks, while there is room. *)
Lemma updates_run d us : forall v B s,
  log_inv v B s -> 1 <= outstanding (lg s) -> length d = Z.to_nat BSIZE ->
  NoDup (B ++ us.*2) -> Forall home us.*2 -> Z.of_nat (length (B ++ us.*2)) < sz ->
  exists v' s', run_events ((fun u : thread * Z => Update u.1 u.2 d) <$> us) s = Some s' /\
    log_inv v' (B ++ us.*2) s' /\ outstanding (lg s') = outstanding (lg s).
Proof.
  induction us as [|[t n] us IH]; intros v B s I Ho Hd Hnd HF Hlen.
  - exists v, s. cbn. by rewrite app_nil_r.
  - cbn in HF. apply Forall_cons in HF as [Hn HF]. cbn. rewrite length_app in Hlen. cbn in Hlen.
    destruct (update_runs t v B s n d I Hn Hd ltac:(lia) Ho) as (w' & s1 & v1 & R & I1 & _ & _ & _ & Ho1).
    unfold perform_event. rewrite R.
    assert (logging n B = B ++ [n]) as El.
    { unfold logging. rewrite decide_False; [done|]. apply NoDup_app in Hnd as (_ & Hx & _). intros Hin. apply (Hx n Hin). left. }
    rewrite El in I1. destruct (IH v1 (B ++ [n]) s1 I1) as (v2 & s2 & R2 & I2 & Ho2); rewrite <- ?app_assoc; cbn; try done.
    + by rewrite Ho1.
    + rewrite length_app. cbn. lia.
    + exists v2, s2. split; [done|]. rewrite <- app_assoc in I2. split; [done|]. by rewrite Ho2.
Qed.

Lemma begin_runs v B s t : log_inv v B s ->
  Z.of_nat (length B) + (outstanding (lg s) + 1) * MAXOPBLOCKS <= LOGSIZE ->
  exists s', perform_event (Begin t) s = Some s' /\ log_inv v B s' /\ outstanding (lg s') = outstanding (lg s) + 1.
Proof.
  intros I Hle. assert (is_Some (perform_event (Begin t) s)) as [s' E].
  { destruct s as [l c]. unfold perform_event, begin_op, begin_loop. do 2 mstep. cbn [lg].
    pose proof (li_idle _ _ _ I) as Hi. destruct (cm_log _ _ _ (li_commit _ _ _ I)) as (_ & _ & _ & E4 & _). cbn in *.
    rewrite Hi, E4. destruct (Z.ltb_spec LOGSIZE (Z.of_nat (length B) + (outstanding l + 1) * MAXOPBLOCKS)); [lia|].
    unfold set_log. mstep. rewrite release_head. by eexists. }
  exists s'. split; [done|]. destruct (begin_step v B s s' t I E) as (? & ? & _). done.
Qed.

(** The reservation is one block short.  [begin_op] admits three operations
    of [MAXOPBLOCKS] blocks each; when together they have logged 29 of their 30
    blocks, the next [log_write] of any of them panics, even on a block that is
    already in the log.  [begin_op] counts [LOGSIZE] slots, but one of the
    [log.size] blocks is the header. *)
Theorem log_reservation_overcommits v s t1 t2 t3 us d :
  sz = LOGSIZE -> log_inv v [] s -> outstanding (lg s) = 0 ->
  NoDup us.*2 -> Forall home us.*2 -> length us = 29%nat -> length d = Z.to_nat BSIZE ->
  exists s', run_events ([Begin t1; Begin t2; Begin t3] ++ ((fun u : thread * Z => Update u.1 u.2 d) <$> us)) s = Some s' /\
    forall t n d', home n -> length d' = Z.to_nat BSIZE ->
      update n d' (Ctx t [] []) s' = Panic "too big a transaction".
Proof.
  intros Esz I H0 Hnd HF Hlen Hd. rewrite run_events_app. cbn [run_events].
  destruct (begin_runs v [] s t1 I) as (s1 & -> & I1 & O1); [rewrite H0; done|].
  destruct (begin_runs v [] s1 t2 I1) as (s2 & -> & I2 & O2); [rewrite O1, H0; done|].
  destruct (begin_runs v [] s2 t3 I2) as (s3 & -> & I3 & O3); [rewrite O2, O1, H0; done|].
  destruct (updates_run d us v [] s3 I3) as (v' & s' & R & I' & _); cbn; try done; [lia| |].
  { rewrite length_fmap, Hlen, Esz. done. }
  exists s'. split; [exact R|]. intros t n d' Hn Hd'. cbn in I'.
  rewrite (update_panics t v' _ s' n d' I' Hn Hd'); rewrite length_fmap, Hlen, Esz; [by rewrite decide_True|by left].
Qed.

End layout.

(** ** Witnesses: an empty disk of 1000 blocks, with the log at block 2 *)

Import Bio.

Definition demo_log : Log.log := Log 2 30 0 false 1 (Logheader 0 (replicate 30 0)).
Definition demo_view : bview := Bview (block zero_disk) (block zero_disk) [] [] [].
Definition demo_state : lst (bcache (recorded memdisk)) := Lst demo_log (booted (Recorded zero_disk [])).

Lemma demo_log_inv : log_inv 1000 2 30 demo_view [] demo_state.
Proof.
  split; try done.
  - intros t. exact (booted_shows t zero_disk).
  - split.
    + by split_and!.
    + by apply fits_nil.
    + intros n. apply length_block_of.
    + reflexivity.
    + reflexivity.
    + reflexivity.
Qed.

Definition p3 := Thread 3 false.
Definition p4 := Thread 4 false.
Definition ones : list Z := replicate (Z.to_nat BSIZE) 1.
Definition demo_events : list event :=
  [Begin p3; Begin p4; Update p3 100 ones; End p4; Update p3 200 ones; End p3].

Ltac demo_side := first [exact I | unfold home; lia | split; [unfold home; lia | reflexivity]].

Lemma demo_run : exists s', run_events demo_events demo_state = Some s'.
Proof.
  unfold demo_events. cbn [run_events].
  destruct (begin_runs 1000 2 30 demo_view [] demo_state p3 demo_log_inv ltac:(done)) as (s1 & -> & I1 & O1).
  destruct (begin_runs 1000 2 30 demo_view [] s1 p4 I1 ltac:(by rewrite O1)) as (s2 & -> & I2 & O2).
  destruct (update_runs 1000 2 30 ltac:(done) ltac:(done) p3 demo_view [] s2 100 ones I2 ltac:(demo_side) eq_refl
    ltac:(done) ltac:(rewrite O2, O1; done)) as (w3 & s3 & v3 & R3 & I3 & _ & _ & _ & O3).
  unfold perform_event at 1. rewrite R3.
  destruct (end_runs 1000 2 30 ltac:(done) ltac:(done) ltac:(done) ltac:(done) p4 v3 _ s3 I3
    ltac:(rewrite O3, O2, O1; done)) as (w4 & s4 & v4 & B4 & R4 & I4 & O4 & _ & HB4 & _).
  unfold perform_event at 1. rewrite R4.
  destruct (update_runs 1000 2 30 ltac:(done) ltac:(done) p3 v4 B4 s4 200 ones I4 ltac:(demo_side) eq_refl
    ltac:(destruct HB4 as [->| ->]; done) ltac:(rewrite O4, O3, O2, O1; done)) as (w5 & s5 & v5 & R5 & I5 & _ & _ & _ & O5).
  unfold perform_event at 1. rewrite R5.
  destruct (end_runs 1000 2 30 ltac:(done) ltac:(done) ltac:(done) ltac:(done) p3 v5 _ s5 I5
    ltac:(rewrite O5, O4, O3, O2, O1; done)) as (w6 & s6 & v6 & B6 & R6 & _).
  unfold perform_event at 1. rewrite R6. by exists s6.
Qed.

Lemma log_crash_atomic_witness : exists s' v' ws, run_events demo_events demo_state = Some s' /\
  writes v' = ws /\ forall k d, rebooted 2 (apply_writes (take k ws) (ondisk demo_view)) d -> valid_head 1000 2 30 (d 2).
Proof.
  destruct demo_run as [s' Hr].
  destruct (log_crash_atomic 1000 2 30 ltac:(done) ltac:(done) ltac:(done) ltac:(done)
    demo_view demo_state demo_events s') as (v' & B' & ws & _ & Ew & _ & Hk).
  - exact demo_log_inv.
  - reflexivity.
  - unfold demo_events. do 6 (apply Forall_cons_2; [demo_side|]). apply Forall_nil_2.
  - cbn. lia.
  - exact Hr.
  - exists s', v', ws. split; [exact Hr|]. split; [exact Ew|]. intros k d Hd. apply (Hk k d Hd).
Defined.

(** A disk whose superblock places a log of 30 blocks at block 2. *)
Definition sb_disk : memdisk :=
  Memdisk 1000 (fun a => if a =? 512 + 12 then 30 else if a =? 512 + 16 then 2 else 0).

Lemma initlog_recovers_witness : exists w' s',
  initlog 1 (Ctx p3 [] []) (Lst (Log 0 0 0 false 0 (Logheader 0 (replicate 30 0))) (booted (Recorded sb_disk []))) =
  Ret tt (Ctx p3 [] w') s'.
Proof.
  destruct (initlog_recovers 1000 2 30 ltac:(done) ltac:(done) ltac:(done) ltac:(done) p3
    (Bview (block sb_disk) (block sb_disk) [] [] []) (booted (Recorded sb_disk []))
    (Log 0 0 0 false 0 (Logheader 0 (replicate 30 0))) []) as (w' & s' & v' & R & _).
  - exact (booted_shows p3 sb_disk).
  - reflexivity.
  - reflexivity.
  - reflexivity.
  - reflexivity.
  - reflexivity.
  - reflexivity.
  - reflexivity.
  - reflexivity.
  - apply valid_head_zero; reflexivity.
  - exists w', s'. exact R.
Defined.


Definition demo_updates : list (thread * Z) := (fun n => (p3, n)) <$> seqZ 100 29.

Lemma log_reservation_overcommits_witness : exists s', forall t,
  run_events ([Begin p3; Begin p4; Begin p3] ++ ((fun u : thread * Z => Update u.1 u.2 ones) <$> demo_updates)) demo_state = Some s' /\
  update 100 ones (Ctx t [] []) s' = Panic "too big a transaction".
Proof.
  destruct (log_reservation_overcommits 1000 2 30 ltac:(done) ltac:(done)
    demo_view demo_state p3 p4 p3 demo_updates ones) as (s' & R & HP).
  - reflexivity.
  - exact demo_log_inv.
  - reflexivity.
  - unfold demo_updates. rewrite <- list_fmap_compose. apply NoDup_fmap_2; [intros x y; cbn; lia|apply NoDup_seqZ].
  - apply Forall_forall. intros n (u & -> & (m & -> & Hm%elem_of_seqZ)%list_elem_of_fmap)%list_elem_of_fmap.
    unfold home. cbn. lia.
  - reflexivity.
  - reflexivity.
  - exists s'. intros t. split; [exact R|]. apply HP; [demo_side|reflexivity].
Defined.
