(* ===== verification/Fs.v ===== *)
(** fs.c: block allocator, inodes, file contents, directories and path names.

    The blocks are those of a transaction ([TxBlocks]): what [bread], [log_write]
    and [brelse] of log.c offer to code between [begin_op] and [end_op].
    Pointers to inodes are indices into [icache.inode]. *)

From stdpp Require Import functions base numbers list strings.
From S2P Require Import Xv6 Prelude Bytes Sleeplock Log.

Class TxBlocks (S : Type) := {
  tx_bread : Z -> Z -> M S nat;
  tx_brelse : nat -> M S unit;
  tx_log_write : nat -> M S unit;
  tx_begin_op : M S unit;
  tx_end_op : M S unit;
  tx_data : nat -> S -> list Z;
  tx_store : nat -> list Z -> S -> S }.

(** file.h [struct inode]. *)
Record inode := Inode {
  i_dev : Z; i_inum : Z; i_ref : Z; i_flock : sleeplock; i_lock : sleeplock; i_valid : bool;
  i_type : Z; i_major : Z; i_minor : Z; i_nlink : Z; i_size : Z; i_addrs : list Z }.

Definition set_i_ref (r : Z) (p : inode) : inode :=
  Inode (i_dev p) (i_inum p) r (i_flock p) (i_lock p) (i_valid p)
    (i_type p) (i_major p) (i_minor p) (i_nlink p) (i_size p) (i_addrs p).
Definition set_i_flock (k : sleeplock) (p : inode) : inode :=
  Inode (i_dev p) (i_inum p) (i_ref p) k (i_lock p) (i_valid p)
    (i_type p) (i_major p) (i_minor p) (i_nlink p) (i_size p) (i_addrs p).
Definition set_i_lock (k : sleeplock) (p : inode) : inode :=
  Inode (i_dev p) (i_inum p) (i_ref p) (i_flock p) k (i_valid p)
    (i_type p) (i_major p) (i_minor p) (i_nlink p) (i_size p) (i_addrs p).
Definition set_i_valid (b : bool) (p : inode) : inode :=
  Inode (i_dev p) (i_inum p) (i_ref p) (i_flock p) (i_lock p) b
    (i_type p) (i_major p) (i_minor p) (i_nlink p) (i_size p) (i_addrs p).
Definition set_i_type (v : Z) (p : inode) : inode :=
  Inode (i_dev p) (i_inum p) (i_ref p) (i_flock p) (i_lock p) (i_valid p)
    v (i_major p) (i_minor p) (i_nlink p) (i_size p) (i_addrs p).
Definition set_i_nlink (v : Z) (p : inode) : inode :=
  Inode (i_dev p) (i_inum p) (i_ref p) (i_flock p) (i_lock p) (i_valid p)
    (i_type p) (i_major p) (i_minor p) v (i_size p) (i_addrs p).
Definition set_i_size (v : Z) (p : inode) : inode :=
  Inode (i_dev p) (i_inum p) (i_ref p) (i_flock p) (i_lock p) (i_valid p)
    (i_type p) (i_major p) (i_minor p) (i_nlink p) v (i_addrs p).
Definition set_i_addrs (l : list Z) (p : inode) : inode :=
  Inode (i_dev p) (i_inum p) (i_ref p) (i_flock p) (i_lock p) (i_valid p)
    (i_type p) (i_major p) (i_minor p) (i_nlink p) (i_size p) l.
(** [ip->major = major; ip->minor = minor; ip->nlink = nlink]. *)
Definition set_i_dev_nlink (mj mn nl : Z) (p : inode) : inode :=
  Inode (i_dev p) (i_inum p) (i_ref p) (i_flock p) (i_lock p) (i_valid p)
    (i_type p) mj mn nl (i_size p) (i_addrs p).
(** [ip->dev = dev; ip->inum = inum; ip->ref = 1; ip->valid = 0]. *)
Definition recycle_inode (dv inum : Z) (p : inode) : inode :=
  Inode dv inum 1 (i_flock p) (i_lock p) false
    (i_type p) (i_major p) (i_minor p) (i_nlink p) (i_size p) (i_addrs p).

(** fs.h [struct dinode]: its fields in the 64 bytes at offset [o]. *)
Record dinode := Dinode {
  di_type : Z; di_major : Z; di_minor : Z; di_nlink : Z; di_size : Z; di_addrs : list Z }.
Definition sizeof_dinode : nat := 64.
Definition dinode_at (o : nat) (d : list Z) : dinode :=
  Dinode (s16 (get16 d o)) (s16 (get16 d (o + 2))) (s16 (get16 d (o + 4))) (s16 (get16 d (o + 6)))
    (get32 d (o + 8)) ((fun i => get32 d (o + 12 + 4 * i)) <$> seq 0 (Z.to_nat (NDIRECT + 1))).

Definition put_dinode (o : nat) (x : dinode) (d : list Z) : list Z :=
  put_words (o + 12) (di_addrs x) (put32 (o + 8) (di_size x) (put16 (o + 6) (di_nlink x)
    (put16 (o + 4) (di_minor x) (put16 (o + 2) (di_major x) (put16 o (di_type x) d))))).
Definition dinode_of (p : inode) : dinode :=
  Dinode (i_type p) (i_major p) (i_minor p) (i_nlink p) (i_size p) (i_addrs p).
(** The assignments of [ilock] from the disk inode, and [ip->valid = 1]. *)
Definition load_dinode (x : dinode) (p : inode) : inode :=
  Inode (i_dev p) (i_inum p) (i_ref p) (i_flock p) (i_lock p) true
    (di_type x) (di_major x) (di_minor x) (di_nlink x) (di_size x) (di_addrs x).

(** The state of the file system: blocks, superblock and inode cache. *)
Record fs (S : Type) := Fs { blocks : S; fs_sb : superblock; inodes : list inode }.
Arguments Fs {S}.
Arguments blocks {S}.
Arguments fs_sb {S}.
Arguments inodes {S}.

(** The sleep locks of inode [i]. *)
Definition lock_id (i : nat) : Z := 1000 + 2 * Z.of_nat i.
Definition flock_id (i : nat) : Z := 1001 + 2 * Z.of_nat i.

(** file.h [devsw]: the functions of the devices, by major number. *)
Class Devices (T : Type) := {
  dev_read : Z -> option (nat -> Z -> M T (Z * list Z));
  dev_write : Z -> option (nat -> list Z -> M T Z) }.

(** ** Strings of directory entries and paths

    [name] is a buffer of [DIRSIZ] bytes, [path] a string without its NUL. *)

(** [strncmp] on buffers; string literals end in a NUL. *)
Fixpoint strncmp_bytes (p q : list Z) (n : nat) : Z :=
  match n with
  | O => 0
  | Datatypes.S k =>
      let a := byte p 0 in
      let b := byte q 0 in
      if negb (a =? 0) && (a =? b) then strncmp_bytes (drop 1 p) (drop 1 q) k else u8 a - u8 b
  end.
Definition namecmp (s t : list Z) : Z := strncmp_bytes s t DIRSIZ.

(** The [n] bytes [strncpy] stores. *)
Fixpoint strncpy_bytes (t : list Z) (n : nat) : list Z :=
  match n with
  | O => []
  | Datatypes.S k => if byte t 0 =? 0 then replicate n 0 else byte t 0 :: strncpy_bytes (drop 1 t) k
  end.

Definition slash : Z := 47.
Fixpoint skip_slashes (path : list Z) : list Z :=
  match path with
  | c :: path' => if c =? slash then skip_slashes path' else path
  | [] => []
  end.
(** The element [path] starts with, and what follows it. *)
Fixpoint take_elem (path : list Z) : list Z * list Z :=
  match path with
  | c :: path' => if c =? slash then ([], path) else let '(e, r) := take_elem path' in (c :: e, r)
  | [] => ([], [])
  end.
(** The bytes [skipelem] stores in [name]. *)
Definition store_name (e name : list Z) : list Z :=
  if (DIRSIZ <=? length e)%nat then take DIRSIZ e
  else e ++ 0 :: drop (length e + 1) name.

Definition skipelem (path name : list Z) : option (list Z * list Z) :=
  match skip_slashes path with
  | [] => None
  | path' => let '(e, r) := take_elem path' in Some (skip_slashes r, store_name e name)
  end.

(** [struct dirent]. *)
Definition sizeof_dirent : Z := 16.
Definition de_inum (d : list Z) : Z := get16 d 0.
Definition de_name (d : list Z) : list Z := slice 2 DIRSIZ d.
Definition dirent_bytes (inum : Z) (name : list Z) : list Z :=
  [u8 inum; u8 (inum / 2 ^ 8)] ++ strncpy_bytes name DIRSIZ.

Section fs.
Context {S : Type} {TB : TxBlocks S}.
Implicit Types (s : fs S).

Definition on_blocks {A} (m : M S A) : M (fs S) A := zoom blocks (fun b s => Fs b (fs_sb s) (inodes s)) m.
Definition bread (dev n : Z) : M (fs S) nat := on_blocks (tx_bread dev n).
Definition brelse (i : nat) : M (fs S) unit := on_blocks (tx_brelse i).
Definition log_write (i : nat) : M (fs S) unit := on_blocks (tx_log_write i).
Definition begin_op : M (fs S) unit := on_blocks tx_begin_op.
Definition end_op : M (fs S) unit := on_blocks tx_end_op.
Definition bdata (i : nat) : M (fs S) (list Z) := gets (fun s => tx_data i (blocks s)).
Definition bstore (i : nat) (d : list Z) : M (fs S) unit :=
  modify (fun s => Fs (tx_store i d (blocks s)) (fs_sb s) (inodes s)).

(** Access to [icache.inode[i]]. *)
Definition iload (i : nat) : M (fs S) inode :=
  s <- get;;
  match inodes s !! i with Some p => ret p | None => undef "inode pointer" end.
Definition istore (i : nat) (f : inode -> inode) : M (fs S) unit :=
  modify (fun s => Fs (blocks s) (fs_sb s) (alter f i (inodes s))).

Definition readsb (dev : Z) : M (fs S) superblock :=
  bp <- bread dev 1;;
  d <- bdata bp;;
  brelse bp;;
  ret (superblock_of d).

Definition bzero (dev bno : Z) : M (fs S) unit :=
  bp <- bread dev bno;;
  bstore bp (replicate (Z.to_nat BSIZE) 0);;
  log_write bp;;
  brelse bp.

(** [BBLOCK] and [IBLOCK]. *)
Definition BBLOCK (b : Z) (sb : superblock) : Z := u32 (b / BPB + sb_bmapstart sb).
Definition IBLOCK (i : Z) (sb : superblock) : Z := u32 (i / IPB + sb_inodestart sb).

(** Bit [bi] of a bitmap block. *)
Definition bit_mask (bi : Z) : Z := Z.shiftl 1 (bi mod 8).
Definition bit_set (d : list Z) (bi : Z) : bool := negb (Z.land (byte d (Z.to_nat (bi / 8))) (bit_mask bi) =? 0).
Definition mark_bit (bi : Z) (d : list Z) : list Z :=
  <[Z.to_nat (bi / 8) := u8 (Z.lor (byte d (Z.to_nat (bi / 8))) (bit_mask bi))]> d.
Definition clear_bit (bi : Z) (d : list Z) : list Z :=
  <[Z.to_nat (bi / 8) := u8 (Z.land (byte d (Z.to_nat (bi / 8))) (Z.lnot (bit_mask bi)))]> d.

(** The outer loop of [balloc], [k] turns from block [b]. *)
Fixpoint balloc_loop (k : nat) (dev b : Z) : M (fs S) Z :=
  sb <- gets fs_sb;;
  if sb_size sb <=? b then panic "balloc: out of blocks"
  else match k with
  | O => undef "balloc: fuel"
  | Datatypes.S k =>
      bp <- bread dev (BBLOCK b sb);;
      d <- bdata bp;;
      match List.find (fun bi => negb (bit_set d bi)) (seqZ 0 (Z.min BPB (sb_size sb - b))) with
      | Some bi =>
          bstore bp (mark_bit bi d);;
          log_write bp;;
          brelse bp;;
          bzero dev (b + bi);;
          ret (b + bi)
      | None =>
          brelse bp;;
          balloc_loop k dev (b + BPB)
      end
  end.
Definition balloc (dev : Z) : M (fs S) Z :=
  sb <- gets fs_sb;;
  balloc_loop (Z.to_nat (sb_size sb / BPB + 1)) dev 0.

Definition bfree (dev b : Z) : M (fs S) unit :=
  sb <- gets fs_sb;;
  bp <- bread dev (BBLOCK b sb);;
  d <- bdata bp;;
  let bi := b mod BPB in
  if negb (bit_set d bi) then panic "freeing free block"
  else
    bstore bp (clear_bit bi d);;
    log_write bp;;
    brelse bp.

Definition iinit (dev : Z) : M (fs S) unit :=
  modify (fun s => Fs (blocks s) (fs_sb s) (set_i_lock initsleeplock <$> inodes s));;
  sb <- readsb dev;;
  modify (fun s => Fs (blocks s) sb (inodes s)).

(** The scan of [iget]: the cached inode, or the first free entry. *)
Fixpoint iget_scan (dev inum : Z) (i : nat) (l : list inode) (empty : option nat) : option nat * option nat :=
  match l with
  | [] => (None, empty)
  | p :: l =>
      if (0 <? i_ref p) && (i_dev p =? dev) && (i_inum p =? inum) then (Some i, empty)
      else iget_scan dev inum (Datatypes.S i) l
             (match empty with None => if i_ref p =? 0 then Some i else None | Some _ => empty end)
  end.

Definition iget (dev inum : Z) : M (fs S) nat :=
  acquire Licache;;
  l <- gets inodes;;
  match iget_scan dev inum 0 l None with
  | (Some i, _) =>
      istore i (fun p => set_i_ref (s32 (i_ref p + 1)) p);;
      release Licache;;
      ret i
  | (None, None) => panic "iget: no inodes"
  | (None, Some i) =>
      istore i (recycle_inode dev inum);;
      release Licache;;
      ret i
  end.

(** [dip = (struct dinode* )bp->data + inum%IPB]. *)
Definition dinode_off (inum : Z) : nat := Z.to_nat (inum mod IPB) * sizeof_dinode.

Fixpoint ialloc_loop (k : nat) (dev type inum : Z) : M (fs S) nat :=
  sb <- gets fs_sb;;
  if sb_ninodes sb <=? inum then panic "ialloc: no inodes"
  else match k with
  | O => undef "ialloc: fuel"
  | Datatypes.S k =>
      bp <- bread dev (IBLOCK inum sb);;
      d <- bdata bp;;
      let o := dinode_off inum in
      if di_type (dinode_at o d) =? 0 then
        bstore bp (put16 o type (splice o (replicate sizeof_dinode 0) d));;
        log_write bp;;
        brelse bp;;
        iget dev inum
      else
        brelse bp;;
        ialloc_loop k dev type (inum + 1)
  end.
Definition ialloc (dev type : Z) : M (fs S) nat :=
  sb <- gets fs_sb;;
  ialloc_loop (Z.to_nat (sb_ninodes sb)) dev type 1.

Definition iupdate (i : nat) : M (fs S) unit :=
  p <- iload i;;
  sb <- gets fs_sb;;
  bp <- bread (i_dev p) (IBLOCK (i_inum p) sb);;
  d <- bdata bp;;
  bstore bp (put_dinode (dinode_off (i_inum p)) (dinode_of p) d);;
  log_write bp;;
  brelse bp.

Definition idup (i : nat) : M (fs S) nat :=
  acquire Licache;;
  istore i (fun p => set_i_ref (s32 (i_ref p + 1)) p);;
  release Licache;;
  ret i.

(** sleeplock.c on the locks of inode [i]. *)
Definition on_lock {A} (i : nat) (m : Z -> M sleeplock A) : M (fs S) A :=
  zoom (fun s => default initsleeplock (i_lock <$> inodes s !! i))
    (fun k s => Fs (blocks s) (fs_sb s) (alter (set_i_lock k) i (inodes s))) (m (lock_id i)).
Definition on_flock {A} (i : nat) (m : Z -> M sleeplock A) : M (fs S) A :=
  zoom (fun s => default initsleeplock (i_flock <$> inodes s !! i))
    (fun k s => Fs (blocks s) (fs_sb s) (alter (set_i_flock k) i (inodes s))) (m (flock_id i)).

Definition fsemaphore_lock (ip : option nat) : M (fs S) unit :=
  match ip with
  | None => panic "flock"
  | Some i =>
      p <- iload i;;
      if i_ref p <? 1 then panic "flock" else on_flock i acquiresleep
  end.

Definition fsemaphore_unlock (ip : option nat) : M (fs S) unit :=
  match ip with
  | None => panic "funlock"
  | Some i =>
      h <- on_flock i holdingsleep;;
      p <- iload i;;
      if negb h || (i_ref p <? 1) then panic "funlock" else on_flock i releasesleep
  end.

Definition ilock (ip : option nat) : M (fs S) unit :=
  match ip with
  | None => panic "ilock"
  | Some i =>
      p <- iload i;;
      if i_ref p <? 1 then panic "ilock"
      else
        on_lock i acquiresleep;;
        if negb (i_valid p) then
          sb <- gets fs_sb;;
          bp <- bread (i_dev p) (IBLOCK (i_inum p) sb);;
          d <- bdata bp;;
          let x := dinode_at (dinode_off (i_inum p)) d in
          istore i (load_dinode x);;
          brelse bp;;
          if di_type x =? 0 then panic "ilock: no type" else ret tt
        else ret tt
  end.

Definition iunlock (ip : option nat) : M (fs S) unit :=
  match ip with
  | None => panic "iunlock"
  | Some i =>
      h <- on_lock i holdingsleep;;
      p <- iload i;;
      if negb h || (i_ref p <? 1) then panic "iunlock" else on_lock i releasesleep
  end.

Definition addr_at (l : list Z) (k : Z) : Z := default 0 (l !! Z.to_nat k).

Definition bmap (i : nat) (bn : Z) : M (fs S) Z :=
  p <- iload i;;
  if bn <? NDIRECT then
    if addr_at (i_addrs p) bn =? 0 then
      addr <- balloc (i_dev p);;
      istore i (fun p => set_i_addrs (<[Z.to_nat bn := addr]> (i_addrs p)) p);;
      ret addr
    else ret (addr_at (i_addrs p) bn)
  else
    let bn := bn - NDIRECT in
    if bn <? NINDIRECT then
      ind <- (if addr_at (i_addrs p) NDIRECT =? 0 then
                addr <- balloc (i_dev p);;
                istore i (fun p => set_i_addrs (<[Z.to_nat NDIRECT := addr]> (i_addrs p)) p);;
                ret addr
              else ret (addr_at (i_addrs p) NDIRECT));;
      bp <- bread (i_dev p) ind;;
      d <- bdata bp;;
      let o := (4 * Z.to_nat bn)%nat in
      if get32 d o =? 0 then
        addr <- balloc (i_dev p);;
        d <- bdata bp;;
        bstore bp (put32 o addr d);;
        log_write bp;;
        brelse bp;;
        ret addr
      else
        brelse bp;;
        ret (get32 d o)
    else panic "bmap: out of range".

(** The loop over the direct blocks: [k] turns from entry [j]. *)
Fixpoint trunc_direct (i k j : nat) : M (fs S) unit :=
  match k with
  | O => ret tt
  | Datatypes.S k =>
      p <- iload i;;
      let a := default 0 (i_addrs p !! j) in
      (if negb (a =? 0) then
         bfree (i_dev p) a;;
         istore i (fun p => set_i_addrs (<[j := 0]> (i_addrs p)) p)
       else ret tt);;
      trunc_direct i k (Datatypes.S j)
  end.

(** The loop over the entries of the indirect block in buffer [bp]. *)
Fixpoint trunc_indirect (dev : Z) (bp k j : nat) : M (fs S) unit :=
  match k with
  | O => ret tt
  | Datatypes.S k =>
      d <- bdata bp;;
      (if negb (get32 d (4 * j) =? 0) then bfree dev (get32 d (4 * j)) else ret tt);;
      trunc_indirect dev bp k (Datatypes.S j)
  end.

Definition itrunc (i : nat) : M (fs S) unit :=
  trunc_direct i (Z.to_nat NDIRECT) 0;;
  p <- iload i;;
  let a := addr_at (i_addrs p) NDIRECT in
  (if negb (a =? 0) then
     bp <- bread (i_dev p) a;;
     trunc_indirect (i_dev p) bp (Z.to_nat NINDIRECT) 0;;
     brelse bp;;
     bfree (i_dev p) a;;
     istore i (fun p => set_i_addrs (<[Z.to_nat NDIRECT := 0]> (i_addrs p)) p)
   else ret tt);;
  istore i (set_i_size 0);;
  iupdate i.

Definition iput (i : nat) : M (fs S) unit :=
  on_lock i acquiresleep;;
  p <- iload i;;
  (if i_valid p && (i_nlink p =? 0) then
     acquire Licache;;
     p <- iload i;;
     release Licache;;
     if i_ref p =? 1 then
       itrunc i;;
       istore i (set_i_type 0);;
       iupdate i;;
       istore i (set_i_valid false)
     else ret tt
   else ret tt);;
  on_lock i releasesleep;;
  acquire Licache;;
  istore i (fun p => set_i_ref (s32 (i_ref p - 1)) p);;
  release Licache.

Definition iunlockput (i : nat) : M (fs S) unit :=
  iunlock (Some i);;
  iput i.

(** stat.h [struct stat]. *)
Record stat := Stat { st_type : Z; st_dev : Z; st_ino : Z; st_nlink : Z; st_size : Z }.
Definition stati (i : nat) : M (fs S) stat :=
  p <- iload i;;
  ret (Stat (i_type p) (s32 (i_dev p)) (i_inum p) (i_nlink p) (i_size p)).

Context {DV : Devices (fs S)}.

(** The loop of [readi]: [tot] bytes are done, [off] is the next offset. *)
Fixpoint readi_loop (k : nat) (i : nat) (tot off n : Z) : M (fs S) (list Z) :=
  if n <=? tot then ret []
  else match k with
  | O => undef "readi: fuel"
  | Datatypes.S k =>
      p <- iload i;;
      b <- bmap i (off / BSIZE);;
      bp <- bread (i_dev p) b;;
      d <- bdata bp;;
      let m := Z.min (n - tot) (BSIZE - off mod BSIZE) in
      brelse bp;;
      rest <- readi_loop k i (tot + m) (u32 (off + m)) n;;
      ret (slice (Z.to_nat (off mod BSIZE)) (Z.to_nat m) d ++ rest)
  end.

(** [readi] returns its result and the bytes it stores at [dst]. *)
Definition readi (i : nat) (off n : Z) : M (fs S) (Z * list Z) :=
  p <- iload i;;
  if i_type p =? T_DEV then
    if (i_major p <? 0) || (NDEV <=? i_major p) then ret (-1, [])
    else match dev_read (i_major p) with
         | None => ret (-1, [])
         | Some f => f i (s32 n)
         end
  else if (i_size p <? off) || (u32 (off + n) <? off) then ret (-1, [])
  else
    let n := if i_size p <? off + n then i_size p - off else n in
    d <- readi_loop (Z.to_nat (n / BSIZE + 2)) i 0 off n;;
    ret (s32 n, d).

Fixpoint writei_loop (k : nat) (i : nat) (src : list Z) (off : Z) : M (fs S) Z :=
  match src with
  | [] => ret off
  | _ :: _ =>
      match k with
      | O => undef "writei: fuel"
      | Datatypes.S k =>
          p <- iload i;;
          b <- bmap i (off / BSIZE);;
          bp <- bread (i_dev p) b;;
          let m := Z.min (Z.of_nat (length src)) (BSIZE - off mod BSIZE) in
          d <- bdata bp;;
          bstore bp (splice (Z.to_nat (off mod BSIZE)) (take (Z.to_nat m) src) d);;
          log_write bp;;
          brelse bp;;
          writei_loop k i (drop (Z.to_nat m) src) (u32 (off + m))
      end
  end.

(** [writei] of the [n] bytes at [src]. *)
Definition writei (i : nat) (src : list Z) (off : Z) : M (fs S) Z :=
  let n := Z.of_nat (length src) in
  p <- iload i;;
  if i_type p =? T_DEV then
    if (i_major p <? 0) || (NDEV <=? i_major p) then ret (-1)
    else match dev_write (i_major p) with
         | None => ret (-1)
         | Some f => f i src
         end
  else if (i_size p <? off) || (u32 (off + n) <? off) then ret (-1)
  else if MAXFILE * BSIZE <? u32 (off + n) then ret (-1)
  else
    off' <- writei_loop (Z.to_nat (n / BSIZE + 2)) i src off;;
    p <- iload i;;
    (if (0 <? n) && (i_size p <? off') then
       istore i (set_i_size off');;
       iupdate i
     else ret tt);;
    ret (s32 n).

(** The loop of [dirlookup] from offset [off]. *)
Fixpoint dirlookup_loop (k : nat) (i : nat) (name : list Z) (off : Z) : M (fs S) (option (nat * Z)) :=
  p <- iload i;;
  if i_size p <=? off then ret None
  else match k with
  | O => undef "dirlookup: fuel"
  | Datatypes.S k =>
      r <- readi i off sizeof_dirent;;
      if negb (fst r =? sizeof_dirent) then panic "dirlookup read"
      else if de_inum (snd r) =? 0 then dirlookup_loop k i name (u32 (off + sizeof_dirent))
      else if namecmp name (de_name (snd r)) =? 0 then
        j <- iget (i_dev p) (de_inum (snd r));;
        ret (Some (j, off))
      else dirlookup_loop k i name (u32 (off + sizeof_dirent))
  end.
Definition dirlookup (i : nat) (name : list Z) : M (fs S) (option (nat * Z)) :=
  p <- iload i;;
  if negb (i_type p =? T_DIR) then panic "dirlookup not DIR"
  else dirlookup_loop (Z.to_nat (i_size p / sizeof_dirent + 1)) i name 0.

(** The search of [dirlink] for a free entry. *)
Fixpoint free_dirent (k : nat) (i : nat) (off : Z) : M (fs S) Z :=
  p <- iload i;;
  if i_size p <=? off then ret off
  else match k with
  | O => undef "dirlink: fuel"
  | Datatypes.S k =>
      r <- readi i off sizeof_dirent;;
      if negb (fst r =? sizeof_dirent) then panic "dirlink read"
      else if de_inum (snd r) =? 0 then ret off
      else free_dirent k i (s32 (off + sizeof_dirent))
  end.

Definition dirlink (i : nat) (name : list Z) (inum : Z) : M (fs S) Z :=
  r <- dirlookup i name;;
  match r with
  | Some (j, _) => iput j;; ret (-1)
  | None =>
      p <- iload i;;
      off <- free_dirent (Z.to_nat (i_size p / sizeof_dirent + 1)) i 0;;
      n <- writei i (dirent_bytes inum name) off;;
      if negb (n =? sizeof_dirent) then panic "dirlink" else ret 0
  end.

(** The loop of [namex]; the result is the inode and the contents of [name]. *)
Fixpoint namex_loop (k : nat) (i : nat) (path name : list Z) (nameiparent : bool) : M (fs S) (option nat * list Z) :=
  match skipelem path name with
  | None => if nameiparent then iput i;; ret (None, name) else ret (Some i, name)
  | Some (path, name) =>
      match k with
      | O => undef "namex: fuel"
      | Datatypes.S k =>
          ilock (Some i);;
          p <- iload i;;
          if negb (i_type p =? T_DIR) then iunlockput i;; ret (None, name)
          else if nameiparent && bool_decide (path = []) then
            iunlock (Some i);;
            ret (Some i, name)
          else
            next <- dirlookup i name;;
            match next with
            | None => iunlockput i;; ret (None, name)
            | Some (j, _) =>
                iunlockput i;;
                namex_loop k j path name nameiparent
            end
      end
  end.

(** [cwd]: the current directory of the process. *)
Definition namex (cwd : nat) (path : list Z) (nameiparent : bool) (name : list Z) : M (fs S) (option nat * list Z) :=
  i <- (if byte path 0 =? slash then iget ROOTDEV ROOTINO else idup cwd);;
  namex_loop (length path) i path name nameiparent.
Definition namei (cwd : nat) (path name : list Z) : M (fs S) (option nat) :=
  r <- namex cwd path false name;;
  ret (fst r).
Definition nameiparent (cwd : nat) (path name : list Z) : M (fs S) (option nat * list Z) :=
  namex cwd path true name.

End fs.
