(* ===== verification/Tx.v ===== *)
(** The contract between the log and the file system: the blocks as code inside
    a transaction sees them, and the number of further blocks it may log.
    The first half states it, the second proves that log.c provides it between
    [begin_op] and [end_op]. *)

From stdpp Require Import functions base numbers list strings.
From S2P Require Import Xv6 Prelude Bytes Blocks Log Crash Fs.

(** [tseen]: what a reader sees; [tbase]: what is on the disk; [logged]: the
    blocks of the transaction; [credit]: how many more it may take; [theld]: the
    buffers the process has locked. *)
Record txview := Txview {
  tseen : Z -> list Z; tbase : Z -> list Z; logged : list Z; credit : nat; theld : list (nat * Z) }.

Definition thold (i : nat) (n : Z) (v : txview) : txview :=
  Txview (tseen v) (tbase v) (logged v) (credit v) ((i, n) :: theld v).
Definition tdrop (h : list (nat * Z)) (v : txview) : txview :=
  Txview (tseen v) (tbase v) (logged v) (credit v) h.
Definition tstore (n : Z) (d : list Z) (v : txview) : txview :=
  Txview (<[n := d]> (tseen v)) (tbase v) (logged v) (credit v) (theld v).
Definition tlog (n : Z) (v : txview) : txview :=
  if decide (n ∈ logged v) then v
  else Txview (tseen v) (tbase v) (n :: logged v) (pred (credit v)) (theld v).

Class TxStore (S : Type) {TB : TxBlocks S} := {
  (** The blocks outside the log. *)
  loggable : Z -> Prop;
  inside : thread -> txview -> S -> Prop;
  tx_length t v s n : inside t v s -> length (tseen v n) = Z.to_nat BSIZE;
  tx_held t v s i n : inside t v s -> (i, n) ∈ theld v -> tx_data i s = tseen v n;
  tx_clean t v s n : inside t v s -> n ∉ logged v -> n ∉ (theld v).*2 -> tseen v n = tbase v n;
  tx_bread_law t v s w n : inside t v s -> loggable n -> n ∉ (theld v).*2 ->
    n ∈ logged v \/ (length (theld v) <= credit v)%nat ->
    exists i s', tx_bread 1 n (Ctx t [] w) s = Ret i (Ctx t [] w) s' /\ inside t (thold i n v) s';
  tx_brelse_law t v s w h1 h2 i n : inside t v s -> theld v = h1 ++ (i, n) :: h2 ->
    n ∈ logged v \/ tseen v n = tbase v n ->
    exists w' s', tx_brelse i (Ctx t [] w) s = Ret tt (Ctx t [] w') s' /\ inside t (tdrop (h1 ++ h2) v) s';
  tx_store_law t v s i n d : inside t v s -> (i, n) ∈ theld v -> length d = Z.to_nat BSIZE ->
    inside t (tstore n d v) (tx_store i d s);
  tx_log_write_law t v s w i n : inside t v s -> (i, n) ∈ theld v -> loggable n ->
    n ∈ logged v \/ (1 <= credit v)%nat ->
    exists s', tx_log_write i (Ctx t [] w) s = Ret tt (Ctx t [] w) s' /\ inside t (tlog n v) s' }.

(** ** log.c provides it *)

#[export] Instance log_tx {S} {BC : BufferCache S} : TxBlocks (lst S) := {|
  tx_bread := Log.bread;
  tx_brelse := Log.brelse;
  tx_log_write := Log.log_write;
  tx_begin_op := Log.begin_op;
  tx_end_op := Log.end_op;
  tx_data i s := c_data i (cache s);
  tx_store i d s := Lst (lg s) (c_store i d (cache s)) |}.

Section log.
Context {S : Type} {BC : BufferCache S} {BS : BlockStore S}.
Variables (N st sz : Z).
Hypotheses (HN31 : N < 2 ^ 31) (Hsz : sz <= LOGSIZE).
Implicit Types (t : thread) (v : txview) (s : lst S).

(** A running transaction: the log holds the blocks [logged], and has room for
    [credit] more. *)
Record log_inside t v s : Prop := {
  in_view : exists b, shows t N b (cache s) /\ (forall n, seen b n = tseen v n) /\ (forall n, ondisk b n = tbase v n) /\
    (forall n, n ∈ pinned b <-> n ∈ logged v) /\ holds b = theld v;
  in_log : exists B, log_is st sz (lg s) B /\ fits N st sz B /\ (forall n, n ∈ B <-> n ∈ logged v) /\
    (Z.of_nat (length B + credit v) < sz - 1);
  in_outstanding : 1 <= outstanding (lg s) }.

Lemma log_inside_pinned t v s b B :
  shows t N b (cache s) -> (forall n, n ∈ pinned b <-> n ∈ logged v) ->
  NoDup B -> (forall n, n ∈ B <-> n ∈ logged v) -> length (pinned b) = length B.
Proof.
  intros Hs Hp Hnd HB. apply Permutation_length, NoDup_Permutation; [|done|intros n; by rewrite Hp, HB].
  apply (shows_nodup t N b (cache s) Hs).
Qed.

#[export] Program Instance log_store : TxStore (lst S) := {|
  loggable := home N st sz;
  inside := log_inside |}.
Next Obligation. intros t v s n [(b & Hs & E & _) _ _]. rewrite <- E. by eapply shows_length. Qed.
Next Obligation.
  intros t v s i n [(b & Hs & E & _ & _ & Hh) _ _] Hin. rewrite <- Hh in Hin. rewrite <- E.
  by apply (shows_held t N b (cache s) i n).
Qed.
Next Obligation.
  intros t v s n [(b & Hs & E & Ed & Hp & Hh) _ _] Hn1 Hn2. rewrite <- E, <- Ed.
  eapply shows_clean; [done|by rewrite Hp|by rewrite Hh].
Qed.
Next Obligation.
  intros t v s w n [(b & Hs & E & Ed & Hp & Hh) (B & Hl & HB & HBl & Hc) Ho] Hn Hnh Hr. destruct s as [l c].
  pose proof (log_inside_pinned t v (Lst l c) b B Hs Hp (proj1 HB) HBl) as Hlen.
  destruct (log_bread_runs N t b c l w n Hs) as (i & c' & R & Hs'); [apply Hn|by rewrite Hh| |].
  { destruct Hr as [Hr|Hr]; [left; by apply Hp|right]. rewrite Hh, Hlen. unfold NBUF.
    unfold LOGSIZE, MAXOPBLOCKS in Hsz. lia. }
  exists i, (Lst l c'). split; [done|]. split; [|by exists B|done].
  exists (holding_buf i n b). cbn. by rewrite Hh.
Qed.
Next Obligation.
  intros t v s w h1 h2 i n [(b & Hs & E & Ed & Hp & Hh) Hlog Ho] Hsplit Hc. destruct s as [l c].
  destruct (log_brelse_runs N t b c l w h1 h2 i n Hs) as (w' & c' & R & Hs'); [by rewrite Hh| |].
  { rewrite Hp, E, Ed. done. }
  exists w', (Lst l c'). split; [done|]. split; [|done|done].
  by exists (released (h1 ++ h2) b).
Qed.
Next Obligation.
  intros t v s i n d [(b & Hs & E & Ed & Hp & Hh) Hlog Ho] Hin Hd. split; [|done|done].
  exists (stored n d b). split; [cbn; apply store_law; [done|by rewrite Hh|done]|]. cbn.
  split; [|done]. intros m. destruct (decide (m = n)) as [->|Nm]; [by rewrite !fn_lookup_insert|by rewrite !fn_lookup_insert_ne].
Qed.
Next Obligation.
  intros t v s w i n [(b & Hs & E & Ed & Hp & Hh) (B & Hl & HB & HBl & Hc) Ho] Hin Hn Hr. destruct s as [l c].
  destruct (log_write_runs N st sz HN31 Hsz t b c l w B i n) as (l' & R & Hl' & Ho' & _); try done; [by rewrite Hh|lia|].
  exists (Lst l' (c_pin i c)). split; [done|]. split; cbn [lg cache]; [| |by rewrite Ho'].
  - exists (pinning n b). split; [apply pin_law; [done|by rewrite Hh]|]. unfold tlog. cbn.
    destruct (decide (n ∈ pinned b)) as [Hp1|Hp1], (decide (n ∈ logged v)) as [Hp2|Hp2]; try (exfalso; specialize (Hp n); tauto).
    + done.
    + cbn. do 2 (split; [done|]). split; [|done]. intros m. rewrite !elem_of_cons. by rewrite Hp.
  - exists (logging n B). split; [done|]. split; [apply fits_logging; [done..|lia]|]. unfold tlog, logging.
    destruct (decide (n ∈ B)) as [Hp1|Hp1], (decide (n ∈ logged v)) as [Hp2|Hp2]; try (exfalso; specialize (HBl n); tauto).
    + done.
    + cbn. split; [|rewrite length_app; cbn; destruct Hr as [?|?]; [done|lia]].
      intros m. rewrite elem_of_app, list_elem_of_singleton, elem_of_cons, HBl. tauto.
Qed.

(** A transaction as [begin_op] leaves it. *)
Lemma inside_begun t (v : bview) B s :
  log_inv N st sz v B s -> 1 <= outstanding (lg s) -> Z.of_nat (length B) < sz - 1 ->
  inside t (Txview (seen v) (ondisk v) B (Z.to_nat (sz - 2 - Z.of_nat (length B))) []) s.
Proof.
  intros I Ho Hlen. split; [| |done].
  - exists v. split; [apply I|]. split; [done|]. split; [done|]. split; [apply I|apply I].
  - exists B. pose proof (li_commit _ _ _ _ _ _ I) as C. split; [apply C|]. split; [apply C|]. split; [done|]. cbn. lia.
Qed.

End log.
