(* ===== verification/Bitmap.v ===== *)
(** The block allocator of fs.c: [balloc] takes the first free block, [bfree]
    undoes it.  Also the lemmas that run the block operations inside a
    transaction, for the files on inodes and directories. *)

From stdpp Require Import functions base numbers list strings.
From S2P Require Import Xv6 Prelude Bytes Log Fs Tx.

(** ** Bits of a byte list *)

Lemma land_bit_mask x bi : 0 <= bi -> (Z.land x (bit_mask bi) =? 0) = negb (Z.testbit x (bi mod 8)).
Proof.
  intros Hb. pose proof (Z.mod_pos_bound bi 8 ltac:(lia)) as Hm. unfold bit_mask.
  rewrite Z.shiftl_1_l. destruct (Z.testbit x (bi mod 8)) eqn:E; cbn.
  - apply Z.eqb_neq. intros H0. assert (Z.testbit (Z.land x (2 ^ (bi mod 8))) (bi mod 8) = false) as H1
      by (rewrite H0; apply Z.bits_0).
    rewrite Z.land_spec, E, Z.pow2_bits_true in H1 by lia. done.
  - apply Z.eqb_eq. apply Z.bits_inj'. intros n Hn. rewrite Z.land_spec, Z.bits_0.
    destruct (decide (n = bi mod 8)) as [->|N]; [by rewrite E|].
    rewrite Z.pow2_bits_false by lia. apply andb_false_r.
Qed.

Lemma bit_set_testbit d bi : 0 <= bi -> bit_set d bi = Z.testbit (byte d (Z.to_nat (bi / 8))) (bi mod 8).
Proof. intros Hb. unfold bit_set. rewrite land_bit_mask by done. apply negb_involutive. Qed.

Lemma testbit_u8 x k : 0 <= k < 8 -> Z.testbit (u8 x) k = Z.testbit x k.
Proof. intros Hk. unfold u8. apply Z.mod_pow2_bits_low. lia. Qed.

(** Two bits are the same bit of the same byte. *)
Lemma bit_index bi bj : 0 <= bi -> 0 <= bj ->
  Z.to_nat (bi / 8) = Z.to_nat (bj / 8) -> bi mod 8 = bj mod 8 -> bi = bj.
Proof.
  intros H1 H2 E1 E2. pose proof (Z.div_pos bi 8 H1 ltac:(lia)). pose proof (Z.div_pos bj 8 H2 ltac:(lia)).
  pose proof (Z.div_mod bi 8 ltac:(lia)). pose proof (Z.div_mod bj 8 ltac:(lia)). lia.
Qed.

Lemma bit_byte_lt bi (d : list Z) : 0 <= bi < 8 * Z.of_nat (length d) -> (Z.to_nat (bi / 8) < length d)%nat.
Proof. intros H. apply Nat2Z.inj_lt. rewrite Z2Nat.id by (apply Z.div_pos; lia). apply Z.div_lt_upper_bound; lia. Qed.

Lemma bit_mark bi bj d : 0 <= bi < 8 * Z.of_nat (length d) -> 0 <= bj ->
  bit_set (mark_bit bi d) bj = (bi =? bj) || bit_set d bj.
Proof.
  intros Hi Hj. rewrite !bit_set_testbit by done. unfold mark_bit.
  pose proof (Z.mod_pos_bound bi 8 ltac:(lia)). pose proof (Z.mod_pos_bound bj 8 ltac:(lia)).
  pose proof (bit_byte_lt bi d Hi).
  destruct (decide (Z.to_nat (bi / 8) = Z.to_nat (bj / 8))) as [E|E].
  - rewrite <- E, byte_insert_eq, testbit_u8, Z.lor_spec by lia. unfold bit_mask.
    rewrite Z.shiftl_1_l. destruct (Z.eqb_spec bi bj) as [->|N].
    + rewrite Z.pow2_bits_true by lia. apply orb_true_r.
    + rewrite Z.pow2_bits_false, orb_false_r; [done|]. intros E2. apply N, bit_index; lia || done.
  - rewrite byte_insert_ne by done. destruct (Z.eqb_spec bi bj) as [->|N]; [done|done].
Qed.

Lemma bit_clear bi bj d : 0 <= bi < 8 * Z.of_nat (length d) -> 0 <= bj ->
  bit_set (clear_bit bi d) bj = negb (bi =? bj) && bit_set d bj.
Proof.
  intros Hi Hj. rewrite !bit_set_testbit by done. unfold clear_bit.
  pose proof (Z.mod_pos_bound bi 8 ltac:(lia)). pose proof (Z.mod_pos_bound bj 8 ltac:(lia)).
  pose proof (bit_byte_lt bi d Hi).
  destruct (decide (Z.to_nat (bi / 8) = Z.to_nat (bj / 8))) as [E|E].
  - rewrite <- E, byte_insert_eq, testbit_u8, Z.land_spec, Z.lnot_spec by lia. unfold bit_mask.
    rewrite Z.shiftl_1_l. destruct (Z.eqb_spec bi bj) as [->|N].
    + rewrite Z.pow2_bits_true by lia. apply andb_false_r.
    + rewrite Z.pow2_bits_false, andb_true_r; [done|]. intros E2. apply N, bit_index; lia || done.
  - rewrite byte_insert_ne by done. destruct (Z.eqb_spec bi bj) as [->|N]; [done|done].
Qed.

Lemma length_mark_bit bi d : length (mark_bit bi d) = length d.
Proof. apply length_insert. Qed.
Lemma length_clear_bit bi d : length (clear_bit bi d) = length d.
Proof. apply length_insert. Qed.

(** ** Block operations in a transaction *)

(** Block [n] changed to [d] and logged. *)
Definition tput (n : Z) (d : list Z) (v : txview) : txview := tlog n (tstore n d v).

(** There is a buffer to read block [n] into, and room to log it. *)
Definition can_log (n : Z) (v : txview) : Prop := n ∈ logged v \/ (length (theld v) < credit v)%nat.

Section runs.
Context {S : Type} {TB : TxBlocks S} {TS : TxStore S}.
Variables (t : thread).
Implicit Types (v : txview) (b : S) (sb : superblock) (il : list inode) (w : list chan).

Lemma on_blocks_Ret {A} (m : M S A) cx b sb il a cx' b' :
  m cx b = Ret a cx' b' -> on_blocks m cx (Fs b sb il) = Ret a cx' (Fs b' sb il).
Proof. intros E. unfold on_blocks, zoom. cbn. by rewrite E. Qed.

Lemma fs_bread v b sb il w n :
  inside t v b -> loggable n -> n ∉ (theld v).*2 -> n ∈ logged v \/ (length (theld v) <= credit v)%nat ->
  exists i b', bread 1 n (Ctx t [] w) (Fs b sb il) = Ret i (Ctx t [] w) (Fs b' sb il) /\ inside t (thold i n v) b'.
Proof.
  intros Hi Hl Hh Hr. destruct (tx_bread_law t v b w n Hi Hl Hh Hr) as (i & b' & E & Hi').
  exists i, b'. split; [by apply on_blocks_Ret|done].
Qed.

Lemma fs_brelse v b sb il w h1 h2 i n :
  inside t v b -> theld v = h1 ++ (i, n) :: h2 -> n ∈ logged v \/ tseen v n = tbase v n ->
  exists w' b', brelse i (Ctx t [] w) (Fs b sb il) = Ret tt (Ctx t [] w') (Fs b' sb il) /\ inside t (tdrop (h1 ++ h2) v) b'.
Proof.
  intros Hi Hs Hc. destruct (tx_brelse_law t v b w h1 h2 i n Hi Hs Hc) as (w' & b' & E & Hi').
  exists w', b'. split; [by apply on_blocks_Ret|done].
Qed.

Lemma fs_bdata v b sb il w i n :
  inside t v b -> (i, n) ∈ theld v -> bdata i (Ctx t [] w) (Fs b sb il) = Ret (tseen v n) (Ctx t [] w) (Fs b sb il).
Proof. intros Hi Hh. unfold bdata, gets. cbn. by rewrite (tx_held t v b i n Hi Hh). Qed.

Lemma tlog_drop n d i v : tdrop (theld v) (tlog n (tstore n d (thold i n v))) = tput n d v.
Proof. unfold tput, tlog. cbn. destruct v. cbn. by destruct (decide _). Qed.

Lemma tlog_held n v : theld (tlog n v) = theld v.
Proof. unfold tlog. by destruct (decide _). Qed.
Lemma tlog_logged n v : n ∈ logged (tlog n v).
Proof. unfold tlog. destruct (decide _); [done|left]. Qed.
Lemma tlog_seen n v : tseen (tlog n v) = tseen v.
Proof. unfold tlog. by destruct (decide _). Qed.
Lemma tlog_base n v : tbase (tlog n v) = tbase v.
Proof. unfold tlog. by destruct (decide _). Qed.
Lemma tlog_keeps n m v : m ∈ logged v -> m ∈ logged (tlog n v).
Proof. intros Hm. unfold tlog. destruct (decide _); [done|by right]. Qed.
Lemma tlog_credit n v : (pred (credit v) <= credit (tlog n v) <= credit v)%nat.
Proof. unfold tlog. destruct (decide _); cbn; lia. Qed.

Lemma tput_seen_same n d v : tseen (tput n d v) n = d.
Proof. unfold tput. rewrite tlog_seen. cbn. by rewrite fn_lookup_insert. Qed.
Lemma tput_seen_other n m d v : m ≠ n -> tseen (tput n d v) m = tseen v m.
Proof. intros N. unfold tput. rewrite tlog_seen. cbn. by rewrite fn_lookup_insert_ne. Qed.
Lemma tput_held n d v : theld (tput n d v) = theld v.
Proof. unfold tput. by rewrite tlog_held. Qed.
Lemma tput_logged n d v : n ∈ logged (tput n d v).
Proof. apply tlog_logged. Qed.
Lemma tput_keeps n m d v : m ∈ logged v -> m ∈ logged (tput n d v).
Proof. intros Hm. by apply tlog_keeps. Qed.
Lemma tput_base n d v : tbase (tput n d v) = tbase v.
Proof. unfold tput. by rewrite tlog_base. Qed.
Lemma tput_credit n d v : (pred (credit v) <= credit (tput n d v) <= credit v)%nat.
Proof. exact (tlog_credit n (tstore n d v)). Qed.

(** [bstore; log_write; brelse] on a buffer just read. *)
Lemma fs_put v b sb il w i n d :
  inside t (thold i n v) b -> loggable n -> length d = Z.to_nat BSIZE -> can_log n v ->
  exists b1 b2 w' b3,
    bstore i d (Ctx t [] w) (Fs b sb il) = Ret tt (Ctx t [] w) (Fs b1 sb il) /\
    log_write i (Ctx t [] w) (Fs b1 sb il) = Ret tt (Ctx t [] w) (Fs b2 sb il) /\
    brelse i (Ctx t [] w) (Fs b2 sb il) = Ret tt (Ctx t [] w') (Fs b3 sb il) /\
    inside t (tput n d v) b3.
Proof.
  intros Hi Hl Hd Hc.
  assert (inside t (tstore n d (thold i n v)) (tx_store i d b)) as H1 by (apply tx_store_law; [done|left|done]).
  destruct (tx_log_write_law t _ _ w i n H1) as (b2 & E2 & H2); [left|done| |].
  { destruct Hc as [Hc|Hc]; [by left|right; cbn; lia]. }
  destruct (fs_brelse _ b2 sb il w [] (theld v) i n H2) as (w' & b3 & E3 & H3).
  { rewrite tlog_held. done. } { left. apply tlog_logged. }
  exists (tx_store i d b), b2, w', b3. split; [done|]. split; [by apply on_blocks_Ret|]. split; [done|].
  cbn [app] in H3. by rewrite tlog_drop in H3.
Qed.

(** A read that changes nothing: [bread; brelse]. *)
Lemma fs_get v b sb il w n :
  inside t v b -> loggable n -> n ∉ (theld v).*2 -> n ∈ logged v \/ (length (theld v) <= credit v)%nat ->
  exists i b1, bread 1 n (Ctx t [] w) (Fs b sb il) = Ret i (Ctx t [] w) (Fs b1 sb il) /\
    bdata i (Ctx t [] w) (Fs b1 sb il) = Ret (tseen v n) (Ctx t [] w) (Fs b1 sb il) /\
    inside t (thold i n v) b1 /\
    forall il', exists w' b2, brelse i (Ctx t [] w) (Fs b1 sb il') = Ret tt (Ctx t [] w') (Fs b2 sb il') /\ inside t v b2.
Proof.
  intros Hi Hl Hh Hr. destruct (fs_bread v b sb il w n Hi Hl Hh Hr) as (i & b1 & E1 & H1).
  exists i, b1. split; [done|]. split; [by rewrite (fs_bdata _ _ _ _ _ i n H1) by left|]. split; [done|].
  intros il'. destruct (fs_brelse _ b1 sb il' w [] (theld v) i n H1) as (w' & b2 & E2 & H2); [done| |].
  - destruct (decide (n ∈ logged v)) as [Hin|Hin]; [by left|right]. cbn. by eapply tx_clean.
  - exists w', b2. split; [done|]. by destruct v.
Qed.

Lemma bzero_runs v b sb il w n :
  inside t v b -> loggable n -> n ∉ (theld v).*2 -> can_log n v ->
  exists w' b', bzero 1 n (Ctx t [] w) (Fs b sb il) = Ret tt (Ctx t [] w') (Fs b' sb il) /\
    inside t (tput n (replicate (Z.to_nat BSIZE) 0) v) b'.
Proof.
  intros Hi Hl Hh Hc. unfold bzero.
  destruct (fs_bread v b sb il w n Hi Hl Hh) as (i & b1 & E1 & H1); [destruct Hc; [by left|right; lia]|].
  run E1.
  destruct (fs_put v b1 sb il w i n (replicate (Z.to_nat BSIZE) 0) H1 Hl) as (b2 & b3 & w' & b4 & R1 & R2 & R3 & H4);
    [apply length_replicate|done|].
  run R1; run R2; rewrite R3. by exists w', b4.
Qed.

End runs.

(** ** [balloc] and [bfree] *)

(** The constants of fs.h as numbers. *)
Ltac fs_const :=
  change BPB with 4096 in *; change IPB with 8 in *; change BSIZE with 512 in *;
  change NDIRECT with 12 in *; change NINDIRECT with 128 in *; change MAXFILE with 140 in *.

Section bitmap.
Context {S : Type} {TB : TxBlocks S} {TS : TxStore S}.
Implicit Types (v : txview) (b : S) (sb : superblock) (il : list inode) (w : list chan) (t : thread).

(** The disk layout of fs.h: log and boot blocks, inode blocks, bitmap, data. *)
Definition data_start sb : Z := sb_bmapstart sb + sb_size sb / BPB + 1.
Record fs_layout sb : Prop := {
  lay_size : 0 < sb_size sb < 2 ^ 31;
  lay_ninodes : 0 < sb_ninodes sb < 2 ^ 16;
  lay_inodes : 0 <= sb_inodestart sb;
  lay_bmap : sb_inodestart sb + sb_ninodes sb / IPB < sb_bmapstart sb;
  lay_data : data_start sb <= sb_size sb;
  lay_loggable n : sb_inodestart sb <= n < sb_size sb -> loggable n }.

(** Block [n] is marked in the bitmap. *)
Definition used sb v (n : Z) : bool := bit_set (tseen v (BBLOCK n sb)) (n mod BPB).

Lemma BBLOCK_range sb n : fs_layout sb -> 0 <= n < sb_size sb ->
  BBLOCK n sb = n / BPB + sb_bmapstart sb /\ sb_bmapstart sb <= BBLOCK n sb < data_start sb.
Proof.
  intros L Hn. destruct L as [L1 L2 L3 L4 L5 _]. unfold BBLOCK, data_start in *.
  assert (0 <= n / BPB <= sb_size sb / BPB) as Hd.
  { split; [apply Z.div_pos; fs_const; lia|]. apply Z.div_le_mono; [fs_const; lia|lia]. }
  assert (0 <= sb_ninodes sb / IPB) by (apply Z.div_pos; [lia|done]).
  rewrite u32_small; lia.
Qed.

Lemma bitmap_loggable sb n : fs_layout sb -> 0 <= n < sb_size sb -> loggable (BBLOCK n sb).
Proof.
  intros L Hn. destruct (BBLOCK_range sb n L Hn) as [_ Hr]. apply (lay_loggable sb L).
  pose proof (lay_bmap sb L). pose proof (lay_data sb L). pose proof (lay_ninodes sb L).
  assert (0 <= sb_ninodes sb / IPB) by (apply Z.div_pos; [lia|done]). lia.
Qed.

(** The view after the allocation of block [n]. *)
Definition allocated sb (n : Z) v : txview :=
  tput n (replicate (Z.to_nat BSIZE) 0)
    (tput (BBLOCK n sb) (mark_bit (n mod BPB) (tseen v (BBLOCK n sb))) v).
Definition freed sb (n : Z) v : txview :=
  tput (BBLOCK n sb) (clear_bit (n mod BPB) (tseen v (BBLOCK n sb))) v.

(** The buffers a caller may hold: data blocks in use. *)
Definition holds_data sb v : Prop :=
  forall n, n ∈ (theld v).*2 -> data_start sb <= n < sb_size sb /\ used sb v n = true.

(** The blocks of the log, the inodes and the bitmap are never free. *)
Definition meta_used sb v : Prop := forall n, 0 <= n < data_start sb -> used sb v n = true.

Lemma find_first {A} (f : A -> bool) (l : list A) x :
  List.find f l = Some x -> exists l1 l2, l = l1 ++ x :: l2 /\ f x = true /\ forall y, y ∈ l1 -> f y = false.
Proof.
  induction l as [|a l IH]; [done|]. cbn. destruct (f a) eqn:E.
  - intros [= ->]. exists [], l. split; [done|]. split; [done|]. intros y []%not_elem_of_nil.
  - intros (l1 & l2 & -> & Hx & Hl)%IH. exists (a :: l1), l2. split; [done|]. split; [done|].
    intros y [->|Hy]%elem_of_cons; auto.
Qed.

Lemma find_seqZ (f : Z -> bool) n x : List.find f (seqZ 0 n) = Some x ->
  0 <= x < n /\ f x = true /\ forall y, 0 <= y < x -> f y = false.
Proof.
  intros Hf. apply find_first in Hf as (l1 & l2 & E & Hx & Hl).
  assert (forall y, y ∈ seqZ 0 n <-> 0 <= y < n) as Hin by (intros y; rewrite elem_of_seqZ; lia).
  assert (0 <= x < n) as Hxr by (apply Hin; rewrite E; apply elem_of_app; right; left).
  split; [done|]. split; [done|]. intros y Hy. apply Hl.
  assert (l1 = seqZ 0 (Z.of_nat (length l1))) as El.
  { apply list_eq. intros k. destruct (decide (k < length l1)%nat) as [Hk|Hk].
    - rewrite lookup_seqZ_lt by lia. rewrite <- (lookup_app_l l1 (x :: l2)), <- E by done.
      assert (length (seqZ 0 n) = length (l1 ++ x :: l2)) as Hlen by (by rewrite E).
      rewrite length_seqZ, length_app in Hlen. cbn in Hlen. apply lookup_seqZ_lt. lia.
    - rewrite !lookup_ge_None_2; [done| |lia]. rewrite length_seqZ. lia. }
  assert (seqZ 0 n !! length l1 = Some x) as Hxl by (rewrite E; apply list_lookup_middle; done).
  apply lookup_seqZ in Hxl as [-> _]. rewrite El. apply elem_of_seqZ. lia.
Qed.

(** The bits of one bitmap block. *)
Lemma used_in_block sb v c bi : 0 <= bi < BPB -> c mod BPB = 0 -> 0 <= c ->
  used sb v (c + bi) = bit_set (tseen v (BBLOCK c sb)) bi.
Proof.
  intros Hbi Hc H0. unfold used, BBLOCK. f_equal.
  - do 3 f_equal. fs_const; word_lia.
  - fs_const; word_lia.
Qed.

Section one_process.
Variables (t : thread) (sb : superblock) (il : list inode) (v : txview).
Hypotheses (L : fs_layout sb) (MU : meta_used sb v) (HD : holds_data sb v).

Lemma bitmap_not_held n : 0 <= n < sb_size sb -> BBLOCK n sb ∉ (theld v).*2.
Proof. intros Hn Hin. destruct (HD _ Hin) as [Hd _]. pose proof (BBLOCK_range sb n L Hn). lia. Qed.

Lemma balloc_loop_runs k : forall b w c,
  inside t v b -> (length (theld v) + 2 <= credit v)%nat ->
  0 <= c -> c mod BPB = 0 -> sb_size sb < c + Z.of_nat k * BPB ->
  (forall n, 0 <= n < c -> n < sb_size sb -> used sb v n = true) ->
  (exists n w' b', balloc_loop k 1 c (Ctx t [] w) (Fs b sb il) = Ret n (Ctx t [] w') (Fs b' sb il) /\
     inside t (allocated sb n v) b' /\ data_start sb <= n < sb_size sb /\ used sb v n = false /\
     (forall m, 0 <= m < n -> used sb v m = true)) \/
  (balloc_loop k 1 c (Ctx t [] w) (Fs b sb il) = Panic "balloc: out of blocks" /\
     forall n, 0 <= n < sb_size sb -> used sb v n = true).
Proof.
  induction k as [|k IH]; intros b w c Hi Hcr Hc Hm Hk Hu; cbn [balloc_loop]; mstep; cbn [fs_sb].
  - destruct (Z.leb_spec (sb_size sb) c); [|lia]. right. split; [done|]. intros n Hn. apply Hu; lia.
  - destruct (Z.leb_spec (sb_size sb) c) as [Hle|Hle].
    { right. split; [done|]. intros n Hn. apply Hu; lia. }
    destruct (fs_get t v b sb il w (BBLOCK c sb) Hi) as (i & b1 & E1 & E2 & H1 & E3);
      [apply bitmap_loggable; done || lia | apply bitmap_not_held; lia | right; lia |].
    run E1; run E2.
    destruct (List.find _ _) as [bi|] eqn:F.
    + apply find_seqZ in F as (Hbi & Hfr & Hfirst). apply negb_true_iff in Hfr.
      assert (used sb v (c + bi) = false) as Hfree by (rewrite used_in_block by lia; done).
      assert (data_start sb <= c + bi < sb_size sb) as Hrange.
      { split; [|lia]. destruct (decide (c + bi < data_start sb)); [|lia].
        rewrite MU in Hfree by lia. done. }
      assert (BBLOCK c sb = BBLOCK (c + bi) sb /\ bi = (c + bi) mod BPB) as [EB Eb].
      { split; [unfold BBLOCK; do 2 f_equal|]; fs_const; word_lia. }
      destruct (fs_put t v b1 sb il w i (BBLOCK c sb) (mark_bit bi (tseen v (BBLOCK c sb))) H1)
        as (b2 & b3 & w1 & b4 & R1 & R2 & R3 & H4).
      { apply bitmap_loggable; done || lia. } { rewrite length_mark_bit. by eapply tx_length. } { right. lia. }
      run R1; run R2; run R3.
      pose proof (tput_credit (BBLOCK c sb) (mark_bit bi (tseen v (BBLOCK c sb))) v) as Hcr'.
      destruct (bzero_runs t _ b4 sb il w1 (c + bi) H4) as (w2 & b5 & R4 & H5).
      { apply (lay_loggable sb L). pose proof (BBLOCK_range sb (c + bi) L ltac:(lia)).
        pose proof (lay_bmap sb L). pose proof (lay_ninodes sb L). pose proof (lay_inodes sb L).
        assert (0 <= sb_ninodes sb / IPB) by (apply Z.div_pos; [lia|done]). lia. }
      { rewrite tput_held. intros Hin. destruct (HD _ Hin) as [_ Hx]. congruence. }
      { right. rewrite tput_held. lia. }
      run R4. left. exists (c + bi), w2, b5. split; [done|].
      split; [unfold allocated; by rewrite <- EB, <- Eb|]. split; [done|]. split; [done|].
      intros m Hmr. destruct (decide (m < c)); [apply Hu; lia|].
      replace m with (c + (m - c)) by lia. rewrite used_in_block by lia.
      specialize (Hfirst (m - c) ltac:(lia)). by apply negb_false_iff in Hfirst.
    + destruct (E3 il) as (w' & b2 & E4 & H2). run E4.
      apply IH; [done|done|fs_const; lia|fs_const; word_lia|fs_const; lia|].
      intros n Hn Hns. destruct (decide (n < c)); [apply Hu; lia|].
      replace n with (c + (n - c)) by lia. rewrite used_in_block by lia.
      apply negb_false_iff. eapply (List.find_none _ _ F). apply list_elem_of_In, elem_of_seqZ. lia.
Qed.


Lemma balloc_runs b w :
  inside t v b -> (length (theld v) + 2 <= credit v)%nat ->
  (exists n w' b', balloc 1 (Ctx t [] w) (Fs b sb il) = Ret n (Ctx t [] w') (Fs b' sb il) /\
     inside t (allocated sb n v) b' /\ data_start sb <= n < sb_size sb /\ used sb v n = false /\
     (forall m, 0 <= m < n -> used sb v m = true)) \/
  (balloc 1 (Ctx t [] w) (Fs b sb il) = Panic "balloc: out of blocks" /\
     forall n, 0 <= n < sb_size sb -> used sb v n = true).
Proof.
  intros Hi Hc. unfold balloc. mstep. cbn [fs_sb]. pose proof (lay_size sb L).
  apply balloc_loop_runs; try done.
  - rewrite Z2Nat.id; [fs_const; word_lia|]. assert (0 <= sb_size sb / BPB) by (apply Z.div_pos; [lia|done]). lia.
  - intros n Hn. lia.
Qed.

(** Block 0 is never free, so [balloc] never returns 0. *)
Lemma data_start_pos : 0 < data_start sb.
Proof.
  pose proof (lay_bmap sb L). pose proof (lay_inodes sb L). pose proof (lay_ninodes sb L). pose proof (lay_size sb L).
  assert (0 <= sb_ninodes sb / IPB) by (apply Z.div_pos; [lia|done]).
  assert (0 <= sb_size sb / BPB) by (apply Z.div_pos; [lia|done]). unfold data_start. lia.
Qed.

Lemma data_not_bitmap n m : data_start sb <= n -> 0 <= m < sb_size sb -> BBLOCK m sb ≠ n.
Proof. intros Hn Hm. pose proof (BBLOCK_range sb m L Hm). lia. Qed.

Lemma bit_range n : 0 <= n mod BPB < 8 * Z.of_nat (Z.to_nat BSIZE).
Proof. change (8 * Z.of_nat (Z.to_nat BSIZE)) with BPB. apply Z.mod_pos_bound. done. Qed.

(** Marking or clearing the bit of [n] concerns no other block. *)
Lemma used_put_bit n m d : 0 <= n < sb_size sb -> 0 <= m < sb_size sb -> m ≠ n ->
  (forall bj, 0 <= bj -> bj ≠ n mod BPB -> bit_set d bj = bit_set (tseen v (BBLOCK n sb)) bj) ->
  used sb (tput (BBLOCK n sb) d v) m = used sb v m.
Proof.
  intros Hn Hm N Hd. unfold used. destruct (decide (BBLOCK m sb = BBLOCK n sb)) as [E|E].
  - rewrite E, tput_seen_same, Hd; [done|apply Z.mod_pos_bound; done|].
    intros Em. apply N. destruct (BBLOCK_range sb m L Hm) as [E1 _]. destruct (BBLOCK_range sb n L Hn) as [E2 _].
    rewrite E1, E2 in E. fs_const. word_lia.
  - by rewrite tput_seen_other.
Qed.

Lemma allocated_used b n m : inside t v b -> data_start sb <= n < sb_size sb -> 0 <= m < sb_size sb ->
  used sb (allocated sb n v) m = (n =? m) || used sb v m.
Proof.
  intros Hi Hn Hm. pose proof data_start_pos. unfold allocated, used at 1.
  rewrite tput_seen_other by (apply data_not_bitmap; lia). pose proof (bit_range n) as Hbr.
  pose proof (tx_length t v b (BBLOCK n sb) Hi) as Hl. rewrite <- Hl in Hbr.
  change (used sb (tput (BBLOCK n sb) (mark_bit (n mod BPB) (tseen v (BBLOCK n sb))) v) m = (n =? m) || used sb v m).
  destruct (Z.eqb_spec n m) as [<-|N].
  - unfold used. rewrite tput_seen_same, bit_mark, Z.eqb_refl; [done|done|apply Z.mod_pos_bound; done].
  - rewrite used_put_bit; [done|lia|done|congruence|]. intros bj Hj Nj. rewrite bit_mark by done.
    by rewrite (proj2 (Z.eqb_neq _ _)).
Qed.

Lemma freed_used b n m : inside t v b -> 0 <= n < sb_size sb -> 0 <= m < sb_size sb ->
  used sb (freed sb n v) m = negb (n =? m) && used sb v m.
Proof.
  intros Hi Hn Hm. unfold freed. pose proof (bit_range n) as Hbr.
  pose proof (tx_length t v b (BBLOCK n sb) Hi) as Hl. rewrite <- Hl in Hbr.
  destruct (Z.eqb_spec n m) as [<-|N].
  - unfold used. rewrite tput_seen_same, bit_clear, Z.eqb_refl; [done|done|apply Z.mod_pos_bound; done].
  - rewrite used_put_bit; [done|lia|done|congruence|]. intros bj Hj Nj. rewrite bit_clear by done.
    by rewrite (proj2 (Z.eqb_neq _ _)).
Qed.

Lemma bfree_runs b w n :
  inside t v b -> 0 <= n < sb_size sb -> can_log (BBLOCK n sb) v -> used sb v n = true ->
  exists w' b', bfree 1 n (Ctx t [] w) (Fs b sb il) = Ret tt (Ctx t [] w') (Fs b' sb il) /\ inside t (freed sb n v) b'.
Proof.
  intros Hi Hn Hc Hu. unfold bfree. mstep. cbn [fs_sb].
  destruct (fs_get t v b sb il w (BBLOCK n sb) Hi) as (i & b1 & E1 & E2 & H1 & _);
    [by apply bitmap_loggable | by apply bitmap_not_held | destruct Hc; [by left|right; lia] |].
  run E1; run E2. unfold used in Hu. rewrite Hu. cbn [negb].
  destruct (fs_put t v b1 sb il w i (BBLOCK n sb) (clear_bit (n mod BPB) (tseen v (BBLOCK n sb))) H1)
    as (b2 & b3 & w1 & b4 & R1 & R2 & R3 & H4);
    [by apply bitmap_loggable | rewrite length_clear_bit; by eapply tx_length | done |].
  run R1; run R2; rewrite R3. by exists w1, b4.
Qed.

End one_process.

(** C20: [balloc] takes the first free block.  Inside a transaction with room for
    two more blocks it returns the lowest block the bitmap has free, which lies
    in the data area; that block is then all zero and marked, no other mark and
    no other block is changed.  It panics only when every block is in use. *)
Theorem balloc_takes_first_free t sb il v b w :
  fs_layout sb -> meta_used sb v -> holds_data sb v -> inside t v b -> (length (theld v) + 2 <= credit v)%nat ->
  (balloc 1 (Ctx t [] w) (Fs b sb il) = Panic "balloc: out of blocks" /\
     forall n, 0 <= n < sb_size sb -> used sb v n = true) \/
  (exists n w' b' v', balloc 1 (Ctx t [] w) (Fs b sb il) = Ret n (Ctx t [] w') (Fs b' sb il) /\ inside t v' b' /\
     data_start sb <= n < sb_size sb /\ used sb v n = false /\ (forall m, 0 <= m < n -> used sb v m = true) /\
     tseen v' n = replicate (Z.to_nat BSIZE) 0 /\
     (forall m, m ≠ n -> m ≠ BBLOCK n sb -> tseen v' m = tseen v m) /\
     (forall m, 0 <= m < sb_size sb -> used sb v' m = (n =? m) || used sb v m)).
Proof.
  intros L MU HD Hi Hc. destruct (balloc_runs t sb il v L MU HD b w Hi Hc) as [H|H]; [right|by left].
  destruct H as (n & w' & b' & R & Hi' & Hn & Hf & Hfirst). exists n, w', b', (allocated sb n v).
  split; [done|]. split; [done|]. split; [done|]. split; [done|]. split; [done|].
  split; [apply tput_seen_same|]. split.
  - intros m N1 N2. unfold allocated. by rewrite !tput_seen_other.
  - intros m Hm. by eapply allocated_used.
Qed.

Lemma meta_used_allocated t sb v b n : fs_layout sb -> inside t v b -> data_start sb <= n < sb_size sb ->
  meta_used sb v -> meta_used sb (allocated sb n v).
Proof.
  intros L Hi Hn MU m Hm. pose proof (lay_data sb L). rewrite (allocated_used t) with (b := b); try done; [|lia].
  rewrite MU by done. apply orb_true_r.
Qed.

Lemma holds_data_allocated t sb v b n : fs_layout sb -> inside t v b -> data_start sb <= n < sb_size sb ->
  holds_data sb v -> holds_data sb (allocated sb n v).
Proof.
  intros L Hi Hn HD m Hm. unfold allocated in Hm. rewrite !tput_held in Hm. destruct (HD m Hm) as [H1 H2].
  pose proof (data_start_pos sb L). split; [done|].
  rewrite (allocated_used t) with (b := b); try done; [|lia]. rewrite H2. apply orb_true_r.
Qed.

Lemma allocated_logged sb n v : BBLOCK n sb ∈ logged (allocated sb n v) /\ n ∈ logged (allocated sb n v).
Proof. split; [apply tput_keeps, tput_logged|apply tput_logged]. Qed.

(** C21: [bfree] undoes [balloc].  The block just allocated can be freed in the
    same transaction; afterwards the bitmap marks exactly what it marked before
    and every block but the freed one and its bitmap block has the contents it
    had.  Freeing it again panics. *)
Theorem bfree_undoes_balloc t sb il v b w n c1 s1 :
  fs_layout sb -> meta_used sb v -> holds_data sb v -> inside t v b -> (length (theld v) + 2 <= credit v)%nat ->
  balloc 1 (Ctx t [] w) (Fs b sb il) = Ret n c1 s1 ->
  exists c2 s2 v2, bfree 1 n c1 s1 = Ret tt c2 s2 /\ inside t v2 (blocks s2) /\
    (forall m, 0 <= m < sb_size sb -> used sb v2 m = used sb v m) /\
    (forall m, m ≠ n -> m ≠ BBLOCK n sb -> tseen v2 m = tseen v m) /\
    bfree 1 n c2 s2 = Panic "freeing free block".
Proof.
  intros L MU HD Hi Hc E. destruct (balloc_runs t sb il v L MU HD b w Hi Hc) as [H|[H _]]; [|congruence].
  destruct H as (n' & w' & b' & R & Hi' & Hn & Hf & _). rewrite E in R. injection R as -> -> ->.
  pose proof (data_start_pos sb L). assert (0 <= n' < sb_size sb) as Hn0 by lia.
  pose proof (meta_used_allocated t sb v b n' L Hi Hn MU) as MU'.
  pose proof (holds_data_allocated t sb v b n' L Hi Hn HD) as HD'.
  pose proof (allocated_used t sb v L b n') as Hu.
  destruct (bfree_runs t sb il _ L HD' b' w' n' Hi' Hn0) as (w2 & b2 & R2 & H2).
  { left. apply allocated_logged. } { rewrite Hu, Z.eqb_refl by done. done. }
  exists (Ctx t [] w2), (Fs b2 sb il), (freed sb n' (allocated sb n' v)). split; [done|]. split; [done|].
  assert (forall m, 0 <= m < sb_size sb -> used sb (freed sb n' (allocated sb n' v)) m = used sb v m) as Hu2.
  { intros m Hm. rewrite (freed_used t) with (b := b'), Hu by done.
    destruct (Z.eqb_spec n' m) as [<-|N]; cbn; [by rewrite Hf|done]. }
  split; [done|]. split.
  - intros m N1 N2. unfold freed, allocated. by rewrite !tput_seen_other.
  - unfold bfree. mstep. cbn [fs_sb].
    assert (holds_data sb (freed sb n' (allocated sb n' v))) as HD2.
    { intros m Hm. unfold freed, allocated in Hm. rewrite !tput_held in Hm. destruct (HD m Hm) as [H3 H4].
      split; [done|]. rewrite Hu2 by lia. done. }
    destruct (fs_get t _ b2 sb il w2 (BBLOCK n' sb) H2) as (i & b3 & E1 & E2 & H3 & _);
      [by apply bitmap_loggable | by apply bitmap_not_held | left; apply tput_keeps, allocated_logged |].
    run E1; run E2. fold (used sb (freed sb n' (allocated sb n' v)) n').
    by rewrite Hu2, Hf.
Qed.

End bitmap.
