(* ===== verification/Inode.v ===== *)
(** Inodes of fs.c: the encoding of disk inodes, the inode cache ([iget], [idup])
    and the copies between the two ([ilock], [iupdate]). *)

From stdpp Require Import functions base numbers list strings.
From S2P Require Import Xv6 Prelude Bytes Sleeplock Log Fs Tx Bitmap.

(** ** Disk inodes *)

(** The values the fields of a disk inode can have. *)
Definition dinode_ok (x : dinode) : Prop :=
  - 2 ^ 15 <= di_type x < 2 ^ 15 /\ - 2 ^ 15 <= di_major x < 2 ^ 15 /\ - 2 ^ 15 <= di_minor x < 2 ^ 15 /\
  - 2 ^ 15 <= di_nlink x < 2 ^ 15 /\ 0 <= di_size x < 2 ^ 32 /\
  length (di_addrs x) = Z.to_nat (NDIRECT + 1) /\ Forall (fun a => 0 <= a < 2 ^ 32) (di_addrs x).

Lemma length_put_dinode o x d : length (put_dinode o x d) = length d.
Proof. unfold put_dinode. by rewrite length_put_words, length_put32, !length_put16. Qed.

Lemma s16_u16 z : - 2 ^ 15 <= z < 2 ^ 15 -> s16 (u16 z) = z.
Proof. word_lia. Qed.

(** What is written is read back. *)
Lemma dinode_roundtrip o x d : dinode_ok x -> (o + 64 <= length d)%nat -> dinode_at o (put_dinode o x d) = x.
Proof.
  intros (H1 & H2 & H3 & H4 & H5 & H6 & H7) Hl. unfold dinode_at, put_dinode.
  change (Z.to_nat (NDIRECT + 1)) with 13%nat in *.
  rewrite !get16_put_words_ne, get32_put_words_ne by lia.
  rewrite !get16_put32_ne, get32_put32 by (rewrite ?length_put16; lia).
  rewrite (get16_put16 (o + 6)) by (rewrite ?length_put16; lia).
  rewrite !(get16_put16_ne (o + 6)) by lia.
  rewrite (get16_put16 (o + 4)) by (rewrite ?length_put16; lia). rewrite !(get16_put16_ne (o + 4)) by lia.
  rewrite (get16_put16 (o + 2)) by (rewrite ?length_put16; lia). rewrite !(get16_put16_ne (o + 2)) by lia.
  rewrite get16_put16 by lia. rewrite !s16_u16, u32_small by done.
  destruct x as [ty mj mn nl sz ad]; cbn [di_type di_major di_minor di_nlink di_size di_addrs] in *. f_equal. apply list_eq. intros i. rewrite list_lookup_fmap.
  destruct (decide (i < 13)%nat) as [Hi|Hi].
  - rewrite lookup_seq_lt by done. cbn [fmap option_fmap option_map].
    destruct (lookup_lt_is_Some_2 ad i ltac:(lia)) as [a Ha]. rewrite Ha. f_equal. rewrite Nat.add_0_l.
    rewrite (get32_put_words (o + 12) ad _ i a Ha) by (rewrite length_put32, !length_put16; lia).
    apply u32_small. by apply (Forall_lookup_1 _ _ _ _ H7 Ha).
  - rewrite lookup_seq_ge, lookup_ge_None_2 by lia. done.
Qed.

(** Disk inodes at other places keep their values. *)
Lemma dinode_frame o o' x d : (o' + 64 <= o \/ o + 64 <= o')%nat -> length (di_addrs x) = 13%nat ->
  dinode_at o' (put_dinode o x d) = dinode_at o' d.
Proof.
  intros Ho Hx. unfold dinode_at, put_dinode. change (Z.to_nat (NDIRECT + 1)) with 13%nat.
  rewrite !get16_put_words_ne, get32_put_words_ne by (rewrite Hx; lia).
  rewrite !get16_put32_ne, get32_put32_ne, !get32_put16_ne, !get16_put16_ne by lia. f_equal.
  apply list_fmap_ext. intros i k Hk. apply lookup_seq in Hk as [-> Hk].
  rewrite get32_put_words_ne by (rewrite Hx; lia). rewrite get32_put32_ne, !get32_put16_ne by lia. done.
Qed.

(** The inode [ialloc] writes: all zero but for its type. *)
Lemma put_dinode_zero o ty d : (o + 64 <= length d)%nat ->
  put16 o ty (splice o (replicate sizeof_dinode 0) d) = put_dinode o (Dinode ty 0 0 0 0 (replicate 13 0)) d.
Proof.
  intros H. unfold put_dinode. cbn [di_type di_major di_minor di_nlink di_size di_addrs].
  rewrite put_words_zero by (rewrite length_put32, !length_put16; lia).
  rewrite put32_splice by (rewrite !length_put16; lia). rewrite !put16_splice by (rewrite ?length_put16, ?length_splice; cbn; lia).
  rewrite splice_over by (cbn; lia).
  rewrite (splice_snoc o [_; _] [_; _]) by (cbn; lia).
  rewrite (splice_snoc o ([_; _] ++ [_; _]) [_; _]) by (cbn; lia).
  rewrite (splice_snoc o (([_; _] ++ [_; _]) ++ [_; _]) [_; _]) by (cbn; lia).
  rewrite (splice_snoc o ((([_; _] ++ [_; _]) ++ [_; _]) ++ [_; _]) [_; _; _; _]) by (cbn; lia).
  rewrite (splice_snoc o (((([_; _] ++ [_; _]) ++ [_; _]) ++ [_; _]) ++ [_; _; _; _])) by (cbn; lia). done.
Qed.

Lemma dinode_off_range inum : (dinode_off inum + 64 <= Z.to_nat BSIZE)%nat.
Proof.
  unfold dinode_off, sizeof_dinode. fs_const. pose proof (Z.mod_pos_bound inum 8 ltac:(lia)). lia.
Qed.

(** ** The inode cache *)

(** Entry [i] is in use for inode [inum] of device [dev]. *)
Definition caches (il : list inode) (i : nat) (dev inum : Z) : Prop :=
  exists p, il !! i = Some p /\ 0 < i_ref p /\ i_dev p = dev /\ i_inum p = inum.

(** No inode is cached twice; counts are not negative and do not overflow. *)
Record icache_ok (il : list inode) : Prop := {
  ic_ref i p : il !! i = Some p -> 0 <= i_ref p;
  ic_unique i j dev inum : caches il i dev inum -> caches il j dev inum -> i = j }.

Lemma iget_scan_spec dev inum l : forall k e,
  match iget_scan dev inum k l e with
  | (Some i, _) => exists j p, i = (k + j)%nat /\ l !! j = Some p /\ 0 < i_ref p /\ i_dev p = dev /\ i_inum p = inum
  | (None, e') => (forall j p, l !! j = Some p -> 0 < i_ref p -> i_dev p = dev -> i_inum p <> inum) /\
      match e with
      | Some _ => e' = e
      | None => match e' with
                | Some i => exists j p, i = (k + j)%nat /\ l !! j = Some p /\ i_ref p = 0
                | None => forall p, p ∈ l -> i_ref p <> 0
                end
      end
  end.
Proof.
  induction l as [|p l IH]; intros k e; cbn [iget_scan].
  { split; [done|]. destruct e; [done|]. intros p []%not_elem_of_nil. }
  destruct ((0 <? i_ref p) && (i_dev p =? dev) && (i_inum p =? inum)) eqn:C.
  { rewrite !andb_true_iff, Z.ltb_lt, !Z.eqb_eq in C. exists 0%nat, p. cbn. intuition lia. }
  set (e1 := match e with Some _ => e | None => if i_ref p =? 0 then Some k else None end).
  assert (0 < i_ref p -> i_dev p = dev -> i_inum p <> inum) as Hp.
  { intros H1 H2 H3. rewrite (proj2 (Z.ltb_lt _ _) H1), H2, H3, !Z.eqb_refl in C. done. }
  specialize (IH (Datatypes.S k) e1). destruct (iget_scan dev inum (Datatypes.S k) l e1) as [[i|] e'] eqn:E.
  { destruct IH as (j & q & -> & Hq & R). exists (Datatypes.S j), q. split; [lia|done]. }
  destruct IH as [IH1 IH2]. split.
  { intros [|j] q Hq; [by injection Hq as <-|by eapply IH1]. }
  unfold e1 in IH2. destruct e as [e|]; [done|]. destruct (Z.eqb_spec (i_ref p) 0) as [Z|Z].
  { subst e'. exists 0%nat, p. split; [lia|done]. }
  destruct e' as [i|].
  - destruct IH2 as (j & q & -> & Hq & R). exists (Datatypes.S j), q. split; [lia|done].
  - intros q [->|Hq]%elem_of_cons; [done|by apply IH2].
Qed.

(** What [iget] does to the entry it returns. *)
Definition gets_entry (dev inum : Z) (il : list inode) (i : nat) (p' : inode) : Prop :=
  (exists p, il !! i = Some p /\ 0 < i_ref p /\ i_dev p = dev /\ i_inum p = inum /\ p' = set_i_ref (i_ref p + 1) p) \/
  (exists p, il !! i = Some p /\ i_ref p = 0 /\ p' = recycle_inode dev inum p /\ forall j, ~ caches il j dev inum).

Lemma caches_insert_ne il i j p dev inum : i <> j -> caches (<[i := p]> il) j dev inum <-> caches il j dev inum.
Proof. intros N. unfold caches. by rewrite list_lookup_insert_ne. Qed.

Lemma caches_insert il i p dev inum : caches (<[i := p]> il) i dev inum ->
  0 < i_ref p /\ i_dev p = dev /\ i_inum p = inum.
Proof.
  intros (q & Hq & R). destruct (decide (i < length il)%nat) as [Hl|Hl].
  - rewrite list_lookup_insert_eq in Hq by done. by injection Hq as <-.
  - rewrite list_insert_ge, lookup_ge_None_2 in Hq by lia. done.
Qed.

Lemma icache_ok_insert il i p : icache_ok il -> 0 <= i_ref p ->
  (0 < i_ref p -> forall j, caches il j (i_dev p) (i_inum p) -> j = i) -> icache_ok (<[i := p]> il).
Proof.
  intros [I1 I2] Hr Hu. split.
  - intros j q Hq. apply list_lookup_insert_Some in Hq as [(-> & <- & _)|[_ Hq]]; [done|by eapply I1].
  - intros a c dev inum Ha Hc.
    assert (forall j, j <> i -> caches (<[i := p]> il) i dev inum -> caches (<[i := p]> il) j dev inum -> j = i) as X.
    { intros j N H1 H2. apply caches_insert in H1 as (H1 & <- & <-). apply Hu; [done|].
      by apply caches_insert_ne in H2. }
    destruct (decide (a = i)) as [->|Na], (decide (c = i)) as [->|Nc]; [done|symmetry; by apply X|by apply X|].
    rewrite caches_insert_ne in Ha, Hc by done. by eapply I2.
Qed.

Lemma gets_entry_ok dev inum il i p' : icache_ok il -> gets_entry dev inum il i p' ->
  icache_ok (<[i := p']> il) /\ caches (<[i := p']> il) i dev inum.
Proof.
  intros I [(p & Hp & Hr & <- & <- & ->)|(p & Hp & Hr & -> & Hn)]; pose proof (lookup_lt_Some _ _ _ Hp).
  - split.
    + apply icache_ok_insert; [done|cbn; lia|]. cbn. intros _ j Hj. eapply (ic_unique il I); [done|]. by exists p.
    + exists (set_i_ref (i_ref p + 1) p). rewrite list_lookup_insert_eq by done. cbn. split; [done|]. split; [lia|done].
  - split; [|exists (recycle_inode dev inum p); by rewrite list_lookup_insert_eq].
    apply icache_ok_insert; [done|cbn; lia|]. cbn. intros _ j Hj. by destruct (Hn j).
Qed.

Section icache.
Context {S : Type}.
Implicit Types (b : S) (sb : superblock) (il : list inode) (t : thread) (w : list chan).

Lemma iget_runs t b sb il w dev inum :
  icache_ok il -> (forall i p, il !! i = Some p -> i_ref p < 2 ^ 31 - 1) ->
  (exists i p', iget dev inum (Ctx t [] w) (Fs b sb il) = Ret i (Ctx t [] w) (Fs b sb (<[i := p']> il)) /\
     gets_entry dev inum il i p') \/
  (iget dev inum (Ctx t [] w) (Fs b sb il) = Panic "iget: no inodes" /\
     (forall i, ~ caches il i dev inum) /\ forall p, p ∈ il -> 0 < i_ref p).
Proof.
  intros I Hb. unfold iget. mrun. cbn [inodes]. pose proof (iget_scan_spec dev inum il 0 None) as H.
  destruct (iget_scan dev inum 0 il None) as [[i|] e].
  - destruct H as (j & p & -> & Hp & Hr & H1 & H2). cbn [plus] in *. left. exists j, (set_i_ref (i_ref p + 1) p).
    unfold istore. mrun. cbn. rewrite (alter_insert _ _ _ _ Hp).
    rewrite s32_small by (specialize (Hb j p Hp); lia). split; [done|]. left. by exists p.
  - destruct H as [H1 H2]. assert (forall i, ~ caches il i dev inum) as Hn.
    { intros j (p & Hp & Hr & Ed & Ei). by eapply H1. }
    destruct e as [i|].
    + destruct H2 as (j & p & -> & Hp & Hr). cbn [plus] in *. left. exists j, (recycle_inode dev inum p).
      unfold istore. mrun. cbn. rewrite (alter_insert _ _ _ _ Hp). split; [done|]. right. by exists p.
    + right. split; [done|]. split; [done|]. intros p Hp. specialize (H2 p Hp).
      apply list_elem_of_lookup in Hp as [j Hj]. pose proof (ic_ref il I j p Hj). lia.
Qed.

(** C19: [iget] keeps one cache entry per inode.  It returns the entry already in
    use for the inode, counting one more reference, or else recycles a free
    entry with one reference and nothing loaded; no other entry changes and no
    inode is ever cached twice.  It panics only if the inode is not cached and
    every entry is in use. *)
Theorem iget_one_entry_per_inode t b sb il w dev inum :
  icache_ok il -> (forall i p, il !! i = Some p -> i_ref p < 2 ^ 31 - 1) ->
  (exists i p', iget dev inum (Ctx t [] w) (Fs b sb il) = Ret i (Ctx t [] w) (Fs b sb (<[i := p']> il)) /\
     gets_entry dev inum il i p' /\ icache_ok (<[i := p']> il) /\ caches (<[i := p']> il) i dev inum) \/
  (iget dev inum (Ctx t [] w) (Fs b sb il) = Panic "iget: no inodes" /\
     (forall i, ~ caches il i dev inum) /\ forall p, p ∈ il -> 0 < i_ref p).
Proof.
  intros I Hb. destruct (iget_runs t b sb il w dev inum I Hb) as [(i & p' & E & G)|H]; [left|by right].
  exists i, p'. pose proof (gets_entry_ok _ _ _ _ _ I G). tauto.
Qed.

End icache.

Lemma iget_one_entry_per_inode_witness :
  let free := Inode 0 0 0 initsleeplock initsleeplock false 0 0 0 0 0 [] in
  let used := Inode 1 7 2 initsleeplock initsleeplock true 1 0 0 1 32 [] in
  exists i p', iget 1 9 (Ctx (Thread 1 false) [] []) (Fs tt (Superblock 0 0 0 0 0 0 0) [used; free]) =
    Ret i (Ctx (Thread 1 false) [] []) (Fs tt (Superblock 0 0 0 0 0 0 0) (<[i := p']> [used; free])) /\
    caches (<[i := p']> [used; free]) i 1 9.
Proof.
  intros free used.
  destruct (iget_one_entry_per_inode (Thread 1 false) tt (Superblock 0 0 0 0 0 0 0) [used; free] [] 1 9)
    as [(i & p' & E & _ & _ & C)|(_ & _ & H)].
  - split.
    + intros [|[|i]] p Hp; try (injection Hp as <-); cbn; try lia. done.
    + intros [|[|i]] [|[|j]] dev inum (p & Hp & Hr & _) (q & Hq & Hs & _); try done;
        cbn in Hp, Hq; repeat (simplify_eq || (cbn in *; lia)).
  - intros [|[|i]] p Hp; try (injection Hp as <-); cbn; try lia. done.
  - by exists i, p'.
  - specialize (H free). cbn in H. assert (0 < 0); [|lia]. apply H. right. left.
Defined.

(** ** [ilock] and [iupdate] *)

Section copies.
Context {S : Type} {TB : TxBlocks S} {TS : TxStore S}.
Implicit Types (v : txview) (b : S) (sb : superblock) (il : list inode) (w : list chan) (t : thread).

Lemma IBLOCK_range sb n : fs_layout sb -> 0 <= n < sb_ninodes sb ->
  IBLOCK n sb = n / IPB + sb_inodestart sb /\ sb_inodestart sb <= IBLOCK n sb < sb_bmapstart sb.
Proof.
  intros L Hn. pose proof (lay_size sb L). pose proof (lay_inodes sb L). pose proof (lay_bmap sb L).
  pose proof (lay_data sb L). unfold data_start in *. unfold IBLOCK.
  assert (0 <= sb_size sb / BPB) by (apply Z.div_pos; [lia|done]).
  assert (0 <= n / IPB <= sb_ninodes sb / IPB) by (split; [apply Z.div_pos|apply Z.div_le_mono]; fs_const; lia).
  rewrite u32_small; lia.
Qed.

Lemma inode_loggable sb n : fs_layout sb -> 0 <= n < sb_ninodes sb -> loggable (IBLOCK n sb).
Proof.
  intros L Hn. apply (lay_loggable sb L). pose proof (IBLOCK_range sb n L Hn). pose proof (lay_data sb L).
  pose proof (lay_size sb L). assert (0 <= sb_size sb / BPB) by (apply Z.div_pos; [lia|done]).
  unfold data_start in *. lia.
Qed.

Lemma inode_not_held sb v n : fs_layout sb -> holds_data sb v -> 0 <= n < sb_ninodes sb -> IBLOCK n sb ∉ (theld v).*2.
Proof.
  intros L HD Hn Hin. destruct (HD _ Hin) as [Hd _]. pose proof (IBLOCK_range sb n L Hn).
  pose proof (lay_size sb L). assert (0 <= sb_size sb / BPB) by (apply Z.div_pos; [lia|done]).
  unfold data_start in *. lia.
Qed.

(** The disk inode [n] in the blocks. *)
Definition inode_of sb v (n : Z) : dinode := dinode_at (dinode_off n) (tseen v (IBLOCK n sb)).
(** The view with [x] written there. *)
Definition iput_view sb (n : Z) (x : dinode) v : txview :=
  tput (IBLOCK n sb) (put_dinode (dinode_off n) x (tseen v (IBLOCK n sb))) v.

Lemma inode_of_same t sb v b n x : inside t v b -> dinode_ok x -> inode_of sb (iput_view sb n x v) n = x.
Proof.
  intros Hi Hx. unfold inode_of, iput_view. rewrite tput_seen_same. apply dinode_roundtrip; [done|].
  rewrite (tx_length t v b) by done. apply dinode_off_range.
Qed.

Lemma inode_of_other sb v m n x : fs_layout sb -> 0 <= m < sb_ninodes sb -> 0 <= n < sb_ninodes sb -> m <> n ->
  length (di_addrs x) = 13%nat -> inode_of sb (iput_view sb n x v) m = inode_of sb v m.
Proof.
  intros L Hm Hn N Hx. unfold inode_of, iput_view. destruct (decide (IBLOCK m sb = IBLOCK n sb)) as [E|E].
  - rewrite E, tput_seen_same. apply dinode_frame; [|done].
    destruct (IBLOCK_range sb m L Hm) as [E1 _]. destruct (IBLOCK_range sb n L Hn) as [E2 _].
    rewrite E1, E2 in E. unfold dinode_off, sizeof_dinode. fs_const. word_lia.
  - by rewrite tput_seen_other.
Qed.

Lemma iload_runs t b sb il w i p : il !! i = Some p ->
  iload i (Ctx t [] w) (Fs b sb il) = Ret p (Ctx t [] w) (Fs b sb il).
Proof. intros Hp. unfold iload. mstep. cbn [inodes]. by rewrite Hp. Qed.

Lemma iupdate_runs t sb v b il w i p :
  fs_layout sb -> holds_data sb v -> inside t v b -> il !! i = Some p -> i_dev p = 1 -> 0 <= i_inum p < sb_ninodes sb ->
  can_log (IBLOCK (i_inum p) sb) v ->
  exists w' b', iupdate i (Ctx t [] w) (Fs b sb il) = Ret tt (Ctx t [] w') (Fs b' sb il) /\
    inside t (iput_view sb (i_inum p) (dinode_of p) v) b'.
Proof.
  intros L HD Hi Hp Hdev Hn Hc. unfold iupdate. run (iload_runs t b sb il w i p Hp).
  mstep. cbn [fs_sb]. rewrite Hdev.
  destruct (fs_get t v b sb il w (IBLOCK (i_inum p) sb) Hi) as (j & b1 & E1 & E2 & H1 & _);
    [by apply inode_loggable | by apply inode_not_held | destruct Hc; [by left|right; lia] |].
  run E1; run E2.
  destruct (fs_put t v b1 sb il w j (IBLOCK (i_inum p) sb)
    (put_dinode (dinode_off (i_inum p)) (dinode_of p) (tseen v (IBLOCK (i_inum p) sb))) H1)
    as (b2 & b3 & w1 & b4 & R1 & R2 & R3 & H4);
    [by apply inode_loggable | rewrite length_put_dinode; by eapply tx_length | done |].
  run R1; run R2; rewrite R3. by exists w1, b4.
Qed.

Lemma ilock_acquire t b sb il w i p n : il !! i = Some p -> i_lock p = Sleeplock false n ->
  on_lock i acquiresleep (Ctx t [] w) (Fs b sb il) =
  Ret tt (Ctx t [] w) (Fs b sb (<[i := set_i_lock (Sleeplock true (t_pid t)) p]> il)).
Proof.
  intros Hp Hl. unfold on_lock, zoom. cbn. rewrite Hp. cbn [fmap option_fmap option_map default]. rewrite Hl.
  cbn [default from_option id]. rewrite acquiresleep_free by apply not_elem_of_nil. by rewrite (alter_insert _ _ _ _ Hp).
Qed.

Lemma ilock_release t b sb il w i p : il !! i = Some p ->
  on_lock i releasesleep (Ctx t [] w) (Fs b sb il) =
  Ret tt (Ctx t [] (w ++ [Csleeplock (lock_id i)])) (Fs b sb (<[i := set_i_lock initsleeplock p]> il)).
Proof.
  intros Hp. unfold on_lock, zoom. cbn. rewrite releasesleep_runs by apply not_elem_of_nil.
  by rewrite (alter_insert _ _ _ _ Hp).
Qed.

Lemma ilock_holding t b sb il w i p : il !! i = Some p ->
  on_lock i holdingsleep (Ctx t [] w) (Fs b sb il) =
  Ret (locked (i_lock p) && (pid (i_lock p) =? t_pid t)) (Ctx t [] w) (Fs b sb il).
Proof.
  intros Hp. unfold on_lock, zoom. cbn. rewrite Hp. cbn. rewrite holdingsleep_runs by apply not_elem_of_nil.
  rewrite (alter_insert _ _ _ _ Hp). do 2 f_equal. apply list_insert_id. rewrite Hp. by destruct p.
Qed.

(** The entry [ilock] leaves. *)
Definition ilocked (t : thread) sb v (p : inode) : inode :=
  let q := set_i_lock (Sleeplock true (t_pid t)) p in
  if i_valid p then q else load_dinode (inode_of sb v (i_inum p)) q.

Lemma ilock_runs t sb v b il w i p k :
  fs_layout sb -> holds_data sb v -> inside t v b -> il !! i = Some p -> i_lock p = Sleeplock false k ->
  i_dev p = 1 -> 0 <= i_inum p < sb_ninodes sb -> 0 < i_ref p ->
  IBLOCK (i_inum p) sb ∈ logged v \/ (length (theld v) <= credit v)%nat ->
  (exists w' b', ilock (Some i) (Ctx t [] w) (Fs b sb il) = Ret tt (Ctx t [] w') (Fs b' sb (<[i := ilocked t sb v p]> il)) /\
     inside t v b') \/
  (ilock (Some i) (Ctx t [] w) (Fs b sb il) = Panic "ilock: no type" /\
     i_valid p = false /\ di_type (inode_of sb v (i_inum p)) = 0).
Proof.
  intros L HD Hi Hp Hk Hdev Hn Hr Hc. unfold ilock. run (iload_runs t b sb il w i p Hp).
  destruct (Z.ltb_spec (i_ref p) 1); [lia|].
  run (ilock_acquire t b sb il w i p k Hp Hk). unfold ilocked.
  destruct (i_valid p) eqn:V; cbn [negb]; [left; by exists w, b|].
  mstep. cbn [fs_sb]. rewrite Hdev. set (il1 := <[i := set_i_lock _ p]> il).
  destruct (fs_get t v b sb il1 w (IBLOCK (i_inum p) sb) Hi) as (j & b1 & E1 & E2 & H1 & E3);
    [by apply inode_loggable | by apply inode_not_held | done |].
  run E1; run E2. unfold istore. mstep. cbn [blocks fs_sb inodes].
  fold (inode_of sb v (i_inum p)). pose proof (lookup_lt_Some _ _ _ Hp) as Hlt.
  assert (alter (load_dinode (inode_of sb v (i_inum p))) i il1 =
    <[i := load_dinode (inode_of sb v (i_inum p)) (set_i_lock (Sleeplock true (t_pid t)) p)]> il) as ->.
  { unfold il1. erewrite alter_insert by (by apply list_lookup_insert_eq). apply list_insert_insert_eq. }
  match goal with |- context [Fs b1 sb ?l] => destruct (E3 l) as (w' & b2 & E4 & H2) end.
  run E4.
  destruct (Z.eqb_spec (di_type (inode_of sb v (i_inum p))) 0); [by right|left]. by exists w', b2.
Qed.

(** C22: what [iupdate] writes is what a later [ilock] loads.  After [iupdate] of
    an inode, an [ilock] that has to read the disk, whichever entry caches the
    inode by then, gets exactly the type, device numbers, link count, size and
    addresses written; the disk inodes of all other numbers are unchanged. *)
Theorem ilock_loads_iupdate t sb v b il w i p :
  fs_layout sb -> holds_data sb v -> inside t v b ->
  il !! i = Some p -> i_dev p = 1 -> 0 <= i_inum p < sb_ninodes sb -> dinode_ok (dinode_of p) -> i_type p <> 0 ->
  can_log (IBLOCK (i_inum p) sb) v ->
  exists w1 b1 v1,
    iupdate i (Ctx t [] w) (Fs b sb il) = Ret tt (Ctx t [] w1) (Fs b1 sb il) /\ inside t v1 b1 /\
    (forall m, 0 <= m < sb_ninodes sb -> m <> i_inum p -> inode_of sb v1 m = inode_of sb v m) /\
    forall il' j q, il' !! j = Some q ->
      i_dev q = 1 -> i_inum q = i_inum p -> i_valid q = false -> 0 < i_ref q -> i_lock q = initsleeplock ->
      exists w2 b2, ilock (Some j) (Ctx t [] w1) (Fs b1 sb il') = Ret tt (Ctx t [] w2) (Fs b2 sb
        (<[j := load_dinode (dinode_of p) (set_i_lock (Sleeplock true (t_pid t)) q)]> il')).
Proof.
  intros L HD Hi Hp Hdev Hn Hok Hty Hc.
  destruct (iupdate_runs t sb v b il w i p L HD Hi Hp Hdev Hn Hc) as (w1 & b1 & R1 & H1).
  pose proof (inode_of_same t sb v b (i_inum p) _ Hi Hok) as Hsame.
  exists w1, b1, (iput_view sb (i_inum p) (dinode_of p) v). split; [done|]. split; [done|]. split.
  { intros m Hm N. by apply inode_of_other; [..|apply Hok]. }
  intros il' j q Hq Hqd Hqn Hqv Hqr Hql.
  assert (holds_data sb (iput_view sb (i_inum p) (dinode_of p) v)) as HD1.
  { intros m Hm. unfold iput_view in *. rewrite tput_held in Hm. destruct (HD m Hm) as [H2 H3]. split; [done|].
    unfold used in *. rewrite tput_seen_other; [done|]. pose proof (IBLOCK_range sb _ L Hn).
    pose proof (data_start_pos sb L). pose proof (BBLOCK_range sb m L ltac:(lia)). lia. }
  destruct (ilock_runs t sb _ b1 il' w1 j q 0 L HD1 H1 Hq Hql Hqd) as [(w2 & b2 & R2 & _)|(_ & _ & E)].
  - by rewrite Hqn.
  - done.
  - left. rewrite Hqn. apply tput_logged.
  - exists w2, b2. rewrite R2. unfold ilocked. by rewrite Hqv, Hqn, Hsame.
  - by rewrite Hqn, Hsame in E.
Qed.

(** ** [ialloc] *)

Lemma ialloc_loop_runs t sb v b il w type k : forall n,
  fs_layout sb -> holds_data sb v -> inside t v b -> (length (theld v) < credit v)%nat ->
  1 <= n -> sb_ninodes sb <= n + Z.of_nat k -> - 2 ^ 15 <= type < 2 ^ 15 ->
  (forall m, 1 <= m < n -> di_type (inode_of sb v m) <> 0) ->
  (exists m w' b', ialloc_loop k 1 type n (Ctx t [] w) (Fs b sb il) = iget 1 m (Ctx t [] w') (Fs b' sb il) /\
     n <= m < sb_ninodes sb /\ di_type (inode_of sb v m) = 0 /\
     (forall m', 1 <= m' < m -> di_type (inode_of sb v m') <> 0) /\
     inside t (iput_view sb m (Dinode type 0 0 0 0 (replicate 13 0)) v) b') \/
  (ialloc_loop k 1 type n (Ctx t [] w) (Fs b sb il) = Panic "ialloc: no inodes" /\
     forall m, 1 <= m < sb_ninodes sb -> di_type (inode_of sb v m) <> 0).
Proof.
  revert b w. induction k as [|k IH]; intros b w n L HD Hi Hc Hn Hk Hty Hbusy; cbn [ialloc_loop]; mstep; cbn [fs_sb];
    destruct (Z.leb_spec (sb_ninodes sb) n) as [Hle|Hle].
  1, 3: right; split; [done|]; intros m Hm; apply Hbusy; lia.
  - lia.
  - destruct (fs_get t v b sb il w (IBLOCK n sb) Hi) as (j & b1 & E1 & E2 & H1 & E3);
      [apply inode_loggable; done || lia | apply inode_not_held; done || lia | right; lia |].
    run E1; run E2. fold (inode_of sb v n).
    destruct (Z.eqb_spec (di_type (inode_of sb v n)) 0) as [Hz|Hz].
    + left. set (d := put16 _ _ _).
      assert (d = put_dinode (dinode_off n) (Dinode type 0 0 0 0 (replicate 13 0)) (tseen v (IBLOCK n sb))) as Ed.
      { apply put_dinode_zero. rewrite (tx_length t v b) by done. apply dinode_off_range. }
      destruct (fs_put t v b1 sb il w j (IBLOCK n sb) d H1) as (b2 & b3 & w1 & b4 & R1 & R2 & R3 & H4);
        [apply inode_loggable; done || lia | rewrite Ed, length_put_dinode; by eapply tx_length | right; lia |].
      run R1; run R2; run R3.
      exists n, w1, b4. split; [done|]. split; [lia|]. split; [done|]. split; [done|]. by rewrite Ed in H4.
    + destruct (E3 il) as (w' & b2 & R & H2). run R.
      destruct (IH b2 w' (n + 1)) as [H|H]; try done; try lia.
      * intros m Hm. destruct (decide (m = n)) as [->|N]; [done|apply Hbusy; lia].
      * left. destruct H as (m & w2 & b3 & H). exists m, w2, b3. intuition lia.
      * by right.
Qed.

(** [ialloc] takes the first free inode.  It writes an empty inode of the
    given type over the lowest inode, from number 1, whose type on disk is 0,
    leaves every other disk inode as it is, and returns the cache entry [iget]
    gives for that number.  It panics only when no inode is free. *)
Theorem ialloc_takes_first_free t sb v b il w type :
  fs_layout sb -> holds_data sb v -> inside t v b -> (length (theld v) < credit v)%nat -> - 2 ^ 15 <= type < 2 ^ 15 ->
  (exists n w' b' v', ialloc 1 type (Ctx t [] w) (Fs b sb il) = iget 1 n (Ctx t [] w') (Fs b' sb il) /\
     inside t v' b' /\ 1 <= n < sb_ninodes sb /\ di_type (inode_of sb v n) = 0 /\
     (forall m, 1 <= m < n -> di_type (inode_of sb v m) <> 0) /\
     inode_of sb v' n = Dinode type 0 0 0 0 (replicate 13 0) /\
     (forall m, 0 <= m < sb_ninodes sb -> m <> n -> inode_of sb v' m = inode_of sb v m)) \/
  (ialloc 1 type (Ctx t [] w) (Fs b sb il) = Panic "ialloc: no inodes" /\
     forall m, 1 <= m < sb_ninodes sb -> di_type (inode_of sb v m) <> 0).
Proof.
  intros L HD Hi Hc Hty. unfold ialloc. mstep. cbn [fs_sb]. pose proof (lay_ninodes sb L).
  destruct (ialloc_loop_runs t sb v b il w type (Z.to_nat (sb_ninodes sb)) 1) as [H1|H1]; try done; try lia.
  - left. destruct H1 as (n & w' & b' & E & Hn & Hz & Hfirst & Hi'). eexists n, w', b', _.
    split; [done|]. split; [done|]. split; [done|]. split; [done|]. split; [done|]. split.
    + eapply inode_of_same; [done|]. repeat split; cbn -[replicate]; try lia; try done. apply Forall_replicate. lia.
    + intros m Hm N. apply inode_of_other; try done. lia.
  - by right.
Qed.

End copies.
