(* ===== verification/Content.v ===== *)
(** The contents of files in fs.c: [bmap] and the blocks an inode maps, [readi]
    and [writei] as reads and writes of one byte sequence. *)

From stdpp Require Import functions base numbers list strings.
From S2P Require Import Xv6 Prelude Bytes Sleeplock Log Fs Tx Bitmap Inode.

(** ** Room in the log and on the disk *)

(** The blocks of [X] that are not logged yet. *)
Definition missing (X : list Z) (v : txview) : nat := length (filter (fun n => n ∉ logged v) X).

(** Room to log the blocks of [X], [k] others, and two more. *)
Definition room (X : list Z) (k : nat) (v : txview) : Prop :=
  (length (theld v) + missing X v + k + 2 <= credit v)%nat.

Lemma missing_cons_in n X v : n ∈ X -> n ∉ logged v -> (1 <= missing X v)%nat.
Proof.
  intros Hn Hl. unfold missing. assert (n ∈ filter (fun n => n ∉ logged v) X) as H by (by apply list_elem_of_filter).
  destruct (filter _ X); [by apply not_elem_of_nil in H|cbn; lia].
Qed.

Lemma missing_mono X v v' : (forall m, m ∈ logged v -> m ∈ logged v') -> (missing X v' <= missing X v)%nat.
Proof.
  intros H. unfold missing. induction X as [|n X IH]; [done|]. rewrite !filter_cons.
  destruct (decide (n ∉ logged v')), (decide (n ∉ logged v)); cbn; try lia. exfalso. auto.
Qed.

Lemma missing_tput_in n d X v : n ∈ X -> n ∉ logged v -> (missing X (tput n d v) < missing X v)%nat.
Proof.
  intros Hn Hl. unfold missing. induction X as [|m X IH]; [by apply not_elem_of_nil in Hn|]. rewrite !filter_cons.
  pose proof (missing_mono X v (tput n d v) (fun m => tput_keeps n m d v)) as Hm. unfold missing in Hm.
  destruct (decide (m = n)) as [->|N].
  - destruct (decide (n ∉ logged (tput n d v))) as [H|H]; [by destruct H; apply tput_logged|].
    destruct (decide (n ∉ logged v)); [cbn; lia|done].
  - apply elem_of_cons in Hn as [->|Hn]; [done|]. specialize (IH Hn).
    destruct (decide (m ∉ logged (tput n d v))) as [H|H], (decide (m ∉ logged v)) as [H'|H']; cbn; try lia.
    exfalso. by apply H, tput_keeps, dec_stable.
Qed.

Lemma tput_credit_logged n d v : n ∈ logged v -> credit (tput n d v) = credit v.
Proof. intros H. unfold tput, tlog. cbn. by rewrite decide_True. Qed.

Section room.
Implicit Types (X : list Z) (k : nat) (v : txview).

Lemma room_tput_in X k n d v : n ∈ X -> room X k v -> room X k (tput n d v).
Proof.
  unfold room. rewrite tput_held. intros Hn Hr. pose proof (missing_mono X v (tput n d v) (fun m => tput_keeps n m d v)).
  destruct (decide (n ∈ logged v)) as [Hl|Hl]; [rewrite tput_credit_logged by done; lia|].
  pose proof (missing_tput_in n d X v Hn Hl). pose proof (tput_credit n d v). lia.
Qed.

Lemma room_tput_out X k n d v : room X (Datatypes.S k) v -> room X k (tput n d v).
Proof.
  unfold room. rewrite tput_held. intros Hr. pose proof (missing_mono X v (tput n d v) (fun m => tput_keeps n m d v)).
  pose proof (tput_credit n d v). lia.
Qed.

Lemma room_tput_logged X k n d v : n ∈ logged v -> room X k v -> room X k (tput n d v).
Proof.
  unfold room. rewrite tput_held. intros Hl Hr. pose proof (missing_mono X v (tput n d v) (fun m => tput_keeps n m d v)).
  rewrite tput_credit_logged by done. lia.
Qed.

Lemma room_can_log X k n v : room X k v -> can_log n v.
Proof. unfold room. intros Hr. right. lia. Qed.

Lemma room_balloc X k v : room X k v -> (length (theld v) + 2 <= credit v)%nat.
Proof. unfold room. lia. Qed.

Lemma room_le X k k' v : room X k v -> (k' <= k)%nat -> room X k' v.
Proof. unfold room. lia. Qed.

End room.

Lemma tput_thold n d i m v : tput n d (thold i m v) = thold i m (tput n d v).
Proof. unfold tput, tlog, tstore, thold. cbn. by destruct (decide _). Qed.

Lemma allocated_thold sb n i m v : allocated sb n (thold i m v) = thold i m (allocated sb n v).
Proof. unfold allocated. by rewrite !tput_thold. Qed.

Section content.
Context {S : Type} {TB : TxBlocks S} {TS : TxStore S}.
Implicit Types (v : txview) (b : S) (sb : superblock) (il : list inode) (w : list chan) (t : thread) (ad : list Z).

Definition nfree sb v : nat := length (filter (fun n => used sb v n = false) (seqZ 0 (sb_size sb))).

Lemma nfree_allocated t sb v b n : fs_layout sb -> inside t v b -> data_start sb <= n < sb_size sb ->
  used sb v n = false -> nfree sb v = Datatypes.S (nfree sb (allocated sb n v)).
Proof.
  intros L Hi Hn Hu. unfold nfree. pose proof (data_start_pos sb L).
  change (Datatypes.S (length ?l)) with (length (n :: l)). apply Permutation_length, NoDup_Permutation.
  - apply NoDup_filter, NoDup_seqZ.
  - apply NoDup_cons. split; [|apply NoDup_filter, NoDup_seqZ].
    intros [Hf _]%list_elem_of_filter. rewrite (allocated_used t sb v L b), Z.eqb_refl in Hf by (done || lia). done.
  - intros m. rewrite elem_of_cons, !list_elem_of_filter, elem_of_seqZ. split.
    + intros [Hm Hr]. destruct (decide (m = n)) as [->|N]; [by left|right]. split; [|done].
      rewrite (allocated_used t sb v L b) by (done || lia). rewrite Hm. by rewrite (proj2 (Z.eqb_neq n m)) by congruence.
    + intros [->|[Hm Hr]]; [split; [done|lia]|]. rewrite (allocated_used t sb v L b) in Hm by (done || lia).
      apply orb_false_iff in Hm as [_ Hm]. done.
Qed.

Lemma balloc_free t sb il v b w :
  fs_layout sb -> meta_used sb v -> holds_data sb v -> inside t v b -> (length (theld v) + 2 <= credit v)%nat ->
  (0 < nfree sb v)%nat ->
  exists n w' b', balloc 1 (Ctx t [] w) (Fs b sb il) = Ret n (Ctx t [] w') (Fs b' sb il) /\
     inside t (allocated sb n v) b' /\ data_start sb <= n < sb_size sb /\ used sb v n = false.
Proof.
  intros L MU HD Hi Hc Hf. destruct (balloc_runs t sb il v L MU HD b w Hi Hc) as [H|[_ H]].
  - destruct H as (n & w' & b' & E & H1 & H2 & H3 & _). by exists n, w', b'.
  - exfalso. unfold nfree in Hf. rewrite filter_drop in Hf; [cbn in Hf; lia|].
    intros m Hm%elem_of_seqZ. rewrite H by lia. done.
Qed.

(** ** The blocks of an inode *)

Definition ind ad : Z := addr_at ad NDIRECT.
(** The block that holds block [bn] of the file, 0 if there is none. *)
Definition blk v ad (bn : Z) : Z :=
  if bn <? NDIRECT then addr_at ad bn
  else if ind ad =? 0 then 0 else get32 (tseen v (ind ad)) (4 * Z.to_nat (bn - NDIRECT)).

(** [n] is a data block in use. *)
Definition in_data sb v (n : Z) : Prop := data_start sb <= n < sb_size sb /\ used sb v n = true.

(** The blocks of a file are data blocks in use, all different. *)
Record mapped sb v ad : Prop := {
  mp_len : length ad = 13%nat;
  mp_ind : ind ad <> 0 -> in_data sb v (ind ad);
  mp_blk bn : 0 <= bn < MAXFILE -> blk v ad bn <> 0 -> in_data sb v (blk v ad bn);
  mp_inj bn bn' : 0 <= bn < MAXFILE -> 0 <= bn' < MAXFILE -> blk v ad bn <> 0 -> blk v ad bn = blk v ad bn' -> bn = bn';
  mp_ne bn : 0 <= bn < MAXFILE -> blk v ad bn <> 0 -> blk v ad bn <> ind ad }.

(** Byte [k] of the file. *)
Definition fbyte v ad (k : Z) : Z :=
  let a := blk v ad (k / BSIZE) in
  if a =? 0 then 0 else byte (tseen v a) (Z.to_nat (k mod BSIZE)).
Definition content v ad (n : Z) : list Z := fbyte v ad <$> seqZ 0 n.

(** [m] belongs to the file. *)
Definition owns v ad (m : Z) : Prop :=
  m <> 0 /\ (m = ind ad \/ exists bn, 0 <= bn < MAXFILE /\ blk v ad bn = m).

(** From [v] and [ad] only the blocks of the file and free blocks changed. *)
Record grows sb v ad v' ad' : Prop := {
  gr_in_data m : in_data sb v m -> in_data sb v' m;
  gr_frame m : in_data sb v m -> ~ owns v ad m -> tseen v' m = tseen v m /\ ~ owns v' ad' m;
  gr_meta m : 0 <= m < sb_bmapstart sb -> tseen v' m = tseen v m;
  gr_meta_used : meta_used sb v -> meta_used sb v';
  gr_held : theld v' = theld v;
  gr_logged m : m ∈ logged v -> m ∈ logged v' }.

Lemma grows_refl sb v ad : grows sb v ad v ad.
Proof. by split. Qed.

Lemma grows_trans sb v1 a1 v2 a2 v3 a3 : grows sb v1 a1 v2 a2 -> grows sb v2 a2 v3 a3 -> grows sb v1 a1 v3 a3.
Proof.
  intros G1 G2. split.
  - intros m Hm. by apply (gr_in_data _ _ _ _ _ G2), (gr_in_data _ _ _ _ _ G1).
  - intros m Hm Ho. destruct (gr_frame _ _ _ _ _ G1 m Hm Ho) as [E1 O1].
    destruct (gr_frame _ _ _ _ _ G2 m (gr_in_data _ _ _ _ _ G1 m Hm) O1) as [E2 O2]. by rewrite E2.
  - intros m Hm. by rewrite (gr_meta _ _ _ _ _ G2), (gr_meta _ _ _ _ _ G1).
  - intros Hm. by apply (gr_meta_used _ _ _ _ _ G2), (gr_meta_used _ _ _ _ _ G1).
  - by rewrite (gr_held _ _ _ _ _ G2), (gr_held _ _ _ _ _ G1).
  - intros m Hm. by apply (gr_logged _ _ _ _ _ G2), (gr_logged _ _ _ _ _ G1).
Qed.

(** ** Adding a block *)

(** Block [bn] of the file is now [a], with nothing lost. *)
Record extends sb v ad v' ad' (bn a : Z) : Prop := {
  ex_mapped : mapped sb v' ad';
  ex_grows : grows sb v ad v' ad';
  ex_blk bn' : 0 <= bn' < MAXFILE -> blk v' ad' bn' = if bn' =? bn then a else blk v ad bn';
  ex_seen bn' : 0 <= bn' < MAXFILE -> blk v ad bn' <> 0 -> tseen v' (blk v ad bn') = tseen v (blk v ad bn');
  ex_zero : a <> 0 -> blk v ad bn = 0 -> tseen v' a = replicate (Z.to_nat BSIZE) 0 }.

Lemma extends_refl sb v ad bn : mapped sb v ad -> extends sb v ad v ad bn (blk v ad bn).
Proof.
  intros M. split; [done|apply grows_refl| |done|congruence]. intros bn' _. by destruct (Z.eqb_spec bn' bn) as [->|].
Qed.

(** The indirect block first, then the entry. *)
Lemma extends_trans sb v ad v1 ad1 v2 ad2 bn a : 0 <= bn < MAXFILE ->
  extends sb v ad v1 ad1 (-1) 0 -> extends sb v1 ad1 v2 ad2 bn a -> extends sb v ad v2 ad2 bn a.
Proof.
  intros Hbn X1 X2.
  assert (forall bn', 0 <= bn' < MAXFILE -> blk v1 ad1 bn' = blk v ad bn') as E1.
  { intros bn' Hb. rewrite (ex_blk _ _ _ _ _ _ _ X1) by done. by destruct (Z.eqb_spec bn' (-1)); [lia|]. }
  split.
  - apply X2.
  - eapply grows_trans; [apply X1|apply X2].
  - intros bn' Hb. rewrite (ex_blk _ _ _ _ _ _ _ X2), E1 by done. done.
  - intros bn' Hb Hn. rewrite <- (ex_seen _ _ _ _ _ _ _ X1) by done.
    rewrite <- E1 in * by done. by apply (ex_seen _ _ _ _ _ _ _ X2).
  - intros Ha H0. apply (ex_zero _ _ _ _ _ _ _ X2); [done|]. by rewrite E1.
Qed.

Lemma fbyte_extends sb v ad v' ad' bn a k : extends sb v ad v' ad' bn a -> blk v ad bn = 0 \/ a = blk v ad bn ->
  0 <= k < MAXFILE * BSIZE -> fbyte v' ad' k = fbyte v ad k.
Proof.
  intros X Hb Hk. assert (0 <= k / BSIZE < MAXFILE) as Hr by (fs_const; word_lia).
  unfold fbyte. rewrite (ex_blk _ _ _ _ _ _ _ X) by done. destruct (Z.eqb_spec (k / BSIZE) bn) as [E|N].
  - rewrite E in *. destruct (decide (blk v ad bn = 0)) as [H0|H0].
    + rewrite H0. destruct (Z.eqb_spec a 0) as [->|Ha]; [done|]. rewrite (ex_zero _ _ _ _ _ _ _ X) by done. cbn.
      unfold byte. rewrite lookup_replicate_2; [done|]. fs_const. pose proof (Z.mod_pos_bound k 512 ltac:(lia)). lia.
    + destruct Hb as [?| ->]; [done|]. by rewrite (ex_seen _ _ _ _ _ _ _ X).
  - destruct (Z.eqb_spec (blk v ad (k / BSIZE)) 0) as [?|H0]; [done|]. by rewrite (ex_seen _ _ _ _ _ _ _ X).
Qed.

(** [n] was no data block in use, and is one now. *)
Definition fresh sb v v' (n : Z) : Prop := ~ in_data sb v n /\ in_data sb v' n.

Lemma in_data_nonzero sb v n : fs_layout sb -> in_data sb v n -> n <> 0.
Proof. intros L [H _]. pose proof (data_start_pos sb L). lia. Qed.

Lemma mapped_ext sb v ad v' ad' bn a :
  fs_layout sb -> mapped sb v ad -> length ad' = 13%nat -> (forall m, in_data sb v m -> in_data sb v' m) ->
  (forall bn', 0 <= bn' < MAXFILE -> blk v' ad' bn' = if bn' =? bn then a else blk v ad bn') ->
  (ind ad' = ind ad \/ fresh sb v v' (ind ad')) -> (a = 0 \/ fresh sb v v' a) -> (a <> 0 -> a <> ind ad') ->
  mapped sb v' ad'.
Proof.
  intros L M Hl Hmono Hblk Hind Ha Hne. split; [done|..].
  - intros H0. destruct Hind as [E|[_ H]]; [|done]. rewrite E in *. by apply Hmono, M.
  - intros bn' Hb. rewrite Hblk by done. destruct (Z.eqb_spec bn' bn).
    + intros H0. destruct Ha as [?|[_ ?]]; done.
    + intros H0. by apply Hmono, M.
  - intros x y Hx Hy. rewrite !Hblk by done. destruct (Z.eqb_spec x bn) as [->|Nx], (Z.eqb_spec y bn) as [->|Ny]; try done.
    + intros H0 E. exfalso. destruct Ha as [?|[Hf _]]; [done|]. apply Hf. rewrite E. apply M; [done|congruence].
    + intros H0 E. exfalso. destruct Ha as [?|[Hf _]]; [congruence|]. apply Hf. rewrite <- E. by apply M.
    + by apply M.
  - intros bn' Hb. rewrite Hblk by done. destruct (Z.eqb_spec bn' bn) as [->|N]; [done|]. intros H0.
    destruct Hind as [E|[Hf _]]; [rewrite E; by apply M|]. intros E. apply Hf. rewrite <- E. by apply M.
Qed.

Lemma owns_ext sb v ad v' ad' bn a m :
  (forall bn', 0 <= bn' < MAXFILE -> blk v' ad' bn' = if bn' =? bn then a else blk v ad bn') ->
  (ind ad' = ind ad \/ fresh sb v v' (ind ad')) -> (a = 0 \/ fresh sb v v' a) ->
  owns v' ad' m -> owns v ad m \/ ~ in_data sb v m.
Proof.
  intros Hblk Hind Ha [H0 [->|(bn' & Hb & <-)]].
  - destruct Hind as [E|[Hf _]]; [|by right]. left. split; [done|]. by left.
  - rewrite Hblk in * by done. destruct (bn' =? bn).
    + destruct Ha as [?|[Hf _]]; [done|by right].
    + left. split; [done|]. right. by exists bn'.
Qed.

(** *** The view after [balloc] of [n] *)

Section alloc.
Variables (t : thread) (sb : superblock) (v : txview) (b : S) (n : Z).
Hypotheses (L : fs_layout sb) (Hi : inside t v b) (Hn : data_start sb <= n < sb_size sb) (Hu : used sb v n = false).

Lemma alloc_seen m : m <> n -> m < sb_bmapstart sb \/ data_start sb <= m -> tseen (allocated sb n v) m = tseen v m.
Proof.
  intros N Hm. unfold allocated. pose proof (data_start_pos sb L). pose proof (BBLOCK_range sb n L ltac:(lia)).
  rewrite !tput_seen_other by lia. done.
Qed.

Lemma alloc_in_data m : in_data sb v m -> in_data sb (allocated sb n v) m.
Proof.
  intros [Hr Hm]. pose proof (data_start_pos sb L). split; [done|].
  rewrite (allocated_used t sb v L b) by (done || lia). rewrite Hm. apply orb_true_r.
Qed.

Lemma alloc_fresh : fresh sb v (allocated sb n v) n.
Proof.
  pose proof (data_start_pos sb L). split; [intros [_ ?]; congruence|]. split; [done|].
  rewrite (allocated_used t sb v L b), Z.eqb_refl by (done || lia). done.
Qed.

Lemma alloc_seen_data m : in_data sb v m -> tseen (allocated sb n v) m = tseen v m.
Proof. intros [Hr Hm]. apply alloc_seen; [congruence|lia]. Qed.

Lemma data_above_bmap : sb_bmapstart sb < data_start sb.
Proof. pose proof (lay_size sb L). assert (0 <= sb_size sb / BPB) by (apply Z.div_pos; [lia|done]). unfold data_start. lia. Qed.

Lemma alloc_seen_meta m : 0 <= m < sb_bmapstart sb -> tseen (allocated sb n v) m = tseen v m.
Proof. intros Hm. pose proof data_above_bmap. apply alloc_seen; lia. Qed.

Lemma alloc_logged m : m ∈ logged v -> m ∈ logged (allocated sb n v).
Proof. intros Hm. by do 2 apply tput_keeps. Qed.

Lemma alloc_blk ad bn : (ind ad <> 0 -> in_data sb v (ind ad)) -> blk (allocated sb n v) ad bn = blk v ad bn.
Proof.
  intros Hind. unfold blk. destruct (bn <? NDIRECT); [done|]. destruct (Z.eqb_spec (ind ad) 0); [done|].
  by rewrite alloc_seen_data by auto.
Qed.

Lemma alloc_grows ad ad' : (forall m, owns (allocated sb n v) ad' m -> owns v ad m \/ ~ in_data sb v m) ->
  grows sb v ad (allocated sb n v) ad'.
Proof.
  intros Ho. split.
  - apply alloc_in_data.
  - intros m Hm Hno. split; [by apply alloc_seen_data|]. intros H. by destruct (Ho m H).
  - apply alloc_seen_meta.
  - by eapply meta_used_allocated.
  - unfold allocated. by rewrite !tput_held.
  - apply alloc_logged.
Qed.

Lemma addr_at_insert ad k x y : 0 <= x < 13 -> 0 <= y < 13 -> length ad = 13%nat ->
  addr_at (<[Z.to_nat x := k]> ad) y = if y =? x then k else addr_at ad y.
Proof.
  intros Hx Hy Hl. unfold addr_at. destruct (Z.eqb_spec y x) as [->|N].
  - by rewrite list_lookup_insert_eq by lia.
  - by rewrite list_lookup_insert_ne by lia.
Qed.

(** A new direct block. *)
Lemma extend_direct ad bn : mapped sb v ad -> 0 <= bn < NDIRECT -> blk v ad bn = 0 ->
  extends sb v ad (allocated sb n v) (<[Z.to_nat bn := n]> ad) bn n.
Proof.
  intros M Hb H0. pose proof (mp_len _ _ _ M) as Hl. pose proof (in_data_nonzero sb _ n L (proj2 alloc_fresh)) as Hn0.
  assert (ind (<[Z.to_nat bn := n]> ad) = ind ad) as Hind.
  { unfold ind. rewrite addr_at_insert by (done || fs_const; lia). fs_const. destruct (Z.eqb_spec 12 bn); [lia|done]. }
  assert (forall bn', 0 <= bn' < MAXFILE ->
    blk (allocated sb n v) (<[Z.to_nat bn := n]> ad) bn' = if bn' =? bn then n else blk v ad bn') as Hblk.
  { intros bn' Hb'. rewrite <- (alloc_blk ad bn') by apply M. unfold blk. rewrite Hind.
    destruct (Z.ltb_spec bn' NDIRECT); [|by destruct (Z.eqb_spec bn' bn); [lia|]].
    rewrite addr_at_insert by (done || fs_const; lia). done. }
  split.
  - eapply mapped_ext with (bn := bn) (a := n); try done; eauto using alloc_in_data, alloc_fresh.
    + by rewrite length_insert.
    + intros _. rewrite Hind. intros E. destruct (decide (ind ad = 0)); [congruence|].
      apply (proj1 alloc_fresh). rewrite E. by apply M.
  - apply alloc_grows. intros m. eapply owns_ext; eauto using alloc_fresh.
  - done.
  - intros bn' Hb' Hnz. by apply alloc_seen_data, M.
  - intros _ _. apply tput_seen_same.
Qed.

Lemma get32_zeros k : get32 (replicate (Z.to_nat BSIZE) 0) k = 0.
Proof.
  assert (forall j, byte (replicate (Z.to_nat BSIZE) 0) j = 0) as H.
  { intros j. unfold byte. destruct (replicate _ 0 !! j) eqn:E; [|done]. by apply lookup_replicate in E as [-> _]. }
  unfold get32. by rewrite !H.
Qed.

(** A new indirect block. *)
Lemma extend_ind ad : mapped sb v ad -> ind ad = 0 ->
  extends sb v ad (allocated sb n v) (<[Z.to_nat NDIRECT := n]> ad) (-1) 0 /\ ind (<[Z.to_nat NDIRECT := n]> ad) = n.
Proof.
  intros M H0. pose proof (mp_len _ _ _ M) as Hl. pose proof (in_data_nonzero sb _ n L (proj2 alloc_fresh)) as Hn0.
  assert (ind (<[Z.to_nat NDIRECT := n]> ad) = n) as Hind.
  { unfold ind. rewrite addr_at_insert by (done || fs_const; lia). by rewrite Z.eqb_refl. }
  assert (forall bn', 0 <= bn' < MAXFILE ->
    blk (allocated sb n v) (<[Z.to_nat NDIRECT := n]> ad) bn' = if bn' =? -1 then 0 else blk v ad bn') as Hblk.
  { intros bn' Hb'. destruct (Z.eqb_spec bn' (-1)); [lia|]. unfold blk. rewrite Hind, H0.
    destruct (Z.ltb_spec bn' NDIRECT).
    - rewrite addr_at_insert by (done || fs_const; lia). destruct (Z.eqb_spec bn' NDIRECT); [lia|done].
    - destruct (Z.eqb_spec n 0); [done|]. unfold allocated. by rewrite tput_seen_same, get32_zeros. }
  split; [|done]. split.
  - eapply mapped_ext with (bn := -1) (a := 0); try done; eauto using alloc_in_data; [by rewrite length_insert|].
    right. rewrite Hind. apply alloc_fresh.
  - apply alloc_grows. intros m. eapply owns_ext; eauto. right. rewrite Hind. apply alloc_fresh.
  - done.
  - intros bn' Hb' Hnz. by apply alloc_seen_data, M.
  - done.
Qed.

(** A new entry of the indirect block. *)
Definition entry_view ad (bn : Z) : txview :=
  tput (ind ad) (put32 (4 * Z.to_nat (bn - NDIRECT)) n (tseen v (ind ad))) (allocated sb n v).

Lemma entry_used ad bn m : mapped sb v ad -> ind ad <> 0 -> 0 <= m < sb_size sb ->
  used sb (entry_view ad bn) m = used sb (allocated sb n v) m.
Proof.
  intros M H0 Hm. unfold used, entry_view. rewrite tput_seen_other; [done|].
  apply data_not_bitmap; [done| |done]. apply M, H0.
Qed.

Lemma extend_entry ad bn : mapped sb v ad -> ind ad <> 0 -> NDIRECT <= bn < MAXFILE -> blk v ad bn = 0 ->
  extends sb v ad (entry_view ad bn) ad bn n.
Proof.
  intros M H0 Hb Hz. pose proof (mp_len _ _ _ M) as Hl. pose proof (in_data_nonzero sb _ n L (proj2 alloc_fresh)) as Hn0.
  pose proof (data_start_pos sb L). pose proof (lay_size sb L). pose proof (mp_ind _ _ _ M H0) as Hid.
  assert (n <> ind ad) as Hni by (intros E; apply (proj1 alloc_fresh); by rewrite E).
  assert (forall m, in_data sb (allocated sb n v) m -> in_data sb (entry_view ad bn) m) as Hmono.
  { intros m [Hr Hm]. split; [done|]. by rewrite entry_used by (done || lia). }
  assert (forall m, in_data sb v m -> m <> ind ad -> tseen (entry_view ad bn) m = tseen v m) as Hseen.
  { intros m Hm N. unfold entry_view. rewrite tput_seen_other by done. by apply alloc_seen_data. }
  assert (fresh sb v (entry_view ad bn) n) as Hf by (split; [apply alloc_fresh|apply Hmono, alloc_fresh]).
  assert (forall bn', 0 <= bn' < MAXFILE -> blk (entry_view ad bn) ad bn' = if bn' =? bn then n else blk v ad bn') as Hblk.
  { intros bn' Hb'. unfold blk. destruct (Z.ltb_spec bn' NDIRECT) as [Hlt|Hge]; [by destruct (Z.eqb_spec bn' bn); [lia|]|].
    rewrite (proj2 (Z.eqb_neq _ _) H0). unfold entry_view. rewrite tput_seen_same. destruct (Z.eqb_spec bn' bn) as [->|N].
    - rewrite get32_put32, u32_small; [done|lia|]. rewrite (tx_length t v b) by done. fs_const. lia.
    - apply get32_put32_ne. lia. }
  split.
  - eapply mapped_ext with (bn := bn) (a := n); try done; eauto using alloc_in_data.
  - split.
    + intros m Hm. by apply Hmono, alloc_in_data.
    + intros m Hm Hno. split.
      * apply Hseen; [done|]. intros ->. apply Hno. split; [done|]. by left.
      * intros H'. destruct (owns_ext sb v ad (entry_view ad bn) ad bn n m Hblk) as [?|?]; eauto.
    + intros m Hm. pose proof data_above_bmap. destruct Hid as [Hid _]. unfold entry_view. rewrite tput_seen_other by lia.
      by apply alloc_seen_meta.
    + intros MU m Hm. pose proof (lay_data sb L). rewrite entry_used by (done || lia).
      by apply (meta_used_allocated t sb v b n).
    + unfold entry_view, allocated. by rewrite !tput_held.
    + intros m Hm. by apply tput_keeps, alloc_logged.
  - done.
  - intros bn' Hb' Hnz. apply Hseen; by apply M.
  - intros _ _. unfold entry_view. rewrite tput_seen_other by done. apply tput_seen_same.
Qed.

End alloc.

(** ** [bmap] *)

(** What is still to be logged or allocated for the indirect block. *)
Definition ind_cost v ad : nat := if decide (ind ad <> 0 /\ ind ad ∈ logged v) then 0 else 1.
Definition ind_free ad : nat := if ind ad =? 0 then 1 else 0.

(** Room in the log and on the disk for [k] more blocks of the file. *)
Definition budget sb (X : list Z) (k : nat) v ad : Prop :=
  room X (k + ind_cost v ad) v /\ (k + ind_free ad <= nfree sb v)%nat.

Lemma ind_cost_0 v ad : ind ad <> 0 -> ind ad ∈ logged v -> ind_cost v ad = 0%nat.
Proof. intros H1 H2. unfold ind_cost. by rewrite decide_True. Qed.

Lemma ind_cost_mono v ad v' : (forall m, m ∈ logged v -> m ∈ logged v') -> (ind_cost v' ad <= ind_cost v ad)%nat.
Proof.
  intros H. unfold ind_cost. destruct (decide (ind ad <> 0 /\ ind ad ∈ logged v)) as [[H1 H2]|].
  - by rewrite decide_True by auto.
  - destruct (decide _); lia.
Qed.

Lemma nfree_same sb v v' : (forall m, 0 <= m < sb_size sb -> used sb v' m = used sb v m) -> nfree sb v' = nfree sb v.
Proof.
  intros H. unfold nfree. rewrite (filter_ext_in _ (fun n => used sb v n = false)); [done|].
  intros m Hm%elem_of_seqZ. rewrite H by lia. done.
Qed.

Lemma set_i_addrs_id p : set_i_addrs (i_addrs p) p = p.
Proof. by destruct p. Qed.

Lemma blk_direct v ad bn : bn < NDIRECT -> blk v ad bn = addr_at ad bn.
Proof. intros H. unfold blk. by rewrite (proj2 (Z.ltb_lt _ _) H). Qed.

Lemma blk_indirect v ad bn : NDIRECT <= bn -> ind ad <> 0 ->
  blk v ad bn = get32 (tseen v (ind ad)) (4 * Z.to_nat (bn - NDIRECT)).
Proof. intros H H0. unfold blk. by rewrite (proj2 (Z.ltb_ge _ _) H), (proj2 (Z.eqb_neq _ _) H0). Qed.

Lemma data_loggable sb v n : fs_layout sb -> in_data sb v n -> loggable n.
Proof.
  intros L [Hr _]. apply (lay_loggable sb L). pose proof (data_above_bmap sb L). pose proof (lay_bmap sb L).
  pose proof (lay_ninodes sb L). assert (0 <= sb_ninodes sb / IPB) by (apply Z.div_pos; [lia|done]). lia.
Qed.

Section bmap.
Variables (t : thread) (sb : superblock) (L : fs_layout sb) (i : nat) (p : inode).
Hypothesis (Hdev : i_dev p = 1).

(** A block the file has. *)
Lemma bmap_mapped v b il w bn :
  inside t v b -> theld v = [] -> il !! i = Some p -> mapped sb v (i_addrs p) ->
  0 <= bn < MAXFILE -> blk v (i_addrs p) bn <> 0 ->
  exists w' b', bmap i bn (Ctx t [] w) (Fs b sb il) = Ret (blk v (i_addrs p) bn) (Ctx t [] w') (Fs b' sb il) /\ inside t v b'.
Proof.
  intros Hi Hh Hp M Hb Hnz. unfold bmap. run (iload_runs t b sb il w i p Hp).
  destruct (Z.ltb_spec bn NDIRECT) as [Hlt|Hge].
  - rewrite blk_direct in * by done. rewrite (proj2 (Z.eqb_neq _ _) Hnz). by exists w, b.
  - assert (ind (i_addrs p) <> 0) as H0.
    { intros E. unfold blk in Hnz. rewrite E, (proj2 (Z.ltb_ge _ _) Hge) in Hnz. done. }
    rewrite blk_indirect in * by done. destruct (Z.ltb_spec (bn - NDIRECT) NINDIRECT); [|fs_const; lia].
    fold (ind (i_addrs p)). rewrite (proj2 (Z.eqb_neq _ _) H0). mstep. rewrite Hdev.
    destruct (fs_get t v b sb il w (ind (i_addrs p)) Hi) as (j & b1 & E1 & E2 & H1 & E3);
      [eapply data_loggable; [done|by apply M] | rewrite Hh; apply not_elem_of_nil | right; rewrite Hh; cbn; lia |].
    run E1; run E2. rewrite (proj2 (Z.eqb_neq _ _) Hnz).
    destruct (E3 il) as (w' & b2 & E4 & H2). run E4. by exists w', b2.
Qed.

Variable X : list Z.
Hypothesis HX : forall n, 0 <= n < sb_size sb -> BBLOCK n sb ∈ X.

Lemma room_allocated k n v : data_start sb <= n < sb_size sb -> room X (Datatypes.S k) v -> room X k (allocated sb n v).
Proof.
  intros Hn Hr. pose proof (data_start_pos sb L). apply room_tput_out, room_tput_in; [apply HX; lia|done].
Qed.

Lemma holds_nothing v : theld v = [] -> holds_data sb v.
Proof. intros Hh n Hn. rewrite Hh in Hn. by apply not_elem_of_nil in Hn. Qed.

(** The first half for an indirect block: the block of addresses is there. *)
Lemma bmap_ind_runs k v b il w :
  meta_used sb v -> inside t v b -> theld v = [] -> il !! i = Some p -> mapped sb v (i_addrs p) ->
  budget sb X (Datatypes.S k) v (i_addrs p) ->
  exists w' b' v' ad',
    (if addr_at (i_addrs p) NDIRECT =? 0 then
       addr <- balloc (i_dev p);;
       istore i (fun p => set_i_addrs (<[Z.to_nat NDIRECT := addr]> (i_addrs p)) p);;
       ret addr
     else ret (addr_at (i_addrs p) NDIRECT)) (Ctx t [] w) (Fs b sb il) =
    Ret (ind ad') (Ctx t [] w') (Fs b' sb (<[i := set_i_addrs ad' p]> il)) /\
    inside t v' b' /\ extends sb v (i_addrs p) v' ad' (-1) 0 /\ ind ad' <> 0 /\ budget sb X (Datatypes.S k) v' ad'.
Proof.
  intros MU Hi Hh Hp M [Hr Hf]. fold (ind (i_addrs p)). destruct (Z.eqb_spec (ind (i_addrs p)) 0) as [H0|H0].
  - assert (ind_cost v (i_addrs p) = 1%nat /\ ind_free (i_addrs p) = 1%nat) as [E1 E2].
    { unfold ind_cost, ind_free. rewrite H0. by rewrite decide_False by tauto. }
    rewrite E1, E2 in *. rewrite Hdev.
    destruct (balloc_free t sb il v b w L MU (holds_nothing v Hh) Hi) as (n & w1 & b1 & R & H1 & Hn & Hu);
      [by eapply room_balloc|lia|].
    run R. unfold istore. mrun. cbn [blocks fs_sb inodes]. rewrite (alter_insert _ _ _ p) by done.
    destruct (extend_ind t sb v b n L Hi Hn Hu (i_addrs p) M H0) as [Hx Hind].
    exists w1, b1, (allocated sb n v), (<[Z.to_nat NDIRECT := n]> (i_addrs p)). rewrite Hind.
    pose proof (data_start_pos sb L). split; [done|]. split; [done|]. split; [done|]. split; [lia|]. split.
    + rewrite ind_cost_0; [|rewrite Hind; lia|rewrite Hind; apply allocated_logged].
      apply room_allocated; [done|]. eapply room_le; [done|lia].
    + rewrite (nfree_allocated t sb v b n L Hi Hn Hu) in Hf. unfold ind_free. rewrite Hind.
      destruct (Z.eqb_spec n 0); lia.
  - exists w, b, v, (i_addrs p). rewrite set_i_addrs_id, list_insert_id by done. split; [done|]. split; [done|].
    split; [|by split]. split; [done|apply grows_refl| |done|done].
    intros bn' Hb. by destruct (Z.eqb_spec bn' (-1)); [lia|].
Qed.

Lemma bmap_runs k v b il w bn :
  meta_used sb v -> inside t v b -> theld v = [] -> il !! i = Some p -> mapped sb v (i_addrs p) ->
  0 <= bn < MAXFILE -> budget sb X (Datatypes.S k) v (i_addrs p) ->
  exists a w' b' v' ad',
    bmap i bn (Ctx t [] w) (Fs b sb il) = Ret a (Ctx t [] w') (Fs b' sb (<[i := set_i_addrs ad' p]> il)) /\
    inside t v' b' /\ extends sb v (i_addrs p) v' ad' bn a /\ a <> 0 /\
    (blk v (i_addrs p) bn = 0 \/ a = blk v (i_addrs p) bn /\ ad' = i_addrs p) /\
    (a ∈ logged v' /\ budget sb X k v' ad' \/ budget sb X (Datatypes.S k) v' ad').
Proof.
  intros MU Hi Hh Hp M Hb Hbud. destruct (decide (blk v (i_addrs p) bn = 0)) as [Hz|Hz]; cycle 1.
  { destruct (bmap_mapped v b il w bn Hi Hh Hp M Hb Hz) as (w' & b' & R & H1).
    exists (blk v (i_addrs p) bn), w', b', v, (i_addrs p). rewrite set_i_addrs_id, list_insert_id by done.
    split; [done|]. split; [done|]. split; [by apply extends_refl|]. split; [done|]. split; by right. }
  pose proof (data_start_pos sb L) as Hds.
  unfold bmap. run (iload_runs t b sb il w i p Hp). destruct (Z.ltb_spec bn NDIRECT) as [Hlt|Hge].
  - rewrite <- (blk_direct v), Hz by done. cbn [Z.eqb]. rewrite Hdev. destruct Hbud as [Hr Hf].
    destruct (balloc_free t sb il v b w L MU (holds_nothing v Hh) Hi) as (n & w1 & b1 & R & H1 & Hn & Hu);
      [by eapply room_balloc|lia|].
    run R. unfold istore. mrun. cbn [blocks fs_sb inodes]. rewrite (alter_insert _ _ _ p) by done.
    pose proof (extend_direct t sb v b n L Hi Hn Hu (i_addrs p) bn M ltac:(lia) Hz) as Hx.
    exists n, w1, b1, (allocated sb n v), (<[Z.to_nat bn := n]> (i_addrs p)).
    split; [done|]. split; [done|]. split; [done|]. split; [lia|]. split; [by left|]. left.
    split; [apply allocated_logged|]. assert (ind (<[Z.to_nat bn := n]> (i_addrs p)) = ind (i_addrs p)) as Hind.
    { unfold ind. rewrite addr_at_insert by (fs_const; lia || apply M). fs_const. by destruct (Z.eqb_spec 12 bn); [lia|]. }
    split.
    + unfold ind_cost. rewrite Hind. fold (ind_cost (allocated sb n v) (i_addrs p)).
      apply room_allocated; [done|]. eapply room_le; [done|].
      pose proof (ind_cost_mono v (i_addrs p) (allocated sb n v) (alloc_logged sb v n)). lia.
    + rewrite (nfree_allocated t sb v b n L Hi Hn Hu) in Hf. unfold ind_free in *. rewrite Hind. lia.
  - destruct (Z.ltb_spec (bn - NDIRECT) NINDIRECT); [|fs_const; lia].
    destruct (bmap_ind_runs k v b il w MU Hi Hh Hp M Hbud) as (w1 & b1 & v1 & ad1 & R1 & H1 & X1 & Hi1 & Hb1).
    run R1. pose proof (ex_mapped _ _ _ _ _ _ _ X1) as M1. pose proof (ex_grows _ _ _ _ _ _ _ X1) as G1.
    assert (theld v1 = []) as Hh1 by (by rewrite (gr_held _ _ _ _ _ G1)).
    assert (blk v1 ad1 bn = 0) as Hz1.
    { rewrite (ex_blk _ _ _ _ _ _ _ X1) by done. by destruct (Z.eqb_spec bn (-1)); [lia|]. }
    set (il1 := <[i := set_i_addrs ad1 p]> il). rewrite Hdev.
    destruct (fs_get t v1 b1 sb il1 w1 (ind ad1) H1) as (j & b2 & E1 & E2 & H2 & _);
      [eapply data_loggable; [done|by apply M1] | rewrite Hh1; apply not_elem_of_nil | right; rewrite Hh1; cbn; lia |].
    run E1; run E2. rewrite <- blk_indirect, Hz1 by done. cbn [Z.eqb]. destruct Hb1 as [Hr1 Hf1].
    pose proof (room_balloc _ _ _ Hr1) as Hcr. rewrite Hh1 in Hcr. cbn in Hcr.
    destruct (balloc_free t sb il1 (thold j (ind ad1) v1) b2 w1 L) as (n & w2 & b3 & R2 & H3 & Hn & Hu); try done.
    { by apply (gr_meta_used _ _ _ _ _ G1). }
    { intros m Hm. cbn in Hm. rewrite Hh1 in Hm. apply list_elem_of_singleton in Hm as ->. by apply M1. }
    { unfold room in Hr1. cbn. rewrite Hh1 in *. cbn in *. lia. }
    { change (nfree sb (thold j (ind ad1) v1)) with (nfree sb v1). lia. }
    run R2. rewrite allocated_thold in H3.
    rewrite (bind_Ret _ _ _ _ _ _ _ (fs_bdata t _ b3 sb il1 w2 j (ind ad1) H3 ltac:(left))).
    change (tseen (thold j (ind ad1) (allocated sb n v1))) with (tseen (allocated sb n v1)).
    rewrite (alloc_seen_data sb v1 n) by (done || by apply M1).
    destruct (fs_put t (allocated sb n v1) b3 sb il1 w2 j (ind ad1)
      (put32 (4 * Z.to_nat (bn - NDIRECT)) n (tseen v1 (ind ad1))) H3) as (b4 & b5 & w3 & b6 & Q1 & Q2 & Q3 & H6).
    { eapply data_loggable; [done|by apply M1]. } { rewrite length_put32. by eapply tx_length. }
    { eapply room_can_log. apply (room_allocated (k + ind_cost v1 ad1)); done. }
    run Q1; run Q2; run Q3. fold (entry_view sb v1 n ad1 bn) in H6.
    pose proof (extend_entry t sb v1 b1 n L H1 Hn Hu ad1 bn M1 Hi1 ltac:(lia) Hz1) as X2.
    exists n, w3, b6, (entry_view sb v1 n ad1 bn), ad1. split; [done|]. split; [done|].
    split; [by eapply extends_trans|]. split; [lia|]. split; [by left|]. left.
    split; [apply tput_keeps, allocated_logged|]. split.
    + rewrite ind_cost_0; [|done|apply tput_logged].
      pose proof (room_allocated (k + ind_cost v1 ad1) n v1 Hn Hr1) as Hr2. unfold ind_cost in Hr2. rewrite Nat.add_0_r.
      destruct (decide _) as [[_ D]|D].
      * apply room_tput_logged; [by apply alloc_logged|]. by rewrite Nat.add_0_r in Hr2.
      * apply room_tput_out. eapply room_le; [done|lia].
    + rewrite (nfree_allocated t sb v1 b1 n L H1 Hn Hu) in Hf1. unfold ind_free in *. rewrite (proj2 (Z.eqb_neq _ _) Hi1) in *.
      rewrite (nfree_same sb (allocated sb n v1)); [lia|]. intros m Hm. by apply entry_used.
Qed.


End bmap.

(** ** [readi] *)

(** Every block below [n] bytes is there. *)
Definition full v ad (n : Z) : Prop := forall bn, 0 <= bn -> bn * BSIZE < n -> blk v ad bn <> 0.

(** A file or directory as the code keeps it. *)
Record file_ok sb v (p : inode) : Prop := {
  fo_dev : i_dev p = 1;
  fo_mapped : mapped sb v (i_addrs p);
  fo_size : 0 <= i_size p <= MAXFILE * BSIZE;
  fo_full : full v (i_addrs p) (i_size p) }.

Lemma fbyte_block v ad off m : 0 <= off -> 0 <= m -> off mod BSIZE + m <= BSIZE -> blk v ad (off / BSIZE) <> 0 ->
  length (tseen v (blk v ad (off / BSIZE))) = Z.to_nat BSIZE ->
  fbyte v ad <$> seqZ off m = slice (Z.to_nat (off mod BSIZE)) (Z.to_nat m) (tseen v (blk v ad (off / BSIZE))).
Proof.
  intros Ho Hm Hr Hb Hl. pose proof (Z.mod_pos_bound off BSIZE ltac:(done)).
  apply list_eq. intros j. rewrite list_lookup_fmap, slice_lookup. destruct (decide (j < Z.to_nat m)%nat) as [Hj|Hj].
  - rewrite lookup_seqZ_lt by lia. cbn. unfold fbyte.
    assert ((off + Z.of_nat j) / BSIZE = off / BSIZE /\ (off + Z.of_nat j) mod BSIZE = off mod BSIZE + Z.of_nat j) as [-> ->]
      by (fs_const; split; word_lia).
    rewrite (proj2 (Z.eqb_neq _ _) Hb). unfold byte.
    replace (Z.to_nat (off mod BSIZE + Z.of_nat j)) with (Z.to_nat (off mod BSIZE) + j)%nat by lia.
    destruct (lookup_lt_is_Some_2 (tseen v (blk v ad (off / BSIZE))) (Z.to_nat (off mod BSIZE) + j)) as [x ->]; [fs_const; lia|done].
  - rewrite lookup_seqZ_ge by lia. done.
Qed.

Lemma slice_content v ad off n size : 0 <= off -> 0 <= n -> off + n <= size ->
  slice (Z.to_nat off) (Z.to_nat n) (content v ad size) = fbyte v ad <$> seqZ off n.
Proof.
  intros Ho Hn Hs. unfold content. apply list_eq. intros j. rewrite slice_lookup, !list_lookup_fmap.
  destruct (decide (j < Z.to_nat n)%nat).
  - rewrite !lookup_seqZ_lt by lia. cbn. do 2 f_equal. lia.
  - by rewrite lookup_seqZ_ge by lia.
Qed.

Section readi.
Context {DV : Devices (fs S)}.
Variables (t : thread) (sb : superblock) (L : fs_layout sb) (i : nat) (p : inode).

Lemma readi_loop_runs v il k : forall b w tot off n,
  inside t v b -> theld v = [] -> il !! i = Some p -> file_ok sb v p ->
  0 <= tot <= n -> 0 <= off -> off + (n - tot) <= i_size p ->
  n <= tot \/ off mod BSIZE + (n - tot) <= Z.of_nat k * BSIZE ->
  exists w' b', readi_loop k i tot off n (Ctx t [] w) (Fs b sb il) =
    Ret (fbyte v (i_addrs p) <$> seqZ off (n - tot)) (Ctx t [] w') (Fs b' sb il) /\ inside t v b'.
Proof.
  induction k as [|k IH]; intros b w tot off n Hi Hh Hp F Ht Ho Hs Hk; cbn [readi_loop];
    destruct (Z.leb_spec n tot); pose proof (Z.mod_pos_bound off BSIZE ltac:(done)).
  1, 3: exists w, b; replace (n - tot) with 0 by lia; done.
  { lia. }
  destruct F as [Hdev M Hsz Hf]. run (iload_runs t b sb il w i p Hp).
  assert (0 <= off / BSIZE < MAXFILE /\ off / BSIZE * BSIZE < i_size p) as [Hbn Hlt] by (fs_const; word_lia).
  pose proof (Hf (off / BSIZE) ltac:(lia) Hlt) as Hnz.
  destruct (bmap_mapped t sb L i p Hdev v b il w (off / BSIZE) Hi Hh Hp M Hbn Hnz) as (w1 & b1 & R1 & H1). run R1. rewrite Hdev.
  destruct (fs_get t v b1 sb il w1 (blk v (i_addrs p) (off / BSIZE)) H1) as (j & b2 & E1 & E2 & H2 & E3);
    [eapply data_loggable; [done|by apply M] | rewrite Hh; apply not_elem_of_nil | right; rewrite Hh; cbn; lia |].
  run E1; run E2. destruct (E3 il) as (w2 & b3 & E4 & H3). run E4. set (m := Z.min _ _).
  assert (0 <= m /\ m <= n - tot /\ off mod BSIZE + m <= BSIZE) as (Hm1 & Hm2 & Hm3) by (fs_const; lia).
  assert (u32 (off + m) = off + m) as -> by (apply u32_small; fs_const; lia).
  destruct (IH b3 w2 (tot + m) (off + m) n) as (w3 & b4 & R2 & H4); try done; try lia.
  { fs_const. destruct (Z.min_spec (n - tot) (512 - off mod 512)) as [[_ E]|[_ E]]; fold m in E; [left; lia|right; word_lia]. }
  run R2. exists w3, b4. split; [|done]. unfold ret. f_equal.
  rewrite <- fbyte_block; [|done..|by eapply tx_length].
  rewrite <- fmap_app. f_equal. replace (n - tot) with (m + (n - (tot + m))) by lia. by rewrite seqZ_app by lia.
Qed.

Lemma readi_runs v b il w off n :
  inside t v b -> theld v = [] -> il !! i = Some p -> file_ok sb v p -> i_type p <> T_DEV ->
  0 <= off <= i_size p -> 0 <= n -> off + n < 2 ^ 32 ->
  exists w' b', readi i off n (Ctx t [] w) (Fs b sb il) =
    Ret (Z.min n (i_size p - off), slice (Z.to_nat off) (Z.to_nat (Z.min n (i_size p - off))) (content v (i_addrs p) (i_size p)))
      (Ctx t [] w') (Fs b' sb il) /\ inside t v b'.
Proof.
  intros Hi Hh Hp F Hty Ho Hn Hon. unfold readi. run (iload_runs t b sb il w i p Hp).
  rewrite (proj2 (Z.eqb_neq _ _) Hty), (u32_small (off + n)) by lia.
  destruct (Z.ltb_spec (i_size p) off); [lia|]. destruct (Z.ltb_spec (off + n) off); [lia|]. cbn [orb].
  assert ((if i_size p <? off + n then i_size p - off else n) = Z.min n (i_size p - off)) as -> by (destruct (Z.ltb_spec (i_size p) (off + n)); lia).
  pose proof (fo_size _ _ _ F).
  destruct (readi_loop_runs v il (Z.to_nat (Z.min n (i_size p - off) / BSIZE + 2)) b w 0 off (Z.min n (i_size p - off)))
    as (w' & b' & R & Hin); try done; try lia.
  { right. pose proof (Z.mod_pos_bound off BSIZE ltac:(done)). rewrite Z2Nat.id by (fs_const; word_lia). fs_const. word_lia. }
  run R. exists w', b'. split; [|done]. unfold ret. rewrite Z.sub_0_r, s32_small by (fs_const; lia).
  by rewrite slice_content by lia.
Qed.

End readi.

(** ** [writei] *)

(** New contents [d] for block [bn] of the file. *)
Section put_block.
Variables (sb : superblock) (L : fs_layout sb) (v : txview) (ad : list Z) (bn : Z) (d : list Z).
Hypotheses (M : mapped sb v ad) (Hbn : 0 <= bn < MAXFILE) (Hnz : blk v ad bn <> 0).

Lemma put_blk bn' : blk (tput (blk v ad bn) d v) ad bn' = blk v ad bn'.
Proof.
  unfold blk at 1 3. destruct (bn' <? NDIRECT); [done|]. destruct (Z.eqb_spec (ind ad) 0); [done|].
  rewrite tput_seen_other; [done|]. pose proof (mp_ne _ _ _ M bn Hbn Hnz). congruence.
Qed.

Lemma put_used m : 0 <= m < sb_size sb -> used sb (tput (blk v ad bn) d v) m = used sb v m.
Proof.
  intros Hm. unfold used. rewrite tput_seen_other; [done|]. apply data_not_bitmap; [done| |done].
  by apply (mp_blk _ _ _ M).
Qed.

Lemma put_in_data m : in_data sb (tput (blk v ad bn) d v) m <-> in_data sb v m.
Proof.
  pose proof (data_start_pos sb L). unfold in_data. split; intros [Hr Hu]; split; try done;
    [rewrite put_used in Hu by lia|rewrite put_used by lia]; done.
Qed.

Lemma put_mapped : mapped sb (tput (blk v ad bn) d v) ad.
Proof.
  split.
  - apply M.
  - intros H0. by apply put_in_data, M.
  - intros bn' Hb. rewrite put_blk. intros H0. by apply put_in_data, M.
  - intros x y Hx Hy. rewrite !put_blk. by apply M.
  - intros bn' Hb. rewrite put_blk. by apply M.
Qed.

Lemma put_owns m : owns (tput (blk v ad bn) d v) ad m <-> owns v ad m.
Proof.
  unfold owns. split; intros [H0 [H|(bn' & Hb & E)]]; (split; [done|]); [by left|right|by left|right];
    exists bn'; [rewrite put_blk in E|rewrite put_blk]; done.
Qed.

Lemma put_grows : grows sb v ad (tput (blk v ad bn) d v) ad.
Proof.
  pose proof (mp_blk _ _ _ M bn Hbn Hnz) as [Hr _]. split.
  - intros m. apply put_in_data.
  - intros m Hm Ho. split; [|by rewrite put_owns]. apply tput_seen_other. intros ->. apply Ho. split; [done|].
    right. by exists bn.
  - intros m Hm. apply tput_seen_other. pose proof (data_above_bmap sb L). lia.
  - intros MU m Hm. pose proof (lay_data sb L). rewrite put_used by lia. by apply MU.
  - apply tput_held.
  - intros m. apply tput_keeps.
Qed.

Lemma put_fbyte k : 0 <= k < MAXFILE * BSIZE ->
  fbyte (tput (blk v ad bn) d v) ad k = if k / BSIZE =? bn then byte d (Z.to_nat (k mod BSIZE)) else fbyte v ad k.
Proof.
  intros Hk. unfold fbyte. rewrite put_blk. destruct (Z.eqb_spec (k / BSIZE) bn) as [->|N].
  - rewrite tput_seen_same. by rewrite (proj2 (Z.eqb_neq _ _) Hnz).
  - destruct (Z.eqb_spec (blk v ad (k / BSIZE)) 0) as [?|H0]; [done|]. rewrite tput_seen_other; [done|].
    intros E. apply N. apply (mp_inj _ _ _ M); [fs_const; word_lia|done|done|done].
Qed.

Lemma put_budget X k : budget sb X k v ad -> blk v ad bn ∈ logged v -> budget sb X k (tput (blk v ad bn) d v) ad.
Proof.
  intros [Hr Hf] Hl. split.
  - apply room_tput_logged; [done|]. eapply room_le; [done|].
    pose proof (ind_cost_mono v ad (tput (blk v ad bn) d v) (fun m => tput_keeps _ m d v)). lia.
  - rewrite (nfree_same sb v); [done|]. apply put_used.
Qed.

Lemma put_budget_new X k : budget sb X (Datatypes.S k) v ad -> budget sb X k (tput (blk v ad bn) d v) ad.
Proof.
  intros [Hr Hf]. split.
  - apply room_tput_out. eapply room_le; [done|].
    pose proof (ind_cost_mono v ad (tput (blk v ad bn) d v) (fun m => tput_keeps _ m d v)). lia.
  - rewrite (nfree_same sb v); [lia|]. apply put_used.
Qed.

End put_block.

Section writei.
Context {DV : Devices (fs S)}.
Variables (t : thread) (sb : superblock) (L : fs_layout sb) (i : nat) (X : list Z).
Hypothesis HX : forall n, 0 <= n < sb_size sb -> BBLOCK n sb ∈ X.

(** The bytes [src] stored at [off]. *)
Definition over (off : Z) (src : list Z) (f : Z -> Z) (k : Z) : Z :=
  if (off <=? k) && (k <? off + Z.of_nat (length src)) then byte src (Z.to_nat (k - off)) else f k.

(** From [v], [ad] to [v'], [ad'] the bytes [src] are stored at [off]. *)
Record wrote v ad v' ad' (off : Z) (src : list Z) : Prop := {
  wr_mapped : mapped sb v' ad';
  wr_grows : grows sb v ad v' ad';
  wr_bytes k : 0 <= k < MAXFILE * BSIZE -> fbyte v' ad' k = over off src (fbyte v ad) k;
  wr_keeps bn : 0 <= bn < MAXFILE -> blk v ad bn <> 0 -> blk v' ad' bn <> 0;
  wr_there k : off <= k < off + Z.of_nat (length src) -> blk v' ad' (k / BSIZE) <> 0;
  wr_addrs : (forall k, off <= k < off + Z.of_nat (length src) -> blk v ad (k / BSIZE) <> 0) -> ad' = ad }.

(** One turn of the loop, on the block that holds offset [off]. *)
Lemma write_block_runs k v b il w p src off m :
  meta_used sb v -> inside t v b -> theld v = [] -> il !! i = Some p -> i_dev p = 1 -> mapped sb v (i_addrs p) ->
  budget sb X (Datatypes.S k) v (i_addrs p) ->
  0 <= off -> off < MAXFILE * BSIZE -> 0 < m -> m <= Z.of_nat (length src) -> off mod BSIZE + m <= BSIZE ->
  exists a w1 b1 j b2 b3 b4 w' b' v' ad',
    bmap i (off / BSIZE) (Ctx t [] w) (Fs b sb il) = Ret a (Ctx t [] w1) (Fs b1 sb (<[i := set_i_addrs ad' p]> il)) /\
    bread 1 a (Ctx t [] w1) (Fs b1 sb (<[i := set_i_addrs ad' p]> il)) = Ret j (Ctx t [] w1) (Fs b2 sb (<[i := set_i_addrs ad' p]> il)) /\
    exists d, bdata j (Ctx t [] w1) (Fs b2 sb (<[i := set_i_addrs ad' p]> il)) = Ret d (Ctx t [] w1) (Fs b2 sb (<[i := set_i_addrs ad' p]> il)) /\
    bstore j (splice (Z.to_nat (off mod BSIZE)) (take (Z.to_nat m) src) d) (Ctx t [] w1) (Fs b2 sb (<[i := set_i_addrs ad' p]> il)) =
      Ret tt (Ctx t [] w1) (Fs b3 sb (<[i := set_i_addrs ad' p]> il)) /\
    log_write j (Ctx t [] w1) (Fs b3 sb (<[i := set_i_addrs ad' p]> il)) = Ret tt (Ctx t [] w1) (Fs b4 sb (<[i := set_i_addrs ad' p]> il)) /\
    brelse j (Ctx t [] w1) (Fs b4 sb (<[i := set_i_addrs ad' p]> il)) = Ret tt (Ctx t [] w') (Fs b' sb (<[i := set_i_addrs ad' p]> il)) /\
    inside t v' b' /\ wrote v (i_addrs p) v' ad' off (take (Z.to_nat m) src) /\ budget sb X k v' ad'.
Proof.
  intros MU Hi Hh Hp Hdev M Hbud Ho Hoff Hm Hms Hmb. set (bn := off / BSIZE).
  assert (0 <= bn < MAXFILE) as Hbn by (unfold bn; fs_const; word_lia).
  destruct (bmap_runs t sb L i p Hdev X HX k v b il w bn MU Hi Hh Hp M Hbn Hbud)
    as (a & w1 & b1 & v1 & ad1 & R1 & H1 & X1 & Ha & Hor & Hb1).
  pose proof (ex_mapped _ _ _ _ _ _ _ X1) as M1. pose proof (ex_grows _ _ _ _ _ _ _ X1) as G1.
  assert (blk v (i_addrs p) bn = 0 \/ a = blk v (i_addrs p) bn) as Hor' by (destruct Hor as [?|[? _]]; auto).
  assert (blk v1 ad1 bn = a) as Eblk by (rewrite (ex_blk _ _ _ _ _ _ _ X1), Z.eqb_refl by done; done).
  assert (theld v1 = []) as Hh1 by (by rewrite (gr_held _ _ _ _ _ G1)).
  assert (in_data sb v1 a) as Had by (rewrite <- Eblk; apply M1; [done|by rewrite Eblk]).
  set (il1 := <[i := set_i_addrs ad1 p]> il).
  destruct (fs_get t v1 b1 sb il1 w1 a H1) as (j & b2 & E1 & E2 & H2 & _);
    [by eapply data_loggable | rewrite Hh1; apply not_elem_of_nil | right; rewrite Hh1; cbn; lia |].
  set (d := splice (Z.to_nat (off mod BSIZE)) (take (Z.to_nat m) src) (tseen v1 a)).
  pose proof (Z.mod_pos_bound off BSIZE ltac:(done)) as Hmod.
  assert (length (take (Z.to_nat m) src) = Z.to_nat m) as Hlt by (rewrite length_take; lia).
  assert (length (tseen v1 a) = Z.to_nat BSIZE) as Hla by (by eapply tx_length).
  assert (length d = Z.to_nat BSIZE) as Hld by (unfold d; rewrite length_splice; [done|rewrite Hlt, Hla; fs_const; lia]).
  destruct (fs_put t v1 b2 sb il1 w1 j a d H2) as (b3 & b4 & w2 & b5 & Q1 & Q2 & Q3 & H5);
    [by eapply data_loggable|done| |].
  { destruct Hb1 as [[Hl _]|[Hr _]]; [by left|by eapply room_can_log]. }
  exists a, w1, b1, j, b2, b3, b4, w2, b5, (tput a d v1), ad1. split; [done|]. split; [done|].
  exists (tseen v1 a). do 5 (split; [done|]). rewrite <- Eblk in *.
  split; [split|].
  - by apply put_mapped.
  - eapply grows_trans; [done|]. by apply put_grows.
  - intros x Hx. rewrite (put_fbyte sb) by done. rewrite Eblk in *.
    unfold over. rewrite Hlt, Z2Nat.id by lia.
    assert (fbyte v1 ad1 x = fbyte v (i_addrs p) x) as Efb by (by eapply fbyte_extends).
    destruct (Z.eqb_spec (x / BSIZE) bn) as [E|N].
    + unfold d. rewrite byte_splice by (rewrite Hlt, Hla; fs_const; lia). rewrite Hlt.
      unfold fbyte in Efb. rewrite E, Eblk, (proj2 (Z.eqb_neq _ _) Ha) in Efb.
      destruct (Z.leb_spec off x), (Z.ltb_spec x (off + m)); cbn [andb]; unfold bn in *; fs_const;
        [rewrite decide_True by word_lia; f_equal; word_lia|rewrite decide_False by word_lia..].
      all: rewrite Efb; unfold fbyte; fs_const; rewrite E; done.
    + destruct (Z.leb_spec off x), (Z.ltb_spec x (off + m)); cbn [andb]; try done. exfalso. apply N. unfold bn. fs_const. word_lia.
  - intros bn' Hb' H0. rewrite (put_blk sb) by done. rewrite (ex_blk _ _ _ _ _ _ _ X1) by done. by destruct (bn' =? bn).
  - rewrite Hlt. intros x Hx. assert (x / BSIZE = bn) as -> by (unfold bn; fs_const; word_lia). by rewrite (put_blk sb).
  - intros Hall. destruct Hor as [H0|[_ ->]]; [|done]. exfalso. apply (Hall off); [rewrite Hlt; lia|done].
  - destruct Hb1 as [[Hl Hb1]|Hb1]; [by apply put_budget|by apply put_budget_new].
Qed.

Lemma wrote_nil v ad off : mapped sb v ad -> wrote v ad v ad off [].
Proof.
  intros M. split; [done|apply grows_refl| |done| |done].
  - intros k Hk. unfold over. cbn [length]. destruct (Z.leb_spec off k), (Z.ltb_spec k (off + Z.of_nat 0)); cbn [andb]; try done. lia.
  - cbn [length]. lia.
Qed.

Lemma wrote_app v ad v1 ad1 v2 ad2 off s1 s2 :
  0 <= off -> off + Z.of_nat (length (s1 ++ s2)) <= MAXFILE * BSIZE ->
  wrote v ad v1 ad1 off s1 -> wrote v1 ad1 v2 ad2 (off + Z.of_nat (length s1)) s2 -> wrote v ad v2 ad2 off (s1 ++ s2).
Proof.
  rewrite length_app. intros Ho Hl [M1 G1 B1 K1 T1 A1] [M2 G2 B2 K2 T2 A2].
  assert (forall k, off <= k < off + Z.of_nat (length s1 + length s2) -> 0 <= k / BSIZE < MAXFILE) as Hr.
  { intros k Hk. fs_const. word_lia. }
  split.
  - done.
  - by eapply grows_trans.
  - intros k Hk. rewrite B2 by done. unfold over. rewrite B1 by done. unfold over. rewrite length_app. unfold byte.
    destruct (Z.leb_spec off k), (Z.ltb_spec k (off + Z.of_nat (length s1))), (Z.leb_spec (off + Z.of_nat (length s1)) k),
      (Z.ltb_spec k (off + Z.of_nat (length s1) + Z.of_nat (length s2))), (Z.ltb_spec k (off + Z.of_nat (length s1 + length s2)));
      cbn [andb]; try done; try lia.
    + by rewrite lookup_app_l by lia.
    + rewrite lookup_app_r by lia. do 2 f_equal. lia.
  - intros bn Hb H0. by apply K2, K1.
  - rewrite length_app. intros k Hk. destruct (decide (k < off + Z.of_nat (length s1))) as [Hlt|Hge].
    + apply K2; [by apply Hr|]. apply T1. lia.
    + apply T2. lia.
  - rewrite length_app. intros Hall. rewrite A2, A1; [done|..].
    + intros k Hk. apply Hall. lia.
    + intros k Hk. apply K1; [apply Hr; lia|]. apply Hall. lia.
Qed.

Lemma set_i_addrs_twice a1 a2 p : set_i_addrs a2 (set_i_addrs a1 p) = set_i_addrs a2 p.
Proof. done. Qed.

Lemma writei_loop_runs k : forall src off v b il w p,
  meta_used sb v -> inside t v b -> theld v = [] -> il !! i = Some p -> i_dev p = 1 -> mapped sb v (i_addrs p) ->
  budget sb X k v (i_addrs p) -> 0 <= off -> off + Z.of_nat (length src) <= MAXFILE * BSIZE ->
  src = [] \/ off mod BSIZE + Z.of_nat (length src) <= Z.of_nat k * BSIZE ->
  exists w' b' v' ad', writei_loop k i src off (Ctx t [] w) (Fs b sb il) =
      Ret (off + Z.of_nat (length src)) (Ctx t [] w') (Fs b' sb (<[i := set_i_addrs ad' p]> il)) /\
    inside t v' b' /\ wrote v (i_addrs p) v' ad' off src /\ room X 0 v'.
Proof.
  induction k as [|k IH]; intros src off v b il w p MU Hi Hh Hp Hdev M Hbud Ho Hs Hk;
    (destruct (decide (src = [])) as [->|Hne];
      [exists w, b, v, (i_addrs p); rewrite set_i_addrs_id, list_insert_id by done; cbn; rewrite Z.add_0_r; split; [done|];
       split; [done|]; split; [by apply wrote_nil|]; destruct Hbud as [Hr _]; eapply room_le; [exact Hr|lia]|]);
    destruct Hk as [?|Hk]; try done; pose proof (Z.mod_pos_bound off BSIZE ltac:(done)) as Hmod;
    assert (1 <= Z.of_nat (length src)) as Hpos by (destruct src; [done|cbn; lia]).
  { cbn in Hk. lia. }
  set (m := Z.min (Z.of_nat (length src)) (BSIZE - off mod BSIZE)).
  assert (0 < m /\ m <= Z.of_nat (length src) /\ off mod BSIZE + m <= BSIZE) as (Hm1 & Hm2 & Hm3) by (fs_const; lia).
  destruct (write_block_runs k v b il w p src off m) as (a & w1 & b1 & j & b2 & b3 & b4 & w2 & b5 & v1 & ad1 & R1 & R2 &
    d & R3 & R4 & R5 & R6 & H1 & W1 & Hb1); try done; [lia|].
  assert (writei_loop (Datatypes.S k) i src off (Ctx t [] w) (Fs b sb il) =
    writei_loop k i (drop (Z.to_nat m) src) (u32 (off + m)) (Ctx t [] w2) (Fs b5 sb (<[i := set_i_addrs ad1 p]> il))) as ->.
  { destruct src as [|c src0]; [done|]. cbn [writei_loop]. run (iload_runs t b sb il w i p Hp). rewrite Hdev.
    run R1; run R2; run R3; run R4; run R5; run R6. done. }
  assert (length (take (Z.to_nat m) src) = Z.to_nat m) as Hlt by (rewrite length_take; lia).
  rewrite u32_small by (fs_const; lia).
  destruct (IH (drop (Z.to_nat m) src) (off + m) v1 b5 (<[i := set_i_addrs ad1 p]> il) w2 (set_i_addrs ad1 p))
    as (w3 & b6 & v2 & ad2 & R & H2 & W2 & Hr2); try done.
  - by apply (gr_meta_used _ _ _ _ _ (wr_grows _ _ _ _ _ _ W1)).
  - by rewrite (gr_held _ _ _ _ _ (wr_grows _ _ _ _ _ _ W1)).
  - apply list_lookup_insert_eq. by eapply lookup_lt_Some.
  - apply W1.
  - lia.
  - rewrite length_drop. lia.
  - rewrite length_drop. destruct (Z.min_spec (Z.of_nat (length src)) (BSIZE - off mod BSIZE)) as [[_ E]|[_ E]]; fold m in E.
    + left. apply nil_length_inv. rewrite length_drop. lia.
    + right. fs_const. word_lia.
  - exists w3, b6, v2, ad2. rewrite set_i_addrs_twice, list_insert_insert_eq, length_drop in R.
    split; [rewrite R; f_equal; lia|]. split; [done|]. split; [|done].
    rewrite <- (take_drop (Z.to_nat m) src). eapply wrote_app; [done|by rewrite take_drop|done|].
    rewrite Hlt, Z2Nat.id by lia. exact W2.
Qed.

(** A change of inode blocks does not concern the files' blocks. *)
Section same_data.
Variables (v v' : txview).
Hypothesis (Hsame : forall m, sb_bmapstart sb <= m -> tseen v' m = tseen v m).

Lemma same_used n : 0 <= n < sb_size sb -> used sb v' n = used sb v n.
Proof. intros Hn. unfold used. rewrite Hsame; [done|]. by apply BBLOCK_range. Qed.

Lemma same_in_data n : in_data sb v n <-> in_data sb v' n.
Proof. pose proof (data_start_pos sb L). unfold in_data. split; intros [H1 H2]; (split; [done|]); [rewrite same_used|rewrite <- same_used]; done || lia. Qed.

Lemma same_blk ad bn : mapped sb v ad -> blk v' ad bn = blk v ad bn.
Proof.
  intros M. unfold blk. destruct (bn <? NDIRECT); [done|]. destruct (Z.eqb_spec (ind ad) 0); [done|].
  rewrite Hsame; [done|]. pose proof (data_above_bmap sb L). pose proof (mp_ind _ _ _ M ltac:(done)) as [? _]. lia.
Qed.

Lemma same_mapped ad : mapped sb v ad -> mapped sb v' ad.
Proof.
  intros M. split.
  - apply M.
  - intros H0. by apply same_in_data, M.
  - intros bn Hb. rewrite same_blk by done. intros H0. by apply same_in_data, M.
  - intros x y Hx Hy. rewrite !same_blk by done. by apply M.
  - intros bn Hb. rewrite same_blk by done. by apply M.
Qed.

Lemma same_fbyte ad k : mapped sb v ad -> 0 <= k < MAXFILE * BSIZE -> fbyte v' ad k = fbyte v ad k.
Proof.
  intros M Hk. unfold fbyte. rewrite same_blk by done. destruct (Z.eqb_spec (blk v ad (k / BSIZE)) 0) as [?|H0]; [done|].
  rewrite Hsame; [done|]. pose proof (data_above_bmap sb L). pose proof (mp_blk _ _ _ M (k / BSIZE)) as [? _]; [fs_const; word_lia|done|lia].
Qed.

Lemma same_owns ad m : mapped sb v ad -> owns v' ad m <-> owns v ad m.
Proof.
  intros M. unfold owns. split; intros [H0 [H|(bn' & Hb & E)]]; (split; [done|]); [by left|right|by left|right];
    exists bn'; [rewrite same_blk in E by done|rewrite same_blk by done]; done.
Qed.

End same_data.

(** A file that shares no block with the one of [ad]. *)
Definition apart v ad (q : inode) : Prop := forall m, owns v (i_addrs q) m -> ~ owns v ad m.

Lemma content_splice off src c size size' (f f' : Z -> Z) :
  c = f <$> seqZ 0 size -> 0 <= off <= size -> size' = Z.max size (off + Z.of_nat (length src)) ->
  (forall k, 0 <= k < size' -> f' k = over off src f k) ->
  f' <$> seqZ 0 size' = splice (Z.to_nat off) src c.
Proof.
  intros -> Ho Hs Hf. apply list_eq. intros j. rewrite list_lookup_fmap. unfold splice.
  assert (length (take (Z.to_nat off) (f <$> seqZ 0 size)) = Z.to_nat off) as Hl
    by (rewrite length_take, length_fmap, length_seqZ; lia).
  destruct (decide (Z.of_nat j < size')) as [Hj|Hj].
  - rewrite lookup_seqZ_lt by lia. cbn. rewrite Hf, Z.add_0_l by lia. unfold over.
    destruct (Z.leb_spec off (Z.of_nat j)), (Z.ltb_spec (Z.of_nat j) (off + Z.of_nat (length src))); cbn [andb].
    + rewrite lookup_app_r, Hl, lookup_app_l by lia. unfold byte.
      destruct (lookup_lt_is_Some_2 src (j - Z.to_nat off)) as [x E]; [lia|]. rewrite E.
      f_equal. replace (Z.to_nat _) with (j - Z.to_nat off)%nat by lia. by rewrite E.
    + rewrite lookup_app_r, Hl, lookup_app_r, lookup_drop, list_lookup_fmap, lookup_seqZ_lt by lia. cbn. do 2 f_equal. lia.
    + rewrite lookup_app_l, lookup_take_lt, list_lookup_fmap, lookup_seqZ_lt by lia. done.
    + rewrite lookup_app_l, lookup_take_lt, list_lookup_fmap, lookup_seqZ_lt by lia. done.
  - rewrite lookup_seqZ_ge, lookup_app_r, Hl, lookup_app_r, lookup_drop, list_lookup_fmap, lookup_seqZ_ge by lia. done.
Qed.

(** What [writei] of [src] at [off] to the file of entry [p] does: the entry
    becomes [p'], with the new contents, and nothing happens to other files. *)
Record written v (p : inode) v' (p' : inode) (off : Z) (src : list Z) : Prop := {
  wn_entry : p' = set_i_size (i_size p') (set_i_addrs (i_addrs p') p);
  wn_size : i_size p' = Z.max (i_size p) (off + Z.of_nat (length src));
  wn_ok : file_ok sb v' p';
  wn_content : content v' (i_addrs p') (i_size p') = splice (Z.to_nat off) src (content v (i_addrs p) (i_size p));
  wn_disk : inode_of sb v (i_inum p) = dinode_of p -> inode_of sb v' (i_inum p) = dinode_of p';
  wn_others n : 0 <= n < sb_ninodes sb -> n <> i_inum p -> inode_of sb v' n = inode_of sb v n;
  wn_files q : file_ok sb v q -> apart v (i_addrs p) q ->
    file_ok sb v' q /\ apart v' (i_addrs p') q /\ content v' (i_addrs q) (i_size q) = content v (i_addrs q) (i_size q);
  wn_meta : meta_used sb v';
  wn_held : theld v' = theld v }.

Lemma grows_file v ad v' ad' q : grows sb v ad v' ad' -> file_ok sb v q -> apart v ad q ->
  (forall bn, blk v' (i_addrs q) bn = blk v (i_addrs q) bn) /\ mapped sb v' (i_addrs q) /\
  (forall k, 0 <= k < MAXFILE * BSIZE -> fbyte v' (i_addrs q) k = fbyte v (i_addrs q) k) /\ apart v' ad' q.
Proof.
  intros G [_ M _ _] A.
  assert (forall m, in_data sb v m -> owns v (i_addrs q) m -> tseen v' m = tseen v m /\ ~ owns v' ad' m) as Hfr.
  { intros m Hm Ho. by apply (gr_frame _ _ _ _ _ G m Hm), A. }
  assert (forall bn, blk v' (i_addrs q) bn = blk v (i_addrs q) bn) as Eb.
  { intros bn. unfold blk. destruct (bn <? NDIRECT); [done|]. destruct (Z.eqb_spec (ind (i_addrs q)) 0) as [?|H0]; [done|].
    rewrite (proj1 (Hfr _ (mp_ind _ _ _ M H0) ltac:(split; [done|by left]))). done. }
  split; [done|]. split; [|split].
  - split.
    + apply M.
    + intros H0. by apply (gr_in_data _ _ _ _ _ G), M.
    + intros bn Hb. rewrite Eb. intros H0. by apply (gr_in_data _ _ _ _ _ G), M.
    + intros x y Hx Hy. rewrite !Eb. by apply M.
    + intros bn Hb. rewrite Eb. by apply M.
  - intros k Hk. assert (0 <= k / BSIZE < MAXFILE) as Hr by (fs_const; word_lia).
    unfold fbyte. rewrite Eb. destruct (Z.eqb_spec (blk v (i_addrs q) (k / BSIZE)) 0) as [?|H0]; [done|].
    rewrite (proj1 (Hfr _ (mp_blk _ _ _ M _ Hr H0) ltac:(split; [done|right; by exists (k / BSIZE)]))). done.
  - intros m [H0 Ho]. assert (owns v (i_addrs q) m) as Ho'.
    { split; [done|]. destruct Ho as [?|(bn & Hb & E)]; [by left|right]. exists bn. by rewrite <- Eb. }
    refine (proj2 (Hfr m _ Ho')). destruct Ho' as [_ [->|(bn & Hb & <-)]]; by apply M.
Qed.

Lemma content_same v v' ad n : n <= MAXFILE * BSIZE -> (forall k, 0 <= k < MAXFILE * BSIZE -> fbyte v' ad k = fbyte v ad k) ->
  content v' ad n = content v ad n.
Proof. intros Hn H. unfold content. apply list_fmap_ext. intros j k Hk%lookup_seqZ. apply H. lia. Qed.

Lemma addrs_range v ad : mapped sb v ad -> Forall (fun a => 0 <= a < 2 ^ 32) ad.
Proof.
  intros M. pose proof (data_start_pos sb L). pose proof (lay_size sb L). apply Forall_lookup. intros j a Ha.
  pose proof (lookup_lt_Some _ _ _ Ha) as Hj. rewrite (mp_len _ _ _ M) in Hj.
  assert (addr_at ad (Z.of_nat j) = a) as E by (unfold addr_at; by rewrite Nat2Z.id, Ha).
  destruct (decide (a = 0)) as [->|Hz]; [lia|]. destruct (decide (Z.of_nat j < NDIRECT)) as [Hlt|Hge].
  - pose proof (mp_blk _ _ _ M (Z.of_nat j)) as Hb. rewrite blk_direct, E in Hb by done.
    destruct Hb as [? _]; [fs_const; lia|done|lia].
  - pose proof (mp_ind _ _ _ M) as Hb. unfold ind in Hb. replace NDIRECT with (Z.of_nat j) in Hb by (fs_const; lia).
    rewrite E in Hb. destruct Hb as [? _]; [done|lia].
Qed.

Lemma full_wrote v ad v' ad' off src size : wrote v ad v' ad' off src -> full v ad size ->
  0 <= off <= size -> off + Z.of_nat (length src) <= MAXFILE * BSIZE -> size <= MAXFILE * BSIZE ->
  full v' ad' (Z.max size (off + Z.of_nat (length src))).
Proof.
  intros W F Ho Hl Hs bn Hb Hbn. destruct (decide (bn * BSIZE < size)) as [Hlt|Hge].
  - apply (wr_keeps _ _ _ _ _ _ W); [fs_const; word_lia|by apply F].
  - pose proof (wr_there _ _ _ _ _ _ W (bn * BSIZE) ltac:(lia)) as H. by rewrite Z.div_mul in H.
Qed.

(** The view and entry after the loop of [writei] satisfy the contract, once the
    size is updated. *)
Lemma wrote_written v p v1 ad1 v2 off src :
  let p' := set_i_size (Z.max (i_size p) (off + Z.of_nat (length src))) (set_i_addrs ad1 p) in
  meta_used sb v -> file_ok sb v p -> 0 <= off <= i_size p -> off + Z.of_nat (length src) <= MAXFILE * BSIZE ->
  wrote v (i_addrs p) v1 ad1 off src ->
  (forall m, sb_bmapstart sb <= m -> tseen v2 m = tseen v1 m) -> theld v2 = theld v1 ->
  (inode_of sb v (i_inum p) = dinode_of p -> inode_of sb v2 (i_inum p) = dinode_of p') ->
  (forall n, 0 <= n < sb_ninodes sb -> n <> i_inum p -> inode_of sb v2 n = inode_of sb v1 n) ->
  written v p v2 p' off src.
Proof.
  intros p' MU F Ho Hl W Hs Hh Hd Hot. pose proof (fo_size _ _ _ F) as Hsz. pose proof (wr_mapped _ _ _ _ _ _ W) as M1.
  pose proof (wr_grows _ _ _ _ _ _ W) as G. split.
  - done.
  - done.
  - split; [apply F| |unfold p'; cbn; lia|].
    + by eapply same_mapped.
    + intros bn Hb Hbn. cbn. rewrite (same_blk v1 v2) by done.
      apply (full_wrote v (i_addrs p) v1 ad1 off src (i_size p)); try done; [apply F|lia].
  - apply (content_splice off src _ (i_size p) _ (fbyte v (i_addrs p))); try done.
    change (i_size p') with (Z.max (i_size p) (off + Z.of_nat (length src))). intros k Hk.
    change (i_addrs p') with ad1. rewrite (same_fbyte v1 v2 Hs ad1 k M1) by lia. apply (wr_bytes _ _ _ _ _ _ W). lia.
  - done.
  - intros n Hn N. rewrite Hot by done. unfold inode_of. rewrite (gr_meta _ _ _ _ _ G); [done|].
    pose proof (IBLOCK_range sb n L Hn). pose proof (lay_inodes sb L). lia.
  - intros q Fq Aq. destruct (grows_file v _ v1 ad1 q G Fq Aq) as (Eb & Mq & Ef & A1). split; [|split].
    + split; [apply Fq|by eapply same_mapped|apply Fq|]. intros bn Hb Hbn. rewrite (same_blk v1 v2), Eb by done. by apply Fq.
    + intros m. rewrite !(same_owns v1 v2) by done. apply A1.
    + apply content_same; [apply Fq|]. intros k Hk. rewrite (same_fbyte v1 v2) by done. by apply Ef.
  - intros m Hm. pose proof (lay_data sb L). rewrite (same_used v1 v2) by (done || lia).
    by apply (gr_meta_used _ _ _ _ _ G).
  - rewrite Hh. by apply (gr_held _ _ _ _ _ G).
Qed.

Lemma iput_view_above n x v m : 0 <= n < sb_ninodes sb -> sb_bmapstart sb <= m -> tseen (iput_view sb n x v) m = tseen v m.
Proof. intros Hn Hm. apply tput_seen_other. pose proof (IBLOCK_range sb n L Hn). lia. Qed.

Lemma set_i_size_id p : set_i_size (i_size p) p = p.
Proof. by destruct p. Qed.

(** A write inside the file changes no address. *)
Lemma wrote_within v p v1 ad1 off src :
  meta_used sb v -> file_ok sb v p -> 0 <= i_inum p < sb_ninodes sb -> 0 <= off ->
  off + Z.of_nat (length src) <= i_size p -> wrote v (i_addrs p) v1 ad1 off src ->
  written v p v1 (set_i_addrs ad1 p) off src.
Proof.
  intros MU F Hn Ho Hl W. pose proof (fo_size _ _ _ F) as Hsz. pose proof (wr_grows _ _ _ _ _ _ W) as G.
  assert (ad1 = i_addrs p) as E.
  { apply (wr_addrs _ _ _ _ _ _ W). intros k Hk. apply (fo_full _ _ _ F); fs_const; word_lia. }
  pose proof (wrote_written v p v1 ad1 v1 off src MU F ltac:(lia) ltac:(lia) W ltac:(done) ltac:(done)) as Hw.
  rewrite Z.max_l in Hw by lia.
  assert (set_i_size (i_size p) (set_i_addrs ad1 p) = set_i_addrs ad1 p) as E2 by (by destruct p).
  cbv zeta in Hw. rewrite E2 in Hw. apply Hw; [|done]. intros Hd. rewrite E, set_i_addrs_id, <- Hd. unfold inode_of.
  rewrite (gr_meta _ _ _ _ _ G); [done|]. pose proof (IBLOCK_range sb _ L Hn). pose proof (lay_inodes sb L). lia.
Qed.

Lemma writei_runs v b il w p src off :
  meta_used sb v -> inside t v b -> theld v = [] -> il !! i = Some p -> file_ok sb v p -> i_type p <> T_DEV ->
  dinode_ok (dinode_of p) -> 0 <= i_inum p < sb_ninodes sb -> IBLOCK (i_inum p) sb ∈ X ->
  0 <= off <= i_size p -> off + Z.of_nat (length src) <= MAXFILE * BSIZE ->
  budget sb X (length src / Z.to_nat BSIZE + 2) v (i_addrs p) ->
  exists w' b' v' p', writei i src off (Ctx t [] w) (Fs b sb il) =
      Ret (Z.of_nat (length src)) (Ctx t [] w') (Fs b' sb (<[i := p']> il)) /\
    inside t v' b' /\ written v p v' p' off src.
Proof.
  intros MU Hi Hh Hp F Hty Hok Hn HnX Ho Hl Hbud. pose proof (fo_size _ _ _ F) as Hsz.
  unfold writei. run (iload_runs t b sb il w i p Hp). rewrite (proj2 (Z.eqb_neq _ _) Hty).
  rewrite (u32_small (off + _)) by (fs_const; lia).
  destruct (Z.ltb_spec (i_size p) off); [lia|]. destruct (Z.ltb_spec (off + Z.of_nat (length src)) off); [lia|]. cbn [orb].
  destruct (Z.ltb_spec (MAXFILE * BSIZE) (off + Z.of_nat (length src))); [lia|].
  replace (Z.to_nat (Z.of_nat (length src) / BSIZE + 2)) with (length src / Z.to_nat BSIZE + 2)%nat.
  2: { rewrite Z2Nat.inj_add, Z2Nat.inj_div, Nat2Z.id by (fs_const; word_lia). done. }
  destruct (writei_loop_runs (length src / Z.to_nat BSIZE + 2) src off v b il w p) as (w1 & b1 & v1 & ad1 & R & Hin & W & Hr);
    try done; [apply F|apply F|lia| |].
  { right. pose proof (Z.mod_pos_bound off BSIZE ltac:(done)). rewrite Nat2Z.inj_add, Nat2Z.inj_div. fs_const. word_lia. }
  run R. pose proof (lookup_lt_Some _ _ _ Hp) as Hlt. set (p1 := set_i_addrs ad1 p).
  assert (<[i := p1]> il !! i = Some p1) as Hp1 by (by apply list_lookup_insert_eq).
  run (iload_runs t b1 sb _ w1 i p1 Hp1). change (i_size p1) with (i_size p).
  pose proof (wr_grows _ _ _ _ _ _ W) as G. rewrite s32_small by (fs_const; lia).
  destruct (Z.ltb_spec 0 (Z.of_nat (length src))), (Z.ltb_spec (i_size p) (off + Z.of_nat (length src))) as [Hgr|Hgr]; cbn [andb].
  2-4: mrun; exists w1, b1, v1, p1; split; [done|]; split; [done|]; apply wrote_within; done || lia.
  unfold istore. do 2 mstep. cbn [blocks fs_sb inodes]. rewrite (alter_insert _ _ _ p1) by done. rewrite list_insert_insert_eq.
  set (p2 := set_i_size (off + Z.of_nat (length src)) p1).
  assert (<[i := p2]> il !! i = Some p2) as Hp2 by (by apply list_lookup_insert_eq).
  assert (dinode_ok (dinode_of p2)) as Hok2.
  { destruct Hok as (O1 & O2 & O3 & O4 & O5 & O6 & O7). repeat split; try apply O1; try apply O2; try apply O3; try apply O4; cbn.
    - lia.
    - fs_const. lia.
    - apply (wr_mapped _ _ _ _ _ _ W).
    - apply (addrs_range v1). apply W. }
  destruct (iupdate_runs t sb v1 b1 (<[i := p2]> il) w1 i p2 L) as (w2 & b2 & R2 & Hin2); try done.
  { apply holds_nothing. rewrite (gr_held _ _ _ _ _ G). done. }
  { apply F. }
  { by eapply room_can_log. }
  run R2. exists w2, b2, (iput_view sb (i_inum p) (dinode_of p2) v1), p2. split; [done|]. split; [done|].
  replace p2 with (set_i_size (Z.max (i_size p) (off + Z.of_nat (length src))) (set_i_addrs ad1 p)) by (unfold p2, p1; f_equal; lia).
  apply (wrote_written v p v1); try done.
  - intros m Hm. by apply iput_view_above.
  - apply tput_held.
  - intros _. replace (set_i_size _ _) with p2 by (unfold p2, p1; f_equal; lia). by eapply inode_of_same.
  - intros n Hn' N. apply inode_of_other; try done. apply (wr_mapped _ _ _ _ _ _ W).
Qed.

End writei.

Section claims.
Context {DV : Devices (fs S)}.

(** [readi] returns the bytes of the file.  Reading [n] bytes at an offset
    inside the file gives as many as there are up to the end, unchanged by the
    block boundaries and by the step from direct to indirect blocks, and leaves
    blocks and inodes alone; an offset past the end or one that wraps around is
    refused. *)
Theorem readi_returns_content t sb v b il w i p off n :
  fs_layout sb -> inside t v b -> theld v = [] -> il !! i = Some p -> file_ok sb v p -> i_type p <> T_DEV ->
  0 <= off < 2 ^ 32 -> 0 <= n < 2 ^ 32 ->
  (i_size p < off \/ 2 ^ 32 <= off + n -> readi i off n (Ctx t [] w) (Fs b sb il) = Ret (-1, []) (Ctx t [] w) (Fs b sb il)) /\
  (off <= i_size p -> off + n < 2 ^ 32 ->
    let m := Z.min n (i_size p - off) in
    exists w' b', readi i off n (Ctx t [] w) (Fs b sb il) =
      Ret (m, slice (Z.to_nat off) (Z.to_nat m) (content v (i_addrs p) (i_size p))) (Ctx t [] w') (Fs b' sb il) /\ inside t v b').
Proof.
  intros L Hi Hh Hp F Hty Ho Hn. split.
  - intros Hbad. unfold readi. run (iload_runs t b sb il w i p Hp). rewrite (proj2 (Z.eqb_neq _ _) Hty).
    assert ((i_size p <? off) || (u32 (off + n) <? off) = true) as ->; [|done].
    rewrite orb_true_iff, !Z.ltb_lt. destruct Hbad as [?|Hw]; [by left|right]. word_lia.
  - intros Hs Hw. apply readi_runs; done || lia.
Qed.

(** C18: [writei] stores its bytes in the file and nowhere else.  A write that
    starts inside the file and fits the largest file succeeds when the log and
    the disk have room: the contents are the old ones with [src] in place at
    [off], extended where [src] goes past the end; the disk inode has the new size
    and addresses; every other disk inode and the contents of every file that
    shares no block with this one are unchanged, and no block gets two owners. *)
Theorem writei_writes_content t sb i X v b il w p src off :
  fs_layout sb -> (forall n, 0 <= n < sb_size sb -> BBLOCK n sb ∈ X) -> IBLOCK (i_inum p) sb ∈ X ->
  meta_used sb v -> inside t v b -> theld v = [] -> il !! i = Some p -> file_ok sb v p -> i_type p <> T_DEV ->
  dinode_ok (dinode_of p) -> 0 <= i_inum p < sb_ninodes sb ->
  0 <= off <= i_size p -> off + Z.of_nat (length src) <= MAXFILE * BSIZE ->
  budget sb X (length src / Z.to_nat BSIZE + 2) v (i_addrs p) ->
  exists w' b' v' p', writei i src off (Ctx t [] w) (Fs b sb il) =
      Ret (Z.of_nat (length src)) (Ctx t [] w') (Fs b' sb (<[i := p']> il)) /\
    inside t v' b' /\ written sb v p v' p' off src.
Proof. intros. by apply (writei_runs t sb) with (X := X). Qed.

(** C3: what [writei] stores, [readi] returns: after a successful write of [src]
    at [off], reading as many bytes at [off] gives [src]. *)
Theorem readi_returns_writei t sb i X v b il w p src off :
  fs_layout sb -> (forall n, 0 <= n < sb_size sb -> BBLOCK n sb ∈ X) -> IBLOCK (i_inum p) sb ∈ X ->
  meta_used sb v -> inside t v b -> theld v = [] -> il !! i = Some p -> file_ok sb v p -> i_type p <> T_DEV ->
  dinode_ok (dinode_of p) -> 0 <= i_inum p < sb_ninodes sb ->
  0 <= off <= i_size p -> off + Z.of_nat (length src) <= MAXFILE * BSIZE ->
  budget sb X (length src / Z.to_nat BSIZE + 2) v (i_addrs p) ->
  exists c1 s1 c2 s2, writei i src off (Ctx t [] w) (Fs b sb il) = Ret (Z.of_nat (length src)) c1 s1 /\
    readi i off (Z.of_nat (length src)) c1 s1 = Ret (Z.of_nat (length src), src) c2 s2.
Proof.
  intros L HX HiX MU Hi Hh Hp F Hty Hok Hn Ho Hl Hb.
  destruct (writei_runs t sb L i X HX v b il w p src off) as (w1 & b1 & v1 & p1 & R1 & H1 & W); try done.
  pose proof (wn_size _ _ _ _ _ _ _ W) as Hsz. pose proof (wn_ok _ _ _ _ _ _ _ W) as F1.
  assert (i_type p1 = i_type p) as Ety by (rewrite (wn_entry _ _ _ _ _ _ _ W); done).
  destruct (readi_runs t sb L i p1 v1 b1 (<[i := p1]> il) w1 off (Z.of_nat (length src))) as (w2 & b2 & R2 & _); try done.
  - by rewrite (wn_held _ _ _ _ _ _ _ W).
  - apply list_lookup_insert_eq. by eapply lookup_lt_Some.
  - by rewrite Ety.
  - lia.
  - lia.
  - fs_const. lia.
  - do 4 eexists. split; [exact R1|]. rewrite R2. rewrite Z.min_l by lia. f_equal.
    rewrite (wn_content _ _ _ _ _ _ _ W), Nat2Z.id. f_equal. unfold slice, splice.
    rewrite drop_app_ge by (rewrite length_take; lia).
    assert (length (content v (i_addrs p) (i_size p)) = Z.to_nat (i_size p)) as Hlc by (unfold content; by rewrite length_fmap, length_seqZ).
    rewrite length_take, Hlc, Nat.min_l by lia. rewrite Nat.sub_diag, drop_0, take_app_length. done.
Qed.

End claims.

End content.
