(* ===== verification/Dir.v ===== *)
(** Directories of fs.c: names as [namecmp] compares them, a directory as the
    list of entries in its file, [dirlookup] and [dirlink] as lookup and insertion
    in that list, and the elements [skipelem] cuts paths into. *)

From stdpp Require Import functions base numbers list strings.
From S2P Require Import Xv6 Prelude Bytes Sleeplock Log Fs Tx Bitmap Inode Content.

#[local] Abbreviation len l := (Z.of_nat (length l)).

(** ** Names *)

(** The string in the first [n] bytes of [l]. *)
Fixpoint cstr (n : nat) (l : list Z) : list Z :=
  match n, l with
  | Datatypes.S n, c :: l => if c =? 0 then [] else c :: cstr n l
  | _, _ => []
  end.

(** A name of a directory entry: at most [DIRSIZ] bytes count. *)
Definition cname (l : list Z) : list Z := cstr DIRSIZ l.

Lemma cstr_byte n l : cstr (Datatypes.S n) l = if byte l 0 =? 0 then [] else byte l 0 :: cstr n (drop 1 l).
Proof. destruct l as [|c l]; [done|]. cbn. by destruct (c =? 0). Qed.

Lemma is_bytes_drop n l : is_bytes l -> is_bytes (drop n l).
Proof. apply Forall_drop. Qed.

Lemma strncmp_eq n : forall p q, is_bytes p -> is_bytes q -> strncmp_bytes p q n = 0 <-> cstr n p = cstr n q.
Proof.
  induction n as [|n IH]; intros p q Hp Hq; [by destruct p, q|].
  rewrite !cstr_byte. cbn [strncmp_bytes]. cbv zeta. pose proof (byte_range p 0 Hp). pose proof (byte_range q 0 Hq).
  destruct (Z.eqb_spec (byte p 0) 0) as [E|E]; cbn [negb andb].
  - rewrite !u8_small by lia. destruct (Z.eqb_spec (byte q 0) 0); split; intros; try lia; done.
  - destruct (Z.eqb_spec (byte p 0) (byte q 0)) as [E2|E2].
    + rewrite <- E2, (proj2 (Z.eqb_neq _ _) E). rewrite IH by (by apply is_bytes_drop).
      split; [by intros -> | by intros [= ->]].
    + rewrite !u8_small by lia. split; [lia|]. destruct (byte q 0 =? 0); [done|]. intros [= ? _]. congruence.
Qed.

Lemma namecmp_eq p q : is_bytes p -> is_bytes q -> namecmp p q = 0 <-> cname p = cname q.
Proof. apply strncmp_eq. Qed.

(** What [strncpy] stores is the same name. *)
Lemma cstr_strncpy n : forall l, cstr n (strncpy_bytes l n) = cstr n l.
Proof.
  induction n as [|n IH]; intros l; [by destruct l|].
  rewrite (cstr_byte n l). cbn [strncpy_bytes]. destruct (Z.eqb_spec (byte l 0) 0) as [E|E].
  - rewrite cstr_byte. done.
  - cbn [cstr]. by rewrite (proj2 (Z.eqb_neq _ _) E), IH.
Qed.

Lemma length_strncpy l n : length (strncpy_bytes l n) = n.
Proof.
  revert l. induction n as [|n IH]; intros l; cbn [strncpy_bytes]; [done|].
  destruct (_ =? 0); [by rewrite length_replicate|]. cbn [length]. by rewrite IH.
Qed.

Lemma is_bytes_strncpy n : forall l, is_bytes l -> is_bytes (strncpy_bytes l n).
Proof.
  induction n as [|n IH]; intros l H; cbn [strncpy_bytes]; [constructor|].
  destruct (_ =? 0); [by apply Forall_replicate|]. constructor; [by apply byte_range|]. by apply IH, is_bytes_drop.
Qed.

(** ** Entries *)

(** Entry [k] of the bytes of a directory: its inode number and its name. *)
Definition dent (c : list Z) (k : nat) : Z * list Z :=
  let d := slice (16 * k) 16 c in (de_inum d, cname (de_name d)).

Definition dents (c : list Z) : list (Z * list Z) := dent c <$> seq 0 (length c / 16).

(** The first entry in use with a name: its index and its inode number. *)
Fixpoint find_name (name : list Z) (es : list (Z * list Z)) : option (nat * Z) :=
  match es with
  | [] => None
  | (n, nm) :: es =>
      if decide (n <> 0 /\ nm = name) then Some (0%nat, n)
      else prod_map Datatypes.S id <$> find_name name es
  end.

(** A new entry goes to the first place not in use, or to the end. *)
Fixpoint add_name (e : Z * list Z) (es : list (Z * list Z)) : list (Z * list Z) :=
  match es with
  | [] => [e]
  | e' :: es => if fst e' =? 0 then e :: es else e' :: add_name e es
  end.

(** The place. *)
Fixpoint free_place (es : list (Z * list Z)) : nat :=
  match es with
  | [] => 0
  | e :: es => if fst e =? 0 then 0 else Datatypes.S (free_place es)
  end.

Lemma add_name_place e es :
  add_name e es = take (free_place es) es ++ e :: drop (Datatypes.S (free_place es)) es.
Proof. induction es as [|e' es IH]; cbn; [done|]. destruct (fst e' =? 0); [done|]. cbn. by rewrite IH. Qed.

Lemma free_place_le es : (free_place es <= length es)%nat.
Proof. induction es as [|e es IH]; cbn; [done|]. destruct (_ =? 0); lia. Qed.

Lemma find_name_skip name e es k n :
  ~ (fst e <> 0 /\ snd e = name) -> find_name name es = Some (k, n) -> find_name name (e :: es) = Some (Datatypes.S k, n).
Proof. destruct e as [m nm]. cbn. intros N ->. by rewrite decide_False. Qed.

(** Linking: the new name is found, the other names are where they were. *)
Lemma find_name_add name n es : n <> 0 -> find_name name es = None ->
  find_name name (add_name (n, name) es) = Some (free_place es, n).
Proof.
  intros Hn. induction es as [|[m nm] es IH]; cbn [add_name find_name free_place fst]; intros H.
  { by rewrite decide_True. }
  destruct (decide (m <> 0 /\ nm = name)) as [D|D]; [done|]. apply fmap_None in H.
  destruct (Z.eqb_spec m 0).
  - cbn [find_name]. by rewrite decide_True.
  - apply find_name_skip; [done|]. by apply IH.
Qed.

Lemma find_name_other name name' n es : name' <> name ->
  find_name name' (add_name (n, name) es) = find_name name' es.
Proof.
  intros N. induction es as [|[m nm] es IH]; cbn [add_name find_name fst].
  { by rewrite decide_False by (intros [_ ?]; congruence). }
  destruct (Z.eqb_spec m 0) as [->|Hm]; cbn [find_name].
  - by rewrite !decide_False by (intros [? ?]; congruence).
  - by rewrite IH.
Qed.

Lemma length_dents c : length (dents c) = (length c / 16)%nat.
Proof. unfold dents. by rewrite length_fmap, length_seq. Qed.

Lemma dents_lookup c k : (k < length c / 16)%nat -> dents c !! k = Some (dent c k).
Proof. intros H. unfold dents. rewrite list_lookup_fmap, lookup_seq_lt by done. done. Qed.

Lemma dents_drop c k : (k < length c / 16)%nat -> drop k (dents c) = dent c k :: drop (Datatypes.S k) (dents c).
Proof. intros H. apply drop_S. by apply dents_lookup. Qed.

(** A store that may go past the end. *)
Lemma splice_lookup_end k src l j : (k <= length l)%nat ->
  splice k src l !! j = if decide (k <= j < k + length src)%nat then src !! (j - k)%nat else l !! j.
Proof.
  intros H. unfold splice. destruct (decide _) as [D|D].
  - rewrite lookup_app_r by (rewrite length_take; lia). rewrite length_take, Nat.min_l by lia.
    by rewrite lookup_app_l by lia.
  - destruct (decide (j < k)%nat).
    + rewrite lookup_app_l by (rewrite length_take; lia). by rewrite lookup_take_lt.
    + rewrite lookup_app_r by (rewrite length_take; lia). rewrite length_take, Nat.min_l by lia.
      rewrite lookup_app_r, lookup_drop by lia. f_equal. lia.
Qed.

(** Entries of a directory with one entry stored. *)
Section store_entry.
Variables (c e : list Z) (k m : nat).
Hypotheses (Hc : length c = (16 * m)%nat) (He : length e = 16%nat) (Hk : (k <= m)%nat).

Lemma length_store_entry : length (splice (16 * k) e c) = (16 * Nat.max m (k + 1))%nat.
Proof. unfold splice. rewrite !length_app, length_take, length_drop. lia. Qed.

Lemma slice_store j : (j < Nat.max m (k + 1))%nat ->
  slice (16 * j) 16 (splice (16 * k) e c) = if decide (j = k) then e else slice (16 * j) 16 c.
Proof.
  intros Hj. apply list_eq. intros x. rewrite slice_lookup. destruct (decide (x < 16)%nat) as [Hx|Hx].
  - rewrite splice_lookup_end by lia. destruct (decide (j = k)) as [->|N].
    + rewrite decide_True by lia. f_equal. lia.
    + rewrite decide_False by lia. rewrite slice_lookup, decide_True by done. done.
  - destruct (decide (j = k)) as [->|N]; [by rewrite lookup_ge_None_2 by lia|].
    by rewrite slice_lookup, decide_False.
Qed.

Lemma dents_store : dents (splice (16 * k) e c) =
  take k (dents c) ++ (de_inum e, cname (de_name e)) :: drop (Datatypes.S k) (dents c).
Proof.
  assert (length c / 16 = m)%nat as E1 by (rewrite Hc; rewrite Nat.mul_comm; by apply Nat.div_mul).
  assert (length (splice (16 * k) e c) / 16 = Nat.max m (k + 1))%nat as E2.
  { rewrite length_store_entry, Nat.mul_comm. by apply Nat.div_mul. }
  apply list_eq. intros j. destruct (decide (j < Nat.max m (k + 1))%nat) as [Hj|Hj].
  - rewrite dents_lookup by lia. unfold dent at 1. rewrite slice_store by done. destruct (decide (j = k)) as [->|N].
    + rewrite lookup_app_r by (rewrite length_take, length_dents; lia).
      rewrite length_take, length_dents, Nat.min_l, Nat.sub_diag by lia. done.
    + destruct (decide (j < k)%nat).
      * rewrite lookup_app_l by (rewrite length_take, length_dents; lia). rewrite lookup_take_lt, dents_lookup by lia. done.
      * rewrite lookup_app_r by (rewrite length_take, length_dents; lia). rewrite length_take, length_dents, Nat.min_l by lia.
        rewrite lookup_cons_ne_0 by lia. rewrite lookup_drop.
        replace (Datatypes.S k + Init.Nat.pred (j - k))%nat with j by lia. by rewrite dents_lookup by lia.
  - rewrite !lookup_ge_None_2; [done| |by rewrite length_dents; lia].
    rewrite length_app, length_take. cbn [length]. rewrite length_drop, length_dents. lia.
Qed.
End store_entry.

Lemma de_inum_bytes n name : 0 <= n < 2 ^ 16 -> de_inum (dirent_bytes n name) = n.
Proof. intros H. unfold de_inum, dirent_bytes, get16, byte. cbn [app lookup list_lookup Nat.add from_option default id]. word_lia. Qed.

Lemma de_name_bytes n name : cname (de_name (dirent_bytes n name)) = cname name.
Proof.
  unfold de_name, dirent_bytes, slice. cbn [app drop]. rewrite drop_0, take_ge by (rewrite length_strncpy; done).
  apply cstr_strncpy.
Qed.

Lemma length_dirent_bytes n name : length (dirent_bytes n name) = 16%nat.
Proof. unfold dirent_bytes. rewrite length_app, length_strncpy. done. Qed.

(** Storing an entry at the free place is [add_name]. *)
Lemma dents_add c m n name : length c = (16 * m)%nat -> 0 <= n < 2 ^ 16 ->
  dents (splice (16 * free_place (dents c)) (dirent_bytes n name) c) = add_name (n, cname name) (dents c).
Proof.
  intros Hc Hn. pose proof (free_place_le (dents c)) as H. rewrite length_dents, Hc, Nat.mul_comm, Nat.div_mul in H by done.
  rewrite (dents_store c _ _ m Hc); [|apply length_dirent_bytes|done].
  by rewrite add_name_place, de_inum_bytes, de_name_bytes.
Qed.

(** ** Paths *)

(** The elements of a path: what lies between slashes. *)
Fixpoint split_path (path : list Z) : list Z * list (list Z) :=
  match path with
  | [] => ([], [])
  | c :: path =>
      let '(e, es) := split_path path in
      if c =? slash then ([], if decide (e = []) then es else e :: es) else (c :: e, es)
  end.
Definition elems (path : list Z) : list (list Z) :=
  let '(e, es) := split_path path in if decide (e = []) then es else e :: es.

Lemma elems_slash path : elems (slash :: path) = elems path.
Proof. unfold elems. cbn. by destruct (split_path path). Qed.

Lemma elems_skip path : elems (skip_slashes path) = elems path.
Proof.
  induction path as [|c path IH]; [done|]. cbn [skip_slashes]. destruct (Z.eqb_spec c slash) as [->|N]; [|done].
  by rewrite elems_slash.
Qed.

Lemma take_elem_spec path : let '(e, r) := take_elem path in
  (slash ∉ e) /\ path = e ++ r /\ (r = [] \/ exists r', r = slash :: r') /\ split_path path = (e, elems r).
Proof.
  induction path as [|c path IH]; cbn [take_elem].
  { split; [apply not_elem_of_nil|]. by split_and!; [|left|]. }
  destruct (Z.eqb_spec c slash) as [->|N].
  - split; [apply not_elem_of_nil|]. split; [done|]. split; [right; by exists path|].
    unfold elems. cbn. by destruct (split_path path).
  - destruct (take_elem path) as [e r]. destruct IH as (H1 & -> & H3 & H4). split.
    + intros [?|?]%elem_of_cons; congruence.
    + split; [done|]. split; [done|]. cbn. rewrite H4. by rewrite (proj2 (Z.eqb_neq _ _) N).
Qed.

Lemma skip_slashes_head path c r : skip_slashes path = c :: r -> c <> slash.
Proof.
  induction path as [|x path IH]; cbn [skip_slashes]; [done|]. destruct (Z.eqb_spec x slash); [done|]. by intros [= <- _].
Qed.

Lemma cstr_nonzero n l : 0 ∉ l -> cstr n l = take n l.
Proof.
  revert l. induction n as [|n IH]; intros [|c l] H; try done. cbn. apply not_elem_of_cons in H as [H0 H].
  rewrite (proj2 (Z.eqb_neq c 0)) by congruence. by rewrite IH.
Qed.

Lemma cstr_stop n l r : 0 ∉ l -> (length l < n)%nat -> cstr n (l ++ 0 :: r) = l.
Proof.
  revert l. induction n as [|n IH]; intros [|c l] H Hl; try (cbn in Hl; lia); [done|]. cbn.
  apply not_elem_of_cons in H as [H0 H]. rewrite (proj2 (Z.eqb_neq c 0)) by congruence. rewrite IH; [done..|]. cbn in Hl. lia.
Qed.

(** [skipelem] cuts off the first element: it fails exactly when there is none,
    and the name it stores is the element, of which 14 bytes count. *)
Theorem skipelem_cuts path name : 0 ∉ path ->
  match skipelem path name with
  | None => elems path = []
  | Some (rest, name') => exists e, elems path = e :: elems rest /\ cname name' = take DIRSIZ e
  end.
Proof.
  intros H0. unfold skipelem. destruct (skip_slashes path) as [|c q] eqn:E.
  - by rewrite <- elems_skip, E.
  - pose proof (skip_slashes_head _ _ _ E) as Hc. pose proof (take_elem_spec (c :: q)) as Ht.
    destruct (take_elem (c :: q)) as [e r]. destruct Ht as (_ & Hq & Hr & Hs). exists e.
    assert (e <> []) as He. { intros ->. cbn in Hq. destruct Hr as [->|[r' ->]]; congruence. }
    rewrite <- elems_skip, E. unfold elems at 1. rewrite Hs, decide_False, elems_skip by done. split; [done|].
    assert (0 ∉ e) as Hz.
    { intros Hin. apply H0. assert (forall l, 0 ∈ skip_slashes l -> 0 ∈ l) as Hsk.
      { induction l as [|x l IHl]; [done|]. cbn [skip_slashes]. destruct (x =? slash); [by right; apply IHl | done]. }
      apply Hsk. rewrite E, Hq. apply elem_of_app. by left. }
    unfold store_name, cname. destruct (Nat.leb_spec DIRSIZ (length e)).
    + rewrite cstr_nonzero; [by rewrite take_take, Nat.min_id|]. by intros ?%subseteq_take.
    + rewrite cstr_stop, take_ge by (done || lia). done.
Qed.

(** ** The code *)

Section dir.
Context {S : Type} {TB : TxBlocks S} {TS : TxStore S} {DV : Devices (fs S)}.

(** A directory as the code keeps it: whole entries of bytes. *)
Record dir_ok sb v (p : inode) : Prop := {
  dk_file : file_ok sb v p;
  dk_type : i_type p = T_DIR;
  dk_whole : i_size p mod 16 = 0;
  dk_bytes : is_bytes (content v (i_addrs p) (i_size p)) }.

(** Its entries. *)
Definition dir_of v (p : inode) : list (Z * list Z) := dents (content v (i_addrs p) (i_size p)).

Section lookup.
Variables (t : thread) (sb : superblock) (L : fs_layout sb) (v : txview) (i : nat) (p : inode) (il : list inode).
Hypotheses (Hh : theld v = []) (Hp : il !! i = Some p) (D : dir_ok sb v p).
Let c := content v (i_addrs p) (i_size p).

Lemma dir_length : length c = Z.to_nat (i_size p) /\ length c = (16 * (length c / 16))%nat /\
  0 <= i_size p <= MAXFILE * BSIZE.
Proof.
  pose proof (fo_size _ _ _ (dk_file _ _ _ D)) as Hs. pose proof (dk_whole _ _ _ D) as Hw.
  assert (length c = Z.to_nat (i_size p)) as E by (unfold c, content; by rewrite length_fmap, length_seqZ).
  split; [done|]. split; [|done]. rewrite E. apply Nat2Z.inj. rewrite Nat2Z.inj_mul, Nat2Z.inj_div, Z2Nat.id by lia.
  change (Z.of_nat 16) with 16. word_lia.
Qed.

(** Reading entry [k]. *)
Lemma read_entry k b w : (k < length c / 16)%nat -> inside t v b ->
  exists w' b', readi i (16 * Z.of_nat k) sizeof_dirent (Ctx t [] w) (Fs b sb il) =
    Ret (16, slice (16 * k) 16 c) (Ctx t [] w') (Fs b' sb il) /\ inside t v b'.
Proof.
  intros Hk Hi. destruct dir_length as (E1 & E2 & Hs).
  destruct (readi_runs t sb L i p v b il w (16 * Z.of_nat k) sizeof_dirent) as (w' & b' & R & Hb); try done.
  - apply D.
  - by rewrite (dk_type _ _ _ D).
  - lia.
  - unfold sizeof_dirent. fs_const. lia.
  - exists w', b'. split; [|done]. rewrite R. unfold sizeof_dirent. rewrite Z.min_l by lia.
    fold c. do 3 f_equal. lia.
Qed.

(** The entry read is the one of the list. *)
Lemma entry_name k name : is_bytes name ->
  namecmp name (de_name (slice (16 * k) 16 c)) = 0 <-> snd (dent c k) = cname name.
Proof.
  intros Hn. rewrite namecmp_eq; [cbn; split; congruence | done|].
  unfold de_name, slice. apply Forall_take, Forall_drop, Forall_take, Forall_drop, D.
Qed.

(** What the search for [name] ends with, from entry [m] on. *)
Definition found (m : nat) (r : option (nat * Z)) : M (fs S) (option (nat * Z)) :=
  match r with
  | None => ret None
  | Some (k, n) => j <- iget 1 n ;; ret (Some (j, 16 * Z.of_nat (m + k)))
  end.

Lemma found_shift m r : found (Datatypes.S m) r = found m (prod_map Datatypes.S id <$> r).
Proof. destruct r as [[k n]|]; [|done]. cbn. by rewrite <- plus_n_Sm. Qed.

Lemma dirlookup_loop_runs name (Hn : is_bytes name) f : forall m b w, (length c / 16 <= m + f)%nat -> inside t v b ->
  (m <= length c / 16)%nat ->
  exists w' b', inside t v b' /\ dirlookup_loop f i name (16 * Z.of_nat m) (Ctx t [] w) (Fs b sb il) =
    found m (find_name (cname name) (drop m (dents c))) (Ctx t [] w') (Fs b' sb il).
Proof.
  destruct dir_length as (E1 & E2 & Hs).
  induction f as [|f IH]; intros m b w Hf Hi Hm; cbn [dirlookup_loop]; run (iload_runs t b sb il w i p Hp);
    destruct (Z.leb_spec (i_size p) (16 * Z.of_nat m)) as [Hle|Hlt].
  1, 3: exists w, b; split; [done|]; rewrite drop_ge by (rewrite length_dents; lia); done.
  { lia. }
  assert (m < length c / 16)%nat as Hlt' by lia.
  destruct (read_entry m b w Hlt' Hi) as (w1 & b1 & R & H1). run R. cbn [fst snd].
  change (16 =? sizeof_dirent) with true. cbn [negb]. rewrite (dents_drop c m Hlt').
  assert (u32 (16 * Z.of_nat m + sizeof_dirent) = 16 * Z.of_nat (Datatypes.S m)) as ->
    by (unfold sizeof_dirent; rewrite u32_small; fs_const; lia).
  destruct (IH (Datatypes.S m) b1 w1) as (w2 & b2 & H2 & R2); [lia | done | lia|].
  pose proof (entry_name m name Hn) as En.
  change (de_inum (slice (16 * m) 16 c)) with (fst (dent c m)). destruct (dent c m) as [n nm]. cbn [find_name fst snd] in *.
  destruct (Z.eqb_spec n 0) as [->|N].
  - rewrite decide_False by (intros [? _]; done). rewrite <- found_shift. by exists w2, b2.
  - destruct (Z.eqb_spec (namecmp name (de_name (slice (16 * m) 16 c))) 0) as [E|E].
    + rewrite decide_True by tauto. exists w1, b1. split; [done|].
      rewrite (fo_dev _ _ _ (dk_file _ _ _ D)). cbn [found]. by rewrite Nat.add_0_r.
    + rewrite decide_False by tauto. rewrite <- found_shift. by exists w2, b2.
Qed.

Lemma dirlookup_runs name b w : is_bytes name -> inside t v b ->
  exists w' b', inside t v b' /\ dirlookup i name (Ctx t [] w) (Fs b sb il) =
    found 0 (find_name (cname name) (dir_of v p)) (Ctx t [] w') (Fs b' sb il).
Proof.
  intros Hn Hi. destruct dir_length as (E1 & E2 & Hs). unfold dirlookup. run (iload_runs t b sb il w i p Hp).
  rewrite (dk_type _ _ _ D). cbn [Z.eqb negb]. change (T_DIR =? T_DIR) with true. cbn [negb].
  apply (dirlookup_loop_runs name Hn _ 0); [|done|lia].
  unfold sizeof_dirent. rewrite E1. apply Nat2Z.inj_le. rewrite Nat2Z.inj_div, Nat2Z.inj_add, !Z2Nat.id by word_lia. lia.
Qed.

(** The search for a free place. *)
Lemma free_dirent_runs f : forall m b w, (length c / 16 <= m + f)%nat -> inside t v b -> (m <= length c / 16)%nat ->
  exists w' b', inside t v b' /\ free_dirent f i (16 * Z.of_nat m) (Ctx t [] w) (Fs b sb il) =
    Ret (16 * Z.of_nat (m + free_place (drop m (dents c)))) (Ctx t [] w') (Fs b' sb il).
Proof.
  destruct dir_length as (E1 & E2 & Hs).
  induction f as [|f IH]; intros m b w Hf Hi Hm; cbn [free_dirent]; run (iload_runs t b sb il w i p Hp);
    destruct (Z.leb_spec (i_size p) (16 * Z.of_nat m)) as [Hle|Hlt].
  1, 3: exists w, b; split; [done|]; rewrite drop_ge by (rewrite length_dents; lia); cbn [free_place]; by rewrite Nat.add_0_r.
  { lia. }
  assert (m < length c / 16)%nat as Hlt' by lia.
  destruct (read_entry m b w Hlt' Hi) as (w1 & b1 & R & H1). run R. cbn [fst snd].
  change (16 =? sizeof_dirent) with true. cbn [negb]. rewrite (dents_drop c m Hlt'). cbn [free_place].
  change (fst (dent c m)) with (de_inum (slice (16 * m) 16 c)).
  destruct (_ =? 0); [exists w1, b1; split; [done|]; by rewrite Nat.add_0_r|].
  assert (s32 (16 * Z.of_nat m + sizeof_dirent) = 16 * Z.of_nat (Datatypes.S m)) as ->
    by (unfold sizeof_dirent; rewrite s32_small; fs_const; lia).
  destruct (IH (Datatypes.S m) b1 w1) as (w2 & b2 & H2 & R2); [lia | done | lia|].
  exists w2, b2. split; [done|]. rewrite R2. do 2 f_equal. lia.
Qed.
End lookup.

Section link.
Variables (t : thread) (sb : superblock) (L : fs_layout sb) (X : list Z).
Hypothesis (HX : forall n, 0 <= n < sb_size sb -> BBLOCK n sb ∈ X).

Lemma dirlink_runs i v b il w p name n :
  IBLOCK (i_inum p) sb ∈ X -> meta_used sb v -> inside t v b -> theld v = [] -> il !! i = Some p -> dir_ok sb v p ->
  dinode_ok (dinode_of p) -> 0 <= i_inum p < sb_ninodes sb -> i_size p + 16 <= MAXFILE * BSIZE ->
  budget sb X 2 v (i_addrs p) -> is_bytes name -> 0 < n < 2 ^ 16 -> find_name (cname name) (dir_of v p) = None ->
  exists w' b' v' p', dirlink i name n (Ctx t [] w) (Fs b sb il) = Ret 0 (Ctx t [] w') (Fs b' sb (<[i := p']> il)) /\
    inside t v' b' /\ written sb v p v' p' (16 * Z.of_nat (free_place (dir_of v p))) (dirent_bytes n name) /\
    dir_ok sb v' p' /\ dir_of v' p' = add_name (n, cname name) (dir_of v p).
Proof.
  intros HiX MU Hi Hh Hp D Hok Hnum Hroom Hbud Hb Hn Hnone.
  destruct (dir_length sb v p D) as (E1 & E2 & Hs). set (c := content v (i_addrs p) (i_size p)) in *.
  destruct (dirlookup_runs t sb L v i p il Hh Hp D name b w Hb Hi) as (w1 & b1 & H1 & R1).
  rewrite Hnone in R1. unfold dirlink. run R1. run (iload_runs t b1 sb il w1 i p Hp).
  destruct (free_dirent_runs t sb L v i p il Hh Hp D (Z.to_nat (i_size p / sizeof_dirent + 1)) 0 b1 w1)
    as (w2 & b2 & H2 & R2); [|done|lia|].
  { fold c. rewrite E1. unfold sizeof_dirent. apply Nat2Z.inj_le.
    rewrite Nat2Z.inj_div, Nat2Z.inj_add, !Z2Nat.id by word_lia. lia. }
  rewrite drop_0, Nat.add_0_l in R2. fold c in R2. run R2. fold (dir_of v p) in *. change (dents c) with (dir_of v p).
  set (k := free_place (dir_of v p)).
  assert (16 * Z.of_nat k <= i_size p) as Hk.
  { pose proof (free_place_le (dir_of v p)) as Hf. fold k in Hf. unfold dir_of in Hf. rewrite length_dents in Hf. fold c in Hf. lia. }
  pose proof (length_dirent_bytes n name) as Hl.
  destruct (writei_runs t sb L i X HX v b2 il w2 p (dirent_bytes n name) (16 * Z.of_nat k))
    as (w3 & b3 & v3 & p3 & R3 & H3 & W); try done; rewrite ?Hl; try lia; [apply D | by rewrite (dk_type _ _ _ D) | done|].
  run R3. rewrite Hl. exists w3, b3, v3, p3. split; [done|]. split; [done|]. split; [done|].
  pose proof (wn_content _ _ _ _ _ _ _ W) as Ec. pose proof (wn_size _ _ _ _ _ _ _ W) as Es. rewrite Hl in Es. fold c in Ec.
  replace (Z.to_nat (16 * Z.of_nat k)) with (16 * k)%nat in Ec by lia.
  split; [split|].
  - apply (wn_ok _ _ _ _ _ _ _ W).
  - rewrite (wn_entry _ _ _ _ _ _ _ W). apply (dk_type _ _ _ D).
  - pose proof (dk_whole _ _ _ D). rewrite Es. destruct (Z.max_spec (i_size p) (16 * Z.of_nat k + Z.of_nat 16)) as [[_ ->]|[_ ->]]; word_lia.
  - rewrite Ec. apply is_bytes_splice; [|apply D]. unfold dirent_bytes. apply Forall_app. split.
    + repeat constructor; apply u8_range.
    + by apply is_bytes_strncpy.
  - unfold dir_of at 1. rewrite Ec. unfold k, dir_of. fold c. apply (dents_add c (length c / 16)); [done | lia].
Qed.

(** C24: a name that is linked is found.  Linking a new name into a directory
    stores one entry, at the first place not in use or at the end, and leaves the
    other files alone; afterwards [dirlookup] of that name (compared in its
    first 14 bytes) gets the linked inode, and every other name gives what it
    gave before. *)
Theorem dirlink_then_dirlookup i v b il w p name n :
  IBLOCK (i_inum p) sb ∈ X -> meta_used sb v -> inside t v b -> theld v = [] -> il !! i = Some p ->
  dir_ok sb v p -> dinode_ok (dinode_of p) -> 0 <= i_inum p < sb_ninodes sb -> i_size p + 16 <= MAXFILE * BSIZE ->
  budget sb X 2 v (i_addrs p) -> is_bytes name -> 0 < n < 2 ^ 16 -> find_name (cname name) (dir_of v p) = None ->
  exists w1 b1 v1 p1, dirlink i name n (Ctx t [] w) (Fs b sb il) = Ret 0 (Ctx t [] w1) (Fs b1 sb (<[i := p1]> il)) /\
    written sb v p v1 p1 (16 * Z.of_nat (free_place (dir_of v p))) (dirent_bytes n name) /\
    forall nm, is_bytes nm -> exists w2 b2, inside t v1 b2 /\
      dirlookup i nm (Ctx t [] w1) (Fs b1 sb (<[i := p1]> il)) =
      (if decide (cname nm = cname name) then j <- iget 1 n ;; ret (Some (j, 16 * Z.of_nat (free_place (dir_of v p))))
       else found 0 (find_name (cname nm) (dir_of v p))) (Ctx t [] w2) (Fs b2 sb (<[i := p1]> il)).
Proof.
  intros HiX MU Hi Hh Hp D Hok Hnum Hroom Hbud Hb Hn Hnone.
  destruct (dirlink_runs i v b il w p name n) as (w1 & b1 & v1 & p1 & R & H1 & W & D1 & E); try done.
  exists w1, b1, v1, p1. split; [done|]. split; [done|]. intros nm Hnm.
  assert (<[i := p1]> il !! i = Some p1) as Hp1 by (apply list_lookup_insert_eq; by eapply lookup_lt_Some).
  assert (theld v1 = []) as Hh1 by (by rewrite (wn_held _ _ _ _ _ _ _ W)).
  destruct (dirlookup_runs t sb L v1 i p1 _ Hh1 Hp1 D1 nm b1 w1 Hnm H1) as (w2 & b2 & H2 & R2).
  exists w2, b2. split; [done|]. rewrite R2, E. destruct (decide (cname nm = cname name)) as [->|N].
  - rewrite find_name_add by (done || lia). done.
  - by rewrite find_name_other.
Qed.
End link.

(** [dirlink] of a name that the locked directory has as an entry for itself,
    as sys_link does for a new path that ends in a dot, never returns: [iput]
    of the entry found waits for the lock of the directory, which the caller
    holds. *)
Theorem dirlink_self_deadlocks t sb v i p il b w name m k :
  fs_layout sb -> theld v = [] -> il !! i = Some p -> dir_ok sb v p -> inside t v b -> is_bytes name ->
  icache_ok il -> (forall j q, il !! j = Some q -> i_ref q < 2 ^ 31 - 1) -> 0 < i_ref p ->
  i_lock p = Sleeplock true (t_pid t) -> find_name (cname name) (dir_of v p) = Some (k, i_inum p) ->
  exists w' s', dirlink i name m (Ctx t [] w) (Fs b sb il) = Sleep (Csleeplock (lock_id i)) (Lsleep (lock_id i)) (Ctx t [] w') s' /\
    i_lock <$> inodes s' !! i = Some (Sleeplock true (t_pid t)).
Proof.
  intros L Hh Hp D Hi Hb IC Hmax Hr Hl Hf.
  destruct (dirlookup_runs t sb L v i p il Hh Hp D name b w Hb Hi) as (w1 & b1 & H1 & R1). rewrite Hf in R1. cbn [found] in R1.
  assert (caches il i 1 (i_inum p)) as Hc by (exists p; split_and!; [done..| apply D | done]).
  destruct (iget_runs t b1 sb il w1 1 (i_inum p) IC Hmax) as [(j & p' & R2 & G)|(_ & N & _)]; [|by destruct (N i)].
  assert (j = i) as ->.
  { destruct (gets_entry_ok _ _ _ _ _ IC G) as [IC' C']. destruct G as [(q & Hq & Hqr & Hd & Hn & ->)|(q & _ & _ & _ & N)]; [|by destruct (N i)].
    eapply (ic_unique _ IC); [|exact Hc]. by exists q. }
  destruct G as [(q & Hq & _ & _ & _ & ->)|(q & _ & _ & _ & N)]; [|by destruct (N i)].
  rewrite Hp in Hq. injection Hq as <-. set (p1 := set_i_ref (i_ref p + 1) p) in *.
  assert (<[i := p1]> il !! i = Some p1) as Hp1 by (apply list_lookup_insert_eq; by eapply lookup_lt_Some).
  exists w1. eexists. split.
  - unfold dirlink. erewrite bind_Ret by (rewrite R1; erewrite bind_Ret by exact R2; reflexivity).
    unfold iput. rewrite bind_assoc. apply bind_Sleep.
    unfold on_lock, zoom. cbn [inodes]. rewrite Hp1. cbn [fmap option_fmap option_map default from_option id].
    change (i_lock p1) with (i_lock p). rewrite Hl, acquiresleep_taken. reflexivity.
  - cbn [inodes]. rewrite (alter_insert _ _ _ _ Hp1), list_insert_insert_eq, list_lookup_insert_eq by (by eapply lookup_lt_Some). done.
Qed.
End dir.
