(* ===== verification/FsDemo.v ===== *)
(** A small file system on the disk of memide.c, between [begin_op] and [end_op]:
    the theorems on fs.c at a concrete state. *)

From stdpp Require Import functions base numbers list strings.
From S2P Require Import Xv6 Prelude Kstring Bytes Sleeplock Bio Blocks Log Crash Fs Tx Bitmap Inode Content Dir.

Definition pad (l : list Z) : list Z := l ++ replicate (Z.to_nat BSIZE - length l) 0.

(** 1000 blocks: log in 2..31, inodes in 32..57, bitmap in 58, data from 59. *)
Definition demo_sb : superblock := Superblock 1000 941 200 30 2 32 58.

(** Inode 1: the root directory, its entries in block 59.  Inode 2: a file with
    the bytes of [hello] in block 60. *)
Definition demo_block (n : Z) : list Z :=
  if n =? 32 then
    pad (replicate 64 0 ++ [1; 0; 0; 0; 0; 0; 1; 0; 48; 0; 0; 0; 59; 0; 0; 0] ++ replicate 48 0
      ++ [2; 0; 0; 0; 0; 0; 1; 0; 5; 0; 0; 0; 60; 0; 0; 0])
  else if n =? 58 then pad (replicate 7 255 ++ [31])
  else if n =? 59 then
    pad ([1; 0; 46] ++ replicate 13 0 ++ [1; 0; 46; 46] ++ replicate 12 0 ++ [2; 0; 102] ++ replicate 13 0)
  else if n =? 60 then pad [104; 101; 108; 108; 111]
  else replicate (Z.to_nat BSIZE) 0.

Definition demo_fsdisk : memdisk := Memdisk 1000 (fun a => byte (demo_block (a / BSIZE)) (Z.to_nat (a mod BSIZE))).

Lemma demo_block_length n : length (demo_block n) = Z.to_nat BSIZE.
Proof. unfold demo_block. by repeat destruct (n =? _). Qed.

Lemma demo_block_of n : block_of demo_fsdisk n = demo_block n.
Proof.
  apply list_eq. intros j. unfold block_of, demo_fsdisk. cbn [image].
  destruct (decide (j < Z.to_nat BSIZE)%nat) as [Hj|Hj].
  - rewrite bytes_at_lookup by done.
    assert ((n * BSIZE + Z.of_nat j) / BSIZE = n /\ (n * BSIZE + Z.of_nat j) mod BSIZE = Z.of_nat j) as [-> ->] by (fs_const; split; word_lia).
    rewrite Nat2Z.id. unfold byte. destruct (lookup_lt_is_Some_2 (demo_block n) j) as [x ->]; [by rewrite demo_block_length|done].
  - rewrite !lookup_ge_None_2; [done|rewrite demo_block_length; lia|rewrite bytes_at_length; lia].
Qed.

(** The log in a transaction of one process. *)
Definition demo_blocks : lst (bcache (recorded memdisk)) :=
  Lst (Log 2 30 1 false 1 (Logheader 0 (replicate 30 0))) (booted (Recorded demo_fsdisk [])).
Definition demo_tx : txview := Txview (block_of demo_fsdisk) (block_of demo_fsdisk) [] 28 [].

#[export] Instance demo_store : TxStore (lst (bcache (recorded memdisk))) :=
  log_store 1000 2 30 ltac:(done) ltac:(done).

Lemma demo_inside t : inside t demo_tx demo_blocks.
Proof.
  refine (inside_begun 1000 2 30 _ _ t (Bview (block demo_fsdisk) (block demo_fsdisk) [] [] []) [] demo_blocks _ _ _);
    [|done|done].
  split; try done.
  - intros t'. exact (booted_shows t' demo_fsdisk).
  - split.
    + by split_and!.
    + by apply fits_nil.
    + intros n. apply length_block_of.
    + reflexivity.
    + cbn. change (block demo_fsdisk 2) with (block_of demo_fsdisk 2). rewrite demo_block_of. reflexivity.
    + reflexivity.
Qed.

Lemma demo_layout : fs_layout demo_sb.
Proof.
  split; [done..|]. cbn. intros n Hn. split; lia.
Qed.

Lemma demo_used n : 0 <= n < 1000 -> used demo_sb demo_tx n = (n <? 61).
Proof.
  intros Hn. unfold used. assert (BBLOCK n demo_sb = 58 /\ n mod BPB = n) as [-> ->].
  { unfold BBLOCK. cbn [demo_sb sb_bmapstart]. fs_const. split; word_lia. }
  cbn [demo_tx tseen]. rewrite demo_block_of.
  apply Bool.eqb_prop, (forall_range (fun n => Bool.eqb (bit_set (demo_block 58) n) (n <? 61)) 1000); [vm_compute; reflexivity|done].
Qed.

Lemma demo_meta : meta_used demo_sb demo_tx.
Proof. intros n Hn. change (data_start demo_sb) with 59 in Hn. rewrite demo_used by lia. lia. Qed.

Lemma demo_nfree : nfree demo_sb demo_tx = 939%nat.
Proof.
  unfold nfree. rewrite (filter_ext_in _ (fun n => (n <? 61) = false)); [vm_compute; reflexivity|].
  change (sb_size demo_sb) with 1000. intros n Hn%elem_of_seqZ. rewrite demo_used by lia. done.
Qed.

Definition p1 : thread := Thread 3 false.
(** The cache entry of the file, as [ilock] leaves it. *)
Definition demo_file : inode := Inode 1 2 1 initsleeplock (Sleeplock true 3) true 2 0 0 1 5 (60 :: replicate 12 0).
Definition demo_il : list inode := [demo_file].
Definition demo_fs : fs (lst (bcache (recorded memdisk))) := Fs demo_blocks demo_sb demo_il.

Lemma balloc_takes_first_free_witness : exists n c s, balloc 1 (Ctx p1 [] []) demo_fs = Ret n c s /\ n < 1000.
Proof.
  destruct (balloc_takes_first_free p1 demo_sb demo_il demo_tx demo_blocks []) as [[_ H]|H].
  - exact demo_layout.
  - exact demo_meta.
  - by intros n []%not_elem_of_nil.
  - apply demo_inside.
  - cbn. lia.
  - specialize (H 61 ltac:(cbn; lia)). by rewrite demo_used in H.
  - destruct H as (n & w' & b' & v' & R & _ & Hn & _). do 3 eexists. split; [exact R|apply Hn].
Defined.

Lemma demo_holds : holds_data demo_sb demo_tx.
Proof. by intros n []%not_elem_of_nil. Qed.

Lemma bfree_undoes_balloc_witness : exists n c s c2 s2,
  balloc 1 (Ctx p1 [] []) demo_fs = Ret n c s /\ bfree 1 n c s = Ret tt c2 s2 /\
  bfree 1 n c2 s2 = Panic "freeing free block".
Proof.
  destruct (balloc_runs p1 demo_sb demo_il demo_tx demo_layout demo_meta demo_holds demo_blocks []) as [H|[_ H]].
  - apply demo_inside.
  - cbn. lia.
  - destruct H as (n & w' & b' & R & _).
    destruct (bfree_undoes_balloc p1 demo_sb demo_il demo_tx demo_blocks [] n _ _ demo_layout demo_meta demo_holds
      (demo_inside p1) ltac:(cbn; lia) R) as (c2 & s2 & v2 & R2 & _ & _ & _ & R3).
    exists n, (Ctx p1 [] w'), (Fs b' demo_sb demo_il), c2, s2. split; [exact R|]. split; [exact R2|exact R3].
  - specialize (H 61 ltac:(cbn; lia)). by rewrite demo_used in H.
Defined.

Lemma demo_dinode_ok : dinode_ok (dinode_of demo_file).
Proof. repeat split; cbn; try lia. repeat constructor; lia. Qed.

Lemma ilock_loads_iupdate_witness : exists w1 b1, iupdate 0 (Ctx p1 [] []) demo_fs = Ret tt (Ctx p1 [] w1) (Fs b1 demo_sb demo_il).
Proof.
  destruct (ilock_loads_iupdate p1 demo_sb demo_tx demo_blocks demo_il [] 0 demo_file) as (w1 & b1 & v1 & R & _).
  - exact demo_layout.
  - exact demo_holds.
  - apply demo_inside.
  - reflexivity.
  - reflexivity.
  - cbn. lia.
  - exact demo_dinode_ok.
  - cbn. lia.
  - right. cbn. lia.
  - exists w1, b1. exact R.
Defined.

Lemma demo_inode3 : di_type (inode_of demo_sb demo_tx 3) = 0.
Proof. unfold inode_of. change (IBLOCK 3 demo_sb) with 32. cbn [demo_tx tseen]. rewrite demo_block_of. reflexivity. Qed.

Lemma ialloc_takes_first_free_witness : exists n w' b',
  ialloc 1 T_FILE (Ctx p1 [] []) demo_fs = iget 1 n (Ctx p1 [] w') (Fs b' demo_sb demo_il).
Proof.
  destruct (ialloc_takes_first_free p1 demo_sb demo_tx demo_blocks demo_il [] T_FILE) as [H|[_ H]].
  - exact demo_layout.
  - exact demo_holds.
  - apply demo_inside.
  - cbn. lia.
  - unfold T_FILE. lia.
  - destruct H as (n & w' & b' & v' & R & _). exists n, w', b'. exact R.
  - destruct (H 3 ltac:(cbn; lia) demo_inode3).
Defined.

(** ** The file *)

(** Files of one block. *)
Section one_block.
Variables (a : Z).
#[local] Abbreviation ad := (a :: replicate 12 0).
Hypothesis (Ha : 59 <= a < 61).

Lemma demo_blk bn : 0 <= bn -> blk demo_tx ad bn = if bn =? 0 then a else 0.
Proof.
  intros Hb. unfold blk. change (ind ad) with 0. cbn [Z.eqb]. destruct (Z.ltb_spec bn NDIRECT) as [Hlt|Hge].
  - destruct (Z.eqb_spec bn 0) as [->|N]; [done|]. unfold addr_at.
    rewrite lookup_cons_ne_0 by lia. rewrite lookup_replicate_2 by (fs_const; lia). done.
  - fs_const. destruct (Z.eqb_spec bn 0); [lia|done].
Qed.

Lemma demo_blk_0 bn : 0 <= bn -> blk demo_tx ad bn <> 0 -> bn = 0.
Proof. intros Hb. rewrite demo_blk by done. by destruct (Z.eqb_spec bn 0). Qed.

Lemma demo_file_ok p : i_dev p = 1 -> i_addrs p = ad -> 0 <= i_size p <= 512 -> file_ok demo_sb demo_tx p.
Proof.
  intros Hd Ep Hs. split; [done| |fs_const; lia|]; rewrite Ep.
  - split.
    + done.
    + done.
    + intros bn Hb Hz. rewrite (demo_blk_0 bn), demo_blk by (done || lia).
      split; [change (data_start demo_sb) with 59; cbn; lia|]. cbn [Z.eqb]. rewrite demo_used by lia. lia.
    + intros x y Hx Hy Hz E. rewrite (demo_blk_0 x), (demo_blk_0 y); try done; try lia; by rewrite <- E.
    + intros bn Hb Hz. rewrite (demo_blk_0 bn), demo_blk by (done || lia). cbn [Z.eqb]. change (ind ad) with 0. lia.
  - intros bn Hb Hbn. assert (bn = 0) as -> by (fs_const; lia). rewrite demo_blk by done. cbn [Z.eqb]. lia.
Qed.

Lemma demo_content n : 0 <= n <= 512 -> content demo_tx ad n = take (Z.to_nat n) (demo_block a).
Proof.
  intros Hn. apply list_eq. intros j. unfold content. rewrite list_lookup_fmap.
  destruct (decide (j < Z.to_nat n)%nat) as [Hj|Hj].
  - rewrite lookup_seqZ_lt, lookup_take_lt by lia. cbn [fmap option_fmap option_map]. rewrite Z.add_0_l. unfold fbyte. fs_const.
    rewrite Z.div_small, Z.mod_small, demo_blk by lia. cbn [Z.eqb]. rewrite (proj2 (Z.eqb_neq a 0)) by lia.
    cbn [demo_tx tseen]. rewrite demo_block_of. unfold byte. rewrite Nat2Z.id.
    destruct (lookup_lt_is_Some_2 (demo_block a) j) as [x ->]; [rewrite demo_block_length; fs_const; lia | done].
  - rewrite lookup_seqZ_ge by lia. symmetry. apply lookup_take_ge. lia.
Qed.

Lemma demo_budget k : (k <= 20)%nat -> budget demo_sb [58; 32] k demo_tx ad.
Proof.
  intros Hk. split.
  - unfold room. change (missing [58; 32] demo_tx) with 2%nat. change (ind_cost demo_tx ad) with 1%nat. cbn. lia.
  - rewrite demo_nfree. change (ind_free ad) with 1%nat. lia.
Qed.
End one_block.

#[local] Instance no_devices : Devices (fs (lst (bcache (recorded memdisk)))) :=
  {| dev_read _ := None; dev_write _ := None |}.

Lemma readi_returns_content_witness : exists w' b',
  readi 0 1 100 (Ctx p1 [] []) demo_fs =
    Ret (4, slice 1 4 (content demo_tx (i_addrs demo_file) 5)) (Ctx p1 [] w') (Fs b' demo_sb demo_il).
Proof.
  destruct (readi_returns_content p1 demo_sb demo_tx demo_blocks demo_il [] 0 demo_file 1 100) as [_ H].
  - exact demo_layout.
  - apply demo_inside.
  - reflexivity.
  - reflexivity.
  - by apply (demo_file_ok 60).
  - cbn. unfold T_DEV. lia.
  - lia.
  - lia.
  - destruct H as (w' & b' & R & _); [cbn; lia|lia|]. exists w', b'. exact R.
Defined.

Lemma demo_bitmap n : 0 <= n < sb_size demo_sb -> BBLOCK n demo_sb ∈ [58; 32].
Proof. intros Hn. cbn in Hn. unfold BBLOCK. cbn [demo_sb sb_bmapstart]. replace (u32 (n / BPB + 58)) with 58; [left|]. fs_const. word_lia. Qed.

Lemma writei_writes_content_witness : exists w' b' v' p',
  writei 0 [33; 10] 5 (Ctx p1 [] []) demo_fs = Ret 2 (Ctx p1 [] w') (Fs b' demo_sb [p']) /\
  content v' (i_addrs p') 7 = content demo_tx (i_addrs demo_file) 5 ++ [33; 10].
Proof.
  destruct (writei_writes_content p1 demo_sb 0 [58; 32] demo_tx demo_blocks demo_il [] demo_file [33; 10] 5)
    as (w' & b' & v' & p' & R & _ & W).
  - exact demo_layout.
  - exact demo_bitmap.
  - right. left.
  - exact demo_meta.
  - apply demo_inside.
  - reflexivity.
  - reflexivity.
  - by apply (demo_file_ok 60).
  - cbn. unfold T_DEV. lia.
  - exact demo_dinode_ok.
  - cbn. lia.
  - cbn. lia.
  - cbn. fs_const. lia.
  - apply (demo_budget 60). vm_compute. lia.
  - exists w', b', v', p'. split; [exact R|]. change 7 with (Z.max (i_size demo_file) (5 + Z.of_nat (length [33; 10]))).
    rewrite <- (wn_size _ _ _ _ _ _ _ W), (wn_content _ _ _ _ _ _ _ W). unfold splice.
    rewrite take_ge, drop_ge by (unfold content; rewrite length_fmap, length_seqZ; cbn; lia). reflexivity.
Defined.

Lemma readi_returns_writei_witness : exists c1 s1 c2 s2,
  writei 0 [33; 10] 2 (Ctx p1 [] []) demo_fs = Ret 2 c1 s1 /\ readi 0 2 2 c1 s1 = Ret (2, [33; 10]) c2 s2.
Proof.
  apply (readi_returns_writei p1 demo_sb 0 [58; 32] demo_tx demo_blocks demo_il [] demo_file [33; 10] 2).
  - exact demo_layout.
  - exact demo_bitmap.
  - right. left.
  - exact demo_meta.
  - apply demo_inside.
  - reflexivity.
  - reflexivity.
  - by apply (demo_file_ok 60).
  - cbn. unfold T_DEV. lia.
  - exact demo_dinode_ok.
  - cbn. lia.
  - cbn. lia.
  - cbn. fs_const. lia.
  - apply (demo_budget 60). vm_compute. lia.
Defined.

(** ** The root directory *)

(** Its cache entry, locked by process 3. *)
Definition demo_root : inode := Inode 1 1 1 initsleeplock (Sleeplock true 3) true 1 0 0 1 48 (59 :: replicate 12 0).

Lemma demo_root_content : content demo_tx (i_addrs demo_root) (i_size demo_root) = take 48 (demo_block 59).
Proof. apply (demo_content 59); cbn; lia. Qed.

Lemma demo_root_dir : dir_of demo_tx demo_root = [(1, [46]); (1, [46; 46]); (2, [102])].
Proof. unfold dir_of. rewrite demo_root_content. vm_compute. reflexivity. Qed.

Lemma demo_root_ok : dir_ok demo_sb demo_tx demo_root.
Proof.
  split; [|done..|].
  - apply (demo_file_ok 59); cbn; done || lia.
  - rewrite demo_root_content. apply (bool_decide_unpack _). vm_compute. exact I.
Qed.

(** Linking inode 2 under the name g. *)
Lemma dirlink_then_dirlookup_witness : exists w1 b1 q w2 b2,
  dirlink 0 [103] 2 (Ctx p1 [] []) (Fs demo_blocks demo_sb [demo_root]) = Ret 0 (Ctx p1 [] w1) (Fs b1 demo_sb [q]) /\
  dirlookup 0 [103] (Ctx p1 [] w1) (Fs b1 demo_sb [q]) =
    (j <- iget 1 2 ;; ret (Some (j, 48))) (Ctx p1 [] w2) (Fs b2 demo_sb [q]).
Proof.
  destruct (dirlink_then_dirlookup p1 demo_sb demo_layout [58; 32] demo_bitmap 0 demo_tx demo_blocks [demo_root] [] demo_root [103] 2)
    as (w1 & b1 & v1 & q & R1 & _ & H).
  - right. left.
  - exact demo_meta.
  - apply demo_inside.
  - reflexivity.
  - reflexivity.
  - exact demo_root_ok.
  - repeat split; cbn; try lia. repeat constructor; lia.
  - cbn. lia.
  - cbn. fs_const. lia.
  - apply (demo_budget 59). lia.
  - repeat constructor; lia.
  - lia.
  - rewrite demo_root_dir. reflexivity.
  - destruct (H [103]) as (w2 & b2 & _ & R2); [repeat constructor; lia|].
    exists w1, b1, q, w2, b2. split; [exact R1|]. rewrite decide_True, demo_root_dir in R2 by reflexivity. exact R2.
Defined.

Lemma dirlink_self_deadlocks_witness : exists w' s',
  dirlink 0 [46] 2 (Ctx p1 [] []) (Fs demo_blocks demo_sb [demo_root]) =
    Sleep (Csleeplock (lock_id 0)) (Lsleep (lock_id 0)) (Ctx p1 [] w') s' /\
  i_lock <$> inodes s' !! 0%nat = Some (Sleeplock true 3).
Proof.
  apply (dirlink_self_deadlocks p1 demo_sb demo_tx 0 demo_root [demo_root] demo_blocks [] [46] 2 0).
  - exact demo_layout.
  - reflexivity.
  - reflexivity.
  - exact demo_root_ok.
  - apply demo_inside.
  - repeat constructor; lia.
  - split.
    + intros [|i] p Hp; [injection Hp as <-; cbn; lia | done].
    + intros [|i] [|j] dev inum (p & Hp & _) (q & Hq & _); done.
  - intros [|j] q Hq; [injection Hq as <-; cbn; lia | done].
  - cbn. lia.
  - reflexivity.
  - rewrite demo_root_dir. reflexivity.
Defined.
