(* ===== verification/File.v ===== *)
(** file.c and [pipealloc] of pipe.c: the table of open files, over the file
    system, the pipes and the page allocator.

    A [struct file *] is an index into [ftable.file]; a [struct pipe *] is the
    address of the page the pipe lives in. *)

From stdpp Require Import functions base numbers list strings gmap.
From S2P Require Import Xv6 Prelude Kstring Bytes Sleeplock Pipe Kalloc Log Fs.

(** file.h [struct file]. *)
Inductive ftype := FD_NONE | FD_PIPE | FD_INODE.
#[export] Instance ftype_eq_dec : EqDecision ftype.
Proof. solve_decision. Defined.

Record file := File {
  f_type : ftype; f_ref : Z; f_readable : bool; f_writable : bool;
  f_pipe : option Z; f_ip : option nat; f_off : Z }.

Definition set_f_ref (r : Z) (f : file) : file :=
  File (f_type f) r (f_readable f) (f_writable f) (f_pipe f) (f_ip f) (f_off f).
Definition set_f_type (ty : ftype) (f : file) : file :=
  File ty (f_ref f) (f_readable f) (f_writable f) (f_pipe f) (f_ip f) (f_off f).
Definition set_f_off (o : Z) (f : file) : file :=
  File (f_type f) (f_ref f) (f_readable f) (f_writable f) (f_pipe f) (f_ip f) o.
(** The fields [pipealloc] fills in. *)
Definition set_f_pipe (p : Z) (r w : bool) (f : file) : file :=
  File FD_PIPE (f_ref f) r w (Some p) (f_ip f) (f_off f).
(** The fields [sys_open] fills in. *)
Definition set_f_inode (ip : nat) (r w : bool) (f : file) : file :=
  File FD_INODE (f_ref f) r w (f_pipe f) (Some ip) 0.

(** The state file.c works on. *)
Record fstate (S : Type) := Fstate {
  ftable : list file; fsys : fs S; pipes : gmap Z pipe; kpages : kmem }.
Arguments Fstate {S}.
Arguments ftable {S}.
Arguments fsys {S}.
Arguments pipes {S}.
Arguments kpages {S}.

(** The offset of [data] in [struct pipe], after its spinlock. *)
Definition pipe_data_off : Z := 52.

(** [max] of [filewrite]. *)
Definition write_max : Z := ((MAXOPBLOCKS - 1 - 1 - 2) / 2) * 512.

Section file.
Context {S : Type} {TB : TxBlocks S} {DV : Devices (fs S)}.
(** The end of the kernel image, for [kfree]. *)
Variable end_ : Z.
Implicit Types (s : fstate S).

Definition on_fs {A} (m : M (fs S) A) : M (fstate S) A :=
  zoom fsys (fun x s => Fstate (ftable s) x (pipes s) (kpages s)) m.
Definition on_kmem {A} (m : M kmem A) : M (fstate S) A :=
  zoom kpages (fun k s => Fstate (ftable s) (fsys s) (pipes s) k) m.
Definition set_pipes (f : gmap Z pipe -> gmap Z pipe) : M (fstate S) unit :=
  modify (fun s => Fstate (ftable s) (fsys s) (f (pipes s)) (kpages s)).
Definition on_pipe {A} (a : Z) (m : M pipe A) : M (fstate S) A :=
  s <- get;;
  match pipes s !! a with
  | Some p => zoom (fun _ => p) (fun p s => Fstate (ftable s) (fsys s) (<[a := p]> (pipes s)) (kpages s)) m
  | None => undef "pipe pointer"
  end.

Definition fload (f : nat) : M (fstate S) file :=
  s <- get;;
  match ftable s !! f with Some x => ret x | None => undef "file pointer" end.
Definition fstore (f : nat) (g : file -> file) : M (fstate S) unit :=
  modify (fun s => Fstate (alter g f (ftable s)) (fsys s) (pipes s) (kpages s)).

(** Dereferencing [f->ip] and [f->pipe]. *)
Definition the_pipe (x : file) : M (fstate S) Z :=
  match f_pipe x with Some p => ret p | None => undef "null pipe" end.

Fixpoint free_file (l : list file) (k : nat) : option nat :=
  match l with
  | [] => None
  | f :: l => if f_ref f =? 0 then Some k else free_file l (Datatypes.S k)
  end.

Definition filealloc : M (fstate S) (option nat) :=
  acquire Lftable;;
  l <- gets ftable;;
  match free_file l 0 with
  | Some f =>
      fstore f (set_f_ref 1);;
      release Lftable;;
      ret (Some f)
  | None =>
      release Lftable;;
      ret None
  end.

Definition filedup (f : nat) : M (fstate S) nat :=
  acquire Lftable;;
  x <- fload f;;
  if f_ref x <? 1 then panic "filedup"
  else
    fstore f (fun x => set_f_ref (s32 (f_ref x + 1)) x);;
    release Lftable;;
    ret f.

Definition fileclose (f : nat) : M (fstate S) unit :=
  acquire Lftable;;
  x <- fload f;;
  if f_ref x <? 1 then panic "fileclose"
  else
    fstore f (set_f_ref (f_ref x - 1));;
    if 0 <? f_ref x - 1 then release Lftable
    else
      ff <- fload f;;
      fstore f (fun x => set_f_type FD_NONE (set_f_ref 0 x));;
      release Lftable;;
      match f_type ff with
      | FD_PIPE =>
          p <- the_pipe ff;;
          freed <- on_pipe p (pipeclose p (f_writable ff));;
          if freed : bool then set_pipes (delete p);; on_kmem (kfree end_ p) else ret tt
      | FD_INODE =>
          on_fs begin_op;;
          match f_ip ff with Some i => on_fs (iput i) | None => undef "null inode" end;;
          on_fs end_op
      | FD_NONE => ret tt
      end.

Definition filestat (f : nat) : M (fstate S) (Z * option stat) :=
  x <- fload f;;
  match f_type x with
  | FD_INODE =>
      on_fs (ilock (f_ip x));;
      match f_ip x with
      | Some i =>
          st <- on_fs (stati i);;
          on_fs (iunlock (f_ip x));;
          ret (0, Some st)
      | None => undef "null inode"
      end
  | _ => ret (-1, None)
  end.

(** The result of [fileread] and the bytes stored at [addr]. *)
Definition fileread (f : nat) (n : Z) : M (fstate S) (Z * list Z) :=
  x <- fload f;;
  if negb (f_readable x) then ret (-1, [])
  else match f_type x with
  | FD_PIPE =>
      p <- the_pipe x;;
      r <- on_pipe p (piperead p (Z.to_nat n));;
      match r with Some l => ret (Z.of_nat (length l), l) | None => ret (-1, []) end
  | FD_INODE =>
      on_fs (ilock (f_ip x));;
      match f_ip x with
      | Some i =>
          r <- on_fs (readi i (f_off x) (u32 n));;
          (if 0 <? fst r then fstore f (set_f_off (u32 (f_off x + fst r))) else ret tt);;
          on_fs (iunlock (f_ip x));;
          ret r
      | None => undef "null inode"
      end
  | FD_NONE => panic "fileread"
  end.

(** The loop of [filewrite] on the bytes of [addr] not yet written; [i] is the
    number written. *)
Fixpoint filewrite_loop (k : nat) (f : nat) (addr : list Z) (i : Z) : M (fstate S) Z :=
  match addr with
  | [] => ret i
  | _ :: _ =>
      match k with
      | O => undef "filewrite: fuel"
      | Datatypes.S k =>
          let n1 := Z.min (Z.of_nat (length addr)) write_max in
          on_fs begin_op;;
          x <- fload f;;
          on_fs (ilock (f_ip x));;
          match f_ip x with
          | Some ip =>
              r <- on_fs (writei ip (take (Z.to_nat n1) addr) (f_off x));;
              (if 0 <? r then fstore f (set_f_off (u32 (f_off x + r))) else ret tt);;
              on_fs (iunlock (f_ip x));;
              on_fs end_op;;
              if r <? 0 then ret i
              else if negb (r =? n1) then panic "short filewrite"
              else filewrite_loop k f (drop (Z.to_nat n1) addr) (i + r)
          | None => undef "null inode"
          end
      end
  end.

Definition filewrite (f : nat) (addr : list Z) : M (fstate S) Z :=
  let n := Z.of_nat (length addr) in
  x <- fload f;;
  if negb (f_writable x) then ret (-1)
  else match f_type x with
  | FD_PIPE =>
      p <- the_pipe x;;
      on_pipe p (pipewrite p addr)
  | FD_INODE =>
      i <- filewrite_loop (Z.to_nat (n / write_max + 1)) f addr 0;;
      ret (if i =? n then n else -1)
  | FD_NONE => panic "filewrite"
  end.

Definition filelock (f : nat) : M (fstate S) Z :=
  x <- fload f;;
  match f_ip x with
  | None => ret (-1)
  | Some i =>
      p <- on_fs (iload i);;
      if i_ref p <? 1 then ret (-1)
      else
        on_fs (fsemaphore_lock (Some i));;
        ret 0
  end.

Definition fileunlock (f : nat) : M (fstate S) Z :=
  x <- fload f;;
  match f_ip x with
  | None => ret (-1)
  | Some i =>
      h <- on_fs (on_flock i holdingsleep);;
      p <- on_fs (iload i);;
      if h && negb (i_ref p <? 1) then
        on_fs (fsemaphore_unlock (Some i));;
        ret 0
      else ret (-1)
  end.

(** The files of the read and the write end, if any. *)
Definition pipealloc : M (fstate S) (option (nat * nat)) :=
  f0 <- filealloc;;
  match f0 with
  | None => ret None
  | Some a =>
      f1 <- filealloc;;
      match f1 with
      | None => fileclose a;; ret None
      | Some b =>
          p <- on_kmem (kalloc);;
          if p =? 0 then
            fileclose a;;
            fileclose b;;
            ret None
          else
            k <- gets kpages;;
            set_pipes (insert p (new_pipe (bytes_at (ram k) (p + pipe_data_off) (Z.to_nat PIPESIZE))));;
            fstore a (set_f_pipe p true false);;
            fstore b (set_f_pipe p false true);;
            ret (Some (a, b))
      end
  end.

End file.
