(* ===== verification/Kernel.v ===== *)
(** The kernel as a whole: the process table over the file table, the file
    system, the pipes and physical memory, and the memory of the process that is
    running, seen through its page directory.

    The operations proc.c calls are those of kalloc.c, vm.c, file.c, fs.c and
    log.c: the instance [kernel_env] of [ProcEnv]. *)

From stdpp Require Import functions base numbers list strings gmap.
From S2P Require Import Xv6 Prelude Kstring Bytes Kalloc Vm PageTable Uvm Sleeplock Pipe Log Fs File Proc.

(** trap.c: a page fault of kernel code is [panic("trap")]. *)
Definition writable (pte : Z) : bool := negb (Z.land pte PTE_W =? 0).

(** The instructions of the kernel that read and write user memory. *)
Definition uload (pg va : Z) : M kmem Z :=
  k <- get;;
  if present (entry (ram k) pg va) then ret (ubyte (ram k) pg va) else panic "trap".
Definition ustore (pg va b : Z) : M kmem unit :=
  k <- get;;
  if present (entry (ram k) pg va) && writable (entry (ram k) pg va)
  then on_ram (fun m => upd m (upage m pg va + va mod 4096) b)
  else panic "trap".

Fixpoint uload_bytes (pg va : Z) (n : nat) : M kmem (list Z) :=
  match n with
  | O => ret []
  | S n => b <- uload pg va;; l <- uload_bytes pg (u32 (va + 1)) n;; ret (b :: l)
  end.
Fixpoint ustore_bytes (pg va : Z) (l : list Z) : M kmem unit :=
  match l with
  | [] => ret tt
  | b :: l => ustore pg va b;; ustore_bytes pg (u32 (va + 1)) l
  end.

(** A 32-bit word, little-endian. *)
Definition word_bytes (v : Z) : list Z :=
  [u8 v; u8 (v / 2 ^ 8); u8 (v / 2 ^ 16); u8 (v / 2 ^ 24)].
Definition uload32 (pg va : Z) : M kmem Z :=
  l <- uload_bytes pg va 4;; ret (get32 l 0).

Section kernel.
Context {S : Type} {TB : TxBlocks S} {DV : Devices (fs S)}.
(** The linker's [end] and [data], and [_binary_initcode_start]. *)
Context (end_ data : Z) (initcode : list Z).
(** [initlog] of the log that [TB] is, and the contents of uninitialised
    [char name[DIRSIZ]] arrays. *)
Context (log_init : Z -> M S unit) (junk : list Z).

(** [switchuvm] checks the process; what it loads into the processor is the page
    directory that [uload] and [ustore] use. *)
Definition switchuvm (pgdir kstack : Z) : M (fstate S) unit :=
  if kstack =? 0 then panic "switchuvm: no kstack"
  else if pgdir =? 0 then panic "switchuvm: no pgdir"
  else ret tt.

Definition kernel_env : ProcEnv (fstate S) := {|
  Proc.kalloc := on_kmem Kalloc.kalloc;
  Proc.kfree v := on_kmem (Kalloc.kfree end_ v);
  Proc.setupkvm := on_kmem (Vm.setupkvm end_ data);
  Proc.inituvm pg := on_kmem (Vm.inituvm pg initcode);
  Proc.allocuvm pg o n := on_kmem (Vm.allocuvm end_ pg o n);
  Proc.deallocuvm pg o n := on_kmem (Vm.deallocuvm end_ pg o n);
  Proc.copyuvm pg n := on_kmem (Vm.copyuvm end_ data pg n);
  Proc.freevm pg := on_kmem (Vm.freevm end_ pg);
  Proc.switchuvm := switchuvm;
  Proc.filedup := File.filedup;
  Proc.fileclose := File.fileclose end_;
  Proc.idup i := on_fs (Fs.idup i);
  Proc.iput i := on_fs (Fs.iput i);
  Proc.namei_root := on_fs (Fs.namei 0 [slash] junk);
  Proc.begin_op := on_fs Fs.begin_op;
  Proc.end_op := on_fs Fs.end_op;
  Proc.iinit dev := on_fs (Fs.iinit dev);
  Proc.initlog dev := on_fs (on_blocks (log_init dev)) |}.

End kernel.
