(* ===== verification/Syscall.v ===== *)
(** syscall.c: fetching the arguments of a system call from the memory of the
    process, and the dispatch on the call number. *)

From stdpp Require Import functions base numbers list strings gmap.
From S2P Require Import Xv6 Prelude Kstring Bytes Kalloc Vm PageTable Uvm Copyuvm Fs File Proc Kernel.

Section syscall.
Context {S : Type}.

(** An access to the memory of the process. *)
Definition user_mem {A} (m : M kmem A) : M (pst (fstate S)) A := call (on_kmem m).
(** The current process. *)
Definition my_proc : M (pst (fstate S)) proc := c <- curproc;; load c.

(** The result -1 is [None]. *)
Definition fetchint (addr : Z) : M (pst (fstate S)) (option Z) :=
  p <- my_proc;;
  if (sz p <=? addr) || (sz p <? u32 (addr + 4)) then ret None
  else
    v <- user_mem (uload32 (pgdir p) addr);;
    ret (Some (s32 v)).

(** The loop of [fetchstr] from [s], [k] bytes before the end. *)
Fixpoint fetchstr_loop (k : nat) (pg s : Z) : M (pst (fstate S)) (option (list Z)) :=
  match k with
  | O => ret None
  | Datatypes.S k =>
      b <- user_mem (uload pg s);;
      if b =? 0 then ret (Some [])
      else
        r <- fetchstr_loop k pg (u32 (s + 1));;
        ret (cons b <$> r)
  end.

(** The string at [addr], without its NUL. *)
Definition fetchstr (addr : Z) : M (pst (fstate S)) (option (list Z)) :=
  p <- my_proc;;
  if sz p <=? addr then ret None
  else fetchstr_loop (Z.to_nat (sz p - addr)) (pgdir p) addr.

Definition argint (n : Z) : M (pst (fstate S)) (option Z) :=
  p <- my_proc;;
  fetchint (u32 (tf_esp (tf p) + 4 + 4 * n)).

Definition argptr (n size : Z) : M (pst (fstate S)) (option Z) :=
  p <- my_proc;;
  i <- argint n;;
  match i with
  | None => ret None
  | Some i =>
      if (size <? 0) || (sz p <=? u32 i) || (sz p <? u32 (u32 i + size)) then ret None
      else ret (Some (u32 i))
  end.

Definition argstr (n : Z) : M (pst (fstate S)) (option (list Z)) :=
  addr <- argint n;;
  match addr with
  | None => ret None
  | Some addr => fetchstr (u32 addr)
  end.

(** [syscalls]: the entries of the table, by number. *)
Definition syscall (syscalls : list (option (M (pst (fstate S)) Z))) : M (pst (fstate S)) unit :=
  c <- curproc;;
  p <- load c;;
  let num := s32 (tf_eax (tf p)) in
  match (if (0 <? num) && (num <? Z.of_nat (length syscalls)) then syscalls !! Z.to_nat num else None) with
  | Some (Some f) =>
      r <- f;;
      store c (fun p => set_tf (set_eax (u32 r) (tf p)) p)
  | _ => store c (fun p => set_tf (set_eax (u32 (-1)) (tf p)) p)
  end.

End syscall.
