(* ===== verification/Args.v ===== *)
(** What syscall.c accepts from user space: the checks of [fetchint],
    [fetchstr], [argptr] and [argstr] let through exactly what lies inside the
    memory of the process. *)

From stdpp Require Import functions base numbers list strings gmap.
From S2P Require Import Xv6 Prelude Kstring Bytes Kalloc Vm PageTable Uvm Copyuvm Fs File Proc Kernel Syscall.

Section args.
Context {S : Type}.
Implicit Types (s : pst (fstate S)) (p : proc) (c : ctx).

Definition running s (i : nat) p : Prop := cur s = Some i /\ procs s !! i = Some p.
Definition physmem s : mem := ram (kpages (env s)).
(** The byte and the word process [p] has at [va]. *)
Definition umem s p (va : Z) : Z := ubyte (physmem s) (pgdir p) va.
Definition uword s p (va : Z) : Z := get32 [umem s p va; umem s p (va + 1); umem s p (va + 2); umem s p (va + 3)] 0.
(** All memory of the process is mapped, below the kernel. *)
Definition mapped s p : Prop :=
  0 <= sz p <= KERNBASE /\ forall va, 0 <= va < sz p -> present (entry (physmem s) (pgdir p) va) = true.

Lemma my_proc_runs s i p c : running s i p -> my_proc c s = Ret p c s.
Proof. intros [H1 H2]. unfold my_proc, curproc, load. mstep. mstep. rewrite H1. mstep. mstep. by rewrite H2. Qed.

(** Reading user memory leaves the state alone. *)
Lemma user_read {A} (m : M kmem A) a c s :
  m c (kpages (env s)) = Ret a c (kpages (env s)) -> user_mem m c s = Ret a c s.
Proof. intros H. unfold user_mem, call, on_kmem, zoom. rewrite H. by destruct s as [? ? ? ? ? ? ? []]. Qed.

Lemma uload_runs pg va c k : present (entry (ram k) pg va) = true -> uload pg va c k = Ret (ubyte (ram k) pg va) c k.
Proof. intros H. unfold uload. mstep. by rewrite H. Qed.

Lemma uload_bytes_runs pg n : forall va c k, 0 <= va -> va + Z.of_nat n <= 2 ^ 32 ->
  (forall a, va <= a < va + Z.of_nat n -> present (entry (ram k) pg a) = true) ->
  uload_bytes pg va n c k = Ret (map (fun i => ubyte (ram k) pg (va + Z.of_nat i)) (seq 0 n)) c k.
Proof.
  induction n as [|n IH]; intros va c k H0 H1 Hp; [done|]. cbn [uload_bytes].
  run (uload_runs pg va c k ltac:(apply Hp; lia)). cbn [seq map]. rewrite Z.add_0_r.
  destruct n as [|n]; [done|]. rewrite u32_small by lia. run (IH (va + 1) c k ltac:(lia) ltac:(lia) ltac:(intros; apply Hp; lia)).
  unfold ret. f_equal. f_equal. rewrite <- (seq_shift (Datatypes.S n) 0), map_map. apply map_ext. intros i. f_equal. lia.
Qed.

Lemma fetchint_runs s i p addr c : running s i p -> mapped s p -> 0 <= addr < 2 ^ 32 ->
  fetchint addr c s = Ret (if addr + 4 <=? sz p then Some (s32 (uword s p addr)) else None) c s.
Proof.
  intros Hr [Hsz Hm] Ha. unfold fetchint. run (my_proc_runs s i p c Hr).
  destruct (Z.leb_spec (sz p) addr) as [H|H]; cbn [orb].
  { by destruct (Z.leb_spec (addr + 4) (sz p)); [lia|]. }
  rewrite u32_small by (unfold KERNBASE in *; lia).
  destruct (Z.ltb_spec (sz p) (addr + 4)), (Z.leb_spec (addr + 4) (sz p)); try lia; [done|].
  assert (uload32 (pgdir p) addr c (kpages (env s)) = Ret (uword s p addr) c (kpages (env s))) as E.
  { unfold uload32. run (uload_bytes_runs (pgdir p) 4 addr c (kpages (env s)) ltac:(lia) ltac:(unfold KERNBASE in *; lia)
      ltac:(intros; apply Hm; lia)). unfold uword, umem. cbn [seq map]. by rewrite Z.add_0_r. }
  run (user_read _ _ c s E). done.
Qed.

(** The [n]-th argument, if it lies in the memory of the process. *)
Definition arg_at s p (n : Z) : option Z :=
  let a := u32 (tf_esp (tf p) + 4 + 4 * n) in
  if a + 4 <=? sz p then Some (s32 (uword s p a)) else None.

Lemma argint_runs s i p n c : running s i p -> mapped s p -> argint n c s = Ret (arg_at s p n) c s.
Proof.
  intros Hr Hm. unfold argint. run (my_proc_runs s i p c Hr). by rewrite (fetchint_runs s i p) by (done || apply u32_range).
Qed.

Lemma argptr_runs s i p n size c : running s i p -> mapped s p -> - 2 ^ 31 <= size < 2 ^ 31 ->
  argptr n size c s = Ret (match arg_at s p n with
    | Some a => if (0 <=? size) && (u32 a <? sz p) && (u32 a + size <=? sz p) then Some (u32 a) else None
    | None => None end) c s.
Proof.
  intros Hr Hm Hs. unfold argptr. run (my_proc_runs s i p c Hr). run (argint_runs s i p n c Hr Hm).
  destruct (arg_at s p n) as [a|]; [|done]. pose proof (u32_range a). destruct Hm as [Hsz _].
  destruct (Z.ltb_spec size 0), (Z.leb_spec 0 size); try lia; [done|]. cbn [orb andb].
  destruct (Z.leb_spec (sz p) (u32 a)), (Z.ltb_spec (u32 a) (sz p)); try lia; [done|]. cbn [orb andb].
  rewrite (u32_small (u32 a + size)) by (unfold KERNBASE in *; lia).
  by destruct (Z.ltb_spec (sz p) (u32 a + size)), (Z.leb_spec (u32 a + size) (sz p)); try lia.
Qed.

(** [l] is the string at [a]: it ends in a NUL below [top]. *)
Definition ustring s p (a top : Z) (l : list Z) : Prop :=
  (forall k, (k < length l)%nat -> l !! k = Some (umem s p (a + Z.of_nat k)) /\ umem s p (a + Z.of_nat k) <> 0) /\
  a + Z.of_nat (length l) < top /\ umem s p (a + Z.of_nat (length l)) = 0.

Lemma fetchstr_loop_runs s p c n : forall a, 0 <= a -> a + Z.of_nat n <= sz p -> mapped s p ->
  exists r, fetchstr_loop n (pgdir p) a c s = Ret r c s /\
    match r with
    | Some l => ustring s p a (a + Z.of_nat n) l
    | None => forall x, a <= x < a + Z.of_nat n -> umem s p x <> 0
    end.
Proof.
  induction n as [|n IH]; intros a H0 H1 Hm; cbn [fetchstr_loop]; [exists None; split; [done|lia]|].
  pose proof Hm as [Hsz Hp].
  run (user_read _ _ c s (uload_runs (pgdir p) a c (kpages (env s)) (Hp a ltac:(lia)))). change (ubyte _ _ _) with (umem s p a).
  destruct (Z.eqb_spec (umem s p a) 0) as [E|N].
  { exists (Some []). split; [done|]. split; [intros k Hk; cbn in Hk; lia|]. cbn [length]. rewrite Z.add_0_r. split; [lia|done]. }
  assert (exists r, fetchstr_loop n (pgdir p) (u32 (a + 1)) c s = Ret r c s /\
    match r with
    | Some l => ustring s p (a + 1) (a + 1 + Z.of_nat n) l
    | None => forall x, a + 1 <= x < a + 1 + Z.of_nat n -> umem s p x <> 0
    end) as (r & R & Hr).
  { destruct n; [exists None; split; [done|lia]|]. rewrite u32_small by (unfold KERNBASE in *; lia). apply IH; [lia|lia|done]. }
  run R. exists (cons (umem s p a) <$> r). split; [done|]. destruct r as [l|]; cbn.
  - destruct Hr as (Hl & Ht & Hz). split; [|cbn [length]; split; [lia|]].
    + intros [|k] Hk; cbn [lookup list_lookup]; [by rewrite Z.add_0_r|]. cbn [length] in Hk.
      destruct (Hl k ltac:(lia)) as [H2 H3]. replace (a + Z.of_nat (Datatypes.S k)) with (a + 1 + Z.of_nat k) by lia. done.
    + replace (a + Z.of_nat (Datatypes.S (length l))) with (a + 1 + Z.of_nat (length l)) by lia. done.
  - intros x Hx. destruct (decide (x = a)) as [->|]; [done|]. apply Hr. lia.
Qed.

Lemma fetchstr_runs s i p addr c : running s i p -> mapped s p -> 0 <= addr < 2 ^ 32 ->
  exists r, fetchstr addr c s = Ret r c s /\
    match r with
    | Some l => ustring s p addr (sz p) l
    | None => forall x, addr <= x < sz p -> umem s p x <> 0
    end.
Proof.
  intros Hr Hm Ha. unfold fetchstr. run (my_proc_runs s i p c Hr).
  destruct (Z.leb_spec (sz p) addr); [exists None; split; [done|lia]|].
  destruct (fetchstr_loop_runs s p c (Z.to_nat (sz p - addr)) addr) as (r & R & H1); [lia|lia|done|].
  exists r. split; [done|]. by replace (addr + Z.of_nat (Z.to_nat (sz p - addr))) with (sz p) in H1 by lia.
Qed.

(** the word check of [fetchint] does not overflow: for every address, also
    close to 2^32, it reads the process's int exactly when all four bytes lie
    below [sz], and answers -1 otherwise. *)
Theorem fetchint_checks s i p addr c : running s i p -> mapped s p -> 0 <= addr < 2 ^ 32 ->
  fetchint addr c s = Ret (if addr + 4 <=? sz p then Some (s32 (uword s p addr)) else None) c s.
Proof. apply fetchint_runs. Qed.

(** C25: a block that [argptr] accepts lies inside the process: whatever the
    user passes as pointer and size, a result [a] means that [a .. a + size) is
    below [sz] and so below the kernel, without wrapping around. *)
Theorem argptr_in_process s i p n size c a c' s' : running s i p -> mapped s p -> - 2 ^ 31 <= size < 2 ^ 31 ->
  argptr n size c s = Ret (Some a) c' s' ->
  s' = s /\ 0 <= a /\ a + size <= sz p /\ sz p <= KERNBASE /\ 0 <= size /\ s32 a = default 0 (arg_at s p n).
Proof.
  intros Hr Hm Hs. rewrite (argptr_runs s i p n size c Hr Hm Hs). destruct (arg_at s p n) as [v|] eqn:Ea; [|done].
  destruct ((0 <=? size) && (u32 v <? sz p) && (u32 v + size <=? sz p)) eqn:E; [|done]. intros [= <- <- <-].
  apply andb_prop in E as [[H1%Z.leb_le H2%Z.ltb_lt]%andb_prop H3%Z.leb_le]. pose proof (u32_range v).
  split; [done|]. split; [lia|]. split; [lia|]. split; [apply Hm|]. split; [done|]. cbn.
  unfold arg_at in Ea. destruct (_ <=? sz p); [|done]. injection Ea as <-. word_lia.
Qed.

(** [fetchstr] returns the string: when it succeeds, the result is the bytes
    from [addr] up to a NUL inside the process, and it fails only when no NUL
    follows before the end of the process. *)
Theorem fetchstr_finds_string s i p addr c : running s i p -> mapped s p -> 0 <= addr < 2 ^ 32 ->
  exists r, fetchstr addr c s = Ret r c s /\
    match r with
    | Some l => ustring s p addr (sz p) l
    | None => forall x, addr <= x < sz p -> umem s p x <> 0
    end.
Proof. apply fetchstr_runs. Qed.

End args.
