(* ===== verification/Sysproc.v ===== *)
(** sysproc.c: the system calls on processes, and [shutdown] of kshutdown.c. *)

From stdpp Require Import functions base numbers list strings gmap.
From S2P Require Import Xv6 Prelude Kstring Bytes Kalloc Vm PageTable Uvm Copyuvm Fs File Proc Kernel Syscall.

(** types.h [struct procInfo]: what [proc_ps] stores in an entry of the user's
    array: the name up to its NUL, then the numbers. *)
Definition sizeof_procInfo : Z := 28.
Fixpoint upto_nul (l : list Z) : list Z :=
  match l with
  | [] => []
  | c :: l => if c =? 0 then [0] else c :: upto_nul l
  end.

Section sysproc.
Context {S : Type} {TB : TxBlocks S} {PE : ProcEnv (fstate S)}.
(** [shutdown]: a write to the port of QEMU's exit device. *)
Context (shutdown : M (pst (fstate S)) unit).
Context (forkret_eip trapret_eip : Z).

Definition sys_fork : M (pst (fstate S)) Z := fork forkret_eip trapret_eip.

Definition sys_exit : M (pst (fstate S)) Z := exit;; ret 0.

Definition sys_wait : M (pst (fstate S)) Z := wait.

Definition sys_kill : M (pst (fstate S)) Z :=
  pid <- argint 0;;
  match pid with None => ret (-1) | Some pid => kill pid end.

Definition sys_getpid : M (pst (fstate S)) Z := p <- my_proc;; ret (pid p).

Definition sys_sbrk : M (pst (fstate S)) Z :=
  n <- argint 0;;
  match n with
  | None => ret (-1)
  | Some n =>
      p <- my_proc;;
      let addr := s32 (sz p) in
      r <- growproc n;;
      if r <? 0 then ret (-1) else ret addr
  end.

(** The loop of [sys_sleep], with [tickslock] held. *)
Definition sleep_loop (n ticks0 : Z) : M (pst (fstate S)) Z :=
  t <- gets ticks;;
  if u32 (t - ticks0) <? u32 n then
    p <- my_proc;;
    if killed p then release Ltime;; ret (-1)
    else sleep Cticks Ltime;; ret 0
  else release Ltime;; ret 0.

Definition sys_sleep : M (pst (fstate S)) Z :=
  n <- argint 0;;
  match n with
  | None => ret (-1)
  | Some n =>
      acquire Ltime;;
      ticks0 <- gets ticks;;
      sleep_loop n ticks0
  end.
(** ... and when it is woken. *)
Definition sys_sleep_resumed (n ticks0 : Z) : M (pst (fstate S)) Z :=
  sleep_resumed Ltime;; sleep_loop n ticks0.

Definition sys_uptime : M (pst (fstate S)) Z :=
  acquire Ltime;;
  xticks <- gets ticks;;
  release Ltime;;
  ret (s32 xticks).

Definition sys_yield : M (pst (fstate S)) Z := yield;; ret 0.

Definition sys_shutdown : M (pst (fstate S)) Z := shutdown;; ret 0.

(** The entries [proc_ps] writes, from [a] on. *)
Fixpoint store_infos (pg a : Z) (l : list procInfo) : M (pst (fstate S)) unit :=
  match l with
  | [] => ret tt
  | q :: l =>
      user_mem (ustore_bytes pg (u32 (a + 12)) (upto_nul (pi_name q)));;
      user_mem (ustore_bytes pg (u32 (a + 4)) (word_bytes (pi_pid q)));;
      user_mem (ustore_bytes pg a (word_bytes (pi_state q)));;
      user_mem (ustore_bytes pg (u32 (a + 8)) (word_bytes (pi_cpuPercent q)));;
      store_infos pg (u32 (a + sizeof_procInfo)) l
  end.

Definition sys_ps : M (pst (fstate S)) Z :=
  n <- argint 0;;
  match n with
  | None => ret (-1)
  | Some n =>
      a <- argptr 1 4;;
      match a with
      | None => ret (-1)
      | Some a =>
          p <- my_proc;;
          r <- proc_ps n [];;
          store_infos (pgdir p) a (snd r);;
          ret (fst r)
      end
  end.

Definition sys_nice (p : option nat) : M (pst (fstate S)) Z :=
  match p with
  | None => undef "null proc pointer"
  | Some i =>
      q <- load i;;
      proc_nice (pid q) (priority q);;
      ret 0
  end.

End sysproc.
