(* ===== verification/Exec.v ===== *)
(** exec.c, with [loaduvm] of vm.c. *)

From stdpp Require Import functions base numbers list strings gmap.
From S2P Require Import Xv6 Prelude Kstring Bytes Kalloc Vm PageTable Uvm Copyuvm Fs File Proc Kernel Syscall.

(** elf.h: the fields of [struct elfhdr] and [struct proghdr] that [exec] uses. *)
Definition ELF_MAGIC : Z := 0x464C457F.
Definition ELF_PROG_LOAD : Z := 1.
Definition sizeof_elfhdr : Z := 52.
Definition sizeof_proghdr : Z := 32.
Record elfhdr := Elfhdr { e_magic : Z; e_entry : Z; e_phoff : Z; e_phnum : Z }.
Definition elfhdr_of (d : list Z) : elfhdr := Elfhdr (get32 d 0) (get32 d 24) (get32 d 28) (get16 d 44).
Record proghdr := Proghdr { p_type : Z; p_off : Z; p_vaddr : Z; p_filesz : Z; p_memsz : Z }.
Definition proghdr_of (d : list Z) : proghdr :=
  Proghdr (get32 d 0) (get32 d 4) (get32 d 8) (get32 d 16) (get32 d 20).

(** The part of [path] after its last slash. *)
Fixpoint last_elem (path last : list Z) : list Z :=
  match path with
  | [] => last
  | c :: path => last_elem path (if c =? slash then path else last)
  end.

(** The contents of a name of 16 bytes after [safestrcpy] of string [src]. *)
Definition set_pname (dst src : list Z) : list Z := copy_name dst (take 16 (src ++ 0 :: replicate 16 0)).

Section exec.
Context {S : Type} {TB : TxBlocks S} {DV : Devices (fs S)}.
Context (end_ data : Z) (junk : list Z).

Definition kvm {A} (m : M kmem A) : M (pst (fstate S)) A := call (on_kmem m).
Definition in_fs {A} (m : M (fs S) A) : M (pst (fstate S)) A := call (on_fs m).

(** The loop of [loaduvm] from page [i] of the segment. *)
Fixpoint load_loop (k : nat) (pgdir addr : Z) (ip : nat) (offset sz i : Z) : M (pst (fstate S)) Z :=
  if sz <=? i then ret 0
  else match k with
  | O => undef "loaduvm: fuel"
  | Datatypes.S k =>
      pte <- kvm (walkpgdir pgdir (u32 (addr + i)) false);;
      if pte =? 0 then panic "loaduvm: address should exist"
      else
        e <- kvm (peek pte);;
        let n := if sz - i <? PGSIZE then sz - i else PGSIZE in
        v <- kvm (p2v (PTE_ADDR e));;
        r <- in_fs (readi ip (u32 (offset + i)) n);;
        kvm (on_ram (fun m => put_bytes m v (snd r)));;
        if negb (u32 (fst r) =? n) then ret (-1)
        else load_loop k pgdir addr ip offset sz (u32 (i + PGSIZE))
  end.
Definition loaduvm (pgdir addr : Z) (ip : nat) (offset sz : Z) : M (pst (fstate S)) Z :=
  if negb (addr mod PGSIZE =? 0) then panic "loaduvm: addr must be page aligned"
  else load_loop (Z.to_nat (sz / PGSIZE + 1)) pgdir addr ip offset sz 0.

(** The loop over the program headers; the size of the image, or [None] where
    the code jumps to [bad]. *)
Fixpoint load_segments (k : nat) (pgdir : Z) (ip : nat) (off sz : Z) : M (pst (fstate S)) (option Z) :=
  match k with
  | O => ret (Some sz)
  | Datatypes.S k =>
      r <- in_fs (readi ip (u32 off) sizeof_proghdr);;
      if negb (fst r =? sizeof_proghdr) then ret None
      else
        let ph := proghdr_of (snd r) in
        if negb (p_type ph =? ELF_PROG_LOAD) then load_segments k pgdir ip (s32 (off + sizeof_proghdr)) sz
        else if p_memsz ph <? p_filesz ph then ret None
        else if u32 (p_vaddr ph + p_memsz ph) <? p_vaddr ph then ret None
        else
          sz <- kvm (Vm.allocuvm end_ pgdir sz (u32 (p_vaddr ph + p_memsz ph)));;
          if sz =? 0 then ret None
          else if negb (p_vaddr ph mod PGSIZE =? 0) then ret None
          else
            r <- loaduvm pgdir (p_vaddr ph) ip (p_off ph) (p_filesz ph);;
            if r <? 0 then ret None else load_segments k pgdir ip (s32 (off + sizeof_proghdr)) sz
  end.

(** The loop that pushes the argument strings; the stack pointer and the
    addresses of the strings. *)
Fixpoint push_args (pgdir sp : Z) (argc : Z) (argv : list (list Z)) : M kmem (option (Z * list Z)) :=
  match argv with
  | [] => ret (Some (sp, []))
  | a :: argv =>
      if MAXARG <=? argc then ret None
      else
        let sp := Z.land (u32 (sp - (Z.of_nat (length a) + 1))) (Z.lnot 3) in
        r <- copyout pgdir sp (a ++ [0]);;
        if r <? 0 then ret None
        else
          rest <- push_args pgdir sp (argc + 1) argv;;
          ret (match rest with Some (sp', l) => Some (sp', sp :: l) | None => None end)
  end.

(** The words of [ustack]. *)
Definition ustack (sp : Z) (argc : Z) (ptrs : list Z) : list Z :=
  [0xffffffff; argc; u32 (sp - (argc + 1) * 4)] ++ ptrs ++ [0].

(** Strings and [ustack]; the final stack pointer. *)
Definition build_stack (pgdir sz : Z) (argv : list (list Z)) : M kmem (option Z) :=
  r <- push_args pgdir sz 0 argv;;
  match r with
  | None => ret None
  | Some (sp, ptrs) =>
      let argc := Z.of_nat (length argv) in
      let words := ustack sp argc ptrs in
      let sp := u32 (sp - (3 + argc + 1) * 4) in
      r <- copyout pgdir sp (concat (map word_bytes words));;
      if r <? 0 then ret None else ret (Some sp)
  end.

(** [bad:] with [pgdir] and [ip] as they are there. *)
Definition exec_bad (pgdir : Z) (ip : option nat) : M (pst (fstate S)) Z :=
  (if negb (pgdir =? 0) then kvm (Vm.freevm end_ pgdir) else ret tt);;
  (match ip with Some i => in_fs (iunlockput i);; in_fs Fs.end_op | None => ret tt end);;
  ret (-1).

(** The commit to the new image. *)
Definition exec_commit (path : list Z) (pgdir sz entry sp : Z) : M (pst (fstate S)) Z :=
  c <- curproc;;
  p <- load c;;
  store c (fun p => set_name (set_pname (name p) (last_elem path path)) p);;
  let oldpgdir := Proc.pgdir p in
  store c (set_pgdir pgdir);;
  store c (set_sz sz);;
  store c (fun p => set_tf (set_eip_esp entry sp (tf p)) p);;
  call (switchuvm pgdir (kstack p));;
  kvm (Vm.freevm end_ oldpgdir);;
  ret 0.

Definition exec (path : list Z) (argv : list (list Z)) : M (pst (fstate S)) Z :=
  in_fs Fs.begin_op;;
  p <- my_proc;;
  (match cwd p with
   | None => undef "null cwd"
   | Some d => ip <- in_fs (namei d path junk);;
  match ip with
  | None => in_fs Fs.end_op;; ret (-1)
  | Some ip =>
      in_fs (ilock (Some ip));;
      r <- in_fs (readi ip 0 sizeof_elfhdr);;
      if negb (fst r =? sizeof_elfhdr) then exec_bad 0 (Some ip)
      else
        let elf := elfhdr_of (snd r) in
        if negb (e_magic elf =? ELF_MAGIC) then exec_bad 0 (Some ip)
        else
          pgdir <- kvm (Vm.setupkvm end_ data);;
          if pgdir =? 0 then exec_bad 0 (Some ip)
          else
            sz <- load_segments (Z.to_nat (e_phnum elf)) pgdir ip (s32 (e_phoff elf)) 0;;
            match sz with
            | None => exec_bad pgdir (Some ip)
            | Some sz =>
                in_fs (iunlockput ip);;
                in_fs Fs.end_op;;
                let sz := PGROUNDUP sz in
                sz <- kvm (Vm.allocuvm end_ pgdir sz (u32 (sz + 2 * PGSIZE)));;
                if sz =? 0 then exec_bad pgdir None
                else
                  kvm (clearpteu pgdir (u32 (sz - 2 * PGSIZE)));;
                  sp <- kvm (build_stack pgdir sz argv);;
                  match sp with
                  | None => exec_bad pgdir None
                  | Some sp => exec_commit path pgdir sz (e_entry elf) sp
                  end
            end
  end end).

End exec.
