(* ===== verification/ExecStack.v ===== *)
(** The initial stack [exec] builds: the argument strings and the words [main]
    finds its arguments through. *)

From stdpp Require Import functions base numbers list strings gmap.
From S2P Require Import Xv6 Prelude Kstring Bytes Kalloc Vm PageTable Uvm Copyuvm Fs File Proc Kernel Syscall Exec.

Section stack.
Context (end_ : Z).
Implicit Types (k : kmem) (free : list Z) (pg : Z) (t : thread) (w : list chan) (h : list lockid).

(** Only user bytes of [[lo, hi)] changed. *)
Record within k free pg (lo hi : Z) k' : Prop := {
  wi_ok : uvm_ok end_ k' free pg;
  wi_entry a : entry (ram k') pg a = entry (ram k) pg a;
  wi_byte a : 0 <= a < KERNBASE -> present (entry (ram k) pg a) = true -> ~ (lo <= a < hi) -> ubyte (ram k') pg a = ubyte (ram k) pg a }.

Lemma within_refl k free pg lo : uvm_ok end_ k free pg -> within k free pg lo lo k.
Proof. intros U. by split. Qed.

Lemma within_trans k free pg l1 r1 l2 r2 lo hi k1 k2 : within k free pg l1 r1 k1 -> within k1 free pg l2 r2 k2 ->
  lo <= l1 -> lo <= l2 -> r1 <= hi -> r2 <= hi -> within k free pg lo hi k2.
Proof.
  intros [A1 A2 A3] [B1 B2 B3] H1 H2 H3 H4. split; [done|by intros; rewrite B2|]. intros x Hx Hp Hn.
  rewrite B3, A3; [done|done|done|lia|done|by rewrite A2|lia].
Qed.

Lemma stored_within k free pg va l k' : stored end_ k free pg va l k' -> within k free pg va (va + Z.of_nat (length l)) k'.
Proof.
  intros [A1 A2 A3 A4 A5]. split; [done|done|]. intros a Ha Hp Hn. rewrite A3 by done. zcases; cbn [andb]; try lia; done.
Qed.

(** The bytes [l] are at user address [a]. *)
Definition holds k pg (a : Z) (l : list Z) : Prop := forall j, (j < length l)%nat -> ubyte (ram k) pg (a + Z.of_nat j) = nth j l 0.

Lemma stored_holds k free pg va l k' : stored end_ k free pg va l k' -> 0 <= va -> va + Z.of_nat (length l) <= KERNBASE ->
  reachable k pg va (Z.of_nat (length l)) -> holds k' pg va l.
Proof.
  intros [A1 A2 A3 A4 A5] H0 H1 Hr j Hj. rewrite A3; [|lia|apply Hr; lia].
  zcases; cbn [andb]; try lia. f_equal. lia.
Qed.

Lemma within_holds k free pg lo hi k' a l : within k free pg lo hi k' -> holds k pg a l -> hi <= a -> 0 <= a ->
  a + Z.of_nat (length l) <= KERNBASE -> reachable k pg a (Z.of_nat (length l)) -> holds k' pg a l.
Proof. intros [A1 A2 A3] H H1 H2 H3 Hr j Hj. rewrite A3; [by apply H|lia|apply Hr; lia|lia]. Qed.

(** What string [a] takes of the stack. *)
Definition arg_size (a : list Z) : Z := (Z.of_nat (length a) + 4) / 4 * 4.
Fixpoint args_size (argv : list (list Z)) : Z :=
  match argv with [] => 0 | a :: argv => arg_size a + args_size argv end.

Lemma args_size_pos argv : 0 <= args_size argv.
Proof. induction argv as [|a argv IH]; cbn [args_size]; [lia|]. unfold arg_size. Z.to_euclidean_division_equations. lia. Qed.

Lemma align_down x : 0 <= x -> Z.land x (Z.lnot 3) = x / 4 * 4.
Proof. intros Hx. change 3 with (2 ^ 2 - 1). by rewrite land_lnot_pow2. Qed.

(** The strings lie below [sp] in the order of their pointers, each at its own
    place. *)
Inductive laid_out k pg : Z -> Z -> list Z -> list (list Z) -> Prop :=
| laid_nil sp : laid_out k pg sp sp [] []
| laid_cons sp sp' q ptrs a argv :
    q mod 4 = 0 -> q + Z.of_nat (length a) + 1 <= sp -> sp <= q + arg_size a -> holds k pg q (a ++ [0]) ->
    laid_out k pg q sp' ptrs argv -> laid_out k pg sp sp' (q :: ptrs) (a :: argv).

Lemma laid_out_bounds k pg sp sp' ptrs argv : laid_out k pg sp sp' ptrs argv -> sp mod 4 = 0 ->
  sp - args_size argv = sp' /\ sp' mod 4 = 0 /\ length ptrs = length argv /\ Forall (fun q => sp' <= q < sp) ptrs.
Proof.
  induction 1 as [sp|sp sp' q ptrs a argv H1 H2 H3 H4 H5 IH]; intros Hm; [cbn [args_size]; split; [lia|done]|].
  destruct (IH H1) as (E1 & E2 & E3 & E4). cbn [args_size]. pose proof (args_size_pos argv).
  assert (sp = q + arg_size a) as Es by (unfold arg_size in *; Z.to_euclidean_division_equations; lia).
  split; [lia|]. split; [done|]. split; [by cbn; f_equal|]. constructor; [lia|]. eapply Forall_impl; [exact E4|]. cbn. lia.
Qed.

Lemma laid_out_kept k free pg lo k' : forall sp sp' ptrs argv, within k free pg lo sp' k' -> laid_out k pg sp sp' ptrs argv -> sp mod 4 = 0 ->
  sp <= KERNBASE -> 0 <= sp' -> reachable k pg sp' (sp - sp') -> laid_out k' pg sp sp' ptrs argv.
Proof.
  intros sp sp' ptrs argv W. induction 1 as [sp|sp sp' q ptrs a argv H1 H2 H3 H4 H5 IH]; intros Hm Hk H0 Hr; [constructor|].
  destruct (laid_out_bounds _ _ _ _ _ _ H5 H1) as (E & _). pose proof (args_size_pos argv).
  constructor; try done.
  - eapply within_holds; [done|done|lia|lia|rewrite length_app; cbn; lia|]. rewrite length_app. cbn [length]. intros x Hx. apply Hr. lia.
  - apply IH; try done; try lia. intros x Hx. apply Hr. lia.
Qed.

Lemma push_args_runs t h w pg argv : forall k free sp argc,
  uvm_ok end_ k free pg -> sp mod 4 = 0 -> 0 <= sp - args_size argv -> sp <= KERNBASE ->
  reachable k pg (sp - args_size argv) (args_size argv) -> Forall (Forall (fun b => 0 <= b < 256)) argv ->
  argc + Z.of_nat (length argv) <= MAXARG ->
  exists sp' ptrs k', push_args pg sp argc argv (Ctx t h w) k = Ret (Some (sp', ptrs)) (Ctx t h w) k' /\
    laid_out k' pg sp sp' ptrs argv /\ within k free pg sp' sp k'.
Proof.
  induction argv as [|a argv IH]; intros k free sp argc U Hm Hlo Hhi Hr Hb Hargc; cbn [push_args].
  { exists sp, [], k. split; [done|]. split; [constructor|by apply within_refl]. }
  cbn [args_size] in *. pose proof (args_size_pos argv) as Hp. cbn [length] in Hargc.
  apply Forall_cons in Hb as [Hba Hb]. destruct (Z.leb_spec MAXARG argc); [lia|].
  assert (0 <= arg_size a) by (unfold arg_size; Z.to_euclidean_division_equations; lia).
  rewrite u32_small by (unfold arg_size, KERNBASE in *; Z.to_euclidean_division_equations; lia).
  rewrite align_down by (unfold arg_size in *; Z.to_euclidean_division_equations; lia).
  set (q := (sp - (Z.of_nat (length a) + 1)) / 4 * 4).
  assert (q = sp - arg_size a) as Hq by (unfold q, arg_size; Z.to_euclidean_division_equations; lia).
  assert (q mod 4 = 0) as Hq4 by (unfold q; apply Z.mod_mul; lia).
  assert (Z.of_nat (length (a ++ [0])) = Z.of_nat (length a) + 1) as El by (rewrite length_app; cbn; lia).
  assert (Z.of_nat (length a) + 1 <= arg_size a) by (unfold arg_size; Z.to_euclidean_division_equations; lia).
  destruct (copyout_loop_runs end_ t h w pg (Z.to_nat (Z.of_nat (length (a ++ [0])) / PGSIZE + 2)) k free q (a ++ [0])) as (k1 & R1 & S1).
  { done. } { lia. } { lia. } { intros x Hx. apply Hr. lia. } { apply Forall_app. split; [done|]. by repeat constructor. }
  { pose proof (Z.mod_pos_bound q 4096 ltac:(lia)). unfold PGSIZE. Z.to_euclidean_division_equations. lia. }
  change (copyout_loop _ pg q (a ++ [0])) with (copyout pg q (a ++ [0])) in R1. run R1. cbn [Z.ltb Z.compare].
  pose proof (stored_within _ _ _ _ _ _ S1) as W1. rewrite El in W1.
  assert (reachable k1 pg (q - args_size argv) (args_size argv)) as Hr1.
  { intros x Hx. rewrite (sd_entry _ _ _ _ _ _ _ S1). apply Hr. lia. }
  destruct (IH k1 free q (argc + 1)) as (sp' & ptrs & k2 & R2 & L2 & W2); try done; try lia; [apply S1|].
  run R2. destruct (laid_out_bounds _ _ _ _ _ _ L2 Hq4) as (Esp & _).
  exists sp', (q :: ptrs), k2. split; [done|]. split.
  - constructor; try done; try lia. eapply within_holds; [exact W2| |lia|lia|lia|].
    + apply (stored_holds k free); [done|lia|lia|]. intros x Hx. apply Hr. lia.
    + intros x Hx. rewrite (sd_entry _ _ _ _ _ _ _ S1). apply Hr. lia.
  - eapply within_trans; [exact W1|exact W2|lia..].
Qed.

(** The 32-bit word at user address [a]. *)
Definition uword_at k pg (a : Z) : Z :=
  get32 [ubyte (ram k) pg a; ubyte (ram k) pg (a + 1); ubyte (ram k) pg (a + 2); ubyte (ram k) pg (a + 3)] 0.

Lemma word_bytes_range v : Forall (fun b => 0 <= b < 256) (word_bytes v).
Proof. repeat constructor; apply u8_range. Qed.

Lemma get32_word_bytes v : 0 <= v < 2 ^ 32 -> get32 (word_bytes v) 0 = v.
Proof. intros Hv. unfold get32, word_bytes, byte. cbn. word_lia. Qed.

Lemma holds_app k pg a l1 l2 : holds k pg a (l1 ++ l2) <-> holds k pg a l1 /\ holds k pg (a + Z.of_nat (length l1)) l2.
Proof.
  unfold holds. rewrite length_app. split.
  - intros H. split; intros j Hj.
    + rewrite H by lia. by rewrite app_nth1.
    + rewrite <- Z.add_assoc, <- Nat2Z.inj_add, H by lia. rewrite app_nth2 by lia. f_equal. lia.
  - intros [H1 H2] j Hj. destruct (decide (j < length l1)%nat).
    + rewrite H1 by done. by rewrite app_nth1.
    + rewrite app_nth2 by lia. rewrite <- H2 by lia. f_equal. lia.
Qed.

Lemma holds_word k pg a v : holds k pg a (word_bytes v) -> 0 <= v < 2 ^ 32 -> uword_at k pg a = v.
Proof.
  intros H Hv. unfold uword_at. pose proof (H 0%nat ltac:(cbn; lia)) as E0. pose proof (H 1%nat ltac:(cbn; lia)) as E1.
  pose proof (H 2%nat ltac:(cbn; lia)) as E2. pose proof (H 3%nat ltac:(cbn; lia)) as E3.
  rewrite Z.add_0_r in E0. change (Z.of_nat 1) with 1 in E1. change (Z.of_nat 2) with 2 in E2. change (Z.of_nat 3) with 3 in E3.
  rewrite E0, E1, E2, E3. by apply get32_word_bytes.
Qed.

Lemma length_words ws : length (concat (map word_bytes ws)) = (4 * length ws)%nat.
Proof. induction ws as [|v ws IH]; [done|]. cbn [map concat]. rewrite length_app, IH. cbn. lia. Qed.

Lemma holds_words k pg ws : forall a, holds k pg a (concat (map word_bytes ws)) -> Forall (fun v => 0 <= v < 2 ^ 32) ws ->
  forall j v, ws !! j = Some v -> uword_at k pg (a + 4 * Z.of_nat j) = v.
Proof.
  induction ws as [|v0 ws IH]; intros a H Hr j v Hj; [by rewrite lookup_nil in Hj|].
  cbn [map concat] in H. apply holds_app in H as [H1 H2]. apply Forall_cons in Hr as [Hv Hr].
  destruct j as [|j]; cbn in Hj.
  - injection Hj as <-. rewrite Z.mul_0_r, Z.add_0_r. by apply holds_word.
  - change (Z.of_nat (length (word_bytes v0))) with 4 in H2. rewrite <- (IH _ H2 Hr j v Hj). f_equal. lia.
Qed.

Lemma laid_out_lookup k pg sp sp' ptrs argv : laid_out k pg sp sp' ptrs argv -> forall j a, argv !! j = Some a ->
  exists q, ptrs !! j = Some q /\ holds k pg q (a ++ [0]).
Proof.
  induction 1 as [sp|sp sp' q ptrs a argv H1 H2 H3 H4 H5 IH]; intros j b Hj; [by rewrite lookup_nil in Hj|].
  destruct j as [|j]; cbn in *; [injection Hj as <-; by exists q|by apply IH].
Qed.

(** The size of the stack built for [argv]. *)
Definition stack_size (argv : list (list Z)) : Z := args_size argv + 4 * (4 + Z.of_nat (length argv)).

Lemma build_stack_runs t h w k free pg top argv :
  uvm_ok end_ k free pg -> top mod 4 = 0 -> 0 <= top - stack_size argv -> top <= KERNBASE ->
  reachable k pg (top - stack_size argv) (stack_size argv) -> Forall (Forall (fun b => 0 <= b < 256)) argv ->
  Z.of_nat (length argv) <= MAXARG ->
  exists k', let sp := top - stack_size argv in
    build_stack pg top argv (Ctx t h w) k = Ret (Some sp) (Ctx t h w) k' /\ within k free pg sp top k' /\
    uword_at k' pg sp = 0xffffffff /\ uword_at k' pg (sp + 4) = Z.of_nat (length argv) /\ uword_at k' pg (sp + 8) = sp + 12 /\
    (forall j a, argv !! j = Some a -> holds k' pg (uword_at k' pg (sp + 12 + 4 * Z.of_nat j)) (a ++ [0])) /\
    uword_at k' pg (sp + 12 + 4 * Z.of_nat (length argv)) = 0.
Proof.
  intros U Hm Hlo Hhi Hr Hb Hn. unfold build_stack. pose proof (args_size_pos argv) as Hpos. unfold stack_size in *.
  destruct (push_args_runs t h w pg argv k free top 0) as (sp1 & ptrs & k1 & R1 & L1 & W1); try done; try lia.
  { intros x Hx. apply Hr. lia. }
  run R1. destruct (laid_out_bounds _ _ _ _ _ _ L1 Hm) as (E1 & Hm1 & Elen & Hptrs). set (n := Z.of_nat (length argv)) in *.
  assert (0 <= n) by lia. rewrite !u32_small by (unfold KERNBASE in *; lia).
  set (ws := ustack sp1 n ptrs). assert (length ws = (4 + length argv)%nat) as Ews.
  { unfold ws, ustack. rewrite !length_app, Elen. cbn [length]. lia. }
  set (sp := sp1 - (3 + n + 1) * 4). assert (sp = top - (args_size argv + 4 * (4 + n))) as Esp by (unfold sp; lia). rewrite <- Esp in *.
  set (bs := concat (map word_bytes ws)). assert (Z.of_nat (length bs) = 4 * (4 + n)) as Ebs by (unfold bs; rewrite length_words, Ews; lia).
  assert (Forall (fun b => 0 <= b < 256) bs) as Hbs by (apply Forall_concat, Forall_map, Forall_true; intros; apply word_bytes_range).
  assert (reachable k1 pg sp (Z.of_nat (length bs))) as Hr1.
  { intros x Hx. rewrite (wi_entry _ _ _ _ _ _ W1). apply Hr. lia. }
  destruct (copyout_loop_runs end_ t h w pg (Z.to_nat (Z.of_nat (length bs) / PGSIZE + 2)) k1 free sp bs) as (k2 & R2 & S2); try done; try lia.
  { apply W1. }
  { pose proof (Z.mod_pos_bound sp 4096 ltac:(lia)). unfold PGSIZE. Z.to_euclidean_division_equations. lia. }
  change (copyout_loop _ pg sp bs) with (copyout pg sp bs) in R2. run R2. cbn [Z.ltb Z.compare].
  pose proof (stored_within _ _ _ _ _ _ S2) as W2. rewrite Ebs in W2. replace (sp + 4 * (4 + n)) with sp1 in W2 by (unfold sp; lia).
  pose proof (laid_out_kept k1 free pg sp k2 top sp1 ptrs argv W2 L1 Hm Hhi ltac:(lia)) as L2. specialize (L2 ltac:(intros x Hx; rewrite (wi_entry _ _ _ _ _ _ W1); apply Hr; lia)).
  pose proof (stored_holds k1 free pg sp bs k2 S2 ltac:(lia) ltac:(lia) Hr1) as H2.
  assert (Forall (fun v => 0 <= v < 2 ^ 32) ws) as Hws.
  { unfold ws, ustack. pose proof (u32_range (sp1 - (n + 1) * 4)). unfold MAXARG in Hn. repeat (apply Forall_cons; split); try lia.
    apply Forall_app. split; [|repeat constructor; lia]. eapply Forall_impl; [exact Hptrs|]. unfold KERNBASE in *. cbn. lia. }
  pose proof (holds_words k2 pg ws sp H2 Hws) as Hw.
  exists k2. split; [done|]. split; [eapply within_trans; [exact W1|exact W2|lia..]|].
  split; [rewrite <- (Z.add_0_r sp); by apply (Hw 0%nat)|]. split; [by apply (Hw 1%nat)|].
  split; [change (sp + 8) with (sp + 4 * Z.of_nat 2); rewrite (Hw 2%nat (sp1 - (n + 1) * 4)); [unfold sp; lia|]; unfold ws, ustack; cbn; rewrite u32_small by (unfold KERNBASE in *; lia); done|]. split.
  - intros j a Hj. destruct (laid_out_lookup _ _ _ _ _ _ L2 j a Hj) as (q & Hq & Hh).
    replace (sp + 12 + 4 * Z.of_nat j) with (sp + 4 * Z.of_nat (3 + j)) by lia. rewrite (Hw (3 + j)%nat q); [done|].
    change ((ptrs ++ [0]) !! j = Some q). by apply lookup_app_l_Some.
  - replace (sp + 12 + 4 * n) with (sp + 4 * Z.of_nat (3 + length argv)) by lia. apply Hw.
    change ((ptrs ++ [0]) !! length argv = Some 0). rewrite lookup_app_r by lia. by rewrite Elen, Nat.sub_diag.
Qed.

(** C17: the stack [exec] builds is the one [main(argc, argv)] expects.  With
    [argv] of at most [MAXARG] strings and a stack big enough, the words from
    the stack pointer on are the fake return address, [argc], a pointer to the
    word after it and there, terminated by 0, one pointer per argument, each to
    the NUL-terminated bytes of the argument; nothing else of the process
    changes. *)
Theorem exec_stack_layout t h w k free pg top argv :
  uvm_ok end_ k free pg -> top mod 4 = 0 -> 0 <= top - stack_size argv -> top <= KERNBASE ->
  reachable k pg (top - stack_size argv) (stack_size argv) -> Forall (Forall (fun b => 0 <= b < 256)) argv ->
  Z.of_nat (length argv) <= MAXARG ->
  exists k', let sp := top - stack_size argv in
    build_stack pg top argv (Ctx t h w) k = Ret (Some sp) (Ctx t h w) k' /\ within k free pg sp top k' /\
    uword_at k' pg sp = 0xffffffff /\ uword_at k' pg (sp + 4) = Z.of_nat (length argv) /\ uword_at k' pg (sp + 8) = sp + 12 /\
    (forall j a, argv !! j = Some a -> holds k' pg (uword_at k' pg (sp + 12 + 4 * Z.of_nat j)) (a ++ [0])) /\
    uword_at k' pg (sp + 12 + 4 * Z.of_nat (length argv)) = 0.
Proof. apply build_stack_runs. Qed.

End stack.
