(* ===== verification/Sysfile.v ===== *)
(** sysfile.c: the system calls on files, over file.c and fs.c. *)

From stdpp Require Import functions base numbers list strings gmap.
From S2P Require Import Xv6 Prelude Kstring Bytes Proc Kalloc Vm PageTable Uvm Copyuvm Log Fs File Kernel Syscall Exec.

(** fcntl.h *)
Definition O_RDONLY : Z := 0x000.
Definition O_WRONLY : Z := 0x001.
Definition O_RDWR : Z := 0x002.
Definition O_CREATE : Z := 0x200.
Definition flag (omode f : Z) : bool := negb (Z.land omode f =? 0).

(** The stores of [stati] into the user's [struct stat], field by field. *)
Definition half_bytes (v : Z) : list Z := [u8 v; u8 (v / 2 ^ 8)].
Definition stat_stores (st : stat) : list (Z * list Z) :=
  [(4, word_bytes (st_dev st)); (8, word_bytes (st_ino st)); (0, half_bytes (st_type st));
   (12, half_bytes (st_nlink st)); (16, word_bytes (st_size st))].
Definition sizeof_stat : Z := 20.

Section sysfile.
Context {S : Type} {TB : TxBlocks S} {DV : Devices (fs S)}.
Context (end_ data : Z) (junk : list Z).

Definition in_file {A} (m : M (fstate S) A) : M (pst (fstate S)) A := call m.

(** The descriptor and the file; [None] is -1. *)
Definition argfd (n : Z) : M (pst (fstate S)) (option (nat * nat)) :=
  fd <- argint n;;
  match fd with
  | None => ret None
  | Some fd =>
      p <- my_proc;;
      if (fd <? 0) || (Z.of_nat NOFILE <=? fd) then ret None
      else match ofile p !! Z.to_nat fd with
           | Some (Some f) => ret (Some (Z.to_nat fd, f))
           | _ => ret None
           end
  end.

(** The first free descriptor. *)
Fixpoint free_fd (l : list (option nat)) (fd : nat) : option nat :=
  match l with
  | [] => None
  | None :: _ => Some fd
  | Some _ :: l => free_fd l (Datatypes.S fd)
  end.
Definition fdalloc (f : nat) : M (pst (fstate S)) (option nat) :=
  c <- curproc;;
  p <- load c;;
  match free_fd (ofile p) 0 with
  | Some fd =>
      store c (fun p => set_ofile (<[fd := Some f]> (ofile p)) p);;
      ret (Some fd)
  | None => ret None
  end.
(** [myproc()->ofile[fd] = 0]. *)
Definition fdclear (fd : nat) : M (pst (fstate S)) unit :=
  c <- curproc;;
  store c (fun p => set_ofile (<[fd := None]> (ofile p)) p).

Definition sys_dup : M (pst (fstate S)) Z :=
  r <- argfd 0;;
  match r with
  | None => ret (-1)
  | Some (_, f) =>
      fd <- fdalloc f;;
      match fd with
      | None => ret (-1)
      | Some fd => in_file (filedup f);; ret (Z.of_nat fd)
      end
  end.

Definition sys_read : M (pst (fstate S)) Z :=
  r <- argfd 0;;
  match r with None => ret (-1) | Some (_, f) =>
  n <- argint 2;;
  match n with None => ret (-1) | Some n =>
  a <- argptr 1 n;;
  match a with None => ret (-1) | Some a =>
      r <- in_file (fileread f n);;
      p <- my_proc;;
      user_mem (ustore_bytes (pgdir p) a (snd r));;
      ret (fst r)
  end end end.

Definition sys_write : M (pst (fstate S)) Z :=
  r <- argfd 0;;
  match r with None => ret (-1) | Some (_, f) =>
  n <- argint 2;;
  match n with None => ret (-1) | Some n =>
  a <- argptr 1 n;;
  match a with None => ret (-1) | Some a =>
      p <- my_proc;;
      l <- user_mem (uload_bytes (pgdir p) a (Z.to_nat n));;
      in_file (filewrite f l)
  end end end.

Definition sys_flock : M (pst (fstate S)) Z :=
  r <- argfd 0;;
  match r with Some (_, f) => in_file (filelock f) | None => ret (-1) end.

Definition sys_funlock : M (pst (fstate S)) Z :=
  r <- argfd 0;;
  match r with Some (_, f) => in_file (fileunlock f) | None => ret (-1) end.

Definition sys_close : M (pst (fstate S)) Z :=
  r <- argfd 0;;
  match r with
  | None => ret (-1)
  | Some (fd, f) =>
      fdclear fd;;
      in_file (fileclose end_ f);;
      ret 0
  end.

Fixpoint store_fields (pg a : Z) (l : list (Z * list Z)) : M (pst (fstate S)) unit :=
  match l with
  | [] => ret tt
  | (o, b) :: l => user_mem (ustore_bytes pg (u32 (a + o)) b);; store_fields pg a l
  end.

Definition sys_fstat : M (pst (fstate S)) Z :=
  r <- argfd 0;;
  match r with None => ret (-1) | Some (_, f) =>
  a <- argptr 1 sizeof_stat;;
  match a with None => ret (-1) | Some a =>
      r <- in_file (filestat f);;
      p <- my_proc;;
      (match snd r with Some st => store_fields (pgdir p) a (stat_stores st) | None => ret tt end);;
      ret (fst r)
  end end.

(** [curproc->cwd], where path lookup starts. *)
Definition my_cwd : M (pst (fstate S)) nat :=
  p <- my_proc;;
  match cwd p with Some d => ret d | None => undef "null cwd" end.

(** [namei] and [nameiparent] from the directory of the process. *)
Definition p_namei (path : list Z) : M (pst (fstate S)) (option nat) :=
  d <- my_cwd;; in_fs (namei d path junk).
Definition p_nameiparent (path : list Z) : M (pst (fstate S)) (option nat * list Z) :=
  d <- my_cwd;; in_fs (nameiparent d path junk).

(** [ip->nlink++] and [ip->nlink--] on the short. *)
Definition add_nlink (i : nat) (d : Z) : M (fs S) unit := istore i (fun p => set_i_nlink (s16 (i_nlink p + d)) p).

(** [bad:] of [sys_link]. *)
Definition link_bad (i : nat) : M (pst (fstate S)) Z :=
  in_fs (ilock (Some i));;
  in_fs (add_nlink i (-1));;
  in_fs (iupdate i);;
  in_fs (iunlockput i);;
  in_fs end_op;;
  ret (-1).

Definition sys_link : M (pst (fstate S)) Z :=
  old <- argstr 0;;
  match old with None => ret (-1) | Some old =>
  new <- argstr 1;;
  match new with None => ret (-1) | Some new =>
      in_fs begin_op;;
      ip <- p_namei old;;
      match ip with
      | None => in_fs end_op;; ret (-1)
      | Some i =>
          in_fs (ilock (Some i));;
          p <- in_fs (iload i);;
          if i_type p =? T_DIR then
            in_fs (iunlockput i);;
            in_fs end_op;;
            ret (-1)
          else
            in_fs (add_nlink i 1);;
            in_fs (iupdate i);;
            in_fs (iunlock (Some i));;
            r <- p_nameiparent new;;
            match r with
            | (None, _) => link_bad i
            | (Some d, name) =>
                in_fs (ilock (Some d));;
                q <- in_fs (iload d);;
                p <- in_fs (iload i);;
                if negb (i_dev q =? i_dev p) then in_fs (iunlockput d);; link_bad i
                else
                  r <- in_fs (dirlink d name (i_inum p));;
                  if r <? 0 then in_fs (iunlockput d);; link_bad i
                  else
                    in_fs (iunlockput d);;
                    in_fs (iput i);;
                    in_fs end_op;;
                    ret 0
            end
      end
  end end.

(** The loop of [isdirempty]. *)
Fixpoint isdirempty_loop (k : nat) (i : nat) (off : Z) : M (fs S) bool :=
  p <- iload i;;
  if i_size p <=? off then ret true
  else match k with
  | O => undef "isdirempty: fuel"
  | Datatypes.S k =>
      r <- readi i off sizeof_dirent;;
      if negb (fst r =? sizeof_dirent) then panic "isdirempty: readi"
      else if negb (de_inum (snd r) =? 0) then ret false
      else isdirempty_loop k i (u32 (off + sizeof_dirent))
  end.
Definition isdirempty (i : nat) : M (fs S) bool :=
  p <- iload i;;
  isdirempty_loop (Z.to_nat (i_size p / sizeof_dirent + 1)) i (2 * sizeof_dirent).

(** [bad:] of [sys_unlink]. *)
Definition unlink_bad (d : nat) : M (pst (fstate S)) Z :=
  in_fs (iunlockput d);;
  in_fs end_op;;
  ret (-1).

Definition sys_unlink : M (pst (fstate S)) Z :=
  path <- argstr 0;;
  match path with None => ret (-1) | Some path =>
      in_fs begin_op;;
      r <- p_nameiparent path;;
      match r with
      | (None, _) => in_fs end_op;; ret (-1)
      | (Some d, name) =>
          in_fs (ilock (Some d));;
          if (namecmp name (str "." ++ [0]) =? 0) || (namecmp name (str ".." ++ [0]) =? 0) then unlink_bad d
          else
            r <- in_fs (dirlookup d name);;
            match r with
            | None => unlink_bad d
            | Some (i, off) =>
                in_fs (ilock (Some i));;
                p <- in_fs (iload i);;
                if i_nlink p <? 1 then panic "unlink: nlink < 1"
                else
                  e <- (if i_type p =? T_DIR then in_fs (isdirempty i) else ret true);;
                  if negb e then in_fs (iunlockput i);; unlink_bad d
                  else
                    n <- in_fs (writei d (replicate (Z.to_nat sizeof_dirent) 0) off);;
                    if negb (n =? sizeof_dirent) then panic "unlink: writei"
                    else
                      p <- in_fs (iload i);;
                      (if i_type p =? T_DIR then in_fs (add_nlink d (-1));; in_fs (iupdate d) else ret tt);;
                      in_fs (iunlockput d);;
                      in_fs (add_nlink i (-1));;
                      in_fs (iupdate i);;
                      in_fs (iunlockput i);;
                      in_fs end_op;;
                      ret 0
            end
      end
  end.

(** The inode is returned locked. *)
Definition create (path : list Z) (type major minor : Z) : M (pst (fstate S)) (option nat) :=
  r <- p_nameiparent path;;
  match r with
  | (None, _) => ret None
  | (Some d, name) =>
      in_fs (ilock (Some d));;
      r <- in_fs (dirlookup d name);;
      match r with
      | Some (i, _) =>
          in_fs (iunlockput d);;
          in_fs (ilock (Some i));;
          p <- in_fs (iload i);;
          if (type =? T_FILE) && (i_type p =? T_FILE) then ret (Some i)
          else in_fs (iunlockput i);; ret None
      | None =>
          q <- in_fs (iload d);;
          i <- in_fs (ialloc (i_dev q) type);;
          in_fs (ilock (Some i));;
          in_fs (istore i (set_i_dev_nlink (s16 major) (s16 minor) 1));;
          in_fs (iupdate i);;
          p <- in_fs (iload i);;
          (if type =? T_DIR then
             in_fs (add_nlink d 1);;
             in_fs (iupdate d);;
             r1 <- in_fs (dirlink i (str "." ++ [0]) (i_inum p));;
             if r1 <? 0 then panic "create dots"
             else
               q <- in_fs (iload d);;
               r2 <- in_fs (dirlink i (str ".." ++ [0]) (i_inum q));;
               if r2 <? 0 then panic "create dots" else ret tt
           else ret tt);;
          r3 <- in_fs (dirlink d name (i_inum p));;
          if r3 <? 0 then panic "create: dirlink"
          else
            in_fs (iunlockput d);;
            ret (Some i)
      end
  end.

(** The inode of [sys_open], locked. *)
Definition open_inode (path : list Z) (omode : Z) : M (pst (fstate S)) (option nat) :=
  if flag omode O_CREATE then
    ip <- create path T_FILE 0 0;;
    match ip with
    | None => in_fs end_op;; ret None
    | Some i => ret (Some i)
    end
  else
    ip <- p_namei path;;
    match ip with
    | None => in_fs end_op;; ret None
    | Some i =>
        in_fs (ilock (Some i));;
        p <- in_fs (iload i);;
        if (i_type p =? T_DIR) && negb (omode =? O_RDONLY) then
          in_fs (iunlockput i);;
          in_fs end_op;;
          ret None
        else ret (Some i)
    end.

Definition sys_open : M (pst (fstate S)) Z :=
  path <- argstr 0;;
  match path with None => ret (-1) | Some path =>
  omode <- argint 1;;
  match omode with None => ret (-1) | Some omode =>
      in_fs begin_op;;
      ip <- open_inode path omode;;
      match ip with
      | None => ret (-1)
      | Some i =>
          f <- in_file filealloc;;
          match f with
          | None =>
              in_fs (iunlockput i);;
              in_fs end_op;;
              ret (-1)
          | Some f =>
              fd <- fdalloc f;;
              match fd with
              | None =>
                  in_file (fileclose end_ f);;
                  in_fs (iunlockput i);;
                  in_fs end_op;;
                  ret (-1)
              | Some fd =>
                  in_fs (iunlock (Some i));;
                  in_fs end_op;;
                  in_file (fstore f (set_f_inode i (negb (flag omode O_WRONLY)) (flag omode O_WRONLY || flag omode O_RDWR)));;
                  ret (Z.of_nat fd)
              end
          end
      end
  end end.

Definition sys_mkdir : M (pst (fstate S)) Z :=
  in_fs begin_op;;
  path <- argstr 0;;
  ip <- (match path with Some path => create path T_DIR 0 0 | None => ret None end);;
  match ip with
  | None => in_fs end_op;; ret (-1)
  | Some i =>
      in_fs (iunlockput i);;
      in_fs end_op;;
      ret 0
  end.

Definition sys_mknod : M (pst (fstate S)) Z :=
  in_fs begin_op;;
  path <- argstr 0;;
  ip <- (match path with None => ret None | Some path =>
         major <- argint 1;;
         match major with None => ret None | Some major =>
         minor <- argint 2;;
         match minor with None => ret None | Some minor => create path T_DEV major minor end end end);;
  match ip with
  | None => in_fs end_op;; ret (-1)
  | Some i =>
      in_fs (iunlockput i);;
      in_fs end_op;;
      ret 0
  end.

Definition sys_chdir : M (pst (fstate S)) Z :=
  in_fs begin_op;;
  path <- argstr 0;;
  ip <- (match path with Some path => p_namei path | None => ret None end);;
  match ip with
  | None => in_fs end_op;; ret (-1)
  | Some i =>
      in_fs (ilock (Some i));;
      p <- in_fs (iload i);;
      if negb (i_type p =? T_DIR) then
        in_fs (iunlockput i);;
        in_fs end_op;;
        ret (-1)
      else
        in_fs (iunlock (Some i));;
        d <- my_cwd;;
        in_fs (iput d);;
        in_fs end_op;;
        c <- curproc;;
        store c (set_cwd (Some i));;
        ret 0
  end.

(** The loop of [sys_exec] that fetches the arguments from the [i]-th on. *)
Fixpoint fetch_argv (k : nat) (uargv i : Z) : M (pst (fstate S)) (option (list (list Z))) :=
  match k with
  | O => ret None
  | Datatypes.S k =>
      uarg <- fetchint (u32 (uargv + 4 * i));;
      match uarg with
      | None => ret None
      | Some uarg =>
          if uarg =? 0 then ret (Some [])
          else
            a <- fetchstr (u32 uarg);;
            match a with
            | None => ret None
            | Some a =>
                rest <- fetch_argv k uargv (i + 1);;
                ret (cons a <$> rest)
            end
      end
  end.

Definition sys_exec : M (pst (fstate S)) Z :=
  path <- argstr 0;;
  match path with None => ret (-1) | Some path =>
  uargv <- argint 1;;
  match uargv with None => ret (-1) | Some uargv =>
      argv <- fetch_argv (Z.to_nat MAXARG) (u32 uargv) 0;;
      match argv with
      | None => ret (-1)
      | Some argv => exec end_ data junk path argv
      end
  end end.

Definition sys_pipe : M (pst (fstate S)) Z :=
  a <- argptr 0 8;;
  match a with None => ret (-1) | Some a =>
      r <- in_file (pipealloc end_);;
      match r with
      | None => ret (-1)
      | Some (rf, wf) =>
          fd0 <- fdalloc rf;;
          match fd0 with
          | None =>
              in_file (fileclose end_ rf);;
              in_file (fileclose end_ wf);;
              ret (-1)
          | Some fd0 =>
              fd1 <- fdalloc wf;;
              match fd1 with
              | None =>
                  fdclear fd0;;
                  in_file (fileclose end_ rf);;
                  in_file (fileclose end_ wf);;
                  ret (-1)
              | Some fd1 =>
                  p <- my_proc;;
                  user_mem (ustore_bytes (pgdir p) a (word_bytes (Z.of_nat fd0)));;
                  user_mem (ustore_bytes (pgdir p) (u32 (a + 4)) (word_bytes (Z.of_nat fd1)));;
                  ret 0
              end
          end
      end
  end.

End sysfile.
