(* ===== verification/Frame.v ===== *)
(** What the system calls leave alone.  Code of fs.c and vm.c, whatever it does,
    touches neither the process table nor the table of open files; [exec] either
    replaces the image of its process or leaves everything as it was. *)

From stdpp Require Import functions base numbers list strings gmap.
From S2P Require Import Xv6 Prelude Kstring Bytes Kalloc Vm PageTable Uvm Copyuvm Log Fs File Proc Kernel Syscall Exec Sysfile Args.

Section frame.
Context {S : Type} {TB : TxBlocks S} {DV : Devices (fs S)}.
Implicit Types (s : pst (fstate S)).

(** The process table and the open files are the same. *)
Definition keeps s s' : Prop :=
  procs s' = procs s /\ cur s' = cur s /\ initproc s' = initproc s /\ nextpid s' = nextpid s /\ ftable (env s') = ftable (env s).

#[global] Instance keeps_preorder : PreOrder keeps.
Proof.
  split; [by intros s|]. intros s1 s2 s3 (A1 & A2 & A3 & A4 & A5) (B1 & B2 & B3 & B4 & B5).
  repeat split; etransitivity; eassumption.
Qed.

(** [m] returns or sleeps only in states that keep both. *)
Definition quiet {A} (m : M (pst (fstate S)) A) : Prop := forall s, wp m (fun _ => keeps s) (keeps s) s.

Lemma quiet_bind {A B} (m : M _ A) (k : A -> M _ B) : quiet m -> (forall a, quiet (k a)) -> quiet (bind m k).
Proof.
  intros H1 H2 s. apply wp_bind. intros c. specialize (H1 s c). destruct (m c s) as [a c' s'| | | |]; try done.
  intros c2. specialize (H2 a s' c2). destruct (k a c2 s'); try done; by etransitivity.
Qed.
Lemma quiet_ret {A} (a : A) : quiet (ret a).
Proof. intros s. by apply wp_ret. Qed.
Lemma quiet_panic {A} msg : quiet (A := A) (panic msg).
Proof. intros s. apply wp_panic. Qed.
Lemma quiet_undef {A} msg : quiet (A := A) (undef msg).
Proof. intros s. apply wp_undef. Qed.
Lemma quiet_gets {A} (f : _ -> A) : quiet (gets f).
Proof. intros s. by apply wp_gets. Qed.
Lemma quiet_get : quiet get.
Proof. intros s. by apply wp_get. Qed.
Lemma quiet_curproc : quiet curproc.
Proof. unfold curproc. apply quiet_bind; [apply quiet_gets|]. intros [i|]; [apply quiet_ret|apply quiet_undef]. Qed.
Lemma quiet_load i : quiet (load i).
Proof. unfold load. apply quiet_bind; [apply quiet_get|]. intros s. destruct (procs s !! i); [apply quiet_ret|apply quiet_undef]. Qed.
Lemma quiet_my_proc : quiet my_proc.
Proof. unfold my_proc. apply quiet_bind; [apply quiet_curproc|apply quiet_load]. Qed.
Lemma quiet_kvm {A} (m : M kmem A) : quiet (kvm m).
Proof. intros s c. unfold kvm, call, on_kmem, zoom. by destruct (m c _). Qed.
Lemma quiet_user_mem {A} (m : M kmem A) : quiet (user_mem m).
Proof. apply quiet_kvm. Qed.
Lemma quiet_in_fs {A} (m : M (fs S) A) : quiet (in_fs m).
Proof. intros s c. unfold in_fs, call, on_fs, zoom. by destruct (m c _). Qed.

End frame.

Create HintDb quiet discriminated.
#[export] Hint Resolve quiet_ret quiet_panic quiet_undef quiet_gets quiet_get quiet_curproc quiet_load quiet_my_proc
  quiet_kvm quiet_user_mem quiet_in_fs : quiet.

(** Goes through a body call by call and branch by branch. *)
Ltac quiet_step :=
  lazymatch goal with
  | |- quiet (bind _ _) => apply quiet_bind; [|intros ?]
  | |- quiet (match ?x with _ => _ end) => destruct x
  | |- quiet _ => solve [eauto with quiet]
  end.
Ltac quiet_tac := repeat (cbv zeta; quiet_step).

Section calls.
Context {S : Type} {TB : TxBlocks S} {DV : Devices (fs S)}.
Context (end_ data : Z) (junk : list Z).
Implicit Types (s : pst (fstate S)).

Lemma quiet_fetchint a : quiet (S := S) (fetchint a).
Proof. unfold fetchint. quiet_tac. Qed.
Lemma quiet_argint n : quiet (S := S) (argint n).
Proof. unfold argint. apply quiet_bind; [apply quiet_my_proc|intros; apply quiet_fetchint]. Qed.
Lemma quiet_fetchstr_loop pg k : forall a, quiet (S := S) (fetchstr_loop k pg a).
Proof. induction k as [|k IH]; intros a; cbn [fetchstr_loop]; quiet_tac. Qed.

Lemma quiet_load_loop pg a ip o n k : forall i, quiet (load_loop (S := S) k pg a ip o n i).
Proof. induction k as [|k IH]; intros i; cbn [load_loop]; quiet_tac. Qed.
Lemma quiet_loaduvm pg a ip o n : quiet (loaduvm (S := S) pg a ip o n).
Proof. unfold loaduvm. destruct (negb _); [apply quiet_panic|apply quiet_load_loop]. Qed.
#[local] Hint Resolve quiet_loaduvm : quiet.
Lemma quiet_load_segments pg ip k : forall off n, quiet (load_segments (S := S) end_ k pg ip off n).
Proof. induction k as [|k IH]; intros off n; cbn [load_segments]; quiet_tac. Qed.
Lemma quiet_exec_bad pg ip : quiet (exec_bad (S := S) end_ pg ip).
Proof. unfold exec_bad. quiet_tac. Qed.

(** What [exec] does to its process. *)
Definition new_image (path : list Z) (pg n entry sp : Z) (p : proc) : proc :=
  set_tf (set_eip_esp entry sp (tf p)) (set_sz n (set_pgdir pg (set_name (set_pname (name p) (last_elem path path)) p))).

Definition image_replaced (path : list Z) s s' : Prop :=
  exists i pg n entry sp, cur s = Some i /\ keeps (set_procs (alter (new_image path pg n entry sp) i (procs s)) s) s'.

(** The result is -1 and nothing changed, or 0 and the image is replaced. *)
Definition all_or_nothing (path : list Z) s (r : Z) s' : Prop :=
  r = -1 /\ keeps s s' \/ r = 0 /\ image_replaced path s s'.

Lemma wp_quiet {A B} (m : M (pst (fstate S)) A) (k : A -> M _ B) Q R s :
  quiet m -> (forall s', keeps s s' -> R s') -> (forall a s', keeps s s' -> wp (k a) Q R s') -> wp (bind m k) Q R s.
Proof.
  intros Hq HR Hk. apply wp_bind. intros c. specialize (Hq s c). destruct (m c s) as [a c' s'| | | |]; try done; auto.
Qed.

Lemma exec_bad_result path pg ip R s0 s : (forall s', keeps s0 s' -> R s') -> keeps s0 s ->
  wp (exec_bad end_ pg ip) (all_or_nothing path s0) R s.
Proof.
  intros HR Hk. unfold exec_bad.
  apply wp_quiet; [quiet_tac|intros; apply HR; by etransitivity|]. intros _ s1 H1.
  apply wp_quiet; [quiet_tac|intros; apply HR; etransitivity; [done|]; by etransitivity|]. intros _ s2 H2.
  apply wp_ret. left. split; [done|]. etransitivity; [done|]. by etransitivity.
Qed.

Lemma exec_commit_result path pg n entry sp s0 s : keeps s0 s ->
  wp (exec_commit end_ path pg n entry sp) (all_or_nothing path s0) (fun s' => keeps s0 s' \/ image_replaced path s0 s') s.
Proof.
  intros Hk. pose proof Hk as (K1 & K2 & K3 & K4 & K5). unfold exec_commit. apply wp_bind. unfold curproc. apply wp_bind, wp_gets.
  destruct (cur s) as [i|] eqn:Hc; [|apply wp_undef]. apply wp_ret.
  apply wp_quiet; [apply quiet_load|intros s' Hs'; left; etransitivity; [exact Hk|done]|]. intros p s1 (A1 & A2 & A3 & A4 & A5).
  unfold store. do 4 apply wp_bind, wp_modify.
  assert (forall s', keeps (set_procs (alter (new_image path pg n entry sp) i (procs s1)) s1) s' -> image_replaced path s0 s') as Him.
  { intros s' (B1 & B2 & B3 & B4 & B5). cbn in B1, B2, B3, B4, B5. exists i, pg, n, entry, sp. split; [congruence|].
    repeat split; cbn; rewrite ?B1, ?B2, ?B3, ?B4, ?B5, ?A1, ?A2, ?A3, ?A4, ?A5; congruence. }
  assert (forall s2, keeps (set_procs (alter (new_image path pg n entry sp) i (procs s1)) s1) s2 ->
    wp (call (switchuvm pg (kstack p));; kvm (Vm.freevm end_ (pgdir p));; ret 0) (all_or_nothing path s0)
      (fun s' => keeps s0 s' \/ image_replaced path s0 s') s2) as Hrest.
  { intros s2 H2. apply wp_quiet; [intros s' c'; unfold call, zoom, switchuvm; destruct (_ =? 0); [done|]; by destruct (_ =? 0)|
      intros s' H'; right; apply Him; by etransitivity|]. intros _ s3 H3.
    apply wp_quiet; [apply quiet_kvm|intros s' H'; right; apply Him; etransitivity; [done|]; by etransitivity|]. intros _ s4 H4.
    apply wp_ret. right. split; [done|]. apply Him. etransitivity; [done|]. by etransitivity. }
  apply Hrest. repeat split. cbn. rewrite !alter_alter. apply list_alter_ext; [|done]. intros q _. done.
Qed.

Lemma exec_runs path argv s :
  wp (exec end_ data junk path argv) (all_or_nothing path s) (fun s' => keeps s s' \/ image_replaced path s s') s.
Proof.
  assert (forall s1 s', keeps s s1 -> keeps s1 s' -> keeps s s' \/ image_replaced path s s') as Hl by (intros; left; by etransitivity).
  assert (forall pg ip s1, keeps s s1 ->
    wp (exec_bad end_ pg ip) (all_or_nothing path s) (fun s' => keeps s s' \/ image_replaced path s s') s1) as Hbad
    by (intros; apply exec_bad_result; [by left|done]).
  assert (forall {B} (m : M (pst (fstate S)) B) k s1, quiet m -> keeps s s1 ->
    (forall a s', keeps s s' -> wp (k a) (all_or_nothing path s) (fun s' => keeps s s' \/ image_replaced path s s') s') ->
    wp (bind m k) (all_or_nothing path s) (fun s' => keeps s s' \/ image_replaced path s s') s1) as Hstep.
  { intros B m k s1 Hq Hk H. apply wp_quiet; [done|intros s2 H2; by apply (Hl s1)|]. intros a s' H'. apply H. by etransitivity. }
  unfold exec. apply Hstep; [quiet_tac|done|]. intros _ s1 K1. apply Hstep; [quiet_tac|done|]. intros p s2 K2.
  destruct (cwd p) as [d|]; [|apply wp_undef]. apply Hstep; [quiet_tac|done|]. intros [ip|] s3 K3.
  2: { apply Hstep; [quiet_tac|done|]. intros _ s4 K4. apply wp_ret. by left. }
  apply Hstep; [quiet_tac|done|]. intros _ s4 K4. apply Hstep; [quiet_tac|done|]. intros r s5 K5.
  destruct (negb _); [by apply Hbad|]. cbv zeta. destruct (negb _); [by apply Hbad|].
  apply Hstep; [quiet_tac|done|]. intros pg s6 K6. destruct (pg =? 0); [by apply Hbad|].
  apply Hstep; [apply quiet_load_segments|done|]. intros [n|] s7 K7; [|by apply Hbad].
  apply Hstep; [quiet_tac|done|]. intros _ s8 K8. apply Hstep; [quiet_tac|done|]. intros _ s9 K9.
  apply Hstep; [quiet_tac|done|]. intros n2 s10 K10. destruct (n2 =? 0); [by apply Hbad|].
  apply Hstep; [quiet_tac|done|]. intros _ s11 K11. apply Hstep; [quiet_tac|done|]. intros [sp|] s12 K12; [|by apply Hbad].
  by apply exec_commit_result.
Qed.


End calls.
