(* ===== verification/Sbrk.v ===== *)
(** Process memory through the system calls: [growproc] and [sys_sbrk] over
    vm.c, and what [sys_ps] writes. *)

From stdpp Require Import functions base numbers list strings gmap.
From S2P Require Import Xv6 Prelude Kstring Bytes Kalloc Vm PageTable Uvm Copyuvm Log Fs File Proc ProcTable Kernel Syscall Sysproc Args.

Section sbrk.
Context {S : Type} {TB : TxBlocks S} {DV : Devices (fs S)}.
Context (end_ data : Z) (initcode : list Z) (log_init : Z -> M S unit) (junk : list Z).
Hypothesis Hend : KERNBASE + EXTMEM <= end_.
#[local] Instance sbrk_env : ProcEnv (fstate S) := kernel_env end_ data initcode log_init junk.
Implicit Types (s : pst (fstate S)) (p : proc) (t : thread) (h : list lockid) (w : list chan) (k : kmem).

Definition kmem_of s : kmem := kpages (env s).
Definition with_kmem k s : pst (fstate S) := set_env (Fstate (ftable (env s)) (fsys (env s)) (pipes (env s)) k) s.

(** A process whose memory is [0 .. sz) and nothing else. *)
Record owns_memory s (free : list Z) p : Prop := {
  om_uvm : uvm_ok end_ (kmem_of s) free (pgdir p);
  om_sz : 0 <= sz p <= KERNBASE;
  om_in va : 0 <= va < sz p -> present (entry (physmem s) (pgdir p) va) = true;
  om_out va : PGROUNDUP (sz p) <= va < KERNBASE -> present (entry (physmem s) (pgdir p) va) = false;
  om_kstack : kstack p <> 0 }.

Lemma call_kmem {A} (m : M kmem A) a k c c' s : m c (kmem_of s) = Ret a c' k -> call (on_kmem m) c s = Ret a c' (with_kmem k s).
Proof. intros H. unfold call, on_kmem, zoom. change (kpages (env s)) with (kmem_of s). by rewrite H. Qed.

Lemma pgdir_pos s free p : owns_memory s free p -> pgdir p <> 0.
Proof. intros O. pose proof (page_pos end_ _ (po_page _ _ _ _ (uo_dir _ _ _ _ (om_uvm _ _ _ O)))). lia. Qed.

Lemma growproc_grow_runs s i p free n t h w :
  running s i p -> owns_memory s free p -> Lkmem ∉ h -> 0 < n -> sz p + n < KERNBASE ->
  exists r k' free', growproc n (Ctx t h w) s = Ret r (Ctx t h w) (if r =? 0 then set_procs (alter (set_sz (sz p + n)) i (procs s)) (with_kmem k' s) else with_kmem k' s) /\
    (r = 0 /\ grown end_ (kmem_of s) free (pgdir p) (PGROUNDUP (sz p)) (PGROUNDUP (sz p + n)) [] k' free' \/
     r = -1 /\ restored end_ (kmem_of s) free (pgdir p) [] k' free' /\
       Z.of_nat (length free) <= 1024 + (PGROUNDUP (sz p + n) - PGROUNDUP (sz p)) / 4096).
Proof.
  intros [Hc Hp] O Hh Hn Hlt. destruct (om_sz _ _ _ O) as [Hs0 Hs1]. unfold growproc.
  run (curproc_runs (Ctx t h w) s i Hc). run (load_runs (Ctx t h w) s i p Hp).
  destruct (Z.ltb_spec 0 n); [|lia]. rewrite u32_small by (unfold KERNBASE in *; lia).
  destruct (allocuvm_runs end_ Hend t h w (kmem_of s) free (pgdir p) (sz p) (sz p + n) (om_uvm _ _ _ O) Hh ltac:(lia) Hlt) as (r & k' & free' & Ra & Hr).
  { intros va H1 H2. apply (om_out _ _ _ O). split; [done|]. unfold KERNBASE in *. Z.to_euclidean_division_equations. lia. }
  assert (call (Proc.allocuvm (pgdir p) (sz p) (sz p + n)) (Ctx t h w) s = Ret r (Ctx t h w) (with_kmem k' s)) as Rc.
  { cbn. by apply call_kmem. }
  run Rc. rewrite Z.max_r in Hr by (rewrite !PGROUNDUP_div by lia; Z.to_euclidean_division_equations; lia).
  destruct (Z.eqb_spec n 0); [lia|]. cbn [negb andb]. destruct Hr as [[-> G]|(-> & Rs & Hb)].
  - destruct (Z.eqb_spec (sz p + n) 0); [lia|]. exists 0, k', free'. cbn [Z.eqb]. split; [|by left].
    unfold store. mstep. cbn [Proc.switchuvm sbrk_env kernel_env]. unfold call, zoom, bind, switchuvm.
    pose proof (om_kstack _ _ _ O). pose proof (pgdir_pos _ _ _ O).
    destruct (Z.eqb_spec (kstack p) 0); [done|]. destruct (Z.eqb_spec (pgdir p) 0); [done|]. done.
  - cbn [Z.eqb]. exists (-1), k', free'. cbn [Z.eqb]. split; [done|]. right. done.
Qed.

(** [growproc] grows or leaves alone.  With [n > 0] below the kernel it
    returns 0, [sz] is [n] larger and the memory between the two sizes is mapped
    to zeroed pages of the free list while every old mapping stays; or, only when
    the free list is too short, it returns -1 and the process and all its
    mappings are unchanged. *)
Theorem growproc_grows s i p free n t h w :
  running s i p -> owns_memory s free p -> Lkmem ∉ h -> 0 < n -> sz p + n < KERNBASE ->
  exists r k' free', growproc n (Ctx t h w) s = Ret r (Ctx t h w) (if r =? 0 then set_procs (alter (set_sz (sz p + n)) i (procs s)) (with_kmem k' s) else with_kmem k' s) /\
    (r = 0 /\ grown end_ (kmem_of s) free (pgdir p) (PGROUNDUP (sz p)) (PGROUNDUP (sz p + n)) [] k' free' \/
     r = -1 /\ restored end_ (kmem_of s) free (pgdir p) [] k' free' /\
       Z.of_nat (length free) <= 1024 + (PGROUNDUP (sz p + n) - PGROUNDUP (sz p)) / 4096).
Proof. apply growproc_grow_runs. Qed.

(** shrinking a process to nothing is reported as a failure after the
    memory is gone: [growproc(-sz)] returns -1 and leaves [sz] as it was, but
    every page below it has been unmapped and freed. *)
Theorem growproc_to_zero s i p free t h w :
  running s i p -> owns_memory s free p -> Lkmem ∉ h -> 0 < sz p < 2 ^ 31 ->
  exists k' free', growproc (- sz p) (Ctx t h w) s = Ret (-1) (Ctx t h w) (with_kmem k' s) /\
    unmapped end_ (kmem_of s) free (pgdir p) 0 (sz p) k' free' /\
    procs (with_kmem k' s) !! i = Some p /\ forall va, 0 <= va < sz p -> present (entry (ram k') (pgdir p) va) = false.
Proof.
  intros [Hc Hp] O Hh Hs. unfold growproc. run (curproc_runs (Ctx t h w) s i Hc). run (load_runs (Ctx t h w) s i p Hp).
  destruct (Z.ltb_spec 0 (- sz p)); [lia|]. destruct (Z.ltb_spec (- sz p) 0); [|lia].
  replace (sz p + - sz p) with 0 by lia. change (u32 0) with 0.
  destruct (deallocuvm_runs end_ Hend t h w (kmem_of s) free (pgdir p) (sz p) 0 (om_uvm _ _ _ O) Hh ltac:(lia) ltac:(apply O)) as (k' & free' & R & Un).
  change (PGROUNDUP 0) with 0 in Un.
  assert (call (Proc.deallocuvm (pgdir p) (sz p) 0) (Ctx t h w) s = Ret 0 (Ctx t h w) (with_kmem k' s)) as Rc by (cbn; by apply call_kmem).
  run Rc. destruct (Z.eqb_spec (- sz p) 0); [lia|]. cbn [negb andb Z.eqb]. exists k', free'. split; [done|]. split; [done|]. split; [done|].
  intros va Hva. apply Un; [unfold KERNBASE in *; lia|]. split; [lia|]. Z.to_euclidean_division_equations. lia.
Qed.

End sbrk.

(** ** What [sys_ps] trusts *)

Section trust.
Context {S : Type}.
Implicit Types (s : pst (fstate S)) (p : proc) (t : thread) (h : list lockid) (w : list chan).

Lemma ps_fill_first tk l : forall p, p ∈ l -> state p <> UNUSED ->
  exists q r n, ps_fill tk l [] = (q :: r, n) /\ pi_name q <> [].
Proof.
  induction l as [|p0 l IH]; intros p Hp Hu; [by apply elem_of_nil in Hp|]. cbn [ps_fill].
  destruct (decide (state p0 = UNUSED)) as [Hs|_].
  - apply elem_of_cons in Hp as [->|Hp]; [done|]. by apply (IH p).
  - cbn [tail]. destruct (ps_fill tk l []) as [r n]. eexists _, r, (n + 1). split; [done|]. cbn [pi_name].
    intros E. apply (f_equal length) in E. unfold copy_name, bytes_at in E. by rewrite length_map, length_seq in E.
Qed.

Lemma ustore_faults pg va b c k : present (entry (ram k) pg va) = false -> ustore pg va b c k = Panic "trap".
Proof. intros H. unfold ustore. mstep. by rewrite H. Qed.

(** [sys_ps] checks four bytes of the buffer (the size of a pointer) and
    then writes records of 28: a process that passes the last word of its memory
    makes the kernel fault, which is [panic("trap")]. *)
Theorem sys_ps_panics s i p n t h w : running s i p -> mapped s p -> state p <> UNUSED -> Lptable ∉ h ->
  arg_at s p 0 = Some n -> arg_at s p 1 = Some (s32 (sz p - 4)) -> 4 <= sz p < KERNBASE ->
  present (entry (physmem s) (pgdir p) (sz p + 8)) = false -> sys_ps (Ctx t h w) s = Panic "trap".
Proof.
  intros Hr Hm Hu Hh H0 H1 Hs He. unfold sys_ps. set (c := Ctx t h w). run (argint_runs s i p 0 c Hr Hm). rewrite H0.
  run (argptr_runs s i p 1 4 c Hr Hm ltac:(lia)). rewrite H1.
  replace (u32 (s32 (sz p - 4))) with (sz p - 4) by (unfold KERNBASE in *; word_lia). cbn [Z.leb Z.compare andb].
  destruct (Z.ltb_spec (sz p - 4) (sz p)); [|lia]. destruct (Z.leb_spec (sz p - 4 + 4) (sz p)); [|lia]. cbn [andb].
  run (my_proc_runs s i p c Hr).
  destruct (ps_fill_first (ticks s) (procs s) p (list_elem_of_lookup_2 _ _ _ (proj2 Hr)) Hu) as (q & r & m & Ef & Hq).
  assert (proc_ps n [] c s = Ret (m, q :: r) c s) as Rp by (unfold proc_ps, c; do 3 mstep; rewrite Ef; by mrun).
  run Rp. cbn [snd store_infos]. apply bind_Panic, bind_Panic. destruct (pi_name q) as [|b l]; [done|].
  rewrite u32_small by (unfold KERNBASE in *; lia). replace (sz p - 4 + 12) with (sz p + 8) by lia.
  unfold user_mem, call, on_kmem, zoom, bind. cbn [upto_nul].
  destruct (b =? 0); cbn [ustore_bytes]; by rewrite (bind_Panic _ _ _ _ _ (ustore_faults _ _ _ c (kpages (env s)) He)).
Qed.

End trust.
