(* ===== verification/Trap.v ===== *)
(** trap.c [trap], and the table of system calls it dispatches to. *)

From stdpp Require Import functions base numbers list strings gmap.
From S2P Require Import Xv6 Prelude Kstring Bytes Kalloc Vm PageTable Uvm Copyuvm Log Fs File Proc Kernel Syscall Sysproc Exec Sysfile.

(** traps.h *)
Definition T_SYSCALL : Z := 64.
Definition T_IRQ0 : Z := 32.
Definition IRQ_TIMER : Z := 0.
Definition IRQ_KBD : Z := 1.
Definition IRQ_COM1 : Z := 4.
Definition IRQ_IDE : Z := 14.
Definition IRQ_SPURIOUS : Z := 31.

Section trap.
Context {S : Type} {TB : TxBlocks S} {DV : Devices (fs S)} {PE : ProcEnv (fstate S)}.
Context (end_ data : Z) (junk : list Z) (forkret_eip trapret_eip : Z).
(** Device code: the exit port, and the interrupt handlers of the disk, the
    keyboard and the serial line. *)
Context (shutdown ideintr kbdintr uartintr : M (pst (fstate S)) unit).

(** [syscalls], by number.  The last entry is [sys_nice], which expects an
    argument that the call does not pass. *)
Definition syscalls : list (option (M (pst (fstate S)) Z)) :=
  [ None;
    Some (sys_fork forkret_eip trapret_eip); Some sys_exit; Some sys_wait; Some (sys_pipe end_);
    Some sys_read; Some sys_kill; Some (sys_exec end_ data junk); Some sys_fstat;
    Some (sys_chdir junk); Some sys_dup; Some sys_getpid; Some sys_sbrk; Some sys_sleep; Some sys_uptime;
    Some (sys_open end_ junk); Some sys_write; Some (sys_mknod junk); Some (sys_unlink junk);
    Some (sys_link junk); Some (sys_mkdir junk); Some (sys_close end_); Some sys_yield;
    Some (sys_shutdown shutdown); Some sys_ps; Some sys_flock; Some sys_funlock;
    Some (undef "sys_nice: no argument") ].

Definition set_ticks (n : Z) (s : pst (fstate S)) : pst (fstate S) :=
  Pst (procs s) (nextpid s) (initproc s) n (cur s) (first s) (past_end s) (env s).

(** [if(myproc() && myproc()->killed && (tf->cs&3) == DPL_USER) exit();] *)
Definition exit_if_killed (tfr : trapframe) : M (pst (fstate S)) unit :=
  c <- gets cur;;
  match c with
  | None => ret tt
  | Some i =>
      p <- load i;;
      if killed p && (Z.land (tf_cs tfr) 3 =? DPL_USER) then exit else ret tt
  end.

(** The [switch] of [trap]. *)
Definition trap_switch (cpuid : Z) (tfr : trapframe) : M (pst (fstate S)) unit :=
  let n := tf_trapno tfr in
  if n =? T_IRQ0 + IRQ_TIMER then
    if cpuid =? 0 then
      acquire Ltime;;
      modify (fun s => set_ticks (u32 (ticks s + 1)) s);;
      wakeup Cticks;;
      release Ltime
    else ret tt
  else if n =? T_IRQ0 + IRQ_IDE then ideintr
  else if n =? T_IRQ0 + IRQ_IDE + 1 then ret tt
  else if n =? T_IRQ0 + IRQ_KBD then kbdintr
  else if n =? T_IRQ0 + IRQ_COM1 then uartintr
  else if (n =? T_IRQ0 + 7) || (n =? T_IRQ0 + IRQ_SPURIOUS) then ret tt
  else
    c <- gets cur;;
    match c with
    | None => panic "trap"
    | Some i => if Z.land (tf_cs tfr) 3 =? 0 then panic "trap" else store i (set_killed true)
    end.

(** [trap] up to its return or to the [swtch] of [yield]. *)
Definition trap (cpuid : Z) (tfr : trapframe) : M (pst (fstate S)) unit :=
  if tf_trapno tfr =? T_SYSCALL then
    c <- curproc;;
    p <- load c;;
    (if killed p then exit else ret tt);;
    store c (set_tf tfr);;
    syscall syscalls;;
    p <- load c;;
    if killed p then exit else ret tt
  else
    trap_switch cpuid tfr;;
    exit_if_killed tfr;;
    c <- gets cur;;
    match c with
    | None => ret tt
    | Some i =>
        p <- load i;;
        if decide (state p = RUNNING) then
          if tf_trapno tfr =? T_IRQ0 + IRQ_TIMER then yield else exit_if_killed tfr
        else exit_if_killed tfr
    end.
(** ... and after [yield] returns. *)
Definition trap_resumed (tfr : trapframe) : M (pst (fstate S)) unit :=
  yield_resumed;; exit_if_killed tfr.

End trap.
