(* ===== verification/Fdrefs.v ===== *)
(** Reference counts of open files: [f->ref] is the number of descriptors, in
    all processes, that name file [f].  Every system call keeps it so. *)

From stdpp Require Import functions base numbers list list_numbers strings gmap.
From S2P Require Import Xv6 Prelude Kstring Bytes Sleeplock Pipe Kalloc Vm PageTable Uvm Copyuvm Proc ProcTable Log Fs File Kernel Syscall Sysproc Exec Sysfile Args Frame Trap.

(** ** Counting descriptors *)

Definition one (b : bool) : nat := if b then 1 else 0.
Fixpoint fd_count (f : nat) (l : list (option nat)) : nat :=
  match l with
  | [] => 0
  | o :: l => one (bool_decide (o = Some f)) + fd_count f l
  end.
Definition refs (f : nat) (ps : list proc) : nat := sum_list_with (fun p => fd_count f (ofile p)) ps.
(** References that are on their way into or out of a descriptor. *)
Fixpoint occ (f : nat) (ex : list nat) : nat :=
  match ex with
  | [] => 0
  | g :: ex => one (bool_decide (g = f)) + occ f ex
  end.
#[global] Arguments one : simpl never.

Lemma fd_count_insert f l j o o' : l !! j = Some o ->
  (fd_count f (<[j := o']> l) + one (bool_decide (o = Some f)) = fd_count f l + one (bool_decide (o' = Some f)))%nat.
Proof.
  revert j. induction l as [|a l IH]; intros [|j]; try done; simpl.
  - intros [= ->]. lia.
  - intros Hj. specialize (IH j Hj). lia.
Qed.

Lemma fd_count_le f l : (fd_count f l <= length l)%nat.
Proof. induction l as [|a l IH]; cbn; [lia|]. unfold one. case_bool_decide; lia. Qed.

Lemma fd_count_none f l : Forall (fun o => o = None) l -> fd_count f l = 0%nat.
Proof. induction 1 as [|o l -> _ IH]; cbn; [done|]. by rewrite IH. Qed.

Lemma refs_alter f ps i p g : ps !! i = Some p -> (refs f (alter g i ps) + fd_count f (ofile p) = refs f ps + fd_count f (ofile (g p)))%nat.
Proof.
  revert i. induction ps as [|a ps IH]; intros [|i]; cbn; try done.
  - intros [= ->]. lia.
  - intros Hi. specialize (IH i Hi). unfold refs in IH. lia.
Qed.

Lemma refs_same f ps ps' : Forall2 (fun p p' => ofile p' = ofile p) ps ps' -> refs f ps' = refs f ps.
Proof. unfold refs. induction 1 as [|p p' ps ps' E _ IH]; cbn; [done|]. by rewrite E, IH. Qed.

Lemma refs_le f ps : Forall (fun p => length (ofile p) = NOFILE) ps -> (refs f ps <= length ps * NOFILE)%nat.
Proof.
  unfold refs. induction 1 as [|p ps Hp _ IH]; cbn [sum_list_with length]; [lia|].
  pose proof (fd_count_le f (ofile p)). lia.
Qed.

Lemma refs_fd f ps i p j : ps !! i = Some p -> ofile p !! j = Some (Some f) -> (0 < refs f ps)%nat.
Proof.
  intros Hi Hj. pose proof (refs_alter f ps i p (set_ofile (<[j := None]> (ofile p))) Hi) as E.
  pose proof (fd_count_insert f (ofile p) j (Some f) None Hj) as E2. cbn [set_ofile ofile] in E. unfold one in E2.
  rewrite bool_decide_true, bool_decide_false in E2 by done. lia.
Qed.

(** ** The invariant *)

(** A slot without a running program has no descriptors. *)
Definition idle (p : proc) : Prop := state p = UNUSED \/ state p = ZOMBIE.

Section fdinv.
Context {S : Type}.
Implicit Types (s : pst (fstate S)) (ex : list nat).

Record fdinv ex s : Prop := {
  fi_len : length (procs s) = NPROC;
  fi_ofile : Forall (fun p => length (ofile p) = NOFILE /\ (idle p -> Forall (fun o => o = None) (ofile p))) (procs s);
  fi_ref f x : ftable (env s) !! f = Some x -> f_ref x = Z.of_nat (refs f (procs s) + occ f ex);
  fi_valid f : (0 < refs f (procs s) + occ f ex)%nat -> is_Some (ftable (env s) !! f) }.

(** The running process is not idle. *)
Definition live s : Prop := forall i p, cur s = Some i -> procs s !! i = Some p -> ~ idle p.
Definition good ex s : Prop := fdinv ex s /\ live s.
(** Where a process gives up the processor: the counts are right up to
    references in flight and one file being closed. *)
Definition settled s : Prop := exists ex debt, (length debt <= 1)%nat /\
  Forall (fun p => length (ofile p) = NOFILE /\ (idle p -> Forall (fun o => o = None) (ofile p))) (procs s) /\
  forall f x, ftable (env s) !! f = Some x -> f_ref x + Z.of_nat (occ f debt) = Z.of_nat (refs f (procs s) + occ f ex).

(** Slots changed in fields the invariant does not constrain. *)
Definition similar (ps ps' : list proc) : Prop :=
  Forall2 (fun p p' => ofile p' = ofile p /\ (idle p' -> Forall (fun o => o = None) (ofile p) \/ idle p)) ps ps'.

Lemma similar_refl ps : similar ps ps.
Proof. apply Forall2_same_length_lookup_2; [done|]. intros i p p' H1 H2. assert (p = p') as <- by congruence. split; [done|by right]. Qed.

Lemma similar_alter ps i g :
  (forall p, ps !! i = Some p -> ofile (g p) = ofile p /\ (idle (g p) -> Forall (fun o => o = None) (ofile p) \/ idle p)) ->
  similar ps (alter g i ps).
Proof.
  intros Hg. apply Forall2_same_length_lookup_2; [by rewrite length_alter|]. intros j p p' H1 H2. destruct (decide (j = i)) as [->|N].
  - rewrite list_lookup_alter_eq, H1 in H2. injection H2 as <-. by apply Hg.
  - rewrite list_lookup_alter_ne in H2 by done. assert (p = p') as <- by congruence. split; [done|by right].
Qed.

Lemma fdinv_step ex s s' : fdinv ex s -> similar (procs s) (procs s') -> ftable (env s') = ftable (env s) -> fdinv ex s'.
Proof.
  intros [I1 I2 I3 I4] Hs Ef. assert (forall f, refs f (procs s') = refs f (procs s)) as Er.
  { intros f. apply refs_same. eapply Forall2_impl; [exact Hs|]. by intros p p' [H _]. }
  split.
  - by rewrite <- I1, (Forall2_length _ _ _ Hs).
  - clear -I2 Hs. induction Hs as [|p p' ps ps' [E H] _ IH]; [done|]. apply Forall_cons in I2 as [[L1 L2] I2].
    apply Forall_cons. split; [|by apply IH]. rewrite E. split; [done|]. intros Hi. destruct (H Hi) as [?|?]; auto.
  - intros f x. rewrite Ef, Er. apply I3.
  - intros f. rewrite Ef, Er. apply I4.
Qed.

(** A slot changed, which is not the running process or does not become idle. *)
Lemma good_alter ex s i g :
  good ex s -> (forall p, procs s !! i = Some p -> ofile (g p) = ofile p /\
    (idle (g p) -> (Forall (fun o => o = None) (ofile p) \/ idle p) /\ (cur s = Some i -> idle p))) ->
  good ex (set_procs (alter g i (procs s)) s).
Proof.
  intros [I L] Hg. split.
  - apply (fdinv_step ex s); [done| |done]. cbn -[alter]. apply similar_alter. intros p Hp. destruct (Hg p Hp) as [H1 H2].
    split; [done|]. intros Hi. by apply H2.
  - intros j q Hc. cbn -[alter] in *. destruct (decide (j = i)) as [->|N].
    + rewrite list_lookup_alter_eq. destruct (procs s !! i) as [p|] eqn:Hp; [|done]. intros [= <-] Hi.
      destruct (Hg p eq_refl) as [_ H2]. by apply (L i p Hc Hp), H2.
    + rewrite list_lookup_alter_ne by done. by apply L.
Qed.

(** The counts depend on the table, the running process and the files only. *)
Lemma good_keeps_procs ex s s' : good ex s -> procs s' = procs s -> cur s' = cur s -> ftable (env s') = ftable (env s) -> good ex s'.
Proof.
  intros [I L] K1 K2 K5. split; [|unfold live; by rewrite K1, K2].
  apply (fdinv_step ex s); [done| |done]. rewrite K1. apply similar_refl.
Qed.

Lemma good_keeps ex s s' : good ex s -> keeps s s' -> good ex s'.
Proof.
  intros G (K1 & K2 & K3 & K4 & K5). by apply (good_keeps_procs ex s).
Qed.

Lemma fdinv_settled ex s : fdinv ex s -> settled s.
Proof. intros [I1 I2 I3 I4]. exists ex, []. split; [cbn; lia|]. split; [done|]. intros f x Hx. cbn. rewrite (I3 f x Hx). lia. Qed.
Lemma good_settled ex s : good ex s -> settled s.
Proof. intros [I _]. by eapply fdinv_settled. Qed.

(** Code that keeps every count. *)
Definition calm {A} (m : M (pst (fstate S)) A) : Prop := forall ex s, good ex s -> wp m (fun _ => good ex) settled s.

Lemma calm_bind {A B} (m : M _ A) (k : A -> M _ B) : calm m -> (forall a, calm (k a)) -> calm (bind m k).
Proof. intros H1 H2 ex s I. apply wp_bind. eapply wp_mono; [by apply H1|]. intros a s' I'. by apply H2. Qed.
Lemma calm_quiet {A} (m : M _ A) : quiet m -> calm m.
Proof.
  intros Hq ex s I c. specialize (Hq s c). destruct (m c s); try done; [|eapply good_settled|eapply good_settled]; by eapply good_keeps.
Qed.
Lemma calm_ret {A} (a : A) : calm (ret a).
Proof. apply calm_quiet, quiet_ret. Qed.
Lemma calm_store i g : (forall p, ofile (g p) = ofile p /\ (idle (g p) -> idle p)) -> calm (store i g).
Proof.
  intros Hg ex s I. apply wp_store. apply good_alter; [done|]. intros p _. destruct (Hg p). split; [done|]. intros Hi. split; [right|]; auto.
Qed.
Lemma calm_map g : (forall p, ofile (g p) = ofile p /\ (idle (g p) -> idle p)) -> calm (modify (fun s => set_procs (map g (procs s)) s)).
Proof.
  intros Hg ex s [I L]. apply wp_modify. split.
  - apply (fdinv_step ex s); [done| |done]. cbn. clear I L. induction (procs s) as [|p ps IH]; [constructor|]. constructor; [|done].
    destruct (Hg p). split; [done|by auto].
  - intros i q Hc. cbn. rewrite list_lookup_fmap. destruct (procs s !! i) as [p|] eqn:Hp; [|done]. intros [= <-] Hi.
    apply (L i p Hc Hp). by apply Hg.
Qed.
Lemma calm_acquire l : calm (acquire l).
Proof. intros ex s I. by apply wp_acquire. Qed.
Lemma calm_release l : calm (release l).
Proof. intros ex s I. by apply wp_release. Qed.
Lemma calm_sched : calm sched.
Proof.
  intros ex s [I L]. apply wp_sched. intros i p _ _. apply (fdinv_settled ex), (fdinv_step ex s); [done| |done]. cbn -[alter].
  apply similar_alter. intros q _. split; [done|]. cbn. tauto.
Qed.

End fdinv.
