(* ===== verification/Fdsys.v ===== *)
(** Every system call keeps the reference counts of open files. *)

From stdpp Require Import functions base numbers list list_numbers strings gmap.
From S2P Require Import Xv6 Prelude Kstring Bytes Sleeplock Pipe Kalloc Vm PageTable Uvm Copyuvm Proc ProcTable Log Fs File Kernel Syscall Sysproc Exec Sysfile Args Frame Trap Fdrefs.

(** ** Code of file.c that does not touch the file table *)

Section still.
Context {S : Type}.

Definition still {A} (m : M (fstate S) A) : Prop :=
  forall e, wp m (fun _ e' => ftable e' = ftable e) (fun e' => ftable e' = ftable e) e.

Lemma still_bind {A B} (m : M _ A) (k : A -> M _ B) : still m -> (forall a, still (k a)) -> still (bind m k).
Proof.
  intros H1 H2 e. apply wp_bind. eapply wp_mono; [apply H1|]. cbv beta. intros a e' E. cbn beta in E. rewrite <- E.
  eapply wp_mono_both; [apply (H2 a e')|done|done].
Qed.
Lemma still_ret {A} (a : A) : still (ret a).
Proof. intros e. by apply wp_ret. Qed.
Lemma still_panic {A} msg : still (A := A) (panic msg).
Proof. intros e. apply wp_panic. Qed.
Lemma still_undef {A} msg : still (A := A) (undef msg).
Proof. intros e. apply wp_undef. Qed.
Lemma still_get : still get.
Proof. intros e. by apply wp_get. Qed.
Lemma still_gets {A} (f : _ -> A) : still (gets f).
Proof. intros e. by apply wp_gets. Qed.
Lemma still_on_fs {A} (m : M (fs S) A) : still (on_fs m).
Proof. intros e c. unfold on_fs, zoom. by destruct (m c _). Qed.
Lemma still_on_kmem {A} (m : M kmem A) : still (on_kmem m).
Proof. intros e c. unfold on_kmem, zoom. by destruct (m c _). Qed.
Lemma still_set_pipes f : still (set_pipes f).
Proof. intros e. by apply wp_modify. Qed.
Lemma still_on_pipe {A} a (m : M pipe A) : still (on_pipe a m).
Proof.
  unfold on_pipe. apply still_bind; [apply still_get|]. intros e. destruct (pipes e !! a) as [p|]; [|apply still_undef].
  intros e' c. unfold zoom. by destruct (m c p).
Qed.
Lemma still_the_pipe x : still (the_pipe x).
Proof. unfold the_pipe. destruct (f_pipe x); [apply still_ret|apply still_undef]. Qed.
Lemma still_fload f : still (fload f).
Proof. unfold fload. apply still_bind; [apply still_get|]. intros e. destruct (ftable e !! f); [apply still_ret|apply still_undef]. Qed.
Lemma still_acquire l : still (acquire l).
Proof. intros e. by apply wp_acquire. Qed.
Lemma still_release l : still (release l).
Proof. intros e. by apply wp_release. Qed.

End still.

Create HintDb still discriminated.
#[export] Hint Resolve still_ret still_panic still_undef still_get still_gets still_on_fs still_on_kmem still_set_pipes
  still_on_pipe still_the_pipe still_fload still_acquire still_release : still.
Ltac still_step :=
  lazymatch goal with
  | |- still (bind _ _) => apply still_bind; [|intros ?]
  | |- still (match ?x with _ => _ end) => destruct x
  | |- still _ => solve [eauto with still]
  end.
Ltac still_tac := repeat (cbv zeta; still_step).

Section files.
Context {S : Type} {TB : TxBlocks S} {DV : Devices (fs S)}.
Context (end_ : Z).
Implicit Types (s : pst (fstate S)) (ex : list nat) (e : fstate S).

Lemma quiet_still {A} (m : M (fstate S) A) : still m -> quiet (call m).
Proof. intros Hm s. apply wp_zoom_in. eapply wp_mono_both; [apply Hm| |]; cbn; intros; by repeat split. Qed.

(** Files changed by code that keeps their counts. *)
Definition same_refs e e' : Prop := f_ref <$> ftable e' = f_ref <$> ftable e.

Lemma good_same_refs ex s e : good ex s -> same_refs (env s) e -> good ex (set_env e s).
Proof.
  intros [[I1 I2 I3 I4] L] Hr. assert (forall f, f_ref <$> ftable e !! f = f_ref <$> ftable (env s) !! f) as Hf
    by (intros f; rewrite <- !list_lookup_fmap; by rewrite Hr).
  split; [|done]. split; [done|done|..]; cbn.
  - intros f x Hx. specialize (Hf f). rewrite Hx in Hf. destruct (ftable (env s) !! f) as [y|] eqn:Hy; [|done].
    injection Hf as ->. by apply I3.
  - intros f Hpos. destruct (I4 f Hpos) as [y Hy]. specialize (Hf f). rewrite Hy in Hf. by destruct (ftable e !! f).
Qed.

(** One file's count changed, and the references in flight with it. *)
Lemma good_fstore ex ex' s e f x g :
  good ex s -> ftable (env s) !! f = Some x -> ftable e = alter g f (ftable (env s)) ->
  f_ref (g x) = Z.of_nat (refs f (procs s) + occ f ex') -> (forall h, h <> f -> occ h ex' = occ h ex) -> good ex' (set_env e s).
Proof.
  intros [[I1 I2 I3 I4] L] Hx Ee Hg Ho. split; [|done]. split; [done|done|..]; cbn; rewrite Ee.
  - intros h y. destruct (decide (h = f)) as [->|N].
    + rewrite list_lookup_alter_eq, Hx. intros [= <-]. done.
    + rewrite list_lookup_alter_ne by done. rewrite Ho by done. apply I3.
  - intros h Hpos. destruct (decide (h = f)) as [->|N].
    + rewrite list_lookup_alter_eq, Hx. by eexists.
    + rewrite list_lookup_alter_ne by done. rewrite Ho in Hpos by done. by apply I4.
Qed.

Lemma occ_cons f g ex : occ f (g :: ex) = (one (bool_decide (g = f)) + occ f ex)%nat.
Proof. done. Qed.
Lemma occ_self f ex : occ f (f :: ex) = Datatypes.S (occ f ex).
Proof. cbn. by rewrite bool_decide_true. Qed.
Lemma occ_other f g ex : g <> f -> occ f (g :: ex) = occ f ex.
Proof. intros N. cbn. by rewrite bool_decide_false. Qed.
Lemma occ_le f ex : (occ f ex <= length ex)%nat.
Proof. induction ex as [|g ex IH]; cbn; [lia|]. unfold one. case_bool_decide; lia. Qed.

Lemma free_file_spec l : forall k f, free_file l k = Some f -> exists x, l !! (f - k)%nat = Some x /\ f_ref x = 0 /\ (k <= f)%nat.
Proof.
  induction l as [|y l IH]; intros k f; cbn [free_file]; [done|]. destruct (Z.eqb_spec (f_ref y) 0).
  - intros [= <-]. exists y. by rewrite Nat.sub_diag.
  - intros Hf. destruct (IH _ _ Hf) as (x & Hx & H0 & Hle). exists x. split; [|split; [done|lia]].
    replace (f - k)%nat with (Datatypes.S (f - Datatypes.S k)) by lia. done.
Qed.

Lemma set_env_env s : set_env (env s) s = s.
Proof. by destruct s. Qed.

Lemma filealloc_moves ex s : good ex s ->
  wp (in_file filealloc) (fun r => good (match r with Some f => f :: ex | None => ex end)) settled s.
Proof.
  intros G. apply wp_zoom_in. unfold filealloc. apply wp_bind, wp_acquire. apply wp_bind, wp_gets.
  destruct (free_file (ftable (env s)) 0) as [f|] eqn:Hf.
  - destruct (free_file_spec _ _ _ Hf) as (x & Hx & H0 & _). rewrite Nat.sub_0_r in Hx.
    apply wp_bind. apply wp_modify. apply wp_bind, wp_release, wp_ret.
    eapply good_fstore; [exact G|exact Hx|done| |].
    + cbn [set_f_ref f_ref]. rewrite occ_self. destruct G as [I _]. pose proof (fi_ref _ _ I f x Hx) as E. rewrite H0 in E. lia.
    + intros h N. by apply occ_other.
  - apply wp_bind, wp_release, wp_ret. by rewrite set_env_env.
Qed.

Lemma filedup_env f ex s R : good ex s -> (length ex <= 100)%nat ->
  wp (filedup f) (fun r e => r = f /\ good (f :: ex) (set_env e s)) R (env s).
Proof.
  intros G Hex. unfold filedup, fload. apply wp_bind, wp_acquire. apply wp_bind. apply wp_bind, wp_get.
  destruct (ftable (env s) !! f) as [x|] eqn:Hx; [|apply wp_undef]. apply wp_ret. destruct (f_ref x <? 1); [apply wp_panic|].
  apply wp_bind, wp_modify. apply wp_bind, wp_release, wp_ret. split; [done|]. eapply good_fstore; [exact G|exact Hx|done| |].
  - cbn [set_f_ref f_ref]. destruct G as [I _]. rewrite (fi_ref _ _ I f x Hx), occ_self.
    pose proof (occ_le f ex). pose proof (refs_le f (procs s)) as Hr. rewrite (fi_len _ _ I) in Hr.
    assert (Forall (fun p => length (ofile p) = NOFILE) (procs s)) as HF by (eapply Forall_impl; [apply (fi_ofile _ _ I)|]; by intros p [? _]).
    specialize (Hr HF). unfold NPROC, NOFILE in Hr. rewrite s32_small by lia. lia.
  - intros h N. by apply occ_other.
Qed.

Lemma filedup_moves f ex s : good ex s -> (length ex <= 100)%nat ->
  wp (in_file (filedup f)) (fun _ => good (f :: ex)) settled s.
Proof. intros G Hex. apply wp_zoom_in. eapply wp_mono; [by apply (filedup_env f ex s)|]. by intros a e [_ H]. Qed.

Lemma fileclose_env f ex s : good (f :: ex) s ->
  wp (fileclose end_ f) (fun _ e => good ex (set_env e s)) (fun e => good ex (set_env e s)) (env s).
Proof.
  intros G. unfold fileclose, fload. apply wp_bind, wp_acquire. apply wp_bind. apply wp_bind, wp_get.
  destruct (ftable (env s) !! f) as [x|] eqn:Hx; [|apply wp_undef]. apply wp_ret. destruct (f_ref x <? 1); [apply wp_panic|].
  apply wp_bind, wp_modify. pose proof (proj1 G) as I. pose proof (fi_ref _ _ I f x Hx) as Er. rewrite occ_self in Er.
  destruct (Z.ltb_spec 0 (f_ref x - 1)) as [Hp|Hz].
  - apply wp_release. eapply good_fstore; [exact G|exact Hx|done| |].
    + cbn [set_f_ref f_ref]. lia.
    + intros h N. symmetry. by apply occ_other.
  - apply wp_bind. apply wp_bind, wp_get. cbn [ftable]. rewrite list_lookup_alter_eq, Hx. cbn [fmap option_fmap option_map]. apply wp_ret.
    apply wp_bind, wp_modify. apply wp_bind, wp_release. cbn [ftable fsys pipes kpages].
    set (e1 := Fstate _ _ _ _).
    assert (forall e2, ftable e2 = ftable e1 -> good ex (set_env e2 s)) as Hend.
    { intros e2 E2. eapply (good_fstore (f :: ex) ex s e2 f x); [exact G|exact Hx| | |].
      - rewrite E2. apply alter_alter.
      - cbn [compose set_f_type set_f_ref f_ref]. lia.
      - intros h N. symmetry. by apply occ_other. }
    match goal with |- wp ?m _ _ _ => assert (still m) as Hst by (cbn; still_tac) end.
    eapply wp_mono_both; [apply Hst|intros a e2 E2; by apply Hend|intros e2 E2; by apply Hend].
Qed.

Lemma fileclose_moves f ex s : good (f :: ex) s -> wp (in_file (fileclose end_ f)) (fun _ => good ex) settled s.
Proof. intros G. apply wp_zoom_in. eapply wp_mono_both; [by apply fileclose_env|done|]. intros e. apply good_settled. Qed.

End files.

(** ** Descriptors *)

Create HintDb calm discriminated.
#[export] Hint Resolve calm_ret calm_acquire calm_release calm_sched : calm.
#[export] Hint Resolve quiet_still : quiet.
Ltac calm_step :=
  lazymatch goal with
  | |- calm (bind _ _) => apply calm_bind; [|intros ?]
  | |- calm (match ?x with _ => _ end) => destruct x
  | |- calm (store _ _) => apply calm_store; intros ?; split; [done|cbn; unfold idle; cbn; intuition (congruence || discriminate)]
  | |- calm _ => first [solve [eauto with calm] | apply calm_quiet; solve [eauto with quiet]]
  end.
Ltac calm_tac := repeat (cbv zeta; calm_step).

Tactic Notation "seq_by" uconstr(lem) := apply wp_bind; eapply wp_mono; [eapply lem; eassumption|]; cbv beta.

Section fds.
Context {S : Type} {TB : TxBlocks S} {DV : Devices (fs S)}.
Context (end_ data : Z) (junk : list Z).
Implicit Types (s : pst (fstate S)) (ex : list nat).

Lemma good_set_fd ex ex' s i p j o o' :
  good ex s -> procs s !! i = Some p -> ofile p !! j = Some o -> ~ idle p \/ o' = None ->
  (forall f, occ f ex' + one (bool_decide (o' = Some f)) = occ f ex + one (bool_decide (o = Some f)))%nat ->
  good ex' (set_procs (alter (fun p => set_ofile (<[j := o']> (ofile p)) p) i (procs s)) s).
Proof.
  intros [[I1 I2 I3 I4] L] Hp Hj Hid Ho. set (g := fun p => set_ofile _ p).
  assert (forall f, refs f (alter g i (procs s)) + occ f ex' = refs f (procs s) + occ f ex)%nat as Er.
  { intros f. pose proof (refs_alter f (procs s) i p g Hp) as E1. pose proof (fd_count_insert f (ofile p) j o o' Hj) as E2.
    change (ofile (g p)) with (<[j := o']> (ofile p)) in E1. specialize (Ho f). lia. }
  split.
  - split; cbn [procs set_procs env].
    + by rewrite length_alter.
    + apply Forall_lookup. intros k q. destruct (decide (k = i)) as [->|N].
      * rewrite list_lookup_alter_eq, Hp. intros [= <-]. cbn. rewrite length_insert.
        rewrite Forall_lookup in I2. destruct (I2 i p Hp) as [L1 L2]. split; [done|]. intros Hi. destruct Hid as [Hid| ->]; [done|].
        apply Forall_insert; [by apply L2|done].
      * rewrite list_lookup_alter_ne by done. intros Hq. rewrite Forall_lookup in I2. by apply (I2 k q).
    + intros f x. rewrite Er. apply I3.
    + intros f. rewrite Er. apply I4.
  - intros k q Hc. cbn -[alter] in *. destruct (decide (k = i)) as [->|N].
    + rewrite list_lookup_alter_eq, Hp. intros [= <-]. by apply (L i p Hc Hp).
    + rewrite list_lookup_alter_ne by done. by apply L.
Qed.

Lemma free_fd_spec l : forall k j, free_fd l k = Some j -> l !! (j - k)%nat = Some None /\ (k <= j)%nat.
Proof.
  induction l as [|[f|] l IH]; intros k j; cbn [free_fd]; [done| |].
  - intros Hj. destruct (IH _ _ Hj) as [H1 H2]. split; [|lia]. replace (j - k)%nat with (Datatypes.S (j - Datatypes.S k)) by lia. done.
  - intros [= <-]. by rewrite Nat.sub_diag.
Qed.

Lemma fdalloc_moves f ex s : good (f :: ex) s ->
  wp (fdalloc f) (fun r s' => match r with
    | Some j => good ex s' /\ exists i p, cur s' = Some i /\ procs s' !! i = Some p /\ ofile p !! j = Some (Some f)
    | None => good (f :: ex) s' end) settled s.
Proof.
  intros G. unfold fdalloc. apply wp_bind, wp_curproc. intros i Hc. apply wp_bind, wp_load. intros p Hp.
  destruct (free_fd (ofile p) 0) as [j|] eqn:Hj; [|by apply wp_ret].
  destruct (free_fd_spec _ _ _ Hj) as [Hn _]. rewrite Nat.sub_0_r in Hn. apply wp_bind, wp_store, wp_ret. split.
  - eapply good_set_fd; [exact G|done|exact Hn|left; by apply (proj2 G i p)|]. intros g. rewrite occ_cons.
    rewrite (bool_decide_false (None = Some g)) by done. unfold one. repeat case_bool_decide; try lia; congruence.
  - exists i, (set_ofile (<[j := Some f]> (ofile p)) p). cbn -[alter]. split; [done|]. rewrite list_lookup_alter_eq, Hp. split; [done|].
    cbn. rewrite list_lookup_insert_eq; [done|]. by apply lookup_lt_Some in Hn.
Qed.

(** ... and keeps the descriptor [j] that is in use. *)
Lemma fdalloc_frame f ex s i p j g : good (f :: ex) s -> cur s = Some i -> procs s !! i = Some p -> ofile p !! j = Some (Some g) ->
  wp (fdalloc f) (fun r s' => good (match r with Some _ => ex | None => f :: ex end) s' /\
    exists p', cur s' = Some i /\ procs s' !! i = Some p' /\ ofile p' !! j = Some (Some g)) settled s.
Proof.
  intros G Hc Hp Hg. unfold fdalloc. apply wp_bind, wp_curproc. intros i' Hc'. assert (i' = i) as -> by congruence.
  apply wp_bind, wp_load. intros p' Hp'. assert (p' = p) as -> by congruence.
  destruct (free_fd (ofile p) 0) as [k|] eqn:Hk; [|apply wp_ret; split; [done|by exists p]].
  destruct (free_fd_spec _ _ _ Hk) as [Hn _]. rewrite Nat.sub_0_r in Hn. apply wp_bind, wp_store, wp_ret. split.
  - eapply good_set_fd; [exact G|done|exact Hn|left; by apply (proj2 G i p)|]. intros h. rewrite occ_cons.
    rewrite (bool_decide_false (None = Some h)) by done. unfold one. repeat case_bool_decide; try lia; congruence.
  - exists (set_ofile (<[k := Some f]> (ofile p)) p). cbn -[alter]. split; [done|]. rewrite list_lookup_alter_eq, Hp. split; [done|].
    cbn. rewrite list_lookup_insert_ne; [done|]. congruence.
Qed.

Lemma good_swap f g ex s : good (f :: g :: ex) s -> good (g :: f :: ex) s.
Proof.
  intros [[I1 I2 I3 I4] L]. split; [|done]. assert (forall h, occ h (g :: f :: ex) = occ h (f :: g :: ex)) as E by (intros h; rewrite !occ_cons; lia).
  split; [done|done|..]; intros h; rewrite E; [apply I3|apply I4].
Qed.

Lemma fdclear_moves f j ex s i p : good ex s -> cur s = Some i -> procs s !! i = Some p -> ofile p !! j = Some (Some f) ->
  wp (fdclear j) (fun _ => good (f :: ex)) settled s.
Proof.
  intros G Hc Hp Hj. unfold fdclear. apply wp_bind, wp_curproc. intros i' Hc'. assert (i' = i) as -> by congruence. apply wp_store.
  eapply good_set_fd; [exact G|done|exact Hj|by right|]. intros g. rewrite occ_cons.
  rewrite (bool_decide_false (None = Some g)) by done. unfold one. repeat case_bool_decide; try lia; congruence.
Qed.

(** [argfd] names a descriptor of the running process. *)
Lemma argfd_spec n ex s : good ex s -> wp (argfd n) (fun r s' => good ex s' /\ match r with
  | Some (j, f) => exists i p, cur s' = Some i /\ procs s' !! i = Some p /\ ofile p !! j = Some (Some f)
  | None => True end) settled s.
Proof.
  intros G. unfold argfd. apply wp_bind. eapply wp_mono; [apply calm_quiet; [apply quiet_argint|exact G]|].
  intros [fd|] s1 G1; [|by apply wp_ret]. apply wp_bind. unfold my_proc. apply wp_bind, wp_curproc. intros i Hc. apply wp_load. intros p Hp.
  destruct (_ || _); [by apply wp_ret|]. destruct (ofile p !! Z.to_nat fd) as [[f|]|] eqn:Hf; apply wp_ret; [|done|done].
  split; [done|]. by exists i, p.
Qed.

(** A call that ends with all references settled. *)
Definition fair (m : M (pst (fstate S)) Z) : Prop := forall s, good [] s -> wp m (fun _ => good []) settled s.

Lemma calm_fair (m : M (pst (fstate S)) Z) : calm m -> fair m.
Proof. intros H s. apply H. Qed.

Lemma sys_dup_fair : fair sys_dup.
Proof.
  intros s G. unfold sys_dup. seq_by argfd_spec. intros [[j f]|] s1 [G1 H1]; [|by apply wp_ret].
  destruct H1 as (i & p & Hc & Hp & Hj). apply wp_bind. unfold fdalloc. apply wp_bind, wp_curproc. intros i' Hc'. assert (i' = i) as -> by congruence.
  apply wp_bind, wp_load. intros p' Hp'. assert (p' = p) as -> by congruence.
  destruct (free_fd (ofile p) 0) as [k|] eqn:Hk; [|by apply wp_ret, wp_ret]. destruct (free_fd_spec _ _ _ Hk) as [Hn _]. rewrite Nat.sub_0_r in Hn.
  apply wp_bind, wp_store, wp_ret. apply wp_bind, wp_zoom_in.
  eapply (wp_mono_both _ _ _ (fun _ => False)); [apply (filedup_env f [] s1); [exact G1|cbn; lia]| |done]. intros x e [_ Ge]. apply wp_ret.
  change (set_env e (set_procs ?ps s1)) with (set_procs ps (set_env e s1)).
  apply (good_set_fd [f] [] (set_env e s1) i p k None (Some f) Ge Hp Hn); [left; by apply (proj2 G1 i p)|].
  intros g. rewrite occ_cons. rewrite (bool_decide_false (None = Some g)) by done. unfold one. repeat case_bool_decide; try lia; congruence.
Qed.

Lemma sys_close_fair : fair (sys_close end_).
Proof.
  intros s G. unfold sys_close. seq_by argfd_spec. intros [[j f]|] s1 [G1 H1]; [|by apply wp_ret].
  destruct H1 as (i & p & Hc & Hp & Hj). apply wp_bind. eapply wp_mono; [by eapply (fdclear_moves f j [])|]. cbv beta. intros ? s2 G2.
  seq_by fileclose_moves. intros ? s3 G3. by apply wp_ret.
Qed.

(** Filling in the fields of an allocated file. *)
Lemma calm_fstore f g : (forall x, f_ref (g x) = f_ref x) -> calm (S := S) (in_file (fstore f g)).
Proof.
  intros Hg ex s G. apply wp_zoom_in, wp_modify. apply good_same_refs; [done|]. unfold same_refs. cbn -[alter].
  apply list_eq. intros j. rewrite !list_lookup_fmap. destruct (decide (j = f)) as [->|N].
  - rewrite list_lookup_alter_eq. destruct (ftable (env s) !! f); cbn; [by rewrite Hg|done].
  - by rewrite list_lookup_alter_ne.
Qed.

Lemma wp_calm {A B} (m : M (pst (fstate S)) A) (k : A -> M _ B) Q ex s :
  calm m -> good ex s -> (forall a s', good ex s' -> wp (k a) Q settled s') -> wp (bind m k) Q settled s.
Proof. intros Hm G Hk. apply wp_bind. eapply wp_mono; [by apply Hm|]. cbv beta. intros a s' G'. by apply Hk. Qed.

Lemma quiet_argstr n : quiet (S := S) (argstr n).
Proof.
  unfold argstr. apply quiet_bind; [apply quiet_argint|]. intros [a|]; [|apply quiet_ret]. unfold fetchstr.
  apply quiet_bind; [apply quiet_my_proc|]. intros p. destruct (_ <=? _); [apply quiet_ret|apply quiet_fetchstr_loop].
Qed.
Lemma quiet_argptr n k : quiet (S := S) (argptr n k).
Proof.
  unfold argptr. apply quiet_bind; [apply quiet_my_proc|]. intros p. apply quiet_bind; [apply quiet_argint|].
  intros [a|]; [|apply quiet_ret]. destruct (_ || _); apply quiet_ret.
Qed.
Lemma quiet_argfd n : quiet (S := S) (argfd n).
Proof. unfold argfd. apply quiet_bind; [apply quiet_argint|]. intros [a|]; quiet_tac. Qed.
Lemma quiet_my_cwd : quiet (S := S) my_cwd.
Proof. unfold my_cwd. quiet_tac. Qed.
#[local] Hint Resolve quiet_argint quiet_argstr quiet_argptr quiet_argfd quiet_my_cwd quiet_fetchint : quiet.
Lemma quiet_p_namei path : quiet (p_namei junk path).
Proof. unfold p_namei. quiet_tac. Qed.
Lemma quiet_p_nameiparent path : quiet (p_nameiparent junk path).
Proof. unfold p_nameiparent. quiet_tac. Qed.
#[local] Hint Resolve quiet_p_namei quiet_p_nameiparent : quiet.
Lemma quiet_create path ty mj mn : quiet (create junk path ty mj mn).
Proof. unfold create. quiet_tac. Qed.
#[local] Hint Resolve quiet_create : quiet.
Lemma quiet_open_inode path om : quiet (open_inode junk path om).
Proof. unfold open_inode. quiet_tac. Qed.

Lemma sys_open_fair : fair (sys_open end_ junk).
Proof.
  intros s G. unfold sys_open. eapply wp_calm; [apply calm_quiet, quiet_argstr|exact G|]. intros [path|] s1 G1; [|by apply wp_ret].
  eapply wp_calm; [apply calm_quiet, quiet_argint|exact G1|]. intros [om|] s2 G2; [|by apply wp_ret].
  eapply wp_calm; [apply calm_quiet, quiet_in_fs|exact G2|]. intros ? s3 G3.
  eapply wp_calm; [apply calm_quiet, quiet_open_inode|exact G3|]. intros [i|] s4 G4; [|by apply wp_ret].
  assert (forall s', good [] s' -> wp (in_fs (iunlockput i);; in_fs end_op;; ret (-1)) (fun _ => good []) settled s') as Hbad.
  { intros s' G'. assert (calm (in_fs (iunlockput i);; in_fs end_op;; ret (-1))) as Hc by calm_tac. by apply Hc. }
  seq_by filealloc_moves. intros [f|] s5 G5; [|by apply Hbad].
  seq_by fdalloc_moves. intros [fd|] s6 G6.
  - destruct G6 as [G6 _].
    assert (calm (in_fs (iunlock (Some i));; in_fs end_op;;
      in_file (fstore f (set_f_inode i (negb (flag om O_WRONLY)) (flag om O_WRONLY || flag om O_RDWR)));; ret (Z.of_nat fd))) as Hc.
    { calm_tac. by apply calm_fstore. }
    by apply Hc.
  - seq_by fileclose_moves. intros ? s7 G7. by apply Hbad.
Qed.

(** [call] of a sequence is the sequence of the calls. *)
Lemma call_bind {A B} (m : M (fstate S) A) (k : A -> M (fstate S) B) c s :
  call (bind m k) c s = bind (call m) (fun a => call (k a)) c s.
Proof. unfold call, zoom, bind. cbn [env set_env]. by destruct (m c (env s)). Qed.

Lemma wp_call_bind {A B} (m : M (fstate S) A) (k : A -> M (fstate S) B) Q R s :
  wp (bind (call m) (fun a => call (k a))) Q R s -> wp (call (bind m k)) Q R s.
Proof. intros H c. rewrite call_bind. apply H. Qed.
Lemma wp_call_ret {A} (a : A) Q R s : Q a s -> wp (call (ret a)) Q R s.
Proof. intros H c. unfold call, zoom, ret. by destruct s. Qed.

Lemma pipealloc_moves ex s : good ex s ->
  wp (in_file (pipealloc end_)) (fun r => good (match r with Some (a, b) => b :: a :: ex | None => ex end)) settled s.
Proof.
  intros G. unfold in_file, pipealloc. apply wp_call_bind. seq_by filealloc_moves.
  intros [a|] s1 G1; [|by apply wp_call_ret]. apply wp_call_bind. seq_by filealloc_moves.
  intros [b|] s2 G2.
  2: { apply wp_call_bind. seq_by fileclose_moves. intros ? s3 G3. by apply wp_call_ret. }
  apply wp_call_bind, wp_bind. eapply wp_mono; [apply calm_quiet; [apply quiet_still, still_on_kmem|exact G2]|]. cbv beta. intros p s3 G3.
  destruct (p =? 0).
  - apply wp_call_bind, wp_bind. eapply wp_mono; [apply fileclose_moves; by apply good_swap|]. cbv beta. intros ? s4 G4.
    apply wp_call_bind. seq_by fileclose_moves. intros ? s5 G5. by apply wp_call_ret.
  - apply wp_call_bind, wp_bind. eapply wp_mono; [apply calm_quiet; [apply quiet_still, still_gets|exact G3]|]. cbv beta. intros k s4 G4.
    apply wp_call_bind, wp_bind. eapply wp_mono; [apply calm_quiet; [apply quiet_still, still_set_pipes|exact G4]|]. cbv beta. intros ? s5 G5.
    apply wp_call_bind. apply wp_bind. eapply wp_mono; [apply (calm_fstore a (set_f_pipe p true false) (fun _ => eq_refl) _ _ G5)|]. cbv beta. intros ? s6 G6.
    apply wp_call_bind. apply wp_bind. eapply wp_mono; [apply (calm_fstore b (set_f_pipe p false true) (fun _ => eq_refl) _ _ G6)|]. cbv beta. intros ? s7 G7. by apply wp_call_ret.
Qed.

Lemma sys_pipe_fair : fair (sys_pipe end_).
Proof.
  intros s G. unfold sys_pipe. eapply wp_calm; [apply calm_quiet, quiet_argptr|exact G|]. intros [a|] s1 G1; [|by apply wp_ret].
  seq_by pipealloc_moves. intros [[rf wf]|] s2 G2; [|by apply wp_ret].
  apply good_swap in G2. seq_by fdalloc_moves. intros [fd0|] s3 G3.
  - destruct G3 as (G3 & i & p & Hc & Hp & Hf). apply wp_bind. eapply wp_mono_both; [apply (fdalloc_frame wf [] s3 i p fd0 rf G3 Hc Hp Hf)| |done].
    intros [fd1|] s4 (G4 & p' & Hc4 & Hp4 & Hf4).
    + assert (calm (S := S) (p <- my_proc;; user_mem (ustore_bytes (pgdir p) a (word_bytes (Z.of_nat fd0)));;
        user_mem (ustore_bytes (pgdir p) (u32 (a + 4)) (word_bytes (Z.of_nat fd1)));; ret 0)) as Hcalm by calm_tac. by apply Hcalm.
    + apply wp_bind. eapply wp_mono; [by apply (fdclear_moves rf fd0 [wf] s4 i p')|]. cbv beta. intros ? s5 G5.
      seq_by fileclose_moves. intros ? s6 G6.
      seq_by fileclose_moves. intros ? s7 G7. by apply wp_ret.
  - seq_by fileclose_moves. intros ? s5 G5.
    seq_by fileclose_moves. intros ? s6 G6. by apply wp_ret.
Qed.

End fds.
