(* ===== verification/Fdlife.v ===== *)
(** The system calls that create, end and collect processes, and the table of
    all system calls: the reference counts of open files stay exact. *)

From stdpp Require Import functions base numbers list list_numbers strings gmap.
From S2P Require Import Xv6 Prelude Kstring Bytes Sleeplock Pipe Kalloc Vm PageTable Uvm Copyuvm Proc ProcTable Log Fs File Kernel Syscall Sysproc Exec Sysfile Args Frame Trap Fdrefs Fdsys.

Section steady.
Context {S : Type} {TB : TxBlocks S} {DV : Devices (fs S)}.
Context (end_ : Z).
Implicit Types (s : pst (fstate S)) (ex : list nat) (e : fstate S).

(** ** Code of file.c that keeps the counts *)

Definition steady {A} (m : M (fstate S) A) : Prop := forall e, wp m (fun _ => same_refs e) (same_refs e) e.

Lemma steady_bind {A B} (m : M _ A) (k : A -> M _ B) : steady m -> (forall a, steady (k a)) -> steady (bind m k).
Proof.
  intros H1 H2 e. apply wp_bind. eapply wp_mono; [apply H1|]. cbv beta. intros a e' E.
  eapply wp_mono_both; [apply (H2 a e')|..]; cbv beta; unfold same_refs in *; intros; congruence.
Qed.
Lemma steady_still {A} (m : M _ A) : still m -> steady m.
Proof. intros H e. eapply wp_mono_both; [apply H|..]; cbv beta; unfold same_refs; by intros; f_equal. Qed.
Lemma steady_fstore f g : (forall x, f_ref (g x) = f_ref x) -> steady (fstore f g).
Proof.
  intros Hg e. apply wp_modify. unfold same_refs. cbn -[alter]. apply list_eq. intros j. rewrite !list_lookup_fmap.
  destruct (decide (j = f)) as [->|N].
  - rewrite list_lookup_alter_eq. destruct (ftable e !! f); cbn; [by rewrite Hg|done].
  - by rewrite list_lookup_alter_ne.
Qed.
Lemma calm_steady {A} (m : M (fstate S) A) : steady m -> calm (call m).
Proof.
  intros Hm ex s G. apply wp_zoom_in. eapply wp_mono_both; [apply Hm|..]; cbv beta; intros.
  - by apply good_same_refs.
  - eapply good_settled. by apply good_same_refs.
Qed.

Ltac steady_step :=
  lazymatch goal with
  | |- steady (bind _ _) => apply steady_bind; [|intros ?]
  | |- steady (match ?x with _ => _ end) => destruct x
  | |- steady (fstore _ _) => by apply steady_fstore
  | |- steady _ => apply steady_still; solve [eauto with still]
  end.
Ltac steady_tac := repeat (cbv zeta; steady_step).

Lemma calm_fileread f n : calm (S := S) (in_file (fileread f n)).
Proof. apply calm_steady. unfold fileread. steady_tac. Qed.
Lemma steady_filewrite_loop f k : forall l i, steady (filewrite_loop k f l i).
Proof. induction k as [|k IH]; intros [|b l] i; cbn [filewrite_loop]; try (apply steady_still; solve [eauto with still]); steady_tac; apply IH. Qed.
Lemma calm_filewrite f l : calm (S := S) (in_file (filewrite f l)).
Proof.
  apply calm_steady. unfold filewrite. apply steady_bind; [steady_tac|]. intros x. destruct (negb _); [steady_tac|].
  destruct (f_type x); [steady_tac|steady_tac|]. apply steady_bind; [apply steady_filewrite_loop|]. intros i. steady_tac.
Qed.
Lemma quiet_filelock f : quiet (S := S) (in_file (filelock f)).
Proof. apply quiet_still. unfold filelock. still_tac. Qed.
Lemma quiet_fileunlock f : quiet (S := S) (in_file (fileunlock f)).
Proof. apply quiet_still. unfold fileunlock. still_tac. Qed.
Lemma quiet_filestat f : quiet (S := S) (in_file (filestat f)).
Proof. apply quiet_still. unfold filestat. still_tac. Qed.

(** ** Closing every descriptor *)

(** Many slots changed in fields the invariant does not constrain. *)
Definition mild (ps ps' : list proc) : Prop := Forall2 (fun p p' => ofile p' = ofile p /\ (idle p' -> idle p)) ps ps'.

Lemma good_mild ex s ps : good ex s -> mild (procs s) ps -> good ex (set_procs ps s).
Proof.
  intros [I L] Hm. split.
  - apply (fdinv_step ex s); [done| |done]. cbn. eapply Forall2_impl; [exact Hm|]. intros p p' [H1 H2]. split; [done|auto].
  - intros i q Hc. cbn. intros Hq. destruct (Forall2_lookup_r _ _ _ _ _ Hm Hq) as (p & Hp & _ & H2). intros Hi. by apply (L i p Hc Hp), H2.
Qed.

(** Slot [j] has property [P], and it is or is not the running process. *)
Definition at_slot (j : nat) (P : proc -> Prop) (c0 : option nat) s : Prop :=
  cur s = c0 /\ exists p, procs s !! j = Some p /\ P p.
Definition calm_at (j : nat) (P : proc -> Prop) (c0 : option nat) {A} (m : M (pst (fstate S)) A) : Prop :=
  forall ex s, good ex s -> at_slot j P c0 s -> wp m (fun _ s' => good ex s' /\ at_slot j P c0 s') settled s.

Lemma calm_at_bind j P c0 {A B} (m : M _ A) (k : A -> M _ B) : calm_at j P c0 m -> (forall a, calm_at j P c0 (k a)) -> calm_at j P c0 (bind m k).
Proof. intros H1 H2 ex s G At. apply wp_bind. eapply wp_mono; [by apply H1|]. cbv beta. intros a s' [G' At']. by apply H2. Qed.
Lemma calm_at_quiet j P c0 {A} (m : M _ A) : quiet m -> calm_at j P c0 m.
Proof.
  intros Hq ex s G (Hc & p & Hp & HP) c. specialize (Hq s c). destruct (m c s); try done; try (eapply good_settled; by eapply good_keeps).
  split; [by eapply good_keeps|]. destruct Hq as (K1 & K2 & _). split; [congruence|]. exists p. by rewrite K1.
Qed.
Lemma calm_at_store j P c0 i g :
  (forall p, ofile (g p) = ofile p /\ (idle (g p) -> idle p) /\ (P p -> P (g p))) -> calm_at j P c0 (store i g).
Proof.
  intros Hg ex s G (Hc & p & Hp & HP). apply wp_store. split.
  - apply good_alter; [done|]. intros q _. destruct (Hg q) as (H1 & H2 & _). split; [done|]. intros Hi. split; [right|]; auto.
  - split; [done|]. cbn -[alter]. destruct (decide (j = i)) as [->|N].
    + exists (g p). rewrite list_lookup_alter_eq, Hp. split; [done|]. by apply Hg.
    + exists p. by rewrite list_lookup_alter_ne.
Qed.
Lemma calm_at_acquire j P c0 l : calm_at j P c0 (acquire l).
Proof. intros ex s G At. by apply wp_acquire. Qed.
Lemma calm_at_release j P c0 l : calm_at j P c0 (release l).
Proof. intros ex s G At. by apply wp_release. Qed.

End steady.

Ltac calm_at_step :=
  lazymatch goal with
  | |- calm_at _ _ _ (bind _ _) => apply calm_at_bind; [|intros ?]
  | |- calm_at _ _ _ (match ?x with _ => _ end) => destruct x
  | |- calm_at _ _ _ (store _ _) =>
      apply calm_at_store; intros ?; split; [done|split; [unfold idle; cbn; intuition (congruence || discriminate)|unfold idle; cbn; intuition (congruence || discriminate)]]
  | |- calm_at _ _ _ (acquire _) => apply calm_at_acquire
  | |- calm_at _ _ _ (release _) => apply calm_at_release
  | |- calm_at _ _ _ _ => apply calm_at_quiet; solve [eauto with quiet]
  end.
Ltac calm_at_tac := repeat (cbv zeta; calm_at_step).

Section life.
Context {S : Type} {TB : TxBlocks S} {DV : Devices (fs S)}.
Context (end_ data : Z) (initcode : list Z) (log_init : Z -> M S unit) (junk : list Z).
Context (forkret_eip trapret_eip : Z).
#[local] Instance the_env : ProcEnv (fstate S) := kernel_env end_ data initcode log_init junk.
Implicit Types (s : pst (fstate S)) (ex : list nat).

(** The calls of proc.c into the allocator, the memory and the file system. *)
Lemma quiet_kalloc : quiet (call Proc.kalloc).
Proof. apply quiet_kvm. Qed.
Lemma quiet_kfree v : quiet (call (Proc.kfree v)).
Proof. apply quiet_kvm. Qed.
Lemma quiet_copyuvm pg n : quiet (call (Proc.copyuvm pg n)).
Proof. apply quiet_kvm. Qed.
Lemma quiet_freevm pg : quiet (call (Proc.freevm pg)).
Proof. apply quiet_kvm. Qed.
Lemma quiet_allocuvm pg o n : quiet (call (Proc.allocuvm pg o n)).
Proof. apply quiet_kvm. Qed.
Lemma quiet_deallocuvm pg o n : quiet (call (Proc.deallocuvm pg o n)).
Proof. apply quiet_kvm. Qed.
Lemma quiet_switchuvm pg k : quiet (call (Proc.switchuvm pg k)).
Proof. intros s c. cbn. unfold call, zoom, Kernel.switchuvm. destruct (k =? 0); [done|]. by destruct (pg =? 0). Qed.
Lemma quiet_idup i : quiet (call (Proc.idup i)).
Proof. apply quiet_in_fs. Qed.
Lemma quiet_iput i : quiet (call (Proc.iput i)).
Proof. apply quiet_in_fs. Qed.
Lemma quiet_begin_op : quiet (call Proc.begin_op).
Proof. apply quiet_in_fs. Qed.
Lemma quiet_end_op : quiet (call Proc.end_op).
Proof. apply quiet_in_fs. Qed.
#[local] Hint Resolve quiet_kalloc quiet_kfree quiet_copyuvm quiet_freevm quiet_allocuvm quiet_deallocuvm quiet_switchuvm
  quiet_idup quiet_iput quiet_begin_op quiet_end_op : quiet.

(** A slot just allocated: no descriptors yet, and not the running process. *)
Definition fresh (p : proc) : Prop := ~ idle p /\ Forall (fun o => o = None) (ofile p).
Definition fresh_slot (i : nat) (c0 : option nat) s : Prop := at_slot i fresh c0 s /\ c0 <> Some i.

Lemma alloc_scan_mild l : mild l (alloc_scan l).1.
Proof.
  apply Forall2_same_length_lookup_2; [by rewrite <- (Forall2_length _ _ _ (alloc_scan_kept l))|]. intros j p q Hp. rewrite alloc_scan_lookup, Hp.
  destruct (beyond _ _); intros [= <-]; done.
Qed.

(** Giving the slot back. *)
Lemma free_fresh ex s i c0 : good ex s -> fresh_slot i c0 s -> good ex (set_procs (alter (set_state UNUSED) i (procs s)) s).
Proof.
  intros G [(Hc & p & Hp & Hf) N]. apply good_alter; [done|]. intros q Hq. assert (q = p) as -> by congruence. split; [done|].
  intros _. split; [left; apply Hf|]. rewrite Hc. done.
Qed.

Lemma fresh_store i c0 j g ex s : (forall p, ofile (g p) = ofile p /\ (idle (g p) -> idle p)) -> good ex s -> fresh_slot i c0 s ->
  wp (store j g) (fun _ s' => good ex s' /\ fresh_slot i c0 s') settled s.
Proof.
  intros Hg G [At N]. eapply wp_mono; [apply (calm_at_store i fresh c0); [|done|done]|]; cbv beta.
  - intros p. destruct (Hg p) as [H1 H2]. split; [done|]. split; [done|]. intros [H3 H4]. split; [auto|by rewrite H1].
  - by intros _ s' [G' At'].
Qed.

Lemma fresh_quiet {A} i c0 (m : M (pst (fstate S)) A) ex s : quiet m -> good ex s -> fresh_slot i c0 s ->
  wp m (fun _ s' => good ex s' /\ fresh_slot i c0 s') settled s.
Proof.
  intros Hq G [At N]. eapply wp_mono; [by apply (calm_at_quiet i fresh c0)|]; cbv beta. by intros _ s' [G' At'].
Qed.

Lemma allocproc_moves ex s : good ex s ->
  wp (allocproc forkret_eip trapret_eip) (fun r s' => good ex s' /\ cur s' = cur s /\
    match r with Some i => fresh_slot i (cur s) s' | None => True end) settled s.
Proof.
  intros G. unfold allocproc. apply wp_bind, wp_acquire. apply wp_bind, wp_get.
  destruct (alloc_scan (procs s)) as [ps r] eqn:Es. apply wp_bind, wp_modify.
  assert (good ex (set_procs ps s)) as G1.
  { apply good_mild; [done|]. pose proof (alloc_scan_mild (procs s)) as H. by rewrite Es in H. }
  destruct r as [i|]; [|apply wp_bind, wp_release, wp_ret; done].
  pose proof (alloc_scan_found (procs s) i) as Hfound. rewrite Es in Hfound. destruct (Hfound eq_refl) as [(p & Hp & Hu) _].
  pose proof (alloc_scan_lookup (procs s) i) as Hl. rewrite Es, Hp in Hl. cbn [fst snd] in Hl.
  assert (exists q, ps !! i = Some q /\ state q = UNUSED /\ ofile q = ofile p) as (q & Hq & Hqu & Hqo).
  { rewrite Hl. destruct (beyond (Some i) i); eexists; (split; [done|]); done. }
  assert (cur s <> Some i) as Nc.
  { intros Hc. apply (proj2 G i p Hc Hp). by left. }
  assert (Forall (fun o => o = None) (ofile q)) as Hnone.
  { rewrite Hqo. pose proof (fi_ofile _ _ (proj1 G)) as HF. rewrite Forall_lookup in HF. apply (HF i p Hp). by left. }
  apply wp_bind, wp_store.
  assert (good ex (set_procs (alter (set_state EMBRYO) i (procs (set_procs ps s))) (set_procs ps s)) /\
    fresh_slot i (cur s) (set_procs (alter (set_state EMBRYO) i (procs (set_procs ps s))) (set_procs ps s))) as [G2 F2].
  { split.
    - apply good_alter; [done|]. intros x _. split; [done|]. intros [H|H]; discriminate.
    - split; [|done]. split; [done|]. exists (set_state EMBRYO q). cbn -[alter]. rewrite list_lookup_alter_eq, Hq. split; [done|].
      split; [intros [H|H]; discriminate|done]. }
  set (s2 := set_procs (alter _ _ _) _) in *. clearbody s2. clear Hl Hq Hqu Hqo Hnone q.
  apply wp_bind. eapply wp_mono; [by apply (fresh_store i (cur s))|]. cbv beta. intros _ s3 [G3 F3].
  apply wp_bind, wp_modify. set (s4 := set_nextpid _ s3).
  assert (good ex s4 /\ fresh_slot i (cur s) s4) as [G4 F4].
  { split; [|exact F3]. eapply good_keeps_procs; [exact G3|done..]. }
  apply wp_bind, wp_release. apply wp_bind. eapply wp_mono; [by apply (fresh_quiet i (cur s) _ ex s4 quiet_kalloc)|]. cbv beta. intros k s5 [G5 F5].
  apply wp_bind. eapply wp_mono; [by apply (fresh_store i (cur s))|]. cbv beta. intros _ s6 [G6 F6].
  destruct (k =? 0).
  - apply wp_bind, wp_store, wp_ret. split; [by eapply free_fresh|]. split; [apply F6|done].
  - do 4 (apply wp_bind; eapply wp_mono; [by apply (fresh_store i (cur s))|]; cbv beta; clear G6 F6; intros _ ? [G6 F6]).
    apply wp_ret. split; [done|]. split; [apply F6|done].
Qed.

(** ** [fork] *)

(** The descriptors from [i] on are free. *)
Definition blank_from (i : nat) (q : proc) : Prop :=
  ~ idle q /\ forall k, (i <= k < NOFILE)%nat -> ofile q !! k = Some None.

Lemma fresh_blank q : length (ofile q) = NOFILE -> fresh q -> blank_from 0 q.
Proof.
  intros Hl [H1 H2]. split; [done|]. intros k [_ Hk]. destruct (lookup_lt_is_Some_2 (ofile q) k) as [o Ho]; [lia|].
  rewrite Forall_lookup in H2. by rewrite Ho, (H2 k o Ho).
Qed.

Lemma dup_files_moves np fds : forall i s c0, good [] s -> at_slot np (blank_from i) c0 s -> (i + length fds <= NOFILE)%nat ->
  wp (dup_files np fds i) (fun _ s' => good [] s' /\ at_slot np (fun q => ~ idle q) c0 s') settled s.
Proof.
  induction fds as [|o fds IH]; intros i s c0 G (Hc & q & Hq & Hi & Hb) Hlen; cbn [dup_files].
  { apply wp_ret. split; [done|]. split; [done|]. by exists q. }
  cbn [length] in Hlen. destruct o as [f|].
  2: { apply (IH (Datatypes.S i)); [done| |lia]. split; [done|]. exists q. split; [done|]. split; [done|]. intros k Hk. apply Hb. lia. }
  apply wp_bind, wp_zoom_in. cbn. eapply (wp_mono_both _ _ _ (fun _ => False)); [apply (filedup_env f [] s); [done|cbn; lia]| |done].
  cbv beta. intros r e [-> Ge]. apply wp_bind, wp_store. apply (IH (Datatypes.S i)); [| |lia].
  - apply (good_set_fd [f] [] (set_env e s) np q i None (Some f) Ge Hq (Hb i ltac:(lia))); [by left|].
    intros g. rewrite occ_cons. rewrite (bool_decide_false (None = Some g)) by done. unfold one. repeat case_bool_decide; try lia; congruence.
  - split; [done|]. exists (set_ofile (<[i := Some f]> (ofile q)) q). cbn -[alter]. rewrite list_lookup_alter_eq, Hq. split; [done|].
    split; [done|]. intros k Hk. cbn. rewrite list_lookup_insert_ne by lia. apply Hb. lia.
Qed.

Lemma fork_fair : fair (fork forkret_eip trapret_eip).
Proof.
  intros s G. unfold fork. apply wp_bind, wp_curproc. intros c Hc.
  apply wp_bind. eapply wp_mono; [by apply allocproc_moves|]. cbv beta. intros [np|] s1 (G1 & Hc1 & F1); [|by apply wp_ret].
  apply wp_bind, wp_load. intros p Hp.
  apply wp_bind. eapply wp_mono; [apply (fresh_quiet np (cur s)); [apply quiet_copyuvm|exact G1|exact F1]|]. cbv beta. intros pd s2 [G2 F2].
  apply wp_bind. eapply wp_mono; [by apply (fresh_store np (cur s))|]. cbv beta. intros _ s3 [G3 F3]. destruct (pd =? 0).
  { apply wp_bind, wp_load. intros q Hq.
    apply wp_bind. eapply wp_mono; [apply (fresh_quiet np (cur s)); [apply quiet_kfree|exact G3|exact F3]|]. cbv beta. intros _ s4 [G4 F4].
    apply wp_bind. eapply wp_mono; [by apply (fresh_store np (cur s))|]. cbv beta. intros _ s5 [G5 F5].
    apply wp_bind, wp_store, wp_ret. by eapply free_fresh. }
  do 4 (apply wp_bind; eapply wp_mono; [by apply (fresh_store np (cur s))|]; cbv beta; clear G3 F3; intros _ ? [G3 F3]).
  assert (length (ofile p) = NOFILE) as Hlen.
  { pose proof (fi_ofile _ _ (proj1 G1)) as HF. rewrite Forall_lookup in HF. by apply (HF c p). }
  apply wp_bind. eapply wp_mono; [apply (dup_files_moves np (ofile p) 0 _ (cur s) G3); [|lia]|]; cbv beta.
  { destruct F3 as [(H1 & q & Hq & Hf) _]. split; [done|]. exists q. split; [done|]. apply fresh_blank; [|done].
    pose proof (fi_ofile _ _ (proj1 G3)) as HF. rewrite Forall_lookup in HF. by apply (HF np q). }
  intros _ s5 [G5 _]. destruct (cwd p) as [ip|]; [|apply wp_bind, wp_undef].
  match goal with |- wp ?m _ _ _ => assert (calm m) as Hcalm by calm_tac end. by apply Hcalm.
Qed.

(** ** [exit] *)

Definition no_fds (p : proc) : Prop := Forall (fun o => o = None) (ofile p).

Lemma close_files_moves i n : forall fd s, good [] s -> cur s = Some i ->
  (exists p, procs s !! i = Some p /\ forall k, (k < fd)%nat -> ofile p !! k = Some None) -> (fd + n = NOFILE)%nat ->
  wp (close_files i n fd) (fun _ s' => good [] s' /\ at_slot i no_fds (Some i) s') settled s.
Proof.
  induction n as [|n IH]; intros fd s G Hc (p & Hp & Hk) Hn; cbn [close_files].
  { apply wp_ret. split; [done|]. split; [done|]. exists p. split; [done|]. apply Forall_lookup. intros k o Ho.
    pose proof (fi_ofile _ _ (proj1 G)) as HF. rewrite Forall_lookup in HF. destruct (HF i p Hp) as [Hl _].
    apply lookup_lt_Some in Ho as Hlt. rewrite Hk in Ho by lia. congruence. }
  apply wp_bind, wp_load. intros p' Hp'. assert (p' = p) as -> by congruence.
  pose proof (fi_ofile _ _ (proj1 G)) as HF. rewrite Forall_lookup in HF. destruct (HF i p Hp) as [Hl _].
  destruct (lookup_lt_is_Some_2 (ofile p) fd) as [o Ho]; [lia|]. rewrite Ho. apply wp_bind. destruct o as [f|].
  2: { apply wp_ret. apply IH; [done|done| |lia]. exists p. split; [done|]. intros k Hk'. destruct (decide (k = fd)) as [->|]; [done|]. apply Hk. lia. }
  set (clear := fun p => set_ofile (<[fd := None]> (ofile p)) p). set (s1 := set_procs (alter clear i (procs s)) s).
  assert (good [f] s1) as G1.
  { apply (good_set_fd [] [f] s i p fd (Some f) None G Hp Ho); [by right|]. intros g. rewrite occ_cons.
    rewrite (bool_decide_false (None = Some g)) by done. unfold one. repeat case_bool_decide; try lia; congruence. }
  assert (forall g, refs g (procs s) = refs g (procs s1) + one (bool_decide (f = g)))%nat as Er.
  { intros g. pose proof (refs_alter g (procs s) i p clear Hp) as E1. pose proof (fd_count_insert g (ofile p) fd (Some f) None Ho) as E2.
    change (ofile (clear p)) with (<[fd := None]> (ofile p)) in E1. change (procs s1) with (alter clear i (procs s)).
    rewrite (bool_decide_false (None = Some g)) in E2 by done. unfold one in *. repeat case_bool_decide; try lia; congruence. }
  apply wp_bind, wp_zoom_in. cbn [Proc.fileclose the_env kernel_env].
  eapply wp_mono_both; [apply (fileclose_env end_ f [] s1 G1)| |]; cbv beta.
  - intros _ e Ge. apply wp_store. apply IH; [exact Ge|done| |lia]. exists (clear p). cbn -[alter]. rewrite list_lookup_alter_eq, Hp.
    split; [done|]. intros k Hk'. cbn. destruct (decide (k = fd)) as [->|N]; [by rewrite list_lookup_insert_eq by lia|].
    rewrite list_lookup_insert_ne by done. apply Hk. lia.
  - intros e [[I1 I2 I3 I4] _]. exists [], [f]. split; [cbn; lia|]. split; [apply (fi_ofile _ _ (proj1 G))|]. intros g x Hx.
    change (procs (set_env e s)) with (procs s). rewrite (I3 g x Hx), Er, occ_cons. change (procs (set_env e s1)) with (procs s1). cbn [occ]. lia.
Qed.

Lemma calm_at_map j P c0 g : (forall p, ofile (g p) = ofile p /\ (idle (g p) -> idle p) /\ (P p -> P (g p))) ->
  calm_at j P c0 (modify (fun s => set_procs (map g (procs s)) s)).
Proof.
  intros Hg ex s G (Hc & p & Hp & HP). apply wp_modify. split.
  - apply good_mild; [done|]. clear -Hg. induction (procs s) as [|a ps IH]; [constructor|]. constructor; [|done]. destruct (Hg a) as (? & ? & _). done.
  - split; [done|]. exists (g p). cbn. rewrite list_lookup_fmap, Hp. split; [done|]. by apply Hg.
Qed.

Lemma wakeup_proc_same ch p : ofile (wakeup_proc ch p) = ofile p /\ (idle (wakeup_proc ch p) -> idle p).
Proof. unfold wakeup_proc. destruct (decide _) as [[E _]|]; [|done]. split; [done|]. intros [H|H]; discriminate. Qed.

Lemma calm_at_wakeup1 j c0 ch : calm_at (S := S) j no_fds c0 (wakeup1 ch).
Proof. apply calm_at_map. intros p. destruct (wakeup_proc_same ch p) as [H1 H2]. split; [done|]. split; [done|]. unfold no_fds. by rewrite H1. Qed.

Lemma calm_at_reparent j c0 i n : forall k, calm_at (S := S) j no_fds c0 (reparent i n k).
Proof.
  induction n as [|n IH]; intros k; cbn [reparent]; [calm_at_tac|]. apply calm_at_bind; [|intros _; apply IH].
  unfold pass_to_init. apply calm_at_bind; [calm_at_tac|]. intros p. destruct (decide _); [|calm_at_tac].
  apply calm_at_bind; [calm_at_tac|]. intros ip. apply calm_at_bind; [calm_at_tac|]. intros _.
  destruct (decide _); [apply calm_at_wakeup1|calm_at_tac].
Qed.

Lemma exit_moves s : good [] s -> wp exit (fun _ => good []) settled s.
Proof.
  intros G. unfold exit. apply wp_bind, wp_curproc. intros i Hc. apply wp_bind, wp_gets. destruct (decide _); [apply wp_panic|].
  destruct (procs s !! i) as [p|] eqn:Hp.
  2: { cbn [close_files NOFILE]. apply wp_bind, wp_bind. unfold load. apply wp_bind, wp_get. rewrite Hp. apply wp_undef. }
  apply wp_bind. eapply wp_mono; [apply (close_files_moves i NOFILE 0 s G Hc); [exists p; split; [done|lia]|lia]|]. cbv beta. intros _ s1 [G1 A1].
  apply wp_bind. eapply wp_mono; [apply (calm_at_quiet i no_fds (Some i) _ quiet_begin_op [] s1 G1 A1)|]. cbv beta. intros _ s2 [G2 A2].
  apply wp_bind, wp_load. intros p2 Hp2.
  apply wp_bind. eapply wp_mono; [apply (calm_at_quiet i no_fds (Some i)); [|exact G2|exact A2]; destruct (cwd p2); [apply quiet_iput|apply quiet_undef]|].
  cbv beta. intros _ s3 [G3 A3].
  apply wp_bind. eapply wp_mono; [apply (calm_at_quiet i no_fds (Some i) _ quiet_end_op [] s3 G3 A3)|]. cbv beta. intros _ s4 [G4 A4].
  apply wp_bind. eapply wp_mono; [apply (calm_at_store i no_fds (Some i) i (set_cwd None)); [done|exact G4|exact A4]|]. cbv beta. intros _ s5 [G5 A5].
  apply wp_bind, wp_acquire. apply wp_bind, wp_load. intros p5 Hp5.
  apply wp_bind. eapply wp_mono; [apply (calm_at_wakeup1 i (Some i) _ [] s5 G5 A5)|]. cbv beta. intros _ s6 [G6 A6].
  apply wp_bind. eapply wp_mono; [apply (calm_at_reparent i (Some i) i NPROC 0 [] s6 G6 A6)|]. cbv beta. intros _ s7 [G7 A7].
  apply wp_bind, wp_store. apply wp_bind, wp_sched. intros j q _ _. apply (fdinv_settled []).
  destruct A7 as (_ & p7 & Hp7 & Hn7). apply (fdinv_step [] s7); [apply G7| |done]. cbn -[alter].
  apply Forall2_same_length_lookup_2; [by rewrite !length_alter|]. intros k a b Ha Hb.
  assert (b = a \/ exists f, b = set_ticksScheduled f a \/ k = i /\ (b = set_state ZOMBIE a \/ b = set_ticksScheduled f (set_state ZOMBIE a))) as Hcase.
  { destruct (decide (k = j)) as [->|N1].
    - rewrite list_lookup_alter_eq in Hb. destruct (decide (j = i)) as [->|N2].
      + rewrite list_lookup_alter_eq, Ha in Hb. injection Hb as <-. right. eexists. right. split; [done|]. by right.
      + rewrite list_lookup_alter_ne, Ha in Hb by done. injection Hb as <-. right. eexists. by left.
    - rewrite list_lookup_alter_ne in Hb by done. destruct (decide (k = i)) as [->|N2].
      + rewrite list_lookup_alter_eq, Ha in Hb. injection Hb as <-. right. exists 0. right. split; [done|]. by left.
      + rewrite list_lookup_alter_ne, Ha in Hb by done. injection Hb as <-. by left. }
  destruct Hcase as [->|(f & [->|(-> & Hb')])]; [split; [done|by right]|split; [done|by right]|].
  assert (a = p7) as -> by congruence. split; [by destruct Hb' as [->| ->]|]. intros _. by left.
Qed.

(** ** [wait], [kill] and the calls that do not touch descriptors *)

Lemma calm_sleep ch lk : calm (S := S) (sleep ch lk).
Proof. unfold sleep. apply calm_bind; [calm_tac|]. intros [i|]; calm_tac. Qed.

Lemma wait_fair : fair wait.
Proof.
  intros s G. unfold wait, wait_loop. apply wp_bind, wp_acquire. apply wp_bind, wp_curproc. intros i Hc. apply wp_bind, wp_get.
  destruct (wait_scan i (procs s) false) as [[j|] kids] eqn:Ew.
  - destruct (wait_scan_found _ _ _ _ _ Ew) as (p & Hp & _ & Hz).
    apply wp_bind, wp_load. intros p' Hp'. assert (p' = p) as -> by congruence.
    assert (at_slot j idle (Some i) s) as A by (split; [done|]; exists p; split; [done|]; by right).
    match goal with |- wp ?m _ _ _ => assert (forall s1, good [] s1 -> at_slot j idle (Some i) s1 -> wp m (fun _ => good []) settled s1) as H end;
      [|by apply H].
    clear s G Hc Ew Hp Hp' A. intros s G A.
    apply wp_bind. eapply wp_mono; [apply (calm_at_quiet j idle (Some i) _ (quiet_kfree _) [] s G A)|]. cbv beta. intros _ s1 [G1 A1].
    apply wp_bind. eapply wp_mono; [apply (calm_at_store j idle (Some i) j (set_kstack 0)); [done|exact G1|exact A1]|]. cbv beta. intros _ s2 [G2 A2].
    apply wp_bind. eapply wp_mono; [apply (calm_at_quiet j idle (Some i) _ (quiet_freevm _) [] s2 G2 A2)|]. cbv beta. intros _ s3 [G3 A3].
    do 4 (apply wp_bind; eapply wp_mono; [apply (calm_at_store j idle (Some i) j); [|exact G3|exact A3]; done|]; cbv beta; clear G3 A3; intros _ ? [G3 A3]).
    apply wp_bind, wp_store. apply wp_bind, wp_release, wp_ret. apply good_alter; [done|]. destruct A3 as (_ & q & Hq & Hi). intros q' Hq'.
    assert (q' = q) as -> by congruence. split; [done|]. intros _. split; [by right|done].
  - apply wp_bind, wp_load. intros p Hp. destruct (_ || _); [apply wp_bind, wp_release, wp_ret; done|].
    assert (calm (S := S) (sleep (Cproc i) Lptable;; ret 0)) as H by (apply calm_bind; [apply calm_sleep|intros; calm_tac]). by apply H.
Qed.

Lemma kill_scan_mild n l : forall l', kill_scan n l = Some l' -> mild l l'.
Proof.
  induction l as [|p l IH]; intros l'; [done|]. cbn [kill_scan]. destruct (pid p =? n).
  - intros [= <-]. constructor; [|clear; induction l; constructor; done].
    destruct (decide _); [|done]. split; [done|]. intros [H|H]; discriminate.
  - destruct (kill_scan n l) as [l2|]; intros [= <-]. constructor; [done|by apply IH].
Qed.

Lemma calm_kill n : calm (S := S) (kill n).
Proof.
  intros ex s G. unfold kill. apply wp_bind, wp_acquire. apply wp_bind, wp_get. destruct (kill_scan n (procs s)) as [ps|] eqn:K.
  - apply wp_bind, wp_modify. apply wp_bind, wp_release, wp_ret. apply good_mild; [done|]. by eapply kill_scan_mild.
  - by apply wp_bind, wp_release, wp_ret.
Qed.

Lemma calm_growproc n : calm (S := S) (growproc n).
Proof. unfold growproc. calm_tac. Qed.
Lemma calm_yield : calm (S := S) yield.
Proof. unfold yield. calm_tac. Qed.
#[local] Hint Resolve calm_sleep calm_kill calm_growproc calm_yield calm_fileread calm_filewrite : calm.
#[local] Hint Resolve quiet_argint quiet_argstr quiet_argptr quiet_argfd quiet_my_cwd quiet_fetchint quiet_p_namei quiet_p_nameiparent
  quiet_create quiet_filelock quiet_fileunlock quiet_filestat : quiet.

Lemma quiet_fetchstr a : quiet (S := S) (fetchstr a).
Proof. unfold fetchstr. apply quiet_bind; [apply quiet_my_proc|]. intros p. destruct (_ <=? _); [apply quiet_ret|apply quiet_fetchstr_loop]. Qed.
Lemma quiet_store_infos pg l : forall a, quiet (S := S) (store_infos pg a l).
Proof. induction l as [|q l IH]; intros a; cbn [store_infos]; quiet_tac. Qed.
Lemma quiet_store_fields pg a l : quiet (S := S) (store_fields pg a l).
Proof. induction l as [|[o b] l IH]; cbn [store_fields]; quiet_tac. Qed.
Lemma quiet_fetch_argv u k : forall i, quiet (S := S) (fetch_argv k u i).
Proof.
  induction k as [|k IH]; intros i; cbn [fetch_argv]; [quiet_tac|]. apply quiet_bind; [apply quiet_fetchint|]. intros [v|]; [|quiet_tac].
  destruct (v =? 0); [quiet_tac|]. apply quiet_bind; [apply quiet_fetchstr|]. intros [l|]; [|quiet_tac].
  apply quiet_bind; [apply IH|]. intros; quiet_tac.
Qed.
#[local] Hint Resolve quiet_store_infos quiet_store_fields quiet_fetch_argv : quiet.

Lemma calm_sleep_loop n t0 : calm (S := S) (sleep_loop n t0).
Proof. unfold sleep_loop. calm_tac. Qed.
Lemma calm_proc_ps n l : calm (S := S) (proc_ps n l).
Proof.
  unfold proc_ps. apply calm_bind; [calm_tac|]. intros t. apply calm_bind; [calm_tac|]. intros _. apply calm_bind; [calm_tac|]. intros s.
  destruct (ps_fill _ _ _). calm_tac.
Qed.
#[local] Hint Resolve calm_sleep_loop calm_proc_ps : calm.

Lemma exec_fair path argv : fair (exec end_ data junk path argv).
Proof.
  intros s G. eapply wp_mono_both; [apply exec_runs|..]; cbv beta.
  - intros r s' [[_ K]|[_ (i & pg & n & en & sp & Hc & K)]]; [by eapply good_keeps|].
    eapply good_keeps; [|exact K]. apply good_alter; [done|]. intros p _. split; [done|]. intros Hi. split; [by right|done].
  - intros s' [K|(i & pg & n & en & sp & Hc & K)]; eapply good_settled; [by eapply good_keeps|].
    eapply good_keeps; [|exact K]. apply good_alter; [done|]. intros p _. split; [done|]. intros Hi. split; [by right|done].
Qed.

Lemma sys_exec_fair : fair (sys_exec end_ data junk).
Proof.
  intros s G. unfold sys_exec. eapply wp_calm; [apply calm_quiet, quiet_argstr|exact G|]. intros [path|] s1 G1; [|by apply wp_ret].
  eapply wp_calm; [apply calm_quiet, quiet_argint|exact G1|]. intros [u|] s2 G2; [|by apply wp_ret].
  eapply wp_calm; [apply calm_quiet, quiet_fetch_argv|exact G2|]. intros [argv|] s3 G3; [by apply exec_fair|by apply wp_ret].
Qed.

Lemma sys_exit_fair : fair sys_exit.
Proof. intros s G. unfold sys_exit. apply wp_bind. eapply wp_mono; [by apply exit_moves|]. cbv beta. intros _ s1 G1. by apply wp_ret. Qed.

Ltac calm_call := apply calm_fair; calm_tac.

(** Every entry of the table. *)
Lemma syscalls_fair (shutdown : M (pst (fstate S)) unit) : calm shutdown ->
  Forall (fun o => match o with Some f => fair f | None => True end)
    (syscalls end_ data junk forkret_eip trapret_eip shutdown).
Proof.
  intros Hsh. unfold syscalls. repeat (apply Forall_cons; split); try apply Forall_nil_2; try done.
  - apply fork_fair.
  - apply sys_exit_fair.
  - apply wait_fair.
  - apply sys_pipe_fair.
  - unfold sys_read. calm_call.
  - unfold sys_kill. calm_call.
  - apply sys_exec_fair.
  - unfold sys_fstat. calm_call.
  - unfold sys_chdir. calm_call.
  - apply sys_dup_fair.
  - unfold sys_getpid. calm_call.
  - unfold sys_sbrk. calm_call.
  - unfold sys_sleep. calm_call.
  - unfold sys_uptime. calm_call.
  - apply sys_open_fair.
  - unfold sys_write. calm_call.
  - unfold sys_mknod. calm_call.
  - unfold sys_unlink, unlink_bad. calm_call.
  - unfold sys_link, link_bad. calm_call.
  - unfold sys_mkdir. calm_call.
  - apply sys_close_fair.
  - unfold sys_yield. calm_call.
  - unfold sys_shutdown. calm_call.
  - unfold sys_ps. calm_call.
  - unfold sys_flock. calm_call.
  - unfold sys_funlock. calm_call.
Qed.

Lemma syscall_moves (shutdown : M (pst (fstate S)) unit) s : calm shutdown -> good [] s ->
  wp (syscall (syscalls end_ data junk forkret_eip trapret_eip shutdown)) (fun _ => good []) settled s.
Proof.
  intros Hsh G. unfold syscall. apply wp_bind, wp_curproc. intros c Hc. apply wp_bind, wp_load. intros p Hp. cbv zeta.
  assert (forall v s', good [] s' -> wp (store c (fun p => set_tf (set_eax v (tf p)) p)) (fun _ => good []) settled s') as Hst.
  { intros v s' G'. assert (calm (S := S) (store c (fun p => set_tf (set_eax v (tf p)) p))) as H by calm_tac. by apply H. }
  pose proof (syscalls_fair shutdown Hsh) as HF. rewrite Forall_lookup in HF.
  destruct ((0 <? s32 (tf_eax (tf p))) && _); [|by apply Hst].
  destruct (syscalls _ _ _ _ _ _ !! _) as [[f|]|] eqn:E; [|by apply Hst|by apply Hst]. apply wp_bind. eapply wp_mono; [by apply (HF _ _ E)|]. cbv beta. intros r s1 G1. by apply Hst.
Qed.


End life.
