(* ===== verification/SysDemo.v ===== *)
(** One process with a page of memory over the small file system: the theorems
    on system calls at concrete states. *)

From stdpp Require Import functions base numbers list list_numbers strings gmap.
From S2P Require Import Xv6 Prelude Kstring Bytes Sleeplock Bio Blocks Kalloc Vm PageTable Uvm Copyuvm VmDemo Proc ProcTable Log Crash Fs Tx FsDemo File Kernel Syscall Args Sysproc Exec ExecStack Sysfile Frame Sbrk Trap Fdrefs Fdsys Fdlife.

#[local] Abbreviation store_t := (lst (bcache (recorded memdisk))).
#[local] Instance quiet_devices : Devices (fs store_t) := {| dev_read := fun _ => None; dev_write := fun _ => None |}.

(** The process has its memory in page directory 0 of [demo_space] and its
    stack pointer at 64; it is calling [getpid]. *)
Definition demo_tf : trapframe := set_eax 11 (set_eip_esp 0 64 zero_tf).
Definition demo_proc : proc :=
  set_state RUNNING (set_pid 1 (set_sz 4096 (set_pgdir (pg_at 0) (set_kstack (pg_at 9) (set_tf demo_tf unused_proc))))).
Definition no_file : file := File FD_NONE 0 false false None None 0.
Definition demo_files : list file := replicate 100 no_file.
Definition demo_sys (k : kmem) : pst (fstate store_t) :=
  Pst (demo_proc :: replicate 63 unused_proc) 2 (Some O) 0 (Some O) false 0
    (Fstate demo_files (Fs demo_blocks demo_sb []) ∅ k).

Lemma demo_sys_running k : running (demo_sys k) 0 demo_proc.
Proof. done. Qed.

(** [demo_space] with the bytes [l] from address 64 on. *)
Lemma demo_filled l : Forall (fun b => 0 <= b < 256) l -> (length l <= 100)%nat ->
  exists k, uvm_ok demo_end k [pg_at 3; pg_at 4] (pg_at 0) /\
    (forall va, 0 <= va < 2 ^ 32 -> entry (ram k) (pg_at 0) va = if va / 4096 =? 0 then fresh_entry (pg_at 2) else 0) /\
    forall j, (j < length l)%nat -> umem (demo_sys k) demo_proc (64 + Z.of_nat j) = nth j l 0.
Proof.
  intros Hl Hn. destruct demo_space as (k & U & E).
  destruct (fresh_entry_fields demo_end (pg_at 2) (pg_at_page 2 ltac:(lia))) as (F1 & F2 & F3 & F4).
  assert (forall a, 64 <= a < 64 + Z.of_nat (length l) -> present (entry (ram k) (pg_at 0) a) = true /\ user (entry (ram k) (pg_at 0) a) = true) as Hre.
  { intros a Ha. rewrite E by lia. replace (a / 4096) with 0 by (Z.to_euclidean_division_equations; lia). done. }
  destruct (copyout_loop_runs demo_end demo_me [] [] (pg_at 0) 1 k [pg_at 3; pg_at 4] 64 l U ltac:(lia) ltac:(vm_const; lia) Hre Hl ltac:(change (64 mod 4096) with 64; lia))
    as (k' & _ & Sd).
  exists k'. split; [apply Sd|]. split; [intros va Hva; rewrite (sd_entry _ _ _ _ _ _ _ Sd); by apply E|].
  intros j Hj. unfold umem, physmem. cbn [demo_sys env kpages]. change (pgdir demo_proc) with (pg_at 0).
  rewrite (sd_byte _ _ _ _ _ _ _ Sd) by (vm_const; lia || (apply Hre; lia)).
  destruct (Z.leb_spec 64 (64 + Z.of_nat j)); [|lia]. destruct (Z.ltb_spec (64 + Z.of_nat j) (64 + Z.of_nat (length l))); [|lia].
  cbn [andb]. f_equal. lia.
Qed.

Lemma demo_mapped k : (forall va, 0 <= va < 2 ^ 32 -> entry (ram k) (pg_at 0) va = if va / 4096 =? 0 then fresh_entry (pg_at 2) else 0) ->
  mapped (demo_sys k) demo_proc.
Proof.
  intros E. split; [vm_const; cbn; lia|]. intros va Hva. change (sz demo_proc) with 4096 in Hva. unfold physmem. cbn [demo_sys env kpages].
  change (pgdir demo_proc) with (pg_at 0). rewrite E by lia. replace (va / 4096) with 0 by (Z.to_euclidean_division_equations; lia).
  apply (fresh_entry_fields demo_end), pg_at_page. lia.
Qed.

Lemma fetchint_checks_witness : exists k v, 
  fetchint 64 (Ctx demo_me [] []) (demo_sys k) = Ret (Some v) (Ctx demo_me [] []) (demo_sys k) /\
  fetchint (2 ^ 32 - 2) (Ctx demo_me [] []) (demo_sys k) = Ret None (Ctx demo_me [] []) (demo_sys k).
Proof.
  destruct demo_space as (k & U & E). pose proof (demo_mapped k E) as Hm. exists k. eexists. split.
  - apply (fetchint_checks (demo_sys k) 0 demo_proc 64 (Ctx demo_me [] []) (demo_sys_running k) Hm). lia.
  - apply (fetchint_checks (demo_sys k) 0 demo_proc (2 ^ 32 - 2) (Ctx demo_me [] []) (demo_sys_running k) Hm). lia.
Defined.

(** The arguments 5 and 4092 behind the return address. *)
Definition demo_args : list Z := [0; 0; 0; 0; 5; 0; 0; 0; 252; 15; 0; 0].

Lemma demo_args_ok : Forall (fun b => 0 <= b < 256) demo_args.
Proof. repeat apply Forall_cons_2; try apply Forall_nil_2; lia. Qed.

Lemma demo_arg_at k : (forall j, (j < 12)%nat -> umem (demo_sys k) demo_proc (64 + Z.of_nat j) = nth j demo_args 0) ->
  arg_at (demo_sys k) demo_proc 0 = Some 5 /\ arg_at (demo_sys k) demo_proc 1 = Some 4092.
Proof.
  intros H. unfold arg_at. change (u32 (tf_esp (tf demo_proc) + 4 + 4 * 0)) with 68. change (u32 (tf_esp (tf demo_proc) + 4 + 4 * 1)) with 72.
  change (sz demo_proc) with 4096. cbn [Z.leb Z.compare Z.add Pos.add Pos.compare Pos.compare_cont Pos.succ].
  unfold uword. split.
  - pose proof (H 4%nat ltac:(lia)) as H4. pose proof (H 5%nat ltac:(lia)) as H5. pose proof (H 6%nat ltac:(lia)) as H6. pose proof (H 7%nat ltac:(lia)) as H7.
    change (68 + 1) with 69. change (68 + 2) with 70. change (68 + 3) with 71.
    change (64 + Z.of_nat 4) with 68 in H4. change (64 + Z.of_nat 5) with 69 in H5. change (64 + Z.of_nat 6) with 70 in H6. change (64 + Z.of_nat 7) with 71 in H7.
    by rewrite H4, H5, H6, H7.
  - pose proof (H 8%nat ltac:(lia)) as H4. pose proof (H 9%nat ltac:(lia)) as H5. pose proof (H 10%nat ltac:(lia)) as H6. pose proof (H 11%nat ltac:(lia)) as H7.
    change (72 + 1) with 73. change (72 + 2) with 74. change (72 + 3) with 75.
    change (64 + Z.of_nat 8) with 72 in H4. change (64 + Z.of_nat 9) with 73 in H5. change (64 + Z.of_nat 10) with 74 in H6. change (64 + Z.of_nat 11) with 75 in H7.
    by rewrite H4, H5, H6, H7.
Qed.

Lemma argptr_in_process_witness : exists k,
  argptr 1 4 (Ctx demo_me [] []) (demo_sys k) = Ret (Some 4092) (Ctx demo_me [] []) (demo_sys k) /\
  0 <= 4092 /\ 4092 + 4 <= sz demo_proc.
Proof.
  destruct (demo_filled demo_args demo_args_ok ltac:(cbn; lia)) as (k & U & E & L). destruct (demo_arg_at k L) as [_ A].
  pose proof (demo_mapped k E) as Hm. exists k.
  assert (argptr 1 4 (Ctx demo_me [] []) (demo_sys k) = Ret (Some 4092) (Ctx demo_me [] []) (demo_sys k)) as R
    by (rewrite (argptr_runs (demo_sys k) 0 demo_proc 1 4 (Ctx demo_me [] []) (demo_sys_running k) Hm ltac:(lia)), A; reflexivity).
  split; [exact R|].
  destruct (argptr_in_process (demo_sys k) 0 demo_proc 1 4 (Ctx demo_me [] []) 4092 (Ctx demo_me [] []) (demo_sys k) (demo_sys_running k) Hm ltac:(lia) R) as (_ & H1 & H2 & _).
  by split.
Defined.

Lemma fetchstr_finds_string_witness : exists k r,
  fetchstr 64 (Ctx demo_me [] []) (demo_sys k) = Ret r (Ctx demo_me [] []) (demo_sys k).
Proof.
  destruct demo_space as (k & U & E). exists k.
  destruct (fetchstr_finds_string (demo_sys k) 0 demo_proc 64 (Ctx demo_me [] []) (demo_sys_running k) (demo_mapped k E) ltac:(lia)) as (r & R & _).
  exists r. exact R.
Defined.

Lemma sys_ps_panics_witness : exists k, sys_ps (Ctx demo_me [] []) (demo_sys k) = Panic "trap".
Proof.
  destruct (demo_filled demo_args demo_args_ok ltac:(cbn; lia)) as (k & U & E & L). destruct (demo_arg_at k L) as [A0 A1]. exists k.
  apply (sys_ps_panics (demo_sys k) 0 demo_proc 5 demo_me [] [] (demo_sys_running k) (demo_mapped k E)).
  - done.
  - apply not_elem_of_nil.
  - exact A0.
  - exact A1.
  - vm_const. cbn. lia.
  - unfold physmem. cbn [demo_sys env kpages]. change (pgdir demo_proc) with (pg_at 0). change (sz demo_proc + 8) with 4104.
    rewrite E by lia. reflexivity.
Defined.

Lemma demo_owns k : uvm_ok demo_end k [pg_at 3; pg_at 4] (pg_at 0) ->
  (forall va, 0 <= va < 2 ^ 32 -> entry (ram k) (pg_at 0) va = if va / 4096 =? 0 then fresh_entry (pg_at 2) else 0) ->
  owns_memory demo_end (demo_sys k) [pg_at 3; pg_at 4] demo_proc.
Proof.
  intros U E. split; [done|vm_const; cbn; lia|apply (demo_mapped k E)| |done].
  intros va Hva. change (PGROUNDUP (sz demo_proc)) with 4096 in Hva. unfold physmem. cbn [demo_sys env kpages].
  change (pgdir demo_proc) with (pg_at 0). rewrite E by (unfold KERNBASE in *; lia).
  destruct (Z.eqb_spec (va / 4096) 0); [Z.to_euclidean_division_equations; lia|done].
Qed.

Lemma growproc_grows_witness : exists k r c s',
  @growproc _ (kernel_env demo_end demo_data [] (fun _ => ret tt) []) 100 (Ctx demo_me [] []) (demo_sys k) = Ret r c s' /\ (r = 0 \/ r = -1).
Proof.
  destruct demo_space as (k & U & E). exists k.
  destruct (growproc_grows demo_end demo_data [] (fun _ => ret tt) [] demo_end_ok (demo_sys k) 0 demo_proc [pg_at 3; pg_at 4] 100 demo_me [] []
    (demo_sys_running k) (demo_owns k U E) no_locks ltac:(lia) ltac:(vm_const; cbn; lia)) as (r & k' & f' & R & H).
  eexists r, _, _. split; [exact R|]. tauto.
Defined.

Lemma growproc_to_zero_witness : exists k c s',
  @growproc _ (kernel_env demo_end demo_data [] (fun _ => ret tt) []) (-4096) (Ctx demo_me [] []) (demo_sys k) = Ret (-1) c s'.
Proof.
  destruct demo_space as (k & U & E). exists k.
  destruct (growproc_to_zero demo_end demo_data [] (fun _ => ret tt) [] demo_end_ok (demo_sys k) 0 demo_proc [pg_at 3; pg_at 4] demo_me [] []
    (demo_sys_running k) (demo_owns k U E) no_locks ltac:(cbn; lia)) as (k' & f' & R & _).
  eexists _, _. exact R.
Defined.

(** The program [ls] with the argument [-l]. *)
Definition demo_argv : list (list Z) := [[108; 115]; [45; 108]].

Lemma exec_stack_layout_witness : exists k k',
  build_stack (pg_at 0) 4096 demo_argv (Ctx demo_me [] []) k = Ret (Some (4096 - stack_size demo_argv)) (Ctx demo_me [] []) k' /\
  uword_at k' (pg_at 0) (4096 - stack_size demo_argv + 4) = 2.
Proof.
  destruct demo_space as (k & U & E). exists k.
  destruct (exec_stack_layout demo_end demo_me [] [] k [pg_at 3; pg_at 4] (pg_at 0) 4096 demo_argv U) as (k' & R & _ & _ & H & _).
  - reflexivity.
  - vm_compute. discriminate.
  - vm_compute. discriminate.
  - intros a Ha. change (stack_size demo_argv) with 32 in Ha. rewrite E by lia.
    replace (a / 4096) with 0 by (Z.to_euclidean_division_equations; lia). split; [|done]. apply (fresh_entry_fields demo_end), pg_at_page. lia.
  - repeat apply Forall_cons_2; try apply Forall_nil_2; repeat apply Forall_cons_2; try apply Forall_nil_2; lia.
  - vm_compute. discriminate.
  - exists k'. split; [exact R|exact H].
Defined.

Lemma demo_good k : good [] (demo_sys k).
Proof.
  assert (forall f, refs f (procs (demo_sys k)) = 0%nat) as Hr.
  { intros f. unfold refs. cbn [demo_sys procs sum_list_with].
    replace (fd_count f (ofile demo_proc)) with 0%nat by (symmetry; apply fd_count_none; by repeat constructor).
    assert (forall n, sum_list_with (fun p => fd_count f (ofile p)) (replicate n unused_proc) = 0%nat) as ->; [|done].
    induction n as [|n IH]; [done|]. cbn [replicate sum_list_with]. rewrite IH.
    by rewrite (fd_count_none f (ofile unused_proc)) by (by repeat constructor). }
  split.
  - split.
    + reflexivity.
    + cbn [demo_sys procs]. apply Forall_cons_2; [|apply Forall_replicate]; (split; [done|]; intros _; by repeat constructor).
    + intros f x Hx. cbn [demo_sys env ftable] in Hx. unfold demo_files in Hx. apply lookup_replicate in Hx as [-> _]. by rewrite Hr.
    + intros f Hf. rewrite Hr in Hf. cbn in Hf. lia.
  - intros i p [= <-] [= <-] [H|H]; discriminate H.
Qed.

