(* ===== verification/Grep.v ===== *)
(** grep.c: the matcher for patterns with [^ . * $], against a declarative
    reading of patterns, and the loop that reads lines through a buffer of 1024
    bytes.

    C strings are lists of bytes without their NUL. *)

From stdpp Require Import base numbers list.
From S2P Require Import Xv6 Prelude.

Definition chr_nl : Z := 10.
Definition chr_star : Z := 42.
Definition chr_dollar : Z := 36.
Definition chr_dot : Z := 46.
Definition chr_caret : Z := 94.

(** ** The matcher *)

(** [matchstar(c, re, text)], where [here] is [matchhere] of [re]. *)
Definition matchstar (here : list Z -> bool) (c : Z) : list Z -> bool :=
  fix loop (text : list Z) : bool :=
    if here text then true
    else match text with
         | [] => false
         | x :: text' => if (x =? c) || (c =? chr_dot) then loop text' else false
         end.

Fixpoint matchhere (re text : list Z) {struct re} : bool :=
  match re with
  | [] => true
  | c :: re1 =>
      let rest :=
        if (c =? chr_dollar) && match re1 with [] => true | _ => false end
        then match text with [] => true | _ => false end
        else match text with
             | x :: text' => if (c =? chr_dot) || (c =? x) then matchhere re1 text' else false
             | [] => false
             end in
      match re1 with
      | s :: re2 => if s =? chr_star then matchstar (matchhere re2) c text else rest
      | [] => rest
      end
  end.

(** The [do]-loop of [match]. *)
Fixpoint match_from (re text : list Z) : bool :=
  if matchhere re text then true
  else match text with
       | [] => false
       | _ :: text' => match_from re text'
       end.

Definition match_ (re text : list Z) : bool :=
  match re with
  | c :: re' => if c =? chr_caret then matchhere re' text else match_from re text
  | [] => match_from re text
  end.

(** ** The program

    [read] delivers what the kernel has: the next at most [k] bytes of the
    input, [k] from a schedule, when there is room in the buffer. *)

(** [strchr(p, '\n')] on the bytes of the buffer from [p] on, which end in a NUL:
    the bytes before the newline and those after it. *)
Fixpoint find_nl (p : list Z) : option (list Z * list Z) :=
  match p with
  | [] => None
  | x :: p' =>
      if x =? chr_nl then Some ([], p')
      else if x =? 0 then None
      else match find_nl p' with Some (l, r) => Some (x :: l, r) | None => None end
  end.

(** The inner loop: what is written, and the bytes from the last [p] on. *)
Fixpoint grep_lines (k : nat) (pattern p : list Z) : list Z * list Z :=
  match k with
  | O => ([], p)
  | S k =>
      match find_nl p with
      | None => ([], p)
      | Some (l, p') =>
          let '(out, rest) := grep_lines k pattern p' in
          ((if match_ pattern l then l ++ [chr_nl] else []) ++ out, rest)
      end
  end.

(** The outer loop, with the [m] bytes of [buf] that are in use. *)
Fixpoint grep_loop (pattern buf input : list Z) (schedule : list nat) : list Z :=
  match schedule with
  | [] => []
  | k :: schedule =>
      let n := (k `min` (1024 - length buf - 1))%nat in
      match take n input with
      | [] => []
      | chunk =>
          let b := buf ++ chunk in
          let '(out, p) := grep_lines (length b) pattern b in
          let buf' := if (length p =? length b)%nat then [] else p in
          out ++ grep_loop pattern buf' (drop n input) schedule
      end
  end.
Definition grep (pattern input : list Z) (schedule : list nat) : list Z := grep_loop pattern [] input schedule.

(** ** What patterns mean *)

Inductive item := One (c : Z) | Star (c : Z) | End.

Fixpoint items (re : list Z) : list item :=
  match re with
  | [] => []
  | c :: re1 =>
      match re1 with
      | s :: re2 => if s =? chr_star then Star c :: items re2 else One c :: items re1
      | [] => if c =? chr_dollar then [End] else [One c]
      end
  end.

Definition accepts (c x : Z) : Prop := c = chr_dot \/ c = x.

(** [text] begins with a match of the items. *)
Inductive begins : list item -> list Z -> Prop :=
  | begins_nil text : begins [] text
  | begins_end : begins [End] []
  | begins_one c x l text : accepts c x -> begins l text -> begins (One c :: l) (x :: text)
  | begins_star c w l text : Forall (accepts c) w -> begins l text -> begins (Star c :: l) (w ++ text).

Definition matches (re text : list Z) : Prop :=
  match re with
  | c :: re' =>
      if c =? chr_caret then begins (items re') text
      else exists a b, text = a ++ b /\ begins (items re) b
  | [] => True
  end.

Lemma accepts_spec c x : accepts c x <-> (c =? chr_dot) || (c =? x) = true.
Proof. unfold accepts. by rewrite orb_true_iff, !Z.eqb_eq. Qed.

Lemma begins_inv l text : begins l text <->
  match l with
  | [] => True
  | One c :: l => exists x t, text = x :: t /\ accepts c x /\ begins l t
  | Star c :: l => exists w t, text = w ++ t /\ Forall (accepts c) w /\ begins l t
  | End :: l => l = [] /\ text = []
  end.
Proof.
  split.
  - destruct 1; eauto 10.
  - destruct l as [|[c|c|] l].
    + intros _. constructor.
    + intros (x & t & -> & H1 & H2). by constructor.
    + intros (w & t & -> & H1 & H2). by constructor.
    + intros [-> ->]. constructor.
Qed.

Lemma matchstar_spec here (P : list Z -> Prop) c : (forall t, here t = true <-> P t) ->
  forall text, matchstar here c text = true <-> exists w t, text = w ++ t /\ Forall (accepts c) w /\ P t.
Proof.
  intros HP. induction text as [|x text IH]; cbn; destruct (here _) eqn:E.
  - split; [|done]. intros _. exists [], []. split; [done|]. split; [constructor|by apply HP].
  - split; [done|]. intros (w & t & Ht & _ & H). symmetry in Ht. apply app_nil in Ht as [-> ->]. apply HP in H. congruence.
  - split; [|done]. intros _. exists [], (x :: text). split; [done|]. split; [constructor|by apply HP].
  - split.
    + intros H. destruct ((x =? c) || (c =? chr_dot)) eqn:Ex; [|done]. apply IH in H as (w & t & -> & Hw & Hp).
      exists (x :: w), t. split; [done|]. split; [|done]. constructor; [|done].
      apply accepts_spec. rewrite orb_comm, (Z.eqb_sym c x). done.
    + intros (w & t & Ht & Hw & Hp). destruct w as [|y w]; cbn in Ht; [subst t; apply HP in Hp; congruence|].
      injection Ht as <- ->. apply Forall_cons in Hw as [Hx Hw]. apply accepts_spec in Hx.
      rewrite orb_comm, (Z.eqb_sym c x) in Hx. rewrite Hx. apply IH. eauto.
Qed.

Lemma matchhere_spec re : forall text, matchhere re text = true <-> begins (items re) text.
Proof.
  induction re as [re IH] using (induction_ltof1 _ length). unfold ltof in IH. intros text.
  destruct re as [|c re1]; [rewrite begins_inv; done|].
  assert (match text with x :: t => if (c =? chr_dot) || (c =? x) then matchhere re1 t else false | [] => false end = true
    <-> begins (One c :: items re1) text) as Hone.
  { rewrite begins_inv. destruct text as [|x t]; [split; [done|intros (? & ? & ? & _); done]|]. split.
    - destruct (_ || _) eqn:E; [|done]. intros H. exists x, t. split; [done|]. split; [by apply accepts_spec|]. apply IH; [cbn; lia|done].
    - intros (? & ? & [= <- <-] & H1%accepts_spec & H2). rewrite H1. apply IH; [cbn; lia|done]. }
  destruct re1 as [|s re2]; cbn [items matchhere].
  - rewrite andb_true_r. destruct (c =? chr_dollar); [|exact Hone]. rewrite begins_inv. destruct text; split; done || by intros [_ ?].
  - destruct (s =? chr_star).
    + rewrite begins_inv. apply matchstar_spec. intros t. apply IH. cbn. lia.
    + rewrite andb_false_r. exact Hone.
Qed.

Lemma match_from_spec re text : match_from re text = true <-> exists a b, text = a ++ b /\ begins (items re) b.
Proof.
  induction text as [|x text IH]; cbn; destruct (matchhere re _) eqn:E.
  - split; [|done]. intros _. exists [], []. split; [done|by apply matchhere_spec].
  - split; [done|]. intros (a & b & Ht & H). symmetry in Ht. apply app_nil in Ht as [-> ->]. apply matchhere_spec in H. congruence.
  - split; [|done]. intros _. exists [], (x :: text). split; [done|by apply matchhere_spec].
  - rewrite IH. split; intros (a & b & Ht & H).
    + exists (x :: a), b. by rewrite Ht.
    + destruct a as [|y a]; cbn in Ht; [subst b; apply matchhere_spec in H; congruence|]. injection Ht as <- ->. eauto.
Qed.

Lemma match_spec re text : match_ re text = true <-> matches re text.
Proof.
  unfold match_, matches. destruct re as [|c re].
  - destruct text; done.
  - destruct (c =? chr_caret); [apply matchhere_spec|apply match_from_spec].
Qed.

(** C38: [match] decides the meaning of patterns: it returns 1 exactly when the
    text has, at its beginning for a pattern with [^] and anywhere otherwise, a
    run of characters made of one segment per item of the pattern, a star
    standing for any number of characters its character accepts and a final [$]
    for the end of the text. *)
Theorem match_decides_pattern re text : match_ re text = true <-> matches re text.
Proof. apply match_spec. Qed.

(** ** What [grep] prints *)

(** The complete lines of a text. *)
Fixpoint lines_from (acc text : list Z) : list (list Z) :=
  match text with
  | [] => []
  | x :: text => if x =? chr_nl then acc :: lines_from [] text else lines_from (acc ++ [x]) text
  end.
Definition lines (text : list Z) : list (list Z) := lines_from [] text.
Definition matching (pattern text : list Z) : list Z :=
  concat (map (fun l => if match_ pattern l then l ++ [chr_nl] else []) (lines text)).

Definition no_nul (l : list Z) : Prop := Forall (fun x => x <> 0) l.
Definition no_nl (l : list Z) : Prop := Forall (fun x => x <> chr_nl) l.

Lemma find_nl_spec p : no_nul p ->
  match find_nl p with
  | Some (l, r) => p = l ++ chr_nl :: r /\ no_nl l
  | None => no_nl p
  end.
Proof.
  induction p as [|x p IH]; intros H; cbn; [constructor|]. apply Forall_cons in H as [Hx H]. specialize (IH H).
  destruct (Z.eqb_spec x chr_nl) as [->|Hn]; [split; [done|constructor]|].
  destruct (Z.eqb_spec x 0); [done|]. destruct (find_nl p) as [[l r]|].
  - destruct IH as [-> Hl]. split; [done|]. by constructor.
  - by constructor.
Qed.

Lemma lines_from_no_nl a acc text : no_nl a -> lines_from acc (a ++ text) = lines_from (acc ++ a) text.
Proof.
  revert acc. induction a as [|x a IH]; intros acc Ha; [by rewrite app_nil_r|]. apply Forall_cons in Ha as [Hx Ha]. cbn.
  destruct (Z.eqb_spec x chr_nl); [done|]. rewrite IH by done. by rewrite <- app_assoc.
Qed.

Lemma lines_none text : no_nl text -> lines text = [].
Proof. intros H. unfold lines. rewrite <- (app_nil_r text), lines_from_no_nl by done. done. Qed.

Lemma lines_cons l text : no_nl l -> lines (l ++ chr_nl :: text) = l :: lines text.
Proof. intros H. unfold lines. by rewrite lines_from_no_nl. Qed.

Lemma matching_cons pattern l text : no_nl l ->
  matching pattern (l ++ chr_nl :: text) = (if match_ pattern l then l ++ [chr_nl] else []) ++ matching pattern text.
Proof. intros H. unfold matching. by rewrite lines_cons. Qed.

Lemma matching_none pattern text : no_nl text -> matching pattern text = [].
Proof. intros H. unfold matching. by rewrite lines_none. Qed.

(** The inner loop handles the complete lines of the buffer and stops in front
    of the unfinished one. *)
Lemma grep_lines_spec pattern k : forall b more, no_nul b -> (length b <= k)%nat ->
  exists p, snd (grep_lines k pattern b) = p /\ no_nl p /\ no_nul p /\
    matching pattern (b ++ more) = fst (grep_lines k pattern b) ++ matching pattern (p ++ more) /\
    (length p <= length b)%nat /\ (length p = length b -> no_nl b /\ p = b) /\
    (forall l, l ∈ lines (p ++ more) -> l ∈ lines (b ++ more)).
Proof.
  induction k as [|k IH]; intros b more Hb Hk.
  { destruct b; [|cbn in Hk; lia]. exists []. assert (no_nl [] /\ no_nul []) as [? ?] by (split; constructor). cbn. by split_and!. }
  cbn [grep_lines]. pose proof (find_nl_spec b Hb) as Hf. destruct (find_nl b) as [[l r]|].
  - destruct Hf as [-> Hl]. apply Forall_app in Hb as [Hb1 Hb2]. apply Forall_cons in Hb2 as [_ Hr].
    rewrite length_app in Hk. cbn in Hk. destruct (IH r more Hr ltac:(lia)) as (p & E & H1 & H2 & H3 & H4 & _ & H6).
    destruct (grep_lines k pattern r) as [out rest]. cbn [fst snd] in *. subst rest. exists p.
    split; [done|]. split; [done|]. split; [done|]. rewrite <- app_assoc. cbn [app]. split.
    { rewrite matching_cons by done. by rewrite H3, app_assoc. }
    rewrite length_app. cbn. split; [lia|]. split; [lia|]. intros l' Hl'. rewrite lines_cons by done. right. by apply H6.
  - exists b. cbn [fst snd]. by split_and!.
Qed.

(** Lines that fit into the buffer with their newline. *)
Definition lines_fit (text : list Z) : Prop := forall l, l ∈ lines text -> (length l < 1023)%nat.

(** A text without newline in its first 1023 bytes has no lines at all, if its
    lines fit. *)
Lemma long_prefix a b : lines_fit (a ++ b) -> no_nl a -> (1023 <= length a)%nat -> no_nl b.
Proof.
  intros Hf Ha Hl. assert (forall b0 acc, (1023 <= length acc)%nat -> (forall l, l ∈ lines_from acc b0 -> (length l < 1023)%nat) -> no_nl b0) as G.
  { induction b0 as [|x b0 IH]; intros acc Hacc H; [constructor|]. cbn in H. destruct (Z.eqb_spec x chr_nl) as [->|Hx].
    - specialize (H acc ltac:(left)). lia.
    - constructor; [done|]. apply (IH (acc ++ [x])); [rewrite length_app; lia|done]. }
  apply (G b a Hl). intros l Hin. apply Hf. unfold lines. by rewrite lines_from_no_nl.
Qed.

Lemma lines_fit_none a : no_nl a -> lines_fit a.
Proof. intros H l Hl. rewrite lines_none in Hl by done. by apply elem_of_nil in Hl. Qed.

(** Reads that fill the buffer, as from a file. *)
Lemma grep_loop_spec pattern n : forall buf input, no_nul (buf ++ input) -> no_nl buf -> (length buf < 1023)%nat ->
  lines_fit (buf ++ input) -> (length input < n)%nat ->
  grep_loop pattern buf input (replicate n 1023%nat) = matching pattern (buf ++ input).
Proof.
  induction n as [|n IH]; intros buf input H0 Hb Hl Hf Hn; [lia|]. cbn [replicate grep_loop].
  replace (1023 `min` (1024 - length buf - 1))%nat with (1023 - length buf)%nat by lia.
  destruct (take (1023 - length buf) input) as [|y chunk] eqn:Et.
  { assert (input = []) as -> by (destruct input; [done|]; replace (1023 - length buf)%nat with (S (1022 - length buf)) in Et by lia; done).
    by rewrite app_nil_r, matching_none. }
  assert (length (drop (1023 - length buf) input) < n)%nat as Hn'.
  { rewrite length_drop. destruct input; [by rewrite take_nil in Et|]. cbn in *. lia. }
  pose proof (length_take input (1023 - length buf)) as Hlt.
  assert (buf ++ input = (buf ++ y :: chunk) ++ drop (1023 - length buf) input) as Ei by (by rewrite <- Et, <- app_assoc, take_drop).
  rewrite Ei in H0, Hf |- *. clear Ei. rewrite Et in Hlt.
  pose proof (length_drop input (1023 - length buf)) as Hld. set (rest := drop _ input) in *. set (b := buf ++ y :: chunk) in *.
  assert (length b = length buf + length (y :: chunk))%nat as Elb by (unfold b; by rewrite length_app).
  apply Forall_app in H0 as [Hb0 Hr0].
  destruct (grep_lines_spec pattern (length b) b rest Hb0 ltac:(done)) as (p & Ep & P1 & P2 & P3 & P4 & P5 & P6).
  destruct (grep_lines (length b) pattern b) as [out q]. cbn [fst snd] in *. subst q. rewrite P3. f_equal.
  destruct (Nat.eqb_spec (length p) (length b)) as [E|N].
  - destruct (P5 E) as [Nb ->]. assert (no_nl rest) as Nr.
    { destruct (decide (1023 <= length b)%nat) as [Hge|Hlt']; [by apply (long_prefix b)|].
      destruct rest as [|z rest]; [constructor|]. cbn in Hld. lia. }
    rewrite (matching_none pattern (b ++ rest)) by (by apply Forall_app).
    rewrite (IH [] rest); [by apply matching_none|done|constructor|cbn; lia|by apply lines_fit_none|done].
  - apply IH; [by apply Forall_app|done|lia| |done]. intros l Hin. by apply Hf, P6.
Qed.

(** C39: on a file, [grep] prints exactly the lines that match, in order, each
    with its newline: for every file without NUL bytes whose lines fit into the
    buffer, whatever follows the last newline. *)
Theorem grep_prints_matching_lines pattern input n : no_nul input -> lines_fit input -> (length input < n)%nat ->
  grep pattern input (replicate n 1023%nat) = matching pattern input.
Proof. intros H0 Hf Hn. apply (grep_loop_spec pattern n [] input); [done|constructor|cbn; lia|done|done]. Qed.

(** a read that ends inside the first line of the buffer is lost, as from a
    pipe: of the line [ab] written in two pieces only [b] is looked at. *)
Theorem grep_drops_partial_line : grep [97] [97; 98; chr_nl] [1; 2]%nat = [] /\ matching [97] [97; 98; chr_nl] = [97; 98; chr_nl].
Proof. done. Qed.

Lemma grep_prints_matching_lines_witness :
  grep [97] [97; 98; chr_nl; 99; chr_nl; 97] (replicate 7 1023%nat) = [97; 98; chr_nl].
Proof.
  rewrite (grep_prints_matching_lines [97] [97; 98; chr_nl; 99; chr_nl; 97] 7).
  - reflexivity.
  - repeat constructor; done.
  - intros l Hl. cbn in Hl. repeat (apply elem_of_cons in Hl as [->|Hl]; [cbn; lia|]). by apply elem_of_nil in Hl.
  - cbn. lia.
Defined.
