(* ===== verification/Umalloc.v ===== *)
(** umalloc.c: the storage allocator of user programs.  The free blocks are a
    circular list in order of address, threaded through the headers of the
    blocks in the memory of the process. *)

From stdpp Require Import functions base numbers list.
From S2P Require Import Xv6 Prelude Kstring.

(** [union header]: a pointer and a size in units of headers. *)
Definition sizeof_Header : Z := 8.
Definition s_ptr (m : mem) (p : Z) : Z := load32 m p.
Definition s_size (m : mem) (p : Z) : Z := load32 m (p + 4).
Definition set_ptr (m : mem) (p v : Z) : mem := store32 m p v.
Definition set_size (m : mem) (p v : Z) : mem := store32 m (p + 4) v.
(** [p + n] on [Header *]. *)
Definition plus (p n : Z) : Z := u32 (p + sizeof_Header * n).

Section umalloc.
Context {E : Type}.
(** [&base]; [sbrk] of the kernel, on what the kernel knows of the process. *)
Context (base : Z) (sbrk : Z -> E -> Z * E).

Record uheap := Uheap { um : mem; freep : Z; os : E }.

(** The search of [free] for the block before [bp]. *)
Fixpoint free_scan (k : nat) (m : mem) (bp p : Z) : option Z :=
  match k with
  | O => None
  | S k =>
      if (p <? bp) && (bp <? s_ptr m p) then Some p
      else if (s_ptr m p <=? p) && ((p <? bp) || (bp <? s_ptr m p)) then Some p
      else free_scan k m bp (s_ptr m p)
  end.

(** The stores of [free] after the search: the block is joined to the one after
    it, or points to it; then it is joined to the one before it, or that one
    points to it. *)
Definition link_right (m : mem) (bp p : Z) : mem :=
  if plus bp (s_size m bp) =? s_ptr m p then
    let m := set_size m bp (u32 (s_size m bp + s_size m (s_ptr m p))) in
    set_ptr m bp (s_ptr m (s_ptr m p))
  else set_ptr m bp (s_ptr m p).
Definition link_left (m : mem) (bp p : Z) : mem :=
  if plus p (s_size m p) =? bp then
    let m := set_size m p (u32 (s_size m p + s_size m bp)) in
    set_ptr m p (s_ptr m bp)
  else set_ptr m p bp.

Definition free (k : nat) (ap : Z) (h : uheap) : option uheap :=
  let bp := u32 (ap - sizeof_Header) in
  match free_scan k (um h) bp (freep h) with
  | None => None
  | Some p => Some (Uheap (link_left (link_right (um h) bp p) bp p) p (os h))
  end.

Definition morecore (k : nat) (nu : Z) (h : uheap) : option (Z * uheap) :=
  let nu := if nu <? 4096 then 4096 else nu in
  let '(p, e) := sbrk (s32 (u32 (nu * sizeof_Header))) (os h) in
  if p =? u32 (-1) then Some (0, Uheap (um h) (freep h) e)
  else
    match free k (plus p 1) (Uheap (set_size (um h) p nu) (freep h) e) with
    | None => None
    | Some h' => Some (freep h', h')
    end.

(** What [malloc] does with a block [p] that is large enough. *)
Definition carve (nunits prevp p : Z) (h : uheap) : Z * uheap :=
  let m := um h in
  if s_size m p =? nunits then (plus p 1, Uheap (set_ptr m prevp (s_ptr m p)) prevp (os h))
  else
    let m := set_size m p (u32 (s_size m p - nunits)) in
    let p := plus p (s_size m p) in
    (plus p 1, Uheap (set_size m p nunits) prevp (os h)).

Fixpoint malloc_loop (k : nat) (nunits prevp p : Z) (h : uheap) : option (Z * uheap) :=
  match k with
  | O => None
  | S k =>
      if nunits <=? s_size (um h) p then Some (carve nunits prevp p h)
      else if p =? freep h then
        match morecore k nunits h with
        | None => None
        | Some (p, h) => if p =? 0 then Some (0, h) else malloc_loop k nunits p (s_ptr (um h) p) h
        end
      else malloc_loop k nunits p (s_ptr (um h) p) h
  end.

Definition units (nbytes : Z) : Z := u32 (nbytes + sizeof_Header - 1) / sizeof_Header + 1.

Definition malloc (k : nat) (nbytes : Z) (h : uheap) : option (Z * uheap) :=
  let nunits := units nbytes in
  let h := if freep h =? 0 then Uheap (set_size (set_ptr (um h) base base) base 0) base (os h) else h in
  malloc_loop k nunits (freep h) (s_ptr (um h) (freep h)) h.

(** ** The list of free blocks *)

(** A block: the address of its header and its size in units. *)
#[local] Abbreviation block := (Z * Z)%type.
Implicit Types (b : block) (L : list block).

Definition head_or (L : list block) (e : Z) : Z := match L with [] => e | (a, _) :: _ => a end.

(** The headers of [L] in memory, the last one pointing to [e]. *)
Fixpoint seg (m : mem) (L : list block) (e : Z) : Prop :=
  match L with
  | [] => True
  | (a, s) :: L => s_ptr m a = head_or L e /\ s_size m a = s /\ seg m L e
  end.

(** Blocks in order of address between [lo] and [top], with a gap after each. *)
Fixpoint ordered (lo : Z) (L : list block) (top : Z) : Prop :=
  match L with
  | [] => True
  | (a, s) :: L => lo <= a /\ 1 <= s /\ a + 8 * s <= top /\ ordered (a + 8 * s + 1) L top
  end.

Definition inside b (x : Z) : Prop := fst b <= x < fst b + 8 * snd b.
Definition apart b b' : Prop := fst b + 8 * snd b <= fst b' \/ fst b' + 8 * snd b' <= fst b.
Definition covered L (x : Z) : Prop := exists b, b ∈ L /\ inside b x.

(** Headers that do not overlap the one at [x]. *)
Definition clear_of L (x : Z) : Prop := Forall (fun b => fst b + 8 <= x \/ x + 8 <= fst b) L.

Lemma s_ptr_set_ptr m p v : 0 <= v < 2 ^ 32 -> s_ptr (set_ptr m p v) p = v.
Proof. apply load32_store32. Qed.
Lemma s_size_set_size m p v : 0 <= v < 2 ^ 32 -> s_size (set_size m p v) p = v.
Proof. apply load32_store32. Qed.
Lemma s_ptr_set_size m p q v : q + 4 <= p \/ p + 8 <= q \/ p = q -> s_ptr (set_size m p v) q = s_ptr m q.
Proof. intros H. apply load32_ext. intros x Hx. apply store32_other. lia. Qed.
Lemma s_size_set_ptr m p q v : q + 8 <= p \/ p <= q -> s_size (set_ptr m p v) q = s_size m q.
Proof. intros H. apply load32_ext. intros x Hx. apply store32_other. lia. Qed.
Lemma s_ptr_set_ptr_ne m p q v : q + 4 <= p \/ p + 4 <= q -> s_ptr (set_ptr m p v) q = s_ptr m q.
Proof. intros H. apply load32_ext. intros x Hx. apply store32_other. lia. Qed.
Lemma s_size_set_size_ne m p q v : q + 4 <= p \/ p + 4 <= q -> s_size (set_size m p v) q = s_size m q.
Proof. intros H. apply load32_ext. intros x Hx. apply store32_other. lia. Qed.

Lemma set_ptr_other m p v x : ~ (p <= x < p + 8) -> set_ptr m p v x = m x.
Proof. intros H. apply store32_other. lia. Qed.
Lemma set_size_other m p v x : ~ (p <= x < p + 8) -> set_size m p v x = m x.
Proof. intros H. apply store32_other. lia. Qed.

(** A header only depends on its own eight bytes. *)
Lemma useg_ext m m' L e : (forall b x, b ∈ L -> fst b <= x < fst b + 8 -> m' x = m x) -> seg m L e -> seg m' L e.
Proof.
  induction L as [|[a s] L IH]; intros H; [done|]. intros (H1 & H2 & H3).
  pose proof (fun x => H (a, s) x ltac:(left)) as Ha. cbn in Ha. split; [|split].
  - unfold s_ptr in *. rewrite <- H1. apply load32_ext. intros x Hx. apply Ha. lia.
  - unfold s_size in *. rewrite <- H2. apply load32_ext. intros x Hx. apply Ha. lia.
  - apply IH; [|done]. intros b x Hb. apply H. by right.
Qed.

Lemma useg_app m L1 L2 e : seg m (L1 ++ L2) e <-> seg m L1 (head_or L2 e) /\ seg m L2 e.
Proof.
  induction L1 as [|[a s] L1 IH]; cbn; [tauto|]. rewrite IH. assert (head_or (L1 ++ L2) e = head_or L1 (head_or L2 e)) as -> by by destruct L1.
  tauto.
Qed.

Lemma ordered_app lo L1 L2 top : ordered lo (L1 ++ L2) top <->
  ordered lo L1 top /\ ordered (foldl (fun _ b => fst b + 8 * snd b + 1) lo L1) L2 top.
Proof.
  revert lo. induction L1 as [|[a s] L1 IH]; intros lo; cbn; [tauto|]. rewrite IH. tauto.
Qed.

Lemma ordered_weaken lo lo' L top top' : ordered lo L top -> lo' <= lo -> top <= top' -> ordered lo' L top'.
Proof.
  revert lo lo'. induction L as [|[a s] L IH]; intros lo lo'; [done|]. cbn. intros (H1 & H2 & H3 & H4) Hl Ht.
  split; [lia|]. split; [done|]. split; [lia|]. by apply (IH (a + 8 * s + 1)).
Qed.

Lemma ordered_in lo L top b : ordered lo L top -> b ∈ L -> lo <= fst b /\ 1 <= snd b /\ fst b + 8 * snd b <= top.
Proof.
  revert lo. induction L as [|[a s] L IH]; intros lo; cbn; [by intros _ ?%elem_of_nil|]. intros (H1 & H2 & H3 & H4) Hb.
  apply elem_of_cons in Hb as [->|Hb]; [done|]. destruct (IH _ H4 Hb) as (? & ? & ?). lia.
Qed.

(** ** [free] *)

(** Where a block belongs among blocks it does not overlap. *)
Lemma place L : forall lo top b, ordered lo L top -> 1 <= snd b -> (forall b', b' ∈ L -> apart b b') ->
  exists L1 L2, L = L1 ++ L2 /\ Forall (fun b' => fst b' + 8 * snd b' <= fst b) L1 /\ Forall (fun b' => fst b + 8 * snd b <= fst b') L2.
Proof.
  induction L as [|[a s] L IH]; intros lo top b Ho Hs Ha; [by exists [], []|]. cbn in Ho. destruct Ho as (H1 & H2 & H3 & H4).
  destruct (Ha (a, s) ltac:(left)) as [Hr|Hl]; cbn in *.
  - exists [], ((a, s) :: L). split; [done|]. split; [constructor|]. constructor; [done|]. apply Forall_forall. intros b' Hb'.
    destruct (ordered_in _ _ _ _ H4 Hb') as (? & _). lia.
  - destruct (IH _ _ b H4 Hs) as (L1 & L2 & -> & F1 & F2); [intros; apply Ha; by right|].
    exists ((a, s) :: L1), L2. split; [done|]. split; [|done]. by constructor.
Qed.

Definition stops (bp p q : Z) : bool := ((p <? bp) && (bp <? q)) || ((q <=? p) && ((p <? bp) || (bp <? q))).

Lemma free_scan_step k m bp p : free_scan (S k) m bp p = if stops bp p (s_ptr m p) then Some p else free_scan k m bp (s_ptr m p).
Proof. cbn [free_scan]. unfold stops. by destruct ((p <? bp) && (bp <? s_ptr m p)), ((s_ptr m p <=? p) && ((p <? bp) || (bp <? s_ptr m p))). Qed.

(** Headers in order of address that do not overlap. *)
Fixpoint ascending L : Prop :=
  match L with
  | [] => True
  | (a, _) :: L => Forall (fun b => a + 8 <= fst b) L /\ ascending L
  end.

Lemma ordered_ascending lo L top : ordered lo L top -> ascending L.
Proof.
  revert lo. induction L as [|[a s] L IH]; intros lo; [done|]. cbn. intros (H1 & H2 & H3 & H4). split; [|by eapply IH].
  apply Forall_forall. intros b Hb. destruct (ordered_in _ _ _ _ H4 Hb). lia.
Qed.

Lemma ascending_app L1 L2 : ascending (L1 ++ L2) -> ascending L1 /\ ascending L2 /\ forall b b', b ∈ L1 -> b' ∈ L2 -> fst b + 8 <= fst b'.
Proof.
  induction L1 as [|[a s] L1 IH]; cbn; [intros H; split; [done|]; split; [done|]; by intros b b' ?%elem_of_nil|].
  intros [[F1 F2]%Forall_app H]. destruct (IH H) as (H1 & H2 & H3). split; [done|]. split; [done|].
  intros b b' [->|Hb]%elem_of_cons Hb'; [|by apply H3]. cbn. rewrite Forall_forall in F2. by apply F2.
Qed.

Lemma head_in L e : L <> [] -> exists s, (head_or L e, s) ∈ L.
Proof. destruct L as [|[a s] L]; [done|]. intros _. exists s. left. Qed.

(** The search passes the blocks above [bp] ... *)
Lemma scan_high m bp L : forall k, base < bp -> seg m L base -> ascending L -> Forall (fun b => bp < fst b) L ->
  free_scan (length L + k) m bp (head_or L base) = free_scan k m bp base.
Proof.
  induction L as [|[a s] L IH]; intros k Hb Hs Ho Hf; [done|]. apply Forall_cons in Hf as [Ha Hf]. cbn [fst] in Ha.
  cbn in Hs, Ho. destruct Hs as (H1 & _ & H3), Ho as (Hup & H4).
  cbn [length head_or Nat.add]. rewrite free_scan_step, H1. replace (stops bp a (head_or L base)) with false; [by apply IH|].
  unfold stops. destruct L as [|[a' s'] L]; [cbn [head_or]|apply Forall_cons in Hup as [Hup _]; cbn [head_or fst] in *].
  - destruct (Z.ltb_spec a bp), (Z.ltb_spec bp base); lia.
  - destruct (Z.ltb_spec a bp), (Z.leb_spec a' a); lia.
Qed.

(** ... and stops at the last one below it. *)
Lemma scan_low m bp q A : forall p s k, seg m (A ++ [(p, s)]) q -> ascending (A ++ [(p, s)]) -> p < bp -> stops bp p q = true ->
  free_scan (length A + S k) m bp (head_or (A ++ [(p, s)]) q) = Some p.
Proof.
  induction A as [|[a s0] A IH]; intros p s k Hs Ho Hp Hst.
  - cbn in Hs. destruct Hs as (H1 & _). cbn [app head_or length Nat.add]. by rewrite free_scan_step, H1, Hst.
  - cbn in Hs, Ho. destruct Hs as (H1 & _ & H3), Ho as (Hup & H4). cbn [length app head_or Nat.add]. rewrite free_scan_step, H1.
    replace (stops bp a (head_or (A ++ [(p, s)]) q)) with false; [by apply IH|].
    assert (a < head_or (A ++ [(p, s)]) q <= p) as Hn.
    { destruct A as [|[a' s'] A]; cbn [app head_or] in *; [apply Forall_cons in Hup as [Hup _]; cbn in Hup; lia|].
      apply Forall_cons in Hup as [Hup _]. cbn in Hup, H4. destruct H4 as [F _]. rewrite Forall_forall in F.
      specialize (F (p, s) ltac:(apply elem_of_app; right; left)). cbn in F. lia. }
    unfold stops. destruct (Z.ltb_spec bp (head_or (A ++ [(p, s)]) q)); [lia|]. rewrite andb_false_r.
    destruct (Z.leb_spec (head_or (A ++ [(p, s)]) q) a); [lia|done].
Qed.

(** Wherever it starts, the search ends at the last block below [bp]. *)
Lemma scan_finds m bp A p sp L2 f k : base < bp ->
  let C := A ++ (p, sp) :: L2 in
  head_or C base = base -> seg m C base -> ascending C -> p < bp -> Forall (fun b => bp < fst b) L2 -> f ∈ map fst C -> (length C <= k)%nat ->
  free_scan k m bp f = Some p.
Proof.
  intros Hb C Hhd Hs Ho Hp H2 Hf Hk. unfold C in *. clear C.
  replace (A ++ (p, sp) :: L2) with ((A ++ [(p, sp)]) ++ L2) in * by (by rewrite <- app_assoc).
  apply useg_app in Hs as [Hs1 Hs2]. destruct (ascending_app _ _ Ho) as (Ho1 & Ho2 & _). rewrite length_app, length_app in Hk. cbn in Hk.
  assert (stops bp p (head_or L2 base) = true) as Hst.
  { unfold stops. destruct L2 as [|[a s] L2]; cbn [head_or].
    - assert (base <= p) as Hle.
      { rewrite app_nil_r in Hhd. destruct A as [|[a s] A]; cbn in Hhd; [lia|]. subst a. cbn in Ho1. destruct Ho1 as [F _].
        rewrite Forall_forall in F. specialize (F (p, sp) ltac:(apply elem_of_app; right; left)). cbn in F. lia. }
      destruct (Z.ltb_spec p bp), (Z.leb_spec base p); lia.
    - apply Forall_cons in H2 as [H2 _]. cbn in H2. destruct (Z.ltb_spec p bp), (Z.ltb_spec bp a); lia. }
  assert (forall k', (length A < k')%nat -> free_scan k' m bp (head_or (A ++ [(p, sp)]) (head_or L2 base)) = Some p) as Hall.
  { intros k' Hk'. replace k' with (length A + S (k' - length A - 1))%nat by lia. by apply scan_low. }
  apply list_elem_of_fmap in Hf as ([f' sf] & -> & Hf). cbn [fst].
  apply elem_of_app in Hf as [Hf|Hf]; [apply elem_of_app in Hf as [Hf|Hf]|].
  - apply list_elem_of_split in Hf as (X & Y & ->). rewrite <- app_assoc in Hs1, Ho1. apply useg_app in Hs1 as [_ Hs1].
    apply ascending_app in Ho1 as (_ & Ho1 & _). rewrite length_app in Hk. cbn in Hk.
    pose proof (scan_low m bp (head_or L2 base) ((f', sf) :: Y) p sp (k - length Y - 2) Hs1 Ho1 Hp Hst) as R. cbn [length] in R.
    replace (S (length Y) + S (k - length Y - 2))%nat with k in R by lia. exact R.
  - apply list_elem_of_singleton in Hf as [= -> ->]. apply useg_app in Hs1 as [_ Hs1].
    pose proof (scan_low m bp (head_or L2 base) [] p sp (k - 1) Hs1 ltac:(cbn; by split) Hp Hst) as R. cbn [length Nat.add] in R.
    replace (S (k - 1)) with k in R by lia. exact R.
  - apply list_elem_of_split in Hf as (X & Y & ->). apply useg_app in Hs2 as [_ Hs2]. apply ascending_app in Ho2 as (_ & Ho2 & _).
    apply Forall_app in H2 as [_ H2]. rewrite length_app in Hk. cbn in Hk.
    pose proof (scan_high m bp ((f', sf) :: Y) (k - length Y - 1) Hb Hs2 Ho2 H2) as R. cbn [length head_or] in R.
    replace (S (length Y) + (k - length Y - 1))%nat with k in R by lia. rewrite R.
    assert (head_or (A ++ [(p, sp)]) (head_or (X ++ (f', sf) :: Y) base) = base) as Eb by (by destruct A as [|[]]).
    rewrite <- Eb at 1. apply Hall. lia.
Qed.


(** The list after the block [(bp, s)] joined what follows it ... *)
Definition join_right (bp s : Z) L : list block :=
  match L with
  | (q, t) :: L' => if bp + 8 * s =? q then (bp, s + t) :: L' else (bp, s) :: L
  | [] => [(bp, s)]
  end.
(** ... and what precedes it. *)
Definition join_left A (p sp : Z) M : list block :=
  match M with
  | (bp, s) :: M' => if p + 8 * sp =? bp then A ++ (p, sp + s) :: M' else A ++ (p, sp) :: M
  | [] => A ++ [(p, sp)]
  end.

Lemma plus_small p n : 0 <= p + 8 * n < 2 ^ 32 -> plus p n = p + 8 * n.
Proof. intros H. unfold plus, sizeof_Header. by apply u32_small. Qed.

Definition ranged L : Prop := Forall (fun b => 0 <= fst b < 2 ^ 32) L.

Lemma head_range L e : ranged L -> 0 <= e < 2 ^ 32 -> 0 <= head_or L e < 2 ^ 32.
Proof. destruct L as [|[a s] L]; [done|]. by intros [H _]%Forall_cons _. Qed.

Lemma link_right_spec m bp s p L2 : s_size m bp = s -> s_ptr m p = head_or L2 base -> seg m L2 base ->
  0 <= base < bp -> p + 8 <= bp -> 1 <= s -> bp + 8 * s < 2 ^ 32 -> ordered (bp + 8 * s) L2 (2 ^ 32 - 1) ->
  seg (link_right m bp p) (join_right bp s L2) base /\ forall x, ~ (bp <= x < bp + 8) -> link_right m bp p x = m x.
Proof.
  intros Es Ep Hs Hb Hpb H1 Htop Ho. unfold link_right. rewrite Es, Ep, plus_small by lia.
  assert (ranged L2) as Hr. { apply Forall_forall. intros b Hb'. destruct (ordered_in _ _ _ _ Ho Hb') as (? & ? & ?). lia. }
  assert (forall m' e, (forall x, ~ (bp <= x < bp + 8) -> m' x = m x) -> forall L, ordered (bp + 8 * s) L (2 ^ 32 - 1) -> seg m L e -> seg m' L e) as Hk.
  { intros m' e Hm L HL. apply useg_ext. intros b x Hb' Hx. apply Hm. destruct (ordered_in _ _ _ _ HL Hb') as (? & ? & ?). lia. }
  destruct L2 as [|[q t] L2]; cbn [head_or join_right].
  - destruct (Z.eqb_spec (bp + 8 * s) base); [lia|]. split; [|apply set_ptr_other]. cbn. rewrite s_ptr_set_ptr by lia.
    split; [done|]. rewrite s_size_set_ptr by lia. done.
  - cbn in Hs, Ho. destruct Hs as (E1 & E2 & Hs), Ho as (O1 & O2 & O3 & O4). apply Forall_cons in Hr as [Hrq Hr]. cbn [fst] in Hrq.
    destruct (Z.eqb_spec (bp + 8 * s) q) as [Eq|N].
    + rewrite E2, u32_small by lia. set (m' := set_size m bp (s + t)).
      assert (s_ptr m' p = q) as -> by (unfold m'; rewrite s_ptr_set_size by lia; done).
      assert (s_ptr m' q = head_or L2 base) as -> by (unfold m'; rewrite s_ptr_set_size by lia; done).
      assert (forall x, ~ (bp <= x < bp + 8) -> set_ptr m' bp (head_or L2 base) x = m x) as Hm.
      { intros x Hx. rewrite set_ptr_other by done. by apply set_size_other. }
      split; [|done]. cbn. rewrite s_ptr_set_ptr by (apply head_range; [done|lia]). split; [done|].
      rewrite s_size_set_ptr by lia. unfold m' at 1. rewrite s_size_set_size by lia. split; [done|].
      apply Hk; [done| |done]. eapply ordered_weaken; [exact O4|lia|lia].
    + split; [|apply set_ptr_other]. cbn. rewrite s_ptr_set_ptr by lia. split; [done|].
      rewrite s_size_set_ptr by lia. split; [done|]. apply (Hk _ base (set_ptr_other m bp q) ((q, t) :: L2)); [done|by split_and!].
Qed.

Lemma link_left_spec m1 A p sp bp s M : seg m1 A p -> s_size m1 p = sp -> seg m1 ((bp, s) :: M) base -> 0 <= base < 2 ^ 32 -> 0 <= p -> 0 <= sp ->
  p + 8 * Z.max 1 sp <= bp -> 1 <= s -> ordered bp ((bp, s) :: M) (2 ^ 32 - 1) -> Forall (fun b => fst b + 8 <= p) A ->
  seg (link_left m1 bp p) (join_left A p sp ((bp, s) :: M)) base /\ forall x, ~ (p <= x < p + 8) -> link_left m1 bp p x = m1 x.
Proof.
  intros HA Esp HM Hb Hp Hsp Hgap Hs Ho HF. pose proof Ho as (_ & _ & Ht & HoM). cbn in HM. destruct HM as (E1 & E2 & HM).
  assert (ranged M) as Hr. { apply Forall_forall. intros b Hb'. destruct (ordered_in _ _ _ _ HoM Hb') as (? & ? & ?). lia. }
  unfold link_left. rewrite Esp, plus_small, E2 by lia. cbv zeta. cbn [join_left].
  assert (forall m2 e L, (forall x, ~ (p <= x < p + 8) -> m2 x = m1 x) -> ordered bp L (2 ^ 32 - 1) -> seg m1 L e -> seg m2 L e) as Hup.
  { intros m2 e L Hm HL. apply useg_ext. intros b x Hb' Hx. apply Hm. destruct (ordered_in _ _ _ _ HL Hb') as (? & ? & ?). lia. }
  assert (forall m2 e, (forall x, ~ (p <= x < p + 8) -> m2 x = m1 x) -> seg m1 A e -> seg m2 A e) as Hlow.
  { intros m2 e Hm. apply useg_ext. intros b x Hb' Hx. apply Hm. rewrite Forall_forall in HF. specialize (HF b Hb'). lia. }
  destruct (Z.eqb_spec (p + 8 * sp) bp) as [Eq|N].
  - rewrite u32_small by lia. set (m' := set_size m1 p (sp + s)).
    assert (s_ptr m' bp = head_or M base) as -> by (unfold m'; rewrite s_ptr_set_size by lia; done).
    assert (forall x, ~ (p <= x < p + 8) -> set_ptr m' p (head_or M base) x = m1 x) as Hm.
    { intros x Hx. rewrite set_ptr_other by done. by apply set_size_other. }
    split; [|done]. apply useg_app. split; [by apply Hlow|]. cbn. rewrite s_ptr_set_ptr by (by apply head_range). split; [done|].
    rewrite s_size_set_ptr by lia. unfold m' at 1. rewrite s_size_set_size by lia. split; [done|].
    apply Hup; [done| |done]. eapply ordered_weaken; [exact HoM|lia|lia].
  - pose proof (set_ptr_other m1 p bp) as Hm. split; [|done]. apply useg_app. split; [by apply Hlow|]. cbn.
    rewrite s_ptr_set_ptr by lia. split; [done|]. rewrite s_size_set_ptr by lia. split; [done|].
    apply (Hup _ base ((bp, s) :: M)); [done|done|]. by split_and!.
Qed.

Lemma covered_cons b L x : covered (b :: L) x <-> inside b x \/ covered L x.
Proof.
  unfold covered. split.
  - intros (b' & [->|H]%elem_of_cons & Hx); eauto.
  - intros [H|(b' & H & Hx)]; [exists b|exists b']; (split; [apply elem_of_cons; tauto|done]).
Qed.
Lemma covered_nil x : ~ covered [] x.
Proof. by intros (b & ?%elem_of_nil & _). Qed.
Lemma covered_app L1 L2 x : covered (L1 ++ L2) x <-> covered L1 x \/ covered L2 x.
Proof.
  induction L1 as [|b L1 IH]; cbn; [pose proof (covered_nil x); tauto|]. rewrite !covered_cons, IH. tauto.
Qed.

Lemma join_right_length bp s L : (length (join_right bp s L) <= S (length L))%nat.
Proof. destruct L as [|[q t] L]; cbn; [lia|]. destruct (_ =? q); cbn; lia. Qed.
Lemma join_left_length A p sp M : (length (join_left A p sp M) <= S (length A + length M))%nat.
Proof. destruct M as [|[b s] M]; cbn; [rewrite length_app; cbn; lia|]. destruct (_ =? b); rewrite length_app; cbn; lia. Qed.

(** The joined lists are in order and cover what they should. *)
Lemma join_right_ok bp s L2 top lo : 1 <= s -> lo <= bp -> bp + 8 * s <= top -> ordered (bp + 8 * s) L2 top ->
  exists s' M, join_right bp s L2 = (bp, s') :: M /\ ordered lo ((bp, s') :: M) top /\ 
    forall x, covered ((bp, s') :: M) x <-> inside (bp, s) x \/ covered L2 x.
Proof.
  intros Hs Hlo Ht Ho. destruct L2 as [|[q t] L2]; cbn [join_right].
  - exists s, []. split; [done|]. split; [by split_and!|]. intros x. by rewrite covered_cons.
  - cbn in Ho. destruct Ho as (O1 & O2 & O3 & O4). destruct (Z.eqb_spec (bp + 8 * s) q) as [<-|N].
    + exists (s + t), L2. split; [done|]. split.
      * cbn. split_and!; [done|lia|lia|]. eapply ordered_weaken; [exact O4|lia|lia].
      * intros x. rewrite !covered_cons. unfold inside. cbn. intuition lia.
    + exists s, ((q, t) :: L2). split; [done|]. split; [cbn; split_and!; try lia; done|]. intros x. by rewrite covered_cons.
Qed.

Lemma join_left_ok A p sp bp s M top lo : 1 <= sp -> 1 <= s -> p + 8 * sp <= bp -> ordered lo (A ++ [(p, sp)]) top -> ordered bp ((bp, s) :: M) top ->
  ordered lo (join_left A p sp ((bp, s) :: M)) top /\
  forall x, covered (join_left A p sp ((bp, s) :: M)) x <-> covered (A ++ [(p, sp)]) x \/ covered ((bp, s) :: M) x.
Proof.
  intros Hsp Hs Hg HA HM. cbn [join_left]. apply ordered_app in HA as [HA Hp]. cbn in Hp, HM.
  destruct Hp as (P1 & _ & P3 & _), HM as (_ & _ & M3 & M4). destruct (Z.eqb_spec (p + 8 * sp) bp) as [<-|N].
  - split.
    + apply ordered_app. split; [done|]. cbn. split_and!; [done|lia|lia|]. eapply ordered_weaken; [exact M4|lia|lia].
    + intros x. rewrite !covered_app, !covered_cons. unfold inside. cbn. pose proof (covered_nil x). intuition lia.
  - split.
    + apply ordered_app. split; [done|]. cbn. split_and!; try lia; done.
    + intros x. rewrite !covered_app, !covered_cons. pose proof (covered_nil x). tauto.
Qed.

Record free_list (m : mem) (f : Z) L (top : Z) : Prop := {
  fl_seg : seg m ((base, 0) :: L) base;
  fl_ordered : ordered (base + 8) L top;
  fl_freep : f ∈ map fst ((base, 0) :: L) }.

Lemma free_list_ascending m f L top : free_list m f L top -> ascending ((base, 0) :: L).
Proof.
  intros F. pose proof (fl_ordered _ _ _ _ F) as Ho. split; [|by eapply ordered_ascending].
  apply Forall_forall. intros b Hb. destruct (ordered_in _ _ _ _ Ho Hb). lia.
Qed.

Lemma ordered_from lo lo' L top : ordered lo L top -> Forall (fun b => lo' <= fst b) L -> ordered lo' L top.
Proof. destruct L as [|[a s] L]; [done|]. cbn. intros (_ & H) [Ha _]%Forall_cons. by split. Qed.

Lemma ordered_top lo L top top' : ordered lo L top -> Forall (fun b => fst b + 8 * snd b <= top') L -> ordered lo L top'.
Proof.
  revert lo. induction L as [|[a s] L IH]; intros lo; [done|]. cbn. intros (H1 & H2 & H3 & H4) [Ha HL]%Forall_cons. split_and!; try done. by apply IH.
Qed.

(** [free] with the predecessor it finds. *)
Lemma free_at m A p sp L1 L2 bp s top : (base, 0) :: L1 = A ++ [(p, sp)] -> 0 < base -> top < 2 ^ 32 ->
  seg m ((base, 0) :: L1 ++ L2) base -> ordered (base + 8) (L1 ++ L2) top -> s_size m bp = s -> 1 <= s -> base + 8 <= bp -> bp + 8 * s <= top ->
  Forall (fun b => fst b + 8 * snd b <= bp) L1 -> Forall (fun b => bp + 8 * s <= fst b) L2 ->
  exists L', free_list (link_left (link_right m bp p) bp p) p L' top /\ (length L' <= S (length (L1 ++ L2)))%nat /\
    (forall x, covered L' x <-> covered (L1 ++ L2) x \/ inside (bp, s) x) /\
    forall x, ~ (p <= x < p + 8) -> ~ (bp <= x < bp + 8) -> link_left (link_right m bp p) bp p x = m x.
Proof.
  intros EA Hb Htop Hs Ho Es H1 Hlo Hhi F1 F2.
  pose proof (ordered_app (base + 8) L1 L2 top) as [Hoa _]. destruct (Hoa Ho) as [Ho1 Ho2]. clear Hoa.
  pose proof (ordered_from _ _ _ _ Ho2 F2) as Ho2'. pose proof (ordered_weaken _ (bp + 8 * s) _ _ (2 ^ 32 - 1) Ho2' ltac:(lia) ltac:(lia)) as Ho2''.
  change ((base, 0) :: L1 ++ L2) with (((base, 0) :: L1) ++ L2) in Hs. rewrite EA in Hs. apply useg_app in Hs as [Hs1 Hs2].
  apply useg_app in Hs1 as [HsA Hsp]. cbn in HsA, Hsp. destruct Hsp as (Ep & Esp & _).
  assert (base <= p /\ 0 <= sp /\ p + 8 * Z.max 1 sp <= bp /\ Forall (fun b => fst b + 8 <= p) A /\ (A = [] -> p = base /\ sp = 0) /\
    (A <> [] -> exists L1', A = (base, 0) :: L1' /\ L1 = L1' ++ [(p, sp)] /\ 1 <= sp)) as (Hbp & Hsp0 & Hgap & HA & HA0 & HA1).
  { destruct A as [|b A]; cbn in EA.
    - injection EA as <- <- ->. split_and!; try lia; done.
    - injection EA as <- ->. apply Forall_app in F1 as [_ [F1 _]%Forall_cons]. cbn in F1. apply ordered_app in Ho1 as [Ho1 Hop]. cbn in Hop.
      destruct Hop as (Hop & Hop1 & _). assert (base + 8 <= p /\ Forall (fun b => fst b + 8 <= p) A) as [? ?].
      { clear -Ho1 Hop. revert Ho1 Hop. generalize (base + 8) as lo. induction A as [|[a s'] A IH]; intros lo; cbn; [done|].
        intros (H1 & H2 & H3 & H4) H5. destruct (IH _ H4 H5). split; [lia|]. constructor; [cbn; lia|done]. }
      split_and!; try lia; try done; [constructor; [cbn; lia|done]|]. intros _. by exists A. }
  destruct (link_right_spec m bp s p L2 Es Ep Hs2 ltac:(lia) ltac:(lia) H1 ltac:(lia) Ho2'') as [R1 R2].
  destruct (join_right_ok bp s L2 top bp H1 ltac:(lia) Hhi Ho2') as (s' & M & EM & OM & CM). rewrite EM in R1.
  pose proof OM as (_ & Hs' & _). pose proof (ordered_weaken _ bp _ _ (2 ^ 32 - 1) OM ltac:(lia) ltac:(lia)) as OM'.
  set (m1 := link_right m bp p) in *.
  assert (seg m1 A p) as HsA1.
  { eapply useg_ext; [|exact HsA]. intros b x Hb' Hx. apply R2. rewrite Forall_forall in HA. specialize (HA b Hb'). lia. }
  assert (s_size m1 p = sp) as Esp1 by (rewrite <- Esp; apply load32_ext; intros x Hx; apply R2; lia).
  destruct (link_left_spec m1 A p sp bp s' M HsA1 Esp1 R1 ltac:(lia) ltac:(lia) Hsp0 Hgap Hs' OM' HA) as [Q1 Q2].
  set (m2 := link_left m1 bp p) in *.
  assert (exists L', join_left A p sp ((bp, s') :: M) = (base, 0) :: L' /\ ordered (base + 8) L' top /\ p ∈ map fst ((base, 0) :: L') /\
    forall x, covered L' x <-> covered L1 x \/ covered ((bp, s') :: M) x) as (L' & EL & OL & PL & CL).
  { destruct A as [|b A].
    - destruct (HA0 eq_refl) as [-> ->]. injection EA as ->. exists ((bp, s') :: M). cbn [join_left app].
      destruct (Z.eqb_spec (base + 8 * 0) bp); [lia|]. split; [done|]. split; [eapply ordered_weaken; [exact OM|lia|lia]|]. split; [left|].
      intros x. pose proof (covered_nil x). tauto.
    - destruct (HA1 ltac:(done)) as (L1' & [= -> ->] & -> & Hsp1).
      destruct (join_left_ok L1' p sp bp s' M top (base + 8) Hsp1 Hs' ltac:(lia) Ho1 OM) as [J1 J2].
      exists (join_left L1' p sp ((bp, s') :: M)). split; [cbn [join_left app]; by destruct (_ =? bp)|]. split; [done|]. split; [|done].
      cbn [map]. apply elem_of_cons. right. cbn [join_left]. destruct (_ =? bp); rewrite map_app; apply elem_of_app; right; left. }
  exists L'. split; [split; [by rewrite <- EL|done|done]|]. split; [|split].
  - pose proof (join_right_length bp s L2) as J1. pose proof (join_left_length A p sp ((bp, s') :: M)) as J2.
    rewrite EM in J1. rewrite EL in J2. apply (f_equal length) in EA. rewrite length_app in EA |- *. cbn in *. lia.
  - intros x. rewrite CL, CM, covered_app. tauto.
  - intros x Hx1 Hx2. rewrite Q2 by done. by apply R2.
Qed.

(** [free] of a block: its bytes are free, and nothing but free memory and the
    header of the block changes. *)
Lemma free_spec k m f L top bp s : 0 < base -> top < 2 ^ 32 -> free_list m f L top -> (length L < k)%nat ->
  s_size m bp = s -> 1 <= s -> base + 8 <= bp -> bp + 8 * s <= top -> (forall b, b ∈ L -> apart (bp, s) b) ->
  exists p L', free_scan k m bp f = Some p /\ free_list (link_left (link_right m bp p) bp p) p L' top /\ (length L' <= S (length L))%nat /\
    (forall x, covered L' x <-> covered L x \/ inside (bp, s) x) /\
    forall x, ~ covered L x -> ~ (base <= x < base + 8) -> ~ (bp <= x < bp + 8) -> link_left (link_right m bp p) bp p x = m x.
Proof.
  intros Hb Ht F Hk Es H1 Hlo Hhi Ha. pose proof (free_list_ascending _ _ _ _ F) as Hasc. destruct F as [Fs Fo Ff].
  destruct (place L _ _ (bp, s) Fo H1 Ha) as (L1 & L2 & -> & F1 & F2). cbn [fst snd] in F1, F2.
  assert (exists A p sp, (base, 0) :: L1 = A ++ [(p, sp)]) as (A & p & sp & EA).
  { destruct (exists_last (l := (base, 0) :: L1)) as (A & [p sp] & EA); [done|]. eauto. }
  assert (p ∈ map fst ((base, 0) :: L1)) as Hp by (rewrite EA, map_app; apply elem_of_app; right; left).
  assert (p < bp /\ (p = base \/ exists sp, (p, sp) ∈ L1 /\ 1 <= sp)) as [Hpb Hpl].
  { apply elem_of_cons in Hp as [->|Hp]; [split; [cbn; lia|by left]|]. apply list_elem_of_fmap in Hp as ([a sa] & -> & Hin).
    apply ordered_app in Fo as [Fo _]. destruct (ordered_in _ _ _ _ Fo Hin) as (_ & ? & _). rewrite Forall_forall in F1. specialize (F1 _ Hin).
    cbn in *. split; [lia|]. right. eauto. }
  destruct (free_at m A p sp L1 L2 bp s top EA Hb Ht Fs Fo Es H1 Hlo Hhi F1 F2) as (L' & FL & NL & CL & KL).
  exists p, L'. split; [|split; [done|split; [done|split; [done|]]]].
  - assert (((base, 0) :: L1 ++ L2) = A ++ (p, sp) :: L2) as EC by (rewrite (app_comm_cons _ L2), EA, <- app_assoc; done).
    apply (scan_finds m bp A p sp L2 f k); rewrite <- ?EC; try done; try lia.
    apply Forall_forall. intros b Hb'. rewrite Forall_forall in F2. specialize (F2 b Hb'). lia.
  - intros x Hx1 Hx2 Hx3. apply KL; [|done]. intros Hx. destruct Hpl as [->|(sp' & Hin & Hsp)]; [done|].
    apply Hx1. exists (p, sp'). split; [apply elem_of_app; by left|]. unfold inside. cbn. lia.
Qed.

(** ** [malloc] *)

Definition small (n : Z) L : Prop := Forall (fun b => snd b < n) L.

Lemma first_fit n L : small n L \/ exists L1 a s L2, L = L1 ++ (a, s) :: L2 /\ small n L1 /\ n <= s.
Proof.
  induction L as [|[a s] L [IH|(L1 & a' & s' & L2 & -> & H1 & H2)]]; [left; constructor|..].
  - destruct (decide (n <= s)); [right; exists [], a, s, L; split_and!; [done|constructor|done]|]. left. constructor; [cbn; lia|done].
  - destruct (decide (n <= s)); [right; exists [], a, s; eexists; split_and!; [done|constructor|done]|]. right. exists ((a, s) :: L1), a', s', L2.
    split; [done|]. split; [|done]. constructor; [cbn; lia|done].
Qed.

Definition last_or (p : Z) L : Z := foldl (fun _ b => fst b) p L.

Lemma last_or_snoc p L a s : last_or p (L ++ [(a, s)]) = a.
Proof. unfold last_or. by rewrite foldl_app. Qed.
Lemma last_or_app p L1 L2 : last_or p (L1 ++ L2) = last_or (last_or p L1) L2.
Proof. apply foldl_app. Qed.

(** The search passes blocks that are too small. *)
Lemma search_skip n h e L : forall prev k, seg (um h) L e -> small n L -> Forall (fun b => fst b <> freep h) L ->
  malloc_loop (length L + k) n prev (head_or L e) h = malloc_loop k n (last_or prev L) e h.
Proof.
  induction L as [|[a s] L IH]; intros prev k Hs Hn Hf; [done|]. cbn in Hs. destruct Hs as (H1 & H2 & H3).
  apply Forall_cons in Hn as [Hn1 Hn], Hf as [Hf1 Hf]. cbn [fst snd] in *. cbn [length Nat.add head_or malloc_loop]. rewrite H2.
  destruct (Z.leb_spec n s); [lia|]. destruct (Z.eqb_spec a (freep h)); [done|]. by rewrite H1, IH.
Qed.

Lemma search_take n h e L1 a s L2 prev k : seg (um h) (L1 ++ (a, s) :: L2) e -> small n L1 -> Forall (fun b => fst b <> freep h) L1 -> n <= s ->
  malloc_loop (length L1 + S k) n prev (head_or (L1 ++ (a, s) :: L2) e) h = Some (carve n (last_or prev L1) a h).
Proof.
  intros Hs Hn Hf Hle. apply useg_app in Hs as [Hs1 Hs2]. cbn in Hs1, Hs2. destruct Hs2 as (_ & H2 & _).
  assert (head_or (L1 ++ (a, s) :: L2) e = head_or L1 a) as -> by (by destruct L1 as [|[]]).
  rewrite search_skip by done. cbn [malloc_loop]. rewrite H2. by destruct (Z.leb_spec n s); [|lia].
Qed.

(** The search of [malloc] over the whole list: it takes a block that is large
    enough from its predecessor, or asks for more memory when there is none. *)
Lemma search_spec n h L top k : 1 <= n -> free_list (um h) (freep h) L top ->
  let C := (base, 0) :: L in
  let start := malloc_loop (length C + k) n (freep h) (s_ptr (um h) (freep h)) h in
  (exists C1 pv sp a s C2, C = C1 ++ (pv, sp) :: (a, s) :: C2 /\ n <= s /\ start = Some (carve n pv a h)) \/
  (small n L /\ start = match morecore k n h with
    | None => None
    | Some (p, h) => if p =? 0 then Some (0, h) else malloc_loop k n p (s_ptr (um h) p) h
    end).
Proof.
  intros Hn F C start. pose proof (free_list_ascending _ _ _ _ F) as Hasc. destruct F as [Fs Fo Ff]. fold C in Hasc, Fs, Ff.
  apply list_elem_of_fmap in Ff as ([f sf] & Ef & Hf). cbn in Ef. apply list_elem_of_split in Hf as (X & Y & EC).
  assert (head_or C base = base) as Hhd by done. rewrite EC in Fs, Hasc, Hhd. apply useg_app in Fs as [FX FY]. cbn in FX, FY. destruct FY as (E1 & E2 & FY).
  destruct (ascending_app _ _ Hasc) as (AX & AY & Alt). cbn in AY. destruct AY as [AfY AY].
  assert (Forall (fun b => fst b <> freep h) X) as NX.
  { apply Forall_forall. intros b Hb. specialize (Alt b (f, sf) Hb ltac:(left)). cbn in Alt. lia. }
  assert (Forall (fun b => fst b <> freep h) Y) as NY.
  { apply Forall_forall. intros b Hb. rewrite Forall_forall in AfY. specialize (AfY b Hb). lia. }
  unfold start. clear start. rewrite Ef, E1. assert (length C = length X + S (length Y))%nat as Elen by (by rewrite EC, length_app).
  destruct (first_fit n Y) as [SY|(Y1 & a & s & Y2 & -> & SY1 & Hs)].
  2: { left. rewrite length_app in Elen. cbn [length] in Elen. apply Forall_app in NY as [NY1 _].
    replace (length C + k)%nat with (length Y1 + S (length C + k - length Y1 - 1))%nat by lia. rewrite (search_take n h base Y1 a s Y2) by done.
    destruct (exists_last (l := (f, sf) :: Y1)) as (Z1 & [pv sp] & EZ); [done|]. exists (X ++ Z1), pv, sp, a, s, Y2.
    split; [rewrite EC, app_comm_cons, EZ, <- !app_assoc; done|]. split; [done|]. do 2 f_equal.
    change (last_or f Y1) with (last_or 0 ((f, sf) :: Y1)). by rewrite EZ, last_or_snoc. }
  replace (length C + k)%nat with (length Y + (length X + S k))%nat by lia. rewrite (search_skip n h base Y) by done.
  destruct X as [|[b0 s0] X].
  - cbn in Hhd. rewrite Hhd in Ef, E2. unfold C in EC. cbn in EC. injection EC as _ <- EL. right. split; [by rewrite EL|]. cbn [length Nat.add malloc_loop]. rewrite E2.
    destruct (Z.leb_spec n 0); [lia|]. by rewrite Ef, Z.eqb_refl.
  - cbn in Hhd. subst b0. unfold C in EC. cbn in EC. injection EC as <- EL.
    assert (malloc_loop (length ((base, 0) :: X) + S k) n (last_or f Y) base h = malloc_loop (length X + S k) n base (head_or X f) h) as ->.
    { cbn in FX. destruct FX as (F1 & F2 & _). cbn [length Nat.add malloc_loop]. rewrite F2. destruct (Z.leb_spec n 0); [lia|].
      apply Forall_cons in NX as [NX _]. cbn in NX. destruct (Z.eqb_spec base (freep h)); [done|]. by rewrite F1. }
    cbn in FX. destruct FX as (_ & _ & FX). apply Forall_cons in NX as [_ NX].
    destruct (first_fit n (X ++ [(f, sf)])) as [SX|(X1 & a & s & X2 & EX & SX1 & Hs)].
    + apply Forall_app in SX as [SX Sf]. apply Forall_cons in Sf as [Sf _]. cbn in Sf. right. split.
      * rewrite EL. apply Forall_app. split; [done|]. by constructor.
      * rewrite search_skip by done. cbn [malloc_loop]. rewrite E2. destruct (Z.leb_spec n sf); [lia|]. by rewrite Ef, Z.eqb_refl.
    + left. assert (seg (um h) (X ++ [(f, sf)]) (head_or Y base)) as FX' by (apply useg_app; cbn; by split_and!).
      assert (head_or (X ++ [(f, sf)]) (head_or Y base) = head_or X f) as Eh by (by destruct X as [|[]]). rewrite <- Eh, EX. rewrite EX in FX'.
      assert (length X1 <= length X)%nat as Hlen by (apply (f_equal length) in EX; rewrite !length_app in EX; cbn in EX; lia).
      assert (Forall (fun b => fst b <> freep h) X1) as NX1.
      { apply Forall_forall. intros b Hb. rewrite Forall_forall in NX. apply NX.
        destruct (exists_last (l := (a, s) :: X2)) as (Z1 & z & EZ); [done|]. rewrite EZ, app_assoc in EX.
        apply app_inj_tail in EX as [-> _]. apply elem_of_app. by left. }
      replace (length X + S k)%nat with (length X1 + S (length X + k - length X1))%nat by lia. rewrite (search_take n h _ X1 a s X2) by done.
      destruct (exists_last (l := (base, 0) :: X1)) as (Z1 & [pv sp] & EZ); [done|]. exists Z1, pv, sp, a, s, (X2 ++ Y).
      split; [|split; [done|]].
      * unfold C. rewrite EL. change ((f, sf) :: Y) with ([(f, sf)] ++ Y). rewrite app_assoc, EX, <- app_assoc, app_comm_cons, EZ, <- app_assoc. done.
      * do 2 f_equal. change (last_or base X1) with (last_or 0 ((base, 0) :: X1)). by rewrite EZ, last_or_snoc.
Qed.

(** Changing a header leaves the others. *)
Lemma seg_beside m m' P c sc Q e e' : ascending (P ++ (c, sc) :: Q) -> (forall x, ~ (c <= x < c + 8) -> m' x = m x) ->
  (seg m P e -> seg m' P e) /\ (seg m Q e' -> seg m' Q e').
Proof.
  intros Ha Hm. destruct (ascending_app _ _ Ha) as (_ & HQ & HP). cbn in HQ. destruct HQ as [HQ _]. rewrite Forall_forall in HQ. split; apply useg_ext; intros b x Hb Hx; apply Hm.
  - specialize (HP b (c, sc) Hb ltac:(left)). cbn in HP. lia.
  - specialize (HQ b Hb). lia.
Qed.

(** The whole block is taken out of the list. *)
Lemma unlink_spec m C1 pv sp a s C2 : 0 <= base < 2 ^ 32 -> ascending (C1 ++ (pv, sp) :: (a, s) :: C2) -> ranged C2 ->
  seg m (C1 ++ (pv, sp) :: (a, s) :: C2) base -> seg (set_ptr m pv (s_ptr m a)) (C1 ++ (pv, sp) :: C2) base.
Proof.
  intros Hb Ha Hr Hs. apply useg_app in Hs as [Hs1 Hs2]. cbn in Hs1, Hs2. destruct Hs2 as (E1 & E2 & E3 & E4 & Hs2). rewrite E3.
  destruct (seg_beside m (set_ptr m pv (head_or C2 base)) _ _ _ _ pv base Ha) as [K1 K2]; [intros x; apply set_ptr_other|].
  apply useg_app. split; [by apply K1|]. cbn. rewrite s_ptr_set_ptr by (by apply head_range). split; [done|].
  rewrite s_size_set_ptr by lia. split; [done|]. apply (K2 : seg m ((a, s) :: C2) base -> _). by split_and!.
Qed.

(** The end of the block is cut off. *)
Lemma cut_spec m P a s Q n : ascending (P ++ (a, s) :: Q) -> Forall (fun b => a + 8 * s <= fst b) Q -> seg m (P ++ (a, s) :: Q) base -> 1 <= n < s -> s < 2 ^ 32 ->
  let m' := set_size (set_size m a (s - n)) (a + 8 * (s - n)) n in
  seg m' (P ++ (a, s - n) :: Q) base /\ s_size m' (a + 8 * (s - n)) = n.
Proof.
  intros Ha HQ Hs Hn Hlt m'. apply useg_app in Hs as [Hs1 Hs2]. cbn in Hs1, Hs2. destruct Hs2 as (E1 & E2 & Hs2).
  destruct (ascending_app _ _ Ha) as (_ & _ & HP).
  assert (forall x, ~ (a <= x < a + 8 * s) -> m' x = m x) as Hm.
  { intros x Hx. unfold m'. rewrite !set_size_other by lia. done. }
  split; [|apply s_size_set_size; lia]. apply useg_app. split; [|cbn; split; [|split]].
  - eapply useg_ext; [|exact Hs1]. intros b x Hb Hx. apply Hm. specialize (HP b (a, s) Hb ltac:(left)). cbn in HP. lia.
  - unfold m'. by rewrite !s_ptr_set_size by lia.
  - unfold m'. rewrite s_size_set_size_ne by lia. apply s_size_set_size. lia.
  - eapply useg_ext; [|exact Hs2]. intros b x Hb Hx. apply Hm. rewrite Forall_forall in HQ. specialize (HQ b Hb). lia.
Qed.

(** The lists of [search_spec] without the header [base]. *)
Lemma split_base L C1 pv sp a s C2 : (base, 0) :: L = C1 ++ (pv, sp) :: (a, s) :: C2 ->
  exists L1, L = L1 ++ (a, s) :: C2 /\ (base, 0) :: L1 = C1 ++ [(pv, sp)].
Proof.
  destruct C1 as [|b C1]; cbn.
  - intros [= <- <- ->]. by exists [].
  - intros [= <- ->]. exists (C1 ++ [(pv, sp)]). by rewrite <- app_assoc.
Qed.

(** What [malloc] leaves: [b] is a block of [n] units that was free. *)
Record carved (n : Z) L top h (b : Z) h' L' : Prop := {
  cv_list : free_list (um h') (freep h') L' top;
  cv_size : s_size (um h') b = n;
  cv_low : base + 8 <= b;
  cv_high : b + 8 * n <= top;
  cv_covered x : covered L x <-> covered L' x \/ inside (b, n) x;
  cv_apart c : c ∈ L' -> apart (b, n) c;
  cv_frame x : ~ covered L x -> ~ (base <= x < base + 8) -> um h' x = um h x;
  cv_os : os h' = os h }.

(** A block of an ordered list does not overlap what lies before and after it. *)
Lemma ordered_around lo L1 a s L2 top : ordered lo (L1 ++ (a, s) :: L2) top ->
  Forall (fun b => fst b + 8 * snd b < a) L1 /\ Forall (fun b => a + 8 * s < fst b) L2 /\ lo <= a /\ 1 <= s /\ a + 8 * s <= top.
Proof.
  revert lo. induction L1 as [|[c t] L1 IH]; intros lo; cbn; intros (H1 & H2 & H3 & H4).
  - split; [constructor|]. split; [|lia]. apply Forall_forall. intros b Hb. destruct (ordered_in _ _ _ _ H4 Hb). lia.
  - destruct (IH _ H4) as (F1 & F2 & F3 & F4 & F5). split; [constructor; [cbn; lia|done]|]. split; [done|]. lia.
Qed.

Lemma ordered_remove lo L1 b L2 top : ordered lo (L1 ++ b :: L2) top -> ordered lo (L1 ++ L2) top.
Proof.
  destruct b as [a s]. revert lo. induction L1 as [|[c t] L1 IH]; intros lo; cbn; intros (H1 & H2 & H3 & H4).
  - eapply ordered_weaken; [exact H4|lia|lia].
  - split_and!; try done. by apply IH.
Qed.

Lemma ordered_shrink lo L1 a s s' L2 top : ordered lo (L1 ++ (a, s) :: L2) top -> 1 <= s' <= s -> ordered lo (L1 ++ (a, s') :: L2) top.
Proof.
  intros Ho Hs. revert lo Ho. induction L1 as [|[c t] L1 IH]; intros lo; cbn; intros (H1 & H2 & H3 & H4).
  - split_and!; try lia. eapply ordered_weaken; [exact H4|lia|lia].
  - split_and!; try done. by apply IH.
Qed.

Lemma carve_spec n h L top C1 pv sp a s C2 : 0 < base -> top < 2 ^ 32 -> 1 <= n <= s -> free_list (um h) (freep h) L top ->
  (base, 0) :: L = C1 ++ (pv, sp) :: (a, s) :: C2 ->
  exists q h' L', carve n pv a h = (q + 8, h') /\ carved n L top h q h' L'.
Proof.
  intros Hb Ht Hn F EC. pose proof (free_list_ascending _ _ _ _ F) as Hasc. destruct F as [Fs Fo _]. rewrite EC in Fs, Hasc.
  destruct (split_base _ _ _ _ _ _ _ EC) as (L1 & -> & E1). destruct (ordered_around _ _ _ _ _ _ Fo) as (F1 & F2 & Hlo & Hs & Htop).
  assert (ranged C2) as Hr. { apply Forall_forall. intros b Hb'. destruct (ordered_in _ _ _ b Fo ltac:(apply elem_of_app; right; by right)) as (? & ? & ?). lia. }
  assert (forall L', pv ∈ map fst ((base, 0) :: L1 ++ L')) as Hpv.
  { intros L'. rewrite app_comm_cons, E1, <- app_assoc, map_app. apply elem_of_app. right. left. }
  assert (s_size (um h) a = s) as Es. { apply useg_app in Fs as [_ Fs]. cbn in Fs. tauto. }
  unfold carve. rewrite Es. destruct (Z.eqb_spec s n) as [->|N].
  - rewrite plus_small by lia. eexists a, _, (L1 ++ C2). split; [reflexivity|]. split; cbn [um freep os].
    + split; [|by eapply ordered_remove|apply Hpv]. rewrite app_comm_cons, E1, <- app_assoc. apply unlink_spec with (s := n); try done. lia.
    + rewrite s_size_set_ptr; [done|]. destruct (ascending_app _ _ Hasc) as (_ & H & _). cbn in H. destruct H as [[H _]%Forall_cons _]. cbn in H. lia.
    + done.
    + done.
    + intros x. rewrite !covered_app, covered_cons. tauto.
    + intros c [Hc|Hc]%elem_of_app; [right|left]; [rewrite Forall_forall in F1; specialize (F1 c Hc)|rewrite Forall_forall in F2; specialize (F2 c Hc)]; cbn; lia.
    + intros x Hx1 Hx2. apply set_ptr_other. intros Hx. specialize (Hpv []). rewrite app_nil_r in Hpv.
      apply elem_of_cons in Hpv as [->|Hpv]; [done|]. apply list_elem_of_fmap in Hpv as ([c t] & -> & Hc).
      destruct (ordered_in _ _ _ (c, t) Fo ltac:(apply elem_of_app; by left)) as (_ & H & _). apply Hx1. exists (c, t).
      split; [apply elem_of_app; by left|]. unfold inside. cbn in *. lia.
    + done.
  - rewrite u32_small by lia. rewrite s_size_set_size by lia. rewrite (plus_small a (s - n)), plus_small by lia.
    change ((base, 0) :: L1 ++ (a, s) :: C2 = C1 ++ (pv, sp) :: (a, s) :: C2) in EC.
    replace (C1 ++ (pv, sp) :: (a, s) :: C2) with (((base, 0) :: L1) ++ (a, s) :: C2) in Fs, Hasc by (by rewrite E1, <- app_assoc).
    destruct (cut_spec (um h) ((base, 0) :: L1) a s C2 n Hasc) as [K1 K2]; [|done|lia|lia|].
    { apply Forall_forall. intros c Hc. rewrite Forall_forall in F2. specialize (F2 c Hc). lia. }
    eexists (a + 8 * (s - n)), _, (L1 ++ (a, s - n) :: C2). split; [f_equal; lia|]. split; cbn [um freep os].
    + split; [exact K1|eapply ordered_shrink; [exact Fo|lia]|apply Hpv].
    + exact K2.
    + lia.
    + lia.
    + intros x. rewrite !covered_app, !covered_cons. unfold inside. cbn. intuition lia.
    + intros c [Hc|[->|Hc]%elem_of_cons]%elem_of_app; [right|right|left]; [rewrite Forall_forall in F1; specialize (F1 c Hc)|..|rewrite Forall_forall in F2; specialize (F2 c Hc)]; cbn; lia.
    + intros x Hx1 Hx2. assert (~ (a <= x < a + 8 * s)) as Hx.
      { intros Hx. apply Hx1. exists (a, s). split; [apply elem_of_app; right; left|done]. }
      rewrite !set_size_other by lia. done.
    + done.
Qed.

(** A run of free bytes lies in one block: there are gaps between blocks. *)
Lemma covered_run lo L top q n : ordered lo L top -> 0 < n -> (forall x, q <= x < q + n -> covered L x) ->
  exists b, b ∈ L /\ fst b <= q /\ q + n <= fst b + 8 * snd b.
Proof.
  intros Ho Hn Hc. destruct (Hc q ltac:(lia)) as (b & Hb & Hx). unfold inside in Hx. exists b. split; [done|]. split; [lia|].
  destruct (decide (q + n <= fst b + 8 * snd b)) as [|N]; [done|]. exfalso.
  destruct (Hc (fst b + 8 * snd b) ltac:(lia)) as (c & Hc' & Hx'). unfold inside in Hx'.
  apply list_elem_of_split in Hb as (L1 & L2 & ->). destruct b as [a s]. destruct (ordered_around _ _ _ _ _ _ Ho) as (F1 & F2 & _). cbn in *.
  apply elem_of_app in Hc' as [H|[->|H]%elem_of_cons]; cbn in *; [|lia|].
  - rewrite Forall_forall in F1. specialize (F1 c H). lia.
  - rewrite Forall_forall in F2. specialize (F2 c H). lia.
Qed.

(** ** With the kernel

    [brk] is the end of the process's memory: [sbrk] moves it up by what is asked
    for and returns where it was, or leaves it and returns -1. *)
Context (brk : E -> Z).
Hypothesis base_pos : 0 < base.
Hypothesis sbrk_spec : forall n e, 0 < n < 2 ^ 31 ->
  fst (sbrk n e) = u32 (-1) /\ brk (snd (sbrk n e)) = brk e \/
  fst (sbrk n e) = brk e /\ brk (snd (sbrk n e)) = brk e + n /\ brk e + n < 2 ^ 31.

(** [L] are the free blocks below the break. *)
Definition heap_list h L : Prop := free_list (um h) (freep h) L (brk (os h)) /\ base + 8 <= brk (os h) < 2 ^ 31.

Lemma freep_pos h L : heap_list h L -> 0 < freep h.
Proof.
  intros [[_ Fo Ff] _]. cbn in Ff. apply elem_of_cons in Ff as [->|Ff]; [done|]. apply list_elem_of_fmap in Ff as (b & -> & Hb).
  destruct (ordered_in _ _ _ _ Fo Hb). lia.
Qed.

(** The heap after [morecore] of [n] units. *)
Record extended (n : Z) h L h' L' : Prop := {
  ex_list : heap_list h' L';
  ex_length : (length L' <= S (length L))%nat;
  ex_brk : brk (os h) + 8 * n <= brk (os h');
  ex_covered x : covered L' x <-> covered L x \/ brk (os h) <= x < brk (os h');
  ex_frame x : x < brk (os h) -> ~ covered L x -> ~ (base <= x < base + 8) -> um h' x = um h x }.

Lemma morecore_spec k n h L : heap_list h L -> 1 <= n < 2 ^ 28 -> (length L < k)%nat ->
  (exists h', morecore k n h = Some (0, h') /\ um h' = um h /\ freep h' = freep h /\ brk (os h') = brk (os h)) \/
  exists h' L', morecore k n h = Some (freep h', h') /\ extended n h L h' L'.
Proof.
  intros [F Hbrk] Hn Hk. unfold morecore. set (nu := if n <? 4096 then 4096 else n).
  assert (n <= nu /\ 1 <= nu < 2 ^ 28) as [Hnu1 Hnu2] by (unfold nu; destruct (Z.ltb_spec n 4096); lia). clearbody nu. unfold sizeof_Header.
  replace (s32 (u32 (nu * 8))) with (8 * nu) by (rewrite u32_small by lia; unfold s32; rewrite Z.mod_small by lia; destruct (Z.ltb_spec (nu * 8) (2 ^ 31)); lia).
  destruct (sbrk_spec (8 * nu) (os h) ltac:(lia)) as [[E1 E2]|(E1 & E2 & E3)]; destruct (sbrk (8 * nu) (os h)) as [p e]; cbn [fst snd] in *.
  { left. rewrite E1, Z.eqb_refl. eexists. by split_and!. }
  right. destruct (Z.eqb_spec p (u32 (-1))) as [Ep|_]; [change (u32 (-1)) with (2 ^ 32 - 1) in Ep; lia|]. subst p. set (p := brk (os h)) in *.
  rewrite plus_small by lia. unfold free. cbn [um freep os]. unfold sizeof_Header. replace (p + 8 * 1 - 8) with p by lia. rewrite u32_small by lia.
  assert (free_list (set_size (um h) p nu) (freep h) L (p + 8 * nu)) as F'.
  { destruct F as [Fs Fo Ff]. split; [|eapply ordered_weaken; [exact Fo|lia|lia]|done]. eapply useg_ext; [|exact Fs].
    intros b x [->|Hb]%elem_of_cons Hx; apply set_size_other; cbn in Hx; [lia|]. destruct (ordered_in _ _ _ _ Fo Hb) as (? & ? & ?). lia. }
  destruct (free_spec k (set_size (um h) p nu) (freep h) L (p + 8 * nu) p nu) as (q & L' & R & FL & NL & CL & KL); try done; try lia.
  { apply s_size_set_size. lia. }
  { intros b Hb. right. destruct (ordered_in _ _ _ _ (fl_ordered _ _ _ _ F) Hb) as (? & ? & ?). cbn. lia. }
  rewrite R. eexists _, L'. split; [reflexivity|]. split; unfold heap_list; cbn [um freep os]; rewrite ?E2.
  - split; [done|lia].
  - done.
  - lia.
  - intros x. rewrite CL. done.
  - intros x Hx1 Hx2 Hx3. rewrite KL by (done || lia). apply set_size_other. lia.
Qed.

(** What [malloc] gives: [q] is the header of a new block of [n] units. *)
Record allocated (n : Z) h L (q : Z) h' L' : Prop := {
  al_list : heap_list h' L';
  al_size : s_size (um h') q = n;
  al_low : base + 8 <= q;
  al_high : q + 8 * n <= brk (os h');
  al_brk : brk (os h) <= brk (os h');
  al_covered x : covered L' x \/ inside (q, n) x <-> covered L x \/ brk (os h) <= x < brk (os h');
  al_apart c : c ∈ L' -> apart (q, n) c;
  al_frame x : x < brk (os h) -> ~ covered L x -> ~ (base <= x < base + 8) -> um h' x = um h x }.

Lemma malloc_loop_spec k n h L : heap_list h L -> 1 <= n < 2 ^ 28 -> (2 * length L + 4 <= k)%nat ->
  exists r h', malloc_loop k n (freep h) (s_ptr (um h) (freep h)) h = Some (r, h') /\
    (r = 0 /\ um h' = um h /\ freep h' = freep h /\ brk (os h') = brk (os h) \/
     exists q L', r = q + 8 /\ allocated n h L q h' L').
Proof.
  intros HL Hn Hk. pose proof HL as [F Hb]. replace k with (S (length L) + (k - length L - 1))%nat by lia.
  change (S (length L)) with (length ((base, 0) :: L)).
  destruct (search_spec n h L (brk (os h)) (k - length L - 1) ltac:(lia) F) as [(C1 & pv & sp & a & s & C2 & EC & Hs & ->)|[Hsm ->]].
  - destruct (carve_spec n h L (brk (os h)) C1 pv sp a s C2 base_pos ltac:(lia) ltac:(lia) F EC) as (q & h' & L' & -> & [V1 V2 V3 V4 V5 V6 V7 V8]).
    exists (q + 8), h'. split; [done|]. right. exists q, L'. split; [done|].
    split; unfold heap_list; rewrite ?V8; try done; try lia.
    + intros x. rewrite V5. split; [tauto|]. intros [?|?]; [done|lia].
    + intros x _. apply V7.
  - destruct (morecore_spec (k - length L - 1) n h L HL Hn ltac:(lia)) as [(h' & -> & E1 & E2 & E3)|(h' & L' & -> & X)].
    { exists 0, h'. split; [done|]. by left. }
    destruct X as [X1 X2 X3 X4 X5]. pose proof (freep_pos _ _ X1) as Hp. destruct (Z.eqb_spec (freep h') 0); [lia|]. pose proof X1 as [F' Hb'].
    replace (k - length L - 1)%nat with (S (length L') + (k - length L - length L' - 2))%nat by lia.
    change (S (length L')) with (length ((base, 0) :: L')).
    destruct (search_spec n h' L' (brk (os h')) (k - length L - length L' - 2) ltac:(lia) F') as [(C1 & pv & sp & a & s & C2 & EC & Hs & ->)|[Hsm' _]].
    + destruct (carve_spec n h' L' (brk (os h')) C1 pv sp a s C2 base_pos ltac:(lia) ltac:(lia) F' EC) as (q & h2 & L2 & -> & [V1 V2 V3 V4 V5 V6 V7 V8]).
      exists (q + 8), h2. split; [done|]. right. exists q, L2. split; [done|]. split; unfold heap_list; rewrite ?V8; try done; try lia.
      * intros x. rewrite <- V5. apply X4.
      * intros x Hx1 Hx2 Hx3. rewrite V7; [by apply X5| |done]. rewrite X4. intros [?|?]; [done|lia].
    + exfalso. destruct (covered_run _ L' _ (brk (os h)) (8 * n) (fl_ordered _ _ _ _ F') ltac:(lia)) as (b & Hb1 & Hb2 & Hb3).
      { intros x Hx. apply X4. right. lia. }
      assert (fst b + 8 * snd b < brk (os h) + 8 * n) as Hlt; [|lia].
      unfold small in Hsm'. rewrite Forall_forall in Hsm'. specialize (Hsm' b Hb1). lia.
Qed.

(** ** Programs that allocate and free *)

Fixpoint all_apart (l : list block) : Prop :=
  match l with
  | [] => True
  | b :: l => Forall (apart b) l /\ all_apart l
  end.

(** [L] are the free blocks and [live] those the program holds: no two of all
    these overlap, and the headers of the live ones are intact. *)
Record heap_inv h L (live : list block) : Prop := {
  hi_brk : base + 8 <= brk (os h) < 2 ^ 31;
  hi_list : freep h = 0 /\ L = [] /\ live = [] \/ heap_list h L;
  hi_live b : b ∈ live -> s_size (um h) (fst b) = snd b /\ base + 8 <= fst b /\ 1 <= snd b /\ fst b + 8 * snd b <= brk (os h);
  hi_free b c : b ∈ live -> c ∈ L -> apart b c;
  hi_apart : all_apart live }.

(** Bytes of a live block are neither free nor part of [base]. *)
Lemma live_safe h L live b x : heap_inv h L live -> b ∈ live -> inside b x ->
  x < brk (os h) /\ ~ covered L x /\ ~ (base <= x < base + 8).
Proof.
  intros I Hb Hx. destruct (hi_live _ _ _ I b Hb) as (_ & H1 & H2 & H3). unfold inside in *. split; [lia|]. split; [|lia].
  intros (c & Hc & Hxc). unfold inside in Hxc. destruct (hi_free _ _ _ I b c Hb Hc) as [H|H]; lia.
Qed.

(** Changes outside the live blocks. *)
Definition untouched h h' (live : list block) : Prop := forall b x, b ∈ live -> inside b x -> um h' x = um h x.

Lemma untouched_size h h' live b : untouched h h' live -> b ∈ live -> 1 <= snd b -> s_size (um h') (fst b) = s_size (um h) (fst b).
Proof. intros U Hb H1. apply load32_ext. intros x Hx. apply (U b); [done|]. unfold inside. lia. Qed.

Lemma units_spec nbytes : 0 <= nbytes <= 2 ^ 31 - 64 -> nbytes <= 8 * (units nbytes - 1) < nbytes + 8 /\ 1 <= units nbytes < 2 ^ 28.
Proof. intros H. unfold units, sizeof_Header. rewrite u32_small by lia. Z.to_euclidean_division_equations. lia. Qed.

(** The state [malloc] makes of a fresh heap. *)
Definition initialised h : uheap := if freep h =? 0 then Uheap (set_size (set_ptr (um h) base base) base 0) base (os h) else h.

Lemma initialised_spec h L live : heap_inv h L live -> heap_list (initialised h) L /\ os (initialised h) = os h /\
  forall x, ~ (base <= x < base + 8) -> um (initialised h) x = um h x.
Proof.
  intros I. pose proof (hi_brk _ _ _ I) as Hb. unfold initialised. destruct (hi_list _ _ _ I) as [(E1 & -> & _)|HL].
  - rewrite E1, Z.eqb_refl. cbn [um os]. split; [|split; [done|]].
    + split; [|done]. split; cbn; [|done|left]. rewrite s_ptr_set_size, s_ptr_set_ptr, s_size_set_size by lia. done.
    + intros x Hx. rewrite set_size_other by done. by apply set_ptr_other.
  - pose proof (freep_pos _ _ HL). destruct (Z.eqb_spec (freep h) 0); [lia|]. done.
Qed.

(** Blocks without a common byte. *)
Lemma apart_bytes b c : 1 <= snd b -> 1 <= snd c -> (forall x, inside b x -> ~ inside c x) -> apart b c.
Proof.
  intros H1 H2 H. unfold apart. unfold inside in H. pose proof (H (Z.max (fst b) (fst c))). lia.
Qed.

Lemma malloc_runs k nbytes h L live : heap_inv h L live -> 0 <= nbytes <= 2 ^ 31 - 64 -> (2 * length L + 4 <= k)%nat ->
  exists r h' L', malloc k nbytes h = Some (r, h') /\ untouched h h' live /\
    (r = 0 /\ heap_inv h' L' live /\ L' = L \/
     exists n, nbytes <= 8 * (n - 1) < nbytes + 8 /\ heap_inv h' L' ((r - 8, n) :: live) /\
       forall x, covered L' x \/ inside (r - 8, n) x <-> covered L x \/ brk (os h) <= x < brk (os h')).
Proof.
  intros I Hn Hk. destruct (units_spec nbytes Hn) as [U1 U2]. destruct (initialised_spec h L live I) as (HL & Eo & Em).
  pose proof (hi_brk _ _ _ I) as Hb.
  destruct (malloc_loop_spec k (units nbytes) (initialised h) L HL U2 Hk) as (r & h' & R & H).
  change (malloc k nbytes h = Some (r, h')) in R.
  destruct H as [(-> & E1 & E2 & E3)|(q & L' & -> & [A1 A2 A3 A4 A5 A6 A7 A8])].
  - exists 0, h', L. split; [done|]. assert (untouched h h' live) as U.
    { intros b x Hb' Hx. rewrite E1. apply Em. by apply (live_safe _ _ _ _ _ I Hb' Hx). }
    split; [done|]. left. split; [done|]. split; [|done]. rewrite Eo in E3. split; rewrite ?E3; [done| |..].
    + right. destruct HL as [F Hb2]. split; [by rewrite E1, E2, E3, <- Eo|]. by rewrite E3.
    + intros b Hb'. destruct (hi_live _ _ _ I b Hb') as (H1 & H2 & H3 & H4). by rewrite (untouched_size h h' live b U Hb' H3).
    + apply I.
    + apply I.
  - rewrite Eo in *. exists (q + 8), h', L'. split; [done|]. assert (untouched h h' live) as U.
    { intros b x Hb' Hx. destruct (live_safe _ _ _ _ _ I Hb' Hx) as (S1 & S2 & S3). rewrite A8 by done. by apply Em. }
    split; [done|]. right. exists (units nbytes). split; [done|]. replace (q + 8 - 8) with q by lia. split; [|done].
    pose proof (proj2 A1) as Hb'. split; [done|by right|..].
    + intros b [->|Hin]%elem_of_cons; [cbn; split_and!; try done; lia|]. destruct (hi_live _ _ _ I b Hin) as (H1 & H2 & H3 & H4).
      rewrite (untouched_size h h' live b U Hin H3). split_and!; try done. lia.
    + intros b c [->|Hin]%elem_of_cons Hc; [by apply A7|]. apply apart_bytes; [by apply (hi_live _ _ _ I)| |].
      * by apply (ordered_in _ _ _ _ (fl_ordered _ _ _ _ (proj1 A1)) Hc).
      * intros x Hx Hx'. destruct (live_safe _ _ _ _ _ I Hin Hx) as (S1 & S2 & _).
        destruct (proj1 (A6 x)) as [?|?]; [left; by exists c|done|lia].
    + split; [|apply I]. apply Forall_forall. intros b Hin. apply apart_bytes; [cbn; lia|by apply (hi_live _ _ _ I)|].
      intros x Hx Hx'. destruct (live_safe _ _ _ _ _ I Hin Hx') as (S1 & S2 & _). destruct (proj1 (A6 x)) as [?|?]; [by right|done|lia].
Qed.

Lemma all_apart_remove l1 b l2 : all_apart (l1 ++ b :: l2) -> all_apart (l1 ++ l2) /\ forall c, c ∈ l1 ++ l2 -> apart b c.
Proof.
  induction l1 as [|a l1 IH]; cbn; intros [H1 H2].
  - split; [done|]. by rewrite Forall_forall in H1.
  - destruct (IH H2) as [H3 H4]. apply Forall_app in H1 as [F1 F2]. apply Forall_cons in F2 as [F0 F2]. split.
    + split; [by apply Forall_app|done].
    + intros c [->|Hc]%elem_of_cons; [|by apply H4]. unfold apart in *. tauto.
Qed.

Lemma free_runs k h L l1 q n l2 : heap_inv h L (l1 ++ (q, n) :: l2) -> (length L < k)%nat ->
  exists h' L', free k (q + 8) h = Some h' /\ heap_inv h' L' (l1 ++ l2) /\ untouched h h' (l1 ++ l2) /\
    (forall x, covered L' x <-> covered L x \/ inside (q, n) x) /\ os h' = os h /\ (length L' <= S (length L))%nat.
Proof.
  clear sbrk_spec. intros I Hk. pose proof (hi_brk _ _ _ I) as Hb. assert ((q, n) ∈ l1 ++ (q, n) :: l2) as Hq by (apply elem_of_app; right; left).
  assert (forall b, b ∈ l1 ++ l2 -> b ∈ l1 ++ (q, n) :: l2) as Hsub.
  { intros b. rewrite !elem_of_app, elem_of_cons. tauto. }
  destruct (hi_live _ _ _ I _ Hq) as (H1 & H2 & H3 & H4). cbn in H1, H2, H3, H4.
  destruct (hi_list _ _ _ I) as [(_ & _ & E0)|[F _]]; [by destruct l1|].
  destruct (free_spec k (um h) (freep h) L (brk (os h)) q n base_pos ltac:(lia) F Hk H1 H3 H2 H4) as (p & L' & R & FL & NL & CL & KL);
    [intros b Hb'; by apply (hi_free _ _ _ I)|].
  unfold free, sizeof_Header. replace (q + 8 - 8) with q by lia. rewrite u32_small by lia. rewrite R. eexists _, L'. split; [reflexivity|].
  set (h' := Uheap _ _ _). destruct (all_apart_remove _ _ _ (hi_apart _ _ _ I)) as [P1 P2].
  assert (untouched h h' (l1 ++ l2)) as U.
  { intros b x Hb' Hx. destruct (live_safe _ _ _ _ _ I (Hsub _ Hb') Hx) as (_ & S2 & S3). apply KL; try done.
    unfold inside in Hx. destruct (P2 b Hb') as [H|H]; cbn in H; lia. }
  split; [|by split_and!]. split; cbn [os h']; [done|right; by split| | |done].
  - intros b Hb'. destruct (hi_live _ _ _ I b (Hsub _ Hb')) as (J1 & J2 & J3 & J4). by rewrite (untouched_size h h' (l1 ++ l2) b U Hb' J3).
  - intros b c Hb' Hc. apply apart_bytes; [by apply (hi_live _ _ _ I), Hsub|by apply (ordered_in _ _ _ _ (fl_ordered _ _ _ _ FL) Hc)|].
    intros x Hx Hx'. destruct (live_safe _ _ _ _ _ I (Hsub _ Hb') Hx) as (_ & S2 & _). destruct (proj1 (CL x)) as [?|Hx2]; [by exists c|done|].
    unfold inside in *. destruct (P2 b Hb') as [H|H]; cbn in *; lia.
Qed.


(** C36: [free] of a block the program holds, the free ones joined with their
    neighbours: exactly its bytes become free, and all other blocks the program
    holds are untouched. *)
Theorem free_releases k h L l1 q n l2 : heap_inv h L (l1 ++ (q, n) :: l2) -> (length L < k)%nat ->
  exists h' L', free k (q + 8) h = Some h' /\ heap_inv h' L' (l1 ++ l2) /\ untouched h h' (l1 ++ l2) /\
    (forall x, covered L' x <-> covered L x \/ inside (q, n) x) /\ os h' = os h /\ (length L' <= S (length L))%nat.
Proof. apply free_runs. Qed.

(** sizes wrap around: a request for one of the last seven sizes before 2^32
    is a request for nothing, and gets a block without room for a byte. *)
Theorem malloc_wraps k nbytes h : 2 ^ 32 - 7 <= nbytes < 2 ^ 32 -> malloc k nbytes h = malloc k 0 h.
Proof.
  intros H. unfold malloc. replace (units nbytes) with (units 0); [done|]. unfold units, sizeof_Header, u32. Z.to_euclidean_division_equations. lia.
Qed.

End umalloc.

(** ** A small heap *)

Module Demo.

(** A process whose memory ends at [e] and can grow to 2 GB. *)
Definition sbrk (n e : Z) : Z * Z := if e + n <? 2 ^ 31 then (e, e + n) else (u32 (-1), e).
Definition base : Z := 4096.
Definition fresh : uheap (E := Z) := Uheap (fun _ => 0) 0 8192.

Lemma sbrk_ok n e : 0 < n < 2 ^ 31 ->
  fst (sbrk n e) = u32 (-1) /\ snd (sbrk n e) = e \/ fst (sbrk n e) = e /\ snd (sbrk n e) = e + n /\ e + n < 2 ^ 31.
Proof. intros _. unfold sbrk. destruct (Z.ltb_spec (e + n) (2 ^ 31)); [right|left]; done. Qed.

Lemma fresh_inv : heap_inv base (fun e => e) fresh [] [].
Proof. split; try (by intros ? ?%elem_of_nil); try (by intros ? ? ?%elem_of_nil); [cbn; unfold base; lia|by left|done]. Qed.


Lemma free_releases_witness : exists h L q n h' L', heap_inv base (fun e => e) h L [(q, n)] /\
  free (length L + 1) (q + 8) h = Some h' /\ heap_inv base (fun e => e) h' L' [].
Proof.
  destruct (malloc_runs base sbrk (fun e => e) eq_refl sbrk_ok 4 100 fresh [] [] fresh_inv ltac:(lia) ltac:(cbn; lia)) as (r & h & L & R & _ & H).
  assert (r = 40848 + 8) as -> by (apply (f_equal (fmap fst)) in R; vm_compute in R; by injection R as <-).
  destruct H as [(H & _)|(n & _ & I & _)]; [discriminate H|]. replace (40848 + 8 - 8) with 40848 in I by lia.
  destruct (free_releases base sbrk (fun e => e) eq_refl (length L + 1) h L [] 40848 n [] I ltac:(lia)) as (h' & L' & F & I' & _).
  exists h, L, 40848, n, h', L'. split; [exact I|]. split; [exact F|exact I'].
Defined.

Lemma malloc_wraps_witness : malloc base sbrk 4 (2 ^ 32 - 1) fresh = malloc base sbrk 4 0 fresh.
Proof. apply (malloc_wraps base sbrk 4 (2 ^ 32 - 1) fresh). lia. Defined.

End Demo.
