(* ===== verification/Sh.v ===== *)
(** sh.c, the parser of the shell: tokens, commands, and the termination of the
    words in the line.

    A [char *] into the line is an offset from its start; behind the last byte
    there is a NUL, at [es]. *)

From stdpp Require Import base numbers list strings.
From S2P Require Import Xv6 Prelude Kstring.

(** [whitespace] and [symbols]. *)
Definition whitespace : list Z := [32; 9; 13; 10; 11].
Definition symbols : list Z := [60; 124; 62; 38; 59; 40; 41].
(** [strchr(l, c)] as a truth value, for a [c] that is not NUL. *)
Definition among (l : list Z) (c : Z) : bool := existsb (Z.eqb c) l.
Definition is_space (c : Z) : bool := among whitespace c.
Definition is_word (c : Z) : bool := negb (is_space c) && negb (among symbols c).

(** The length of the longest prefix with [f]. *)
Fixpoint span (f : Z -> bool) (l : list Z) : nat :=
  match l with
  | [] => 0
  | c :: l => if f c then S (span f l) else 0
  end.

(** [struct execcmd], [redircmd], [pipecmd], [listcmd] and [backcmd]; words are
    of type [W]: pointers to their beginning and end while parsing. *)
Inductive cmd (W : Type) : Type :=
  | Exec (argv : list W)
  | Redir (c : cmd W) (file : W) (mode fd : Z)
  | Pipe (left right : cmd W)
  | List (left right : cmd W)
  | Back (c : cmd W).
Arguments Exec {W}.
Arguments Redir {W}.
Arguments Pipe {W}.
Arguments List {W}.
Arguments Back {W}.

Definition O_RDONLY : Z := 0.
Definition O_WRONLY_O_CREATE : Z := Z.lor 1 0x200.
Definition MAXARGS : nat := 20.

(** What a parsing function does from a position: a value and the new position,
    the message of [panic], or a loop that has used up its fuel. *)
Inductive res (A : Type) : Type :=
  | Ok (a : A) (s : nat)
  | Panics (msg : string)
  | Spent.
Arguments Ok {A}.
Arguments Panics {A}.
Arguments Spent {A}.

Definition parser (A : Type) : Type := nat -> res A.
#[export] Instance parser_ret : MRet parser := fun A a s => Ok a s.
#[export] Instance parser_bind : MBind parser := fun A B k m s =>
  match m s with Ok a s' => k a s' | Panics msg => Panics msg | Spent => Spent end.
Definition panics {A} (msg : string) : parser A := fun _ => Panics msg.
Definition spent {A} : parser A := fun _ => Spent.

Section parse.
(** The line, up to [es]. *)
Variable buf : list Z.

Definition chr (s : nat) : Z := default 0 (buf !! s).
Definition skip_spaces (s : nat) : nat := s + span is_space (drop s buf).

(** The token with the positions [q] and [eq]. *)
Definition gettoken : parser (Z * (nat * nat)) := fun s =>
  let q := skip_spaces s in
  let c := chr q in
  let '(r, eq) :=
    if c =? 0 then (0, q)
    else if among [124; 40; 41; 59; 38; 60] c then (c, S q)
    else if c =? 62 then if chr (S q) =? 62 then (43, S (S q)) else (62, S q)
    else (97, (q + span is_word (drop q buf))%nat) in
  Ok (r, (q, eq)) (skip_spaces eq).

Definition peek (toks : list Z) : parser bool := fun s =>
  let s := skip_spaces s in
  Ok (negb (chr s =? 0) && among toks (chr s)) s.

(** The redirections [parseredirs] wraps around its command, in order. *)
Definition redir : Type := (nat * nat) * Z * Z.
Definition wrap {W} (c : cmd W) (l : list (W * Z * Z)) : cmd W :=
  foldl (fun c r => Redir c (fst (fst r)) (snd (fst r)) (snd r)) c l.

Fixpoint parseredirs (k : nat) : parser (list redir) :=
  match k with
  | O => spent
  | S k =>
      b ← peek [60; 62];
      if b : bool then
        t ← gettoken;
        w ← gettoken;
        if negb (fst w =? 97) then panics "missing file for redirection"
        else
          let r := if fst t =? 60 then (snd w, O_RDONLY, 0) else (snd w, O_WRONLY_O_CREATE, 1) in
          l ← parseredirs k;
          mret (r :: l)
      else mret []
  end.

(** The loop of [parseexec]: arguments from the [argc]-th on, and the
    redirections between them. *)
Fixpoint parseargs (k : nat) (argc : nat) : parser (list (nat * nat) * list redir) :=
  match k with
  | O => spent
  | S k =>
      b ← peek [124; 41; 38; 59];
      if b : bool then mret ([], [])
      else
        t ← gettoken;
        if fst t =? 0 then mret ([], [])
        else if negb (fst t =? 97) then panics "syntax"
        else if (MAXARGS <=? S argc)%nat then panics "too many args"
        else
          l ← parseredirs k;
          r ← parseargs k (S argc);
          mret (snd t :: fst r, l ++ snd r)
  end.

(** The loop of [parseline] over [&]. *)
Fixpoint parseback (k : nat) (c : cmd (nat * nat)) : parser (cmd (nat * nat)) :=
  match k with
  | O => spent
  | S k =>
      b ← peek [38];
      if b : bool then gettoken ≫= fun _ => parseback k (Back c) else mret c
  end.

(** In [parseexec] the arguments go into the [execcmd] at the bottom of the
    redirections made so far. *)
Fixpoint parseline (k : nat) : parser (cmd (nat * nat)) :=
  match k with
  | O => spent
  | S k =>
      c ← parsepipe k;
      c ← parseback k c;
      b ← peek [59];
      if b : bool then
        _ ← gettoken;
        r ← parseline k;
        mret (List c r)
      else mret c
  end
with parsepipe (k : nat) : parser (cmd (nat * nat)) :=
  match k with
  | O => spent
  | S k =>
      c ← parseexec k;
      b ← peek [124];
      if b : bool then
        _ ← gettoken;
        r ← parsepipe k;
        mret (Pipe c r)
      else mret c
  end
with parseexec (k : nat) : parser (cmd (nat * nat)) :=
  match k with
  | O => spent
  | S k =>
      b ← peek [40];
      if b : bool then parseblock k
      else
        l ← parseredirs k;
        r ← parseargs k 0;
        mret (wrap (Exec (fst r)) (l ++ snd r))
  end
with parseblock (k : nat) : parser (cmd (nat * nat)) :=
  match k with
  | O => spent
  | S k =>
      b ← peek [40];
      if negb b then panics "parseblock"
      else
        _ ← gettoken;
        c ← parseline k;
        b ← peek [41];
        if negb b then panics "syntax - missing )"
        else
          _ ← gettoken;
          l ← parseredirs k;
          mret (wrap c l)
  end.

End parse.

(** The stores of [nulterminate]. *)
Fixpoint nulterminate (c : cmd (nat * nat)) (buf : list Z) : list Z :=
  match c with
  | Exec argv => foldl (fun b w => <[snd w := 0]> b) buf argv
  | Redir c w _ _ => <[snd w := 0]> (nulterminate c buf)
  | Pipe l r | List l r => nulterminate r (nulterminate l buf)
  | Back c => nulterminate c buf
  end.

(** The command and the line, with its words terminated. *)
Definition finish (buf : list Z) (c : cmd (nat * nat)) : parser (cmd (nat * nat) * list Z) := fun s =>
  if negb (s =? length buf)%nat then Panics "syntax" else Ok (c, nulterminate c buf) s.
Definition parsecmd (buf : list Z) : res (cmd (nat * nat) * list Z) :=
  (c ← parseline buf (4 * length buf + 4);
   _ ← peek buf [];
   finish buf c) O.

(** The words of a command. *)
Fixpoint words {W} (c : cmd W) : list W :=
  match c with
  | Exec argv => argv
  | Redir c w _ _ => words c ++ [w]
  | Pipe l r | List l r => words l ++ words r
  | Back c => words c
  end.

(** ** Every line is parsed in finitely many steps *)

Section steps.
Context (buf : list Z).
#[local] Abbreviation len := (length buf).

(** A parser that does not run out of fuel from [s] on and moves forward. *)
Definition moves {A} (m : parser A) (s : nat) (Q : A -> nat -> Prop) : Prop :=
  match m s with Ok a s' => Q a s' | Panics _ => True | Spent => False end.

Lemma moves_bind {A B} (m : parser A) (k : A -> parser B) s Q :
  moves m s (fun a s' => moves (k a) s' Q) -> moves (m ≫= k) s Q.
Proof. unfold moves, mbind, parser_bind. by destruct (m s). Qed.
Lemma moves_mono {A} (m : parser A) s (Q Q' : A -> nat -> Prop) : moves m s Q -> (forall a s', Q a s' -> Q' a s') -> moves m s Q'.
Proof. unfold moves. destruct (m s); auto. Qed.

Lemma span_le f l : (span f l <= length l)%nat.
Proof. induction l as [|c l IH]; cbn; [lia|]. destruct (f c); lia. Qed.

Lemma skip_spaces_le s : (s <= len -> s <= skip_spaces buf s <= len)%nat.
Proof. intros Hs. unfold skip_spaces. pose proof (span_le is_space (drop s buf)). rewrite length_drop in *. lia. Qed.

Lemma span_drop f l : span f (drop (span f l) l) = O.
Proof. induction l as [|c l IH]; [done|]. cbn. destruct (f c) eqn:E; cbn; [done|by rewrite E]. Qed.

Lemma skip_idem s : skip_spaces buf (skip_spaces buf s) = skip_spaces buf s.
Proof. unfold skip_spaces at 1. unfold skip_spaces at 2. rewrite <- drop_drop, span_drop. lia. Qed.

Lemma chr_end s : (len <= s)%nat -> chr buf s = 0.
Proof. intros H. unfold chr. by rewrite lookup_ge_None_2. Qed.

Lemma peek_moves toks s Q : (s <= len)%nat ->
  (forall b s', (s <= s' <= len)%nat -> (b = true -> (s' < len)%nat /\ among toks (chr buf s') = true /\ skip_spaces buf s' = s' /\ chr buf s' <> 0) -> Q b s') ->
  moves (peek buf toks) s Q.
Proof.
  intros Hs HQ. unfold moves, peek. apply HQ; [by apply skip_spaces_le|]. intros [H1%negb_true_iff H2]%andb_prop. apply Z.eqb_neq in H1. split; [|split; [done|split; [|done]]].
  - destruct (decide (skip_spaces buf s < len)%nat) as [|N]; [done|]. exfalso. apply H1, chr_end. lia.
  - apply skip_idem.
Qed.

(** A word reaches as far as possible. *)
Definition whole (w : nat * nat) : Prop := (snd w = fst w + span is_word (drop (fst w) buf) /\ fst w <= len)%nat.

(** A token that is not the end of the line has at least one character. *)
Lemma gettoken_moves s Q : (s <= len)%nat ->
  (forall t q eq s', (s <= q <= eq)%nat -> (eq <= s' <= len)%nat -> (t <> 0 \/ chr buf (skip_spaces buf s) <> 0 -> (q < eq)%nat) ->
    (t = 97 -> whole (q, eq)) -> Q (t, (q, eq)) s') ->
  moves (gettoken buf) s Q.
Proof.
  intros Hs HQ. unfold moves, gettoken. pose proof (skip_spaces_le s Hs) as Hq. set (q := skip_spaces buf s) in *.
  destruct (decide (q < len)%nat) as [Hlt|Hge].
  2: { rewrite (chr_end q) by lia. cbn [Z.eqb]. apply HQ; [lia|apply skip_spaces_le; lia| |done]. fold q. rewrite chr_end by lia. by intros []. }
  assert (forall t eq, (q < eq <= len)%nat -> (t = 97 -> whole (q, eq)) -> Q (t, (q, eq)) (skip_spaces buf eq)) as Hgo.
  { intros t eq He. pose proof (skip_spaces_le eq). apply HQ; lia. }
  destruct (Z.eqb_spec (chr buf q) 0) as [E|N]; [apply HQ; [lia|apply skip_spaces_le; lia| |done]; fold q; rewrite E; by intros []|].
  destruct (among [124; 40; 41; 59; 38; 60] (chr buf q)) eqn:E1; [apply Hgo; [lia|intros Ec; by rewrite Ec in E1]|].
  destruct (Z.eqb_spec (chr buf q) 62) as [E2|N2].
  - destruct (Z.eqb_spec (chr buf (S q)) 62) as [E3|N3]; (apply Hgo; [|done]); [|lia].
    destruct (decide (S q < len)%nat); [lia|]. rewrite chr_end in E3 by lia. done.
  - apply Hgo; [|intros _; split; cbn [fst snd]; lia]. assert (0 < span is_word (drop q buf))%nat as Hw.
    { assert (skip_spaces buf q = q) as Eq by apply skip_idem. unfold skip_spaces in Eq.
      unfold chr in *. rewrite <- (Nat.add_0_r q), <- lookup_drop in N, E1, N2. pose proof (length_drop buf q) as Hl.
      destruct (drop q buf) as [|c l]; [cbn in Hl; lia|]. cbn [lookup list_lookup default] in N, E1, N2. cbn [span] in Eq |- *.
      assert (is_word c = true) as ->; [|lia]. unfold is_word. destruct (is_space c); [lia|]. cbn in E1 |- *.
      destruct (Z.eqb_spec c 60), (Z.eqb_spec c 124), (Z.eqb_spec c 62), (Z.eqb_spec c 38), (Z.eqb_spec c 59), (Z.eqb_spec c 40), (Z.eqb_spec c 41); subst; done. }
    pose proof (span_le is_word (drop q buf)). rewrite length_drop in *. lia.
Qed.

Lemma parseredirs_moves k : forall s Q, (s <= len)%nat -> (len - s < k)%nat -> (forall l s', (s <= s' <= len)%nat -> Forall (fun r => whole (fst (fst r))) l -> Q l s') -> moves (parseredirs buf k) s Q.
Proof.
  induction k as [|k IH]; intros s Q Hs Hk HQ; [lia|]. cbn [parseredirs]. apply moves_bind, peek_moves; [done|].
  intros [] s1 H1 Hb; [|apply HQ; [lia|constructor]]. apply moves_bind, gettoken_moves; [lia|].
  intros t q eq s2 G1 G2 _ _. apply moves_bind, gettoken_moves; [lia|]. intros t' q' eq' s3 G3 G4 G5 G6. cbn [fst snd].
  destruct (Z.eqb_spec t' 97) as [->|]; [|done]. cbn [negb]. apply moves_bind, IH; [lia| |].
  - specialize (G5 ltac:(by left)). lia.
  - intros l s4 H5 Hl. apply HQ; [lia|]. constructor; [|done]. specialize (G6 eq_refl). by destruct (t =? 60).
Qed.

Lemma parseargs_moves k : forall argc s Q, (s <= len)%nat -> (len - s < k)%nat -> (forall r s', (s <= s' <= len)%nat -> Forall whole (fst r) -> Forall (fun r => whole (fst (fst r))) (snd r) -> Q r s') ->
  moves (parseargs buf k argc) s Q.
Proof.
  induction k as [|k IH]; intros argc s Q Hs Hk HQ; [lia|]. cbn [parseargs]. apply moves_bind, peek_moves; [done|].
  intros [] s1 H1 _; [apply HQ; [lia|constructor..]|]. apply moves_bind, gettoken_moves; [lia|]. intros t q eq s2 G1 G2 G3 G4. cbn [fst snd].
  destruct (Z.eqb_spec t 0); [apply HQ; [lia|constructor..]|]. destruct (Z.eqb_spec t 97) as [Et|]; [|done]. cbn [negb]. destruct (MAXARGS <=? S argc)%nat; [done|].
  specialize (G3 ltac:(by left)). apply moves_bind, parseredirs_moves; [lia|lia|]. intros l s3 H3 Hl. apply moves_bind, IH; [lia|lia|].
  intros r s4 H4 Hr1 Hr2. apply HQ; [lia|constructor; auto|by apply Forall_app].
Qed.

(** After a successful [peek] the token is consumed. *)
Lemma token_moves {B} toks (k1 : parser B) (k2 : parser B) s Q : (s <= len)%nat ->
  (forall s', (s < s' <= len)%nat -> moves k1 s' Q) -> (forall s', (s <= s' <= len)%nat -> moves k2 s' Q) ->
  moves (b ← peek buf toks; if b : bool then _ ← gettoken buf; k1 else k2) s Q.
Proof.
  intros Hs H1 H2. apply moves_bind, peek_moves; [done|]. intros [] s1 G1 Hb; [|by apply H2].
  destruct (Hb eq_refl) as (G2 & G3 & G4 & G5). apply moves_bind, gettoken_moves; [lia|]. intros t q eq s2 G6 G7 G8 _.
  apply H1. specialize (G8 ltac:(right; by rewrite G4)). lia.
Qed.

Lemma parseback_moves k : forall c s Q, (s <= len)%nat -> (len - s < k)%nat ->
  (forall c' s', (s <= s' <= len)%nat -> words c' = words c -> Q c' s') -> moves (parseback buf k c) s Q.
Proof.
  induction k as [|k IH]; intros c s Q Hs Hk HQ; [lia|]. cbn [parseback]. apply token_moves; [done|..].
  - intros s' Hs'. apply IH; [lia|lia|]. intros c' s'' H E. apply HQ; [lia|done].
  - intros s' Hs'. by apply HQ.
Qed.

Definition all_whole (c : cmd (nat * nat)) : Prop := Forall whole (words c).

Lemma wrap_whole l : forall c, all_whole c -> Forall (fun r => whole (fst (fst r))) l -> all_whole (wrap c l).
Proof.
  induction l as [|r l IH]; intros c Hc Hl; [done|]. apply Forall_cons in Hl as [Hr Hl]. apply IH; [|done].
  apply Forall_app. split; [done|]. by constructor.
Qed.

Definition forward (s : nat) (c : cmd (nat * nat)) (s' : nat) : Prop := (s <= s' <= len)%nat /\ all_whole c.

(** With four units of fuel per character that is left the parsers return. *)
Lemma parse_moves k : forall s, (s <= len)%nat ->
  ((4 * (len - s) + 4 <= k)%nat -> moves (parseline buf k) s (forward s)) /\
  ((4 * (len - s) + 3 <= k)%nat -> moves (parsepipe buf k) s (forward s)) /\
  ((4 * (len - s) + 2 <= k)%nat -> moves (parseexec buf k) s (forward s)) /\
  ((4 * (len - s) + 1 <= k)%nat -> moves (parseblock buf k) s (forward s)).
Proof.
  induction k as [|k IH]; intros s Hs; [split_and!; intros; lia|]. destruct (IH s Hs) as (_ & Ipipe & Iexec & Iblock).
  assert (forall s' (Q : cmd (nat * nat) -> nat -> Prop), (s < s' <= len)%nat -> (4 * (len - s) <= k)%nat ->
    (forall c s'', (s' <= s'' <= len)%nat -> all_whole c -> Q c s'') -> moves (parseline buf k) s' Q) as Hline.
  { intros s' Q Hs' Hk HQ. eapply moves_mono; [apply (IH s'); lia|]. intros c s'' [H1 H2]. by apply HQ. }
  assert (forall c c' s', all_whole c -> all_whole c' -> (s <= s' <= len)%nat -> forward s (List c c') s' /\ forward s (Pipe c c') s') as Hpair.
  { intros c c' s' H1 H2 H3. split; (split; [done|]); by apply Forall_app. }
  split_and!; intros Hk; cbn [parseline parsepipe parseexec parseblock].
  - apply moves_bind. eapply moves_mono; [apply Ipipe; lia|]. intros c s1 [H1 W1].
    apply moves_bind, parseback_moves; [lia|lia|]. intros c' s2 H2 E2. assert (all_whole c') as W2 by (unfold all_whole; by rewrite E2).
    apply token_moves; [lia|..].
    + intros s3 H3. apply moves_bind, Hline; [lia|lia|]. intros c2 s4 H4 W4. apply Hpair; [done|done|lia].
    + intros s3 H3. split; [lia|done].
  - apply moves_bind. eapply moves_mono; [apply Iexec; lia|]. intros c s1 [H1 W1]. apply token_moves; [lia|..].
    + intros s2 H2. apply moves_bind. eapply moves_mono; [apply (IH s2); lia|]. intros c2 s3 [H3 W3]. apply Hpair; [done|done|lia].
    + intros s3 H3. split; [lia|done].
  - apply moves_bind, peek_moves; [done|]. intros [] s1 H1 Hb.
    + eapply moves_mono; [apply (IH s1); lia|]. intros c s2 [H2 W2]. split; [lia|done].
    + apply moves_bind, parseredirs_moves; [lia|lia|]. intros l s2 H2 Hl. apply moves_bind, parseargs_moves; [lia|lia|].
      intros r s3 H3 Hr1 Hr2. split; [lia|]. apply wrap_whole; [done|by apply Forall_app].
  - apply moves_bind, peek_moves; [done|]. intros [] s1 H1 Hb; [|done]. destruct (Hb eq_refl) as (G2 & G3 & G4 & G5). cbn [negb].
    apply moves_bind, gettoken_moves; [lia|]. intros t q eq s2 G6 G7 G8 _. specialize (G8 ltac:(right; by rewrite G4)).
    apply moves_bind, Hline; [lia|lia|]. intros c s3 H3 W3. apply moves_bind, peek_moves; [lia|]. intros [] s4 H4 _; [|done]. cbn [negb].
    apply moves_bind, gettoken_moves; [lia|]. intros t' q' eq' s5 G9 G10 _ _. apply moves_bind, parseredirs_moves; [lia|lia|].
    intros l s6 H6 Hl. split; [lia|]. by apply wrap_whole.
Qed.

End steps.

Lemma parsecmd_moves buf : match parsecmd buf with
  | Ok (c, buf') s => all_whole buf c /\ buf' = nulterminate c buf
  | Panics _ => True
  | Spent => False
  end.
Proof.
  assert (moves (c ← parseline buf (4 * length buf + 4); _ ← peek buf []; finish buf c) O
    (fun r _ => all_whole buf (fst r) /\ snd r = nulterminate (fst r) buf)) as H.
  { apply moves_bind. eapply moves_mono; [apply (parse_moves buf); lia|]. intros c s [Hs W].
    apply moves_bind, peek_moves; [lia|]. intros b s' _ _. unfold moves, finish. by destruct (negb _). }
  unfold moves in H. fold (parsecmd buf) in H. by destruct (parsecmd buf) as [[c b] s| |].
Qed.

(** C35: the parser of the shell ends on every line: [parsecmd] returns a command
    or reports a syntax error. *)
Theorem parsecmd_terminates buf : parsecmd buf <> Spent.
Proof. pose proof (parsecmd_moves buf) as H. by destruct (parsecmd buf). Qed.

(** ** The words of a parsed command *)

(** The bytes between the two pointers of a word, and the C string at an offset. *)
Definition word (buf : list Z) (w : nat * nat) : list Z := take (snd w - fst w) (drop (fst w) buf).
Definition nonzero (c : Z) : bool := negb (c =? 0).
Definition cstr (buf : list Z) (q : nat) : list Z := take (span nonzero (drop q buf)) (drop q buf).

(** [nulterminate] writes a NUL at the end of each word. *)
Lemma nul_at (buf : list Z) j i : (<[j := 0]> buf : list Z) !! i = if decide (i = j) then (fun _ => 0) <$> buf !! i else buf !! i.
Proof.
  destruct (decide (i = j)) as [->|N]; [|by rewrite list_lookup_insert_ne].
  destruct (decide (j < length buf)%nat) as [H|H].
  - rewrite list_lookup_insert_eq by done. by destruct (lookup_lt_is_Some_2 buf j H) as [x ->].
  - rewrite list_insert_ge by lia. by rewrite lookup_ge_None_2 by lia.
Qed.

Lemma nulterminate_spec c : forall buf i,
  nulterminate c buf !! i = if decide (i ∈ map snd (words c)) then (fun _ => 0) <$> buf !! i else buf !! i.
Proof.
  assert (forall (buf : list Z) i (l1 l2 : list nat), (if decide (i ∈ l2) then (fun _ : Z => 0) <$> (if decide (i ∈ l1) then (fun _ => 0) <$> buf !! i else buf !! i)
    else if decide (i ∈ l1) then (fun _ => 0) <$> buf !! i else buf !! i) = if decide (i ∈ l1 ++ l2) then (fun _ => 0) <$> buf !! i else buf !! i) as Happ.
  { intros buf i l1 l2. pose proof (elem_of_app l1 l2 i). repeat case_decide; try tauto; by destruct (buf !! i). }
  induction c as [argv|c IH w mode fd|l IHl r IHr|l IHl r IHr|c IH]; intros buf i; cbn [nulterminate words].
  - revert buf. induction argv as [|w l IH]; intros buf; cbn [foldl map].
    + rewrite decide_False; [done|apply not_elem_of_nil].
    + rewrite IH, nul_at. change (snd w :: map snd l) with ([snd w] ++ map snd l). rewrite <- (Happ buf i [snd w]). pose proof (list_elem_of_singleton i (snd w)). repeat case_decide; tauto || done.
  - rewrite nul_at, IH, map_app, <- Happ. pose proof (list_elem_of_singleton i (snd w)). cbn [map]. repeat case_decide; tauto || done.
  - by rewrite IHr, IHl, map_app, <- Happ.
  - by rewrite IHr, IHl, map_app, <- Happ.
  - apply IH.
Qed.

Lemma span_at f l i c : (i < span f l)%nat -> l !! i = Some c -> f c = true.
Proof.
  revert i. induction l as [|x l IH]; intros i; cbn; [lia|]. destruct (f x) eqn:E; [|lia]. destruct i as [|i]; cbn; [congruence|]. intros. apply (IH i); [lia|done].
Qed.
Lemma span_end f l c : l !! span f l = Some c -> f c = false.
Proof. induction l as [|x l IH]; cbn; [done|]. destruct (f x) eqn:E; cbn; [done|congruence]. Qed.
Lemma span_unique f l n : (n <= length l)%nat -> (forall i c, (i < n)%nat -> l !! i = Some c -> f c = true) -> (forall c, l !! n = Some c -> f c = false) -> span f l = n.
Proof.
  revert n. induction l as [|x l IH]; intros n Hn H1 H2; cbn in *; [lia|]. destruct n as [|n]; [by rewrite (H2 x eq_refl)|].
  rewrite (H1 O x ltac:(lia) eq_refl). f_equal. apply IH; [lia| |done]. intros i c Hi. apply (H1 (S i)). lia.
Qed.

Lemma cstr_word buf c w : Forall (fun x => x <> 0) buf -> all_whole buf c -> w ∈ words c -> cstr (nulterminate c buf) (fst w) = word buf w.
Proof.
  intros H0 Hc Hw. pose proof Hc as Hc'. unfold all_whole in Hc'. rewrite Forall_forall in Hc'. destruct (Hc' w Hw) as [E1 E2].
  set (n := span is_word (drop (fst w) buf)) in *. assert (n <= length (drop (fst w) buf))%nat as Hn by apply span_le.
  set (buf' := nulterminate c buf). assert (forall j, is_Some (buf' !! j) <-> is_Some (buf !! j)) as Hs.
  { intros j. unfold buf'. rewrite nulterminate_spec. case_decide; by rewrite ?fmap_is_Some. }
  assert (length buf' = length buf) as El.
  { apply Nat.le_antisymm; apply Nat.nlt_ge; intros H; [apply lookup_lt_is_Some_2, Hs in H|apply lookup_lt_is_Some_2, Hs in H]; apply lookup_lt_is_Some_1 in H; lia. }
  assert (forall i, (i < n)%nat -> drop (fst w) buf' !! i = drop (fst w) buf !! i) as Hin.
  { intros i Hi. rewrite !lookup_drop. unfold buf'. rewrite nulterminate_spec. case_decide as Hd; [|done]. exfalso.
    apply list_elem_of_fmap in Hd as (v & Ev & Hv). destruct (Hc' v Hv) as [V1 V2]. 
    destruct (lookup_lt_is_Some_2 (drop (fst w) buf) i) as [x Hx]; [lia|]. pose proof (span_at is_word _ i x Hi Hx) as Hx1.
    rewrite lookup_drop, Ev, V1, <- lookup_drop in Hx. apply span_end in Hx. congruence. }
  unfold cstr, word. replace (snd w - fst w)%nat with n by lia. replace (span nonzero (drop (fst w) buf')) with n.
  - apply list_eq. intros i. destruct (decide (i < n)%nat) as [Hi|Hi]; [by rewrite !lookup_take_lt, Hin|].
    rewrite !lookup_take_ge by lia. done.
  - symmetry. apply span_unique; [rewrite !length_drop in *; lia| |].
    + intros i x Hi Hx. rewrite Hin in Hx by done. rewrite lookup_drop in Hx. apply list_elem_of_lookup_2 in Hx.
      rewrite Forall_forall in H0. specialize (H0 x Hx). unfold nonzero. by destruct (Z.eqb_spec x 0).
    + intros x Hx. rewrite lookup_drop in Hx. unfold buf' in Hx. rewrite nulterminate_spec, decide_True in Hx.
      * destruct (buf !! (fst w + n)%nat); [|done]. by injection Hx as <-.
      * rewrite <- E1. by apply list_elem_of_fmap_2.
Qed.

(** [nulterminate] ends every word of the command without damage to another:
    read as a C string from the line as [parsecmd] leaves it, each argument and
    file name is the bytes between the two pointers the parser kept of it. *)
Theorem parsecmd_words buf c buf' s : Forall (fun x => x <> 0) buf -> parsecmd buf = Ok (c, buf') s ->
  map (fun w => cstr buf' (fst w)) (words c) = map (word buf) (words c).
Proof.
  intros H0 E. pose proof (parsecmd_moves buf) as H. rewrite E in H. destruct H as [W ->].
  apply map_ext_in. intros w Hw. apply cstr_word; [done|done|]. by apply list_elem_of_In.
Qed.
