(* ===== verification/ShPrint.v ===== *)
(** The parser of the shell against a printer of commands: every command is the
    result of parsing its printed form. *)

From stdpp Require Import base numbers list strings.
From S2P Require Import Xv6 Prelude Sh.

(** ** The printer *)

Fixpoint cmd_map {V W} (f : V -> W) (c : cmd V) : cmd W :=
  match c with
  | Exec argv => Exec (map f argv)
  | Redir c w mode fd => Redir (cmd_map f c) (f w) mode fd
  | Pipe l r => Pipe (cmd_map f l) (cmd_map f r)
  | List l r => List (cmd_map f l) (cmd_map f r)
  | Back c => Back (cmd_map f c)
  end.

Definition sp : Z := 32.
Definition show_word (w : list Z) : list Z := sp :: w.
Definition show_redir (r : list Z * Z * Z) : list Z := [sp; if snd r =? 0 then 60 else 62] ++ sp :: fst (fst r).
Definition paren (l : list Z) : list Z := [sp; 40] ++ l ++ [sp; 41].

(** A command as an operand of a redirection, of a pipe, of [&] and as a line:
    it is put in parentheses where the grammar wants a tighter one. *)
Record shown := Shown { se : list Z; sp_ : list Z; sb : list Z; sl : list Z }.
Fixpoint show (c : cmd (list Z)) : shown :=
  match c with
  | Exec argv => let e := concat (map show_word argv) in Shown e e e e
  | Redir c w mode fd => let e := se (show c) ++ show_redir (w, mode, fd) in Shown e e e e
  | Pipe l r => let p := se (show l) ++ [sp; 124] ++ sp_ (show r) in Shown (paren p) p p p
  | Back c => let b := sb (show c) ++ [sp; 38] in Shown (paren b) (paren b) b b
  | List l r => let t := sb (show l) ++ [sp; 59] ++ sl (show r) in Shown (paren t) (paren t) (paren t) t
  end.
Definition show_line (c : cmd (list Z)) : list Z := sl (show c).

(** Words are not empty and have no white space, no symbols and no NUL; a
    command has less than [MAXARGS] of them; files are opened for reading as
    descriptor 0 or for writing as descriptor 1. *)
Definition wf_word (w : list Z) : Prop := w <> [] /\ Forall (fun c => is_word c = true /\ c <> 0) w.
Definition wf_redir (r : list Z * Z * Z) : Prop :=
  wf_word (fst (fst r)) /\ (snd (fst r) = O_RDONLY /\ snd r = 0 \/ snd (fst r) = O_WRONLY_O_CREATE /\ snd r = 1).
Fixpoint wf_cmd (c : cmd (list Z)) : Prop :=
  match c with
  | Exec argv => Forall wf_word argv /\ (length argv < MAXARGS)%nat
  | Redir c w mode fd => wf_cmd c /\ wf_redir (w, mode, fd)
  | Pipe l r | List l r => wf_cmd l /\ wf_cmd r
  | Back c => wf_cmd c
  end.

(** ** Tokens *)

Section parse.
Context (buf : list Z).
#[local] Abbreviation len := (length buf).

Definition strip (l : list Z) : list Z := drop (span is_space l) l.
(** From [s] on the line is [l], up to leading white space. *)
Definition reads (s : nat) (l : list Z) : Prop := strip (drop s buf) = strip l /\ (s <= len)%nat.

Lemma strip_sp l : strip (sp :: l) = strip l.
Proof. done. Qed.
Lemma strip_other c l : is_space c = false -> strip (c :: l) = c :: l.
Proof. intros H. unfold strip. cbn [span]. by rewrite H. Qed.
Lemma strip_idem l : strip (strip l) = strip l.
Proof. unfold strip. by rewrite span_drop. Qed.

Lemma drop_skip s : drop (skip_spaces buf s) buf = strip (drop s buf).
Proof. unfold skip_spaces, strip. by rewrite drop_drop. Qed.

Lemma reads_skip s l : reads s l -> reads (skip_spaces buf s) l /\ (s <= skip_spaces buf s)%nat.
Proof.
  intros [H1 H2]. pose proof (skip_spaces_le buf s H2). split; [|lia]. split; [|lia]. rewrite drop_skip, strip_idem. done.
Qed.

(** The first character after white space. *)
Definition next (l : list Z) : Z := match strip l with c :: _ => c | [] => 0 end.

Lemma chr_next s l : reads s l -> chr buf (skip_spaces buf s) = next l.
Proof.
  intros [H _]. unfold chr, next. rewrite <- H, <- drop_skip. rewrite <- (Nat.add_0_r (skip_spaces buf s)) at 1. rewrite <- lookup_drop.
  by destruct (drop (skip_spaces buf s) buf).
Qed.

Lemma peek_reads toks s l : reads s l -> exists s', peek buf toks s = Ok (negb (next l =? 0) && among toks (next l)) s' /\ reads s' l /\ (s <= s')%nat.
Proof.
  intros H. destruct (reads_skip s l H) as [H1 H2]. exists (skip_spaces buf s). split; [|done]. unfold peek. by rewrite (chr_next s l H).
Qed.

(** A token of [n] characters of the line. *)
Lemma token_reads s l t n rest : reads s l -> strip l = t ++ rest -> length t = n -> 
  let q := skip_spaces buf s in
  word buf (q, (q + n)%nat) = t /\ reads (skip_spaces buf (q + n)) rest /\ (s + n <= skip_spaces buf (q + n))%nat.
Proof.
  intros H E Hn q. pose proof H as [H1 H2]. pose proof (skip_spaces_le buf s H2) as Hq. fold q in Hq.
  assert (drop q buf = t ++ rest) as Ed by (unfold q; by rewrite drop_skip, H1, E).
  assert (reads (q + n) rest) as Hr.
  { split; [by rewrite <- drop_drop, Ed, drop_app_length'|]. apply (f_equal length) in Ed. rewrite length_drop, length_app in Ed. lia. }
  destruct (reads_skip _ _ Hr) as [H3 H4]. split; [|split; [done|lia]].
  unfold word. cbn [fst snd]. rewrite Ed. replace (q + n - q)%nat with n by lia. by rewrite take_app_length'.
Qed.

(** The one-character tokens. *)
Lemma gettoken_symbol s c l : reads s (sp :: c :: l) -> among [124; 40; 41; 59; 38; 60] c = true ->
  exists w s', gettoken buf s = Ok (c, w) s' /\ reads s' l /\ (s < s')%nat.
Proof.
  intros H Hc. assert (is_space c = false /\ c <> 0) as [Hs H0].
  { unfold among in Hc. cbn in Hc. unfold is_space, among. cbn.
    repeat (apply orb_prop in Hc as [->%Z.eqb_eq|Hc]; [done|]). done. }
  pose proof (chr_next s _ H) as Hn. unfold next in Hn. rewrite strip_sp, (strip_other _ _ Hs) in Hn.
  destruct (token_reads s _ [c] 1 l H ltac:(rewrite strip_sp, strip_other by done; done) eq_refl) as (_ & R & L).
  unfold gettoken. rewrite Hn. destruct (Z.eqb_spec c 0); [done|]. rewrite Hc. rewrite (Nat.add_1_r (skip_spaces buf s)) in R, L. eexists _, _. split; [done|]. split; [done|lia].
Qed.

Lemma gettoken_greater s l : reads s (sp :: 62 :: sp :: l) -> exists w s', gettoken buf s = Ok (62, w) s' /\ reads s' (sp :: l) /\ (s < s')%nat.
Proof.
  intros H. pose proof (chr_next s _ H) as Hn. change (next _) with 62 in Hn.
  destruct (token_reads s _ [62] 1 (sp :: l) H eq_refl eq_refl) as (_ & R & L).
  destruct (token_reads s _ [62; sp] 2 l H eq_refl eq_refl) as (W & _ & _).
  assert (chr buf (S (skip_spaces buf s)) = sp) as H2.
  { unfold word in W. cbn [fst snd] in W. unfold chr. replace (S (skip_spaces buf s)) with (skip_spaces buf s + 1)%nat by lia.
    rewrite <- lookup_drop. replace (skip_spaces buf s + 2 - skip_spaces buf s)%nat with 2%nat in W by lia.
    destruct (drop (skip_spaces buf s) buf) as [|a [|b d]]; try done. by injection W as -> ->. }
  unfold gettoken. rewrite Hn, H2. unfold sp. cbn [Z.eqb Pos.eqb among existsb orb]. rewrite (Nat.add_1_r (skip_spaces buf s)) in R, L. eexists _, _. split; [done|]. split; [done|lia].
Qed.

Lemma span_prefix f w l : Forall (fun c => f c = true) w -> match l with [] => True | c :: _ => f c = false end -> span f (w ++ l) = length w.
Proof.
  induction w as [|c w IH]; cbn; intros Hw Hl.
  - destruct l as [|c l]; [done|]. cbn. by rewrite Hl.
  - apply Forall_cons in Hw as [-> Hw]. by rewrite IH.
Qed.

(** Text after which a word ends. *)
Definition gap (l : list Z) : Prop := l = [] \/ exists l', l = sp :: l'.

Lemma gettoken_word s w l : reads s (sp :: w ++ l) -> wf_word w -> gap l ->
  exists q eq s', gettoken buf s = Ok (97, (q, eq)) s' /\ word buf (q, eq) = w /\ reads s' l /\ (s < s')%nat.
Proof.
  intros H [Hne Hw] Hl. destruct w as [|c w]; [done|]. pose proof Hw as Hw'. apply Forall_cons in Hw' as [[Hc H0] _].
  assert (is_space c = false /\ among symbols c = false) as [Hs Hy].
  { unfold is_word in Hc. apply andb_prop in Hc as [H1%negb_true_iff H2%negb_true_iff]. done. }
  assert (strip (sp :: (c :: w) ++ l) = (c :: w) ++ l) as Es by (rewrite strip_sp; by apply strip_other).
  pose proof (chr_next s _ H) as Hn. unfold next in Hn. rewrite Es in Hn. cbn [app] in Hn.
  destruct (token_reads s _ (c :: w) (length (c :: w)) l H Es eq_refl) as (W & R & L).
  assert (span is_word (drop (skip_spaces buf s) buf) = length (c :: w)) as Esp.
  { destruct H as [H _]. rewrite drop_skip, H, Es. apply span_prefix; [eapply Forall_impl; [exact Hw|]; by intros x [? _]|].
    destruct Hl as [->|(l' & ->)]; done. }
  unfold gettoken. rewrite Hn, Esp. destruct (Z.eqb_spec c 0); [done|]. cbn in Hy.
  assert (among [124; 40; 41; 59; 38; 60] c = false /\ (c =? 62) = false) as [-> ->].
  { cbn. destruct (c =? 60), (c =? 124), (c =? 62), (c =? 38), (c =? 59), (c =? 40), (c =? 41); try done. }
  eexists _, _, _. split; [done|]. split; [done|]. split; [done|]. assert (0 < length (c :: w))%nat by (cbn; lia). lia.
Qed.

Lemma gettoken_end s l : reads s l -> strip l = [] -> exists w s', gettoken buf s = Ok (0, w) s' /\ reads s' l /\ (s <= s')%nat.
Proof.
  intros H E. pose proof (chr_next s _ H) as Hn. unfold next in Hn. rewrite E in Hn. destruct (reads_skip _ _ H) as [R L].
  destruct (reads_skip _ _ R) as [R' L']. unfold gettoken. rewrite Hn. eexists _, _. split; [done|]. split; [done|lia].
Qed.

(** ** Redirections and arguments *)

Definition shown_redir (r : redir) : list Z * Z * Z := (word buf (fst (fst r)), snd (fst r), snd r).

(** The text is at its end or at one of the symbols of [toks]. *)
Definition follows (toks : list Z) (l : list Z) : Prop := l = [] \/ exists c l', l = sp :: c :: l' /\ among toks c = true.

Lemma follows_gap toks l : follows toks l -> gap l.
Proof. intros [->|(c & l' & -> & _)]; [by left|right; eauto]. Qed.

Lemma follows_next toks l : Forall (fun c => is_space c = false /\ c <> 0) toks -> follows toks l ->
  strip l = [] /\ next l = 0 \/ next l <> 0 /\ among toks (next l) = true.
Proof.
  intros Ht [->|(c & l' & -> & Hc)]; [by left|]. right. unfold next. rewrite strip_sp. apply existsb_exists in Hc as Hc'. destruct Hc' as (c' & Hin & ->%Z.eqb_eq).
  rewrite Forall_forall in Ht. destruct (Ht c' ltac:(by apply list_elem_of_In)) as [H1 H2]. by rewrite strip_other.
Qed.

(** The four symbols that end a simple command. *)
Definition ends : list Z := [124; 41; 38; 59].
Lemma ends_ok : Forall (fun c => is_space c = false /\ c <> 0) ends.
Proof. repeat constructor; done. Qed.

Lemma peek_false toks s l : reads s l -> next l = 0 \/ among toks (next l) = false -> exists s', peek buf toks s = Ok false s' /\ reads s' l /\ (s <= s')%nat.
Proof.
  intros H Hn. destruct (peek_reads toks s l H) as (s' & E & R). exists s'. split; [|done]. rewrite E. destruct Hn as [->| ->]; [done|]. by rewrite andb_false_r.
Qed.
Lemma peek_true toks s l : reads s l -> next l <> 0 -> among toks (next l) = true -> exists s', peek buf toks s = Ok true s' /\ reads s' l /\ (s <= s')%nat.
Proof.
  intros H Hn Ha. destruct (peek_reads toks s l H) as (s' & E & R). exists s'. split; [|done]. rewrite E, Ha. by destruct (Z.eqb_spec (next l) 0).
Qed.

Lemma bind_ok {A B} (m : parser A) (k : A -> parser B) s a s' : m s = Ok a s' -> (m ≫= k) s = k a s'.
Proof. unfold mbind, parser_bind. by intros ->. Qed.

Lemma parseredirs_shown rs : forall k s rest, reads s (concat (map show_redir rs) ++ rest) -> Forall wf_redir rs -> gap rest ->
  next rest = 0 \/ among [60; 62] (next rest) = false -> (len - s < k)%nat ->
  exists l s', parseredirs buf k s = Ok l s' /\ map shown_redir l = rs /\ reads s' rest /\ (s <= s')%nat.
Proof.
  induction rs as [|[[f mode] fd] rs IH]; intros k s rest H Hw Hg Hn Hk; (destruct k as [|k]; [lia|]); cbn [parseredirs].
  - destruct (peek_false [60; 62] s _ H Hn) as (s1 & E1 & R1 & L1). rewrite (bind_ok _ _ _ _ _ E1). exists [], s1. by split_and!.
  - apply Forall_cons in Hw as [[Hf Hm] Hw]. cbn [fst snd] in Hf, Hm. cbn [map concat] in H. unfold show_redir at 1 in H. cbn [fst snd] in H.
    set (c := if fd =? 0 then 60 else 62) in *. set (l := concat (map show_redir rs) ++ rest) in *.
    assert (([sp; c] ++ sp :: f) ++ concat (map show_redir rs) = sp :: c :: sp :: f ++ concat (map show_redir rs)) as El by done.
    rewrite El, <- app_comm_cons, <- app_comm_cons, <- app_comm_cons, <- app_assoc in H. fold l in H. clear El.
    assert (gap l) as Hgl. { unfold l. destruct rs as [|r rs]; [done|]. right. cbn [map concat]. unfold show_redir at 1. cbn. eauto. }
    assert (next (sp :: c :: sp :: f ++ l) = c) as Hc by (unfold next; rewrite strip_sp; unfold c; by destruct (fd =? 0)).
    destruct (peek_true [60; 62] s _ H) as (s1 & E1 & R1 & L1); [rewrite Hc; unfold c; by destruct (fd =? 0)..|].
    assert (exists w s2, gettoken buf s1 = Ok (c, w) s2 /\ reads s2 (sp :: f ++ l) /\ (s1 < s2)%nat) as (w & s2 & E2 & R2 & L2).
    { unfold c in *. destruct (fd =? 0); [by apply gettoken_symbol|by apply gettoken_greater]. }
    destruct (gettoken_word s2 f l R2 Hf Hgl) as (q & eq & s3 & E3 & W3 & R3 & L3).
    destruct (IH k s3 rest R3 Hw Hg Hn ltac:(pose proof (proj2 R3); lia)) as (l' & s4 & E4 & M4 & R4 & L4).
    rewrite (bind_ok _ _ _ _ _ E1), (bind_ok _ _ _ _ _ E2), (bind_ok _ _ _ _ _ E3). cbn [fst snd]. change (negb (97 =? 97)) with false.
    cbn iota. rewrite (bind_ok _ _ _ _ _ E4). eexists _, s4. split; [reflexivity|]. split; [|split; [done|lia]].
    cbn [map]. rewrite M4. f_equal. unfold shown_redir, c. destruct Hm as [[-> ->]|[-> ->]]; cbn [fst snd Z.eqb Pos.eqb]; by rewrite W3.
Qed.

Lemma next_word w l : wf_word w -> exists c, next (show_word w ++ l) = c /\ c <> 0 /\
  among [60; 62] c = false /\ among ends c = false /\ among [40] c = false.
Proof.
  intros [Hne Hw]. destruct w as [|c w]; [done|]. apply Forall_cons in Hw as [[Hc H0] _]. unfold is_word in Hc.
  apply andb_prop in Hc as [H1%negb_true_iff H2%negb_true_iff]. exists c. split; [unfold next, show_word; cbn [app]; by rewrite strip_sp, strip_other|].
  split; [done|]. cbn in H2 |- *. destruct (c =? 60), (c =? 124), (c =? 62), (c =? 38), (c =? 59), (c =? 40), (c =? 41); done.
Qed.

Lemma next_redir r l : next (show_redir r ++ l) = (if snd r =? 0 then 60 else 62).
Proof. unfold next, show_redir. cbn [app]. rewrite strip_sp. by destruct (snd r =? 0). Qed.

(** What follows a simple command is not part of it. *)
Lemma ends_next rest : follows ends rest -> (next rest = 0 \/ among [60; 62] (next rest) = false) /\ (next rest = 0 \/ among [40] (next rest) = false).
Proof.
  intros H. destruct (follows_next ends rest ends_ok H) as [[_ ->]|[_ Ha]]; [by split; left|]. cbn in Ha.
  repeat (apply orb_prop in Ha as [->%Z.eqb_eq|Ha]; [by split; right|]). done.
Qed.

Lemma words_gap argv l : gap l -> gap (concat (map show_word argv) ++ l).
Proof. destruct argv as [|w argv]; [done|]. intros _. right. cbn. eauto. Qed.
Lemma redirs_gap rs l : gap l -> gap (concat (map show_redir rs) ++ l).
Proof. destruct rs as [|r rs]; [done|]. intros _. right. cbn. eauto. Qed.

Lemma parseargs_shown argv : forall rs k argc s rest, (argv = [] -> rs = []) ->
  reads s (concat (map show_word argv) ++ concat (map show_redir rs) ++ rest) -> Forall wf_word argv -> Forall wf_redir rs ->
  follows ends rest -> (length argv + argc < MAXARGS)%nat -> (len - s < k)%nat ->
  exists r s', parseargs buf k argc s = Ok r s' /\ map (word buf) (fst r) = argv /\ map shown_redir (snd r) = rs /\ reads s' rest /\ (s <= s')%nat.
Proof.
  induction argv as [|w argv IH]; intros rs k argc s rest Hrs H Hw Hr Hf Hlen Hk; (destruct k as [|k]; [lia|]); cbn [parseargs].
  - rewrite (Hrs eq_refl) in *. cbn [map concat app] in H. destruct (follows_next ends rest ends_ok Hf) as [[Hs Hn]|[Hn Ha]].
    + destruct (peek_false ends s _ H ltac:(by left)) as (s1 & E1 & R1 & L1). destruct (gettoken_end s1 rest R1 Hs) as (t & s2 & E2 & R2 & L2).
      rewrite (bind_ok _ _ _ _ _ E1), (bind_ok _ _ _ _ _ E2). exists ([], []), s2. split_and!; try done. lia.
    + destruct (peek_true ends s _ H Hn Ha) as (s1 & E1 & R1 & L1). rewrite (bind_ok _ _ _ _ _ E1). exists ([], []), s1. by split_and!.
  - apply Forall_cons in Hw as [Hw0 Hw]. cbn [map concat] in H. rewrite <- app_assoc in H. cbn [length] in Hlen.
    set (l := concat (map show_word argv) ++ concat (map show_redir rs) ++ rest) in *.
    destruct (next_word w l Hw0) as (c & Hc & _ & _ & Hc2 & _). destruct (peek_false ends s _ H ltac:(right; by rewrite Hc)) as (s1 & E1 & R1 & L1).
    assert (gap l) as Hg by (apply words_gap, redirs_gap; by eapply follows_gap).
    destruct (gettoken_word s1 w l R1 Hw0 Hg) as (q & eq & s2 & E2 & W2 & R2 & L2). pose proof (proj2 R2) as B2.
    rewrite (bind_ok _ _ _ _ _ E1), (bind_ok _ _ _ _ _ E2). cbn [fst snd]. change (97 =? 0) with false. change (97 =? 97) with true. cbn iota beta.
    destruct (Nat.leb_spec MAXARGS (S argc)); [lia|]. cbn [negb].
    assert (exists rs1 rs2 l1 s3, rs = rs1 ++ rs2 /\ (argv = [] -> rs2 = []) /\ parseredirs buf k s2 = Ok l1 s3 /\ map shown_redir l1 = rs1 /\
      reads s3 (concat (map show_word argv) ++ concat (map show_redir rs2) ++ rest) /\ (s2 <= s3)%nat) as (rs1 & rs2 & l1 & s3 & -> & Hrs2 & E3 & M3 & R3 & L3).
    { destruct argv as [|w' argv].
      - destruct (parseredirs_shown rs k s2 rest R2 Hr ltac:(by eapply follows_gap) (proj1 (ends_next rest Hf)) ltac:(lia)) as (l1 & s3 & E3 & M3 & R3 & L3).
        exists rs, [], l1, s3. rewrite app_nil_r. by split_and!.
      - apply Forall_cons in Hw as [Hw1 _]. cbn [map concat] in l. unfold l in R2. rewrite <- app_assoc in R2.
        destruct (next_word w' (concat (map show_word argv) ++ concat (map show_redir rs) ++ rest) Hw1) as (c' & Hc' & _ & Hc1 & _).
        destruct (parseredirs_shown [] k s2 _ R2 ltac:(constructor) ltac:(right; cbn; eauto) ltac:(right; by rewrite Hc') ltac:(lia)) as (l1 & s3 & E3 & M3 & R3 & L3).
        exists [], rs, l1, s3. split_and!; try done. cbn [map concat]. by rewrite <- app_assoc. }
    apply Forall_app in Hr as [_ Hr]. pose proof (proj2 R3) as B3.
    destruct (IH rs2 k (S argc) s3 rest Hrs2 R3 Hw Hr Hf ltac:(lia) ltac:(lia)) as ([args rs'] & s4 & E4 & M4 & N4 & R4 & L4).
    rewrite (bind_ok _ _ _ _ _ E3), (bind_ok _ _ _ _ _ E4). cbn [fst snd] in *. eexists _, s4. split; [reflexivity|]. cbn [fst snd map].
    rewrite map_app, W2, M3, M4, N4. split_and!; try done. lia.
Qed.

(** ** Commands *)

Lemma cmd_map_wrap l : forall c, cmd_map (word buf) (wrap c l) = wrap (cmd_map (word buf) c) (map shown_redir l).
Proof. induction l as [|r l IH]; intros c; [done|]. apply IH. Qed.

(** [p] reads [c] from [s] and stops in front of [rest]. *)
Definition parsed (p : parser (cmd (nat * nat))) (s : nat) (c : cmd (list Z)) (rest : list Z) : Prop :=
  exists c' s', p s = Ok c' s' /\ cmd_map (word buf) c' = c /\ reads s' rest /\ (s <= s')%nat.

Lemma parseexec_simple argv rs k s rest : reads s (concat (map show_word argv) ++ concat (map show_redir rs) ++ rest) ->
  Forall wf_word argv -> (length argv < MAXARGS)%nat -> Forall wf_redir rs -> follows ends rest -> (4 * (len - s) + 2 <= k)%nat ->
  parsed (parseexec buf k) s (wrap (Exec argv) rs) rest.
Proof.
  intros H Hw Hlen Hr Hf Hk. destruct k as [|k]; [lia|]. unfold parsed. cbn [parseexec]. destruct (ends_next rest Hf) as [He1 He2].
  assert (exists s1, peek buf [40] s = Ok false s1 /\ reads s1 (concat (map show_word argv) ++ concat (map show_redir rs) ++ rest) /\ (s <= s1)%nat)
    as (s1 & E1 & R1 & L1).
  { apply peek_false; [done|]. destruct argv as [|w argv].
    - destruct rs as [|r rs]; [done|]. right. cbn [map concat app]. rewrite <- app_assoc, next_redir. by destruct (snd r =? 0).
    - apply Forall_cons in Hw as [Hw _]. cbn [map concat]. rewrite <- app_assoc. destruct (next_word w (concat (map show_word argv) ++ concat (map show_redir rs) ++ rest) Hw) as (c & -> & _ & _ & _ & Hc). by right. }
  rewrite (bind_ok _ _ _ _ _ E1). cbn iota. pose proof (proj2 R1) as B1.
  assert (exists rs1 rs2 l1 s3, rs = rs1 ++ rs2 /\ (argv = [] -> rs2 = []) /\ parseredirs buf k s1 = Ok l1 s3 /\ map shown_redir l1 = rs1 /\
      reads s3 (concat (map show_word argv) ++ concat (map show_redir rs2) ++ rest) /\ (s1 <= s3)%nat) as (rs1 & rs2 & l1 & s3 & -> & Hrs2 & E3 & M3 & R3 & L3).
  { destruct argv as [|w argv].
    - destruct (parseredirs_shown rs k s1 rest R1 Hr ltac:(by eapply follows_gap) He1 ltac:(lia)) as (l1 & s3 & E3 & M3 & R3 & L3).
      exists rs, [], l1, s3. rewrite app_nil_r. by split_and!.
    - apply Forall_cons in Hw as [Hw _]. destruct (next_word w (concat (map show_word argv) ++ concat (map show_redir rs) ++ rest) Hw) as (c & Hc & _ & Hc1 & _).
      cbn [map concat] in R1 |- *. rewrite <- app_assoc in R1.
      destruct (parseredirs_shown [] k s1 _ R1 ltac:(constructor) ltac:(right; cbn; eauto) ltac:(right; by rewrite Hc) ltac:(lia)) as (l1 & s3 & E3 & M3 & R3 & L3).
      exists [], rs, l1, s3. split_and!; try done. by rewrite <- app_assoc. }
  apply Forall_app in Hr as [_ Hr]. pose proof (proj2 R3) as B3.
  destruct (parseargs_shown argv rs2 k 0 s3 rest Hrs2 R3 Hw Hr Hf ltac:(lia) ltac:(lia)) as (r & s4 & E4 & M4 & N4 & R4 & L4).
  rewrite (bind_ok _ _ _ _ _ E3), (bind_ok _ _ _ _ _ E4). eexists _, s4. split; [reflexivity|]. split; [|split; [done|lia]].
  rewrite cmd_map_wrap, map_app. cbn [cmd_map]. by rewrite <- M3, <- N4, <- M4.
Qed.

Definition exec_ok (c : cmd (list Z)) : Prop := forall rs k s rest, Forall wf_redir rs -> follows ends rest ->
  reads s (se (show c) ++ concat (map show_redir rs) ++ rest) -> (4 * (len - s) + 2 <= k)%nat -> parsed (parseexec buf k) s (wrap c rs) rest.
Definition pipe_ok (c : cmd (list Z)) : Prop := forall k s rest, follows [41; 38; 59] rest ->
  reads s (sp_ (show c) ++ rest) -> (4 * (len - s) + 3 <= k)%nat -> parsed (parsepipe buf k) s c rest.
(** ... up to the symbols [&] that are left. *)
Definition back_ok (c : cmd (list Z)) : Prop := forall k s rest, follows [41; 38; 59] rest ->
  reads s (sb (show c) ++ rest) -> (4 * (len - s) + 3 <= k)%nat ->
  exists c1 s1, parsepipe buf k s = Ok c1 s1 /\ (s <= s1 <= len)%nat /\
    forall k1, (len - s1 < k1)%nat -> exists c' k2 s2, parseback buf k1 c1 s1 = parseback buf k2 c' s2 /\
      cmd_map (word buf) c' = c /\ reads s2 rest /\ (s1 <= s2)%nat /\ (len - s2 < k2)%nat.
Definition line_ok (c : cmd (list Z)) : Prop := forall k s rest, follows [41] rest ->
  reads s (sl (show c) ++ rest) -> (4 * (len - s) + 4 <= k)%nat -> parsed (parseline buf k) s c rest.

Lemma follows_weaken toks toks' l : (forall c, among toks c = true -> among toks' c = true) -> follows toks l -> follows toks' l.
Proof. intros H [->|(c & l' & -> & Hc)]; [by left|]. right. eauto 10. Qed.

Lemma follows_not toks t l : Forall (fun c => is_space c = false /\ c <> 0) toks -> (forall c, among toks c = true -> among t c = false) ->
  follows toks l -> next l = 0 \/ among t (next l) = false.
Proof. intros Ht H Hf. destruct (follows_next toks l Ht Hf) as [[_ ->]|[_ Ha]]; [by left|]. right. by apply H. Qed.

Ltac symbols_tac := let H := fresh in intros ? H; cbn in H; repeat (apply orb_prop in H as [->%Z.eqb_eq|H]; [done|]); done.

Lemma exec_pipe c : sp_ (show c) = se (show c) -> exec_ok c -> pipe_ok c.
Proof.
  intros Es HE k s rest Hf H Hk. destruct k as [|k]; [lia|]. rewrite Es in H.
  destruct (HE [] k s rest ltac:(constructor) ltac:(eapply follows_weaken; [|exact Hf]; symbols_tac) H ltac:(lia)) as (c1 & s1 & E1 & M1 & R1 & L1).
  destruct (peek_false [124] s1 rest R1 ltac:(eapply follows_not; [| |exact Hf]; [repeat constructor; done|symbols_tac])) as (s2 & E2 & R2 & L2).
  unfold parsed. cbn [parsepipe]. rewrite (bind_ok _ _ _ _ _ E1), (bind_ok _ _ _ _ _ E2). exists c1, s2. split_and!; try done. lia.
Qed.

Lemma pipe_back c : sb (show c) = sp_ (show c) -> pipe_ok c -> back_ok c.
Proof.
  intros Es HP k s rest Hf H Hk. rewrite Es in H. destruct (HP k s rest Hf H Hk) as (c1 & s1 & E1 & M1 & R1 & L1). pose proof (proj2 R1).
  exists c1, s1. split; [done|]. split; [lia|]. intros k1 Hk1. exists c1, k1, s1. by split_and!.
Qed.

(** The end of the loop over [&]. *)
Lemma parseback_stop k c s rest : reads s rest -> follows [41; 59] rest -> (len - s < k)%nat ->
  exists s', parseback buf k c s = Ok c s' /\ reads s' rest /\ (s <= s')%nat.
Proof.
  intros R Hf Hk. destruct k as [|k]; [lia|]. cbn [parseback].
  destruct (peek_false [38] s rest R ltac:(eapply follows_not; [| |exact Hf]; [repeat constructor; done|symbols_tac])) as (s2 & E2 & R2 & L2).
  rewrite (bind_ok _ _ _ _ _ E2). by exists s2.
Qed.

Lemma back_line c : sl (show c) = sb (show c) -> back_ok c -> line_ok c.
Proof.
  intros Es HB k s rest Hf H Hk. destruct k as [|k]; [lia|]. rewrite Es in H.
  destruct (HB k s rest ltac:(eapply follows_weaken; [|exact Hf]; symbols_tac) H ltac:(lia)) as (c1 & s1 & E1 & L1 & HB1).
  destruct (HB1 k ltac:(lia)) as (c' & k2 & s2 & E2 & M2 & R2 & L2 & K2).
  destruct (parseback_stop k2 c' s2 rest R2 ltac:(eapply follows_weaken; [|exact Hf]; symbols_tac) K2) as (s3 & E3 & R3 & L3).
  destruct (peek_false [59] s3 rest R3 ltac:(eapply follows_not; [| |exact Hf]; [repeat constructor; done|symbols_tac])) as (s4 & E4 & R4 & L4).
  unfold parsed. cbn [parseline]. rewrite E3 in E2. rewrite (bind_ok _ _ _ _ _ E1), (bind_ok _ _ _ _ _ E2), (bind_ok _ _ _ _ _ E4).
  exists c', s4. split_and!; try done. lia.
Qed.

(** A line in parentheses. *)
Lemma line_exec c : se (show c) = paren (sl (show c)) -> line_ok c -> exec_ok c.
Proof.
  intros Es HL rs k s rest Hr Hf H Hk. destruct k as [|[|k]]; [lia|lia|]. rewrite Es in H. unfold paren in H. rewrite <- !app_assoc in H. cbn [app] in H.
  set (l := sl (show c) ++ sp :: 41 :: concat (map show_redir rs) ++ rest) in *.
  destruct (peek_true [40] s _ H ltac:(done) ltac:(done)) as (s1 & E1 & R1 & L1). destruct (peek_true [40] s1 _ R1 ltac:(done) ltac:(done)) as (s2 & E2 & R2 & L2).
  destruct (gettoken_symbol s2 40 l R2 ltac:(done)) as (w3 & s3 & E3 & R3 & L3). pose proof (proj2 R3) as B3.
  destruct (HL k s3 (sp :: 41 :: concat (map show_redir rs) ++ rest) ltac:(right; eauto) R3 ltac:(lia)) as (c' & s4 & E4 & M4 & R4 & L4).
  destruct (peek_true [41] s4 _ R4 ltac:(done) ltac:(done)) as (s5 & E5 & R5 & L5).
  destruct (gettoken_symbol s5 41 _ R5 ltac:(done)) as (w6 & s6 & E6 & R6 & L6). pose proof (proj2 R6) as B6.
  destruct (parseredirs_shown rs k s6 rest R6 Hr ltac:(by eapply follows_gap) (proj1 (ends_next rest Hf)) ltac:(lia)) as (l7 & s7 & E7 & M7 & R7 & L7).
  unfold parsed. cbn [parseexec]. rewrite (bind_ok _ _ _ _ _ E1). cbn iota. cbn [parseblock].
  rewrite (bind_ok _ _ _ _ _ E2). cbn [negb]. rewrite (bind_ok _ _ _ _ _ E3), (bind_ok _ _ _ _ _ E4), (bind_ok _ _ _ _ _ E5). cbn [negb].
  rewrite (bind_ok _ _ _ _ _ E6), (bind_ok _ _ _ _ _ E7). eexists _, s7. split; [reflexivity|]. split; [|split; [done|lia]].
  by rewrite cmd_map_wrap, M4, M7.
Qed.

Lemma show_parses c : wf_cmd c -> exec_ok c /\ pipe_ok c /\ back_ok c /\ line_ok c.
Proof.
  induction c as [argv|c IH w mode fd|a IHa b IHb|a IHa b IHb|a IHa]; cbn [wf_cmd]; intros Hw.
  - assert (exec_ok (Exec argv)) as HE. { intros rs k s rest Hr Hf H Hk. destruct Hw. by apply parseexec_simple. }
    pose proof (exec_pipe (Exec argv) eq_refl HE) as HP. pose proof (pipe_back (Exec argv) eq_refl HP) as HB. pose proof (back_line (Exec argv) eq_refl HB). done.
  - destruct Hw as [Hc Hr0]. destruct (IH Hc) as (IE & _).
    assert (exec_ok (Redir c w mode fd)) as HE.
    { intros rs k s rest Hr Hf H Hk. apply (IE ((w, mode, fd) :: rs) k s rest); [by constructor|done| |done]. cbn [show se map concat] in H |- *.
      by rewrite <- !app_assoc in H |- *. }
    pose proof (exec_pipe (Redir c w mode fd) eq_refl HE) as HP. pose proof (pipe_back (Redir c w mode fd) eq_refl HP) as HB. pose proof (back_line (Redir c w mode fd) eq_refl HB). done.
  - destruct Hw as [Ha Hb]. destruct (IHa Ha) as (Ea & _). destruct (IHb Hb) as (_ & Pb & _).
    assert (pipe_ok (Pipe a b)) as HP.
    { intros k s rest Hf H Hk. destruct k as [|k]; [lia|]. cbn [show sp_] in H. rewrite <- !app_assoc in H. cbn [app] in H.
      set (l := sp :: 124 :: sp_ (show b) ++ rest) in *.
      destruct (Ea [] k s l ltac:(constructor) ltac:(right; eauto) H ltac:(lia)) as (c1 & s1 & E1 & M1 & R1 & L1).
      destruct (peek_true [124] s1 l R1 ltac:(done) ltac:(done)) as (s2 & E2 & R2 & L2).
      destruct (gettoken_symbol s2 124 _ R2 ltac:(done)) as (w3 & s3 & E3 & R3 & L3). pose proof (proj2 R3) as B3.
      destruct (Pb k s3 rest Hf R3 ltac:(lia)) as (c4 & s4 & E4 & M4 & R4 & L4).
      unfold parsed. cbn [parsepipe]. rewrite (bind_ok _ _ _ _ _ E1), (bind_ok _ _ _ _ _ E2). cbn iota.
      rewrite (bind_ok _ _ _ _ _ E3), (bind_ok _ _ _ _ _ E4). eexists _, s4. split; [reflexivity|]. cbn [cmd_map]. rewrite M1, M4. split_and!; try done. lia. }
    pose proof (pipe_back (Pipe a b) eq_refl HP) as HB. pose proof (back_line (Pipe a b) eq_refl HB) as HL. pose proof (line_exec (Pipe a b) eq_refl HL). done.
  - destruct Hw as [Ha Hb]. destruct (IHa Ha) as (_ & _ & Ba & _). destruct (IHb Hb) as (_ & _ & _ & Lb).
    assert (line_ok (List a b)) as HL.
    { intros k s rest Hf H Hk. destruct k as [|k]; [lia|]. cbn [show sl] in H. rewrite <- !app_assoc in H. cbn [app] in H.
      set (l := sp :: 59 :: sl (show b) ++ rest) in *.
      destruct (Ba k s l ltac:(right; eauto) H ltac:(lia)) as (c1 & s1 & E1 & L1 & HB1).
      destruct (HB1 k ltac:(lia)) as (c' & k2 & s2 & E2 & M2 & R2 & L2 & K2).
      destruct (parseback_stop k2 c' s2 l R2 ltac:(right; eauto) K2) as (s3 & E3 & R3 & L3). rewrite E3 in E2.
      destruct (peek_true [59] s3 l R3 ltac:(done) ltac:(done)) as (s4 & E4 & R4 & L4).
      destruct (gettoken_symbol s4 59 _ R4 ltac:(done)) as (w5 & s5 & E5 & R5 & L5). pose proof (proj2 R5) as B5.
      destruct (Lb k s5 rest Hf R5 ltac:(lia)) as (c6 & s6 & E6 & M6 & R6 & L6).
      unfold parsed. cbn [parseline]. rewrite (bind_ok _ _ _ _ _ E1), (bind_ok _ _ _ _ _ E2), (bind_ok _ _ _ _ _ E4). cbn iota.
      rewrite (bind_ok _ _ _ _ _ E5), (bind_ok _ _ _ _ _ E6). eexists _, s6. split; [reflexivity|]. cbn [cmd_map]. rewrite M2, M6. split_and!; try done. lia. }
    pose proof (line_exec (List a b) eq_refl HL) as HE. pose proof (exec_pipe (List a b) eq_refl HE) as HP. pose proof (pipe_back (List a b) eq_refl HP). done.
  - destruct (IHa Hw) as (_ & _ & Ba & _).
    assert (back_ok (Back a)) as HB.
    { intros k s rest Hf H Hk. cbn [show sb] in H. rewrite <- app_assoc in H. cbn [app] in H.
      destruct (Ba k s (sp :: 38 :: rest) ltac:(right; eauto) H Hk) as (c1 & s1 & E1 & L1 & HB1). exists c1, s1. split; [done|]. split; [done|].
      intros k1 Hk1. destruct (HB1 k1 Hk1) as (c' & k2 & s2 & E2 & M2 & R2 & L2 & K2).
      destruct k2 as [|k2]; [lia|]. cbn [parseback] in E2. destruct (peek_true [38] s2 _ R2 ltac:(done) ltac:(done)) as (s3 & E3 & R3 & L3).
      destruct (gettoken_symbol s3 38 _ R3 ltac:(done)) as (w4 & s4 & E4 & R4 & L4). pose proof (proj2 R4) as B4.
      rewrite (bind_ok _ _ _ _ _ E3) in E2. cbn iota in E2. rewrite (bind_ok _ _ _ _ _ E4) in E2.
      exists (Back c'), k2, s4. split; [done|]. cbn [cmd_map]. rewrite M2. split_and!; try done; lia. }
    pose proof (back_line (Back a) eq_refl HB) as HL. pose proof (line_exec (Back a) eq_refl HL) as HE. pose proof (exec_pipe (Back a) eq_refl HE). done.
Qed.

End parse.

(** ** Lines *)

#[local] Abbreviation no_nul := (Forall (fun x : Z => x <> 0)).

Lemma no_nul_word w : wf_word w -> no_nul (show_word w).
Proof. intros [_ H]. constructor; [done|]. eapply Forall_impl; [exact H|]. by intros x [_ ?]. Qed.
Lemma no_nul_redir r : wf_redir r -> no_nul (show_redir r).
Proof. intros [[_ H] _]. unfold show_redir. constructor; [done|]. constructor; [by destruct (snd r =? 0)|]. constructor; [done|]. eapply Forall_impl; [exact H|]. by intros x [_ ?]. Qed.
Lemma no_nul_paren l : no_nul l -> no_nul (paren l).
Proof. intros H. unfold paren. apply Forall_app. split; [by repeat constructor|]. apply Forall_app. split; [done|by repeat constructor]. Qed.

Lemma show_no_nul c : wf_cmd c -> no_nul (se (show c)) /\ no_nul (sp_ (show c)) /\ no_nul (sb (show c)) /\ no_nul (sl (show c)).
Proof.
  assert (forall a b l, no_nul l -> a <> 0 -> b <> 0 -> no_nul ([a; b] ++ l)) as Htwo by (intros; by repeat constructor).
  induction c as [argv|c IH w mode fd|a IHa b IHb|a IHa b IHb|a IHa]; cbn [wf_cmd show se sp_ sb sl]; intros Hw.
  - assert (no_nul (concat (map show_word argv))) as H; [|done]. destruct Hw as [Hw _]. induction Hw as [|w argv H _ IH]; [constructor|].
    apply Forall_app. split; [by apply no_nul_word|done].
  - destruct Hw as [Hc Hr]. destruct (IH Hc) as (He & _).
    assert (no_nul (se (show c) ++ show_redir (w, mode, fd))) as H by (apply Forall_app; split; [done|by apply no_nul_redir]). done.
  - destruct Hw as [Ha Hb]. destruct (IHa Ha) as (Ea & _), (IHb Hb) as (_ & Pb & _).
    assert (no_nul (se (show a) ++ [sp; 124] ++ sp_ (show b))) as H by (apply Forall_app; split; [done|by apply Htwo]).
    split; [by apply no_nul_paren|done].
  - destruct Hw as [Ha Hb]. destruct (IHa Ha) as (_ & _ & Ba & _), (IHb Hb) as (_ & _ & _ & Lb).
    assert (no_nul (sb (show a) ++ [sp; 59] ++ sl (show b))) as H by (apply Forall_app; split; [done|by apply Htwo]).
    pose proof (no_nul_paren _ H). done.
  - destruct (IHa Hw) as (_ & _ & Ba & _). assert (no_nul (sb (show a) ++ [sp; 38])) as H by (apply Forall_app; split; [done|by repeat constructor]).
    pose proof (no_nul_paren _ H). done.
Qed.

Lemma cmd_map_ext {V W} (f g : V -> W) c : (forall w, w ∈ words c -> f w = g w) -> cmd_map f c = cmd_map g c.
Proof.
  induction c as [argv|c IH w mode fd|a IHa b IHb|a IHa b IHb|a IHa]; cbn [words cmd_map]; intros H.
  - f_equal. apply map_ext_in. intros w Hw. apply H. by apply list_elem_of_In.
  - rewrite IH, (H w); [done|apply elem_of_app; right; left|]. intros v Hv. apply H, elem_of_app. by left.
  - rewrite IHa, IHb; [done|intros v Hv; apply H, elem_of_app; by right|intros v Hv; apply H, elem_of_app; by left].
  - rewrite IHa, IHb; [done|intros v Hv; apply H, elem_of_app; by right|intros v Hv; apply H, elem_of_app; by left].
  - by rewrite IHa.
Qed.

(** C9: the shell parses what it is told: for every command whose words are words,
    the line that writes it down is parsed without an error to that command, with
    the nesting of pipes, lists, background commands, parentheses and
    redirections, and every word of it as a C string in the line. *)
Theorem parsecmd_inverts_show c : wf_cmd c ->
  exists c' buf' s, parsecmd (show_line c) = Ok (c', buf') s /\ cmd_map (fun w => cstr buf' (fst w)) c' = c.
Proof.
  intros Hw. set (buf := show_line c). destruct (show_parses buf c Hw) as (_ & _ & _ & HL).
  destruct (HL (4 * length buf + 4)%nat O [] ltac:(by left)) as (c' & s1 & E1 & M1 & R1 & _); [split; [by rewrite app_nil_r|lia]|lia|].
  destruct (peek_false buf [] s1 [] R1 ltac:(by left)) as (s2 & E2 & R2 & _).
  assert (s2 = length buf) as Es.
  { assert (s2 = skip_spaces buf s1) as -> by (unfold peek in E2; congruence). pose proof (drop_skip buf s1) as Ed. destruct R1 as [R1 B1]. rewrite R1 in Ed.
    apply (f_equal length) in Ed. rewrite length_drop in Ed. pose proof (skip_spaces_le buf s1 B1). cbn in Ed. lia. }
  assert (parsecmd buf = Ok (c', nulterminate c' buf) s2) as E.
  { unfold parsecmd. rewrite (bind_ok _ _ _ _ _ E1), (bind_ok _ _ _ _ _ E2). unfold finish. by rewrite Es, Nat.eqb_refl. }
  exists c', (nulterminate c' buf), s2. split; [done|]. rewrite <- M1. apply cmd_map_ext. intros w Hin.
  pose proof (parsecmd_moves buf) as HM. rewrite E in HM. destruct HM as [W _]. apply cstr_word; [|done|done]. by apply show_no_nul.
Qed.

(** [(cat < f ; ls) | wc &]. *)
Definition demo_cmd : cmd (list Z) :=
  Back (Pipe (List (Redir (Exec [[99; 97; 116]]) [102] O_RDONLY 0) (Exec [[108; 115]])) (Exec [[119; 99]])).

Lemma demo_cmd_wf : wf_cmd demo_cmd.
Proof.
  unfold wf_cmd, demo_cmd, wf_redir, wf_word, MAXARGS. cbn [fst snd length].
  repeat first [apply conj | apply Forall_cons_2 | apply Forall_nil_2]; first [done | lia | left; done].
Qed.

Lemma parsecmd_inverts_show_witness : exists c' buf' s,
  parsecmd (show_line demo_cmd) = Ok (c', buf') s /\ cmd_map (fun w => cstr buf' (fst w)) c' = demo_cmd.
Proof. apply (parsecmd_inverts_show demo_cmd). exact demo_cmd_wf. Defined.

Lemma parsecmd_words_witness : exists c buf' s, parsecmd [108; 115; 62; 102; 10] = Ok (c, buf') s /\
  map (fun w => cstr buf' (fst w)) (words c) = [[108; 115]; [102]].
Proof.
  destruct (parsecmd [108; 115; 62; 102; 10]) as [[c buf'] s|m|] eqn:E; [|vm_compute in E; discriminate E..].
  exists c, buf', s. split; [reflexivity|]. rewrite (parsecmd_words [108; 115; 62; 102; 10] c buf' s).
  - vm_compute in E. injection E as <- <- <-. reflexivity.
  - repeat apply Forall_cons_2; try apply Forall_nil_2; done.
  - exact E.
Defined.
