(* ===== verification/ShRun.v ===== *)
(** sh.c [runcmd]: which programs are started, with which descriptors.

    The descriptors of a process are a table of open objects; [close], [dup],
    [open] and [pipe] act on it as the system calls do, taking the lowest free
    descriptors.  A child starts with a copy of the table. *)

From stdpp Require Import base numbers list strings.
From S2P Require Import Xv6 Prelude Sh ShPrint.

(** What a descriptor names: a file of the parent, an opened file, or an end of
    the [n]-th pipe. *)
Inductive obj := Inherited (n : nat) | Opened (file : list Z) (mode : Z) | ReadEnd (n : nat) | WriteEnd (n : nat).
Definition fds : Type := list (option obj).

Fixpoint lowest (l : fds) : option nat :=
  match l with
  | [] => None
  | None :: _ => Some O
  | Some _ :: l => S <$> lowest l
  end.

Definition fd_close (fd : nat) (l : fds) : fds := <[fd := None]> l.
(** Put [o] into the lowest free descriptor. *)
Definition install (o : obj) (l : fds) : option (nat * fds) :=
  match lowest l with Some fd => Some (fd, <[fd := Some o]> l) | None => None end.
(** [dup]; its result is not used by [runcmd]. *)
Definition fd_dup (fd : nat) (l : fds) : fds :=
  match l !! fd with
  | Some (Some o) => match install o l with Some (_, l') => l' | None => l end
  | _ => l
  end.

Section run.
(** Which files can be opened, which [pipe] and which [fork] calls succeed. *)
Context (can_open : list Z -> Z -> bool) (pipe_ok fork_ok : nat -> bool).

(** Pipes and processes created so far. *)
Record world := World { npipe : nat; nfork : nat }.

Definition fd_open (file : list Z) (mode : Z) (l : fds) : option fds :=
  if can_open file mode then snd <$> install (Opened file mode) l else None.
Definition fd_pipe (l : fds) (w : world) : option (nat * nat * fds * world) :=
  if pipe_ok (npipe w) then
    match install (ReadEnd (npipe w)) l with
    | Some (p0, l) =>
        match install (WriteEnd (npipe w)) l with
        | Some (p1, l) => Some (p0, p1, l, World (S (npipe w)) (nfork w))
        | None => None
        end
    | None => None
    end
  else None.
(** [fork1]: [None] is the [panic]. *)
Definition fork1 (w : world) : option world :=
  if fork_ok (nfork w) then Some (World (npipe w) (S (nfork w))) else None.

(** The calls of [exec]: the arguments and the descriptors they are made with. *)
Definition launch : Type := list (list Z) * fds.

Fixpoint runcmd (c : cmd (list Z)) (l : fds) (w : world) : list launch * world :=
  match c with
  | Exec argv => match argv with [] => ([], w) | _ => ([(argv, l)], w) end
  | Redir c file mode fd =>
      match fd_open file mode (fd_close (Z.to_nat fd) l) with
      | None => ([], w)
      | Some l => runcmd c l w
      end
  | List c1 c2 =>
      match fork1 w with
      | None => ([], w)
      | Some w =>
          let '(e1, w) := runcmd c1 l w in
          let '(e2, w) := runcmd c2 l w in
          (e1 ++ e2, w)
      end
  | Pipe c1 c2 =>
      match fd_pipe l w with
      | None => ([], w)
      | Some (p0, p1, l, w) =>
          match fork1 w with
          | None => ([], w)
          | Some w =>
              let '(e1, w) := runcmd c1 (fd_close p1 (fd_close p0 (fd_dup p1 (fd_close 1 l)))) w in
              match fork1 w with
              | None => (e1, w)
              | Some w =>
                  let '(e2, w) := runcmd c2 (fd_close p1 (fd_close p0 (fd_dup p0 (fd_close 0 l)))) w in
                  (e1 ++ e2, w)
              end
          end
      end
  | Back c =>
      match fork1 w with
      | None => ([], w)
      | Some w => runcmd c l w
      end
  end.

(** ** What the commands mean *)

(** The programs of a command, each with the descriptors of the shell and those
    the command says in place of them. *)
Fixpoint wired (c : cmd (list Z)) (l : fds) (w : world) : list launch * world :=
  match c with
  | Exec argv => match argv with [] => ([], w) | _ => ([(argv, l)], w) end
  | Redir c file mode fd =>
      if can_open file mode then wired c (<[Z.to_nat fd := Some (Opened file mode)]> l) w else ([], w)
  | List c1 c2 =>
      match fork1 w with
      | None => ([], w)
      | Some w => let '(e1, w) := wired c1 l w in let '(e2, w) := wired c2 l w in (e1 ++ e2, w)
      end
  | Pipe c1 c2 =>
      if pipe_ok (npipe w) then
        let n := npipe w in
        let w := World (S n) (nfork w) in
        match fork1 w with
        | None => ([], w)
        | Some w =>
            let '(e1, w) := wired c1 (<[1%nat := Some (WriteEnd n)]> l) w in
            match fork1 w with
            | None => (e1, w)
            | Some w => let '(e2, w) := wired c2 (<[0%nat := Some (ReadEnd n)]> l) w in (e1 ++ e2, w)
            end
        end
      else ([], w)
  | Back c => match fork1 w with None => ([], w) | Some w => wired c l w end
  end.

(** Standard input and output are open and two descriptors are free. *)
Definition ready (l : fds) : Prop := exists o0 o1 l1 l2 l3,
  l = Some o0 :: Some o1 :: l1 ++ None :: l2 ++ None :: l3 /\ Forall is_Some l1 /\ Forall is_Some l2.

Lemma lowest_split l1 l2 : Forall is_Some l1 -> lowest (l1 ++ None :: l2) = Some (length l1).
Proof. induction l1 as [|o l1 IH]; intros H; [done|]. apply Forall_cons in H as [[x ->] H]. cbn. by rewrite IH. Qed.

Lemma insert_split (l1 l2 : fds) o o' : <[length l1 := o']> (l1 ++ o :: l2) = l1 ++ o' :: l2.
Proof. rewrite insert_app_r_alt by lia. by rewrite Nat.sub_diag. Qed.

Lemma ready_insert l fd o : ready l -> (fd < 2)%nat -> ready (<[fd := Some o]> l).
Proof.
  intros (o0 & o1 & l1 & l2 & l3 & -> & F1 & F2) Hfd. destruct fd as [|[|]]; [| |lia].
  - exists o, o1, l1, l2, l3. done.
  - exists o0, o, l1, l2, l3. done.
Qed.

(** Closing a standard descriptor and opening something puts it there. *)
Lemma reopen l fd o : ready l -> (fd < 2)%nat -> install o (fd_close fd l) = Some (fd, <[fd := Some o]> l).
Proof.
  intros (o0 & o1 & l1 & l2 & l3 & -> & _ & _) Hfd. by destruct fd as [|[|]]; [| |lia].
Qed.

Lemma sys_pipe_ready l w : ready l -> pipe_ok (npipe w) = true -> exists p0 p1 l',
  fd_pipe l w = Some (p0, p1, l', World (S (npipe w)) (nfork w)) /\
  fd_close p1 (fd_close p0 (fd_dup p1 (fd_close 1 l'))) = <[1%nat := Some (WriteEnd (npipe w))]> l /\
  fd_close p1 (fd_close p0 (fd_dup p0 (fd_close 0 l'))) = <[0%nat := Some (ReadEnd (npipe w))]> l.
Proof.
  intros (o0 & o1 & l1 & l2 & l3 & -> & F1 & F2) Hp. unfold fd_pipe. rewrite Hp.
  set (R := Some (ReadEnd (npipe w))). set (W := Some (WriteEnd (npipe w))).
  set (a := Some o0 :: Some o1 :: l1). set (b := a ++ R :: l2).
  assert (Forall is_Some a) as Fa by (repeat constructor; eauto).
  assert (Forall is_Some b) as Fb by (apply Forall_app; split; [done|constructor; [unfold R; eauto|done]]).
  assert (install (ReadEnd (npipe w)) (a ++ None :: l2 ++ None :: l3) = Some (length a, b ++ None :: l3)) as E1.
  { unfold install. rewrite lowest_split by done. unfold b. by rewrite insert_split, <- app_assoc. }
  assert (install (WriteEnd (npipe w)) (b ++ None :: l3) = Some (length b, b ++ W :: l3)) as E2.
  { unfold install. rewrite lowest_split by done. by rewrite insert_split. }
  change (Some o0 :: Some o1 :: l1 ++ None :: l2 ++ None :: l3) with (a ++ None :: l2 ++ None :: l3). rewrite E1, E2.
  eexists _, _, _. split; [reflexivity|].
  assert (forall x0 x1 : option obj, let a' := x0 :: x1 :: l1 in
    fd_close (length b) (fd_close (length a) (a' ++ R :: l2 ++ W :: l3)) = a' ++ None :: l2 ++ None :: l3) as Hcl.
  { intros x0 x1 a'. unfold fd_close. change (length a) with (length a'). rewrite insert_split.
    replace (length b) with (length (a' ++ None :: l2)) by (unfold b; rewrite !length_app; done).
    change (a' ++ None :: l2 ++ W :: l3) with (a' ++ (None :: l2) ++ W :: l3). rewrite app_assoc, insert_split, <- app_assoc. done. }
  assert (forall k, b ++ k = a ++ R :: l2 ++ k) as Hb by (intros k; unfold b; by rewrite <- app_assoc).
  assert (forall x0 x1 : option obj, (x0 :: x1 :: l1 ++ R :: l2 ++ W :: l3) !! length b = Some W) as LW.
  { intros x0 x1. change (x0 :: x1 :: l1 ++ R :: l2 ++ W :: l3) with ((x0 :: x1 :: l1) ++ (R :: l2) ++ W :: l3). rewrite app_assoc.
    apply list_lookup_middle. unfold b. rewrite !length_app. done. }
  assert (forall x0 x1 : option obj, (x0 :: x1 :: l1 ++ R :: l2 ++ W :: l3) !! length a = Some R) as LR.
  { intros x0 x1. change (x0 :: x1 :: l1 ++ R :: l2 ++ W :: l3) with ((x0 :: x1 :: l1) ++ R :: l2 ++ W :: l3). by apply list_lookup_middle. }
  rewrite Hb. split.
  - change (fd_close 1 (a ++ R :: l2 ++ W :: l3)) with (Some o0 :: None :: l1 ++ R :: l2 ++ W :: l3).
    unfold fd_dup. rewrite LW. unfold W at 1. change (install (WriteEnd (npipe w)) (Some o0 :: None :: l1 ++ R :: l2 ++ W :: l3)) with
      (Some (1%nat, Some o0 :: W :: l1 ++ R :: l2 ++ W :: l3)). apply (Hcl (Some o0) W).
  - change (fd_close 0 (a ++ R :: l2 ++ W :: l3)) with (None :: Some o1 :: l1 ++ R :: l2 ++ W :: l3).
    unfold fd_dup. rewrite LR. unfold R at 1. change (install (ReadEnd (npipe w)) (None :: Some o1 :: l1 ++ R :: l2 ++ W :: l3)) with
      (Some (0%nat, R :: Some o1 :: l1 ++ R :: l2 ++ W :: l3)). apply (Hcl R (Some o1)).
Qed.

Lemma runcmd_runs c : forall l w, wf_cmd c -> ready l -> runcmd c l w = wired c l w.
Proof.
  induction c as [argv|c IH file mode fd|a IHa b IHb|a IHa b IHb|a IHa]; intros l w Hw Hl; cbn [runcmd wired]; [done|..].
  - destruct Hw as [Hc [_ Hm]]. cbn [fst snd] in Hm. assert (Z.to_nat fd < 2)%nat as Hfd by (destruct Hm as [[_ ->]|[_ ->]]; cbn; lia).
    unfold fd_open. destruct (can_open file mode); [|done]. rewrite (reopen l _ (Opened file mode) Hl Hfd). cbn [fmap option_fmap option_map snd].
    apply IH; [done|]. by apply ready_insert.
  - destruct Hw as [Ha Hb]. destruct (pipe_ok (npipe w)) eqn:Hp.
    + destruct (sys_pipe_ready l w Hl Hp) as (p0 & p1 & l' & -> & -> & ->). destruct (fork1 _) as [w1|]; [|done].
      rewrite IHa by (first [done | apply ready_insert; [done|lia]]). destruct (wired a _ w1) as [e1 w2]. destruct (fork1 w2) as [w3|]; [|done].
      by rewrite IHb by (first [done | apply ready_insert; [done|lia]]).
    + unfold fd_pipe. by rewrite Hp.
  - destruct Hw as [Ha Hb]. destruct (fork1 w) as [w1|]; [|done]. rewrite IHa by done. destruct (wired a l w1) as [e1 w2]. by rewrite IHb.
  - destruct (fork1 w) as [w1|]; [|done]. by apply IHa.
Qed.


End run.

(** The three descriptors of the console. *)
Definition demo_fds : fds := [Some (Inherited 0); Some (Inherited 1); Some (Inherited 2)] ++ replicate 13 None.

