(* ===== verification/Console.v ===== *)
(** console.c, uart.c and proc.c's [procdump]: the console.

    Output goes to the serial line and to the 80x25 text screen, whose memory
    and cursor registers are the state [screen].  Input is a ring of
    [INPUT_BUF] bytes with three free-running 32-bit counters: what lies
    between [r] and [w] can be read, what lies between [w] and [e] is the line
    being edited.  The specification keeps the two as byte lists. *)

From stdpp Require Import base numbers list strings.
From S2P Require Import Xv6 Spinlock Proc Prelude Kstring Printf.

(** ** Output *)

(** [crt] is the text memory, one cell of 16 bits per character; [cursor] the
    two cursor registers of the CRT controller; [uart] whether a serial port was
    found, [serial] the bytes sent to it. *)
Record screen := Screen {
  panicked : bool;
  uart : bool;
  serial : list Z;
  crt : list Z;
  cursor : Z }.

Definition set_serial l (s : screen) : screen :=
  Screen (panicked s) (uart s) l (crt s) (cursor s).
Definition set_crt l (s : screen) : screen :=
  Screen (panicked s) (uart s) (serial s) l (cursor s).
Definition set_cursor p (s : screen) : screen :=
  Screen (panicked s) (uart s) (serial s) (crt s) p.
Definition set_panicked b (s : screen) : screen :=
  Screen b (uart s) (serial s) (crt s) (cursor s).

Definition BACKSPACE : Z := 0x100.

(** A store to [crt[i]]; the text memory has 25 rows of 80 cells. *)
Definition put_crt (i v : Z) : M screen unit :=
  s <- get ;;
  if (0 <=? i) && (i <? Z.of_nat (length (crt s)))
  then put (set_crt (<[Z.to_nat i := v]> (crt s)) s)
  else undef "crt".

(** The [memmove] and [memset] that scroll the screen up one row; [pos] is the
    cursor after the scroll. *)
Definition scroll (pos : Z) (l : list Z) : list Z :=
  let l := take (23 * 80) (drop 80 l) ++ drop (23 * 80) l in
  take (Z.to_nat pos) l ++ replicate (Z.to_nat (24 * 80 - pos)) 0 ++ drop (24 * 80) l.

Definition cgaputc (c : Z) : M screen unit :=
  pos <- gets cursor ;;
  pos <- (if c =? 10 then ret (pos + (80 - Z.rem pos 80))
          else if c =? BACKSPACE then ret (if 0 <? pos then pos - 1 else pos)
          else put_crt pos (Z.lor (Z.land c 0xff) 0x0700) ;; ret (pos + 1)) ;;
  if (pos <? 0) || (25 * 80 <? pos) then panic "pos under/overflow" else
  pos <- (if 24 <=? Z.quot pos 80
          then modify (fun s => set_crt (scroll (pos - 80) (crt s)) s) ;; ret (pos - 80)
          else ret pos) ;;
  modify (set_cursor (u16 pos)) ;;
  put_crt pos (Z.lor (ch " ") 0x0700).

(** uart.c [uartputc], once the port is ready or has been waited for. *)
Definition uartputc (c : Z) : M screen unit :=
  s <- get ;;
  if uart s then put (set_serial (serial s ++ [u8 c]) s) else ret tt.

(** A CPU that prints after a panic stops for ever. *)
Definition putc_screen (c : Z) : M screen unit :=
  s <- get ;;
  if panicked s then panic "panicked" else
  (if c =? BACKSPACE then uartputc 8 ;; uartputc (ch " ") ;; uartputc 8
   else uartputc c) ;;
  cgaputc c.

(** ** The console: [cons] and [input] *)

Definition INPUT_BUF : Z := 128.

Record console := Console {
  locking : bool;
  scr : screen;
  ibuf : list Z;
  r : Z;
  w : Z;
  e : Z }.

Definition set_locking b (s : console) : console := Console b (scr s) (ibuf s) (r s) (w s) (e s).
Definition set_scr x (s : console) : console := Console (locking s) x (ibuf s) (r s) (w s) (e s).
Definition set_r v (s : console) : console := Console (locking s) (scr s) (ibuf s) v (w s) (e s).
Definition set_w v (s : console) : console := Console (locking s) (scr s) (ibuf s) (r s) v (e s).
Definition set_e v (s : console) : console := Console (locking s) (scr s) (ibuf s) (r s) (w s) v.
Definition set_ibuf l (s : console) : console := Console (locking s) (scr s) l (r s) (w s) (e s).

Definition consputc (c : Z) : M console unit := zoom scr set_scr (putc_screen c).

Fixpoint consputs (l : list Z) : M console unit :=
  match l with
  | [] => ret tt
  | c :: l' => consputc c ;; consputs l'
  end.

(** *** [cprintf] *)

Definition kdigits : list Z := str "0123456789abcdef".

(** [do { buf[i++] = digits[x % base]; } while((x /= base) != 0)]; a 32-bit
    number has at most 32 digits. *)
Fixpoint kdigit_loop (fuel : nat) (base x : Z) : list Z :=
  match fuel with
  | O => []
  | S f => nth (Z.to_nat (x mod base)) kdigits 0 ::
           (if x / base =? 0 then [] else kdigit_loop f base (x / base))
  end.

(** The contents of [buf] when the digits and the sign are stored. *)
Definition printint_buf (xx base : Z) (sign : bool) : list Z :=
  let neg := sign && (xx <? 0) in
  let x := if neg then u32 (- xx) else u32 xx in
  kdigit_loop 32 base x ++ (if neg then [ch "-"] else []).

Definition printint (xx base : Z) (sign : bool) : M console unit :=
  let buf := printint_buf xx base sign in
  if decide (length buf <= 16)%nat then consputs (rev buf) else undef "printint: buf".

(** An argument of [cprintf]: a word, or a pointer with the string it points
    to ([None] for the null pointer). *)
Inductive karg := Kint (n : Z) | Kstr (s : option (list Z)).

(** The loop over the format, whose bytes come without the final 0. *)
Fixpoint cprintf_loop (fmt : list Z) (argp : list karg) : M console unit :=
  match fmt with
  | [] => ret tt
  | c :: fmt' =>
      if negb (c =? ch "%") then consputc c ;; cprintf_loop fmt' argp
      else match fmt' with
      | [] => ret tt
      | c :: fmt'' =>
          if c =? ch "d" then
            match argp with
            | Kint n :: argp => printint (s32 n) 10 true ;; cprintf_loop fmt'' argp
            | _ => undef "cprintf"
            end
          else if (c =? ch "x") || (c =? ch "p") then
            match argp with
            | Kint n :: argp => printint (s32 n) 16 false ;; cprintf_loop fmt'' argp
            | _ => undef "cprintf"
            end
          else if c =? ch "s" then
            match argp with
            | Kstr s :: argp =>
                consputs (default (str "(null)") s) ;; cprintf_loop fmt'' argp
            | _ => undef "cprintf"
            end
          else if c =? ch "%" then consputc (ch "%") ;; cprintf_loop fmt'' argp
          else consputc (ch "%") ;; consputc c ;; cprintf_loop fmt'' argp
      end
  end.

Definition cprintf (fmt : option (list Z)) (argp : list karg) : M console unit :=
  l <- gets locking ;;
  (if l then acquire Lcons else ret tt) ;;
  match fmt with
  | None => panic "null fmt"
  | Some fmt => cprintf_loop fmt argp
  end ;;
  if l : bool then release Lcons else ret tt.

(** [for(i=0; i<10; i++) cprintf(" %p", pcs[i])]. *)
Fixpoint print_pcs (pcs : list Z) : M console unit :=
  match pcs with
  | [] => ret tt
  | pc :: pcs' => cprintf (Some (str " %p")) [Kint pc] ;; print_pcs pcs'
  end.

(** [panic] up to its endless loop: the message goes out without the lock, and
    every later [consputc] stops its CPU. *)
Definition console_panic (mm : mem) (lapicid frame : Z) (s : list Z) : M console unit :=
  modify (set_locking false) ;;
  cprintf (Some (str "lapicid %d: panic: ")) [Kint lapicid] ;;
  cprintf (Some s) [] ;;
  cprintf (Some [10]) [] ;;
  print_pcs (Spinlock.getcallerpcs mm frame) ;;
  modify (fun c => set_scr (set_panicked true (scr c)) c).

(** *** [procdump] *)

Definition state_name (st : procstate) : list Z :=
  match st with
  | UNUSED => str "unused"
  | EMBRYO => str "embryo"
  | SLEEPING => str "sleep "
  | RUNNABLE => str "runble"
  | RUNNING => str "run   "
  | ZOMBIE => str "zombie"
  end.

(** The string at the start of an array of bytes. *)
Fixpoint upto_nul (l : list Z) : list Z :=
  match l with
  | [] => []
  | c :: l' => if c =? 0 then [] else c :: upto_nul l'
  end.

(** [for(i=0; i<10 && pc[i] != 0; i++) cprintf(" %p", pc[i])]. *)
Definition dump_pcs (pc : list Z) : M console unit := print_pcs (upto_nul pc).

Fixpoint procdump (mm : mem) (l : list proc) : M console unit :=
  match l with
  | [] => ret tt
  | p :: l' =>
      if decide (state p = UNUSED) then procdump mm l' else
      cprintf (Some (str "%d %s %s"))
        [Kint (pid p); Kstr (Some (state_name (state p))); Kstr (Some (upto_nul (name p)))] ;;
      (if decide (state p = SLEEPING)
       then dump_pcs (Spinlock.getcallerpcs mm (u32 (c_ebp (context p) + 8))) else ret tt) ;;
      cprintf (Some [10]) [] ;;
      procdump mm l'
  end.

(** *** Input *)

(** [input.buf[i % INPUT_BUF]] for a counter [i]. *)
Definition islot (i : Z) : nat := Z.to_nat (i mod INPUT_BUF).

Definition input_at (s : console) (i : Z) : Z := nth (islot i) (ibuf s) 0.

(** The [while] loop of control-U; it ends within [INPUT_BUF] steps. *)
Fixpoint kill_line (fuel : nat) : M console unit :=
  match fuel with
  | O => undef "kill_line"
  | S f =>
      s <- get ;;
      if negb (e s =? w s) && negb (input_at s (u32 (e s - 1)) =? 10) then
        put (set_e (u32 (e s - 1)) s) ;; consputc BACKSPACE ;; kill_line f
      else ret tt
  end.

Definition control (x : ascii) : Z := ch x - ch "@".
Arguments control x%_char.

(** The [switch] on one character; the result is whether it was control-P. *)
Definition consoleintr_key (c : Z) : M console bool :=
  if c =? control "P" then ret true
  else if c =? control "U" then kill_line (S (Z.to_nat INPUT_BUF)) ;; ret false
  else if (c =? control "H") || (c =? 0x7f) then
    s <- get ;;
    if negb (e s =? w s)
    then put (set_e (u32 (e s - 1)) s) ;; consputc BACKSPACE ;; ret false
    else ret false
  else
    s <- get ;;
    if negb (c =? 0) && (u32 (e s - r s) <? INPUT_BUF) then
      let c := if c =? 13 then 10 else c in
      put (set_e (u32 (e s + 1)) (set_ibuf (<[islot (e s) := u8 c]> (ibuf s)) s)) ;;
      consputc c ;;
      s <- get ;;
      if (c =? 10) || (c =? control "D") || (e s =? u32 (r s + INPUT_BUF))
      then put (set_w (e s) s) ;; wakeup Cinput ;; ret false
      else ret false
    else ret false.

(** The characters [getc] delivers, up to its first negative result. *)
Fixpoint consoleintr_loop (cs : list Z) (doprocdump : bool) : M console bool :=
  match cs with
  | [] => ret doprocdump
  | c :: cs' =>
      if 0 <=? c then d <- consoleintr_key c ;; consoleintr_loop cs' (doprocdump || d)
      else ret doprocdump
  end.

(** [procs] and [mm] are the process table and kernel memory a dump shows. *)
Definition consoleintr (mm : mem) (procs : list proc) (cs : list Z) : M console unit :=
  acquire Lcons ;;
  d <- consoleintr_loop cs false ;;
  release Lcons ;;
  if d : bool then procdump mm procs else ret tt.

Section device.
(** The inode operations around the wait, on the console's inode. *)
Context (iunlock ilock : M console unit).

(** The loop of [consoleread] with [n] bytes to go, [got] being those already
    stored at [dst]; a call that sleeps resumes here.  [None] is -1. *)
Fixpoint consoleread_loop (n : nat) (got : list Z) : M console (option (list Z)) :=
  match n with
  | O => release Lcons ;; ilock ;; ret (Some got)
  | S n' =>
      s <- get ;;
      if r s =? w s then
        t <- myproc ;;
        if t_killed t then release Lcons ;; ilock ;; ret None
        else sleep Cinput Lcons
      else
        let c := input_at s (r s) in
        if c =? control "D" then
          (if decide (got = []) then put (set_r (u32 (r s + 1)) s) else ret tt) ;;
          release Lcons ;; ilock ;; ret (Some got)
        else
          put (set_r (u32 (r s + 1)) s) ;;
          if c =? 10 then release Lcons ;; ilock ;; ret (Some (got ++ [c]))
          else consoleread_loop n' (got ++ [c])
  end.

Definition consoleread (n : nat) : M console (option (list Z)) :=
  iunlock ;; acquire Lcons ;; consoleread_loop n [].

Definition consolewrite (buf : list Z) : M console Z :=
  iunlock ;; acquire Lcons ;; consputs buf ;; release Lcons ;; ilock ;;
  ret (Z.of_nat (length buf)).

End device.

(** ** Output is safe and goes to the serial line *)

Definition CRTSIZE : Z := 25 * 80.

(** The text memory is all there and the cursor is on the screen. *)
Definition screen_ok (s : screen) : Prop :=
  panicked s = false /\ Z.of_nat (length (crt s)) = CRTSIZE /\ 0 <= cursor s < CRTSIZE.

(** What [consputc] sends to the serial port. *)
Definition echo (s : screen) (c : Z) : list Z :=
  if uart s then if c =? BACKSPACE then [8; 32; 8] else [u8 c] else [].

Lemma put_crt_runs i v cx s :
  0 <= i < Z.of_nat (length (crt s)) ->
  put_crt i v cx s = Ret tt cx (set_crt (<[Z.to_nat i := v]> (crt s)) s).
Proof.
  intros H. unfold put_crt. mstep.
  by rewrite (proj2 (Z.leb_le _ _)), (proj2 (Z.ltb_lt _ _)) by lia.
Qed.

Lemma length_scroll pos l :
  0 <= pos <= 24 * 80 -> Z.of_nat (length l) = CRTSIZE ->
  Z.of_nat (length (scroll pos l)) = CRTSIZE.
Proof.
  unfold CRTSIZE. intros H E. unfold scroll.
  repeat (rewrite ?length_app, ?length_take, ?length_drop, ?length_replicate). lia.
Qed.

(** The part of [cgaputc] that scrolls and moves the cursor. *)
Definition cga_finish (pos : Z) : M screen unit :=
  if (pos <? 0) || (25 * 80 <? pos) then panic "pos under/overflow" else
  pos <- (if 24 <=? Z.quot pos 80
          then modify (fun s => set_crt (scroll (pos - 80) (crt s)) s) ;; ret (pos - 80)
          else ret pos) ;;
  modify (set_cursor (u16 pos)) ;;
  put_crt pos (Z.lor (ch " ") 0x0700).

Lemma cga_finish_runs pos cx s :
  screen_ok s -> 0 <= pos <= CRTSIZE ->
  exists s', cga_finish pos cx s = Ret tt cx s' /\
    screen_ok s' /\ serial s' = serial s /\ uart s' = uart s.
Proof.
  unfold CRTSIZE. intros (P & L & C) H. unfold cga_finish. unfold CRTSIZE in L.
  destruct (Z.ltb_spec pos 0), (Z.ltb_spec (25 * 80) pos); try lia. cbn [orb].
  rewrite Z.quot_div_nonneg by lia.
  destruct (Z.leb_spec 24 (pos / 80)) as [D|D].
  - assert (80 * 24 <= pos) by (Z.to_euclidean_division_equations; lia).
    pose proof (length_scroll (pos - 80) (crt s)) as LS. unfold CRTSIZE in LS. mrun.
    eexists. split; [apply put_crt_runs; cbn; lia|].
    split; [|done]. split; [done|]. unfold CRTSIZE. cbn. rewrite length_insert.
    split; [lia|]. unfold u16. rewrite Z.mod_small; lia.
  - assert (pos < 80 * 24) by (Z.to_euclidean_division_equations; lia).
    mrun. eexists. split; [apply put_crt_runs; cbn; lia|].
    split; [|done]. split; [done|]. unfold CRTSIZE. cbn. rewrite length_insert.
    split; [lia|]. unfold u16. rewrite Z.mod_small; lia.
Qed.

Lemma cgaputc_runs c cx s :
  screen_ok s ->
  exists s', cgaputc c cx s = Ret tt cx s' /\
    screen_ok s' /\ serial s' = serial s /\ uart s' = uart s.
Proof.
  intros O. pose proof O as (P & L & C). unfold CRTSIZE in *. unfold cgaputc.
  fold cga_finish. mstep. destruct (c =? 10).
  { mstep. apply cga_finish_runs; [done|]. unfold CRTSIZE.
    rewrite Z.rem_mod_nonneg by lia. Z.to_euclidean_division_equations. lia. }
  destruct (c =? BACKSPACE).
  { mstep. apply cga_finish_runs; [done|]. unfold CRTSIZE. destruct (Z.ltb_spec 0 (cursor s)); lia. }
  mstep. erewrite bind_Ret by (apply put_crt_runs; lia). mstep.
  destruct (cga_finish_runs (cursor s + 1) cx
              (set_crt (<[Z.to_nat (cursor s) := Z.lor (Z.land c 0xff) 0x0700]> (crt s)) s))
    as (s' & E' & H); [|unfold CRTSIZE; lia | by exists s'].
  split; [done|]. cbn. by rewrite length_insert.
Qed.

Lemma uartputc_runs c cx s :
  uartputc c cx s = Ret tt cx (set_serial (serial s ++ if uart s then [u8 c] else []) s).
Proof. unfold uartputc. mstep. destruct s as [p [] l q k]; cbn; [done | by rewrite app_nil_r]. Qed.

Lemma putc_screen_runs c cx s :
  screen_ok s ->
  exists s', putc_screen c cx s = Ret tt cx s' /\
    screen_ok s' /\ serial s' = serial s ++ echo s c /\ uart s' = uart s.
Proof.
  intros (P & O). unfold putc_screen. mstep. rewrite P. unfold echo.
  destruct (c =? BACKSPACE); repeat first [mstep | rewrite (bind_Ret _ _ _ _ _ _ _ (uartputc_runs _ _ _))];
    match goal with |- context [cgaputc c cx ?s1] =>
      destruct (cgaputc_runs c cx s1) as (s' & E & O' & S & U); [done|] end;
    exists s'; split_and!; try done; rewrite S; cbn; destruct (uart s); cbn;
    by rewrite ?app_nil_r, <- ?app_assoc.
Qed.

(** [s'] is [s] after [l] has been sent to the serial line, the screen being in
    order and nothing but the screen having changed. *)
Definition shows (s s' : console) (l : list Z) : Prop :=
  screen_ok (scr s') /\ uart (scr s') = uart (scr s) /\
  serial (scr s') = serial (scr s) ++ (if uart (scr s) then l else []) /\
  s' = set_scr (scr s') s.

Definition key_echo (c : Z) : list Z := if c =? BACKSPACE then [8; 32; 8] else [u8 c].

Lemma shows_nil s : screen_ok (scr s) -> shows s s [].
Proof.
  intros O. split_and!; [done..| |by destruct s].
  destruct (uart _); by rewrite app_nil_r.
Qed.

Lemma shows_trans s1 s2 s3 l1 l2 : shows s1 s2 l1 -> shows s2 s3 l2 -> shows s1 s3 (l1 ++ l2).
Proof.
  intros (O1 & U1 & S1 & E1) (O2 & U2 & S2 & E2). split_and!; [done|congruence| |].
  - rewrite S2, S1, U1, <- app_assoc. destruct (uart (scr s1)); done.
  - rewrite E2. cbn. by rewrite E1 at 1.
Qed.

Lemma consputc_runs c cx s :
  screen_ok (scr s) ->
  exists s', consputc c cx s = Ret tt cx s' /\ shows s s' (key_echo c).
Proof.
  intros O. unfold consputc, zoom. destruct (putc_screen_runs c cx (scr s) O) as (x & -> & O' & S & U).
  exists (set_scr x s). split; [done|]. by split_and!.
Qed.

Lemma key_echo_byte c : 0 <= c < 256 -> key_echo c = [c].
Proof.
  intros H. unfold key_echo, BACKSPACE. destruct (Z.eqb_spec c 0x100); [lia|].
  by rewrite u8_small.
Qed.

Lemma consputs_runs l cx : forall s,
  Forall (fun c => 0 <= c < 256) l -> screen_ok (scr s) ->
  exists s', consputs l cx s = Ret tt cx s' /\ shows s s' l.
Proof.
  induction l as [|c l IH]; intros s B O; [exists s; split; [done | by apply shows_nil]|].
  apply Forall_cons in B as [Bc B]. cbn [consputs].
  destruct (consputc_runs c cx s O) as (s1 & E1 & H1). run E1.
  destruct (IH s1 B) as (s2 & E2 & H2); [apply H1|]. exists s2. split; [done|].
  rewrite key_echo_byte in H1 by done. apply (shows_trans _ _ _ _ _ H1 H2).
Qed.

(** ** [cprintf] prints what the user library's [printf] prints *)

(** The console has lower-case hexadecimal digits, [printf] upper-case ones. *)
Definition upper (c : Z) : Z := if (97 <=? c) && (c <=? 102) then c - 32 else c.

Lemma upper_kdigit k : 0 <= k < 16 -> upper (nth (Z.to_nat k) kdigits 0) = nth (Z.to_nat k) digits 0.
Proof. intros Hk. apply Z.eqb_eq. revert k Hk. apply forall_range. vm_compute. reflexivity. Qed.

Lemma kdigit_loop_upper base : 10 <= base <= 16 ->
  forall fuel x i, 0 < x < base ^ Z.of_nat fuel -> 0 <= i -> i + Z.of_nat fuel < 16 ->
  forall f2 f1, (fuel <= f1)%nat -> (fuel <= f2)%nat ->
  map upper (kdigit_loop f1 base x) = digit_loop f2 16 base i x.
Proof.
  intros Hb. induction fuel as [|n IH]; intros x i Hx Hi Hf f2 f1 H1 H2; [cbn in Hx; lia|].
  destruct f1 as [|f1]; [lia|]. destruct f2 as [|f2]; [lia|].
  cbn [kdigit_loop digit_loop map].
  destruct (Z.ltb_spec (i + 1) 16); [|lia]. destruct (Z.eqb_spec x 0); [lia|]. cbn [andb negb].
  rewrite upper_kdigit by (pose proof (Z.mod_pos_bound x base); lia). f_equal.
  rewrite Nat2Z.inj_succ, Z.pow_succ_r in Hx by lia.
  destruct (Z.eqb_spec (x / base) 0) as [E|E].
  - rewrite E. destruct f2; cbn [map digit_loop]; [done|]. by rewrite andb_false_r.
  - apply IH; try lia. split; [Z.to_euclidean_division_equations; nia|].
    apply Z.div_lt_upper_bound; lia.
Qed.

Lemma printint_text a base sgn :
  10 <= base <= 16 -> map upper (rev (printint_buf (s32 a) base sgn)) = int_text a base sgn.
Proof.
  intros Hb. unfold int_text. rewrite map_rev. f_equal. pose proof (s32_range a).
  unfold printint_buf, s_getReverseDigits. change (Z.to_nat 16) with 16%nat.
  set (xx := s32 a) in *. set (neg := sgn && (xx <? 0)).
  set (x := if neg then u32 (- xx) else u32 xx).
  assert (x = 0 <-> xx = 0) as Hx0.
  { unfold x, neg. destruct sgn, (Z.ltb_spec xx 0); cbn [andb]; word_lia. }
  assert (0 <= x < 2 ^ 32) as Hx by (unfold x; destruct neg; apply u32_range).
  destruct (Z.eqb_spec 0 xx) as [E0|E0].
  { assert (x = 0) as -> by (apply Hx0; done).
    assert (neg = false) as -> by (unfold neg; rewrite <- E0; apply andb_false_r).
    cbn. rewrite app_nil_r. by rewrite Z.mod_0_l, Z.div_0_l by lia. }
  pose proof (pow_base_32 base ltac:(lia)).
  pose proof (digit_loop_length base 16 0 x 10) as HL.
  rewrite map_app, (kdigit_loop_upper base Hb 10 x 0) with (f2 := 16%nat) by (cbn; lia).
  cbn [andb]. destruct neg; cbn [andb map]; [|by rewrite app_nil_r].
  destruct (Z.ltb_spec (Z.of_nat (length (digit_loop 16 16 base 0 x))) 16); [done|lia].
Qed.

Lemma kdigit_loop_length base : 10 <= base ->
  forall n f x, 0 <= x < base ^ Z.of_nat (S n) -> (length (kdigit_loop f base x) <= S n)%nat.
Proof.
  intros Hb. induction n as [|n IH]; intros f x Hx; destruct f as [|f]; cbn [kdigit_loop length]; try lia;
    destruct (Z.eqb_spec (x / base) 0) as [E|E]; cbn [length]; try lia.
  - rewrite Z.pow_1_r in Hx. rewrite Z.div_small in E; lia.
  - rewrite Nat2Z.inj_succ, Z.pow_succ_r in Hx by lia. apply le_n_S, IH.
    split; [apply Z.div_pos; lia | apply Z.div_lt_upper_bound; lia].
Qed.

Lemma kdigit_loop_bytes base f : forall x, Forall (fun c => 0 <= c < 256) (kdigit_loop f base x).
Proof.
  assert (forall k, 0 <= nth k kdigits 0 < 256) as H.
  { intros k. do 16 (destruct k as [|k]; [vm_compute; intuition congruence|]).
    rewrite nth_overflow by (cbn; lia). lia. }
  induction f as [|f IH]; intros x; cbn [kdigit_loop]; constructor; [apply H|].
  destruct (_ =? 0); [constructor | apply IH].
Qed.

Lemma printint_runs a base sgn cx s :
  10 <= base <= 16 -> screen_ok (scr s) ->
  exists s', printint (s32 a) base sgn cx s = Ret tt cx s' /\
    shows s s' (rev (printint_buf (s32 a) base sgn)).
Proof.
  intros Hb O. unfold printint. rewrite decide_True.
  - apply consputs_runs; [|done]. apply Forall_rev. unfold printint_buf. apply Forall_app.
    split; [apply kdigit_loop_bytes|]. destruct (_ && _); repeat constructor; vm_compute; congruence.
  - unfold printint_buf. rewrite length_app.
    pose proof (pow_base_32 base ltac:(lia)).
    set (x := if _ && _ then _ else _).
    assert (0 <= x < 2 ^ 32) by (unfold x; destruct (_ && _); apply u32_range).
    pose proof (kdigit_loop_length base ltac:(lia) 9 32 x ltac:(change (Z.of_nat 10) with 10; lia)).
    destruct (_ && _); cbn [length]; lia.
Qed.

(** The text of a [cprintf] call; [None] when an argument is missing or of the
    wrong kind. *)
Fixpoint ktext (fmt : list Z) (args : list karg) : option (list Z) :=
  match fmt with
  | [] => Some []
  | c :: fmt' =>
      if negb (c =? ch "%") then cons c <$> ktext fmt' args
      else match fmt' with
      | [] => Some []
      | c :: fmt'' =>
          if c =? ch "d" then
            match args with
            | Kint n :: args => app (rev (printint_buf (s32 n) 10 true)) <$> ktext fmt'' args
            | _ => None
            end
          else if (c =? ch "x") || (c =? ch "p") then
            match args with
            | Kint n :: args => app (rev (printint_buf (s32 n) 16 false)) <$> ktext fmt'' args
            | _ => None
            end
          else if c =? ch "s" then
            match args with
            | Kstr t :: args => app (default (str "(null)") t) <$> ktext fmt'' args
            | _ => None
            end
          else if c =? ch "%" then cons (ch "%") <$> ktext fmt'' args
          else app [ch "%"; c] <$> ktext fmt'' args
      end
  end.

Definition is_byte (c : Z) : Prop := 0 <= c < 256.

Definition arg_bytes (k : karg) : Prop :=
  match k with Kstr (Some t) => Forall is_byte t | _ => True end.

Lemma seq_shows (m1 m2 : M console unit) cx s l1 l2 :
  (exists s1, m1 cx s = Ret tt cx s1 /\ shows s s1 l1) ->
  (forall s1, screen_ok (scr s1) -> exists s2, m2 cx s1 = Ret tt cx s2 /\ shows s1 s2 l2) ->
  exists s', (m1 ;; m2) cx s = Ret tt cx s' /\ shows s s' (l1 ++ l2).
Proof.
  intros (s1 & E1 & S1) H. destruct (H s1) as (s2 & E2 & S2); [apply S1|].
  exists s2. run E1. split; [done|]. apply (shows_trans s s1 s2 _ _ S1 S2).
Qed.

Lemma consputc_byte c cx s :
  is_byte c -> screen_ok (scr s) -> exists s', consputc c cx s = Ret tt cx s' /\ shows s s' [c].
Proof. intros H O. rewrite <- (key_echo_byte c H). by apply consputc_runs. Qed.

Lemma null_bytes : Forall is_byte (str "(null)").
Proof. repeat constructor; vm_compute; congruence. Qed.

Lemma cprintf_loop_shows cx n : forall fmt args s l,
  (length fmt <= n)%nat -> Forall is_byte fmt -> Forall arg_bytes args ->
  ktext fmt args = Some l -> screen_ok (scr s) ->
  exists s', cprintf_loop fmt args cx s = Ret tt cx s' /\ shows s s' l.
Proof.
  induction n as [|n IH]; intros fmt args s l Hn B A R O;
    (destruct fmt as [|c fmt]; [injection R as <-; exists s; split; [done | by apply shows_nil]|]);
    cbn [length] in Hn; [lia|].
  apply Forall_cons in B as [Bc B]. cbn [ktext cprintf_loop] in *.
  destruct (negb (c =? ch "%")).
  { apply fmap_Some in R as (l1 & R1 & ->).
    apply (seq_shows _ _ cx s [c] l1); [by apply consputc_byte | intros; eapply IH; eauto; lia]. }
  destruct fmt as [|c' fmt]; [injection R as <-; exists s; split; [done | by apply shows_nil]|].
  apply Forall_cons in B as [Bc' B]. cbn [length] in Hn.
  assert (forall args l1 s1, Forall arg_bytes args -> ktext fmt args = Some l1 -> screen_ok (scr s1) ->
    exists s', cprintf_loop fmt args cx s1 = Ret tt cx s' /\ shows s1 s' l1) as IH'.
  { intros. eapply IH; eauto. lia. }
  destruct (c' =? ch "d"); [|destruct ((c' =? ch "x") || (c' =? ch "p"))].
  1,2: destruct args as [|[a|] args]; try done; apply Forall_cons in A as [_ A];
    apply fmap_Some in R as (l1 & R1 & ->);
    apply seq_shows; [apply printint_runs; [lia | done] | eauto].
  destruct (c' =? ch "s").
  { destruct args as [|[|k] args]; try done. apply Forall_cons in A as [Ak A].
    apply fmap_Some in R as (l1 & R1 & ->).
    apply seq_shows; [|eauto]. apply consputs_runs; [|done]. destruct k; [done | apply null_bytes]. }
  destruct (c' =? ch "%"); apply fmap_Some in R as (l1 & R1 & ->).
  - apply (seq_shows _ _ cx s [ch "%"] l1); [by apply consputc_byte | eauto].
  - apply (seq_shows _ _ cx s [ch "%"] (c' :: l1)); [by apply consputc_byte|].
    intros s1 O1. apply (seq_shows _ _ cx s1 [c'] l1); [by apply consputc_byte | eauto].
Qed.

Lemma cprintf_runs fmt args l t h wk s :
  Forall is_byte fmt -> Forall arg_bytes args -> ktext fmt args = Some l ->
  screen_ok (scr s) -> (locking s = true -> Lcons ∉ h) ->
  exists s', cprintf (Some fmt) args (Ctx t h wk) s = Ret tt (Ctx t h wk) s' /\ shows s s' l.
Proof.
  intros B A R O L. unfold cprintf. mstep. destruct (locking s) eqn:E.
  - specialize (L eq_refl). mstep.
    destruct (cprintf_loop_shows (Ctx t (Lcons :: h) wk) _ fmt args s l (le_n _) B A R O)
      as (s' & E' & H). exists s'. split; [|done]. run E'. apply release_head.
  - mstep. destruct (cprintf_loop_shows (Ctx t h wk) _ fmt args s l (le_n _) B A R O)
      as (s' & E' & H). exists s'. split; [|done]. by run E'.
Qed.

(** The arguments of a [cprintf] call in the memory [m] of the caller. *)
Inductive arg_in (sf : nat) (m : mem) : karg -> Z -> Prop :=
| arg_int n : arg_in sf m (Kint n) n
| arg_null : arg_in sf m (Kstr None) 0
| arg_str a t : a ≠ 0 -> cstring sf m a = Some t -> arg_in sf m (Kstr (Some t)) a.

(** A format and its arguments as [cprintf] understands them: conversions and
    arguments go together, there is no [%c], and no zero byte. *)
Fixpoint kformat (fmt : list Z) (args : list karg) : Prop :=
  match fmt with
  | [] => True
  | c :: fmt' =>
      0 < c < 256 /\
      if negb (c =? ch "%") then kformat fmt' args
      else match fmt' with
      | [] => True
      | c :: fmt'' =>
          0 < c < 256 /\
          if (c =? ch "d") || (c =? ch "x") || (c =? ch "p") then
            match args with Kint _ :: args => kformat fmt'' args | _ => False end
          else if c =? ch "s" then
            match args with Kstr _ :: args => kformat fmt'' args | _ => False end
          else c ≠ ch "c" /\ kformat fmt'' args
      end
  end.

Lemma upper_idem c : upper (upper c) = upper c.
Proof.
  unfold upper. destruct (Z.leb_spec 97 c), (Z.leb_spec c 102); cbn [andb];
    repeat match goal with |- context [?a <=? ?b] => destruct (Z.leb_spec a b) end; cbn [andb]; lia.
Qed.

Lemma map_upper_int a base sgn : 10 <= base <= 16 ->
  map upper (rev (printint_buf (s32 a) base sgn)) = map upper (int_text a base sgn).
Proof.
  intros H. rewrite <- (printint_text a base sgn H). rewrite !map_map.
  apply map_ext. intros c. by rewrite upper_idem.
Qed.

Lemma cstring_bytes sf m : forall a t, cstring sf m a = Some t -> Forall is_byte t.
Proof.
  induction sf as [|f IH]; intros a t; cbn [cstring]; [done|].
  destruct (m a =? 0); [intros [= <-]; constructor|].
  destruct (cstring f m (a + 1)) eqn:E; cbn; [|done]. intros [= <-].
  constructor; [unfold u8; by apply Z.mod_pos_bound | by eapply IH].
Qed.

Lemma arg_in_bytes sf m args ap : Forall2 (arg_in sf m) args ap -> Forall arg_bytes args.
Proof.
  induction 1 as [|k a args ap H _ IH]; constructor; [|done].
  destruct H; cbn; [done..|]. by eapply cstring_bytes.
Qed.

Lemma kformat_bytes n : forall fmt args, (length fmt <= n)%nat -> kformat fmt args -> Forall is_byte fmt.
Proof.
  induction n as [|n IH]; intros [|c fmt] args Hn K; cbn [length] in Hn; try constructor; try lia;
    destruct K as [Bc K]; [unfold is_byte; lia|].
  destruct (negb (c =? ch "%")); [eapply IH; eauto; lia|].
  destruct fmt as [|c' fmt]; [constructor|]. destruct K as [Bc' K]. cbn [length] in Hn.
  constructor; [unfold is_byte; lia|].
  destruct (_ || _); [|destruct (_ =? _)]; repeat case_match; try done;
    try destruct K as [_ K]; eapply IH; eauto; lia.
Qed.

Lemma string_arg_text sf m k a t :
  arg_in sf m (Kstr k) a -> string_text sf m a = Some t -> default (str "(null)") k = t.
Proof.
  unfold string_text. intros H. inversion H as [| |a' t' Ha Ht]; subst.
  - rewrite Z.eqb_refl. by intros [= <-].
  - destruct (Z.eqb_spec a 0); [done|]. rewrite Ht. by intros [= <-].
Qed.

(** The two specifications agree. *)
Lemma ktext_render sf m n : forall fmt args ap l,
  (length fmt <= n)%nat -> kformat fmt args -> Forall2 (arg_in sf m) args ap ->
  render sf m fmt ap false = Some l ->
  exists l', ktext fmt args = Some l' /\ map upper l' = map upper l.
Proof.
  induction n as [|n IH]; intros fmt args ap l Hn K A R;
    (destruct fmt as [|c fmt]; [injection R as <-; by exists []|]); cbn [length] in Hn; [lia|].
  destruct K as [Bc K]. cbn [render negb ktext] in *. destruct (Z.eqb_spec c 0); [lia|].
  assert (forall fmt args ap l1 t t', (length fmt <= n)%nat -> kformat fmt args ->
    Forall2 (arg_in sf m) args ap -> map upper t' = map upper t ->
    (app t <$> render sf m fmt ap false) = Some l1 ->
    exists l', (app t' <$> ktext fmt args) = Some l' /\ map upper l' = map upper l1) as IH'.
  { clear - IH. intros fmt args ap l1 t t' Hn K A U R.
    destruct (render sf m fmt ap false) as [l2|] eqn:R2; [|done]. injection R as <-.
    destruct (IH fmt args ap l2 Hn K A R2) as (l' & -> & U'). exists (t' ++ l').
    split; [done|]. rewrite !map_app. congruence. }
  destruct (Z.eqb_spec c (ch "%")) as [->|Hp]; cbn [negb] in *.
  2: { rewrite u8_small in R by lia. by apply (IH' fmt args ap l [c] [c]); [lia|..]. }
  destruct fmt as [|c fmt]; [injection R as <-; by exists []|].
  cbn [length] in Hn. destruct K as [Bc' K]. cbn [render negb] in R. destruct (Z.eqb_spec c 0); [lia|].
  destruct (Z.eqb_spec c (ch "d")) as [->|Hd]; cbn [orb] in K;
    [|destruct ((c =? ch "x") || (c =? ch "p")) eqn:Ex; cbn [orb] in K].
  1,2: destruct args as [|[a|] args]; try done; inversion A as [|? b ? ap' A1 A2]; subst;
    inversion A1; subst; eapply (IH' fmt args ap'); [lia|done|done| |exact R];
    apply map_upper_int; lia.
  destruct (Z.eqb_spec c (ch "s")) as [->|Hs].
  { destruct args as [|[|k] args]; try done. inversion A as [|? b ? ap' A1 A2]; subst.
    destruct (string_text sf m b) as [t|] eqn:T; [|done].
    rewrite (string_arg_text _ _ _ _ _ A1 T). eapply (IH' fmt args ap'); [lia|done|done|done|exact R]. }
  destruct K as [Hc K]. destruct (Z.eqb_spec c (ch "c")); [done|]. rewrite u8_small in R by lia.
  destruct (Z.eqb_spec c (ch "%")) as [->|].
  - by apply (IH' fmt args ap l [ch "%"] [ch "%"]); [lia|..].
  - by apply (IH' fmt args ap l [ch "%"; c] [ch "%"; c]); [lia|..].
Qed.


(** ** [procdump] and [panic] *)

Definition hex_text (n : Z) : list Z := rev (printint_buf (s32 n) 16 false).
Definition dec_text (n : Z) : list Z := rev (printint_buf (s32 n) 10 true).

Definition pcs_text (pcs : list Z) : list Z := flat_map (fun pc => ch " " :: hex_text pc) pcs.

Definition dump_text (mm : mem) (p : proc) : list Z :=
  dec_text (pid p) ++ [ch " "] ++ state_name (state p) ++ [ch " "] ++ upto_nul (name p) ++
  (if decide (state p = SLEEPING)
   then pcs_text (upto_nul (Spinlock.getcallerpcs mm (u32 (c_ebp (context p) + 8)))) else []) ++ [10].

Ltac bytes_tac := repeat constructor; vm_compute; congruence.

(** Running [cprintf] on a constant format: the text is [ktext]'s, the format
    is made of bytes. *)
Lemma cprintf_const fmt args l t h wk s :
  forallb (fun c => (0 <=? c) && (c <? 256)) fmt = true -> Forall arg_bytes args ->
  ktext fmt args = Some l -> screen_ok (scr s) -> (locking s = true -> Lcons ∉ h) ->
  exists s', cprintf (Some fmt) args (Ctx t h wk) s = Ret tt (Ctx t h wk) s' /\ shows s s' l.
Proof.
  intros B. apply cprintf_runs. apply List.Forall_forall. intros c Hc.
  rewrite List.forallb_forall in B. specialize (B c Hc). unfold is_byte. lia.
Qed.

Lemma shows_locking s s' l : shows s s' l -> locking s' = locking s.
Proof. intros (_ & _ & _ & ->). done. Qed.

(** [seq_shows] for parts that need to know whether locking is on. *)
Lemma seq_locked (P : bool -> Prop) (m1 m2 : M console unit) cx s l1 l2 :
  P (locking s) ->
  (exists s1, m1 cx s = Ret tt cx s1 /\ shows s s1 l1) ->
  (forall s1, screen_ok (scr s1) -> P (locking s1) ->
   exists s2, m2 cx s1 = Ret tt cx s2 /\ shows s1 s2 l2) ->
  exists s', (m1 ;; m2) cx s = Ret tt cx s' /\ shows s s' (l1 ++ l2).
Proof.
  intros HP (s1 & E1 & S1) H. destruct (H s1) as (s2 & E2 & S2);
    [apply S1 | by rewrite (shows_locking _ _ _ S1)|].
  exists s2. run E1. split; [done|]. apply (shows_trans s s1 s2 _ _ S1 S2).
Qed.

Section dump.
Context (t : thread) (h : list lockid) (wk : list chan).

Definition may_lock (b : bool) : Prop := b = true -> Lcons ∉ h.

Lemma print_pcs_runs pcs : forall s,
  screen_ok (scr s) -> may_lock (locking s) ->
  exists s', print_pcs pcs (Ctx t h wk) s = Ret tt (Ctx t h wk) s' /\ shows s s' (pcs_text pcs).
Proof.
  induction pcs as [|pc pcs IH]; intros s O L; cbn [print_pcs].
  { exists s. split; [done | by apply shows_nil]. }
  apply (seq_locked may_lock _ _ _ s (ch " " :: hex_text pc)); [done| |auto].
  apply cprintf_const; [done|repeat constructor| |done|done].
  change (cons (ch " ") <$> (app (hex_text pc) <$> Some []) = Some (ch " " :: hex_text pc)).
  generalize (hex_text pc). intros l. cbn. by rewrite app_nil_r.
Qed.

Lemma state_name_bytes st : Forall is_byte (state_name st).
Proof. destruct st; bytes_tac. Qed.

Lemma upto_nul_bytes l : Forall is_byte l -> Forall is_byte (upto_nul l).
Proof. induction 1; cbn [upto_nul]; [constructor|]. destruct (_ =? 0); by constructor. Qed.

Lemma dump_format n a b :
  ktext (str "%d %s %s") [Kint n; Kstr (Some a); Kstr (Some b)]
  = Some (dec_text n ++ [ch " "] ++ a ++ [ch " "] ++ b).
Proof.
  change (app (dec_text n) <$> (cons (ch " ") <$> (app a <$> (cons (ch " ") <$> (app b <$> Some []))))
          = Some (dec_text n ++ [ch " "] ++ a ++ [ch " "] ++ b)).
  generalize (dec_text n). intros d. cbn. by rewrite app_nil_r.
Qed.

Lemma procdump_runs mm l : forall s,
  Forall (fun p => Forall is_byte (name p)) l -> screen_ok (scr s) -> may_lock (locking s) ->
  exists s', procdump mm l (Ctx t h wk) s = Ret tt (Ctx t h wk) s' /\
    shows s s' (flat_map (dump_text mm) (filter (fun p => state p ≠ UNUSED) l)).
Proof.
  induction l as [|p l IH]; intros s B O L; cbn [procdump].
  { exists s. split; [done | by apply shows_nil]. }
  apply Forall_cons in B as [Bp B]. rewrite filter_cons.
  destruct (decide (state p = UNUSED)) as [E|E].
  { rewrite decide_False by tauto. by apply IH. }
  rewrite (decide_True (P := state p ≠ UNUSED)) by done. cbn [flat_map].
  set (tail := flat_map _ _) in *. unfold dump_text. rewrite <- !app_assoc.
  set (rest := _ ++ [10] ++ tail).
  replace (dec_text (pid p) ++ _) with ((dec_text (pid p) ++ [ch " "] ++ state_name (state p) ++
    [ch " "] ++ upto_nul (name p)) ++ rest) by (by rewrite <- !app_assoc).
  apply (seq_locked may_lock); [done| |].
  { apply cprintf_const; [done| |apply dump_format|done|done].
    repeat constructor; cbn; [apply state_name_bytes | by apply upto_nul_bytes]. }
  intros s1 O1 L1. apply (seq_locked may_lock); [done| |].
  { destruct (decide (state p = SLEEPING)); [by apply print_pcs_runs|].
    exists s1. split; [done | by apply shows_nil]. }
  intros s2 O2 L2. apply (seq_locked may_lock); [done| |auto].
  by apply cprintf_const; [|constructor|..].
Qed.

End dump.

(** A message without conversions is its own text. *)
Lemma ktext_plain msg : ch "%" ∉ msg -> ktext msg [] = Some msg.
Proof.
  induction msg as [|c msg IH]; cbn [ktext]; [done|]. rewrite not_elem_of_cons. intros [Hc H].
  destruct (Z.eqb_spec c (ch "%")); [congruence|]. cbn [negb]. by rewrite IH.
Qed.

Lemma panic_format n :
  ktext (str "lapicid %d: panic: ") [Kint n] = Some (str "lapicid " ++ dec_text n ++ str ": panic: ").
Proof.
  change (app (str "lapicid ") <$> (app (dec_text n) <$> Some (str ": panic: "))
          = Some (str "lapicid " ++ dec_text n ++ str ": panic: ")).
  by generalize (dec_text n).
Qed.

(** A panicking CPU gets its message out even if it holds the console lock
    itself: [panic] turns locking off, prints the processor, the message and the
    return addresses, and from then on every [consputc] stops its CPU. *)
Theorem panic_prints_and_freezes mm lapicid frame msg t h wk s :
  Forall is_byte msg -> ch "%" ∉ msg -> screen_ok (scr s) -> uart (scr s) = true ->
  exists s', console_panic mm lapicid frame msg (Ctx t h wk) s = Ret tt (Ctx t h wk) s' /\
    serial (scr s') = serial (scr s) ++ (str "lapicid " ++ dec_text lapicid ++ str ": panic: ") ++
                      msg ++ [10] ++ pcs_text (Spinlock.getcallerpcs mm frame) /\
    forall c cx, consputc c cx s' = Panic "panicked".
Proof.
  intros B P O U. unfold console_panic. mstep. set (s0 := set_locking false s).
  set (m1 := cprintf _ _). set (m2 := cprintf (Some msg) _). set (m3 := cprintf (Some [10]) _).
  set (m4 := print_pcs _).
  assert (exists s4, (m1 ;; m2 ;; m3 ;; m4) (Ctx t h wk) s0 = Ret tt (Ctx t h wk) s4 /\
    shows s0 s4 ((str "lapicid " ++ dec_text lapicid ++ str ": panic: ") ++
                 msg ++ [10] ++ pcs_text (Spinlock.getcallerpcs mm frame))) as (s4 & E & S).
  { apply (seq_locked (fun b => b = false)); [done| |].
    { apply cprintf_const; [done|repeat constructor|apply panic_format|done|done]. }
    intros s1 O1 L1. apply (seq_locked (fun b => b = false)); [done| |].
    { apply cprintf_runs; [done|constructor|by apply ktext_plain|done|congruence]. }
    intros s2 O2 L2. apply (seq_locked (fun b => b = false)); [done| |].
    { apply cprintf_const; [done|constructor|done|done|congruence]. }
    intros s3 O3 L3. apply print_pcs_runs; [done|]. unfold may_lock. congruence. }
  exists (set_scr (set_panicked true (scr s4)) s4).
  split; [|split; [|done]].
  - unfold bind in *. repeat case_match; simplify_eq; done.
  - destruct S as (_ & _ & S & _). change (uart (scr s0)) with (uart (scr s)) in S. by rewrite U in S.
Qed.
