(* ===== verification/ConsoleLine.v ===== *)
(** The console's input queue against its specification: a line editor.

    The abstract state is two byte lists, [ready] for what [consoleread] may
    take and [edit] for the line still being typed.  [press] is the meaning of
    one key, [serve] that of one read.  The ring with its counters refines
    them, whatever the position of the counters, wrap-around included. *)

From stdpp Require Import base numbers list strings.
From S2P Require Import Xv6 Spinlock Proc Prelude Kstring Printf Console.

(** ** Specification *)

Record line := Line { ready : list Z; edit : list Z }.

Definition queued (l : line) : list Z := ready l ++ edit l.

Definition rubout : list Z := [8; 32; 8].

(** The effect of a key: the new state, what is echoed, and whether readers are
    woken. *)
Definition press (c : Z) (l : line) : line * list Z * bool :=
  if c =? control "P" then (l, [], false)
  else if c =? control "U" then
    (Line (ready l) [], concat (replicate (length (edit l)) rubout), false)
  else if (c =? control "H") || (c =? 0x7f) then
    match edit l with
    | [] => (l, [], false)
    | _ => (Line (ready l) (removelast (edit l)), rubout, false)
    end
  else if negb (c =? 0) && (Z.of_nat (length (queued l)) <? INPUT_BUF) then
    let c := if c =? 13 then 10 else c in
    let edit' := edit l ++ [c] in
    if (c =? 10) || (c =? control "D") || (Z.of_nat (length (ready l ++ edit')) =? INPUT_BUF)
    then (Line (ready l ++ edit') [], [c], true)
    else (Line (ready l) edit', [c], false)
  else (l, [], false).

(** A sequence of keys: the final state, the echo, the number of wakeups. *)
Fixpoint press_all (cs : list Z) (l : line) : line * list Z * nat :=
  match cs with
  | [] => (l, [], O)
  | c :: cs' =>
      let '(l1, out1, b) := press c l in
      let '(l2, out2, n) := press_all cs' l1 in
      (l2, out1 ++ out2, ((if b then 1 else 0) + n)%nat)
  end.

(** A read of at most [n] bytes, [started] saying whether some were taken
    before: the bytes taken, those left, and whether the read is complete. *)
Fixpoint serve (n : nat) (started : bool) (q : list Z) : list Z * list Z * bool :=
  match n, q with
  | O, _ => ([], q, true)
  | S _, [] => ([], [], false)
  | S n', c :: q' =>
      if c =? control "D" then ([], if started then q else q', true)
      else if c =? 10 then ([c], q', true)
      else let '(got, kept, full) := serve n' true q' in (c :: got, kept, full)
  end.

(** ** The ring represents a line *)

Definition input_is (s : console) (l : line) : Prop :=
  length (ibuf s) = Z.to_nat INPUT_BUF /\ 0 <= r s < 2 ^ 32 /\
  w s = u32 (r s + Z.of_nat (length (ready l))) /\
  e s = u32 (r s + Z.of_nat (length (queued l))) /\
  Z.of_nat (length (queued l)) <= INPUT_BUF /\
  (forall i c, queued l !! i = Some c -> input_at s (r s + Z.of_nat i) = c) /\
  10 ∉ edit l.

Lemma islot_u32 x : islot (u32 x) = islot x.
Proof. unfold islot, INPUT_BUF. f_equal. word_lia. Qed.

Lemma input_at_u32 s x : input_at s (u32 x) = input_at s x.
Proof. unfold input_at. by rewrite islot_u32. Qed.

Lemma islot_lt x : (islot x < Z.to_nat INPUT_BUF)%nat.
Proof. unfold islot, INPUT_BUF. pose proof (Z.mod_pos_bound x 128). lia. Qed.

Lemma islot_inj x i j :
  0 <= i < INPUT_BUF -> 0 <= j < INPUT_BUF -> islot (x + i) = islot (x + j) -> i = j.
Proof.
  unfold islot, INPUT_BUF. intros Hi Hj H.
  apply Z2Nat.inj in H; [|apply Z.mod_pos_bound; lia..].
  Z.to_euclidean_division_equations. lia.
Qed.

(** Nothing but the queue matters. *)
Lemma input_is_scr s l x : input_is s l -> input_is (set_scr x s) l.
Proof. done. Qed.

Lemma editing_test s l : input_is s l -> (e s =? w s) = bool_decide (edit l = []).
Proof.
  intros (_ & Hr & -> & -> & Hn & _). unfold queued, INPUT_BUF in *. rewrite length_app in *.
  destruct (decide (edit l = [])) as [E|E].
  - rewrite bool_decide_true, E by done. cbn [length]. rewrite Nat.add_0_r. apply Z.eqb_refl.
  - rewrite bool_decide_false by done. apply Z.eqb_neq.
    destruct (edit l); [done|]. cbn [length] in *. word_lia.
Qed.

Lemma room_test s l : input_is s l -> u32 (e s - r s) = Z.of_nat (length (queued l)).
Proof. intros (_ & Hr & _ & -> & Hn & _). unfold INPUT_BUF in *. word_lia. Qed.

Lemma ready_test s l : input_is s l -> (r s =? w s) = bool_decide (ready l = []).
Proof.
  intros (_ & Hr & -> & _ & Hn & _). unfold queued, INPUT_BUF in *. rewrite length_app in *.
  destruct (decide (ready l = [])) as [E|E].
  - rewrite bool_decide_true, E by done. cbn [length]. apply Z.eqb_eq. word_lia.
  - rewrite bool_decide_false by done. apply Z.eqb_neq.
    destruct (ready l); [done|]. cbn [length] in *. word_lia.
Qed.

(** Dropping the last byte of the edited line. *)
Lemma rub_input s l c0 ed :
  input_is s (Line l (ed ++ [c0])) ->
  input_at s (u32 (e s - 1)) = c0 /\ c0 ≠ 10 /\
  input_is (set_e (u32 (e s - 1)) s) (Line l ed).
Proof.
  unfold input_is, queued. cbn [ready edit]. rewrite app_assoc, !length_app. cbn [length].
  intros (Hl & Hr & Hw & He & Hn & Hc & H10).
  assert (u32 (e s - 1) = u32 (r s + Z.of_nat (length (l ++ ed)))) as Ee.
  { rewrite He, length_app. word_lia. }
  split; [|split].
  - rewrite Ee, input_at_u32. apply Hc. by rewrite lookup_app_r, Nat.sub_diag by done.
  - intros ->. apply H10, elem_of_app. right. by apply list_elem_of_singleton.
  - rewrite Ee. unfold INPUT_BUF in *. cbn. rewrite length_app in *.
    split_and!; try done; try lia.
    + intros i c Hi. apply Hc. by apply lookup_app_l_Some.
    + intros H. apply H10, elem_of_app. by left.
Qed.

(** Appending a byte to it. *)
Lemma type_input s l c s' :
  input_is s l -> Z.of_nat (length (queued l)) < INPUT_BUF ->
  s' = set_e (u32 (e s + 1)) (set_ibuf (<[islot (e s) := c]> (ibuf s)) s) ->
  (c ≠ 10 -> input_is s' (Line (ready l) (edit l ++ [c]))) /\
  input_is (set_w (e s') s') (Line (ready l ++ edit l ++ [c]) []).
Proof.
  unfold input_is, queued. cbn [ready edit]. rewrite app_nil_r, (app_assoc _ _ [c]), !length_app. cbn [length].
  intros (Hl & Hr & Hw & He & Hn & Hc & H10) Hlt ->.
  assert (u32 (e s + 1) = u32 (r s + (Z.of_nat (length (ready l) + length (edit l) + 1)))) as Ee.
  { rewrite He. unfold INPUT_BUF in *. word_lia. }
  assert (forall i d, ((ready l ++ edit l) ++ [c]) !! i = Some d ->
    nth (islot (r s + Z.of_nat i)) (<[islot (e s) := c]> (ibuf s)) 0 = d) as Hc'.
  { intros i d Hi.
    rewrite He, islot_u32. apply lookup_app_Some in Hi as [Hi|[Hi Hd]].
    - pose proof (lookup_lt_Some _ _ _ Hi) as Hb. rewrite length_app in Hb.
      rewrite <- (Hc i d Hi). unfold input_at. rewrite !nth_lookup, list_lookup_insert_ne; [done|].
      intros E. apply islot_inj in E; lia.
    - apply list_lookup_singleton_Some in Hd as [Hd <-]. rewrite length_app in *.
      replace i with (length (ready l) + length (edit l))%nat by lia.
      rewrite nth_lookup, list_lookup_insert_eq; [done|]. rewrite Hl. apply islot_lt. }
  split; [intros H|]; cbn; rewrite length_insert;
    split_and!; try done; try (unfold INPUT_BUF in *; lia).
  - rewrite elem_of_app, list_elem_of_singleton. intros [?|?]; [done | congruence].
  - apply not_elem_of_nil.
Qed.

(** Taking a byte. *)
Lemma take_input s c q ed :
  input_is s (Line (c :: q) ed) ->
  input_at s (r s) = c /\ input_is (set_r (u32 (r s + 1)) s) (Line q ed).
Proof.
  unfold input_is, queued. cbn [ready edit app length]. rewrite !length_app.
  intros (Hl & Hr & Hw & He & Hn & Hc & H10). unfold INPUT_BUF in *. split.
  { rewrite <- (Z.add_0_r (r s)). apply (Hc O). done. }
  cbn. pose proof (u32_range (r s + 1)). rewrite ?length_app in *.
  split_and!; try done; try lia; [rewrite Hw; word_lia | rewrite He; word_lia |].
  intros i d Hi. rewrite <- (Hc (S i) d Hi). unfold input_at. cbn [ibuf set_r]. f_equal.
  rewrite <- (islot_u32 (u32 _ + _)), <- (islot_u32 (r s + _)). f_equal. word_lia.
Qed.

(** ** Keys *)

Definition sent (x x' : screen) (l : list Z) : Prop :=
  screen_ok x' /\ uart x' = uart x /\ serial x' = serial x ++ (if uart x then l else []).

Lemma sent_nil x : screen_ok x -> sent x x [].
Proof. intros O. split_and!; [done..|]. destruct (uart x); by rewrite app_nil_r. Qed.

Lemma sent_trans x1 x2 x3 l1 l2 : sent x1 x2 l1 -> sent x2 x3 l2 -> sent x1 x3 (l1 ++ l2).
Proof.
  intros (O1 & U1 & S1) (O2 & U2 & S2). split_and!; [done|congruence|].
  rewrite S2, S1, U1, <- app_assoc. destruct (uart x1); done.
Qed.

(** [s'] holds the line [l] after [out] was echoed. *)
Definition reaches (s s' : console) (l : line) (out : list Z) : Prop :=
  input_is s' l /\ sent (scr s) (scr s') out /\ locking s' = locking s.

Lemma reaches_refl s l : input_is s l -> screen_ok (scr s) -> reaches s s l [].
Proof. intros I O. split_and!; [done | by apply sent_nil | done]. Qed.

Lemma reaches_trans s1 s2 s3 l2 l3 o2 o3 :
  reaches s1 s2 l2 o2 -> reaches s2 s3 l3 o3 -> reaches s1 s3 l3 (o2 ++ o3).
Proof.
  intros (_ & S2 & L2) (I3 & S3 & L3). split_and!; [done | by eapply sent_trans | congruence].
Qed.

(** Echoing a character once the queue has been changed to [s1]. *)
Lemma echo_reaches c cx s s1 l :
  scr s1 = scr s -> locking s1 = locking s -> input_is s1 l -> screen_ok (scr s) ->
  exists x, consputc c cx s1 = Ret tt cx (set_scr x s1) /\ reaches s (set_scr x s1) l (key_echo c).
Proof.
  intros Es El I O. destruct (consputc_runs c cx s1) as (s' & E & O' & U & S & F); [by rewrite Es|].
  exists (scr s'). rewrite <- F. split; [done|]. rewrite F. cbn. unfold reaches.
  split_and!; [done| |done]. unfold sent. cbn. rewrite <- Es. by rewrite U, S.
Qed.

Lemma kill_line_runs cx q ed : forall fuel s,
  (length ed < fuel)%nat -> input_is s (Line q ed) -> screen_ok (scr s) ->
  exists s', kill_line fuel cx s = Ret tt cx s' /\
    reaches s s' (Line q []) (concat (replicate (length ed) rubout)).
Proof.
  induction ed as [|c ed IH] using rev_ind; intros fuel s Hf I O; (destruct fuel as [|fuel]; [lia|]);
    cbn [kill_line]; mstep; rewrite (editing_test s _ I); cbn [edit].
  { exists s. split; [done|]. by apply reaches_refl. }
  destruct (rub_input s q c ed I) as (Ec & H10 & I').
  rewrite bool_decide_false by (by destruct ed). rewrite Ec.
  destruct (Z.eqb_spec c 10); [done|]. cbn [negb andb]. mstep.
  destruct (echo_reaches BACKSPACE cx s (set_e (u32 (e s - 1)) s) (Line q ed)) as (x & E1 & R1);
    [done..|]. run E1.
  rewrite length_app in Hf. cbn [length] in Hf.
  destruct (IH fuel (set_scr x (set_e (u32 (e s - 1)) s))) as (s' & E' & R'); [lia|done|apply R1|].
  exists s'. split; [done|]. rewrite length_app, Nat.add_comm. apply (reaches_trans _ _ _ _ _ _ _ R1 R').
Qed.

(** The test for a full ring after a byte was stored. *)
Lemma full_ring_test s l :
  input_is s l -> Z.of_nat (length (queued l)) < INPUT_BUF ->
  (u32 (e s + 1) =? u32 (r s + INPUT_BUF)) = (Z.of_nat (length (queued l)) + 1 =? INPUT_BUF).
Proof.
  intros (_ & Hr & _ & -> & _) Hn. unfold INPUT_BUF in *.
  apply eq_true_iff_eq. rewrite !Z.eqb_eq. word_lia.
Qed.

(** Storing a character that is not an editing key. *)
Lemma store_key_refines c l t wk s h :
  is_byte c -> input_is s l -> screen_ok (scr s) -> Lptable ∉ h ->
  Z.of_nat (length (queued l)) < INPUT_BUF ->
  let commit := (c =? 10) || (c =? control "D")
                || (Z.of_nat (length (ready l ++ edit l ++ [c])) =? INPUT_BUF) in
  exists s', (put (set_e (u32 (e s + 1)) (set_ibuf (<[islot (e s) := c]> (ibuf s)) s)) ;;
      consputc c ;;
      s <- get ;;
      if (c =? 10) || (c =? control "D") || (e s =? u32 (r s + INPUT_BUF))
      then put (set_w (e s) s) ;; wakeup Cinput ;; ret false
      else ret false) (Ctx t h wk) s
    = Ret false (Ctx t h (wk ++ if commit then [Cinput] else [])) s' /\
    reaches s s' (if commit then Line (ready l ++ edit l ++ [c]) []
                  else Line (ready l) (edit l ++ [c])) [c].
Proof.
  intros Bc I O Hp Er commit. mstep. set (s1 := set_e _ _).
  destruct (type_input s l c s1 I Er eq_refl) as [It Iw].
  destruct (consputc_runs c (Ctx t h wk) s1 O) as (s2 & E2 & O2 & U2 & S2 & F2). run E2.
  rewrite key_echo_byte in S2 by done. mstep.
  assert ((e s2 =? u32 (r s2 + INPUT_BUF)) = (Z.of_nat (length (ready l ++ edit l ++ [c])) =? INPUT_BUF))
    as ->.
  { rewrite F2. cbn [e r set_scr s1 set_e set_ibuf]. rewrite (full_ring_test s l I Er).
    unfold queued. rewrite !length_app. cbn [length]. f_equal. lia. }
  fold commit. destruct commit eqn:Ec.
  - mrun. eexists. split; [done|]. rewrite F2. split_and!; [exact Iw|done|done].
  - exists s2. rewrite app_nil_r. split; [done|]. rewrite F2. split_and!; [|done|done].
    apply It. unfold commit in Ec. intros ->. done.
Qed.

(** One key of the [switch] in [consoleintr] is one [press]. *)
Lemma consoleintr_key_refines c l t wk s l' out b h :
  is_byte c -> input_is s l -> screen_ok (scr s) -> Lptable ∉ h ->
  press c l = (l', out, b) ->
  exists s', consoleintr_key c (Ctx t h wk) s
      = Ret (c =? control "P") (Ctx t h (wk ++ if b then [Cinput] else [])) s' /\
    reaches s s' l' out.
Proof.
  intros Bc I O Hp. unfold press, consoleintr_key.
  destruct (c =? control "P").
  { intros [= <- <- <-]. exists s. rewrite app_nil_r. split; [done | by apply reaches_refl]. }
  destruct (c =? control "U").
  { intros [= <- <- <-]. destruct l as [q ed].
    destruct (kill_line_runs (Ctx t h wk) q ed (S (Z.to_nat INPUT_BUF)) s) as (s' & E & R); [|done..|].
    - destruct I as (_ & _ & _ & _ & Hn & _). unfold queued, INPUT_BUF in *. cbn in Hn.
      rewrite length_app in Hn. lia.
    - exists s'. run E. rewrite app_nil_r. done. }
  destruct ((c =? control "H") || (c =? 0x7f)).
  { mstep. rewrite (editing_test s l I). destruct l as [q ed]. cbn [edit ready].
    destruct ed as [|d ed _] using rev_ind.
    { intros [= <- <- <-]. exists s. rewrite app_nil_r. split; [done | by apply reaches_refl]. }
    rewrite bool_decide_false by (by destruct ed). cbn [negb].
    destruct (rub_input s q d ed I) as (_ & _ & I').
    destruct (ed ++ [d]) as [|d' ed'] eqn:Ed; [by destruct ed|]. rewrite <- Ed, removelast_last.
    intros [= <- <- <-]. mstep.
    destruct (echo_reaches BACKSPACE (Ctx t h wk) s (set_e (u32 (e s - 1)) s) (Line q ed))
      as (x & E1 & R1); [done..|]. run E1. rewrite app_nil_r. by eexists. }
  mstep. rewrite (room_test s l I).
  destruct (negb (c =? 0) && (Z.of_nat (length (queued l)) <? INPUT_BUF)) eqn:Er.
  2: { intros [= <- <- <-]. exists s. rewrite app_nil_r. split; [done | by apply reaches_refl]. }
  apply andb_true_iff in Er as [_ Er]. apply Z.ltb_lt in Er.
  cbv zeta. set (c1 := if c =? 13 then 10 else c).
  assert (is_byte c1) as Bc1 by (unfold c1, is_byte in *; destruct (c =? 13); lia).
  rewrite (u8_small c1) by done.
  destruct (store_key_refines c1 l t wk s h Bc1 I O Hp Er) as (s' & E & R).
  set (commit := (_ || _) || (_ =? INPUT_BUF)) in *. intros H. exists s'. rewrite E.
  destruct commit; by injection H as <- <- <-.
Qed.

Lemma consoleintr_loop_refines t h cs : forall l wk s d l' out n,
  Forall is_byte cs -> input_is s l -> screen_ok (scr s) -> Lptable ∉ h ->
  press_all cs l = (l', out, n) ->
  exists s', consoleintr_loop cs d (Ctx t h wk) s
      = Ret (d || existsb (Z.eqb (control "P")) cs) (Ctx t h (wk ++ replicate n Cinput)) s' /\
    reaches s s' l' out.
Proof.
  induction cs as [|c cs IH]; intros l wk s d l' out n B I O Hp; cbn [press_all consoleintr_loop].
  { intros [= <- <- <-]. exists s. cbn. rewrite orb_false_r, app_nil_r.
    split; [done | by apply reaches_refl]. }
  apply Forall_cons in B as [Bc B].
  destruct (press c l) as [[l1 out1] b] eqn:E1. destruct (press_all cs l1) as [[l2 out2] n2] eqn:E2.
  intros [= <- <- <-]. destruct (Z.leb_spec 0 c); [|unfold is_byte in Bc; lia].
  destruct (consoleintr_key_refines c l t wk s l1 out1 b h Bc I O Hp E1) as (s1 & R1 & H1). run R1.
  destruct (IH l1 (wk ++ if b then [Cinput] else []) s1 (d || (c =? control "P")) _ _ _
              B (proj1 H1) (proj1 (proj1 (proj2 H1))) Hp E2) as (s2 & R2 & H2).
  exists s2. split; [|by eapply reaches_trans]. rewrite R2. cbn [existsb].
  rewrite (Z.eqb_sym c), orb_assoc. do 2 f_equal.
  rewrite <- app_assoc. f_equal. by destruct b.
Qed.

Lemma consoleintr_runs mm procs cs l l' out n t h wk s :
  Forall is_byte cs -> Forall (fun p => Forall is_byte (name p)) procs ->
  input_is s l -> screen_ok (scr s) -> uart (scr s) = true ->
  Lcons ∉ h -> Lptable ∉ h -> press_all cs l = (l', out, n) ->
  exists s', consoleintr mm procs cs (Ctx t h wk) s
      = Ret tt (Ctx t h (wk ++ replicate n Cinput)) s' /\
    input_is s' l' /\ screen_ok (scr s') /\
    serial (scr s') = serial (scr s) ++ out ++
      (if existsb (Z.eqb (control "P")) cs
       then flat_map (dump_text mm) (filter (fun p => state p ≠ UNUSED) procs) else []).
Proof.
  intros B N I O U Hc Hp E. unfold consoleintr. mstep.
  destruct (consoleintr_loop_refines t (Lcons :: h) cs l wk s false l' out n B I O) as (s1 & R1 & I1 & S1 & L1);
    [lock_tac|done|]. run R1. cbn [orb]. erewrite bind_Ret by apply release_head.
  destruct S1 as (O1 & U1 & S1). rewrite U in S1.
  destruct (existsb _ cs).
  - destruct (procdump_runs t h (wk ++ replicate n Cinput) mm procs s1 N O1) as (s2 & R2 & O2 & U2 & S2 & F2);
      [by intros _|]. exists s2. split; [done|]. split; [rewrite F2; by apply input_is_scr|].
    split; [done|]. rewrite S2, S1, U1, U. by rewrite <- app_assoc.
  - exists s1. split; [done|]. rewrite app_nil_r. done.
Qed.

(** C13: The console interrupt handler refines the line editor: whatever keys
    arrive, and wherever the ring's counters stand, it returns without panic,
    the queue becomes the one the editor specifies, the echo (followed by the
    process listing if control-P was typed) goes to the serial line, and readers
    are woken exactly when a line is complete. *)
Theorem consoleintr_refines mm procs cs l l' out n t h wk s :
  Forall is_byte cs -> Forall (fun p => Forall is_byte (name p)) procs ->
  input_is s l -> screen_ok (scr s) -> uart (scr s) = true ->
  Lcons ∉ h -> Lptable ∉ h -> press_all cs l = (l', out, n) ->
  exists s', consoleintr mm procs cs (Ctx t h wk) s
      = Ret tt (Ctx t h (wk ++ replicate n Cinput)) s' /\
    input_is s' l' /\ screen_ok (scr s') /\
    serial (scr s') = serial (scr s) ++ out ++
      (if existsb (Z.eqb (control "P")) cs
       then flat_map (dump_text mm) (filter (fun p => state p ≠ UNUSED) procs) else []).
Proof. apply consoleintr_runs. Qed.

(** ** Reads *)

Section read.
Context (iunlock ilock : M console unit).
(** Locking and unlocking the console's inode does not touch the console. *)
Hypothesis iunlock_neutral : forall cx s, iunlock cx s = Ret tt cx s.
Hypothesis ilock_neutral : forall cx s, ilock cx s = Ret tt cx s.

Lemma leave_read (a : option (list Z)) t h wk s :
  (release Lcons ;; ilock ;; ret a) (Ctx t (Lcons :: h) wk) s = Ret a (Ctx t h wk) s.
Proof. erewrite bind_Ret by apply release_head. by erewrite bind_Ret by apply ilock_neutral. Qed.

Lemma consoleread_loop_refines t h wk ed n : forall got q s l kept full,
  input_is s (Line q ed) -> serve n (bool_decide (got ≠ [])) q = (l, kept, full) ->
  exists s', input_is s' (Line kept ed) /\ scr s' = scr s /\
    consoleread_loop ilock n got (Ctx t (Lcons :: h) wk) s
    = (if full then Ret (Some (got ++ l)) (Ctx t h wk) s'
       else if t_killed t then Ret None (Ctx t h wk) s'
       else sleep Cinput Lcons (Ctx t (Lcons :: h) wk) s').
Proof.
  induction n as [|n IH]; intros got q s l kept full I E; cbn [serve consoleread_loop] in *.
  { injection E as <- <- <-. exists s. by rewrite leave_read, app_nil_r. }
  mstep. rewrite (ready_test s _ I). cbn [ready]. destruct q as [|c q].
  { injection E as <- <- <-. exists s. rewrite bool_decide_true by done. mstep.
    by destruct (t_killed t); rewrite ?leave_read. }
  rewrite bool_decide_false by done. destruct (take_input s c q ed I) as [Ec I'].
  cbv zeta. rewrite Ec. destruct (c =? control "D").
  { injection E as <- <- <-. rewrite app_nil_r. destruct (decide (got = [])) as [->|Hg].
    - rewrite bool_decide_false by tauto. mstep. rewrite leave_read. by eexists.
    - rewrite bool_decide_true by done. mstep. rewrite leave_read. by eexists. }
  mstep. destruct (c =? 10).
  { injection E as <- <- <-. rewrite leave_read. by eexists. }
  destruct (serve n true q) as [[l1 k1] f1] eqn:E1. injection E as <- <- <-.
  destruct (IH (got ++ [c]) q (set_r (u32 (r s + 1)) s) l1 k1 f1 I') as (s' & Is & Es & R).
  { by rewrite bool_decide_true by (by destruct got). }
  exists s'. rewrite R. split; [done|]. split; [done|]. by rewrite <- app_assoc.
Qed.

Lemma consoleread_runs n q ed l kept full t h wk s :
  Lcons ∉ h -> input_is s (Line q ed) -> serve n false q = (l, kept, full) ->
  exists s', input_is s' (Line kept ed) /\ scr s' = scr s /\
    consoleread iunlock ilock n (Ctx t h wk) s
    = (if full then Ret (Some l) (Ctx t h wk) s'
       else if t_killed t then Ret None (Ctx t h wk) s'
       else sleep Cinput Lcons (Ctx t (Lcons :: h) wk) s').
Proof.
  intros Hh I E. unfold consoleread. erewrite bind_Ret by apply iunlock_neutral. mstep.
  by apply (consoleread_loop_refines t h wk ed n [] q).
Qed.

(** A console read refines the specification: it takes the bytes of the
    first line, at most [n] of them, and no more; control-D ends the read and is
    kept for the next one unless it comes first; when the ready bytes end before
    the line does, the reader sleeps on the queue (or returns -1 if killed); the
    line being edited is never touched. *)
Theorem consoleread_refines n q ed l kept full t wk s :
  input_is s (Line q ed) -> serve n false q = (l, kept, full) ->
  exists s', input_is s' (Line kept ed) /\ scr s' = scr s /\
    consoleread iunlock ilock n (Ctx t [] wk) s
    = (if full then Ret (Some l) (Ctx t [] wk) s'
       else if t_killed t then Ret None (Ctx t [] wk) s'
       else Sleep Cinput Lcons (Ctx t [] wk) s').
Proof.
  intros I E. destruct (consoleread_runs n q ed l kept full t [] wk s) as (s' & Is & Es & R);
    [apply not_elem_of_nil|done..|]. exists s'. split; [done|]. split; [done|]. rewrite R.
  by destruct full, (t_killed t).
Qed.

(** ** A typed line is the line read *)

(** Keys that stand for themselves. *)
Definition ordinary (c : Z) : bool :=
  (0 <? c) && (c <? 256) &&
  negb (existsb (Z.eqb c) [10; 13; 0x7f; control "P"; control "U"; control "H"; control "D"]).

Lemma press_ordinary c l :
  ordinary c = true -> Z.of_nat (length (queued l)) + 1 < INPUT_BUF ->
  press c l = (Line (ready l) (edit l ++ [c]), [c], false).
Proof.
  unfold ordinary. cbn [existsb]. rewrite !andb_true_iff, negb_true_iff, !orb_false_iff.
  intros [[H0 H1] H] Hn. decompose [and] H. unfold press.
  repeat match goal with Hq : (c =? _) = false |- _ => rewrite Hq; clear Hq end.
  destruct (Z.eqb_spec c 0); [lia|]. destruct (Z.ltb_spec (Z.of_nat (length (queued l))) INPUT_BUF); [|lia].
  cbn [orb negb andb]. unfold queued in *. rewrite !length_app in *. cbn [length].
  destruct (Z.eqb_spec (Z.of_nat (length (ready l) + (length (edit l) + 1))) INPUT_BUF); [lia | done].
Qed.

Lemma press_all_ordinary txt : forall l,
  forallb ordinary txt = true -> Z.of_nat (length (queued l) + length txt) < INPUT_BUF ->
  press_all txt l = (Line (ready l) (edit l ++ txt), txt, O).
Proof.
  induction txt as [|c txt IH]; intros l H Hn; cbn [press_all].
  { rewrite app_nil_r. by destruct l. }
  cbn [forallb length] in *. apply andb_true_iff in H as [Hc H].
  rewrite press_ordinary by (done || lia). rewrite IH; [cbn [ready edit]; by rewrite <- app_assoc | done|].
  unfold queued in *. cbn [ready edit]. rewrite !length_app in *. cbn [length]. lia.
Qed.

Lemma press_all_app cs1 cs2 l l1 o1 n1 l2 o2 n2 :
  press_all cs1 l = (l1, o1, n1) -> press_all cs2 l1 = (l2, o2, n2) ->
  press_all (cs1 ++ cs2) l = (l2, o1 ++ o2, (n1 + n2)%nat).
Proof.
  revert l l1 o1 n1. induction cs1 as [|c cs1 IH]; intros l l1 o1 n1 E1 E2; cbn [press_all app] in *.
  { by injection E1 as <- <- <-. }
  destruct (press c l) as [[l' o'] b]. destruct (press_all cs1 l') as [[l'' o''] n''] eqn:E.
  injection E1 as <- <- <-. rewrite (IH l' _ _ _ E E2), <- app_assoc, Nat.add_assoc. done.
Qed.

Lemma serve_line n txt q started :
  forallb ordinary txt = true -> (length txt < n)%nat ->
  serve n started (txt ++ 10 :: q) = (txt ++ [10], q, true).
Proof.
  revert n started. induction txt as [|c txt IH]; intros n started H Hn;
    (destruct n as [|n]; [cbn in Hn; lia|]); cbn [serve app]; [done|].
  cbn [forallb length] in *. apply andb_true_iff in H as [Hc H].
  unfold ordinary in Hc. cbn [existsb] in Hc.
  rewrite !andb_true_iff, negb_true_iff, !orb_false_iff in Hc.
  destruct Hc as [_ Hc]. decompose [and] Hc.
  repeat match goal with Hq : (c =? _) = false |- _ => rewrite Hq; clear Hq end.
  by rewrite IH by (done || lia).
Qed.

Lemma press_newline c l :
  c = 10 \/ c = 13 -> Z.of_nat (length (queued l)) < INPUT_BUF ->
  press c l = (Line (ready l ++ edit l ++ [10]) [], [10], true).
Proof.
  intros Hc Hn. unfold press. destruct (Z.ltb_spec (Z.of_nat (length (queued l))) INPUT_BUF); [|lia].
  by destruct Hc as [-> | ->].
Qed.

Lemma ordinary_bytes txt : forallb ordinary txt = true -> Forall is_byte txt.
Proof.
  rewrite List.forallb_forall, List.Forall_forall. intros H c Hc. specialize (H c Hc).
  unfold ordinary, is_byte in *. rewrite !andb_true_iff in H. lia.
Qed.

Lemma typed_line_keys junk txt c :
  c = 10 \/ c = 13 -> forallb ordinary junk = true -> forallb ordinary txt = true ->
  Z.of_nat (length junk) < INPUT_BUF -> Z.of_nat (length txt) < INPUT_BUF ->
  exists out, press_all (junk ++ control "U" :: txt ++ [c]) (Line [] [])
              = (Line (txt ++ [10]) [], out, 1%nat).
Proof.
  intros Hc Hj Ht Lj Lt. eexists.
  eapply (press_all_app junk _ _ _ _ O _ _ 1); [by apply press_all_ordinary|].
  eapply (press_all_app [_] _ _ (Line [] []) _ O _ _ 1); [done|].
  eapply (press_all_app txt _ _ _ _ O _ _ 1); [by apply press_all_ordinary|].
  cbn [press_all]. by rewrite press_newline.
Qed.

(** What is typed is what is read: on an empty queue, characters followed by
    control-U, a line of text and the return key leave exactly that line,
    newline-terminated, for the next read large enough, and wake the reader
    once. *)
Theorem typed_line_is_read mm procs junk txt c n t t' h wk wk' s :
  c = 10 \/ c = 13 -> forallb ordinary junk = true -> forallb ordinary txt = true ->
  Z.of_nat (length junk) < INPUT_BUF -> Z.of_nat (length txt) < INPUT_BUF -> (length txt < n)%nat ->
  input_is s (Line [] []) -> screen_ok (scr s) -> uart (scr s) = true ->
  Forall (fun p => Forall is_byte (name p)) procs -> Lcons ∉ h -> Lptable ∉ h ->
  exists s1 s2,
    consoleintr mm procs (junk ++ control "U" :: txt ++ [c]) (Ctx t h wk) s
      = Ret tt (Ctx t h (wk ++ [Cinput])) s1 /\
    consoleread iunlock ilock n (Ctx t' [] wk') s1 = Ret (Some (txt ++ [10])) (Ctx t' [] wk') s2 /\
    input_is s2 (Line [] []).
Proof.
  intros Hc Hj Ht Lj Lt Hn I O U N Hh Hp.
  destruct (typed_line_keys junk txt c Hc Hj Ht Lj Lt) as (out & E).
  destruct (consoleintr_runs mm procs (junk ++ control "U" :: txt ++ [c]) (Line [] [])
              (Line (txt ++ [10]) []) out 1 t h wk s)
    as (s1 & R1 & I1 & O1 & _); [|done..|].
  { rewrite Forall_app, Forall_cons, Forall_app, Forall_singleton. unfold is_byte at 2 4.
    split_and!; try by apply ordinary_bytes. all: change (control "U") with 21; lia. }
  destruct (consoleread_runs n (txt ++ [10]) [] (txt ++ [10]) [] true t' [] wk' s1) as (s2 & I2 & _ & R2);
    [apply not_elem_of_nil | done | by apply (serve_line n txt [])|].
  exists s1, s2. done.
Qed.

End read.

(** ** Witnesses *)

Module Demo.

Definition scr0 : screen := Screen false true [] (replicate (Z.to_nat CRTSIZE) 0) 0.

(** An empty ring whose counters are about to wrap around. *)
Definition cons0 : console :=
  Console true scr0 (replicate (Z.to_nat INPUT_BUF) 0) (2 ^ 32 - 2) (2 ^ 32 - 2) (2 ^ 32 - 2).

Definition me0 : thread := Thread 1 false.

Lemma scr0_ok : screen_ok scr0.
Proof. by vm_compute. Qed.

Lemma cons0_empty : input_is cons0 (Line [] []).
Proof.
  unfold input_is. split_and!; [by vm_compute..| |apply not_elem_of_nil]. intros i c H. done.
Qed.

Lemma typed_line_is_read_witness : exists s1 s2,
  consoleintr (fun _ => 0) [] (str "xy" ++ control "U" :: str "ls" ++ [13]) (Ctx me0 [] []) cons0
    = Ret tt (Ctx me0 [] [Cinput]) s1 /\
  consoleread (ret tt) (ret tt) 100 (Ctx me0 [] []) s1 = Ret (Some (str "ls" ++ [10])) (Ctx me0 [] []) s2 /\
  input_is s2 (Line [] []).
Proof.
  apply (typed_line_is_read (ret tt) (ret tt)) with (wk := []);
    [reflexivity | reflexivity | by right | reflexivity | reflexivity | reflexivity | reflexivity |
     cbn; lia | apply cons0_empty | apply scr0_ok | reflexivity | constructor |
     apply not_elem_of_nil | apply not_elem_of_nil].
Defined.

Lemma consoleintr_refines_witness : exists s',
  consoleintr (fun _ => 0) [] [97; 98; 8; 13] (Ctx me0 [] []) cons0 = Ret tt (Ctx me0 [] [Cinput]) s' /\
  input_is s' (Line [97; 10] []) /\ screen_ok (scr s') /\
  serial (scr s') = [97; 98; 8; 32; 8; 10].
Proof.
  apply (consoleintr_refines (fun _ => 0) [] [97; 98; 8; 13] (Line [] []) (Line [97; 10] [])
           [97; 98; 8; 32; 8; 10] 1 me0 [] [] cons0);
    [repeat constructor; vm_compute; congruence | constructor | apply cons0_empty | apply scr0_ok |
     reflexivity | apply not_elem_of_nil | apply not_elem_of_nil | reflexivity].
Defined.

Lemma consoleread_refines_witness : exists s',
  input_is s' (Line [] []) /\ scr s' = scr0 /\
  consoleread (ret tt) (ret tt) 10 (Ctx me0 [] []) cons0 = Sleep Cinput Lcons (Ctx me0 [] []) s'.
Proof.
  exact (consoleread_refines (ret tt) (ret tt) (fun _ _ => eq_refl) (fun _ _ => eq_refl)
           10 [] [] [] [] false me0 [] cons0 cons0_empty eq_refl).
Defined.

Lemma panic_prints_and_freezes_witness : exists s',
  console_panic (fun _ => 0) 0 0 (str "acquire") (Ctx me0 [Lcons] []) cons0 = Ret tt (Ctx me0 [Lcons] []) s' /\
  serial (scr s') = (str "lapicid " ++ dec_text 0 ++ str ": panic: ") ++
                    str "acquire" ++ [10] ++ pcs_text (Spinlock.Spinlock.getcallerpcs (fun _ => 0) 0) /\
  forall c cx, consputc c cx s' = Panic "panicked".
Proof.
  apply (panic_prints_and_freezes (fun _ => 0) 0 0 (str "acquire") me0 [Lcons] [] cons0);
    [repeat constructor; vm_compute; congruence | by apply (bool_decide_unpack _) | apply scr0_ok | done].
Defined.

Definition mem0 : mem := fun a => if a =? 8 then 104 else if a =? 9 then 105 else 0.


End Demo.
