(* ===== verification/Kbd.v ===== *)
(** kbd.c and kbd.h: the keyboard driver.

    [kbdgetc] turns scan codes into characters with four tables and a static
    modifier word [shift].  The controller is the list of scan codes waiting in
    it.  The last theorem runs the driver, the console interrupt and a read one
    after the other: keystrokes in, the typed line out. *)

From stdpp Require Import base numbers list strings.
From S2P Require Import Xv6 Proc Prelude Kstring Console ConsoleLine.

Definition NO : Z := 0.
Definition SHIFT : Z := Z.shiftl 1 0.
Definition CTL : Z := Z.shiftl 1 1.
Definition ALT : Z := Z.shiftl 1 2.
Definition CAPSLOCK : Z := Z.shiftl 1 3.
Definition NUMLOCK : Z := Z.shiftl 1 4.
Definition SCROLLLOCK : Z := Z.shiftl 1 5.
Definition E0ESC : Z := Z.shiftl 1 6.

Definition KEY_HOME : Z := 0xE0.
Definition KEY_END : Z := 0xE1.
Definition KEY_UP : Z := 0xE2.
Definition KEY_DN : Z := 0xE3.
Definition KEY_LF : Z := 0xE4.
Definition KEY_RT : Z := 0xE5.
Definition KEY_PGUP : Z := 0xE6.
Definition KEY_PGDN : Z := 0xE7.
Definition KEY_INS : Z := 0xE8.
Definition KEY_DEL : Z := 0xE9.

(** A [uchar] array of 256 entries: the first entries, then designated ones. *)
Definition table (first : list Z) (rest : list (nat * Z)) : list Z :=
  map u8 (foldl (fun l '(i, v) => <[i := v]> l) (first ++ replicate (256 - length first) 0) rest).

Definition shiftcode : list Z :=
  table [] [(0x1D%nat, CTL); (0x2A%nat, SHIFT); (0x36%nat, SHIFT); (0x38%nat, ALT);
            (0x9D%nat, CTL); (0xB8%nat, ALT)].

Definition togglecode : list Z :=
  table [] [(0x3A%nat, CAPSLOCK); (0x45%nat, NUMLOCK); (0x46%nat, SCROLLLOCK)].

(** The entries the three character maps have in common. *)
Definition keypad : list (nat * Z) :=
  [(0xC8%nat, KEY_UP); (0xD0%nat, KEY_DN); (0xC9%nat, KEY_PGUP); (0xD1%nat, KEY_PGDN);
   (0xCB%nat, KEY_LF); (0xCD%nat, KEY_RT); (0x97%nat, KEY_HOME); (0xCF%nat, KEY_END);
   (0xD2%nat, KEY_INS); (0xD3%nat, KEY_DEL)].

Definition normalmap : list Z :=
  table ([NO; 0x1B] ++ str "123456" ++
         str "7890-=" ++ [8; 9] ++
         str "qwertyui" ++
         str "op[]" ++ [10; NO] ++ str "as" ++
         str "dfghjkl;" ++
         str "'`" ++ [NO] ++ str "\zxcv" ++
         str "bnm,./" ++ [NO] ++ str "*" ++
         [NO] ++ str " " ++ [NO; NO; NO; NO; NO; NO] ++
         [NO; NO; NO; NO; NO; NO; NO] ++ str "7" ++
         str "89-456+1" ++
         str "230." ++ [NO; NO; NO; NO])
        ([(0x9C%nat, 10); (0xB5%nat, ch "/")] ++ keypad).

Definition shiftmap : list Z :=
  table ([NO; 27] ++ str "!@#$%^" ++
         str "&*()_+" ++ [8; 9] ++
         str "QWERTYUI" ++
         str "OP{}" ++ [10; NO] ++ str "AS" ++
         str "DFGHJKL:" ++
         [34] ++ str "~" ++ [NO] ++ str "|ZXCV" ++
         str "BNM<>?" ++ [NO] ++ str "*" ++
         [NO] ++ str " " ++ [NO; NO; NO; NO; NO; NO] ++
         [NO; NO; NO; NO; NO; NO; NO] ++ str "7" ++
         str "89-456+1" ++
         str "230." ++ [NO; NO; NO; NO])
        ([(0x9C%nat, 10); (0xB5%nat, ch "/")] ++ keypad).

Definition ctlmap : list Z :=
  table ([NO; NO; NO; NO; NO; NO; NO; NO] ++
         [NO; NO; NO; NO; NO; NO; NO; NO] ++
         [control "Q"; control "W"; control "E"; control "R"; control "T"; control "Y"; control "U"; control "I"] ++
         [control "O"; control "P"; NO; NO; 13; NO; control "A"; control "S"] ++
         [control "D"; control "F"; control "G"; control "H"; control "J"; control "K"; control "L"; NO] ++
         [NO; NO; NO; control "\"; control "Z"; control "X"; control "C"; control "V"] ++
         [control "B"; control "N"; control "M"; NO; NO; control "/"; NO; NO])
        ([(0x9C%nat, 13); (0xB5%nat, control "/")] ++ keypad).

Definition charcode : list (list Z) := [normalmap; shiftmap; ctlmap; ctlmap].

(** [tbl[i]] *)
Definition at_code (tbl : list Z) (i : Z) : Z := nth (Z.to_nat i) tbl 0.

(** [x & ~y] on 32-bit words. *)
Definition clear_bits (x y : Z) : Z := Z.land x (u32 (Z.lnot y)).

(** [kbdgetc] on the scan code [data] the controller holds: the new [shift] and
    the result. *)
Definition kbd_code (shift data : Z) : Z * Z :=
  if data =? 0xE0 then (Z.lor shift E0ESC, 0)
  else if negb (Z.land data 0x80 =? 0) then
    let data := if negb (Z.land shift E0ESC =? 0) then data else Z.land data 0x7F in
    (clear_bits shift (Z.lor (at_code shiftcode data) E0ESC), 0)
  else
    let '(data, shift) :=
      if negb (Z.land shift E0ESC =? 0) then (Z.lor data 0x80, clear_bits shift E0ESC)
      else (data, shift) in
    let shift := Z.lor shift (at_code shiftcode data) in
    let shift := Z.lxor shift (at_code togglecode data) in
    let c := at_code (nth (Z.to_nat (Z.land shift (Z.lor CTL SHIFT))) charcode []) data in
    let c := if negb (Z.land shift CAPSLOCK =? 0) then
               if (ch "a" <=? c) && (c <=? ch "z") then u32 (c + (ch "A" - ch "a"))
               else if (ch "A" <=? c) && (c <=? ch "Z") then u32 (c + (ch "a" - ch "A"))
               else c
             else c in
    (shift, c).

(** [kbdgetc]; without data in the controller's buffer it returns -1. *)
Definition kbdgetc (shift : Z) (codes : list Z) : Z * Z * list Z :=
  match codes with
  | [] => (shift, -1, [])
  | data :: codes' => let '(shift', c) := kbd_code shift data in (shift', c, codes')
  end.

(** The results [consoleintr] gets from [kbdgetc] before the -1. *)
Fixpoint kbd_chars (shift : Z) (codes : list Z) : Z * list Z :=
  match codes with
  | [] => (shift, [])
  | data :: codes' =>
      let '(shift', c) := kbd_code shift data in
      let '(shift'', cs) := kbd_chars shift' codes' in
      (shift'', c :: cs)
  end.

Definition kbdintr (mm : mem) (procs : list proc) (shift : Z) (codes : list Z) : M console Z :=
  let '(shift', cs) := kbd_chars shift codes in
  consoleintr mm procs cs ;; ret shift'.

(** ** The modifier word and the tables *)

Definition code_ok (shift data : Z) : bool :=
  let '(s, c) := kbd_code shift data in
  (0 <=? s) && (s <? 128) && (0 <=? c) && (c <? 256).

Lemma all_codes_ok :
  forallb (fun s => forallb (code_ok (Z.of_nat s)) (map Z.of_nat (seq 0 256))) (seq 0 128) = true.
Proof. vm_compute. reflexivity. Qed.

Lemma kbd_code_ok shift data :
  0 <= shift < 128 -> 0 <= data < 256 ->
  0 <= fst (kbd_code shift data) < 128 /\ 0 <= snd (kbd_code shift data) < 256.
Proof.
  intros Hs Hd. pose proof all_codes_ok as H. rewrite forallb_forall in H.
  specialize (H (Z.to_nat shift)). rewrite in_seq, Z2Nat.id in H by lia. specialize (H ltac:(lia)).
  rewrite forallb_forall in H. specialize (H data). unfold code_ok in H.
  destruct (kbd_code shift data) as [s' c]. cbn [fst snd].
  assert (In data (map Z.of_nat (seq 0 256))) as Hin.
  { apply in_map_iff. exists (Z.to_nat data). rewrite in_seq. lia. }
  specialize (H Hin). rewrite !andb_true_iff in H. lia.
Qed.

(** The modifier word as a set of held keys and locks. *)
Lemma kbd_chars_ok codes : forall shift,
  0 <= shift < 128 -> Forall is_byte codes ->
  0 <= fst (kbd_chars shift codes) < 128 /\ Forall is_byte (snd (kbd_chars shift codes)).
Proof.
  induction codes as [|d codes IH]; intros shift Hs B; cbn [kbd_chars]; [split; [done|constructor]|].
  apply Forall_cons in B as [Bd B].
  destruct (kbd_code_ok shift d Hs Bd) as [Hs' Hc]. destruct (kbd_code shift d) as [s' c].
  cbn [fst snd] in *. destruct (IH s' Hs' B) as [H1 H2]. destruct (kbd_chars s' codes) as [s'' cs].
  split; [done | by constructor].
Qed.

Lemma kbd_chars_app c1 c2 shift s1 cs1 s2 cs2 :
  kbd_chars shift c1 = (s1, cs1) -> kbd_chars s1 c2 = (s2, cs2) ->
  kbd_chars shift (c1 ++ c2) = (s2, cs1 ++ cs2).
Proof.
  revert shift cs1. induction c1 as [|d c1 IH]; intros shift cs1 E1 E2; cbn [kbd_chars app] in *.
  { by injection E1 as <- <-. }
  destruct (kbd_code shift d) as [s' c]. destruct (kbd_chars s' c1) as [s'' cs] eqn:E.
  injection E1 as <- <-. by rewrite (IH s' cs E E2).
Qed.

(** Whatever scan codes arrive, in whatever order, [kbdgetc] indexes its
    tables inside their 256 entries, keeps the modifier word within the seven
    bits kbd.h defines and hands a byte to the console. *)
Theorem kbdgetc_type shift codes :
  0 <= shift < 128 -> Forall is_byte codes ->
  let '(shift', c, rest) := kbdgetc shift codes in
  0 <= shift' < 128 /\ (codes = [] /\ c = -1 \/ is_byte c) /\ Forall is_byte rest /\
  Forall (fun t => length t = 256%nat) (shiftcode :: togglecode :: charcode).
Proof.
  intros Hs B. assert (Forall (fun t => length t = 256%nat) (shiftcode :: togglecode :: charcode)) as HT.
  { repeat constructor. }
  destruct codes as [|d codes]; cbn [kbdgetc].
  { split; [done|]. split; [by left|]. split; [constructor | done]. }
  apply Forall_cons in B as [Bd B]. destruct (kbd_code_ok shift d Hs Bd) as [Hs' Hc].
  destruct (kbd_code shift d) as [s' c]. cbn [fst snd] in *. split_and!; try done; try lia. by right.
Qed.

Lemma kbdgetc_type_witness :
  let '(shift', c, rest) := kbdgetc 0 [0x1E] in
  0 <= shift' < 128 /\ ([0x1E] = [] /\ c = -1 \/ is_byte c) /\ Forall is_byte rest /\
  Forall (fun t => length t = 256%nat) (shiftcode :: togglecode :: charcode).
Proof.
  apply (kbdgetc_type 0 [0x1E]); [lia|]. repeat constructor; vm_compute; congruence.
Defined.

(** ** Typing text *)

(** The first of the keys 1 to 0x58 that a map gives the character [c]. *)
Definition key_in (tbl : list Z) (c : Z) : option Z :=
  List.find (fun i => at_code tbl i =? c) (map Z.of_nat (seq 1 0x58)).

(** Pressing and releasing the key of [c], with the left shift key held down
    for the characters of the upper map. *)
Definition strokes (c : Z) : list Z :=
  match key_in normalmap c with
  | Some i => [i; i + 0x80]
  | None =>
      match key_in shiftmap c with
      | Some i => [0x2A; i; i + 0x80; 0xAA]
      | None => []
      end
  end.

Definition typeable (c : Z) : bool := ordinary c && negb (bool_decide (strokes c = [])).

Definition nonzero (c : Z) : bool := negb (c =? 0).

Lemma strokes_ok :
  forallb (fun c => negb (typeable c) ||
    bool_decide (fst (kbd_chars 0 (strokes c)) = 0 /\
                 List.filter nonzero (snd (kbd_chars 0 (strokes c))) = [c] /\
                 Forall is_byte (strokes c)))
    (map Z.of_nat (seq 0 256)) = true.
Proof. vm_compute. reflexivity. Qed.

Lemma strokes_chars c :
  typeable c = true ->
  exists cs, kbd_chars 0 (strokes c) = (0, cs) /\ List.filter nonzero cs = [c] /\
    Forall is_byte (strokes c).
Proof.
  intros H. pose proof strokes_ok as A. rewrite forallb_forall in A. specialize (A c).
  rewrite H in A. cbn [negb orb] in A.
  assert (In c (map Z.of_nat (seq 0 256))) as Hin.
  { unfold typeable, ordinary in H. rewrite !andb_true_iff in H.
    apply in_map_iff. exists (Z.to_nat c). rewrite in_seq. lia. }
  specialize (A Hin). apply bool_decide_eq_true in A as (A1 & A2 & A3).
  destruct (kbd_chars 0 (strokes c)) as [s cs]. cbn [fst snd] in *. subst s. by exists cs.
Qed.

Lemma text_chars txt :
  forallb typeable txt = true ->
  exists cs, kbd_chars 0 (flat_map strokes txt) = (0, cs) /\ List.filter nonzero cs = txt /\
    Forall is_byte (flat_map strokes txt).
Proof.
  induction txt as [|c txt IH]; cbn [forallb flat_map]; [by exists []|].
  rewrite andb_true_iff. intros [Hc H].
  destruct (strokes_chars c Hc) as (cs1 & E1 & F1 & B1). destruct (IH H) as (cs2 & E2 & F2 & B2).
  exists (cs1 ++ cs2). split; [by eapply kbd_chars_app|]. split; [|by apply Forall_app].
  by rewrite List.filter_app, F1, F2.
Qed.

(** The console ignores the zeros [kbdgetc] returns for modifier keys and key
    releases. *)
Lemma press_all_zeros cs : forall l, press_all cs l = press_all (List.filter nonzero cs) l.
Proof.
  induction cs as [|c cs IH]; intros l; cbn [List.filter press_all]; [done|].
  unfold nonzero at 1. destruct (Z.eqb_spec c 0) as [->|Hc]; cbn [negb press_all].
  - change (press 0 l) with (l, @nil Z, false). rewrite <- IH.
    by destruct (press_all cs l) as [[l' o] n].
  - destruct (press c l) as [[l1 o1] b]. by rewrite IH.
Qed.

Definition ENTER : list Z := [0x1C; 0x9C].

Lemma typed_keys txt :
  forallb typeable txt = true -> Z.of_nat (length txt) < INPUT_BUF ->
  exists cs out, kbd_chars 0 (flat_map strokes txt ++ ENTER) = (0, cs) /\ Forall is_byte cs /\
    press_all cs (Line [] []) = (Line (txt ++ [10]) [], out, 1%nat).
Proof.
  intros H Hn. destruct (text_chars txt H) as (cs & E & F & B).
  assert (forallb ordinary txt = true) as Ho.
  { rewrite forallb_forall in *. intros c Hc. specialize (H c Hc). unfold typeable in H.
    by apply andb_true_iff in H as [H _]. }
  destruct (typed_line_keys [] txt 10 (or_introl eq_refl) eq_refl Ho) as (out & P); [done..|].
  pose proof (kbd_chars_app (flat_map strokes txt) ENTER 0 0 cs 0 [10; 0] E eq_refl) as E'.
  exists (cs ++ [10; 0]), out. split; [done|]. split.
  - pose proof (kbd_chars_ok (flat_map strokes txt ++ ENTER) 0) as K. rewrite E' in K.
    apply K; [lia|]. apply Forall_app. split; [done|]. repeat constructor; vm_compute; congruence.
  - rewrite press_all_zeros, List.filter_app, F. change (List.filter nonzero [10; 0]) with [10].
    cbn [app press_all] in P. change (press (control "U") (Line [] [])) with (Line [] [], @nil Z, false) in P.
    cbv beta iota in P. by destruct (press_all (txt ++ [10]) (Line [] [])) as [[l o] n].
Qed.

(** C14: From the keyboard to the reader: typing a line of characters the keyboard
    has, shifted ones included, and then the return key, on an idle keyboard and
    an empty queue, wakes the reader once and makes the next console read return
    exactly that line with its newline. *)
Theorem keystrokes_are_read iunlock ilock mm procs txt n t t' h wk wk' s :
  (forall cx s, iunlock cx s = Ret tt cx s) -> (forall cx s, ilock cx s = Ret tt cx s) ->
  forallb typeable txt = true -> Z.of_nat (length txt) < INPUT_BUF -> (length txt < n)%nat ->
  input_is s (Line [] []) -> screen_ok (scr s) -> uart (scr s) = true ->
  Forall (fun p => Forall is_byte (name p)) procs -> Lcons ∉ h -> Lptable ∉ h ->
  exists s1 s2,
    kbdintr mm procs 0 (flat_map strokes txt ++ ENTER) (Ctx t h wk) s
      = Ret 0 (Ctx t h (wk ++ [Cinput])) s1 /\
    consoleread iunlock ilock n (Ctx t' [] wk') s1 = Ret (Some (txt ++ [10])) (Ctx t' [] wk') s2 /\
    input_is s2 (Line [] []).
Proof.
  intros Hu Hl Ht Hlen Hn I O U N Hh Hp.
  destruct (typed_keys txt Ht Hlen) as (cs & out & E & B & P).
  destruct (consoleintr_runs mm procs cs (Line [] []) (Line (txt ++ [10]) []) out 1 t h wk s)
    as (s1 & R1 & I1 & _); [done..|].
  assert (forallb ordinary txt = true) as Ho.
  { rewrite forallb_forall in *. intros c Hc. specialize (Ht c Hc). unfold typeable in Ht.
    by apply andb_true_iff in Ht as [Ht _]. }
  destruct (consoleread_runs iunlock ilock Hu Hl n (txt ++ [10]) [] (txt ++ [10]) [] true t' [] wk' s1)
    as (s2 & I2 & _ & R2); [apply not_elem_of_nil | done | by apply (serve_line n txt [])|].
  exists s1, s2. split; [|done]. unfold kbdintr. rewrite E. by run R1.
Qed.

Lemma keystrokes_are_read_witness : exists s1 s2,
  kbdintr (fun _ => 0) [] 0 (flat_map strokes (str "echo Hi!") ++ ENTER) (Ctx Demo.me0 [] []) Demo.cons0
    = Ret 0 (Ctx Demo.me0 [] [Cinput]) s1 /\
  consoleread (ret tt) (ret tt) 64 (Ctx Demo.me0 [] []) s1
    = Ret (Some (str "echo Hi!" ++ [10])) (Ctx Demo.me0 [] []) s2 /\
  input_is s2 (Line [] []).
Proof.
  apply (keystrokes_are_read (ret tt) (ret tt) (fun _ => 0) [] (str "echo Hi!") 64
           Demo.me0 Demo.me0 [] [] [] Demo.cons0);
    [reflexivity | reflexivity | vm_compute; reflexivity | reflexivity | cbn; lia |
     apply Demo.cons0_empty | apply Demo.scr0_ok | reflexivity | constructor |
     apply not_elem_of_nil | apply not_elem_of_nil].
Defined.
