(* ===== verification/Ide.v ===== *)
(** ide.c: the IDE disk driver.

    Requests wait in a queue threaded through the buffers' [qnext] fields; the
    first one is being served by the drive.  [iderw] appends a request and
    sleeps on the buffer, [ideintr] finishes the first request, wakes its owner
    and starts the next one.  The drive is hardware: it decodes the task file
    registers the driver has written and transfers one 512-byte sector.  The
    theorems show that requests are served first come first served, that each
    transfers the right block, and that every waiter is woken. *)

From stdpp Require Import base numbers list functions strings.
From S2P Require Import Xv6 Prelude Kstring Sleeplock Bio.

Definition SECTOR_SIZE : Z := 512.
Definition IDE_BSY : Z := 0x80.
Definition IDE_DRDY : Z := 0x40.
Definition IDE_DF : Z := 0x20.
Definition IDE_ERR : Z := 0x01.

Definition IDE_CMD_READ : Z := 0x20.
Definition IDE_CMD_WRITE : Z := 0x30.
Definition IDE_CMD_RDMUL : Z := 0xc4.
Definition IDE_CMD_WRMUL : Z := 0xc5.

(** [ports] are the last bytes written to the drive's registers, [fifo] the
    data sent to it, [status] what it reports once it is no longer busy, and
    [images] the contents of the two drives. *)
Record ide := Ide {
  bf : nat -> buf;
  idequeue : option nat;
  havedisk1 : bool;
  ports : Z -> Z;
  fifo : list Z;
  status : Z;
  images : bool -> mem }.

Definition set_bf v (s : ide) : ide :=
  Ide v (idequeue s) (havedisk1 s) (ports s) (fifo s) (status s) (images s).
Definition set_idequeue v (s : ide) : ide :=
  Ide (bf s) v (havedisk1 s) (ports s) (fifo s) (status s) (images s).
Definition set_ports v (s : ide) : ide :=
  Ide (bf s) (idequeue s) (havedisk1 s) v (fifo s) (status s) (images s).
Definition set_fifo v (s : ide) : ide :=
  Ide (bf s) (idequeue s) (havedisk1 s) (ports s) v (status s) (images s).
Definition set_images v (s : ide) : ide :=
  Ide (bf s) (idequeue s) (havedisk1 s) (ports s) (fifo s) (status s) v.
Definition upd_buf (i : nat) (f : buf -> buf) (s : ide) : ide := set_bf (<[i := f (bf s i)]> (bf s)) s.

(** ** The drive *)

(** The unit, sector and command in the task file registers. *)
Definition drive_unit (p : Z -> Z) : bool := Z.testbit (p 0x1f6) 4.
Definition drive_lba (p : Z -> Z) : Z :=
  p 0x1f3 + 2 ^ 8 * p 0x1f4 + 2 ^ 16 * p 0x1f5 + 2 ^ 24 * Z.land (p 0x1f6) 0xf.

Definition sector (s : ide) (u : bool) (n : Z) : list Z :=
  bytes_at (images s u) (n * SECTOR_SIZE) (Z.to_nat SECTOR_SIZE).

Definition write_sector (u : bool) (n : Z) (l : list Z) (s : ide) : ide :=
  set_images (fun v => if Bool.eqb v u then put_bytes (images s u) (n * SECTOR_SIZE) l else images s v) s.

(** What the drive does before it raises its interrupt: a write command stores
    the data it was sent, a read command makes the sector available. *)
Definition drive_exec (s : ide) : ide :=
  if ports s 0x1f7 =? IDE_CMD_WRITE
  then write_sector (drive_unit (ports s)) (drive_lba (ports s)) (fifo s) s else s.

Definition outb (port v : Z) : M ide unit :=
  modify (fun s => set_ports (<[port := u8 v]> (ports s)) s).

Definition outsl (l : list Z) : M ide unit := modify (set_fifo l).

(** [insl]: the sector the last read command asked for. *)
Definition insl : M ide (list Z) :=
  s <- get ;; ret (sector s (drive_unit (ports s)) (drive_lba (ports s))).

(** ** The driver *)

(** [idewait], once the drive is ready. *)
Definition idewait (checkerr : bool) : M ide Z :=
  s <- get ;;
  if checkerr && negb (Z.land (status s) (Z.lor IDE_DF IDE_ERR) =? 0) then ret (-1) else ret 0.

Definition idestart (i : option nat) : M ide unit :=
  match i with
  | None => panic "idestart"
  | Some i =>
      s <- get ;;
      let b := bf s i in
      if FSSIZE <=? blockno b then panic "incorrect blockno" else
      let sector_per_block := BSIZE / SECTOR_SIZE in
      let sector := s32 (blockno b * sector_per_block) in
      let read_cmd := if sector_per_block =? 1 then IDE_CMD_READ else IDE_CMD_RDMUL in
      let write_cmd := if sector_per_block =? 1 then IDE_CMD_WRITE else IDE_CMD_WRMUL in
      if 7 <? sector_per_block then panic "idestart" else
      idewait false ;;
      outb 0x3f6 0 ;;
      outb 0x1f2 sector_per_block ;;
      outb 0x1f3 (Z.land sector 0xff) ;;
      outb 0x1f4 (Z.land (Z.shiftr sector 8) 0xff) ;;
      outb 0x1f5 (Z.land (Z.shiftr sector 16) 0xff) ;;
      outb 0x1f6 (Z.lor (Z.lor 0xe0 (Z.shiftl (Z.land (dev b) 1) 4)) (Z.land (Z.shiftr sector 24) 0x0f)) ;;
      if has_flag B_DIRTY b then outb 0x1f7 write_cmd ;; outsl (data b)
      else outb 0x1f7 read_cmd
  end.

(** The part of [ideintr] that finishes the request of buffer [i]:
    [if(!(b->flags & B_DIRTY) && idewait(1) >= 0) insl(...)] and the flags. *)
Definition ide_finish (i : nat) : M ide unit :=
  s <- get ;;
  (if negb (has_flag B_DIRTY (bf s i)) then
     r <- idewait true ;;
     if 0 <=? r then l <- insl ;; modify (upd_buf i (set_data l)) else ret tt
   else ret tt) ;;
  modify (upd_buf i (fun b => set_flags (Z.lor (flags b) B_VALID) b)) ;;
  modify (upd_buf i (fun b => set_flags (Z.ldiff (flags b) B_DIRTY) b)).

Definition ideintr : M ide unit :=
  acquire Lide ;;
  s <- get ;;
  match idequeue s with
  | None => release Lide
  | Some i =>
      put (set_idequeue (qnext (bf s i)) s) ;;
      ide_finish i ;;
      wakeup (Cbuf i) ;;
      s <- get ;;
      (match idequeue s with Some j => idestart (Some j) | None => ret tt end) ;;
      release Lide
  end.

(** The last buffer of the chain from [i]; a chain has at most [NBUF] buffers. *)
Fixpoint last_of (fuel : nat) (bs : nat -> buf) (i : nat) : option nat :=
  match fuel with
  | O => None
  | S f => match qnext (bs i) with None => Some i | Some j => last_of f bs j end
  end.

(** [for(pp=&idequeue; *pp; pp=&( *pp)->qnext) ; *pp = b]. *)
Definition enqueue (i : nat) : M ide unit :=
  s <- get ;;
  match idequeue s with
  | None => put (set_idequeue (Some i) s)
  | Some h =>
      match last_of NBUF (bf s) h with
      | Some t => put (upd_buf t (set_qnext (Some i)) s)
      | None => undef "idequeue"
      end
  end.

(** The [while] loop at the end of [iderw]; a call that slept resumes here with
    [idelock] taken again. *)
Definition iderw_wait (i : nat) : M ide unit :=
  s <- get ;;
  if negb (Z.land (flags (bf s i)) (Z.lor B_VALID B_DIRTY) =? B_VALID)
  then sleep (Cbuf i) Lide
  else release Lide.

Definition ide_rw (i : nat) : M ide unit :=
  h <- zoom (fun s => lock (bf s i)) (fun _ s => s) (holdingsleep (Z.of_nat i)) ;;
  s <- get ;;
  if negb h then panic "iderw: buf not locked"
  else if Z.land (flags (bf s i)) (Z.lor B_VALID B_DIRTY) =? B_VALID then panic "iderw: nothing to do"
  else if negb (dev (bf s i) =? 0) && negb (havedisk1 s) then panic "iderw: ide disk 1 not present"
  else
    acquire Lide ;;
    modify (upd_buf i (set_qnext None)) ;;
    enqueue i ;;
    s <- get ;;
    (if decide (idequeue s = Some i) then idestart (Some i) else ret tt) ;;
    iderw_wait i.

(** ** The queue *)

(** Following [qnext] from [p] visits [q] and ends. *)
Fixpoint chain (bs : nat -> buf) (p : option nat) (q : list nat) : Prop :=
  match q with
  | [] => p = None
  | i :: q' => p = Some i /\ chain bs (qnext (bs i)) q'
  end.

Lemma chain_ext bs bs' p q :
  (forall i, i ∈ q -> qnext (bs' i) = qnext (bs i)) -> chain bs p q -> chain bs' p q.
Proof.
  revert p. induction q as [|i q IH]; intros p H; cbn [chain]; [done|]. intros [-> C].
  split; [done|]. rewrite (H i) by (by left). apply IH; [|done]. intros j Hj. apply H. by right.
Qed.

Lemma chain_last bs i q : forall fuel,
  chain bs (Some i) (i :: q) -> (length q < fuel)%nat ->
  exists t, last_of fuel bs i = Some t /\ last (i :: q) = Some t.
Proof.
  revert i. induction q as [|j q IH]; intros i fuel [_ C] Hf; (destruct fuel as [|f]; [lia|]);
    cbn [last_of]; cbn [chain] in C.
  - rewrite C. by exists i.
  - destruct C as [E C]. rewrite E. destruct (IH j f) as (t & E1 & E2).
    + by split.
    + cbn [length] in Hf. lia.
    + by exists t.
Qed.

Lemma chain_append bs p q t i :
  chain bs p q -> last q = Some t -> NoDup q -> i ∉ q -> qnext (bs i) = None ->
  chain (<[t := set_qnext (Some i) (bs t)]> bs) p (q ++ [i]).
Proof.
  revert p. induction q as [|j q IH]; intros p C L N Hi Hn; [done|].
  apply NoDup_cons in N as [Nj N]. apply not_elem_of_cons in Hi as [Hij Hi].
  cbn [chain app] in *. destruct C as [-> C]. split; [done|].
  destruct q as [|k q].
  - injection L as ->. rewrite fn_lookup_insert. cbn. split; [done|].
    by rewrite fn_lookup_insert_ne by done.
  - assert (last (k :: q) = Some t) as L' by done.
    rewrite fn_lookup_insert_ne; [by apply IH|].
    intros ->. apply Nj. by apply last_Some_elem_of.
Qed.

(** ** Requests *)

(** A buffer the driver can be given. *)
Record request (b : buf) : Prop := {
  rq_flags : flags b = 0 \/ flags b = Z.lor B_VALID B_DIRTY;
  rq_block : 0 <= blockno b < FSSIZE;
  rq_dev : 0 <= dev b;
  rq_data : length (data b) = Z.to_nat BSIZE }.

Definition wants_write (b : buf) : bool := has_flag B_DIRTY b.
Definition unit_of (b : buf) : bool := Z.testbit (dev b) 0.

(** The task file registers hold the request of [b]. *)
Record programmed (s : ide) (b : buf) : Prop := {
  pg_unit : drive_unit (ports s) = unit_of b;
  pg_lba : drive_lba (ports s) = blockno b;
  pg_count : ports s 0x1f2 = 1;
  pg_command : ports s 0x1f7 = if wants_write b then IDE_CMD_WRITE else IDE_CMD_READ;
  pg_data : wants_write b = true -> fifo s = data b }.

Lemma unit_register dv x :
  0 <= dv -> 0 <= x < 16 ->
  drive_unit (fun _ => u8 (Z.lor (Z.lor 0xe0 (Z.shiftl (Z.land dv 1) 4)) x)) = Z.testbit dv 0 /\
  Z.land (u8 (Z.lor (Z.lor 0xe0 (Z.shiftl (Z.land dv 1) 4)) x)) 0xf = x.
Proof.
  intros Hd Hx. unfold drive_unit.
  assert (Z.land dv 1 = if Z.testbit dv 0 then 1 else 0) as ->.
  { change 1 with (Z.ones 1) at 1. rewrite Z.land_ones by lia. change (2 ^ 1) with 2.
    rewrite Z.bit0_odd, Zmod_odd. done. }
  generalize (Z.testbit dv 0). intros b.
  assert (forall x, 0 <= x < 16 ->
    (Bool.eqb (Z.testbit (u8 (Z.lor (Z.lor 0xe0 (Z.shiftl (if b then 1 else 0) 4)) x)) 4) b &&
    (Z.land (u8 (Z.lor (Z.lor 0xe0 (Z.shiftl (if b then 1 else 0) 4)) x)) 0xf =? x)) = true) as H.
  { apply forall_range. destruct b; vm_compute; reflexivity. }
  specialize (H x Hx). apply andb_true_iff in H as [H1 H2].
  split; [by apply Bool.eqb_prop | by apply Z.eqb_eq].
Qed.

(** The four bytes written for a sector number make it up. *)
Lemma lba_bytes n :
  0 <= n < 2 ^ 28 ->
  u8 (Z.land n 0xff) + 2 ^ 8 * u8 (Z.land (Z.shiftr n 8) 0xff) +
  2 ^ 16 * u8 (Z.land (Z.shiftr n 16) 0xff) + 2 ^ 24 * Z.land (Z.shiftr n 24) 0x0f = n.
Proof.
  intros H. change 0xff with (Z.ones 8). change 0x0f with (Z.ones 4).
  rewrite !Z.land_ones, !Z.shiftr_div_pow2 by lia. unfold u8.
  rewrite !Z.mod_mod by lia. Z.to_euclidean_division_equations. lia.
Qed.

(** The driver's registers are all that [idestart] changes. *)
Lemma idestart_runs i cx s :
  request (bf s i) ->
  exists s', idestart (Some i) cx s = Ret tt cx s' /\ programmed s' (bf s i) /\
    s' = set_fifo (fifo s') (set_ports (ports s') s).
Proof.
  intros [_ Hb Hd _]. unfold idestart. mstep. unfold FSSIZE in *.
  destruct (Z.leb_spec 2000 (blockno (bf s i))); [lia|].
  change (BSIZE / SECTOR_SIZE) with 1. cbv zeta. change (7 <? 1) with false. change (1 =? 1) with true.
  cbv iota. rewrite Z.mul_1_r. rewrite (s32_small (blockno (bf s i))) by lia.
  unfold idewait. cbn [andb]. mrun. unfold outb, outsl.
  set (n := blockno (bf s i)) in *.
  assert (0 <= Z.land (Z.shiftr n 24) 0x0f < 16) as Hx.
  { change 0x0f with (Z.ones 4). rewrite Z.land_ones by lia. apply Z.mod_pos_bound. lia. }
  destruct (unit_register (dev (bf s i)) _ Hd Hx) as [Eu En].
  pose proof (lba_bytes n ltac:(lia)) as HL. rewrite <- En in HL.
  destruct (has_flag B_DIRTY (bf s i)) eqn:Ew; mrun; eexists; (split; [reflexivity|]); (split; [|done]);
    split; unfold wants_write; rewrite ?Ew; try done.
  all: exact HL.
Qed.

(** ** The invariant *)

Record ide_inv (s : ide) (q : list nat) : Prop := {
  iq_chain : chain (bf s) (idequeue s) q;
  iq_nodup : NoDup q;
  iq_range : Forall (fun i => (i < NBUF)%nat) q;
  iq_request : Forall (fun i => request (bf s i)) q;
  iq_head : match q with [] => True | i :: _ => programmed s (bf s i) end }.

Lemma queue_short q : NoDup q -> Forall (fun i => (i < NBUF)%nat) q -> (length q <= NBUF)%nat.
Proof.
  intros N F. rewrite <- (length_seq NBUF 0). apply submseteq_length, NoDup_submseteq; [done|].
  intros i Hi. apply elem_of_seq. rewrite Forall_forall in F. specialize (F i Hi). lia.
Qed.

Lemma request_ready b : request b -> (Z.land (flags b) (Z.lor B_VALID B_DIRTY) =? B_VALID) = false.
Proof. intros [[-> | ->] _ _ _]; done. Qed.

Lemma programmed_bufs s s' b :
  ports s' = ports s -> fifo s' = fifo s -> programmed s b -> programmed s' b.
Proof. intros Ep Ef [H1 H2 H3 H4 H5]. split; rewrite ?Ep, ?Ef; done. Qed.

Lemma programmed_qnext s b n : programmed s b -> programmed s (set_qnext n b).
Proof. by intros [H1 H2 H3 H4 H5]. Qed.

Lemma request_qnext b n : request b -> request (set_qnext n b).
Proof. by intros [H1 H2 H3 H4]. Qed.

(** [b->qnext = 0], the walk to the end of the queue and the store there. *)
Lemma enqueue_runs i q cx s :
  ide_inv s q -> request (bf s i) -> (i < NBUF)%nat -> i ∉ q ->
  exists s', (modify (upd_buf i (set_qnext None)) ;; enqueue i) cx s = Ret tt cx s' /\
    chain (bf s') (idequeue s') (q ++ [i]) /\
    Forall (fun j => request (bf s' j)) (q ++ [i]) /\
    (forall j, exists n, bf s' j = set_qnext n (bf s j)) /\
    s' = set_bf (bf s') (set_idequeue (idequeue s') s).
Proof.
  intros I R Hi Hq. destruct I as [C N F Q _]. unfold enqueue. mrun.
  set (s1 := upd_buf i (set_qnext None) s).
  assert (chain (bf s1) (idequeue s1) q) as C1.
  { revert C. apply chain_ext. intros j Hj. unfold s1. cbn. rewrite fn_lookup_insert_ne; [done|].
    intros ->. done. }
  assert (forall j, exists n, bf s1 j = set_qnext n (bf s j)) as H1.
  { intros j. unfold s1. cbn. destruct (decide (i = j)) as [->|Hj].
    - rewrite fn_lookup_insert. by eexists.
    - rewrite fn_lookup_insert_ne by done. exists (qnext (bf s j)). by destruct (bf s j). }
  assert (forall s2 : ide, (forall j, exists n, bf s2 j = set_qnext n (bf s j)) ->
    Forall (fun j => request (bf s2 j)) (q ++ [i])) as HR.
  { intros s2 H2. apply Forall_app. rewrite Forall_singleton. split.
    - apply (Forall_impl _ _ _ Q). intros j Rj. destruct (H2 j) as [n ->]. by apply request_qnext.
    - destruct (H2 i) as [n ->]. by apply request_qnext. }
  assert (qnext (bf s1 i) = None) as Hn by (unfold s1; cbn; by rewrite fn_lookup_insert).
  destruct q as [|h q]; cbn [chain] in C1.
  - rewrite C1. eexists. split; [reflexivity|]. split; [by split|]. split; [by apply HR|]. done.
  - destruct C1 as [E C1]. rewrite E.
    assert (length q < NBUF)%nat as Hl by (pose proof (queue_short _ N F); cbn [length] in *; lia).
    destruct (chain_last (bf s1) h q NBUF) as (t & Et & Lt); [by split | done|].
    rewrite Et. eexists. split; [reflexivity|].
    assert (forall j, exists n, bf (upd_buf t (set_qnext (Some i)) s1) j = set_qnext n (bf s j)) as H2.
    { intros j. cbn [bf upd_buf set_bf]. destruct (decide (t = j)) as [->|Hj].
      - rewrite fn_lookup_insert. destruct (H1 j) as [n ->]. by eexists.
      - by rewrite fn_lookup_insert_ne. }
    split; [|split; [by apply HR|done]]. cbn [bf idequeue upd_buf set_bf].
    by apply chain_append.
Qed.

(** Buffers up to their queue links, and what the driver leaves alone. *)
Definition same_bufs (s s' : ide) : Prop := forall j, exists n, bf s' j = set_qnext n (bf s j).
Definition same_drive (s s' : ide) : Prop :=
  images s' = images s /\ status s' = status s /\ havedisk1 s' = havedisk1 s.

Lemma holding_runs i t h wk s :
  Lsleep (Z.of_nat i) ∉ h -> lock (bf s i) = Sleeplock true (t_pid t) ->
  zoom (fun s => lock (bf s i)) (fun _ s => s) (holdingsleep (Z.of_nat i)) (Ctx t h wk) s
  = Ret true (Ctx t h wk) s.
Proof.
  intros Hh Hl. unfold zoom. rewrite holdingsleep_runs by done. rewrite Hl. cbn [locked pid].
  by rewrite Z.eqb_refl.
Qed.

Lemma request_waits i t wk s :
  request (bf s i) -> iderw_wait i (Ctx t [Lide] wk) s = Sleep (Cbuf i) Lide (Ctx t [] wk) s.
Proof. intros R. unfold iderw_wait. mstep. by rewrite request_ready. Qed.

Lemma ide_rw_runs i q t wk s :
  ide_inv s q -> request (bf s i) -> (i < NBUF)%nat -> i ∉ q ->
  lock (bf s i) = Sleeplock true (t_pid t) -> dev (bf s i) = 0 \/ havedisk1 s = true ->
  exists s', ide_rw i (Ctx t [] wk) s = Sleep (Cbuf i) Lide (Ctx t [] wk) s' /\
    ide_inv s' (q ++ [i]) /\ same_bufs s s' /\ same_drive s s'.
Proof.
  intros I R Hi Hq Hl Hd. unfold ide_rw.
  erewrite bind_Ret by (apply holding_runs; [apply not_elem_of_nil | done]). mstep. cbn [negb].
  rewrite request_ready by done.
  assert (negb (dev (bf s i) =? 0) && negb (havedisk1 s) = false) as ->.
  { destruct Hd as [-> | ->]; [done | apply andb_false_r]. }
  mstep. destruct (enqueue_runs i q (Ctx t [Lide] wk) s I R Hi Hq) as (s1 & E1 & C1 & R1 & B1 & F1).
  rewrite <- bind_assoc. run E1. mstep. pose proof I as [C N F Q P].
  assert (NoDup (q ++ [i])) as N'.
  { apply NoDup_app. split; [done|]. split; [|apply NoDup_singleton].
    intros j Hj. rewrite list_elem_of_singleton. congruence. }
  assert (Forall (fun j => (j < NBUF)%nat) (q ++ [i])) as F' by (by apply Forall_app; rewrite Forall_singleton).
  assert (request (bf s1 i)) as Ri by (destruct (B1 i) as [n ->]; by apply request_qnext).
  destruct q as [|h q].
  - cbn [app] in *. destruct C1 as [Eq C1]. rewrite decide_True by done.
    destruct (idestart_runs i (Ctx t [Lide] wk) s1 Ri) as (s2 & E2 & P2 & F2). run E2.
    assert (bf s2 = bf s1 /\ idequeue s2 = idequeue s1) as [Eb Ei] by (rewrite F2; done).
    exists s2. rewrite request_waits by (by rewrite Eb). split; [done|].
    split; [|split; [intros j; rewrite Eb; apply B1 | rewrite F2, F1; done]].
    by split; rewrite ?Eb, ?Ei.
  - cbn [app chain] in C1. destruct C1 as [Eq C1].
    rewrite decide_False by (rewrite Eq; intros [= ->]; apply Hq; by left).
    mstep. exists s1. rewrite request_waits by done. split; [done|].
    split; [|split; [done | rewrite F1; done]]. split; try done. cbn [app].
    destruct (B1 h) as [n ->]. apply programmed_qnext. apply (programmed_bufs s s1); [..|done]; by rewrite F1.
Qed.

(** ** Completion *)

(** The effect of a transfer on the buffer, given the contents of its block,
    and on the drives. *)
Definition served (b : buf) (sec : list Z) : buf :=
  if wants_write b then set_flags B_VALID b else set_flags B_VALID (set_data sec b).

Definition stored (b : buf) (im : bool -> mem) : bool -> mem :=
  if wants_write b
  then fun v => if Bool.eqb v (unit_of b)
                then put_bytes (im (unit_of b)) (blockno b * SECTOR_SIZE) (data b) else im v
  else im.

Definition block_in (im : bool -> mem) (b : buf) : list Z :=
  bytes_at (im (unit_of b)) (blockno b * SECTOR_SIZE) (Z.to_nat SECTOR_SIZE).

Definition drive_fine (s : ide) : Prop := Z.land (status s) (Z.lor IDE_DF IDE_ERR) = 0.

Lemma drive_exec_spec s b :
  programmed s b -> drive_exec s = set_images (stored b (images s)) s.
Proof.
  intros [Hu Hl _ Hc Hd]. unfold drive_exec, stored. rewrite Hc, Hu, Hl.
  destruct (wants_write b); cbn [Z.eqb].
  - rewrite Hd by done. done.
  - by destruct s.
Qed.

Lemma request_done b :
  request b -> set_flags (Z.ldiff (Z.lor (flags b) B_VALID) B_DIRTY) b = set_flags B_VALID b.
Proof. intros [[E|E] _ _ _]; by rewrite E. Qed.

(** [s'] differs from [s] in buffer [i] only, which is now [b]. *)
Definition only_buf (i : nat) (b : buf) (s s' : ide) : Prop :=
  bf s' i = b /\ (forall j, j ≠ i -> bf s' j = bf s j) /\ s' = set_bf (bf s') s.

Lemma upd_buf_only i f s : only_buf i (f (bf s i)) s (upd_buf i f s).
Proof.
  split; [apply fn_lookup_insert|]. split; [|done]. intros j Hj. by apply fn_lookup_insert_ne.
Qed.

Lemma only_buf_upd i b f s s' : only_buf i b s s' -> only_buf i (f b) s (upd_buf i f s').
Proof.
  intros (E & H & F). destruct (upd_buf_only i f s') as (E' & H' & F'). rewrite E in E'.
  split; [done|]. split; [|rewrite F', F; done]. intros j Hj. by rewrite H', H.
Qed.

Lemma ide_finish_runs i cx s :
  request (bf s i) -> programmed s (bf s i) -> drive_fine s ->
  exists s', ide_finish i cx s = Ret tt cx s' /\
    only_buf i (served (bf s i) (block_in (images s) (bf s i))) s s'.
Proof.
  intros R [Hu Hl _ _ _] Hf. unfold ide_finish. mstep. unfold served.
  fold (wants_write (bf s i)). destruct (wants_write (bf s i)); cbn [negb].
  - mrun. eexists. split; [reflexivity|]. rewrite <- (request_done (bf s i)) by done.
    apply (only_buf_upd i (set_flags (Z.lor (flags (bf s i)) B_VALID) (bf s i))
             (fun b => set_flags (Z.ldiff (flags b) B_DIRTY) b)).
    apply (upd_buf_only i (fun b => set_flags (Z.lor (flags b) B_VALID) b)).
  - unfold idewait. mrun. cbn [andb]. unfold drive_fine in Hf. rewrite Hf. cbn [Z.eqb negb]. mstep.
    change (0 <=? 0) with true. cbv iota. unfold insl. mrun. eexists. split; [reflexivity|].
    unfold sector. rewrite Hu, Hl. fold (block_in (images s) (bf s i)).
    set (b := set_data _ (bf s i)). rewrite <- (request_done b).
    2: by destruct R as [R1 R2 R3 R4].
    apply (only_buf_upd i (set_flags (Z.lor (flags b) B_VALID) b)
             (fun b => set_flags (Z.ldiff (flags b) B_DIRTY) b)).
    apply (only_buf_upd i b (fun b => set_flags (Z.lor (flags b) B_VALID) b)).
    apply (upd_buf_only i (set_data (block_in (images s) (bf s i)))).
Qed.

(** The rest of the queue after buffer [i] has been served and the drive has
    been started on the next one. *)
Lemma inv_tail i b q s im s1 s2 :
  ide_inv s (i :: q) -> only_buf i b (set_idequeue (qnext (bf s i)) (set_images im s)) s1 ->
  bf s2 = bf s1 -> idequeue s2 = idequeue s1 ->
  match q with [] => True | j :: _ => programmed s2 (bf s1 j) end ->
  ide_inv s2 q.
Proof.
  intros [C N F Q _] (_ & H & E) Eb Ei P. apply NoDup_cons in N as [Ni N]. destruct C as [_ C].
  apply Forall_cons in F as [_ F]. apply Forall_cons in Q as [_ Q].
  assert (forall j, j ∈ q -> bf s1 j = bf s j) as Hq.
  { intros j Hj. rewrite H; [done|]. intros ->. done. }
  split; rewrite ?Eb, ?Ei; try done.
  - rewrite E. cbn [bf idequeue set_bf set_idequeue].
    apply (chain_ext (bf s)); [|done]. intros j Hj. by rewrite Hq.
  - apply Forall_forall. intros j Hj. rewrite Hq by done.
    rewrite Forall_forall in Q. by apply Q.
Qed.

Lemma ideintr_runs i q t h wk s :
  ide_inv s (i :: q) -> drive_fine s -> Lide ∉ h -> Lptable ∉ h ->
  exists s', ideintr (Ctx t h wk) (drive_exec s) = Ret tt (Ctx t h (wk ++ [Cbuf i])) s' /\
    ide_inv s' q /\ bf s' i = served (bf s i) (block_in (images s) (bf s i)) /\
    (forall j, j ≠ i -> bf s' j = bf s j) /\
    images s' = stored (bf s i) (images s) /\ status s' = status s /\ havedisk1 s' = havedisk1 s.
Proof.
  intros I Hf Hh Hp. pose proof I as [C N F Q P]. rewrite (drive_exec_spec s _ P).
  apply Forall_cons in Q as [R Q]. unfold ideintr. mstep. mstep. cbn [idequeue set_images].
  destruct C as [-> C]. mstep. set (im := stored (bf s i) (images s)).
  set (s0 := set_idequeue (qnext (bf s i)) (set_images im s)).
  assert (block_in im (bf s i) = block_in (images s) (bf s i) \/ wants_write (bf s i) = true) as Hblk.
  { unfold im, stored. destruct (wants_write (bf s i)); [by right | by left]. }
  destruct (ide_finish_runs i (Ctx t (Lide :: h) wk) s0) as (s1 & E1 & O1); [done| |done|].
  { by apply (programmed_bufs s s0). }
  assert (served (bf s0 i) (block_in (images s0) (bf s0 i)) = served (bf s i) (block_in (images s) (bf s i))) as Es.
  { unfold served. cbn. destruct Hblk as [-> | ->]; done. }
  rewrite Es in O1. pose proof O1 as (Eb & Ho & Fr).
  change (set_idequeue (qnext (bf (set_images im s) i)) (set_images im s)) with s0.
  run E1. mstep. mstep.
  assert (idequeue s1 = qnext (bf s i)) as -> by (rewrite Fr; done).
  destruct q as [|j q]; cbn [chain] in C.
  - rewrite C. mstep. exists s1. rewrite release_head. split; [done|].
    split; [|rewrite Fr; done]. by apply (inv_tail i _ [] s im s1 s1 I O1).
  - destruct C as [-> C]. apply Forall_cons in Q as [Rj Q]. apply NoDup_cons in N as [Ni N].
    assert (bf s1 j = bf s j) as Ej by (apply Ho; intros ->; apply Ni; by left).
    destruct (idestart_runs j (Ctx t (Lide :: h) (wk ++ [Cbuf i])) s1) as (s2 & E2 & P2 & F2);
      [by rewrite Ej|]. run E2. rewrite release_head.
    assert (bf s2 = bf s1 /\ idequeue s2 = idequeue s1 /\ images s2 = images s1 /\
      status s2 = status s1 /\ havedisk1 s2 = havedisk1 s1) as (B2 & I2 & M2 & S2 & D2)
      by (rewrite F2; done).
    exists s2. split; [done|]. rewrite B2, M2, S2, D2. split; [by apply (inv_tail i _ (j :: q) s im s1 s2 I O1)|].
    rewrite Fr. done.
Qed.

(** [n] interrupts of the drive, one for each command it completes. *)
Fixpoint interrupts (n : nat) : M ide unit :=
  match n with
  | O => ret tt
  | S n' => modify drive_exec ;; ideintr ;; interrupts n'
  end.

(** Serving the requests of [q] one after the other. *)
Fixpoint serve_all (q : list nat) (bs : nat -> buf) (im : bool -> mem) : (nat -> buf) * (bool -> mem) :=
  match q with
  | [] => (bs, im)
  | i :: q' =>
      serve_all q' (<[i := served (bs i) (block_in im (bs i))]> bs) (stored (bs i) im)
  end.

Lemma serve_all_ext q : forall bs bs' im,
  (forall j, bs' j = bs j) ->
  (forall j, fst (serve_all q bs' im) j = fst (serve_all q bs im) j) /\
  snd (serve_all q bs' im) = snd (serve_all q bs im).
Proof.
  induction q as [|i q IH]; intros bs bs' im H; cbn [serve_all fst snd]; [done|].
  rewrite H. apply IH. intros j. destruct (decide (i = j)) as [->|Hj].
  - by rewrite !fn_lookup_insert.
  - by rewrite !fn_lookup_insert_ne.
Qed.

Lemma interrupts_runs t h q : forall wk s,
  ide_inv s q -> drive_fine s -> Lide ∉ h -> Lptable ∉ h ->
  exists s', interrupts (length q) (Ctx t h wk) s = Ret tt (Ctx t h (wk ++ map Cbuf q)) s' /\
    ide_inv s' [] /\
    (forall j, bf s' j = fst (serve_all q (bf s) (images s)) j) /\
    images s' = snd (serve_all q (bf s) (images s)) /\ drive_fine s' /\ havedisk1 s' = havedisk1 s.
Proof.
  induction q as [|i q IH]; intros wk s I Hf Hh Hp; cbn [length interrupts map serve_all].
  { exists s. by rewrite app_nil_r. }
  mstep. destruct (ideintr_runs i q t h wk s I Hf Hh Hp) as (s1 & E1 & I1 & Bi & Bo & Im & St & Hd).
  run E1. destruct (IH (wk ++ [Cbuf i]) s1 I1) as (s2 & E2 & I2 & B2 & Im2 & F2 & D2);
    [unfold drive_fine; by rewrite St | done..|].
  destruct (serve_all_ext q (<[i := served (bf s i) (block_in (images s) (bf s i))]> (bf s)) (bf s1)
              (stored (bf s i) (images s))) as [X1 X2].
  { intros j. destruct (decide (i = j)) as [<-|Hj]; [by rewrite fn_lookup_insert|].
    rewrite fn_lookup_insert_ne by done. by apply Bo. }
  exists s2. rewrite E2, <- app_assoc. split; [done|]. split; [done|]. rewrite Im in *.
  split; [intros j; by rewrite B2, X1|]. split; [by rewrite Im2, X2|]. split; [done | congruence].
Qed.

(** ** The claims *)

(** A request reaches the end of the queue: [iderw] appends the buffer to the
    chain of [qnext] pointers, programs the drive exactly when the queue was
    empty, touches no buffer's contents and no sector, and puts the caller to
    sleep on the buffer with the driver lock released. *)
Theorem iderw_enqueues i q t wk s :
  ide_inv s q -> request (bf s i) -> (i < NBUF)%nat -> i ∉ q ->
  lock (bf s i) = Sleeplock true (t_pid t) -> dev (bf s i) = 0 \/ havedisk1 s = true ->
  exists s', ide_rw i (Ctx t [] wk) s = Sleep (Cbuf i) Lide (Ctx t [] wk) s' /\
    ide_inv s' (q ++ [i]) /\ same_bufs s s' /\ same_drive s s'.
Proof. apply ide_rw_runs. Qed.

(** C37: The driver serves every request, in arrival order: with [k] requests
    queued, [k] interrupts of a drive that reports no error empty the queue, wake
    the owners in order, and leave the buffers and the drives as if the requests
    had been carried out one after the other. *)
Theorem ide_serves_in_order t h q wk s :
  ide_inv s q -> drive_fine s -> Lide ∉ h -> Lptable ∉ h ->
  exists s', interrupts (length q) (Ctx t h wk) s = Ret tt (Ctx t h (wk ++ map Cbuf q)) s' /\
    ide_inv s' [] /\
    (forall j, bf s' j = fst (serve_all q (bf s) (images s)) j) /\
    images s' = snd (serve_all q (bf s) (images s)).
Proof.
  intros I Hf Hh Hp. destruct (interrupts_runs t h q wk s I Hf Hh Hp) as (s' & E & I' & B & Im & _).
  by exists s'.
Qed.

Lemma serve_all_app q1 q2 bs im :
  serve_all (q1 ++ q2) bs im =
  serve_all q2 (fst (serve_all q1 bs im)) (snd (serve_all q1 bs im)).
Proof. revert bs im. induction q1 as [|i q1 IH]; intros bs im; cbn [app serve_all]; [done|]. apply IH. Qed.

Lemma serve_all_other q i : forall bs im, i ∉ q -> fst (serve_all q bs im) i = bs i.
Proof.
  induction q as [|j q IH]; intros bs im H; cbn [serve_all]; [done|].
  apply not_elem_of_cons in H as [Hj H]. rewrite IH by done. by apply fn_lookup_insert_ne.
Qed.

Lemma served_valid b sec : flags (served b sec) = B_VALID.
Proof. unfold served. by destruct (wants_write b). Qed.

(** C12: A transfer completes: a caller of [iderw] that found [q] ahead of it is
    woken by the last of [length q + 1] interrupts and then returns; a read
    buffer holds the block as the earlier requests left it, a dirty one has been
    written to its block, and the buffer is marked valid and clean. *)
Theorem iderw_transfers i q t t' h wk wk' s :
  ide_inv s q -> request (bf s i) -> (i < NBUF)%nat -> i ∉ q -> drive_fine s ->
  lock (bf s i) = Sleeplock true (t_pid t) -> dev (bf s i) = 0 \/ havedisk1 s = true ->
  Lide ∉ h -> Lptable ∉ h ->
  exists s1 s2 im, ide_rw i (Ctx t [] wk) s = Sleep (Cbuf i) Lide (Ctx t [] wk) s1 /\
    interrupts (length (q ++ [i])) (Ctx t' h wk') s1 = Ret tt (Ctx t' h (wk' ++ map Cbuf (q ++ [i]))) s2 /\
    (acquire Lide ;; iderw_wait i) (Ctx t [] wk) s2 = Ret tt (Ctx t [] wk) s2 /\
    flags (bf s2 i) = B_VALID /\
    (wants_write (bf s i) = false -> data (bf s2 i) = block_in im (bf s i) /\ images s2 = im) /\
    (wants_write (bf s i) = true ->
     data (bf s2 i) = data (bf s i) /\ block_in (images s2) (bf s i) = data (bf s i)) /\
    (q = [] -> im = images s).
Proof.
  intros I R Hi Hq Hf Hl Hd Hh Hp.
  destruct (ide_rw_runs i q t wk s I R Hi Hq Hl Hd) as (s1 & E1 & I1 & B1 & Im1 & St1 & _).
  destruct (interrupts_runs t' h (q ++ [i]) wk' s1 I1) as (s2 & E2 & _ & B2 & Im2 & _);
    [unfold drive_fine; by rewrite St1 | done..|].
  set (im := snd (serve_all q (bf s1) (images s1))) in *.
  rewrite serve_all_app in B2, Im2. cbn [serve_all fst snd] in B2, Im2. specialize (B2 i).
  rewrite fn_lookup_insert in B2. rewrite (serve_all_other q i) in B2, Im2 by done.
  fold im in B2, Im2. destruct (B1 i) as [n En]. rewrite En in B2, Im2.
  exists s1, s2, im. split; [done|]. split; [done|].
  assert (flags (bf s2 i) = B_VALID) as Fl by (rewrite B2; apply served_valid).
  split; [unfold iderw_wait; mrun; rewrite Fl; apply release_head|]. split; [done|].
  split; [|split].
  - intros Ew. unfold served, stored in *. change (wants_write (set_qnext n (bf s i))) with (wants_write (bf s i)) in *.
    rewrite Ew in B2, Im2. by rewrite B2.
  - intros Ew. unfold served, stored in *. change (wants_write (set_qnext n (bf s i))) with (wants_write (bf s i)) in *.
    rewrite Ew in B2, Im2. rewrite B2, Im2. split; [done|]. unfold block_in. cbn. rewrite Bool.eqb_reflx.
    destruct R as [_ _ _ RL]. change (Z.to_nat SECTOR_SIZE) with (Z.to_nat BSIZE). rewrite <- RL.
    apply bytes_at_put_same.
  - intros ->. exact Im1.
Qed.

(** A drive error is lost: when a read fails ([idewait] returns -1), the
    interrupt handler leaves the old contents in the buffer and still marks it
    valid, so [iderw] returns as if the block had been read. *)
Theorem ide_read_error_ignored i t h wk s :
  ide_inv s [i] -> wants_write (bf s i) = false -> ~ drive_fine s -> Lide ∉ h -> Lptable ∉ h ->
  exists s', ideintr (Ctx t h wk) s = Ret tt (Ctx t h (wk ++ [Cbuf i])) s' /\
    data (bf s' i) = data (bf s i) /\
    (acquire Lide ;; iderw_wait i) (Ctx t [] wk) s' = Ret tt (Ctx t [] wk) s'.
Proof.
  intros [C N F Q P] Ew Hf Hh Hp. apply Forall_cons in Q as [R _]. destruct C as [E C]. cbn [chain] in C.
  unfold ideintr. mstep. mstep. rewrite E. mstep. unfold ide_finish. mstep. mstep. cbn [bf set_idequeue].
  unfold wants_write in Ew. rewrite Ew. cbn [negb]. unfold idewait. mrun. cbn [andb status set_idequeue].
  destruct (Z.eqb_spec (Z.land (status s) (Z.lor IDE_DF IDE_ERR)) 0); [done|]. cbn [negb].
  mrun. change (0 <=? -1) with false. cbv iota. mrun. cbn [idequeue upd_buf set_bf set_idequeue].
  rewrite C. mrun. rewrite release_head. eexists. split; [reflexivity|].
  cbn [bf upd_buf set_bf set_idequeue]. unfold iderw_wait. mrun. cbn [bf upd_buf set_bf set_idequeue].
  rewrite !fn_lookup_insert. split; [done|].
  replace (Z.land _ _ =? B_VALID) with true; [apply release_head|].
  cbn. by destruct (rq_flags _ R) as [-> | ->].
Qed.

(** ** Witnesses *)

Module Demo.

Definition me0 : thread := Thread 1 false.

Definition block_of_7s : list Z := replicate (Z.to_nat BSIZE) 7.

(** Buffer 0 waits to be read from block 3 of drive 0, buffer 1 to be written to
    the same block. *)
Definition bufs0 (q : bool) (i : nat) : buf :=
  match i with
  | O => Buf 0 0 3 (Sleeplock true 1) 1 0 0 (if q then Some 1%nat else None) (replicate (Z.to_nat BSIZE) 0)
  | _ => Buf (Z.lor B_VALID B_DIRTY) 0 3 (Sleeplock true 1) 1 0 0 None block_of_7s
  end.

Definition ports0 (p : Z) : Z :=
  if p =? 0x1f2 then 1 else if p =? 0x1f3 then 3 else if p =? 0x1f6 then 0xe0
  else if p =? 0x1f7 then IDE_CMD_READ else 0.

Definition idle0 : ide := Ide (bufs0 false) None true (fun _ => 0) [] IDE_DRDY (fun _ _ => 9).
Definition busy0 (st : Z) : ide := Ide (bufs0 false) (Some 0%nat) true ports0 [] st (fun _ _ => 9).
Definition queue0 : ide := Ide (bufs0 true) (Some 0%nat) true ports0 [] IDE_DRDY (fun _ _ => 9).

Lemma idle_inv : ide_inv idle0 [].
Proof. split; try done; constructor. Qed.

Lemma read_request q : request (bufs0 q 0).
Proof. split; [by left | by vm_compute | done | done]. Qed.

Lemma write_request q : request (bufs0 q 1).
Proof. split; [by right | by vm_compute | done | done]. Qed.

Lemma busy_inv st : ide_inv (busy0 st) [0%nat].
Proof.
  split; [done | apply NoDup_singleton | repeat constructor | | by split].
  constructor; [apply read_request | constructor].
Qed.

Lemma queue_inv : ide_inv queue0 [0%nat; 1%nat].
Proof.
  split; [done | apply (bool_decide_unpack _); by vm_compute | repeat constructor | | by split].
  constructor; [apply read_request | constructor; [apply write_request | constructor]].
Qed.

Lemma iderw_enqueues_witness : exists s',
  ide_rw 1 (Ctx me0 [] []) (busy0 IDE_DRDY) = Sleep (Cbuf 1) Lide (Ctx me0 [] []) s' /\
  ide_inv s' [0%nat; 1%nat] /\ same_bufs (busy0 IDE_DRDY) s' /\ same_drive (busy0 IDE_DRDY) s'.
Proof.
  apply (iderw_enqueues 1 [0%nat] me0 [] (busy0 IDE_DRDY));
    [apply busy_inv | apply write_request | apply (bool_decide_unpack _); reflexivity |
     apply (bool_decide_unpack _); reflexivity | reflexivity | by left].
Defined.

Lemma ide_serves_in_order_witness : exists s',
  interrupts 2 (Ctx me0 [] []) queue0 = Ret tt (Ctx me0 [] [Cbuf 0; Cbuf 1]) s' /\
  ide_inv s' [] /\
  (forall j, bf s' j = fst (serve_all [0%nat; 1%nat] (bf queue0) (images queue0)) j) /\
  images s' = snd (serve_all [0%nat; 1%nat] (bf queue0) (images queue0)).
Proof.
  apply (ide_serves_in_order me0 [] [0%nat; 1%nat] [] queue0);
    [apply queue_inv | reflexivity | apply not_elem_of_nil | apply not_elem_of_nil].
Defined.

Lemma iderw_transfers_witness : exists s1 s2 im,
  ide_rw 0 (Ctx me0 [] []) idle0 = Sleep (Cbuf 0) Lide (Ctx me0 [] []) s1 /\
  interrupts 1 (Ctx me0 [] []) s1 = Ret tt (Ctx me0 [] [Cbuf 0]) s2 /\
  (acquire Lide ;; iderw_wait 0) (Ctx me0 [] []) s2 = Ret tt (Ctx me0 [] []) s2 /\
  flags (bf s2 0%nat) = B_VALID /\
  (wants_write (bf idle0 0%nat) = false -> data (bf s2 0%nat) = block_in im (bf idle0 0%nat) /\ images s2 = im) /\
  (wants_write (bf idle0 0%nat) = true ->
   data (bf s2 0%nat) = data (bf idle0 0%nat) /\ block_in (images s2) (bf idle0 0%nat) = data (bf idle0 0%nat)) /\
  (@nil nat = [] -> im = images idle0).
Proof.
  apply (iderw_transfers 0 [] me0 me0 [] [] [] idle0);
    [apply idle_inv | apply read_request | apply (bool_decide_unpack _); reflexivity |
     apply not_elem_of_nil | reflexivity | reflexivity | by left |
     apply not_elem_of_nil | apply not_elem_of_nil].
Defined.

Lemma ide_read_error_ignored_witness : exists s',
  ideintr (Ctx me0 [] []) (busy0 (Z.lor IDE_DRDY IDE_ERR)) = Ret tt (Ctx me0 [] [Cbuf 0]) s' /\
  data (bf s' 0%nat) = data (bufs0 false 0) /\
  (acquire Lide ;; iderw_wait 0) (Ctx me0 [] []) s' = Ret tt (Ctx me0 [] []) s'.
Proof.
  apply (ide_read_error_ignored 0 me0 [] [] (busy0 (Z.lor IDE_DRDY IDE_ERR)));
    [apply busy_inv | reflexivity | vm_compute; discriminate | apply not_elem_of_nil | apply not_elem_of_nil].
Defined.

End Demo.
