(* ===== verification/Uprogs.v ===== *)
(** User programs: cat.c, wc.c, echo.c, ls.c and mycat2.c.

    A program is a run: what it writes, by descriptor, and whether it returns or
    exits.  A file is what the successive [read] calls on it return: [Some l] for
    [l] bytes, [Some []] at the end of the file and [None] for -1.  The texts
    [printf] writes are those of its specification in Printf. *)

From stdpp Require Import base numbers list strings.
From S2P Require Import Xv6 Prelude Kstring Printf.

Definition output : Type := list (Z * list Z).

(** [Stuck]: the program reads on although the model of its input has ended. *)
Inductive run (A : Type) :=
| Returns (o : output) (a : A)
| Exits (o : output)
| Stuck.
Arguments Returns {A}.
Arguments Exits {A}.
Arguments Stuck {A}.

Definition reads : Type := list (option (list Z)).

(** [o], then the rest of the run. *)
Definition after {A} (o : output) (k : run A) : run A :=
  match k with
  | Returns o' a => Returns (o ++ o') a
  | Exits o' => Exits (o ++ o')
  | Stuck => Stuck
  end.

Definition andthen {A B} (m : run A) (k : A -> run B) : run B :=
  match m with
  | Returns o a => after o (k a)
  | Exits o => Exits o
  | Stuck => Stuck
  end.

(** The bytes that reached a descriptor. *)
Definition on_fd (fd : Z) (o : output) : list Z :=
  concat (map snd (List.filter (fun e => e.1 =? fd) o)).

Section files.
(** The files [open] finds, by path. *)
Variable files : list Z -> option reads.

(** The return value of [write(1, l, n)]. *)
Variable write1 : list Z -> Z.

(** ** cat.c *)

Fixpoint cat (rs : reads) : run unit :=
  match rs with
  | [] => Stuck
  | None :: _ => Exits [(1, str "cat: read error" ++ [10])]
  | Some [] :: _ => Returns [] tt
  | Some buf :: rs' =>
      if negb (write1 buf =? Z.of_nat (length buf))
      then Exits [(1, take (Z.to_nat (write1 buf)) buf); (1, str "cat: write error" ++ [10])]
      else after [(1, buf)] (cat rs')
  end.

Fixpoint cat_args (argv : list (list Z)) : run unit :=
  match argv with
  | [] => Exits []
  | path :: argv' =>
      match files path with
      | None => Exits [(1, str "cat: cannot open " ++ path ++ [10])]
      | Some rs => andthen (cat rs) (fun _ => cat_args argv')
      end
  end.

(** [argv] without the program's name; [stdin] is descriptor 0. *)
Definition cat_main (stdin : reads) (argv : list (list Z)) : run unit :=
  match argv with
  | [] => andthen (cat stdin) (fun _ => Exits [])
  | _ => cat_args argv
  end.

(** ** wc.c *)

Record counts := Counts { nl : Z; nw : Z; nc : Z; inword : bool }.

Definition wc_space (c : Z) : bool := existsb (Z.eqb c) [32; 13; 9; 10; 11].

Definition wc_byte (s : counts) (x : Z) : counts :=
  let c := nc s + 1 in
  let l := if x =? 10 then nl s + 1 else nl s in
  if wc_space x then Counts l (nw s) c false
  else if negb (inword s) then Counts l (nw s + 1) c true
  else Counts l (nw s) c (inword s).

Fixpoint wc_loop (s : counts) (rs : reads) : run counts :=
  match rs with
  | [] => Stuck
  | None :: _ => Exits [(1, str "wc: read error" ++ [10])]
  | Some [] :: _ => Returns [] s
  | Some buf :: rs' => wc_loop (fold_left wc_byte buf s) rs'
  end.

Definition wc_text (s : counts) (name : list Z) : list Z :=
  int_text (nl s) 10 true ++ [32] ++ int_text (nw s) 10 true ++ [32] ++
  int_text (nc s) 10 true ++ [32] ++ name ++ [10].

Definition wc (rs : reads) (name : list Z) : run unit :=
  andthen (wc_loop (Counts 0 0 0 false) rs) (fun s => Returns [(1, wc_text s name)] tt).

Fixpoint wc_args (argv : list (list Z)) : run unit :=
  match argv with
  | [] => Exits []
  | path :: argv' =>
      match files path with
      | None => Exits [(1, str "wc: cannot open " ++ path ++ [10])]
      | Some rs => andthen (wc rs path) (fun _ => wc_args argv')
      end
  end.

Definition wc_main (stdin : reads) (argv : list (list Z)) : run unit :=
  match argv with
  | [] => andthen (wc stdin []) (fun _ => Exits [])
  | _ => wc_args argv
  end.

(** ** mycat2.c *)

(** The [do] loop: [buffer[0]] is [b]; the byte is written before the status is
    looked at. *)
Fixpoint mycat2_loop (b : Z) (rs : reads) : run Z :=
  match rs with
  | [] => Stuck
  | Some (c :: _) :: rs' => after [(1, [c])] (mycat2_loop c rs')
  | Some [] :: _ => Returns [(1, [b])] 0
  | None :: _ => Returns [(1, [b])] (-1)
  end.

Fixpoint mycat2_args (argv : list (list Z)) : run unit :=
  match argv with
  | [] => Returns [] tt
  | path :: argv' =>
      match files path with
      | None => after [(2, str "Error Opening to file:" ++ [10])] (mycat2_args argv')
      | Some rs =>
          andthen (mycat2_loop 0 rs) (fun status =>
          after (if status <? 0 then [(2, str "Error: Writing to file:" ++ [10; 0])] else [])
            (mycat2_args argv'))
      end
  end.

Definition mycat2_main (argv : list (list Z)) : run unit :=
  match argv with
  | [] => Returns [(2, str "Usage: <path>" ++ [10])] tt
  | _ => mycat2_args argv
  end.

End files.

(** ** echo.c *)

Fixpoint echo_args (argv : list (list Z)) : output :=
  match argv with
  | [] => []
  | a :: argv' => (1, a ++ match argv' with [] => [10] | _ => [ch " "] end) :: echo_args argv'
  end.

Definition echo_main (argv : list (list Z)) : run unit := Exits (echo_args argv).

(** ** ls.c *)

(** The loop that looks for the last slash: the characters after it.  [rev_path]
    is the part of the path not looked at yet, last character first, [p] the
    characters passed. *)
Fixpoint after_slash (rev_path p : list Z) : list Z :=
  match rev_path with
  | [] => p
  | c :: rest => if c =? ch "/" then p else after_slash rest (c :: p)
  end.

Definition fmtname (path : list Z) : list Z :=
  let p := after_slash (rev path) [] in
  if (DIRSIZ <=? length p)%nat then p
  else p ++ replicate (DIRSIZ - length p) (ch " ").

Record ustat := Stat { st_type : Z; st_ino : Z; st_size : Z }.

Definition ls_line (path : list Z) (st : ustat) : list Z :=
  fmtname path ++ [32] ++ int_text (st_type st) 10 true ++ [32] ++
  int_text (st_ino st) 10 true ++ [32] ++ int_text (st_size st) 10 true ++ [10].

(** The name field of a directory entry up to its first NUL. *)
Fixpoint name_of (l : list Z) : list Z :=
  match l with
  | [] => []
  | c :: l' => if c =? 0 then [] else c :: name_of l'
  end.

Section ls.
(** [stat(path)]. *)
Variable stat_of : list Z -> option ustat.

(** The loop over the directory entries [(inum, name)] that [read] delivers. *)
Fixpoint ls_entries (path : list Z) (des : list (Z * list Z)) : output :=
  match des with
  | [] => []
  | (inum, name) :: des' =>
      if inum =? 0 then ls_entries path des'
      else
        let buf := path ++ [ch "/"] ++ name_of (take DIRSIZ name) in
        match stat_of buf with
        | None => (1, str "ls: cannot stat " ++ buf ++ [10]) :: ls_entries path des'
        | Some st => (1, ls_line buf st) :: ls_entries path des'
        end
  end.

(** [opened]: what [open] gives: the result of [fstat] and the entries. *)
Definition ls (opened : option (option ustat * list (Z * list Z))) (path : list Z) : output :=
  match opened with
  | None => [(2, str "ls: cannot open " ++ path ++ [10])]
  | Some (None, _) => [(2, str "ls: cannot stat " ++ path ++ [10])]
  | Some (Some st, des) =>
      if st_type st =? T_FILE then [(1, ls_line path st)]
      else if st_type st =? T_DIR then
        if 512 <? Z.of_nat (length path) + 1 + Z.of_nat DIRSIZ + 1
        then [(1, str "ls: path too long" ++ [10])]
        else ls_entries path des
      else []
  end.
End ls.

(** ** Correctness *)

(** The reads of a file with contents [l], cut up in whatever way, up to and
    including the one that finds its end. *)
Definition file_is (rs : reads) (l : list Z) : Prop :=
  exists chunks, rs = map Some chunks ++ [Some []] /\ Forall (fun c => c ≠ []) chunks /\ concat chunks = l.

Lemma on_fd_app fd o1 o2 : on_fd fd (o1 ++ o2) = on_fd fd o1 ++ on_fd fd o2.
Proof. unfold on_fd. by rewrite List.filter_app, map_app, concat_app. Qed.

Lemma after_after {A} o1 o2 (k : run A) : after o1 (after o2 k) = after (o1 ++ o2) k.
Proof. destruct k; cbn; by rewrite ?app_assoc. Qed.

Section cat.
Variables (files : list Z -> option reads) (write1 : list Z -> Z).
Hypothesis writes_all : forall l, write1 l = Z.of_nat (length l).

Lemma cat_runs rs l :
  file_is rs l -> exists o, cat write1 rs = Returns o tt /\ on_fd 1 o = l.
Proof.
  intros (chunks & -> & Hne & <-). induction Hne as [|c chunks Hc _ IH]; [by exists []|].
  destruct IH as (o & E & H). destruct c as [|x c]; [done|].
  exists ((1, x :: c) :: o). cbn [map app cat]. rewrite writes_all, Z.eqb_refl. cbn [negb].
  rewrite E. split; [done|]. change ((1, x :: c) :: o) with ([(1, x :: c)] ++ o).
  rewrite on_fd_app, H. cbn. by rewrite app_nil_r.
Qed.

Lemma cat_args_runs argv ls :
  Forall2 (fun path l => exists rs, files path = Some rs /\ file_is rs l) argv ls ->
  exists o, cat_args files write1 argv = Exits o /\ on_fd 1 o = concat ls.
Proof.
  induction 1 as [|path l argv ls (rs & Ef & F) _ (o & E & H)]; [by exists []|].
  destruct (cat_runs rs l F) as (o1 & E1 & H1). exists (o1 ++ o). cbn [cat_args concat].
  rewrite Ef, E1. cbn [andthen]. rewrite E. by rewrite on_fd_app, H1, H.
Qed.

(** [cat] writes to standard output exactly the contents of its files, one
    after the other, however the reads cut them up, provided the files open and
    the writes are complete; without arguments it copies its standard input. *)
Theorem cat_concatenates stdin argv ls :
  (if decide (argv = []) then exists l, file_is stdin l /\ ls = [l]
   else Forall2 (fun path l => exists rs, files path = Some rs /\ file_is rs l) argv ls) ->
  exists o, cat_main files write1 stdin argv = Exits o /\ on_fd 1 o = concat ls.
Proof.
  unfold cat_main. destruct argv as [|a argv]; [rewrite decide_True by done | rewrite decide_False by done].
  - intros (l & F & ->). destruct (cat_runs stdin l F) as (o & -> & H). exists (o ++ []).
    split; [done|]. cbn [concat]. by rewrite !app_nil_r.
  - apply cat_args_runs.
Qed.
End cat.

Lemma cat_concatenates_witness :
  exists o, cat_main (fun _ => Some [Some [1; 2]; Some [3]; Some []]) (fun l => Z.of_nat (length l)) []
              [str "f"; str "g"] = Exits o /\ on_fd 1 o = concat [[1; 2; 3]; [1; 2; 3]].
Proof.
  apply (cat_concatenates (fun _ => Some [Some [1; 2]; Some [3]; Some []])); [done|].
  repeat constructor; exists [Some [1; 2]; Some [3]; Some []]; (split; [done|]);
    exists [[1; 2]; [3]]; split_and!; try done; repeat constructor; done.
Defined.

(** *** Words *)

(** A word starts at a byte that is not space and follows no byte or a space. *)
Definition word_start (l : list Z) (i : nat) : bool :=
  negb (wc_space (nth i l 0)) &&
  match i with O => true | S j => wc_space (nth j l 0) end.

Definition words (l : list Z) : nat := length (List.filter (word_start l) (seq 0 (length l))).
Definition lines (l : list Z) : nat := length (List.filter (Z.eqb 10) l).

(** Whether [l] ends inside a word. *)
Definition ends_in_word (l : list Z) : bool :=
  match last l with None => false | Some x => negb (wc_space x) end.

Lemma word_start_prefix l x i : (i < length l)%nat -> word_start (l ++ [x]) i = word_start l i.
Proof. intros H. unfold word_start. destruct i; rewrite !app_nth1 by lia; done. Qed.

Lemma word_start_last l x :
  word_start (l ++ [x]) (length l) = negb (wc_space x) && negb (ends_in_word l).
Proof.
  unfold word_start, ends_in_word. rewrite app_nth2, Nat.sub_diag by lia. cbn [nth]. f_equal.
  destruct l as [|y l _] using rev_ind; [done|]. rewrite length_app, Nat.add_1_r, last_snoc.
  rewrite app_nth1 by (rewrite length_app; cbn; lia). rewrite app_nth2, Nat.sub_diag by lia.
  cbn [nth]. by rewrite negb_involutive.
Qed.

Lemma words_snoc l x :
  words (l ++ [x]) = (words l + if negb (wc_space x) && negb (ends_in_word l) then 1 else 0)%nat.
Proof.
  unfold words. rewrite length_app, Nat.add_1_r, seq_S, List.filter_app, length_app. f_equal.
  - f_equal. apply List.filter_ext_in. intros i Hi%in_seq. apply word_start_prefix. lia.
  - cbn [Nat.add List.filter]. rewrite word_start_last. by destruct (_ && _).
Qed.

Lemma ends_in_word_snoc l x : ends_in_word (l ++ [x]) = negb (wc_space x).
Proof. unfold ends_in_word. by rewrite last_snoc. Qed.

Lemma lines_snoc l x : lines (l ++ [x]) = (lines l + if (x =? 10)%Z then 1 else 0)%nat.
Proof.
  unfold lines. rewrite List.filter_app, length_app. cbn [List.filter]. rewrite (Z.eqb_sym x 10).
  by destruct (10 =? x).
Qed.

Lemma wc_bytes l :
  fold_left wc_byte l (Counts 0 0 0 false)
  = Counts (Z.of_nat (lines l)) (Z.of_nat (words l)) (Z.of_nat (length l)) (ends_in_word l).
Proof.
  induction l as [|x l IH] using rev_ind; [done|].
  rewrite fold_left_app, IH. cbn [fold_left]. unfold wc_byte. cbn [nl nw nc inword].
  rewrite words_snoc, lines_snoc, ends_in_word_snoc, length_app. cbn [length].
  destruct (x =? 10), (wc_space x), (ends_in_word l); cbn [negb andb]; f_equal; lia.
Qed.

Lemma wc_loop_runs chunks : forall s,
  Forall (fun c => c ≠ []) chunks ->
  wc_loop s (map Some chunks ++ [Some []]) = Returns [] (fold_left wc_byte (concat chunks) s).
Proof.
  induction chunks as [|c chunks IH]; intros s H; [done|].
  apply Forall_cons in H as [Hc H]. cbn [map app wc_loop concat]. destruct c as [|x c]; [done|].
  rewrite IH by done. by rewrite fold_left_app.
Qed.

(** [wc] counts what it should, wherever the 512-byte reads cut the file: the
    three numbers are those of newlines, of bytes that begin a word, and of
    bytes, so a word that spans two reads is counted once; for files below 2 GB
    the numbers it prints read back as those counts. *)
Theorem wc_counts rs l name :
  file_is rs l -> Z.of_nat (length l) < 2 ^ 31 ->
  exists tl tw tc,
    wc rs name = Returns [(1, tl ++ [32] ++ tw ++ [32] ++ tc ++ [32] ++ name ++ [10])] tt /\
    parse_int 10 tl = Z.of_nat (lines l) /\ parse_int 10 tw = Z.of_nat (words l) /\
    parse_int 10 tc = Z.of_nat (length l).
Proof.
  intros (chunks & -> & Hne & <-) Hl. unfold wc. rewrite wc_loop_runs, wc_bytes by done.
  eexists _, _, _. split; [reflexivity|]. cbn [nl nw nc].
  assert (lines (concat chunks) <= length (concat chunks))%nat by apply List.filter_length_le.
  assert (words (concat chunks) <= length (concat chunks))%nat.
  { unfold words. etransitivity; [apply List.filter_length_le|]. by rewrite length_seq. }
  rewrite !int_text_value by lia. split_and!; apply s32_small; lia.
Qed.

Lemma wc_counts_witness : exists tl tw tc,
  wc [Some (str "ab c"); Some (str "d" ++ [10]); Some []] (str "f")
    = Returns [(1, tl ++ [32] ++ tw ++ [32] ++ tc ++ [32] ++ str "f" ++ [10])] tt /\
  parse_int 10 tl = 1 /\ parse_int 10 tw = 2 /\ parse_int 10 tc = 6.
Proof.
  apply (wc_counts _ (str "ab cd" ++ [10]) (str "f")); [|reflexivity].
  exists [str "ab c"; str "d" ++ [10]]. split_and!; try done. repeat constructor; done.
Defined.

(** *** mycat2 *)

Lemma mycat2_loop_runs l : forall b,
  exists o, mycat2_loop b (map (fun c => Some [c]) l ++ [Some []]) = Returns o 0 /\
    on_fd 1 o = l ++ [default b (last l)].
Proof.
  induction l as [|c l IH]; intros b; [by exists [(1, [b])]|].
  destruct (IH c) as (o & E & H). exists ([(1, [c])] ++ o). cbn [map app mycat2_loop]. rewrite E.
  split; [done|]. change ((1, [c]) :: o) with ([(1, [c])] ++ o). rewrite on_fd_app, H.
  cbn [app]. change (on_fd 1 [(1, [c])]) with [c]. cbn [app]. do 2 f_equal.
  rewrite last_cons. by destruct (last l).
Qed.

(** [mycat2] does not copy its file: it writes its buffer once more after the
    read that finds the end of the file, so the last byte comes out twice, and
    an empty file comes out as a NUL byte. *)
Theorem mycat2_repeats_last_byte files path l :
  files path = Some (map (fun c => Some [c]) l ++ [Some []]) ->
  exists o, mycat2_main files [path] = Returns o tt /\ on_fd 1 o = l ++ [default 0 (last l)].
Proof.
  intros Ef. cbn [mycat2_main mycat2_args]. rewrite Ef.
  destruct (mycat2_loop_runs l 0) as (o & -> & H). exists (o ++ []). split; [done|]. by rewrite app_nil_r.
Qed.

Lemma mycat2_repeats_last_byte_witness :
  exists o, mycat2_main (fun _ => Some [Some [104]; Some [105]; Some []]) [str "f"] = Returns o tt /\
    on_fd 1 o = [104; 105; 105].
Proof. by apply (mycat2_repeats_last_byte _ (str "f") [104; 105]). Defined.

(** *** echo and ls *)

(** The arguments joined by blanks. *)
Fixpoint join (argv : list (list Z)) : list Z :=
  match argv with
  | [] => []
  | [a] => a
  | a :: argv' => a ++ ch " " :: join argv'
  end.

(** [echo] writes its arguments separated by single blanks and ended by a
    newline, and nothing at all without arguments. *)
Theorem echo_joins argv :
  exists o, echo_main argv = Exits o /\
    on_fd 1 o = match argv with [] => [] | _ => join argv ++ [10] end.
Proof.
  exists (echo_args argv). split; [done|]. induction argv as [|a argv IH]; [done|].
  cbn [echo_args]. match goal with |- on_fd 1 (?e :: ?o) = _ => change (e :: o) with ([e] ++ o) end.
  rewrite on_fd_app, IH. destruct argv as [|b argv]; unfold on_fd; cbn [List.filter map concat snd fst];
    change (1 =? 1) with true; cbn [map concat snd]; rewrite !app_nil_r; [done|].
  cbn [join]. by rewrite <- !app_assoc.
Qed.

Lemma after_slash_name name : forall dir p,
  ch "/" ∉ name -> after_slash (rev name ++ ch "/" :: dir) p = name ++ p.
Proof.
  induction name as [|c name IH] using rev_ind; intros dir p H; cbn [rev app after_slash].
  { by rewrite Z.eqb_refl. }
  rewrite rev_app_distr. cbn [rev app after_slash].
  destruct (Z.eqb_spec c (ch "/")) as [->|Hc].
  { exfalso. apply H, elem_of_app. right. by apply list_elem_of_singleton. }
  rewrite IH; [by rewrite <- app_assoc|]. intros Hn. apply H, elem_of_app. by left.
Qed.

(** [fmtname] is the last component of a path, blank-padded to [DIRSIZ]
    characters and never cut. *)
Theorem fmtname_last_component dir name :
  ch "/" ∉ name ->
  exists pad, fmtname (dir ++ ch "/" :: name) = name ++ replicate pad (ch " ") /\
    length (fmtname (dir ++ ch "/" :: name)) = (length name `max` DIRSIZ)%nat.
Proof.
  intros H. unfold fmtname. rewrite rev_app_distr. cbn [rev]. rewrite <- app_assoc. cbn [app].
  rewrite after_slash_name, app_nil_r by done. exists (DIRSIZ - length name)%nat.
  destruct (Nat.leb_spec DIRSIZ (length name)).
  - replace (DIRSIZ - length name)%nat with 0%nat by lia. cbn [replicate]. rewrite app_nil_r. split; [done | lia].
  - rewrite length_app, length_replicate. split; [done | lia].
Qed.

Lemma fmtname_last_component_witness : exists pad,
  fmtname (str "usr/" ++ str "ls") = str "ls" ++ replicate pad (ch " ") /\
  length (fmtname (str "usr/" ++ str "ls")) = 14%nat.
Proof. apply (fmtname_last_component (str "usr") (str "ls")). by apply (bool_decide_unpack _). Defined.
