(* ===== verification/Mkfs.v ===== *)
(** mkfs.c: the program of the host that builds the file system image.

    The image file is a sequence of sectors; a call of [exit(1)] or a failed
    [assert] is a panic of the monad.  The theorem at the end says that the
    image holds the file system fs.c expects: the layout of the superblock, one
    inode per file with the file's bytes, a root directory with their names, a
    bitmap that marks exactly the blocks in use, no block used twice. *)

From stdpp Require Import functions base numbers list strings.
From S2P Require Import Xv6 Prelude Bytes Log Fs Tx Bitmap Inode Content Dir.

Definition NINODES : Z := 200.
Definition nbitmap : Z := FSSIZE / (BSIZE * 8) + 1.
Definition ninodeblocks : Z := NINODES / IPB + 1.
Definition nlog : Z := LOGSIZE.
Definition nmeta : Z := 2 + nlog + ninodeblocks + nbitmap.
Definition nblocks : Z := FSSIZE - nmeta.

(** The image, the number of sectors written to its file, and the two counters. *)
Record mk := Mk { img : Z -> list Z; nsec : Z; freeinode : Z; freeblock : Z }.

Definition set_img f (s : mk) : mk := Mk f (nsec s) (freeinode s) (freeblock s).
Definition set_nsec n (s : mk) : mk := Mk (img s) n (freeinode s) (freeblock s).
Definition set_freeinode n (s : mk) : mk := Mk (img s) (nsec s) n (freeblock s).
Definition set_freeblock n (s : mk) : mk := Mk (img s) (nsec s) (freeinode s) n.

(** [xshort] and [xint]: the integer whose bytes in memory are the little-endian
    bytes of [x], on a little-endian host. *)
Definition xshort (x : Z) : Z := get16 [u8 x; u8 (x / 2 ^ 8)] 0.
Definition xint (x : Z) : Z := get32 [u8 x; u8 (x / 2 ^ 8); u8 (x / 2 ^ 16); u8 (x / 2 ^ 24)] 0.

(** The superblock, filled in at the start of [main]. *)
Definition mk_sb : superblock :=
  Superblock (xint FSSIZE) (xint nblocks) (xint NINODES) (xint nlog) (xint 2) (xint (2 + nlog))
    (xint (2 + nlog + ninodeblocks)).

Definition zeroes : list Z := replicate (Z.to_nat BSIZE) 0.

(** Sectors past the end of the file can be written and not read. *)
Definition wsect (sec : Z) (buf : list Z) : M mk unit :=
  if FSSIZE <? sec then panic "wsect"
  else modify (fun s => set_nsec (Z.max (nsec s) (sec + 1)) (set_img (<[sec := buf]> (img s)) s)).

Definition rsect (sec : Z) : M mk (list Z) :=
  if FSSIZE <? sec then panic "rsect"
  else s <- get ;; if sec <? nsec s then ret (img s sec) else panic "read".

Definition winode (inum : Z) (x : dinode) : M mk unit :=
  let bn := IBLOCK inum mk_sb in
  buf <- rsect bn ;;
  wsect bn (put_dinode (dinode_off inum) x buf).

Definition rinode (inum : Z) : M mk dinode :=
  buf <- rsect (IBLOCK inum mk_sb) ;; ret (dinode_at (dinode_off inum) buf).

(** mkfs.c [ialloc]. *)
Definition mk_ialloc (type : Z) : M mk Z :=
  s <- get ;;
  let inum := freeinode s in
  put (set_freeinode (u32 (inum + 1)) s) ;;
  winode inum (Dinode (xshort type) 0 0 (xshort 1) (xint 0) (replicate 13 0)) ;;
  ret inum.

(** [buf[i/8] = buf[i/8] | (0x1 << (i%8))] for the first [used] bits. *)
Fixpoint mark_first (used : nat) (buf : list Z) : list Z :=
  match used with
  | O => buf
  | S i => mark_bit (Z.of_nat i) (mark_first i buf)
  end.

(** mkfs.c [balloc]. *)
Definition mk_balloc (used : Z) : M mk unit :=
  if negb (used <? BSIZE * 8) then panic "assert"
  else wsect (sb_bmapstart mk_sb) (mark_first (Z.to_nat used) zeroes).

(** [freeblock++]. *)
Definition take_block : M mk Z :=
  s <- get ;; put (set_freeblock (u32 (freeblock s + 1)) s) ;; ret (freeblock s).

(** The address of block [fbn] of a file, allocated if need be, and the
    addresses of the inode. *)
Definition file_block (ad : list Z) (fbn : Z) : M mk (Z * list Z) :=
  if fbn <? NDIRECT then
    ad <- (if xint (addr_at ad fbn) =? 0
           then b <- take_block ;; ret (<[Z.to_nat fbn := xint b]> ad) else ret ad) ;;
    ret (xint (addr_at ad fbn), ad)
  else
    ad <- (if xint (addr_at ad NDIRECT) =? 0
           then b <- take_block ;; ret (<[Z.to_nat NDIRECT := xint b]> ad) else ret ad) ;;
    indirect <- rsect (xint (addr_at ad NDIRECT)) ;;
    let o := (4 * Z.to_nat (fbn - NDIRECT))%nat in
    indirect <- (if get32 indirect o =? 0
                 then b <- take_block ;;
                      wsect (xint (addr_at ad NDIRECT)) (put32 o (xint b) indirect) ;;
                      ret (put32 o (xint b) indirect)
                 else ret indirect) ;;
    ret (xint (get32 indirect o), ad).

(** The [while] loop of [iappend]; every turn stores at least one byte, so the
    length of the data is enough fuel. *)
Fixpoint iappend_loop (fuel : nat) (p : list Z) (off : Z) (ad : list Z) : M mk (Z * list Z) :=
  match p with
  | [] => ret (off, ad)
  | _ =>
      match fuel with
      | O => undef "iappend"
      | S f =>
          let fbn := off / BSIZE in
          if negb (fbn <? MAXFILE) then panic "assert" else
          r <- file_block ad fbn ;;
          let n1 := Z.min (Z.of_nat (length p)) (u32 ((fbn + 1) * BSIZE - off)) in
          buf <- rsect (fst r) ;;
          wsect (fst r) (splice (Z.to_nat (off - fbn * BSIZE)) (take (Z.to_nat n1) p) buf) ;;
          iappend_loop f (drop (Z.to_nat n1) p) (u32 (off + n1)) (snd r)
      end
  end.

Definition iappend (inum : Z) (p : list Z) : M mk unit :=
  din <- rinode inum ;;
  r <- iappend_loop (length p) p (xint (di_size din)) (di_addrs din) ;;
  winode inum (Dinode (di_type din) (di_major din) (di_minor din) (di_nlink din) (xint (fst r)) (snd r)).

(** [while((cc = read(fd, buf, sizeof(buf))) > 0) iappend(inum, buf, cc)]; a file
    of the host is the list of the pieces [read] delivers. *)
Fixpoint append_all (inum : Z) (chunks : list (list Z)) : M mk unit :=
  match chunks with
  | [] => ret tt
  | c :: chunks' => iappend inum c ;; append_all inum chunks'
  end.

(** [if(argv[i][0] == '_') ++argv[i]]. *)
Definition skip_underscore (name : list Z) : list Z :=
  match name with c :: name' => if c =? 95 then name' else name | [] => [] end.

(** The loop over the arguments: names and pieces of files that open. *)
Fixpoint add_files (files : list (list Z * list (list Z))) : M mk unit :=
  match files with
  | [] => ret tt
  | (name, chunks) :: files' =>
      if decide (slash ∈ name) then panic "assert" else
      inum <- mk_ialloc T_FILE ;;
      iappend ROOTINO (dirent_bytes (xshort inum) (skip_underscore name)) ;;
      append_all inum chunks ;;
      add_files files'
  end.

(** [for(i = 0; i < FSSIZE; i++) wsect(i, zeroes)]. *)
Fixpoint clear_sectors (k : nat) (i : Z) : M mk unit :=
  match k with
  | O => ret tt
  | S k' => wsect i zeroes ;; clear_sectors k' (i + 1)
  end.

(** The bytes of [struct superblock] at the start of a sector. *)
Definition sb_bytes (sb : superblock) : list Z :=
  put_words 0 [sb_size sb; sb_nblocks sb; sb_ninodes sb; sb_nlog sb; sb_logstart sb; sb_inodestart sb; sb_bmapstart sb] zeroes.

(** [off = ((off/BSIZE) + 1) * BSIZE]: the root directory grows to a whole
    number of blocks. *)
Definition fix_root_size : M mk unit :=
  din <- rinode ROOTINO ;;
  let off := xint (di_size din) in
  let off := u32 ((off / BSIZE + 1) * BSIZE) in
  winode ROOTINO (Dinode (di_type din) (di_major din) (di_minor din) (di_nlink din) (xint off) (di_addrs din)).

Definition mkfs (files : list (list Z * list (list Z))) : M mk unit :=
  modify (set_freeblock nmeta) ;;
  clear_sectors (Z.to_nat FSSIZE) 0 ;;
  wsect 1 (sb_bytes mk_sb) ;;
  rootino <- mk_ialloc T_DIR ;;
  if negb (rootino =? ROOTINO) then panic "assert" else
  iappend rootino (dirent_bytes (xshort rootino) [46]) ;;
  iappend rootino (dirent_bytes (xshort rootino) [46; 46]) ;;
  add_files files ;;
  fix_root_size ;;
  s <- get ;;
  mk_balloc (freeblock s).

(** The empty image file. *)
Definition mk_start : mk := Mk (fun _ => []) 0 1 0.

(** ** What an image holds *)

(** The image as the file system reads it. *)
Definition view (f : Z -> list Z) : txview := Txview f f [] 0 [].

(** Block [bn] of the bytes [l], filled up with zeros. *)
Definition fit (l : list Z) (bn : Z) : list Z :=
  let d := slice (Z.to_nat (bn * BSIZE)) (Z.to_nat BSIZE) l in
  d ++ replicate (Z.to_nat BSIZE - length d) 0.

#[local] Abbreviation len l := (Z.of_nat (length l)).

(** The blocks of a file of [n] bytes: its data and, beyond [NDIRECT] blocks,
    the indirect block. *)
Definition blocks_for (n : Z) : Z :=
  (n + BSIZE - 1) / BSIZE + (if NDIRECT * BSIZE <? n then 1 else 0).

Record mk_ok (s : mk) : Prop := {
  ok_nsec : nsec s = FSSIZE;
  ok_free : nmeta <= freeblock s <= FSSIZE;
  ok_length n : 0 <= n < FSSIZE -> length (img s n) = Z.to_nat BSIZE;
  ok_zero n : freeblock s <= n < FSSIZE -> img s n = zeroes }.

(** The addresses [ad] hold the bytes [l] in blocks below [freeblock]. *)
Record holds (s : mk) (ad l : list Z) : Prop := {
  ho_len : length ad = 13%nat;
  ho_size : len l <= MAXFILE * BSIZE;
  ho_ind : if NDIRECT * BSIZE <? len l then nmeta <= ind ad < freeblock s else ind ad = 0;
  ho_blk bn : 0 <= bn < MAXFILE ->
    if bn * BSIZE <? len l then nmeta <= blk (view (img s)) ad bn < freeblock s
    else blk (view (img s)) ad bn = 0;
  ho_inj x y : 0 <= x -> 0 <= y -> x * BSIZE < len l -> y * BSIZE < len l ->
    blk (view (img s)) ad x = blk (view (img s)) ad y -> x = y;
  ho_ne bn : 0 <= bn -> bn * BSIZE < len l -> blk (view (img s)) ad bn <> ind ad;
  ho_data bn : 0 <= bn -> bn * BSIZE < len l -> img s (blk (view (img s)) ad bn) = fit l bn }.

(** Only blocks of the file and new blocks have changed. *)
Record frame (s : mk) (ad : list Z) (s' : mk) (ad' : list Z) : Prop := {
  fr_free : freeblock s <= freeblock s';
  fr_same n : n < freeblock s -> ~ owns (view (img s)) ad n -> img s' n = img s n;
  fr_owns n : owns (view (img s')) ad' n <-> owns (view (img s)) ad n \/ freeblock s <= n < freeblock s';
  fr_inode : freeinode s' = freeinode s }.

Lemma xint_small x : 0 <= x < 2 ^ 32 -> xint x = x.
Proof.
  intros H. unfold xint, get32, byte. cbn [lookup list_lookup Nat.add default from_option id].
  change (2 ^ 24) with 16777216. unfold u8. Z.to_euclidean_division_equations. lia.
Qed.

Lemma xshort_small x : 0 <= x < 2 ^ 16 -> xshort x = x.
Proof.
  intros H. unfold xshort, get16, byte. cbn [lookup list_lookup Nat.add default from_option id].
  unfold u8. Z.to_euclidean_division_equations. lia.
Qed.

Lemma mk_sb_eq : mk_sb = Superblock 2000 1941 200 30 2 32 58.
Proof. vm_compute. reflexivity. Qed.

Lemma length_fit l bn : length (fit l bn) = Z.to_nat BSIZE.
Proof.
  unfold fit. rewrite length_app, length_replicate. unfold slice. rewrite length_take, length_drop.
  fs_const. lia.
Qed.

Lemma fit_lookup l bn j : 0 <= bn -> (j < Z.to_nat BSIZE)%nat ->
  fit l bn !! j = Some (byte l (Z.to_nat (bn * BSIZE) + j)).
Proof.
  intros Hb Hj. unfold fit, byte. set (d := slice _ _ l).
  assert (length d = Nat.min (Z.to_nat BSIZE) (length l - Z.to_nat (bn * BSIZE)))%nat as Hd
    by (unfold d, slice; rewrite length_take, length_drop; done).
  destruct (decide (j < length d)%nat) as [H|H].
  - rewrite lookup_app_l by done. unfold d. rewrite slice_lookup, decide_True by done.
    destruct (lookup_lt_is_Some_2 l (Z.to_nat (bn * BSIZE) + j)) as [x ->]; [lia | done].
  - rewrite lookup_app_r by lia. rewrite lookup_replicate_2 by lia.
    rewrite lookup_ge_None_2 by lia. done.
Qed.

Lemma byte_app l1 l2 k : byte (l1 ++ l2) k = if decide (k < length l1)%nat then byte l1 k else byte l2 (k - length l1).
Proof. unfold byte. destruct (decide _); [by rewrite lookup_app_l | by rewrite lookup_app_r by lia]. Qed.

(** Blocks that are full do not change when bytes are appended. *)
Lemma fit_app_full l src bn : 0 <= bn -> (bn + 1) * BSIZE <= len l -> fit (l ++ src) bn = fit l bn.
Proof.
  intros Hb Hl. apply list_eq_same_length with (n := Z.to_nat BSIZE); rewrite ?length_fit; try done.
  intros j x y Hj. rewrite !fit_lookup by done. rewrite byte_app, decide_True by (fs_const; lia). congruence.
Qed.

(** Appending within the last block. *)
Lemma fit_app_last l src :
  len l mod BSIZE + len src <= BSIZE ->
  fit (l ++ src) (len l / BSIZE) = splice (Z.to_nat (len l mod BSIZE)) src (fit l (len l / BSIZE)).
Proof.
  intros H. pose proof (Z.mod_pos_bound (len l) BSIZE ltac:(done)) as Hm.
  assert (0 <= len l / BSIZE) as Hb by (apply Z.div_pos; fs_const; lia).
  assert (len l = BSIZE * (len l / BSIZE) + len l mod BSIZE) as E by (apply Z.div_mod; done).
  apply list_eq_same_length with (n := Z.to_nat BSIZE);
    rewrite ?length_splice, ?length_fit; try done; try (rewrite ?length_fit; fs_const; lia).
  intros j x y Hj. rewrite splice_lookup by (rewrite length_fit; fs_const; lia).
  rewrite !fit_lookup by done. rewrite byte_app.
  destruct (decide (Z.to_nat (len l mod BSIZE) <= j < Z.to_nat (len l mod BSIZE) + length src)%nat) as [D|D].
  - rewrite decide_False by (fs_const; lia). intros [= <-] E2. unfold byte.
    replace (Z.to_nat (len l / BSIZE * BSIZE) + j - length l)%nat with (j - Z.to_nat (len l mod BSIZE))%nat
      by (fs_const; lia). by rewrite E2.
  - destruct (decide _) as [D2|D2]; [congruence|]. intros [= <-] [= <-]. unfold byte.
    rewrite !lookup_ge_None_2 by (fs_const; lia). done.
Qed.

Lemma fit_nil l : len l mod BSIZE = 0 -> fit l (len l / BSIZE) = zeroes.
Proof.
  intros H. assert (len l = BSIZE * (len l / BSIZE) + len l mod BSIZE) as E by (apply Z.div_mod; done).
  unfold fit, slice. rewrite drop_ge by (fs_const; lia). rewrite take_nil. done.
Qed.

(** ** Sectors *)

(** [s'] is [s] with sector [n] replaced. *)
Definition stored_at (n : Z) (d : list Z) (s : mk) : mk := set_img (<[n := d]> (img s)) s.

Lemma wsect_runs n d cx s :
  nsec s = FSSIZE -> 0 <= n < FSSIZE -> wsect n d cx s = Ret tt cx (stored_at n d s).
Proof.
  intros Hs Hn. unfold wsect. destruct (Z.ltb_spec FSSIZE n); [lia|]. unfold modify, stored_at. f_equal.
  unfold set_nsec, set_img. cbn. rewrite Z.max_l by lia. done.
Qed.

Lemma rsect_runs n cx s : nsec s = FSSIZE -> 0 <= n < FSSIZE -> rsect n cx s = Ret (img s n) cx s.
Proof.
  intros Hs Hn. unfold rsect. destruct (Z.ltb_spec FSSIZE n); [lia|]. mstep. rewrite Hs.
  by destruct (Z.ltb_spec n FSSIZE); [|lia].
Qed.

Lemma take_block_runs cx s :
  0 <= freeblock s < FSSIZE ->
  take_block cx s = Ret (freeblock s) cx (set_freeblock (freeblock s + 1) s).
Proof. intros H. unfold take_block. mrun. unfold FSSIZE in *. rewrite u32_small by lia. done. Qed.

Lemma img_stored_same n d s : img (stored_at n d s) n = d.
Proof. apply fn_lookup_insert. Qed.

Lemma img_stored_other n m d s : m <> n -> img (stored_at n d s) m = img s m.
Proof. intros H. apply fn_lookup_insert_ne. congruence. Qed.

Lemma stored_ok n d s : mk_ok s -> 0 <= n < freeblock s -> length d = Z.to_nat BSIZE -> mk_ok (stored_at n d s).
Proof.
  intros [H1 H2 H3 H4] Hn Hd. split; [done|done|..].
  - intros m Hm. destruct (decide (m = n)) as [->|N]; [by rewrite img_stored_same|].
    rewrite img_stored_other by done. auto.
  - intros m Hm. cbn in Hm. rewrite img_stored_other by lia. auto.
Qed.

Lemma bump_ok s : mk_ok s -> freeblock s < FSSIZE -> mk_ok (set_freeblock (freeblock s + 1) s).
Proof. intros [H1 H2 H3 H4] Hf. split; cbn; [done|lia|done|]. intros n Hn. apply H4. lia. Qed.

(** ** Finding a block *)

(** What [file_block] promises for the block that holds offset [len l]. *)
Record got (s : mk) (ad l : list Z) (s1 : mk) (ad1 : list Z) (x : Z) : Prop := {
  go_ok : mk_ok s1;
  go_inode : freeinode s1 = freeinode s;
  go_free : freeblock s1 = freeblock s +
    (if len l mod BSIZE =? 0 then if len l / BSIZE =? NDIRECT then 2 else 1 else 0);
  go_len : length ad1 = 13%nat;
  go_blk bn : 0 <= bn < MAXFILE ->
    blk (view (img s1)) ad1 bn = if bn =? len l / BSIZE then x else blk (view (img s)) ad bn;
  go_ind : if len l / BSIZE <? NDIRECT then ind ad1 = ind ad else nmeta <= ind ad1 < freeblock s1;
  go_new : ind ad1 = ind ad \/ ind ad = 0 /\ freeblock s <= ind ad1;
  go_x : nmeta <= x < freeblock s1 /\ x <> ind ad1;
  go_old : if len l mod BSIZE =? 0 then freeblock s <= x else x = blk (view (img s)) ad (len l / BSIZE);
  go_img : img s1 x = fit l (len l / BSIZE);
  go_same n : n <> ind ad1 \/ n < nmeta -> n < freeblock s -> img s1 n = img s n }.

Section block.
Variables (s : mk) (ad l : list Z) (cx : ctx).
Hypotheses (OK : mk_ok s) (H : holds s ad l) (Hoff : len l < MAXFILE * BSIZE).

Let fbn := len l / BSIZE.

Lemma fbn_range : 0 <= fbn < MAXFILE.
Proof. unfold fbn. fs_const. word_lia. Qed.

(** Offset [len l] is inside an allocated block exactly when it is not a
    multiple of [BSIZE]. *)
Lemma fbn_inside : (fbn * BSIZE <? len l) = negb (len l mod BSIZE =? 0).
Proof.
  unfold fbn. pose proof (Z.mod_pos_bound (len l) BSIZE ltac:(done)).
  assert (len l = BSIZE * (len l / BSIZE) + len l mod BSIZE) as E by (apply Z.div_mod; done).
  destruct (Z.ltb_spec (len l / BSIZE * BSIZE) (len l)), (Z.eqb_spec (len l mod BSIZE) 0); cbn; try done; fs_const; lia.
Qed.

Lemma holds_range bn : 0 <= bn < MAXFILE -> 0 <= blk (view (img s)) ad bn < FSSIZE.
Proof.
  intros Hb. pose proof (ho_blk _ _ _ H bn Hb) as B. pose proof (ok_free _ OK).
  destruct (_ <? _); [|rewrite B; done]. unfold nmeta, nlog, ninodeblocks, nbitmap in *.
  change (2 + LOGSIZE + (NINODES / IPB + 1) + (FSSIZE / (BSIZE * 8) + 1)) with 59 in *. lia.
Qed.

Lemma ind_range : 0 <= ind ad < FSSIZE.
Proof.
  pose proof (ho_ind _ _ _ H) as B. pose proof (ok_free _ OK). destruct (_ <? _); [|rewrite B; done].
  change nmeta with 59 in *. lia.
Qed.

Lemma xint_sector x : 0 <= x < FSSIZE -> xint x = x.
Proof. intros Hx. apply xint_small. unfold FSSIZE in Hx. lia. Qed.

(** A block that is there already. *)
Lemma block_there : len l mod BSIZE <> 0 -> file_block ad fbn cx s = Ret (blk (view (img s)) ad fbn, ad) cx s.
Proof.
  intros Hm. pose proof fbn_range as Hb. pose proof fbn_inside as Hin.
  rewrite (proj2 (Z.eqb_neq _ _) Hm) in Hin. cbn [negb] in Hin.
  pose proof (ho_blk _ _ _ H fbn Hb) as B. rewrite Hin in B. change nmeta with 59 in B.
  pose proof (holds_range fbn Hb) as Hr. unfold file_block. unfold blk in *.
  destruct (fbn <? NDIRECT) eqn:Ed.
  - rewrite xint_sector by done. destruct (Z.eqb_spec (addr_at ad fbn) 0); [lia|]. mrun. by rewrite xint_sector.
  - fold (ind ad). pose proof ind_range. rewrite xint_sector by done.
    destruct (Z.eqb_spec (ind ad) 0); [lia|]. mrun. fold (ind ad). rewrite xint_sector by done.
    rewrite (bind_Ret _ _ _ _ _ _ _ (rsect_runs (ind ad) cx s (ok_nsec _ OK) ltac:(done))).
    cbn [tseen view] in *. destruct (Z.eqb_spec (get32 (img s (ind ad)) (4 * Z.to_nat (fbn - NDIRECT))) 0); [lia|].
    mrun. by rewrite xint_sector.
Qed.

Lemma got_there : len l mod BSIZE <> 0 -> got s ad l s ad (blk (view (img s)) ad fbn).
Proof.
  intros Hm. pose proof fbn_range as Hb. pose proof fbn_inside as Hin.
  rewrite (proj2 (Z.eqb_neq _ _) Hm) in Hin. cbn [negb] in Hin. apply Z.ltb_lt in Hin.
  pose proof (ho_blk _ _ _ H fbn Hb) as B. rewrite (proj2 (Z.ltb_lt _ _) Hin) in B.
  split; rewrite ?(proj2 (Z.eqb_neq _ _) Hm); try done.
  - lia.
  - apply H.
  - intros bn Hbn. fold fbn. by destruct (Z.eqb_spec bn fbn) as [->|].
  - fold fbn. destruct (Z.ltb_spec fbn NDIRECT); [done|]. pose proof (ho_ind _ _ _ H) as D.
    destruct (Z.ltb_spec (NDIRECT * BSIZE) (len l)); [done|]. fs_const. lia.
  - by left.
  - split; [done|]. apply (ho_ne _ _ _ H); [lia | done].
  - apply (ho_data _ _ _ H); [lia | done].
Qed.
(** *** New blocks *)

Hypothesis (Hm : len l mod BSIZE = 0).

Lemma fresh_blk : blk (view (img s)) ad fbn = 0.
Proof.
  pose proof (ho_blk _ _ _ H fbn fbn_range) as B. rewrite fbn_inside, Hm in B. done.
Qed.

(** Blocks of the file below [freeblock], seen through a later image. *)
Lemma blk_later f bn : (ind ad <> 0 -> f (ind ad) = img s (ind ad)) -> blk (view f) ad bn = blk (view (img s)) ad bn.
Proof.
  intros Hf. unfold blk. destruct (bn <? NDIRECT); [done|]. destruct (Z.eqb_spec (ind ad) 0); [done|].
  cbn [tseen view]. by rewrite Hf.
Qed.

Lemma got_direct : fbn < NDIRECT -> freeblock s < FSSIZE ->
  exists s1 ad1 x, file_block ad fbn cx s = Ret (x, ad1) cx s1 /\ got s ad l s1 ad1 x.
Proof.
  intros Hd Hf. pose proof (ok_free _ OK) as Hfree. change nmeta with 59 in *. pose proof fbn_range as Hb.
  pose proof fresh_blk as H0. pose proof (ho_len _ _ _ H) as Hl.
  assert (addr_at ad fbn = 0) as Ha.
  { unfold blk in H0. by rewrite (proj2 (Z.ltb_lt _ _) Hd) in H0. }
  exists (set_freeblock (freeblock s + 1) s), (<[Z.to_nat fbn := freeblock s]> ad), (freeblock s). split.
  - unfold file_block. rewrite (proj2 (Z.ltb_lt _ _) Hd), Ha. change (xint 0) with 0. cbn [Z.eqb].
    mstep. erewrite bind_Ret by (apply take_block_runs; lia). mrun.
    rewrite (xint_sector (freeblock s)) by lia. rewrite addr_at_insert by (done || fs_const; lia).
    rewrite Z.eqb_refl. by rewrite xint_sector by lia.
  - assert (ind (<[Z.to_nat fbn := freeblock s]> ad) = ind ad) as Hind.
    { unfold ind. rewrite addr_at_insert by (done || fs_const; lia). fs_const. by destruct (Z.eqb_spec 12 fbn); [lia|]. }
    pose proof ind_range as Hir. pose proof (ho_ind _ _ _ H) as HI.
    split; rewrite ?Hind; fold fbn; rewrite ?Hm; cbn [Z.eqb].
    + by apply bump_ok.
    + done.
    + cbn. destruct (Z.eqb_spec fbn NDIRECT); [lia | done].
    + by rewrite length_insert.
    + intros bn Hbn. cbn [img set_freeblock]. unfold blk. rewrite Hind.
      destruct (Z.ltb_spec bn NDIRECT); [|by destruct (Z.eqb_spec bn fbn); [lia|]].
      rewrite addr_at_insert by (done || fs_const; lia). done.
    + by rewrite (proj2 (Z.ltb_lt _ _) Hd).
    + by left.
    + change nmeta with 59 in *. cbn [freeblock set_freeblock]. destruct (_ <? len l); lia.
    + lia.
    + cbn. rewrite (ok_zero _ OK) by lia. symmetry. by apply fit_nil.
    + done.
Qed.

(** The entry of the indirect block, once there is one. *)
Lemma entry_runs s0 ad0 : mk_ok s0 -> nmeta <= ind ad0 < freeblock s0 -> NDIRECT <= fbn -> freeblock s0 < FSSIZE ->
  xint (addr_at ad0 NDIRECT) = ind ad0 -> get32 (img s0 (ind ad0)) (4 * Z.to_nat (fbn - NDIRECT)) = 0 ->
  (indirect <- rsect (xint (addr_at ad0 NDIRECT)) ;;
    let o := (4 * Z.to_nat (fbn - NDIRECT))%nat in
    indirect <- (if get32 indirect o =? 0
                 then b <- take_block ;;
                      wsect (xint (addr_at ad0 NDIRECT)) (put32 o (xint b) indirect) ;;
                      ret (put32 o (xint b) indirect)
                 else ret indirect) ;;
    ret (xint (get32 indirect o), ad0)) cx s0
  = Ret (freeblock s0, ad0) cx (stored_at (ind ad0)
      (put32 (4 * Z.to_nat (fbn - NDIRECT)) (freeblock s0) (img s0 (ind ad0)))
      (set_freeblock (freeblock s0 + 1) s0)).
Proof.
  intros OK0 Hi Hd Hf Hx H0. pose proof fbn_range as Hb. pose proof (ok_free _ OK0). change nmeta with 59 in *.
  rewrite Hx. erewrite bind_Ret by (apply rsect_runs; [apply OK0 | lia]). cbv zeta. rewrite H0. cbn [Z.eqb].
  mstep. erewrite bind_Ret by (apply take_block_runs; lia). rewrite xint_sector by lia.
  mstep. erewrite bind_Ret by (apply wsect_runs; [apply OK0 | lia]). mrun.
  rewrite get32_put32; [|rewrite (ok_length _ OK0) by lia; fs_const; lia].
  unfold FSSIZE in *. rewrite u32_small by lia. by rewrite xint_small by lia.
Qed.

(** What an entry of the indirect block means for the file. *)
Lemma entry_blk f ad0 d b bn : ind ad0 <> 0 -> NDIRECT <= fbn -> 0 <= bn < MAXFILE -> 0 <= b < 2 ^ 32 ->
  f (ind ad0) = put32 (4 * Z.to_nat (fbn - NDIRECT)) b d -> length d = Z.to_nat BSIZE ->
  blk (view f) ad0 bn =
  if bn =? fbn then b else
  if bn <? NDIRECT then addr_at ad0 bn else get32 d (4 * Z.to_nat (bn - NDIRECT)).
Proof.
  intros Hi Hd Hbn Hb Hf Hl. pose proof fbn_range. unfold blk. rewrite (proj2 (Z.eqb_neq _ _) Hi).
  destruct (Z.ltb_spec bn NDIRECT); [by destruct (Z.eqb_spec bn fbn); [lia|]|]. cbn [tseen view]. rewrite Hf.
  destruct (Z.eqb_spec bn fbn) as [->|N].
  - rewrite get32_put32, u32_small by (done || fs_const; lia). done.
  - apply get32_put32_ne. fs_const. lia.
Qed.

Lemma got_entry : NDIRECT < fbn -> freeblock s < FSSIZE ->
  exists s1 ad1 x, file_block ad fbn cx s = Ret (x, ad1) cx s1 /\ got s ad l s1 ad1 x.
Proof.
  intros Hd Hf. pose proof (ok_free _ OK) as Hfree. change nmeta with 59 in *. pose proof fbn_range as Hb.
  pose proof fresh_blk as H0. pose proof (ho_ind _ _ _ H) as HI.
  assert (NDIRECT * BSIZE < len l) as Hlt.
  { assert (len l = BSIZE * (len l / BSIZE) + len l mod BSIZE) as E by (apply Z.div_mod; done).
    unfold fbn in *. fs_const. lia. }
  rewrite (proj2 (Z.ltb_lt _ _) Hlt) in HI. change nmeta with 59 in HI.
  assert (ind ad <> 0) as Hi0 by lia.
  unfold blk in H0. rewrite (proj2 (Z.ltb_ge _ _)), (proj2 (Z.eqb_neq _ _) Hi0) in H0 by lia.
  cbn [tseen view] in H0. pose proof (ok_length _ OK (ind ad) ltac:(lia)) as Hil.
  eexists _, ad, (freeblock s). split.
  - unfold file_block. rewrite (proj2 (Z.ltb_ge _ _)) by lia.
    assert (xint (addr_at ad NDIRECT) = ind ad) as Hx by (fold (ind ad); rewrite xint_sector by lia; done).
    rewrite Hx, (proj2 (Z.eqb_neq _ _) Hi0). mstep. apply entry_runs; try done; change nmeta with 59; lia.
  - split; fold fbn; rewrite ?Hm; cbn [Z.eqb].
    + apply stored_ok; [by apply bump_ok | cbn; lia | by rewrite length_put32].
    + done.
    + cbn. destruct (Z.eqb_spec fbn NDIRECT); [lia | done].
    + apply H.
    + intros bn Hbn. cbn [img stored_at set_img].
      rewrite (entry_blk _ ad (img s (ind ad)) (freeblock s) bn); try done; try lia.
      * destruct (Z.eqb_spec bn fbn); [done|]. unfold blk. by rewrite (proj2 (Z.eqb_neq _ _) Hi0).
      * unfold FSSIZE in *. lia.
      * apply fn_lookup_insert.
    + rewrite (proj2 (Z.ltb_ge _ _)) by lia. cbn. change nmeta with 59. lia.
    + by left.
    + cbn. change nmeta with 59. lia.
    + lia.
    + rewrite img_stored_other by lia. cbn. rewrite (ok_zero _ OK) by lia. symmetry. by apply fit_nil.
    + intros n Hn _. rewrite img_stored_other; [done|]. change nmeta with 59 in Hn. lia.
Qed.

Lemma got_indirect : fbn = NDIRECT -> freeblock s + 1 < FSSIZE ->
  exists s1 ad1 x, file_block ad fbn cx s = Ret (x, ad1) cx s1 /\ got s ad l s1 ad1 x.
Proof.
  intros Hd Hf. pose proof (ok_free _ OK) as Hfree. change nmeta with 59 in *. pose proof fbn_range as Hb.
  pose proof (ho_ind _ _ _ H) as HI. pose proof (ho_len _ _ _ H) as Hl.
  assert (len l = NDIRECT * BSIZE) as Elen.
  { assert (len l = BSIZE * (len l / BSIZE) + len l mod BSIZE) as E by (apply Z.div_mod; done).
    unfold fbn in *. fs_const. lia. }
  rewrite Elen in HI. change (NDIRECT * BSIZE <? NDIRECT * BSIZE) with false in HI.
  set (ad1 := <[Z.to_nat NDIRECT := freeblock s]> ad).
  set (s0 := set_freeblock (freeblock s + 1) s).
  assert (ind ad1 = freeblock s) as Hind.
  { unfold ind, ad1. rewrite addr_at_insert by (done || fs_const; lia). by rewrite Z.eqb_refl. }
  assert (mk_ok s0) as OK0 by (by apply bump_ok; [|lia]).
  assert (img s0 (ind ad1) = zeroes) as Hz by (rewrite Hind; apply (ok_zero _ OK); lia).
  eexists _, ad1, (freeblock s + 1). split.
  - unfold file_block. rewrite (proj2 (Z.ltb_ge _ _)) by lia. fold (ind ad). rewrite HI.
    change (xint 0) with 0. cbn [Z.eqb]. mstep. erewrite bind_Ret by (apply take_block_runs; lia).
    mstep. rewrite (xint_sector (freeblock s)) by lia. fold ad1. fold s0.
    apply (entry_runs s0 ad1); try done; rewrite ?Hind; change nmeta with 59; cbn; try lia.
    + fold (ind ad1). rewrite Hind. by apply xint_sector; lia.
    + rewrite (ok_zero _ OK) by lia. apply get32_zeros.
  - split; fold fbn; rewrite ?Hm; cbn [Z.eqb].
    + apply stored_ok; [apply bump_ok; [done | cbn; lia] | rewrite Hind; cbn; lia | rewrite length_put32, Hz; done].
    + done.
    + rewrite Hd. cbn. lia.
    + unfold ad1. by rewrite length_insert.
    + intros bn Hbn. cbn [img stored_at set_img].
      rewrite (entry_blk _ ad1 zeroes (freeblock s + 1) bn); try done; try lia.
      * destruct (Z.eqb_spec bn fbn); [done|]. unfold blk. rewrite HI. cbn [Z.eqb].
        destruct (Z.ltb_spec bn NDIRECT); [|apply get32_zeros].
        unfold ad1. rewrite addr_at_insert by (done || fs_const; lia). by destruct (Z.eqb_spec bn NDIRECT); [lia|].
      * unfold FSSIZE in *. lia.
      * rewrite fn_lookup_insert, Hz. done.
    + rewrite (proj2 (Z.ltb_ge _ _)) by lia. rewrite Hind. cbn. change nmeta with 59. lia.
    + right. rewrite Hind. split; [done | lia].
    + rewrite Hind. cbn. change nmeta with 59. lia.
    + lia.
    + rewrite img_stored_other by lia. cbn. rewrite (ok_zero _ OK) by lia. symmetry. by apply fit_nil.
    + intros n Hn Hlt. rewrite img_stored_other; [done|]. rewrite Hind in *. lia.
Qed.

End block.

Lemma blocks_for_step n m :
  0 <= n -> 0 < m -> n mod BSIZE + m <= BSIZE ->
  blocks_for (n + m) = blocks_for n + (if n mod BSIZE =? 0 then if n / BSIZE =? NDIRECT then 2 else 1 else 0).
Proof.
  intros Hn Hm H. unfold blocks_for. fs_const.
  destruct (Z.eqb_spec (n mod 512) 0), (Z.eqb_spec (n / 512) 12),
    (Z.ltb_spec (12 * 512) (n + m)), (Z.ltb_spec (12 * 512) n);
    Z.to_euclidean_division_equations; lia.
Qed.

Lemma blocks_for_mono n m : 0 <= n <= m -> blocks_for n <= blocks_for m.
Proof.
  intros H. unfold blocks_for. fs_const. assert ((n + 512 - 1) / 512 <= (m + 512 - 1) / 512) by (apply Z.div_le_mono; lia).
  destruct (Z.ltb_spec (12 * 512) n), (Z.ltb_spec (12 * 512) m); lia.
Qed.

Lemma file_block_runs s ad l cx m :
  mk_ok s -> holds s ad l -> len l < MAXFILE * BSIZE -> 0 < m -> len l mod BSIZE + m <= BSIZE ->
  freeblock s + blocks_for (len l + m) - blocks_for (len l) <= FSSIZE ->
  exists s1 ad1 x, file_block ad (len l / BSIZE) cx s = Ret (x, ad1) cx s1 /\ got s ad l s1 ad1 x.
Proof.
  intros OK H Hoff Hm Hmb Hf. rewrite blocks_for_step in Hf by lia.
  destruct (Z.eqb_spec (len l mod BSIZE) 0) as [E|E].
  - destruct (Z.eqb_spec (len l / BSIZE) NDIRECT) as [Ed|Ed]; [by apply got_indirect; [..|lia]|].
    destruct (decide (len l / BSIZE < NDIRECT)); [apply got_direct | apply got_entry]; done || lia.
  - exists s, ad, (blk (view (img s)) ad (len l / BSIZE)). split; [by apply block_there | by apply got_there].
Qed.

Section append.
Variables (s : mk) (ad l src : list Z) (s1 : mk) (ad1 : list Z) (x : Z).
Hypotheses (OK : mk_ok s) (H : holds s ad l) (Hoff : len l < MAXFILE * BSIZE).
Hypotheses (G : got s ad l s1 ad1 x) (Hsrc : 0 < len src) (Hfit : len l mod BSIZE + len src <= BSIZE).

Let fbn := len l / BSIZE.
Let s2 := stored_at x (splice (Z.to_nat (len l mod BSIZE)) src (img s1 x)) s1.

Lemma append_len : len (l ++ src) = len l + len src.
Proof. rewrite length_app. lia. Qed.

Lemma append_ltb bn : 0 <= bn -> (bn * BSIZE <? len (l ++ src)) = (bn =? fbn) || (bn * BSIZE <? len l).
Proof.
  intros Hb. rewrite append_len. unfold fbn. pose proof (Z.mod_pos_bound (len l) BSIZE ltac:(done)).
  assert (len l = BSIZE * (len l / BSIZE) + len l mod BSIZE) as E by (apply Z.div_mod; done).
  destruct (Z.ltb_spec (bn * BSIZE) (len l + len src)), (Z.eqb_spec bn (len l / BSIZE)),
    (Z.ltb_spec (bn * BSIZE) (len l)); cbn; try done; fs_const; nia.
Qed.

Lemma blk_s2 bn : 0 <= bn < MAXFILE ->
  blk (view (img s2)) ad1 bn = if bn =? fbn then x else blk (view (img s)) ad bn.
Proof.
  intros Hb. unfold fbn. rewrite <- (go_blk _ _ _ _ _ _ G bn Hb). unfold blk.
  destruct (bn <? NDIRECT); [done|]. destruct (ind ad1 =? 0); [done|]. cbn [tseen view].
  unfold s2. rewrite img_stored_other; [done|]. pose proof (go_x _ _ _ _ _ _ G). lia.
Qed.

(** An old block is not the one written, unless it is the last one. *)
Lemma old_not_x bn : 0 <= bn -> bn * BSIZE < len l -> bn <> fbn -> blk (view (img s)) ad bn <> x.
Proof.
  intros Hb Hl Hn E. pose proof (fbn_range l Hoff) as Hr. fold fbn in Hr. pose proof (go_old _ _ _ _ _ _ G) as Ho.
  assert (0 <= bn < MAXFILE) as Hbr by (fs_const; lia).
  pose proof (ho_blk _ _ _ H bn Hbr) as B. rewrite (proj2 (Z.ltb_lt _ _) Hl) in B.
  pose proof (fbn_inside l) as Hin. fold fbn in Hin.
  destruct (Z.eqb_spec (len l mod BSIZE) 0); cbn [negb] in Hin; [lia|]. fold fbn in Ho.
  apply Hn, (ho_inj _ _ _ H); try lia; congruence.
Qed.

Lemma old_not_ind bn : 0 <= bn -> bn * BSIZE < len l -> blk (view (img s)) ad bn <> ind ad1.
Proof.
  intros Hb Hl. assert (0 <= bn < MAXFILE) as Hbr by (pose proof (ho_size _ _ _ H); fs_const; lia).
  pose proof (ho_blk _ _ _ H bn Hbr) as B. rewrite (proj2 (Z.ltb_lt _ _) Hl) in B.
  destruct (go_new _ _ _ _ _ _ G) as [->|Hf]; [by apply H | lia].
Qed.

Lemma img_s2_old n : n <> ind ad1 -> n <> x -> n < freeblock s -> img s2 n = img s n.
Proof. intros H1 H2 H3. unfold s2. rewrite img_stored_other by done. apply (go_same _ _ _ _ _ _ G); auto. Qed.

Lemma append_ok : mk_ok s2.
Proof.
  pose proof (go_ok _ _ _ _ _ _ G) as O1. pose proof (ok_free _ O1). pose proof (go_x _ _ _ _ _ _ G).
  change nmeta with 59 in *. apply stored_ok; [done | lia|].
  rewrite length_splice; rewrite (ok_length _ O1) by lia; [done|]. pose proof (Z.mod_pos_bound (len l) BSIZE ltac:(done)). fs_const. lia.
Qed.

Lemma freeblock_s2 : freeblock s2 = freeblock s1.
Proof. done. Qed.

Lemma append_holds : holds s2 ad1 (l ++ src).
Proof.
  pose proof (fbn_range l Hoff) as Hr. fold fbn in Hr. pose proof (go_x _ _ _ _ _ _ G) as [Hx Hxi].
  assert (freeblock s <= freeblock s1) as Hmono.
  { rewrite (go_free _ _ _ _ _ _ G). destruct (_ =? 0); [|lia]. destruct (_ =? NDIRECT); lia. }
  split.
  - apply G.
  - rewrite append_len. pose proof (Z.mod_pos_bound (len l) BSIZE ltac:(done)).
    assert (len l = BSIZE * fbn + len l mod BSIZE) as E by (apply Z.div_mod; done). fs_const. lia.
  - rewrite freeblock_s2. pose proof (go_ind _ _ _ _ _ _ G) as HI. fold fbn in HI. rewrite append_len.
    pose proof (ho_ind _ _ _ H) as HI0.
    assert (len l = BSIZE * fbn + len l mod BSIZE) as E by (apply Z.div_mod; done).
    pose proof (Z.mod_pos_bound (len l) BSIZE ltac:(done)).
    destruct (Z.ltb_spec fbn NDIRECT), (Z.ltb_spec (NDIRECT * BSIZE) (len l + len src)), (Z.ltb_spec (NDIRECT * BSIZE) (len l));
      try (fs_const; lia); done.
  - intros bn Hb. rewrite append_ltb, blk_s2, freeblock_s2 by lia. pose proof (ho_blk _ _ _ H bn Hb) as B.
    destruct (bn =? fbn); cbn [orb]; [done|]. destruct (_ <? _); [lia | done].
  - intros y z Hy Hz. rewrite <- !Z.ltb_lt, !append_ltb, !orb_true_iff, !Z.eqb_eq, !Z.ltb_lt by done.
    intros Ly Lz. assert (0 <= y < MAXFILE /\ 0 <= z < MAXFILE) as [Ry Rz]
      by (pose proof (ho_size _ _ _ H); fs_const; lia).
    rewrite !blk_s2 by done. destruct (Z.eqb_spec y fbn), (Z.eqb_spec z fbn); try congruence.
    + intros E. exfalso. apply (old_not_x z); [done | tauto | done | done].
    + intros E. exfalso. apply (old_not_x y); [done | tauto | done | done].
    + apply (ho_inj _ _ _ H); tauto.
  - intros bn Hb. rewrite <- Z.ltb_lt, append_ltb, orb_true_iff, Z.eqb_eq, Z.ltb_lt by done. intros Hl.
    rewrite blk_s2 by (pose proof (ho_size _ _ _ H); fs_const; lia).
    destruct (Z.eqb_spec bn fbn); [done|]. apply old_not_ind; tauto.
  - intros bn Hb. rewrite <- Z.ltb_lt, append_ltb, orb_true_iff, Z.eqb_eq, Z.ltb_lt by done. intros Hl.
    rewrite blk_s2 by (pose proof (ho_size _ _ _ H); fs_const; lia). destruct (Z.eqb_spec bn fbn) as [->|N].
    + unfold s2. rewrite img_stored_same, (go_img _ _ _ _ _ _ G). symmetry. by apply fit_app_last.
    + destruct Hl as [?|Hl]; [done|]. pose proof (ho_blk _ _ _ H bn ltac:(pose proof (ho_size _ _ _ H); fs_const; lia)) as B.
      rewrite (proj2 (Z.ltb_lt _ _) Hl) in B. rewrite img_s2_old; [|by apply old_not_ind|by apply old_not_x|lia].
      rewrite fit_app_full, (ho_data _ _ _ H) by (done || unfold fbn in *; fs_const; word_lia). done.
Qed.

(** The file keeps its blocks and gets the new ones. *)
Lemma x_owned : x < freeblock s -> owns (view (img s)) ad x.
Proof.
  intros Hlt. pose proof (go_old _ _ _ _ _ _ G) as Ho. pose proof (go_x _ _ _ _ _ _ G) as [Hx _].
  change nmeta with 59 in Hx. split; [lia|]. right. exists fbn. split; [by apply fbn_range|].
  unfold fbn. destruct (_ =? 0); [lia | done].
Qed.

Lemma append_owned n : owns (view (img s2)) ad1 n -> owns (view (img s)) ad n \/ freeblock s <= n < freeblock s2.
Proof.
  pose proof (go_ind _ _ _ _ _ _ G) as HI. fold fbn in HI. pose proof (go_x _ _ _ _ _ _ G) as [Hx _].
  intros [Hn0 [->|(bn & Hb & <-)]].
  - destruct (go_new _ _ _ _ _ _ G) as [E|[E0 E]]; [left | right].
    + split; [done|]. by left.
    + rewrite freeblock_s2. destruct (fbn <? NDIRECT); lia.
  - rewrite blk_s2 by done. rewrite blk_s2 in Hn0 by done. destruct (Z.eqb_spec bn fbn) as [Eb|N].
    + destruct (decide (x < freeblock s)); [left; by apply x_owned | right; rewrite freeblock_s2; lia].
    + left. split; [done|]. right. by exists bn.
Qed.

Lemma append_owns n : owns (view (img s)) ad n \/ freeblock s <= n < freeblock s2 -> owns (view (img s2)) ad1 n.
Proof.
  pose proof (fbn_range l Hoff) as Hr. fold fbn in Hr. pose proof (ok_free _ OK). change nmeta with 59 in *.
  pose proof (go_x _ _ _ _ _ _ G) as [Hx Hxi]. pose proof (go_old _ _ _ _ _ _ G) as Ho. change nmeta with 59 in *.
  assert (owns (view (img s2)) ad1 x) as Hox.
  { split; [lia|]. right. exists fbn. split; [done|]. by rewrite blk_s2, Z.eqb_refl. }
  intros [[Hn0 [->|(bn & Hb & <-)]]|Hn].
  - split; [done|]. left. by destruct (go_new _ _ _ _ _ _ G) as [->|[? _]].
  - destruct (Z.eqb_spec bn fbn) as [Eb|N].
    + pose proof (fresh_blk s ad l H Hoff) as Hfr. fold fbn in Hfr, Ho. rewrite Eb in Hn0 |- *.
      destruct (Z.eqb_spec (len l mod BSIZE) 0) as [E|E]; [by rewrite Hfr in Hn0|]. by rewrite <- Ho.
    + split; [done|]. right. exists bn. rewrite blk_s2 by done. by rewrite (proj2 (Z.eqb_neq _ _) N).
  - rewrite freeblock_s2 in Hn. pose proof (go_free _ _ _ _ _ _ G) as HF. fold fbn in HF, Ho.
    destruct (Z.eqb_spec (len l mod BSIZE) 0) as [E|E]; [|lia].
    destruct (decide (n = x)) as [->|Nx]; [done|].
    destruct (Z.eqb_spec fbn NDIRECT) as [Ed|Ed]; [|lia].
    pose proof (go_ind _ _ _ _ _ _ G) as HI. fold fbn in HI. rewrite Ed in HI. cbn in HI. change nmeta with 59 in HI.
    pose proof (ho_ind _ _ _ H) as HI0. assert (len l = NDIRECT * BSIZE) as El.
    { assert (len l = BSIZE * fbn + len l mod BSIZE) as E' by (apply Z.div_mod; done). fs_const. lia. }
    rewrite El, Z.ltb_irrefl in HI0. split; [lia|]. left. destruct (go_new _ _ _ _ _ _ G); lia.
Qed.

Lemma append_frame : frame s ad s2 ad1.
Proof.
  pose proof (fbn_range l Hoff) as Hr. fold fbn in Hr. pose proof (go_x _ _ _ _ _ _ G) as [Hx Hxi].
  pose proof (go_old _ _ _ _ _ _ G) as Ho. pose proof (fbn_inside l) as Hin. fold fbn in Hin, Ho.
  pose proof (go_ind _ _ _ _ _ _ G) as HI. fold fbn in HI. pose proof (ok_free _ OK). change nmeta with 59 in *.
  pose proof x_owned as Hox.
  assert (ind ad1 < freeblock s -> ind ad1 <> 0 -> owns (view (img s)) ad (ind ad1)) as Hoi.
  { intros Hlt Hz. split; [done|]. left. destruct (go_new _ _ _ _ _ _ G); [done | lia]. }
  split.
  - rewrite freeblock_s2, (go_free _ _ _ _ _ _ G). destruct (_ =? 0); [|lia]. destruct (_ =? NDIRECT); lia.
  - intros n Hn Hno. destruct (decide (n = x)) as [->|Nx]; [by destruct Hno; apply Hox|].
    destruct (decide (n = ind ad1)) as [->|Ni]; [|by apply img_s2_old].
    destruct (decide (ind ad1 = 0)) as [E|E]; [|by destruct Hno; apply Hoi]. unfold s2. rewrite img_stored_other by done.
    apply (go_same _ _ _ _ _ _ G); [right; rewrite E; done | lia].
  - intros n. split; [apply append_owned | apply append_owns].
  - apply G.
Qed.
End append.

(** One turn of the loop. *)
Lemma append_turn s ad l src cx :
  mk_ok s -> holds s ad l -> len l < MAXFILE * BSIZE -> 0 < len src -> len l mod BSIZE + len src <= BSIZE ->
  freeblock s + blocks_for (len l + len src) - blocks_for (len l) <= FSSIZE ->
  exists s1 ad1 x,
    file_block ad (len l / BSIZE) cx s = Ret (x, ad1) cx s1 /\ got s ad l s1 ad1 x /\
    let s2 := stored_at x (splice (Z.to_nat (len l mod BSIZE)) src (img s1 x)) s1 in
    mk_ok s2 /\ holds s2 ad1 (l ++ src) /\ frame s ad s2 ad1 /\
    freeblock s2 = freeblock s + blocks_for (len l + len src) - blocks_for (len l).
Proof.
  intros OK H Hoff Hs Hb Hf. destruct (file_block_runs s ad l cx (len src)) as (s1 & ad1 & x & R & G); try done.
  exists s1, ad1, x. split_and!; [done..|]. cbn zeta. split_and!.
  - by eapply append_ok.
  - by eapply append_holds.
  - by eapply append_frame.
  - rewrite freeblock_s2, (go_free _ _ _ _ _ _ G), blocks_for_step by lia. lia.
Qed.

Lemma frame_refl s ad : frame s ad s ad.
Proof. split; [done | done | | done]. intros n. split; [by left | intros [?|?]; [done | lia]]. Qed.

Lemma frame_trans s ad s1 ad1 s2 ad2 : frame s ad s1 ad1 -> frame s1 ad1 s2 ad2 -> frame s ad s2 ad2.
Proof.
  intros [F1 S1 O1 I1] [F2 S2 O2 I2]. split; [lia|..|congruence].
  - intros n Hn Hno. rewrite S2, S1; [done..|lia|]. intros [?|?]%O1; [done | lia].
  - intros n. rewrite O2, O1. split; [intros [[?|?]|?]; [by left|right; lia..]|].
    intros [?|?]; [by left; left|]. destruct (decide (n < freeblock s1)); [left; right | right]; lia.
Qed.

(** What appending [p] to a file does. *)
Record appended (s : mk) (ad l p : list Z) (s' : mk) (ad' : list Z) : Prop := {
  ap_ok : mk_ok s';
  ap_holds : holds s' ad' (l ++ p);
  ap_frame : frame s ad s' ad';
  ap_free : freeblock s' = freeblock s + blocks_for (len l + len p) - blocks_for (len l) }.

Lemma appended_nil s ad l : mk_ok s -> holds s ad l -> appended s ad l [] s ad.
Proof.
  intros OK H. split; rewrite ?app_nil_r; [done | done | apply frame_refl|].
  change (len []) with 0. rewrite Z.add_0_r. lia.
Qed.

Lemma iappend_loop_runs fuel p s ad l cx :
  (length p <= fuel)%nat -> mk_ok s -> holds s ad l -> len l + len p <= MAXFILE * BSIZE ->
  freeblock s + blocks_for (len l + len p) - blocks_for (len l) <= FSSIZE ->
  exists s' ad', iappend_loop fuel p (len l) ad cx s = Ret (len (l ++ p), ad') cx s' /\ appended s ad l p s' ad'.
Proof.
  revert p s ad l. induction fuel as [|fuel IH]; intros p s ad l Hp OK H Hsz Hf.
  { destruct p; [|cbn in Hp; lia]. exists s, ad. rewrite app_nil_r. split; [done|]. by apply appended_nil. }
  destruct (decide (p = [])) as [->|Hne].
  { exists s, ad. rewrite app_nil_r. split; [done|]. by apply appended_nil. }
  assert (0 < len p) as Hp0 by (destruct p; [done|cbn; lia]).
  pose proof (Z.mod_pos_bound (len l) BSIZE ltac:(done)) as Hm.
  assert (len l = BSIZE * (len l / BSIZE) + len l mod BSIZE) as E by (apply Z.div_mod; done).
  set (n1 := Z.min (len p) (BSIZE - len l mod BSIZE)).
  assert (0 < n1 <= len p) as Hn by (unfold n1; fs_const; lia).
  set (src := take (Z.to_nat n1) p).
  assert (len src = n1) as Hsrc by (unfold src; rewrite length_take; lia).
  assert (blocks_for (len l + n1) <= blocks_for (len l + len p)) as Hmono by (apply blocks_for_mono; lia).
  destruct (append_turn s ad l src cx) as (s1 & ad1 & x & R & G & OK2 & H2 & F2 & E2);
    rewrite ?Hsrc; [done | done | unfold n1 in *; fs_const; lia | lia | unfold n1; lia | lia |].
  set (s2 := stored_at x _ s1) in *. rewrite Hsrc in E2.
  assert (len (drop (Z.to_nat n1) p) = len p - n1) as Hdrop by (rewrite length_drop; lia).
  assert (len (l ++ src) = len l + n1) as Happ by (rewrite length_app; lia).
  destruct (IH (drop (Z.to_nat n1) p) s2 ad1 (l ++ src)) as (s' & ad' & R' & [OK' H' F' E']);
    [rewrite length_drop; lia | done | done | lia | |].
  { rewrite Happ, Hdrop. replace (len l + n1 + (len p - n1)) with (len l + len p) by lia. lia. }
  exists s', ad'. rewrite <- app_assoc in R', H'. unfold src in R', H' at 1. rewrite take_drop in R', H'. split.
  - destruct p as [|b p]; [done|]. cbn [iappend_loop].
    pose proof (go_ok _ _ _ _ _ _ G) as OK1. pose proof (go_x _ _ _ _ _ _ G) as [Hx _]. pose proof (ok_free _ OK1).
    change nmeta with 59 in *.
    rewrite (proj2 (Z.ltb_lt _ _)) by (fs_const; lia). cbn [negb].
    erewrite bind_Ret by exact R. cbn [fst snd].
    rewrite u32_small by (fs_const; lia).
    replace (Z.min (len (b :: p)) ((len l / BSIZE + 1) * BSIZE - len l)) with n1 by (unfold n1; fs_const; lia).
    erewrite bind_Ret by (apply rsect_runs; [apply OK1 | lia]).
    replace (len l - len l / BSIZE * BSIZE) with (len l mod BSIZE) by (fs_const; lia).
    erewrite bind_Ret by (apply wsect_runs; [apply OK1 | lia]). fold src. fold s2.
    rewrite u32_small by (fs_const; lia). rewrite <- Happ. exact R'.
  - split; [done | done | by eapply frame_trans|]. rewrite E', E2, Happ, Hdrop.
    replace (len l + n1 + (len p - n1)) with (len l + len p) by lia. lia.
Qed.

(** ** Inodes of the image *)

#[local] Abbreviation ino s n := (inode_of mk_sb (view (img s)) n).

(** The image with [x] written as inode [n]. *)
Definition inode_put (n : Z) (x : dinode) (s : mk) : mk :=
  stored_at (IBLOCK n mk_sb) (put_dinode (dinode_off n) x (img s (IBLOCK n mk_sb))) s.

Lemma mk_iblock n : 0 <= n < NINODES -> IBLOCK n mk_sb = 32 + n / 8 /\ 32 <= IBLOCK n mk_sb < 58.
Proof.
  intros Hn. unfold NINODES in Hn. rewrite mk_sb_eq. unfold IBLOCK. cbn [sb_inodestart]. change IPB with 8.
  rewrite u32_small; word_lia.
Qed.

Section inodes.
Variables (s : mk) (n : Z).
Hypotheses (OK : mk_ok s) (Hn : 0 <= n < NINODES).

Lemma winode_runs x cx : winode n x cx s = Ret tt cx (inode_put n x s).
Proof.
  destruct (mk_iblock n Hn) as [_ Hb]. unfold winode, FSSIZE in *. cbn zeta.
  erewrite bind_Ret by (apply rsect_runs; [apply OK | unfold FSSIZE; lia]).
  apply wsect_runs; [apply OK | unfold FSSIZE; lia].
Qed.

Lemma rinode_runs cx : rinode n cx s = Ret (ino s n) cx s.
Proof.
  destruct (mk_iblock n Hn) as [_ Hb]. unfold rinode.
  erewrite bind_Ret by (apply rsect_runs; [apply OK | unfold FSSIZE; lia]). done.
Qed.

Lemma inode_put_ok x : mk_ok (inode_put n x s).
Proof.
  destruct (mk_iblock n Hn) as [_ Hb]. pose proof (ok_free _ OK). change nmeta with 59 in *.
  apply stored_ok; [done | lia|]. rewrite length_put_dinode. apply (ok_length _ OK). unfold FSSIZE. lia.
Qed.

Lemma inode_put_same x : dinode_ok x -> ino (inode_put n x s) n = x.
Proof.
  intros Hx. destruct (mk_iblock n Hn) as [_ Hb]. unfold inode_of. cbn [tseen view]. unfold inode_put.
  rewrite img_stored_same. apply dinode_roundtrip; [done|]. rewrite (ok_length _ OK) by (unfold FSSIZE; lia).
  apply dinode_off_range.
Qed.

Lemma inode_put_other x m : 0 <= m < NINODES -> m <> n -> length (di_addrs x) = 13%nat ->
  ino (inode_put n x s) m = ino s m.
Proof.
  intros Hm N Hx. destruct (mk_iblock n Hn) as [E1 _], (mk_iblock m Hm) as [E2 _].
  unfold inode_of. cbn [tseen view]. unfold inode_put.
  destruct (decide (IBLOCK m mk_sb = IBLOCK n mk_sb)) as [E|E]; [|by rewrite img_stored_other].
  rewrite E, img_stored_same. apply dinode_frame; [|done].
  unfold dinode_off, sizeof_dinode. change IPB with 8. rewrite E1, E2 in E. word_lia.
Qed.

Lemma inode_put_img x b : b < 32 \/ 58 <= b -> img (inode_put n x s) b = img s b.
Proof. intros Hb. destruct (mk_iblock n Hn) as [_ Hr]. unfold inode_put. apply img_stored_other. lia. Qed.
End inodes.

(** Inodes are below the blocks of files. *)
Lemma ino_same s s' n :
  0 <= n < NINODES -> (forall b, b < nmeta -> img s' b = img s b) -> ino s' n = ino s n.
Proof.
  intros Hn E. destruct (mk_iblock n Hn) as [_ Hb]. unfold inode_of. cbn [tseen view].
  by rewrite E by (change nmeta with 59; lia).
Qed.

(** ** Files that are left alone *)

Section keep.
Variables (s s' : mk) (ad l : list Z).
Hypotheses (H : holds s ad l) (Hf : freeblock s <= freeblock s').
Hypothesis (Hk : forall n, owns (view (img s)) ad n -> img s' n = img s n).

Lemma keep_blk bn : blk (view (img s')) ad bn = blk (view (img s)) ad bn.
Proof.
  unfold blk. destruct (_ <? _); [done|]. destruct (Z.eqb_spec (ind ad) 0); [done|]. cbn [tseen view].
  rewrite Hk; [done|]. split; [done|]. by left.
Qed.

Lemma keep_owns n : owns (view (img s')) ad n <-> owns (view (img s)) ad n.
Proof. unfold owns. by setoid_rewrite keep_blk. Qed.

Lemma keep_holds : holds s' ad l.
Proof.
  destruct H as [H1 H2 H3 H4 H5 H6 H7]. split; try done.
  - destruct (_ <? _); [lia | done].
  - intros bn Hb. rewrite keep_blk. specialize (H4 bn Hb). destruct (bn * BSIZE <? len l); [lia | done].
  - intros y z. rewrite !keep_blk. apply H5.
  - intros bn. rewrite keep_blk. apply H6.
  - intros bn Hb Hl. assert (0 <= bn < MAXFILE) as Hr by (clear - Hb Hl H2; fs_const; lia).
    rewrite keep_blk, Hk, H7; [done..|].
    specialize (H4 bn Hr). rewrite (proj2 (Z.ltb_lt _ _) Hl) in H4. change nmeta with 59 in H4.
    split; [lia|]. right. by exists bn.
Qed.
End keep.

(** The blocks of a file are data blocks below [freeblock]. *)
Lemma holds_owns s ad l n : holds s ad l -> owns (view (img s)) ad n -> nmeta <= n < freeblock s.
Proof.
  intros H [H0 [->|(bn & Hb & <-)]].
  - pose proof (ho_ind _ _ _ H) as E. by destruct (_ <? _).
  - pose proof (ho_blk _ _ _ H bn Hb) as E. by destruct (_ <? _).
Qed.

Lemma holds_addrs s ad l : mk_ok s -> holds s ad l -> Forall (fun a => 0 <= a < 2 ^ 32) ad.
Proof.
  intros OK H. apply Forall_lookup. intros i a Ha. pose proof (lookup_lt_Some _ _ _ Ha) as Hi.
  rewrite (ho_len _ _ _ H) in Hi.
  assert (addr_at ad (Z.of_nat i) = a) as Ea by (unfold addr_at; by rewrite Nat2Z.id, Ha).
  destruct (decide (i = 12%nat)) as [->|N].
  - pose proof (ind_range s ad l OK H) as Hr. unfold ind in Hr. change NDIRECT with (Z.of_nat 12) in Hr.
    rewrite Ea in Hr. unfold FSSIZE in Hr. lia.
  - pose proof (holds_range s ad l OK H (Z.of_nat i) ltac:(fs_const; lia)) as Hr. unfold blk in Hr.
    rewrite (proj2 (Z.ltb_lt _ _)), Ea in Hr by (fs_const; lia). unfold FSSIZE in Hr. lia.
Qed.

(** ** The file system being built *)

(** The blocks of all files. *)
Definition total (fs : list (Z * list Z)) : Z := foldr (fun f a => blocks_for (len (snd f)) + a) 0 fs.

(** [s] holds the files [fs]: inode [i + 1] has the type and the bytes of file
    [i], every block from [nmeta] to [freeblock] belongs to exactly one file. *)
Record image (s : mk) (fs : list (Z * list Z)) : Prop := {
  im_ok : mk_ok s;
  im_next : freeinode s = len fs + 1;
  im_few : len fs < NINODES;
  im_inode i t l : fs !! i = Some (t, l) ->
    ino s (Z.of_nat i + 1) = Dinode t 0 0 1 (len l) (di_addrs (ino s (Z.of_nat i + 1))) /\ 0 <= t < 2 ^ 15;
  im_holds i t l : fs !! i = Some (t, l) -> holds s (di_addrs (ino s (Z.of_nat i + 1))) l;
  im_apart i j n : (i < length fs)%nat -> (j < length fs)%nat ->
    owns (view (img s)) (di_addrs (ino s (Z.of_nat i + 1))) n ->
    owns (view (img s)) (di_addrs (ino s (Z.of_nat j + 1))) n -> i = j;
  im_cover n : nmeta <= n < freeblock s ->
    exists i, (i < length fs)%nat /\ owns (view (img s)) (di_addrs (ino s (Z.of_nat i + 1))) n;
  im_count : freeblock s = nmeta + total fs;
  im_unused n : len fs < n < NINODES -> ino s n = Dinode 0 0 0 0 0 (replicate 13 0);
  im_super : img s 1 = sb_bytes mk_sb;
  im_log : img s 2 = zeroes }.

Lemma blocks_for_nonneg n : 0 <= n -> 0 <= blocks_for n.
Proof.
  intros Hn. change 0 with (blocks_for 0). apply blocks_for_mono. lia.
Qed.

Lemma total_cons f fs : total (f :: fs) = blocks_for (len (snd f)) + total fs.
Proof. done. Qed.

Lemma total_nonneg fs : 0 <= total fs.
Proof.
  induction fs as [|f fs IH]; [done|]. rewrite total_cons. pose proof (blocks_for_nonneg (len (snd f)) ltac:(lia)). lia.
Qed.

Lemma total_app fs1 fs2 : total (fs1 ++ fs2) = total fs1 + total fs2.
Proof. induction fs1 as [|f fs IH]; [done|]. cbn [app]. rewrite !total_cons. lia. Qed.

Lemma total_insert fs i t l t' l' : fs !! i = Some (t, l) ->
  total (<[i := (t', l')]> fs) = total fs + blocks_for (len l') - blocks_for (len l).
Proof.
  revert i. induction fs as [|f fs IH]; intros [|i] Hi; try done; cbn in Hi.
  - injection Hi as ->. cbn [insert list_insert]. rewrite !total_cons. cbn [snd]. lia.
  - change (<[S i := (t', l')]> (f :: fs)) with (f :: <[i := (t', l')]> fs). rewrite !total_cons, (IH i Hi). lia.
Qed.

Lemma empty_holds s : holds s (replicate 13 0) [].
Proof.
  assert (forall bn, 0 <= bn < MAXFILE -> blk (view (img s)) (replicate 13 0) bn = 0) as E.
  { intros bn Hb. unfold blk. change (ind (replicate 13 0)) with 0.
    destruct (Z.ltb_spec bn NDIRECT); [|done]. unfold addr_at. rewrite lookup_replicate_2 by (fs_const; lia). done. }
  split; try done.
  all: change (len []) with 0.
  - intros bn Hb. rewrite E by done. by destruct (Z.ltb_spec (bn * BSIZE) 0); [fs_const; lia|].
  - intros x y ?? Hx. fs_const. lia.
  - intros bn Hb Hl. fs_const. lia.
  - intros bn Hb Hl. fs_const. lia.
Qed.

Lemma empty_owns s n : ~ owns (view (img s)) (replicate 13 0) n.
Proof.
  intros [H0 Ho]. pose proof (empty_holds s) as H. destruct Ho as [->|(bn & Hb & <-)]; [done|].
  apply H0. pose proof (ho_blk _ _ _ H bn Hb) as E.
  change (len []) with 0 in E. destruct (Z.ltb_spec (bn * BSIZE) 0); [fs_const; lia | done].
Qed.

(** One file changes: it gets new blocks, the others are left alone. *)
Section change.
Variables (s s' : mk) (fs fs' : list (Z * list Z)) (i : nat) (t : Z) (l : list Z).
#[local] Abbreviation addrs s j := (di_addrs (ino s (Z.of_nat j + 1))).
Hypotheses (I : image s fs) (Hi : (i <= length fs)%nat) (Hlen : length fs' = Nat.max (length fs) (i + 1)).
Hypotheses (Hfs : fs' !! i = Some (t, l)) (Hother : forall j, j <> i -> fs' !! j = fs !! j).
Hypotheses (Hfew : len fs' < NINODES) (Ht : 0 <= t < 2 ^ 15) (OK' : mk_ok s') (Hnext : freeinode s' = len fs' + 1).
Hypothesis (Hino : ino s' (Z.of_nat i + 1) = Dinode t 0 0 1 (len l) (addrs s' i)).
Hypothesis (Hinos : forall n, 0 <= n < NINODES -> n <> Z.of_nat i + 1 -> ino s' n = ino s n).
Hypothesis (Hkeep : forall n, nmeta <= n < freeblock s -> ~ owns (view (img s)) (addrs s i) n -> img s' n = img s n).
Hypotheses (Hmeta : img s' 1 = img s 1) (Hlog : img s' 2 = img s 2) (Hfree : freeblock s <= freeblock s').
Hypothesis (Howns : forall n, owns (view (img s')) (addrs s' i) n <->
  owns (view (img s)) (addrs s i) n \/ freeblock s <= n < freeblock s').
Hypotheses (Hholds : holds s' (addrs s' i) l) (Htotal : total fs' - total fs = freeblock s' - freeblock s).

Lemma other_lt j : j <> i -> (j < length fs')%nat -> (j < length fs)%nat.
Proof. lia. Qed.

Lemma other_addrs j : j <> i -> (j < length fs)%nat -> addrs s' j = addrs s j.
Proof. intros N Hj. pose proof (im_few _ _ I). by rewrite Hinos by lia. Qed.

Lemma old_holds j : (j < length fs)%nat -> exists l, holds s (addrs s j) l.
Proof. intros [[t0 l0] Hj]%lookup_lt_is_Some_2. exists l0. by eapply im_holds. Qed.

Lemma other_apart j n : j <> i -> (j < length fs)%nat ->
  owns (view (img s)) (addrs s j) n -> ~ owns (view (img s)) (addrs s i) n.
Proof.
  intros N Hj Ho Hoi. destruct (decide (i < length fs)%nat) as [Hl|Hl]; [by apply N, (im_apart _ _ I j i n)|].
  rewrite (im_unused _ _ I) in Hoi by lia. by apply empty_owns in Hoi.
Qed.

Lemma other_kept j n : j <> i -> (j < length fs)%nat -> owns (view (img s)) (addrs s j) n -> img s' n = img s n.
Proof.
  intros N Hj Ho. destruct (old_holds j Hj) as [l0 H0].
  apply Hkeep; [by eapply holds_owns | by eapply other_apart].
Qed.

Lemma other_owns j n : j <> i -> (j < length fs)%nat ->
  owns (view (img s')) (addrs s' j) n <-> owns (view (img s)) (addrs s j) n.
Proof. intros N Hj. rewrite other_addrs by done. apply keep_owns. intros m. by apply other_kept. Qed.

(** A block of the changed file is not one of another file. *)
Lemma change_apart j n : j <> i -> (j < length fs')%nat ->
  owns (view (img s')) (addrs s' i) n -> owns (view (img s')) (addrs s' j) n -> False.
Proof.
  intros N Hj%other_lt Hi' Hj'; [|done]. rewrite other_owns in Hj' by done. apply Howns in Hi' as [Hi'|Hi'].
  - by eapply other_apart.
  - destruct (old_holds j Hj) as [l0 H0]. pose proof (holds_owns _ _ _ _ H0 Hj'). lia.
Qed.

Lemma image_change : image s' fs'.
Proof.
  pose proof (im_few _ _ I) as Hf0. split.
  - done.
  - done.
  - done.
  - intros j t0 l0 Hj. destruct (decide (j = i)) as [->|N]; [rewrite Hfs in Hj; by injection Hj as <- <-|].
    rewrite Hother in Hj by done. rewrite Hinos; [by apply (im_inode _ _ I)| |lia].
    apply lookup_lt_Some in Hj. lia.
  - intros j t0 l0 Hj. destruct (decide (j = i)) as [->|N]; [rewrite Hfs in Hj; by injection Hj as <- <-|].
    rewrite Hother in Hj by done. pose proof (lookup_lt_Some _ _ _ Hj). rewrite other_addrs by done.
    apply (keep_holds s); [by eapply im_holds | done|]. intros n. by apply other_kept.
  - intros j k n Hj Hk Oj Ok. destruct (decide (j = i)) as [->|Nj], (decide (k = i)) as [->|Nk]; [done|..].
    + by edestruct (change_apart k n).
    + by edestruct (change_apart j n).
    + apply other_lt in Hj; [|done]. apply other_lt in Hk; [|done].
      exact (im_apart _ _ I j k n Hj Hk (proj1 (other_owns j n Nj Hj) Oj) (proj1 (other_owns k n Nk Hk) Ok)).
  - intros n Hn. destruct (decide (n < freeblock s)) as [Hlt|Hge].
    + destruct (im_cover _ _ I n) as (j & Hj & Ho); [lia|]. destruct (decide (j = i)) as [->|N].
      * exists i. split; [lia|]. exact (proj2 (Howns n) (or_introl Ho)).
      * exists j. split; [lia|]. exact (proj2 (other_owns j n N Hj) Ho).
    + exists i. split; [lia|]. apply (proj2 (Howns n)). right. lia.
  - rewrite (im_count _ _ I) in *. lia.
  - intros n Hn. rewrite Hinos; [apply (im_unused _ _ I); lia | lia..].
  - by rewrite Hmeta, (im_super _ _ I).
  - by rewrite Hlog, (im_log _ _ I).
Qed.
End change.

(** A new inode. *)
Lemma mk_ialloc_image s fs t cx :
  image s fs -> len fs + 1 < NINODES -> 0 <= t < 2 ^ 15 ->
  exists s', mk_ialloc t cx s = Ret (len fs + 1) cx s' /\ image s' (fs ++ [(t, [])]).
Proof.
  intros I Hfew Ht. pose proof (im_ok _ _ I) as OK. pose proof (im_next _ _ I) as Hnext.
  set (s0 := set_freeinode (len fs + 2) s).
  assert (mk_ok s0) as OK0 by (by destruct OK; split).
  set (n := len fs + 1) in *. assert (0 <= n < NINODES) as Hn by (unfold n; lia).
  set (x := Dinode t 0 0 1 0 (replicate 13 0)).
  assert (dinode_ok x) as Hx.
  { unfold dinode_ok, x. cbn [di_type di_major di_minor di_nlink di_size di_addrs].
    split_and!; try lia; [done|]. by repeat constructor. }
  exists (inode_put n x s0). split.
  - unfold mk_ialloc. mrun. rewrite Hnext. unfold NINODES in Hfew. rewrite u32_small by (unfold n; lia).
    replace (n + 1) with (len fs + 2) by (unfold n; lia). fold s0.
    rewrite xshort_small by lia. change (xshort 1) with 1. change (xint 0) with 0. fold x.
    erewrite bind_Ret by (by apply winode_runs). done.
  - assert (forall m, 0 <= m < NINODES -> m <> n -> ino (inode_put n x s0) m = ino s m) as Eo.
    { intros m Hm N. by rewrite (inode_put_other s0 n Hn x m). }
    assert (ino (inode_put n x s0) n = x) as Es by (by apply inode_put_same).
    assert (Z.of_nat (length fs) + 1 = n) as En by done.
    assert (len (fs ++ [(t, [] : list Z)]) = n) as El by (rewrite length_app; cbn [length]; unfold n; lia).
    apply (image_change s _ fs _ (length fs) t []); rewrite ?El, ?En, ?Es; try done.
    + rewrite length_app. cbn [length]. lia.
    + by apply list_lookup_middle.
    + intros j N. destruct (decide (j < length fs)%nat); [by rewrite lookup_app_l|].
      rewrite !lookup_ge_None_2; [done| |]; rewrite ?length_app; cbn [length]; lia.
    + by apply inode_put_ok.
    + unfold n. cbn. lia.
    + intros m Hm _. change nmeta with 59 in Hm. apply (inode_put_img s0 n Hn). lia.
    + apply (inode_put_img s0 n Hn). lia.
    + apply (inode_put_img s0 n Hn). lia.
    + intros m. rewrite (im_unused _ _ I) by (unfold n; lia). cbn [di_addrs x freeblock inode_put stored_at set_img].
      split; [intros []%empty_owns|]. intros [[]%empty_owns|Hm]. unfold s0 in Hm. cbn in Hm. lia.
    + apply empty_holds.
    + rewrite total_app. change (total [(t, [])]) with 0. cbn. lia.
Qed.

(** Bytes added to a file. *)
Lemma iappend_image s fs i t l p cx :
  image s fs -> fs !! i = Some (t, l) -> len l + len p <= MAXFILE * BSIZE ->
  nmeta + total (<[i := (t, l ++ p)]> fs) <= FSSIZE ->
  exists s', iappend (Z.of_nat i + 1) p cx s = Ret tt cx s' /\ image s' (<[i := (t, l ++ p)]> fs).
Proof.
  intros I Hi Hsz Htot. pose proof (im_ok _ _ I) as OK. pose proof (im_few _ _ I) as Hfew.
  pose proof (lookup_lt_Some _ _ _ Hi) as Hlt. set (n := Z.of_nat i + 1).
  assert (0 <= n < NINODES) as Hn by (unfold n; lia).
  destruct (im_inode _ _ I i t l Hi) as [Eino Ht]. pose proof (im_holds _ _ I i t l Hi) as H. fold n in Eino, H.
  set (ad := di_addrs (ino s n)) in *.
  rewrite (total_insert fs i t l) in Htot by done. rewrite length_app, Nat2Z.inj_add in Htot.
  destruct (iappend_loop_runs (length p) p s ad l cx) as (s1 & ad1 & R & A); [done | done | done | done | |].
  { rewrite (im_count _ _ I). lia. }
  destruct A as [OK1 H1 F1 E1]. set (x := Dinode t 0 0 1 (len (l ++ p)) ad1).
  assert (len (l ++ p) <= MAXFILE * BSIZE) as Hsz1 by (rewrite length_app; lia).
  assert (dinode_ok x) as Hx.
  { unfold dinode_ok, x. cbn [di_type di_major di_minor di_nlink di_size di_addrs]. fs_const.
    split_and!; try lia; [apply H1 | by eapply holds_addrs]. }
  assert (forall b, b < nmeta -> img s1 b = img s b) as Emeta.
  { intros b Hb. apply (fr_same _ _ _ _ F1).
    - pose proof (ok_free _ OK). lia.
    - intros Ho. pose proof (holds_owns _ _ _ _ H Ho). lia. }
  assert (forall b, b < 32 \/ 58 <= b -> img (inode_put n x s1) b = img s1 b) as Eput
    by (intros b Hb; by apply (inode_put_img s1 n Hn)).
  assert (forall m, owns (view (img s1)) ad1 m -> img (inode_put n x s1) m = img s1 m) as Eown.
  { intros m Ho. pose proof (holds_owns _ _ _ _ H1 Ho) as Hm. change nmeta with 59 in Hm. apply Eput. lia. }
  assert (ino (inode_put n x s1) n = x) as Es by (by apply inode_put_same).
  exists (inode_put n x s1). split.
  - unfold iappend. erewrite bind_Ret by (by apply rinode_runs). rewrite Eino.
    cbn [di_size di_addrs di_type di_major di_minor di_nlink]. rewrite xint_small by (fs_const; lia).
    erewrite bind_Ret by exact R. cbn [fst snd]. rewrite xint_small by (fs_const; lia). by apply winode_runs.
  - apply (image_change s _ fs _ i t (l ++ p)); fold n; rewrite ?Es, ?length_insert; try done.
    + lia.
    + lia.
    + by apply list_lookup_insert_eq.
    + intros j N. by rewrite list_lookup_insert_ne.
    + by apply inode_put_ok.
    + cbn. rewrite (fr_inode _ _ _ _ F1). apply I.
    + intros m Hm N. rewrite (inode_put_other s1 n Hn x m) by (done || apply H1). by apply ino_same.
    + intros m Hm Hno. rewrite Eput by (change nmeta with 59 in Hm; lia). apply (fr_same _ _ _ _ F1); [lia | done].
    + rewrite Eput by lia. by apply Emeta.
    + rewrite Eput by lia. by apply Emeta.
    + apply F1.
    + intros m. rewrite (keep_owns s1) by done. apply F1.
    + apply (keep_holds s1); [done | done|]. intros m. apply Eown.
    + rewrite (total_insert fs i t l) by done. rewrite length_app, Nat2Z.inj_add. cbn [freeblock inode_put stored_at set_img]. lia.
Qed.

(** The bytes of a file, as [readi] reads them. *)
Lemma holds_fbyte s ad l k : holds s ad l -> 0 <= k < MAXFILE * BSIZE ->
  fbyte (view (img s)) ad k = byte l (Z.to_nat k).
Proof.
  intros H Hk. unfold fbyte. pose proof (Z.mod_pos_bound k BSIZE ltac:(done)) as Hm.
  assert (k = BSIZE * (k / BSIZE) + k mod BSIZE) as E by (apply Z.div_mod; done).
  assert (0 <= k / BSIZE < MAXFILE) as Hb by (fs_const; word_lia).
  pose proof (ho_blk _ _ _ H _ Hb) as B. destruct (Z.ltb_spec (k / BSIZE * BSIZE) (len l)) as [Hl|Hl].
  - change nmeta with 59 in B. rewrite (proj2 (Z.eqb_neq _ _)) by lia. cbn [tseen view].
    rewrite (ho_data _ _ _ H) by lia. unfold byte at 1. rewrite fit_lookup by (fs_const; lia). cbn.
    f_equal. fs_const. lia.
  - rewrite B, Z.eqb_refl. unfold byte. rewrite lookup_ge_None_2; [done|]. fs_const. lia.
Qed.

Lemma fmap_byte (l : list Z) : (fun k => byte l (Z.to_nat k)) <$> seqZ 0 (len l) = l.
Proof.
  apply list_eq. intros i. rewrite list_lookup_fmap. destruct (decide (i < length l)%nat) as [Hi|Hi].
  - rewrite lookup_seqZ_lt by lia. cbn [fmap option_fmap option_map]. unfold byte.
    destruct (lookup_lt_is_Some_2 l i Hi) as [x Hx]. by rewrite Z.add_0_l, Nat2Z.id, Hx.
  - by rewrite lookup_seqZ_ge, lookup_ge_None_2 by lia.
Qed.

(** The content of a file of size [n], zeros after the bytes stored. *)
Lemma holds_content s ad l k : holds s ad l -> len l + Z.of_nat k <= MAXFILE * BSIZE ->
  content (view (img s)) ad (len l + Z.of_nat k) = l ++ replicate k 0.
Proof.
  intros H Hk. rewrite <- (fmap_byte (l ++ replicate k 0)). unfold content.
  rewrite length_app, length_replicate, Nat2Z.inj_add. apply list_fmap_ext. intros i x Hx%lookup_seqZ.
  rewrite (holds_fbyte s ad l) by (done || lia). rewrite byte_app. destruct (decide _); [done|].
  unfold byte. rewrite lookup_ge_None_2 by lia. rewrite lookup_replicate_2 by lia. done.
Qed.

Lemma append_all_image chunks : forall s fs i t l cx,
  image s fs -> fs !! i = Some (t, l) -> len l + len (concat chunks) <= MAXFILE * BSIZE ->
  nmeta + total (<[i := (t, l ++ concat chunks)]> fs) <= FSSIZE ->
  exists s', append_all (Z.of_nat i + 1) chunks cx s = Ret tt cx s' /\
    image s' (<[i := (t, l ++ concat chunks)]> fs).
Proof.
  induction chunks as [|c chunks IH]; intros s fs i t l cx I Hi Hsz Htot; cbn [concat].
  { exists s. rewrite app_nil_r, list_insert_id by done. done. }
  pose proof (lookup_lt_Some _ _ _ Hi) as Hlt. cbn [concat] in Hsz, Htot. rewrite length_app, Nat2Z.inj_add in Hsz.
  rewrite (total_insert fs i t l) in Htot by done. rewrite !length_app, !Nat2Z.inj_add in Htot.
  destruct (iappend_image s fs i t l c cx) as (s1 & R1 & I1); [done | done | lia | |].
  { rewrite (total_insert fs i t l) by done. rewrite length_app, Nat2Z.inj_add.
    pose proof (blocks_for_mono (len l + len c) (len l + (len c + len (concat chunks))) ltac:(lia)). lia. }
  destruct (IH s1 _ i t (l ++ c) cx I1) as (s2 & R2 & I2).
  - by apply list_lookup_insert_eq.
  - rewrite length_app. lia.
  - rewrite list_insert_insert_eq, (total_insert fs i t l) by done. rewrite !length_app, !Nat2Z.inj_add.
    rewrite <- Z.add_assoc. lia.
  - exists s2. cbn [append_all]. erewrite bind_Ret by exact R1. split; [exact R2|].
    by rewrite list_insert_insert_eq, <- app_assoc in I2.
Qed.

(** ** The files of the command line *)

(** The directory entries of the files, the first with inode [n]. *)
Fixpoint entries (n : Z) (files : list (list Z * list (list Z))) : list Z :=
  match files with
  | [] => []
  | f :: files' => dirent_bytes n (skip_underscore (fst f)) ++ entries (n + 1) files'
  end.

(** What becomes of a file of the host. *)
Definition as_file (f : list Z * list (list Z)) : Z * list Z := (T_FILE, concat (snd f)).

(** A file [mkfs] takes. *)
Definition host_file (f : list Z * list (list Z)) : Prop :=
  (slash ∉ fst f) /\ len (concat (snd f)) <= MAXFILE * BSIZE.

Lemma length_entries files n : length (entries n files) = (16 * length files)%nat.
Proof.
  revert n. induction files as [|f files IH]; intros n; cbn [entries length]; [done|].
  rewrite length_app, length_dirent_bytes, IH. lia.
Qed.

Lemma insert_last {A} (fs : list A) x y : <[length fs := y]> (fs ++ [x]) = fs ++ [y].
Proof. by rewrite insert_app_r_alt, Nat.sub_diag. Qed.

Lemma add_files_image files : forall s r fs cx,
  image s ((T_DIR, r) :: fs) -> Forall host_file files ->
  len r + 16 * len files <= MAXFILE * BSIZE -> len fs + 1 + len files < NINODES ->
  nmeta + total ((T_DIR, r ++ entries (len fs + 2) files) :: fs ++ (as_file <$> files)) <= FSSIZE ->
  exists s', add_files files cx s = Ret tt cx s' /\
    image s' ((T_DIR, r ++ entries (len fs + 2) files) :: fs ++ (as_file <$> files)).
Proof.
  induction files as [|[name chunks] files IH]; intros s r fs cx I HF Hr Hfew Htot.
  { exists s. cbn [entries fmap list_fmap]. by rewrite !app_nil_r. }
  apply Forall_cons in HF as [[Hsl Hsz] HF]. cbn [fst snd length] in *.
  set (e := dirent_bytes (len fs + 2) (skip_underscore name)).
  assert (len e = 16) as He by (unfold e; rewrite length_dirent_bytes; done).
  cbn [entries fmap list_fmap fst] in Htot |- *. fold e in Htot |- *.
  pose proof (total_nonneg (as_file <$> files)) as Hrest.
  pose proof (blocks_for_nonneg (len (concat chunks)) ltac:(lia)) as Hdata.
  pose proof (blocks_for_mono (len (r ++ e)) (len (r ++ e ++ entries (len fs + 2 + 1) files))
    ltac:(rewrite !length_app; lia)) as Hdir.
  rewrite total_cons, total_app, total_cons in Htot. cbn [snd as_file] in Htot.
  destruct (mk_ialloc_image s _ T_FILE cx I) as (s1 & R1 & I1); [cbn [length]; lia | done|].
  cbn [app] in I1. cbn [length] in R1.
  destruct (iappend_image s1 _ 0 T_DIR r e cx I1) as (s2 & R2 & I2); [done | lia | |].
  { cbn [insert list_insert]. rewrite total_cons, total_app, total_cons. cbn [snd]. change (blocks_for (len [])) with 0.
    change (total []) with 0. lia. }
  cbn [insert list_insert] in I2.
  destruct (append_all_image chunks s2 _ (S (length fs)) T_FILE [] cx I2) as (s3 & R3 & I3).
  { cbn. by apply list_lookup_middle. }
  { cbn [length]. lia. }
  { rewrite (total_insert _ (S (length fs)) T_FILE []) by (cbn; by apply list_lookup_middle).
    rewrite total_cons, total_app, total_cons. cbn [snd app]. change (blocks_for (len [])) with 0.
    change (total []) with 0. lia. }
  replace (<[S (length fs) := (T_FILE, [] ++ concat chunks)]> ((T_DIR, r ++ e) :: fs ++ [(T_FILE, [])]))
    with ((T_DIR, r ++ e) :: fs ++ [(T_FILE, concat chunks)]) in I3
    by (symmetry; apply (insert_last (_ :: fs))).
  assert (len (fs ++ [(T_FILE, concat chunks)]) = len fs + 1) as El by (rewrite length_app; cbn [length]; lia).
  destruct (IH s3 (r ++ e) (fs ++ [(T_FILE, concat chunks)]) cx I3 HF) as (s4 & R4 & I4); rewrite ?El.
  { rewrite length_app. lia. }
  { lia. }
  { rewrite <- !app_assoc. cbn [app]. rewrite total_cons, total_app, total_cons. cbn [snd].
    replace (len fs + 1 + 2) with (len fs + 2 + 1) by lia. lia. }
  exists s4. split.
  - cbn [add_files]. rewrite decide_False by done. erewrite bind_Ret by exact R1.
    rewrite xshort_small by (unfold NINODES in *; lia).
    replace (Z.of_nat (S (length fs)) + 1) with (len fs + 2) in R3 |- * by lia. fold e.
    change ROOTINO with (Z.of_nat 0 + 1). erewrite bind_Ret by exact R2. erewrite bind_Ret by exact R3. exact R4.
  - rewrite El, <- !app_assoc in I4. cbn [app] in I4. replace (len fs + 1 + 2) with (len fs + 2 + 1) in I4 by lia. done.
Qed.

(** ** The empty file system *)

Lemma clear_sectors_runs k : forall i cx s, 0 <= i -> i + Z.of_nat k <= FSSIZE ->
  exists f, clear_sectors k i cx s =
    Ret tt cx (Mk f (if decide (k = 0%nat) then nsec s else Z.max (nsec s) (i + Z.of_nat k)) (freeinode s) (freeblock s)) /\
    forall n, f n = if decide (i <= n < i + Z.of_nat k) then zeroes else img s n.
Proof.
  induction k as [|k IH]; intros i cx s Hi Hk.
  { exists (img s). split; [by destruct s|]. intros n. by rewrite decide_False by lia. }
  set (s1 := Mk (<[i := zeroes]> (img s)) (Z.max (nsec s) (i + 1)) (freeinode s) (freeblock s)).
  destruct (IH (i + 1) cx s1) as (f & R & F); [lia..|]. exists f. split.
  - cbn [clear_sectors]. assert (wsect i zeroes cx s = Ret tt cx s1) as Ew.
    { unfold wsect. by rewrite (proj2 (Z.ltb_ge _ _)) by lia. }
    erewrite bind_Ret by exact Ew. rewrite R. do 2 f_equal. cbn [nsec s1].
    destruct (decide (k = 0%nat)); destruct (decide (S k = 0%nat)); lia.
  - intros n. rewrite F. cbn [img s1]. destruct (decide (n = i)) as [->|N].
    + rewrite decide_False, fn_lookup_insert, decide_True by lia. done.
    + rewrite fn_lookup_insert_ne by congruence.
      destruct (decide (i + 1 <= n < _)), (decide (i <= n < _)); done || lia.
Qed.

Lemma byte_zeroes k : byte zeroes k = 0.
Proof.
  unfold byte, zeroes. destruct (decide (k < Z.to_nat BSIZE)%nat); [by rewrite lookup_replicate_2|].
  by rewrite lookup_ge_None_2 by (rewrite length_replicate; lia).
Qed.

Lemma dinode_zeroes o : dinode_at o zeroes = Dinode 0 0 0 0 0 (replicate 13 0).
Proof.
  unfold dinode_at, get16, get32. change (Z.to_nat (NDIRECT + 1)) with 13%nat. cbn [seq fmap list_fmap].
  by rewrite !byte_zeroes.
Qed.

Lemma sb_bytes_superblock : superblock_of (sb_bytes mk_sb) = mk_sb.
Proof. rewrite mk_sb_eq. vm_compute. reflexivity. Qed.

(** The image after the superblock has been written. *)
Lemma empty_image s : mk_ok s -> freeinode s = 1 -> freeblock s = nmeta -> img s 1 = sb_bytes mk_sb ->
  (forall n, 2 <= n < nmeta -> img s n = zeroes) -> image s [].
Proof.
  intros OK Hi Hf H1 Hz. split; try done.
  - intros i j n Hn. cbn in Hn. lia.
  - intros n Hn. lia.
  - intros n Hn. cbn [length] in Hn. destruct (mk_iblock n ltac:(lia)) as [_ Hb]. unfold inode_of. cbn [tseen view].
    rewrite Hz by (change nmeta with 59; lia). apply dinode_zeroes.
  - by rewrite Hz.
Qed.

Lemma mk_clear_runs cx :
  exists s, (forall k : M mk unit, (modify (set_freeblock nmeta) ;; clear_sectors (Z.to_nat FSSIZE) 0 ;;
    wsect 1 (sb_bytes mk_sb) ;; k) cx mk_start = k cx s) /\ image s [].
Proof.
  destruct (clear_sectors_runs (Z.to_nat FSSIZE) 0 cx (set_freeblock nmeta mk_start)) as (f & R & F); [lia | done|].
  rewrite decide_False in R by done. change (Z.max _ _) with FSSIZE in R.
  eexists. split.
  - intros k. erewrite bind_Ret by reflexivity. erewrite bind_Ret by exact R.
    erewrite bind_Ret by (apply wsect_runs; [reflexivity | unfold FSSIZE; lia]). reflexivity.
  - assert (forall n, 0 <= n < FSSIZE -> n <> 1 -> img (stored_at 1 (sb_bytes mk_sb) (Mk f FSSIZE 1 nmeta)) n = zeroes) as Z.
    { intros n Hn N. rewrite img_stored_other by done. cbn [img]. rewrite F, decide_True; [done|].
      change (Z.of_nat (Z.to_nat FSSIZE)) with FSSIZE. lia. }
    apply empty_image; [|reflexivity..|].
    + split; [reflexivity | change (59 <= 59 <= 2000); lia|..].
      * intros n Hn. destruct (decide (n = 1)) as [->|N]; [|by rewrite Z].
        rewrite img_stored_same. unfold sb_bytes. by rewrite length_put_words.
      * intros n Hn. change (freeblock _) with 59 in Hn. apply Z; lia.
    + intros n Hn. change nmeta with 59 in Hn. apply Z; unfold FSSIZE; lia.
Qed.

(** The bitmap. *)
Lemma length_mark_first k d : length (mark_first k d) = length d.
Proof. induction k as [|k IH]; [done|]. cbn [mark_first]. by rewrite length_mark_bit. Qed.

Lemma mark_first_bit k n : (k <= 4096)%nat -> 0 <= n -> bit_set (mark_first k zeroes) n = (n <? Z.of_nat k).
Proof.
  intros Hk Hn. induction k as [|k IH].
  - rewrite (proj2 (Z.ltb_ge _ _)) by lia. cbn [mark_first]. unfold bit_set. by rewrite byte_zeroes.
  - cbn [mark_first]. rewrite bit_mark; [|rewrite length_mark_first; change (length zeroes) with 512%nat; lia|done].
    rewrite IH by lia. destruct (Z.eqb_spec (Z.of_nat k) n), (Z.ltb_spec n (Z.of_nat k)), (Z.ltb_spec n (Z.of_nat (S k))); cbn; done || lia.
Qed.

(** ** The image is a file system *)

(** The bytes of the root directory. *)
Definition root_bytes (files : list (list Z * list (list Z))) : list Z :=
  dirent_bytes ROOTINO [46] ++ dirent_bytes ROOTINO [46; 46] ++ entries 2 files.

(** The size [mkfs] gives the root directory. *)
Definition root_size (files : list (list Z * list (list Z))) : Z := (len (root_bytes files) / BSIZE + 1) * BSIZE.

(** What the kernel expects of the disk [f] with the files of the command line:
    the superblock, an empty log, the root directory, a regular file with the
    bytes of each file, no other inode in use, and a bitmap that marks the blocks
    before the data and the blocks of files, no block of two files. *)
Record filesystem (f : Z -> list Z) (files : list (list Z * list (list Z))) : Prop := {
  gi_super : superblock_of (f 1) = mk_sb;
  gi_log : f (sb_logstart mk_sb) = zeroes;
  gi_root : exists ad, let v := view f in
    inode_of mk_sb v ROOTINO = Dinode T_DIR 0 0 1 (root_size files) ad /\ mapped mk_sb v ad /\
    content v ad (root_size files) = root_bytes files ++ replicate (Z.to_nat (root_size files) - length (root_bytes files)) 0;
  gi_file i name chunks : files !! i = Some (name, chunks) -> exists ad, let v := view f in
    inode_of mk_sb v (Z.of_nat i + 2) = Dinode T_FILE 0 0 1 (len (concat chunks)) ad /\ mapped mk_sb v ad /\
    content v ad (len (concat chunks)) = concat chunks;
  gi_unused n : len files + 1 < n < NINODES -> di_type (inode_of mk_sb (view f) n) = 0;
  gi_used n : 0 <= n < FSSIZE -> used mk_sb (view f) n = true <->
    n < data_start mk_sb \/ exists i, 1 <= i <= len files + 1 /\ owns (view f) (di_addrs (inode_of mk_sb (view f) i)) n;
  gi_apart i j n : 1 <= i <= len files + 1 -> 1 <= j <= len files + 1 ->
    owns (view f) (di_addrs (inode_of mk_sb (view f) i)) n ->
    owns (view f) (di_addrs (inode_of mk_sb (view f) j)) n -> i = j }.

Lemma length_root_bytes files : len (root_bytes files) = 32 + 16 * len files.
Proof. unfold root_bytes. rewrite !length_app, !length_dirent_bytes, length_entries. lia. Qed.

(** The last steps of [main], on an image that holds the files. *)
Section finish.
Variables (s : mk) (files : list (list Z * list (list Z))).
Let fs := (T_DIR, root_bytes files) :: (as_file <$> files).
Hypothesis (I : image s fs).
Let ad := di_addrs (ino s ROOTINO).
Let x := Dinode T_DIR 0 0 1 (root_size files) ad.
Let s1 := inode_put ROOTINO x s.
Let s2 := stored_at 58 (mark_first (Z.to_nat (freeblock s)) zeroes) s1.

Lemma finish_len : len fs = len files + 1.
Proof. unfold fs. cbn [length]. rewrite length_fmap. lia. Qed.

Lemma finish_few : len files < 199.
Proof. pose proof (im_few _ _ I) as H. rewrite finish_len in H. unfold NINODES in H. lia. Qed.

Lemma root_size_range : len (root_bytes files) < root_size files <= len (root_bytes files) + 512 /\ root_size files <= MAXFILE * BSIZE.
Proof. pose proof finish_few. unfold root_size. rewrite length_root_bytes. fs_const. word_lia. Qed.

Lemma finish_img n : nmeta <= n -> img s2 n = img s n.
Proof.
  intros Hn. change nmeta with 59 in Hn. unfold s2. rewrite img_stored_other by lia.
  apply (inode_put_img s ROOTINO); [done | lia].
Qed.

Lemma finish_x_ok : dinode_ok x.
Proof.
  pose proof root_size_range. pose proof (im_holds _ _ I 0 _ _ eq_refl) as H0.
  unfold dinode_ok, x. cbn [di_type di_major di_minor di_nlink di_size di_addrs]. unfold T_DIR. fs_const.
  split_and!; try lia; [apply H0 | eapply holds_addrs, H0; apply I].
Qed.

Lemma finish_ino n : 0 <= n < NINODES -> ino s2 n = if n =? ROOTINO then x else ino s n.
Proof.
  intros Hn. pose proof (im_ok _ _ I) as OK. destruct (mk_iblock n Hn) as [_ Hb].
  assert (ino s2 n = ino s1 n) as ->.
  { unfold inode_of. cbn [tseen view]. unfold s2. by rewrite img_stored_other by lia. }
  destruct (Z.eqb_spec n ROOTINO) as [->|N].
  - apply inode_put_same; [done | done | apply finish_x_ok].
  - apply inode_put_other; [done | done | done|]. apply finish_x_ok.
Qed.

Lemma finish_addrs n : 0 <= n < NINODES -> di_addrs (ino s2 n) = di_addrs (ino s n).
Proof. intros Hn. rewrite finish_ino by done. by destruct (Z.eqb_spec n ROOTINO) as [->|]. Qed.

Lemma finish_holds i t l : fs !! i = Some (t, l) -> holds s2 (di_addrs (ino s (Z.of_nat i + 1))) l.
Proof.
  intros Hi. pose proof (im_holds _ _ I i t l Hi) as H. apply (keep_holds s); [done | done|].
  intros n Ho. apply finish_img. by apply (holds_owns _ _ _ _ H).
Qed.

Lemma finish_owns i n : (i < length fs)%nat ->
  owns (view (img s2)) (di_addrs (ino s2 (Z.of_nat i + 1))) n <-> owns (view (img s)) (di_addrs (ino s (Z.of_nat i + 1))) n.
Proof.
  intros Hi. pose proof (im_few _ _ I). rewrite finish_addrs by lia.
  apply keep_owns. intros m Ho. apply finish_img. destruct (lookup_lt_is_Some_2 fs i Hi) as [[t l] Hf].
  by apply (holds_owns _ _ _ _ (im_holds _ _ I i t l Hf)).
Qed.

Lemma finish_used n : 0 <= n < FSSIZE -> used mk_sb (view (img s2)) n = (n <? freeblock s).
Proof.
  intros Hn. pose proof (ok_free _ (im_ok _ _ I)) as Hf. unfold FSSIZE in *. change nmeta with 59 in Hf.
  unfold used, BBLOCK. rewrite mk_sb_eq. cbn [sb_bmapstart tseen view]. fs_const.
  rewrite (Z.div_small n), Z.mod_small by lia. change (u32 (0 + 58)) with 58. unfold s2. rewrite img_stored_same.
  rewrite mark_first_bit by lia. by rewrite Z2Nat.id by lia.
Qed.

Lemma finish_mapped i t l : fs !! i = Some (t, l) -> mapped mk_sb (view (img s2)) (di_addrs (ino s (Z.of_nat i + 1))).
Proof.
  intros Hi. pose proof (finish_holds i t l Hi) as H. pose proof (ok_free _ (im_ok _ _ I)) as Hf.
  set (a := di_addrs (ino s (Z.of_nat i + 1))) in *.
  assert (forall n, owns (view (img s2)) a n -> in_data mk_sb (view (img s2)) n) as Hd.
  { intros n Ho. pose proof (holds_owns _ _ _ _ H Ho) as Hn. change (freeblock s2) with (freeblock s) in Hn.
    change nmeta with 59 in *. unfold FSSIZE in *. split.
    - rewrite mk_sb_eq. change (data_start _) with 59. cbn [sb_size]. lia.
    - rewrite finish_used by (unfold FSSIZE; lia). apply Z.ltb_lt. lia. }
  assert (forall bn, 0 <= bn < MAXFILE -> blk (view (img s2)) a bn <> 0 -> bn * BSIZE < len l) as Hin.
  { intros bn Hb Hz. pose proof (ho_blk _ _ _ H bn Hb) as B.
    by destruct (Z.ltb_spec (bn * BSIZE) (len l)). }
  split.
  - apply H.
  - intros Hz. apply Hd. split; [done|]. by left.
  - intros bn Hb Hz. apply Hd. split; [done|]. right. by exists bn.
  - intros b1 b2 H1 H2 Hz E. apply (ho_inj _ _ _ H); [lia | lia | by apply Hin | |done]. apply Hin; [done|]. by rewrite <- E.
  - intros bn Hb Hz. apply (ho_ne _ _ _ H); [lia | by apply Hin].
Qed.

Lemma finish_filesystem : filesystem (img s2) files.
Proof.
  pose proof finish_few as Hfew. pose proof finish_len as Hlen. pose proof root_size_range as [Hrs Hrm].
  pose proof (ok_free _ (im_ok _ _ I)) as Hf.
  assert (forall i, 1 <= i <= len files + 1 -> exists k, (k < length fs)%nat /\ Z.of_nat k + 1 = i) as Hidx.
  { intros i Hi. exists (Z.to_nat (i - 1)). lia. }
  assert (forall n, n <> 58 -> n < 32 -> img s2 n = img s n) as Hlow.
  { intros n N Hn. unfold s2. rewrite img_stored_other by done. apply (inode_put_img s ROOTINO); [done | lia]. }
  split.
  - rewrite Hlow by lia. rewrite (im_super _ _ I). apply sb_bytes_superblock.
  - rewrite mk_sb_eq. cbn [sb_logstart]. rewrite Hlow by lia. apply (im_log _ _ I).
  - exists ad. cbn zeta. split; [by rewrite finish_ino|]. split; [by apply (finish_mapped 0 T_DIR (root_bytes files))|].
    rewrite <- (holds_content s2 ad); [|by apply (finish_holds 0 T_DIR)|lia]. f_equal. lia.
  - intros i name chunks Hi.
    assert (fs !! S i = Some (T_FILE, concat chunks)) as Hs by (change ((as_file <$> files) !! i = Some (T_FILE, concat chunks)); rewrite list_lookup_fmap, Hi; done).
    exists (di_addrs (ino s (Z.of_nat (S i) + 1))). cbn zeta.
    pose proof (lookup_lt_Some _ _ _ Hi). replace (Z.of_nat i + 2) with (Z.of_nat (S i) + 1) by lia.
    split; [|split; [by eapply finish_mapped|]].
    + rewrite finish_ino by (unfold NINODES; lia). rewrite (proj2 (Z.eqb_neq _ _)) by (unfold ROOTINO; lia).
      by apply (im_inode _ _ I).
    + pose proof (finish_holds _ _ _ Hs) as Hh. pose proof (holds_content s2 _ _ 0 Hh) as E.
      cbn [replicate] in E. rewrite app_nil_r, Z.add_0_r in E. apply E, Hh.
  - intros n Hn. unfold NINODES in Hn. rewrite finish_ino by (unfold NINODES; lia).
    rewrite (proj2 (Z.eqb_neq _ _)) by (unfold ROOTINO; lia). rewrite (im_unused _ _ I); [done | unfold NINODES; lia].
  - intros n Hn. rewrite finish_used, Z.ltb_lt by done. change (data_start mk_sb) with nmeta. split.
    + intros Hl. destruct (decide (n < nmeta)); [by left | right].
      destruct (im_cover _ _ I n) as (k & Hk & Ho); [lia|]. exists (Z.of_nat k + 1). split; [lia|].
      exact (proj2 (finish_owns k n Hk) Ho).
    + intros [?|(i & Hi & Ho)]; [lia|]. destruct (Hidx i Hi) as (k & Hk & <-). pose proof (proj1 (finish_owns k n Hk) Ho) as Ho'.
      destruct (lookup_lt_is_Some_2 fs k Hk) as [[t l] Hf0]. pose proof (im_holds _ _ I k t l Hf0) as Hh.
      by apply (holds_owns _ _ _ _ Hh).
  - intros i j n Hi Hj. destruct (Hidx i Hi) as (k & Hk & <-), (Hidx j Hj) as (k' & Hk' & <-).
    intros O1 O2. by rewrite (im_apart _ _ I k k' n Hk Hk' (proj1 (finish_owns k n Hk) O1) (proj1 (finish_owns k' n Hk') O2)).
Qed.

Lemma finish_runs cx : (fix_root_size ;; s <- get ;; mk_balloc (freeblock s)) cx s = Ret tt cx s2.
Proof.
  pose proof (im_ok _ _ I) as OK. pose proof (ok_free _ OK) as Hf. unfold FSSIZE in *.
  pose proof root_size_range as [Hrs Hrm]. change nmeta with 59 in Hf.
  assert (fix_root_size cx s = Ret tt cx s1) as R.
  { unfold fix_root_size. erewrite bind_Ret by (by apply rinode_runs).
    destruct (im_inode _ _ I 0 _ _ eq_refl) as [E _]. change (Z.of_nat 0 + 1) with ROOTINO in E. rewrite E.
    cbn [di_size di_type di_major di_minor di_nlink di_addrs]. fold ad.
    rewrite (xint_small (len _)) by (fs_const; lia). fold (root_size files).
    rewrite u32_small by (fs_const; lia). rewrite xint_small by (fs_const; lia). by apply winode_runs. }
  erewrite bind_Ret by exact R. mstep. unfold mk_balloc.
  change (freeblock s1) with (freeblock s). rewrite (proj2 (Z.ltb_lt _ _)) by (fs_const; lia). cbn [negb].
  rewrite mk_sb_eq. cbn [sb_bmapstart]. apply wsect_runs; [apply OK | unfold FSSIZE; lia].
Qed.
End finish.


