(* ===== verification/Mp.v ===== *)
(** mp.c: the search for the multiprocessor tables of the BIOS and the processors
    and I/O APIC they name.

    The tables are bytes of memory, at kernel addresses.  A search finds the
    first structure with the right signature and checksum; a table made of
    known entries gives exactly its processors, in order, up to [NCPU], and its
    last I/O APIC.  A table with an entry of unknown type makes the loop run
    forever. *)

From stdpp Require Import base numbers list strings.
From S2P Require Import Xv6 Prelude Kstring Bytes.

(** The variables mp.c sets, over the memory it reads; [outs] is the list of the
    ports written, with the values. *)
Record mps := Mps { mp_ram : mem; lapic_addr : Z; apicids : list Z; ioapicid : Z; mp_outs : list (Z * Z) }.

Definition set_lapic_addr a (s : mps) : mps := Mps (mp_ram s) a (apicids s) (ioapicid s) (mp_outs s).
Definition set_apicids l (s : mps) : mps := Mps (mp_ram s) (lapic_addr s) l (ioapicid s) (mp_outs s).
Definition set_ioapicid i (s : mps) : mps := Mps (mp_ram s) (lapic_addr s) (apicids s) i (mp_outs s).
Definition mp_outb (port v : Z) : M mps unit :=
  modify (fun s => Mps (mp_ram s) (lapic_addr s) (apicids s) (ioapicid s) (mp_outs s ++ [(port, v)])).

(** memlayout.h [P2V], which checks its argument. *)
Definition P2V (a : Z) : M mps Z :=
  if KERNBASE <? a then panic "P2V on address > KERNBASE" else ret (u32 (a + KERNBASE)).

Definition ld8 (m : mem) (a : Z) : Z := m a.
Definition ld16 (m : mem) (a : Z) : Z := m a + 2 ^ 8 * m (a + 1).
Definition ld32 (m : mem) (a : Z) : Z := m a + 2 ^ 8 * m (a + 1) + 2 ^ 16 * m (a + 2) + 2 ^ 24 * m (a + 3).

(** The sum of the bytes, as a [uchar]. *)
Fixpoint sum_from (n : nat) (m : mem) (a acc : Z) : Z :=
  match n with
  | O => acc
  | S n => sum_from n m (a + 1) (acc + m a)
  end.
Definition sum (m : mem) (addr len : Z) : Z := u8 (sum_from (Z.to_nat len) m addr 0).

Definition sizeof_mp : Z := 16.
Definition sizeof_mpconf : Z := 44.
Definition sizeof_mpproc : Z := 20.
Definition sizeof_mpioapic : Z := 8.

(** [struct mp] and [struct mpconf], by the offsets of the fields used. *)
Definition mp_physaddr (m : mem) (p : Z) : Z := ld32 m (p + 4).
Definition mp_imcrp (m : mem) (p : Z) : Z := ld8 m (p + 12).
Definition mpconf_length (m : mem) (p : Z) : Z := ld16 m (p + 4).
Definition mpconf_version (m : mem) (p : Z) : Z := ld8 m (p + 6).
Definition mpconf_lapicaddr (m : mem) (p : Z) : Z := ld32 m (p + 36).

Definition MPPROC : Z := 0.
Definition MPBUS : Z := 1.
Definition MPIOAPIC : Z := 2.
Definition MPIOINTR : Z := 3.
Definition MPLINTR : Z := 4.

(** [memcmp(p, text, 4) == 0] with a literal text. *)
Definition same4 (m : mem) (p : Z) (text : list Z) : bool := bool_decide (bytes_at m p 4 = text).
Definition text_MP : list Z := [95; 77; 80; 95].
Definition text_PCMP : list Z := [80; 67; 77; 80].

(** The [for] loop of [mpsearch1]; [k] is at least the number of structures in
    the range. *)
Fixpoint mpsearch1_loop (k : nat) (m : mem) (p e : Z) : option Z :=
  match k with
  | O => None
  | S k =>
      if p <? e then
        if same4 m p text_MP && (sum m p sizeof_mp =? 0) then Some p
        else mpsearch1_loop k m (p + sizeof_mp) e
      else None
  end.
Definition mpsearch1 (a len : Z) : M mps (option Z) :=
  addr <- P2V a ;;
  m <- gets mp_ram ;;
  ret (mpsearch1_loop (Z.to_nat len) m addr (addr + len)).

Definition mpsearch : M mps (option Z) :=
  bda <- P2V 0x400 ;;
  m <- gets mp_ram ;;
  let p := Z.shiftl (Z.lor (Z.shiftl (ld8 m (bda + 0x0F)) 8) (ld8 m (bda + 0x0E))) 4 in
  r <- (if negb (p =? 0) then mpsearch1 p 1024
        else
          let p := Z.lor (Z.shiftl (ld8 m (bda + 0x14)) 8) (ld8 m (bda + 0x13)) * 1024 in
          mpsearch1 (u32 (p - 1024)) 1024) ;;
  match r with
  | Some mp => ret (Some mp)
  | None => mpsearch1 0xF0000 0x10000
  end.

(** The floating pointer and the configuration table. *)
Definition mpconfig : M mps (option (Z * Z)) :=
  r <- mpsearch ;;
  m <- gets mp_ram ;;
  match r with
  | None => ret None
  | Some mp =>
      if mp_physaddr m mp =? 0 then ret None
      else
        conf <- P2V (mp_physaddr m mp) ;;
        if negb (same4 m conf text_PCMP) then ret None
        else if negb (mpconf_version m conf =? 1) && negb (mpconf_version m conf =? 4) then ret None
        else if negb (sum m conf (mpconf_length m conf) =? 0) then ret None
        else ret (Some (mp, conf))
  end.

(** The loop over the entries.  The [break] of the [default] case leaves the
    [switch] and not the loop, so an unknown entry is looked at again. *)
Fixpoint mpinit_loop (fuel : nat) (p e : Z) (ismp : bool) : M mps bool :=
  if negb (p <? e) then ret ismp
  else match fuel with
  | O => undef "mpinit: still looping"
  | S f =>
      m <- gets mp_ram ;;
      let ty := ld8 m p in
      if ty =? MPPROC then
        modify (fun s => if (length (apicids s) <? NCPU)%nat then set_apicids (apicids s ++ [ld8 m (p + 1)]) s else s) ;;
        mpinit_loop f (p + sizeof_mpproc) e ismp
      else if ty =? MPIOAPIC then
        modify (set_ioapicid (ld8 m (p + 1))) ;;
        mpinit_loop f (p + sizeof_mpioapic) e ismp
      else if (ty =? MPBUS) || (ty =? MPIOINTR) || (ty =? MPLINTR) then
        mpinit_loop f (p + 8) e ismp
      else mpinit_loop f p e false
  end.

(** [inb 0x23]: what the port holds. *)
Definition mpinit (fuel : nat) (inb : Z -> Z) : M mps unit :=
  r <- mpconfig ;;
  match r with
  | None => panic "Expect to run on an SMP"
  | Some (mp, conf) =>
      m <- gets mp_ram ;;
      modify (set_lapic_addr (mpconf_lapicaddr m conf)) ;;
      ismp <- mpinit_loop fuel (conf + sizeof_mpconf) (conf + mpconf_length m conf) true ;;
      if negb ismp then panic "Didn't find a suitable machine"
      else if negb (mp_imcrp m mp =? 0) then
        mp_outb 0x22 0x70 ;;
        mp_outb 0x23 (Z.lor (inb 0x23) 1)
      else ret tt
  end.

(** ** The search *)

(** A floating pointer structure at [p]. *)
Definition mp_struct (m : mem) (p : Z) : bool := same4 m p text_MP && (sum m p sizeof_mp =? 0).

Lemma mpsearch1_loop_spec k m : forall p e, e - p <= 16 * Z.of_nat k ->
  match mpsearch1_loop k m p e with
  | Some q => p <= q < e /\ (q - p) mod 16 = 0 /\ mp_struct m q = true /\
      forall x, p <= x < q -> (x - p) mod 16 = 0 -> mp_struct m x = false
  | None => forall x, p <= x < e -> (x - p) mod 16 = 0 -> mp_struct m x = false
  end.
Proof.
  unfold mp_struct. induction k as [|k IH]; intros p e Hk; cbn [mpsearch1_loop]; [intros x; lia|].
  destruct (Z.ltb_spec p e) as [Hlt|]; [|intros x; lia]. destruct (_ && _) eqn:E.
  - split; [lia|]. rewrite Z.sub_diag. split; [done|]. split; [done|]. intros x; lia.
  - specialize (IH (p + sizeof_mp) e ltac:(unfold sizeof_mp; lia)). unfold sizeof_mp in IH at 1 2 3 4 5 6.
    assert (forall x, p <= x -> (x - p) mod 16 = 0 -> x = p \/ p + 16 <= x /\ (x - (p + 16)) mod 16 = 0) as Hx.
    { intros x H1 H2. destruct (decide (x = p)); [by left|right]. word_lia. }
    change sizeof_mp with 16 in *. destruct (mpsearch1_loop k m (p + 16) e) as [q|].
    + destruct IH as (I1 & I2 & I3 & I4). split; [lia|]. split; [word_lia|]. split; [done|].
      intros x Hr Hm. destruct (Hx x) as [->|[? ?]]; [lia | done | done | apply I4; done || lia].
    + intros x Hr Hm. destruct (Hx x) as [->|[? ?]]; [lia | done | done | apply IH; done || lia].
Qed.

(** [mpsearch1] finds the first floating pointer structure of its range: the
    address it returns is a multiple of the structure's size from the start, has
    the signature and a zero checksum, and no earlier one has; it returns null
    exactly when there is none. *)
Theorem mpsearch1_finds_first a n cx s :
  0 <= a <= KERNBASE -> 0 <= n -> a + n + KERNBASE < 2 ^ 32 ->
  exists r, mpsearch1 a n cx s = Ret r cx s /\
  match r with
  | Some q => a + KERNBASE <= q < a + KERNBASE + n /\ (q - (a + KERNBASE)) mod 16 = 0 /\ mp_struct (mp_ram s) q = true /\
      forall x, a + KERNBASE <= x < q -> (x - (a + KERNBASE)) mod 16 = 0 -> mp_struct (mp_ram s) x = false
  | None => forall x, a + KERNBASE <= x < a + KERNBASE + n -> (x - (a + KERNBASE)) mod 16 = 0 -> mp_struct (mp_ram s) x = false
  end.
Proof.
  intros Ha Hn Hb. unfold mpsearch1, P2V. rewrite (proj2 (Z.ltb_ge _ _)), u32_small by (unfold KERNBASE in *; lia).
  eexists. split; [mrun; reflexivity|]. apply mpsearch1_loop_spec. lia.
Qed.

(** ** Tables *)

Inductive mpentry :=
  | Eproc (apicid : Z) (rest : list Z)
  | Eioapic (apicno : Z) (rest : list Z)
  | Eother (type : Z) (rest : list Z).

Definition entry_bytes (e : mpentry) : list Z :=
  match e with
  | Eproc id rest => MPPROC :: id :: rest
  | Eioapic id rest => MPIOAPIC :: id :: rest
  | Eother ty rest => ty :: rest
  end.

(** The entries of the specification: their types and lengths. *)
Definition entry_ok (e : mpentry) : Prop :=
  match e with
  | Eproc _ rest => length rest = 18%nat
  | Eioapic _ rest => length rest = 6%nat
  | Eother ty rest => (ty = MPBUS \/ ty = MPIOINTR \/ ty = MPLINTR) /\ length rest = 7%nat
  end.

(** The processors, and the last I/O APIC, of a table. *)
Definition procs (es : list mpentry) : list Z := omap (fun e => match e with Eproc id _ => Some id | _ => None end) es.
Definition last_ioapic (i : Z) (es : list mpentry) : Z :=
  foldl (fun i e => match e with Eioapic id _ => id | _ => i end) i es.

Definition table_bytes (es : list mpentry) : list Z := concat (entry_bytes <$> es).

Lemma bytes_at_split m a n1 n2 : bytes_at m a (n1 + n2) = bytes_at m a n1 ++ bytes_at m (a + Z.of_nat n1) n2.
Proof.
  unfold bytes_at. rewrite seq_app, map_app. f_equal. cbn [Nat.add].
  revert n1. induction n2 as [|n2 IH]; intros n1; [done|]. cbn [seq map]. f_equal; [f_equal; lia|].
  rewrite IH, <- seq_shift, map_map. apply map_ext. intros i. f_equal. lia.
Qed.

Lemma bytes_at_app m a l1 l2 : bytes_at m a (length (l1 ++ l2)) = l1 ++ l2 ->
  bytes_at m a (length l1) = l1 /\ bytes_at m (a + Z.of_nat (length l1)) (length l2) = l2.
Proof.
  rewrite length_app, bytes_at_split. intros H. apply app_inj_1 in H; [done|]. unfold bytes_at. by rewrite length_map, length_seq.
Qed.

Lemma bytes_at_byte m a l k x : bytes_at m a (length l) = l -> l !! k = Some x -> m (a + Z.of_nat k) = x.
Proof.
  intros H Hk. rewrite <- H in Hk. unfold bytes_at in Hk. rewrite list_lookup_fmap in Hk.
  apply fmap_Some in Hk as (j & Hj & ->). apply lookup_seq in Hj as [-> _]. done.
Qed.

(** What the loop leaves: the processors appended while there is room. *)
Definition found_in (es : list mpentry) (s : mps) : mps :=
  Mps (mp_ram s) (lapic_addr s) (take NCPU (apicids s ++ procs es)) (last_ioapic (ioapicid s) es) (mp_outs s).

(** [if(ncpu < NCPU) cpus[ncpu++].apicid = id]. *)
Definition add_cpu (id : Z) (s : mps) : mps :=
  if (length (apicids s) <? NCPU)%nat then set_apicids (apicids s ++ [id]) s else s.

Lemma add_cpu_found id rest es s : (length (apicids s) <= NCPU)%nat ->
  found_in es (add_cpu id s) = found_in (Eproc id rest :: es) s /\ mp_ram (add_cpu id s) = mp_ram s /\
  (length (apicids (add_cpu id s)) <= NCPU)%nat.
Proof.
  intros H. unfold add_cpu, found_in. cbn [procs omap list_omap]. destruct (Nat.ltb_spec (length (apicids s)) NCPU) as [Hl|Hl].
  - cbn [apicids set_apicids]. rewrite <- app_assoc, length_app. cbn [length]. split_and!; [done..|lia].
  - split_and!; [|done..]. assert (length (apicids s) = NCPU) as <- by lia. by rewrite !take_app_length.
Qed.

Lemma mpinit_loop_runs es : forall fuel p s cx, (length es <= fuel)%nat -> Forall entry_ok es ->
  (length (apicids s) <= NCPU)%nat -> bytes_at (mp_ram s) p (length (table_bytes es)) = table_bytes es ->
  mpinit_loop fuel p (p + Z.of_nat (length (table_bytes es))) true cx s = Ret true cx (found_in es s).
Proof.
  induction es as [|e es IH]; intros fuel p s cx Hf Hok Hn Hb.
  { cbn [table_bytes concat fmap list_fmap length]. rewrite Z.add_0_r. unfold found_in. cbn. rewrite app_nil_r, take_ge by done.
    destruct fuel; cbn [mpinit_loop]; rewrite Z.ltb_irrefl; by destruct s. }
  apply Forall_cons in Hok as [He Hok]. destruct fuel as [|fuel]; [cbn in Hf; lia|]. cbn [length] in Hf.
  change (table_bytes (e :: es)) with (entry_bytes e ++ table_bytes es) in *.
  apply bytes_at_app in Hb as [H1 H2].
  assert (0 < length (entry_bytes e))%nat as Hlen by (destruct e; cbn; lia).
  cbn [mpinit_loop]. rewrite length_app, Nat2Z.inj_add, (proj2 (Z.ltb_lt _ _)) by lia. cbn [negb]. mstep.
  assert (forall k x, entry_bytes e !! k = Some x -> mp_ram s (p + Z.of_nat k) = x) as Hby by (intros k x; by apply bytes_at_byte).
  unfold ld8. rewrite Z.add_assoc. pose proof (Hby 0%nat) as H0. rewrite Z.add_0_r in H0.
  destruct e as [id rest|id rest|ty rest]; cbn [entry_ok] in He; rewrite (H0 _ eq_refl).
  - cbn [Z.eqb MPPROC]. mstep. cbn [entry_bytes length] in H2 |- *. rewrite He in H2 |- *.
    pose proof (Hby 1%nat id eq_refl) as E. change (Z.of_nat 1) with 1 in E. rewrite E. fold (add_cpu id s).
    destruct (add_cpu_found id rest es s Hn) as (F1 & F2 & F3). rewrite <- F1.
    apply IH; [lia | done | done | by rewrite F2].
  - cbn [Z.eqb Pos.eqb MPPROC MPIOAPIC]. mstep. cbn [entry_bytes length] in H2 |- *. rewrite He in H2 |- *.
    pose proof (Hby 1%nat id eq_refl) as E. change (Z.of_nat 1) with 1 in E. rewrite E.
    apply (IH fuel _ (set_ioapicid id s)); [lia | done..].
  - destruct He as [Hty Hr]. cbn [entry_bytes length] in H2 |- *. rewrite Hr in H2 |- *.
    destruct Hty as [-> | [-> | ->]]; cbn [Z.eqb MPPROC MPIOAPIC MPBUS MPIOINTR MPLINTR orb Pos.eqb]; apply (IH fuel _ s); done || lia.
Qed.

(** The configuration table with the entries [es] is at [conf], with a signature,
    a version and a checksum [mpconfig] accepts. *)
Record table_at (m : mem) (conf : Z) (es : list mpentry) : Prop := {
  ta_sig : same4 m conf text_PCMP = true;
  ta_version : mpconf_version m conf = 1 \/ mpconf_version m conf = 4;
  ta_length : mpconf_length m conf = sizeof_mpconf + Z.of_nat (length (table_bytes es));
  ta_sum : sum m conf (mpconf_length m conf) = 0;
  ta_entries : Forall entry_ok es;
  ta_bytes : bytes_at m (conf + sizeof_mpconf) (length (table_bytes es)) = table_bytes es }.

Lemma mpconfig_runs mp conf es cx s :
  mpsearch cx s = Ret (Some mp) cx s -> 0 < mp_physaddr (mp_ram s) mp <= KERNBASE ->
  conf = u32 (mp_physaddr (mp_ram s) mp + KERNBASE) -> table_at (mp_ram s) conf es ->
  mpconfig cx s = Ret (Some (mp, conf)) cx s.
Proof.
  intros R Hp -> T. unfold mpconfig. erewrite bind_Ret by exact R. cbn beta iota. mstep.
  rewrite (proj2 (Z.eqb_neq _ _)) by lia. unfold P2V. rewrite (proj2 (Z.ltb_ge _ _)) by lia. mstep.
  rewrite (ta_sig _ _ _ T), (ta_sum _ _ _ T). cbn [negb Z.eqb].
  destruct (ta_version _ _ _ T) as [-> | ->]; done.
Qed.

(** [mpinit] reads the table the BIOS left.  With a floating pointer that
    [mpsearch] finds and a valid table of known entries behind it, [mpinit]
    returns with the local APIC's address, the APIC ids of the processors of
    the table in order, at most [NCPU] of them, and the id of its last I/O APIC;
    with the IMCR bit it masks the external interrupts. *)
Theorem mpinit_reads_table fuel inb mp conf es cx s :
  mpsearch cx s = Ret (Some mp) cx s -> 0 < mp_physaddr (mp_ram s) mp <= KERNBASE ->
  conf = u32 (mp_physaddr (mp_ram s) mp + KERNBASE) -> table_at (mp_ram s) conf es ->
  (length es <= fuel)%nat -> (length (apicids s) <= NCPU)%nat ->
  mpinit fuel inb cx s = Ret tt cx
    (Mps (mp_ram s) (mpconf_lapicaddr (mp_ram s) conf) (take NCPU (apicids s ++ procs es)) (last_ioapic (ioapicid s) es)
       (mp_outs s ++ if mp_imcrp (mp_ram s) mp =? 0 then [] else [(0x22, 0x70); (0x23, Z.lor (inb 0x23) 1)])).
Proof.
  intros R Hp Hc T Hf Hn. unfold mpinit. erewrite bind_Ret by (by eapply mpconfig_runs). cbn beta iota. do 2 mstep.
  rewrite (ta_length _ _ _ T), Z.add_assoc.
  erewrite bind_Ret by (apply (mpinit_loop_runs es); [done | apply T | done | apply T]). cbn [negb].
  destruct (_ =? 0); cbn [negb]; [by rewrite app_nil_r|]. mrun. unfold mp_outb, modify. cbn. by rewrite <- app_assoc.
Qed.

(** an entry of a type mp.c does not know stops the boot: the loop never ends,
    whatever the number of turns, and the panic behind it is not reached. *)
Theorem mpinit_unknown_entry_hangs fuel p e ismp cx s :
  p < e -> (forall ty, In ty [MPPROC; MPBUS; MPIOAPIC; MPIOINTR; MPLINTR] -> ld8 (mp_ram s) p <> ty) ->
  mpinit_loop fuel p e ismp cx s = Undef "mpinit: still looping".
Proof.
  intros Hp Hty. revert ismp. induction fuel as [|f IH]; intros ismp; cbn [mpinit_loop];
    rewrite (proj2 (Z.ltb_lt _ _) Hp); cbn [negb]; [done|]. mstep.
  rewrite !(proj2 (Z.eqb_neq _ _)) by (apply Hty; cbn; tauto). cbn [orb]. apply IH.
Qed.

(** ** A machine with two processors *)

Module Demo.

Definition demo_es : list mpentry :=
  [Eproc 0 (replicate 18 0); Eproc 1 (replicate 18 0); Eother 1 (replicate 7 0); Eioapic 2 (replicate 6 0)].

(** 639 KB of base memory, the floating pointer at 0xF0000, the table at 0xF1000. *)
Definition demo_mp : list Z := text_MP ++ [0; 16; 15; 0; 1; 4; 129; 0; 0; 0; 0; 0].
Definition demo_conf : list Z :=
  text_PCMP ++ [100; 0; 4; 132] ++ replicate 20 0 ++ replicate 8 0 ++ [0; 0; 224; 254] ++ replicate 4 0 ++ table_bytes demo_es.

Definition demo_ram : mem := fun a =>
  if a =? 0x80000413 then 127 else if a =? 0x80000414 then 2 else if a <? 0x800F0000 then 0
  else if a <? 0x800F1000 then byte demo_mp (Z.to_nat (a - 0x800F0000)) else byte demo_conf (Z.to_nat (a - 0x800F1000)).
Definition demo_mps : mps := Mps demo_ram 0 [] 0 [].
Definition demo_cx : ctx := Ctx (Thread 0 false) [] [].

Lemma mpsearch1_finds_first_witness : exists r, mpsearch1 0xF0000 0x10000 demo_cx demo_mps = Ret r demo_cx demo_mps.
Proof.
  destruct (mpsearch1_finds_first 0xF0000 0x10000 demo_cx demo_mps) as (r & R & _).
  - unfold KERNBASE. lia.
  - lia.
  - unfold KERNBASE. lia.
  - exists r. exact R.
Defined.

Lemma demo_table : table_at demo_ram 0x800F1000 demo_es.
Proof.
  split; try (vm_compute; reflexivity).
  - right. vm_compute. reflexivity.
  - repeat constructor.
Qed.

Lemma demo_mpsearch : mpsearch demo_cx demo_mps = Ret (Some 0x800F0000) demo_cx demo_mps.
Proof.
  assert (mpsearch1_loop (Z.to_nat 1024) demo_ram (u32 (0x9F800 + KERNBASE)) (u32 (0x9F800 + KERNBASE) + 1024) = None) as E1
    by (vm_compute; reflexivity).
  assert (mpsearch1_loop (Z.to_nat 0x10000) demo_ram (u32 (0xF0000 + KERNBASE)) (u32 (0xF0000 + KERNBASE) + 0x10000) = Some 0x800F0000) as E2
    by (vm_compute; reflexivity).
  unfold mpsearch, P2V. change (KERNBASE <? 0x400) with false. cbn iota. do 2 mstep. cbn [mp_ram demo_mps].
  change (negb (Z.shiftl (Z.lor (Z.shiftl (ld8 demo_ram (u32 (0x400 + KERNBASE) + 0x0F)) 8) (ld8 demo_ram (u32 (0x400 + KERNBASE) + 0x0E))) 4 =? 0)) with false.
  cbn iota zeta.
  change (u32 (Z.lor (Z.shiftl (ld8 demo_ram (u32 (0x400 + KERNBASE) + 0x14)) 8) (ld8 demo_ram (u32 (0x400 + KERNBASE) + 0x13)) * 1024 - 1024)) with 0x9F800.
  unfold mpsearch1, P2V. change (KERNBASE <? 0x9F800) with false. change (KERNBASE <? 0xF0000) with false. cbn iota.
  mrun. cbn [mp_ram demo_mps]. rewrite E1. mrun. cbn [mp_ram demo_mps]. by rewrite E2.
Qed.

Lemma mpinit_reads_table_witness :
  mpinit 4 (fun _ => 0) demo_cx demo_mps = Ret tt demo_cx (Mps demo_ram 0xFEE00000 [0; 1] 2 []).
Proof.
  rewrite (mpinit_reads_table 4 (fun _ => 0) 0x800F0000 0x800F1000 demo_es demo_cx demo_mps).
  - f_equal.
  - exact demo_mpsearch.
  - split; vm_compute; [reflexivity | discriminate].
  - vm_compute. reflexivity.
  - exact demo_table.
  - vm_compute. lia.
  - vm_compute. lia.
Defined.

Lemma mpinit_unknown_entry_hangs_witness :
  mpinit_loop 1000 0x800F0000 0x800F0001 true demo_cx demo_mps = Undef "mpinit: still looping".
Proof.
  apply (mpinit_unknown_entry_hangs 1000 0x800F0000 0x800F0001 true demo_cx demo_mps); [lia|].
  intros ty Hty. vm_compute in Hty |- *. intuition congruence.
Defined.

End Demo.
