(* ===== verification/Apic.v ===== *)
(** lapic.c, ioapic.c, picirq.c, the set-up of uart.c and ide.c, and kshutdown.c:
    the code that programs the devices of the PC.

    A device register that code writes keeps its value, with a record of the
    writes in order; what a register that code only reads or polls shows is up
    to the hardware, [Hardware]: a function of the number of reads so far. *)

From stdpp Require Import functions base numbers list strings.
From S2P Require Import Xv6 Prelude Kstring.
From S2P Require Import Trap.

(** What the devices show: the [t]-th read of a port, of a register of the local
    APIC, of a CMOS register. *)
Class Hardware := {
  port_in : nat -> Z -> Z;
  lapic_in : nat -> Z -> Z;
  cmos_in : nat -> Z -> Z }.

Record pc := Pc {
  ticks_read : nat;
  outs : list (Z * Z);
  lapic : Z;
  lapic_writes : list (Z * Z);
  ioapic_reg : Z;
  ioapic_regs : Z -> Z;
  pc_ram : mem;
  have_uart : bool;
  havedisk1 : bool;
  said : list string }.

Definition set_outs l (s : pc) : pc :=
  Pc (ticks_read s) l (lapic s) (lapic_writes s) (ioapic_reg s) (ioapic_regs s) (pc_ram s) (have_uart s) (havedisk1 s) (said s).
Definition set_lapic_writes l (s : pc) : pc :=
  Pc (ticks_read s) (outs s) (lapic s) l (ioapic_reg s) (ioapic_regs s) (pc_ram s) (have_uart s) (havedisk1 s) (said s).
Definition set_ioapic r f (s : pc) : pc :=
  Pc (ticks_read s) (outs s) (lapic s) (lapic_writes s) r f (pc_ram s) (have_uart s) (havedisk1 s) (said s).
Definition set_pc_ram m (s : pc) : pc :=
  Pc (ticks_read s) (outs s) (lapic s) (lapic_writes s) (ioapic_reg s) (ioapic_regs s) m (have_uart s) (havedisk1 s) (said s).
Definition set_have_uart b (s : pc) : pc :=
  Pc (ticks_read s) (outs s) (lapic s) (lapic_writes s) (ioapic_reg s) (ioapic_regs s) (pc_ram s) b (havedisk1 s) (said s).
Definition set_havedisk1 b (s : pc) : pc :=
  Pc (ticks_read s) (outs s) (lapic s) (lapic_writes s) (ioapic_reg s) (ioapic_regs s) (pc_ram s) (have_uart s) b (said s).
Definition say t (s : pc) : pc :=
  Pc (ticks_read s) (outs s) (lapic s) (lapic_writes s) (ioapic_reg s) (ioapic_regs s) (pc_ram s) (have_uart s) (havedisk1 s) (said s ++ [t]).
Definition tick (s : pc) : pc :=
  Pc (S (ticks_read s)) (outs s) (lapic s) (lapic_writes s) (ioapic_reg s) (ioapic_regs s) (pc_ram s) (have_uart s) (havedisk1 s) (said s).

Section devices.
Context {H : Hardware}.

(** x86.h [outb] and [inb]. *)
Definition pc_outb (port v : Z) : M pc unit := modify (fun s => set_outs (outs s ++ [(port, u8 v)]) s).
Definition pc_inb (port : Z) : M pc Z :=
  s <- get ;; put (tick s) ;; ret (u8 (port_in (ticks_read s) port)).

(** ** ioapic.c *)

Definition REG_ID : Z := 0x00.
Definition REG_VER : Z := 0x01.
Definition REG_TABLE : Z := 0x10.
Definition INT_DISABLED : Z := 0x00010000.

(** The data register stands for the register last selected. *)
Definition ioapicread (reg : Z) : M pc Z :=
  modify (fun s => set_ioapic reg (ioapic_regs s) s) ;;
  gets (fun s => ioapic_regs s (ioapic_reg s)).
Definition ioapicwrite (reg data : Z) : M pc unit :=
  modify (fun s => set_ioapic reg (ioapic_regs s) s) ;;
  modify (fun s => set_ioapic (ioapic_reg s) (<[ioapic_reg s := u32 data]> (ioapic_regs s)) s).

(** [for(i = 0; i <= maxintr; i++)], the turns from [i] on. *)
Fixpoint ioapic_mask (k : nat) (i : Z) : M pc unit :=
  match k with
  | O => ret tt
  | S k =>
      ioapicwrite (REG_TABLE + 2 * i) (Z.lor INT_DISABLED (T_IRQ0 + i)) ;;
      ioapicwrite (REG_TABLE + 2 * i + 1) 0 ;;
      ioapic_mask k (i + 1)
  end.
Definition ioapicinit (ioapicid : Z) : M pc unit :=
  v <- ioapicread REG_VER ;;
  let maxintr := Z.land (Z.shiftr v 16) 0xFF in
  v <- ioapicread REG_ID ;;
  let id := Z.shiftr v 24 in
  (if negb (id =? ioapicid) then modify (say "ioapicinit: id isn't equal to ioapicid; not a MP") else ret tt) ;;
  ioapic_mask (Z.to_nat (maxintr + 1)) 0.

Definition ioapicenable (irq cpunum : Z) : M pc unit :=
  ioapicwrite (REG_TABLE + 2 * irq) (T_IRQ0 + irq) ;;
  ioapicwrite (REG_TABLE + 2 * irq + 1) (Z.shiftl cpunum 24).

(** ** picirq.c *)

Definition IO_PIC1 : Z := 0x20.
Definition IO_PIC2 : Z := 0xA0.
Definition picinit : M pc unit := pc_outb (IO_PIC1 + 1) 0xFF ;; pc_outb (IO_PIC2 + 1) 0xFF.

(** ** lapic.c *)

Definition ID : Z := 0x20 / 4.
Definition VER : Z := 0x30 / 4.
Definition TPR : Z := 0x80 / 4.
Definition EOI : Z := 0xB0 / 4.
Definition SVR : Z := 0xF0 / 4.
Definition ENABLE : Z := 0x100.
Definition ESR : Z := 0x280 / 4.
Definition ICRLO : Z := 0x300 / 4.
Definition INIT : Z := 0x500.
Definition STARTUP : Z := 0x600.
Definition DELIVS : Z := 0x1000.
Definition ASSERT : Z := 0x4000.
Definition LEVEL : Z := 0x8000.
Definition BCAST : Z := 0x80000.
Definition ICRHI : Z := 0x310 / 4.
Definition TIMER : Z := 0x320 / 4.
Definition X1 : Z := 0xB.
Definition PERIODIC : Z := 0x20000.
Definition PCINT : Z := 0x340 / 4.
Definition LINT0 : Z := 0x350 / 4.
Definition LINT1 : Z := 0x360 / 4.
Definition ERROR : Z := 0x370 / 4.
Definition MASKED : Z := 0x10000.
Definition TICR : Z := 0x380 / 4.
Definition TDCR : Z := 0x3E0 / 4.
Definition IRQ_ERROR : Z := 19.

Definition lapic_read (index : Z) : M pc Z :=
  s <- get ;; put (tick s) ;; ret (u32 (lapic_in (ticks_read s) index)).
Definition lapicw (index value : Z) : M pc unit :=
  modify (fun s => set_lapic_writes (lapic_writes s ++ [(index, u32 value)]) s) ;;
  lapic_read ID ;;
  ret tt.

(** [while(lapic[ICRLO] & DELIVS);]: how long is up to the hardware. *)
Fixpoint wait_delivered (fuel : nat) : M pc unit :=
  v <- lapic_read ICRLO ;;
  if Z.land v DELIVS =? 0 then ret tt
  else match fuel with
  | O => undef "lapicinit: still waiting"
  | S f => wait_delivered f
  end.

Definition lapicinit (fuel : nat) : M pc unit :=
  s <- get ;;
  if lapic s =? 0 then ret tt else
  lapicw SVR (Z.lor ENABLE (T_IRQ0 + IRQ_SPURIOUS)) ;;
  lapicw TDCR X1 ;;
  lapicw TIMER (Z.lor PERIODIC (T_IRQ0 + IRQ_TIMER)) ;;
  lapicw TICR 10000000 ;;
  lapicw LINT0 MASKED ;;
  lapicw LINT1 MASKED ;;
  v <- lapic_read VER ;;
  (if 4 <=? Z.land (Z.shiftr v 16) 0xFF then lapicw PCINT MASKED else ret tt) ;;
  lapicw ERROR (T_IRQ0 + IRQ_ERROR) ;;
  lapicw ESR 0 ;;
  lapicw ESR 0 ;;
  lapicw EOI 0 ;;
  lapicw ICRHI 0 ;;
  lapicw ICRLO (Z.lor BCAST (Z.lor INIT LEVEL)) ;;
  wait_delivered fuel ;;
  lapicw TPR 0.

Definition lapicid : M pc Z :=
  s <- get ;;
  if lapic s =? 0 then ret 0 else v <- lapic_read ID ;; ret (Z.shiftr v 24).

Definition lapiceoi : M pc unit :=
  s <- get ;; if lapic s =? 0 then ret tt else lapicw EOI 0.

Definition microdelay (us : Z) : M pc unit := ret tt.

Definition CMOS_PORT : Z := 0x70.
Definition CMOS_RETURN : Z := 0x71.

(** A 16-bit store. *)
Definition store16 (m : mem) (a v : Z) : mem := upd (upd m a (u8 v)) (a + 1) (u8 (v / 2 ^ 8)).

(** The two STARTUP messages. *)
Fixpoint startup_ipis (k : nat) (apicid addr : Z) : M pc unit :=
  match k with
  | O => ret tt
  | S k =>
      lapicw ICRHI (Z.shiftl apicid 24) ;;
      lapicw ICRLO (Z.lor STARTUP (Z.shiftr addr 12)) ;;
      microdelay 200 ;;
      startup_ipis k apicid addr
  end.
Definition lapicstartap (apicid addr : Z) : M pc unit :=
  pc_outb CMOS_PORT 0xF ;;
  pc_outb (CMOS_PORT + 1) 0x0A ;;
  let wrv := KERNBASE + Z.lor (Z.shiftl 0x40 4) 0x67 in
  modify (fun s => set_pc_ram (store16 (pc_ram s) wrv 0) s) ;;
  modify (fun s => set_pc_ram (store16 (pc_ram s) (wrv + 2) (u16 (Z.shiftr addr 4))) s) ;;
  lapicw ICRHI (Z.shiftl apicid 24) ;;
  lapicw ICRLO (Z.lor INIT (Z.lor LEVEL ASSERT)) ;;
  microdelay 200 ;;
  lapicw ICRLO (Z.lor INIT LEVEL) ;;
  microdelay 100 ;;
  startup_ipis 2 apicid addr.

(** *** The clock *)

Definition CMOS_STATA : Z := 0x0a.
Definition CMOS_STATB : Z := 0x0b.
Definition CMOS_UIP : Z := Z.shiftl 1 7.
Definition SECS : Z := 0x00.
Definition MINS : Z := 0x02.
Definition HOURS : Z := 0x04.
Definition DAY : Z := 0x07.
Definition MONTH : Z := 0x08.
Definition YEAR : Z := 0x09.

(** The port [CMOS_RETURN] shows the register selected at [CMOS_PORT]. *)
Definition cmos_read (reg : Z) : M pc Z :=
  pc_outb CMOS_PORT reg ;;
  microdelay 200 ;;
  s <- get ;; put (tick s) ;; ret (u8 (cmos_in (ticks_read s) reg)).

Record rtcdate := Rtcdate { second : Z; minute : Z; hour : Z; day : Z; month : Z; year : Z }.

#[export] Instance rtcdate_eq_dec : EqDecision rtcdate.
Proof. solve_decision. Defined.

Definition fill_rtcdate : M pc rtcdate :=
  s <- cmos_read SECS ;;
  mi <- cmos_read MINS ;;
  h <- cmos_read HOURS ;;
  d <- cmos_read DAY ;;
  mo <- cmos_read MONTH ;;
  y <- cmos_read YEAR ;;
  ret (Rtcdate s mi h d mo y).

(** The [for(;;)] loop: two readings that agree, with no update in between. *)
Fixpoint cmos_loop (fuel : nat) : M pc rtcdate :=
  match fuel with
  | O => undef "cmostime: still reading"
  | S f =>
      t1 <- fill_rtcdate ;;
      a <- cmos_read CMOS_STATA ;;
      if negb (Z.land a CMOS_UIP =? 0) then cmos_loop f
      else
        t2 <- fill_rtcdate ;;
        if decide (t1 = t2) then ret t1 else cmos_loop f
  end.

(** [CONV]. *)
Definition CONV (x : Z) : Z := Z.shiftr x 4 * 10 + Z.land x 0xf.

Definition cmostime (fuel : nat) : M pc rtcdate :=
  sb <- cmos_read CMOS_STATB ;;
  let bcd := Z.land sb (Z.shiftl 1 2) =? 0 in
  t1 <- cmos_loop fuel ;;
  let t1 := if bcd then Rtcdate (CONV (second t1)) (CONV (minute t1)) (CONV (hour t1)) (CONV (day t1)) (CONV (month t1)) (CONV (year t1)) else t1 in
  ret (Rtcdate (second t1) (minute t1) (hour t1) (day t1) (month t1) (u32 (year t1 + 2000))).

(** ** uart.c *)

Definition COM1 : Z := 0x3f8.

(** The wait of [uartputc] before it sends. *)
Fixpoint uart_wait (k : nat) : M pc unit :=
  match k with
  | O => ret tt
  | S k =>
      v <- pc_inb (COM1 + 5) ;;
      if Z.land v 0x20 =? 0 then microdelay 10 ;; uart_wait k else ret tt
  end.
Definition uart_putc (c : Z) : M pc unit :=
  s <- get ;;
  if negb (have_uart s) then ret tt else uart_wait 128 ;; pc_outb COM1 c.
Fixpoint uart_puts (l : list Z) : M pc unit :=
  match l with
  | [] => ret tt
  | c :: l => uart_putc c ;; uart_puts l
  end.

Definition uartinit : M pc unit :=
  pc_outb (COM1 + 2) 0 ;;
  pc_outb (COM1 + 3) 0x80 ;;
  pc_outb (COM1 + 0) (115200 / 9600) ;;
  pc_outb (COM1 + 1) 0 ;;
  pc_outb (COM1 + 3) 0x03 ;;
  pc_outb (COM1 + 4) 0 ;;
  pc_outb (COM1 + 1) 0x01 ;;
  v <- pc_inb (COM1 + 5) ;;
  if v =? 0xFF then ret tt else
  modify (set_have_uart true) ;;
  pc_inb (COM1 + 2) ;;
  pc_inb (COM1 + 0) ;;
  ioapicenable IRQ_COM1 0 ;;
  uart_puts [120; 118; 54; 46; 46; 46; 10].

Definition uartgetc : M pc Z :=
  s <- get ;;
  if negb (have_uart s) then ret (-1)
  else
    v <- pc_inb (COM1 + 5) ;;
    if Z.land v 0x01 =? 0 then ret (-1) else pc_inb (COM1 + 0).

(** ** ide.c [ideinit] *)

(** [idewait(0)], and the probe for the second disk. *)
Fixpoint ide_ready (fuel : nat) : M pc unit :=
  v <- pc_inb 0x1f7 ;;
  if Z.land v 0xC0 =? 0x40 then ret tt
  else match fuel with
  | O => undef "idewait: still waiting"
  | S f => ide_ready f
  end.
Fixpoint ide_probe (k : nat) : M pc unit :=
  match k with
  | O => ret tt
  | S k =>
      v <- pc_inb 0x1f7 ;;
      if negb (v =? 0) then modify (set_havedisk1 true) else ide_probe k
  end.
Definition ideinit (fuel : nat) (ncpu : Z) : M pc unit :=
  ioapicenable IRQ_IDE (ncpu - 1) ;;
  ide_ready fuel ;;
  pc_outb 0x1f6 (Z.lor 0xe0 (Z.shiftl 1 4)) ;;
  ide_probe 1000 ;;
  pc_outb 0x1f6 (Z.lor 0xe0 (Z.shiftl 0 4)).

(** ** kshutdown.c *)

Definition shutdown : M pc unit := pc_outb 0x501 0x0.

End devices.

(** ** The redirection table *)

Section ioapic.
Context {H : Hardware}.

Lemma ioapicwrite_runs reg data cx s :
  ioapicwrite reg data cx s = Ret tt cx (set_ioapic reg (<[reg := u32 data]> (ioapic_regs s)) s).
Proof. done. Qed.

(** Entry [i] of the table: its configuration and its destination. *)
Definition redirection (s : pc) (i : Z) : Z * Z := (ioapic_regs s (REG_TABLE + 2 * i), ioapic_regs s (REG_TABLE + 2 * i + 1)).

(** [s'] is [s] but for the I/O APIC. *)
Definition only_ioapic (s s' : pc) : Prop := s' = set_ioapic (ioapic_reg s') (ioapic_regs s') s.

Lemma only_ioapic_trans s1 s2 s3 : only_ioapic s1 s2 -> only_ioapic s2 s3 -> only_ioapic s1 s3.
Proof. unfold only_ioapic. intros E2 E3. rewrite E3, E2. done. Qed.

(** Writing both halves of an entry. *)
Lemma write_entry_runs i lo hi cx s : exists s',
  (ioapicwrite (REG_TABLE + 2 * i) lo ;; ioapicwrite (REG_TABLE + 2 * i + 1) hi) cx s = Ret tt cx s' /\
  only_ioapic s s' /\ redirection s' i = (u32 lo, u32 hi) /\
  (forall j, j <> i -> redirection s' j = redirection s j) /\ forall r, r < REG_TABLE + 2 * i -> ioapic_regs s' r = ioapic_regs s r.
Proof.
  eexists. split; [erewrite bind_Ret by apply ioapicwrite_runs; apply ioapicwrite_runs|]. split; [done|].
  unfold redirection. cbn [set_ioapic ioapic_regs ioapic_reg]. split_and!.
  - rewrite (fn_lookup_insert_ne _ (REG_TABLE + 2 * i + 1)) by lia. by rewrite !fn_lookup_insert.
  - intros j N. by rewrite !fn_lookup_insert_ne by lia.
  - intros r Hr. by rewrite !fn_lookup_insert_ne by lia.
Qed.

Lemma ioapic_mask_runs k : forall i cx s, exists s', ioapic_mask k i cx s = Ret tt cx s' /\ only_ioapic s s' /\
  (forall j, i <= j < i + Z.of_nat k -> redirection s' j = (u32 (Z.lor INT_DISABLED (T_IRQ0 + j)), 0)) /\
  (forall j, j < i \/ i + Z.of_nat k <= j -> redirection s' j = redirection s j).
Proof.
  induction k as [|k IH]; intros i cx s.
  { exists s. split; [done|]. split; [by destruct s|]. split; [intros j; lia | done]. }
  destruct (write_entry_runs i (Z.lor INT_DISABLED (T_IRQ0 + i)) 0 cx s) as (s1 & R1 & O1 & E1 & F1 & _).
  destruct (IH (i + 1) cx s1) as (s2 & R2 & O2 & E2 & F2). exists s2. split.
  - cbn [ioapic_mask]. rewrite <- bind_assoc. erewrite bind_Ret by exact R1. exact R2.
  - split; [by eapply only_ioapic_trans|]. split.
    + intros j Hj. destruct (decide (j = i)) as [->|N]; [|apply E2; lia]. rewrite F2 by lia. by rewrite E1.
    + intros j Hj. rewrite F2, F1 by lia. done.
Qed.

(** [ioapicinit] masks every interrupt the I/O APIC has: each entry of the
    redirection table, as many as the version register says, is disabled, has
    the vector [T_IRQ0] plus its number, and goes to no processor; nothing but the
    I/O APIC is touched, except for a message when its id is not the expected one. *)
Theorem ioapicinit_masks_all ioapicid cx s : exists s',
  ioapicinit ioapicid cx s = Ret tt cx s' /\
  (forall i, 0 <= i <= Z.land (Z.shiftr (ioapic_regs s REG_VER) 16) 0xFF ->
     redirection s' i = (INT_DISABLED + T_IRQ0 + i, 0)) /\
  (forall i, Z.land (Z.shiftr (ioapic_regs s REG_VER) 16) 0xFF < i -> redirection s' i = redirection s i) /\
  outs s' = outs s /\ lapic_writes s' = lapic_writes s /\ pc_ram s' = pc_ram s /\
  said s' = said s ++ (if Z.shiftr (ioapic_regs s REG_ID) 24 =? ioapicid then [] else ["ioapicinit: id isn't equal to ioapicid; not a MP"%string]).
Proof.
  unfold ioapicinit. set (mx := Z.land _ _).
  assert (0 <= mx <= 255) as Hm.
  { unfold mx. change 0xFF with (Z.ones 8). rewrite Z.land_ones by lia. change (2 ^ 8) with 256. change (Z.ones 8) with 255.
    pose proof (Z.mod_pos_bound (Z.shiftr (ioapic_regs s REG_VER) 16) 256 ltac:(lia)). lia. }
  set (s1 := set_ioapic REG_ID (ioapic_regs s) s).
  set (s2 := if Z.shiftr (ioapic_regs s REG_ID) 24 =? ioapicid then s1 else say "ioapicinit: id isn't equal to ioapicid; not a MP" s1).
  destruct (ioapic_mask_runs (Z.to_nat (mx + 1)) 0 cx s2) as (s' & R & O & E & F).
  assert (forall i, redirection s2 i = redirection s i) as E0 by (intros i; unfold s2; by destruct (_ =? ioapicid)).
  exists s'. split.
  - mrun. unfold ioapicread. mrun. cbn [ioapic_regs ioapic_reg set_ioapic]. fold mx. fold s1.
    unfold s2 in R. destruct (_ =? ioapicid); cbn [negb]; mrun; exact R.
  - split; [|split].
    + intros i Hi. rewrite E by lia. f_equal.
      assert (Z.lor INT_DISABLED (T_IRQ0 + i) = INT_DISABLED + (T_IRQ0 + i)) as ->.
      { change INT_DISABLED with (Z.shiftl 1 16). rewrite Z.lor_comm, lor_disjoint_add by (unfold T_IRQ0; lia).
        change (Z.shiftl 1 16) with 65536. lia. }
      rewrite u32_small by (unfold INT_DISABLED, T_IRQ0; lia). lia.
    + intros i Hi. rewrite F by lia. apply E0.
    + rewrite O. unfold s2. destruct (_ =? ioapicid); cbn; rewrite ?app_nil_r; done.
Qed.

(** [ioapicenable] routes one interrupt and no other: the entry is enabled,
    with the vector trap.c expects for the interrupt and the processor as its
    destination; the other entries stay as they were. *)
Theorem ioapicenable_routes irq cpunum cx s : 0 <= irq < 224 -> 0 <= cpunum < 256 -> exists s',
  ioapicenable irq cpunum cx s = Ret tt cx s' /\ only_ioapic s s' /\
  redirection s' irq = (T_IRQ0 + irq, cpunum * 2 ^ 24) /\ forall j, j <> irq -> redirection s' j = redirection s j.
Proof.
  intros Hi Hc. destruct (write_entry_runs irq (T_IRQ0 + irq) (Z.shiftl cpunum 24) cx s) as (s' & R & O & E & F & _).
  exists s'. split; [exact R|]. split; [done|]. split; [|done]. rewrite E, Z.shiftl_mul_pow2 by lia.
  unfold T_IRQ0. rewrite !u32_small by lia. done.
Qed.
End ioapic.

(** ** The local APIC *)

Section lapic.
Context {H : Hardware}.

(** [s] after some reads and the writes [l] to the local APIC. *)
Definition wrote (l : list (Z * Z)) (n : nat) (s : pc) : pc :=
  Pc (n + ticks_read s) (outs s) (lapic s) (lapic_writes s ++ l) (ioapic_reg s) (ioapic_regs s) (pc_ram s) (have_uart s) (havedisk1 s) (said s).

Lemma lapicw_runs i v cx s : lapicw i v cx s = Ret tt cx (wrote [(i, u32 v)] 1 s).
Proof. done. Qed.

Lemma wrote_wrote l1 n1 l2 n2 s : wrote l2 n2 (wrote l1 n1 s) = wrote (l1 ++ l2) (n2 + n1) s.
Proof. unfold wrote. cbn. by rewrite app_assoc, Nat.add_assoc. Qed.

Lemma lapic_read_runs i cx s : lapic_read i cx s = Ret (u32 (lapic_in (ticks_read s) i)) cx (wrote [] 1 s).
Proof. unfold lapic_read. mrun. unfold wrote, tick. by rewrite app_nil_r. Qed.

(** The wait ends when the status bit is seen clear. *)
Lemma wait_delivered_runs k : forall fuel cx s, (k <= fuel)%nat ->
  Z.land (u32 (lapic_in (k + ticks_read s) ICRLO)) DELIVS = 0 ->
  exists n, wait_delivered fuel cx s = Ret tt cx (wrote [] n s).
Proof.
  induction k as [|k IH]; intros fuel cx s Hf He.
  - exists 1%nat. destruct fuel; cbn [wait_delivered]; erewrite bind_Ret by apply lapic_read_runs; cbn [Nat.add] in He; rewrite He; done.
  - destruct fuel as [|fuel]; [lia|]. cbn [wait_delivered]. erewrite bind_Ret by apply lapic_read_runs.
    destruct (_ =? 0); [by exists 1%nat|].
    destruct (IH fuel cx (wrote [] 1 s)) as [n R]; [lia | |].
    + cbn [ticks_read wrote]. by replace (k + (1 + ticks_read s))%nat with (S k + ticks_read s)%nat by lia.
    + rewrite R, wrote_wrote. by eexists.
Qed.

(** The value a register was given last. *)
Definition last_write (l : list (Z * Z)) (i : Z) : option Z :=
  snd <$> last (filter (fun w => fst w = i) l).

Lemma last_write_app l1 l2 i v : last_write l2 i = Some v -> last_write (l1 ++ l2) i = Some v.
Proof. unfold last_write. rewrite filter_app, last_app. by destruct (last (filter _ l2)). Qed.

(** The writes of [lapicinit], on a local APIC with or without the performance
    counter entry. *)
Definition init_writes (pcint : bool) : list (Z * Z) :=
  [(SVR, ENABLE + T_IRQ0 + IRQ_SPURIOUS); (TDCR, X1); (TIMER, PERIODIC + T_IRQ0 + IRQ_TIMER); (TICR, 10000000);
   (LINT0, MASKED); (LINT1, MASKED)] ++ (if pcint then [(PCINT, MASKED)] else []) ++
  [(ERROR, T_IRQ0 + IRQ_ERROR); (ESR, 0); (ESR, 0); (EOI, 0); (ICRHI, 0); (ICRLO, BCAST + INIT + LEVEL); (TPR, 0)].

Lemma lapicinit_runs fuel k cx s : lapic s <> 0 -> (k <= fuel)%nat ->
  (forall t, (k + ticks_read s <= t)%nat -> Z.land (u32 (lapic_in t ICRLO)) DELIVS = 0) ->
  exists n pcint, lapicinit fuel cx s = Ret tt cx (wrote (init_writes pcint) n s).
Proof.
  intros Hl Hk Hw. unfold lapicinit. mstep. rewrite (proj2 (Z.eqb_neq _ _) Hl).
  do 6 (erewrite bind_Ret by apply lapicw_runs). erewrite bind_Ret by apply lapic_read_runs. rewrite !wrote_wrote.
  destruct (4 <=? _); [erewrite bind_Ret by apply lapicw_runs|mstep];
    do 6 (erewrite bind_Ret by apply lapicw_runs); rewrite !wrote_wrote;
    match goal with |- context [wait_delivered fuel] =>
      edestruct (wait_delivered_runs k fuel cx) as [n R]; [done | |erewrite bind_Ret by exact R] end.
  1, 3: apply Hw; cbn [ticks_read wrote]; lia.
  all: rewrite lapicw_runs, !wrote_wrote; eexists.
  - by exists true.
  - by exists false.
Qed.

(** [lapicinit] leaves the local APIC of a processor running: enabled, with
    the spurious vector, a periodic timer on vector [T_IRQ0] with a count of ten
    million, both local lines masked, errors on [IRQ_ERROR], every priority
    accepted; it returns once the INIT message is delivered, and does nothing
    when there is no local APIC. *)
Theorem lapicinit_enables fuel k cx s :
  (k <= fuel)%nat -> (forall t, (k + ticks_read s <= t)%nat -> Z.land (u32 (lapic_in t ICRLO)) DELIVS = 0) ->
  exists s', lapicinit fuel cx s = Ret tt cx s' /\ (lapic s = 0 -> s' = s) /\
  (lapic s <> 0 -> exists n l, s' = wrote l n s /\
     last_write l SVR = Some (0x100 + 63) /\ last_write l TIMER = Some (0x20000 + 32) /\ last_write l TICR = Some 10000000 /\
     last_write l LINT0 = Some MASKED /\ last_write l LINT1 = Some MASKED /\ last_write l ERROR = Some (32 + 19) /\
     last_write l EOI = Some 0 /\ last l = Some (TPR, 0)).
Proof.
  intros Hk Hw. destruct (decide (lapic s = 0)) as [E|E].
  - exists s. split; [|done]. unfold lapicinit. mstep. by rewrite E.
  - destruct (lapicinit_runs fuel k cx s E Hk Hw) as (n & b & R). exists (wrote (init_writes b) n s).
    split; [done|]. split; [done|]. intros _. exists n, (init_writes b). split; [done|].
    destruct b; vm_compute; split_and!; reflexivity.
Qed.

(** [lapicstartap] with its addresses: where the warm reset vector points and where
    the STARTUP message makes the processor start. *)
Definition reset_vector (m : mem) : Z :=
  let a := KERNBASE + 0x467 in (m (a + 2) + 2 ^ 8 * m (a + 3)) * 16 + (m a + 2 ^ 8 * m (a + 1)).

Lemma startup_runs k apicid addr : forall cx s, startup_ipis k apicid addr cx s =
  Ret tt cx (wrote (concat (replicate k [(ICRHI, u32 (Z.shiftl apicid 24)); (ICRLO, u32 (Z.lor STARTUP (Z.shiftr addr 12)))])) (2 * k) s).
Proof.
  induction k as [|k IH]; intros cx s; cbn [startup_ipis replicate concat].
  - unfold ret, wrote. rewrite app_nil_r. by destruct s.
  - do 2 (erewrite bind_Ret by apply lapicw_runs). unfold microdelay. mstep. rewrite IH, !wrote_wrote.
    do 2 f_equal. lia.
Qed.

(** [lapicstartap] sends one processor to the entry code: an INIT message and
    its release, then two STARTUP messages, all to the processor with that APIC
    id; the STARTUP vector and the warm reset vector in low memory both name
    the address of the code. *)
Theorem lapicstartap_starts apicid addr cx s :
  0 <= apicid < 256 -> 0 <= addr < 2 ^ 20 -> addr mod 4096 = 0 ->
  exists s', lapicstartap apicid addr cx s = Ret tt cx s' /\ reset_vector (pc_ram s') = addr /\
    (forall x, ~ (KERNBASE + 0x467 <= x < KERNBASE + 0x46b) -> pc_ram s' x = pc_ram s x) /\
    outs s' = outs s ++ [(CMOS_PORT, 0xF); (CMOS_RETURN, 0x0A)] /\
    lapic_writes s' = lapic_writes s ++
      [(ICRHI, apicid * 2 ^ 24); (ICRLO, INIT + LEVEL + ASSERT); (ICRLO, INIT + LEVEL);
       (ICRHI, apicid * 2 ^ 24); (ICRLO, STARTUP + addr / 4096); (ICRHI, apicid * 2 ^ 24); (ICRLO, STARTUP + addr / 4096)].
Proof.
  intros Ha Hd Hm. unfold lapicstartap, pc_outb. do 4 mstep.
  do 2 (erewrite bind_Ret by apply lapicw_runs). unfold microdelay. mstep. erewrite bind_Ret by apply lapicw_runs. mstep.
  rewrite startup_runs, !wrote_wrote. eexists. split; [reflexivity|].
  assert (Z.lor STARTUP (Z.shiftr addr 12) = STARTUP + addr / 4096) as ->.
  { rewrite Z.shiftr_div_pow2 by lia. change (2 ^ 12) with 4096. change STARTUP with (Z.shiftl 6 8).
    rewrite Z.lor_comm, lor_disjoint_add by word_lia. change (Z.shiftl 6 8) with 1536. lia. }
  rewrite Z.shiftl_mul_pow2 by lia. cbn [pc_ram outs lapic_writes wrote set_pc_ram set_outs]. split_and!.
  - unfold reset_vector, store16, upd. change (KERNBASE + Z.lor (Z.shiftl 0x40 4) 0x67) with 0x80000467.
    change (KERNBASE + 0x467) with 0x80000467. rewrite !Z.eqb_refl, !(proj2 (Z.eqb_neq _ _)) by lia.
    rewrite Z.shiftr_div_pow2 by lia. change (2 ^ 4) with 16. change (2 ^ 20) with 1048576 in *. word_lia.
  - intros x Hx. unfold store16, upd. change (KERNBASE + Z.lor (Z.shiftl 0x40 4) 0x67) with 0x80000467.
    unfold KERNBASE in Hx. rewrite !(proj2 (Z.eqb_neq x _)) by lia. done.
  - by rewrite <- app_assoc.
  - f_equal. unfold INIT, LEVEL, ASSERT, STARTUP. rewrite (u32_small (apicid * 2 ^ 24)), (u32_small (0x600 + addr / 4096)) by word_lia. reflexivity.
Qed.
End lapic.

(** ** The clock *)

Section clock.
Context {H : Hardware}.

(** [s] after [n] reads of the CMOS, whose registers were selected in turn. *)
Definition selected (l : list Z) (s : pc) : pc :=
  Pc (length l + ticks_read s) (outs s ++ ((fun r => (CMOS_PORT, u8 r)) <$> l)) (lapic s) (lapic_writes s) (ioapic_reg s)
    (ioapic_regs s) (pc_ram s) (have_uart s) (havedisk1 s) (said s).

Lemma cmos_read_runs r cx s : cmos_read r cx s = Ret (u8 (cmos_in (ticks_read s) r)) cx (selected [r] s).
Proof. done. Qed.

Lemma selected_selected l1 l2 s : selected l2 (selected l1 s) = selected (l1 ++ l2) s.
Proof. unfold selected. cbn. rewrite length_app, fmap_app, app_assoc. f_equal. lia. Qed.

Definition date_regs : list Z := [SECS; MINS; HOURS; DAY; MONTH; YEAR].

(** A binary-coded decimal number. *)
Definition bcd (n : Z) : Z := 16 * (n / 10) + n mod 10.

Lemma CONV_bcd n : 0 <= n < 100 -> CONV (bcd n) = n.
Proof.
  intros Hn. unfold CONV. rewrite Z.shiftr_div_pow2 by lia. change 0xf with (Z.ones 4). rewrite Z.land_ones by lia.
  change (2 ^ 4) with 16. unfold bcd. word_lia.
Qed.

(** The clock stands at the date [d] from now on, in the coding that status
    register B tells, and is not being updated. *)
Definition shows_date (s : pc) (d : rtcdate) (coded : Z -> Z) : Prop :=
  forall t, (ticks_read s <= t)%nat ->
    cmos_in t SECS = coded (second d) /\ cmos_in t MINS = coded (minute d) /\ cmos_in t HOURS = coded (hour d) /\
    cmos_in t DAY = coded (day d) /\ cmos_in t MONTH = coded (month d) /\ cmos_in t YEAR = coded (year d) /\
    Z.land (u8 (cmos_in t CMOS_STATA)) CMOS_UIP = 0.

Definition map_date (f : Z -> Z) (d : rtcdate) : rtcdate :=
  Rtcdate (f (second d)) (f (minute d)) (f (hour d)) (f (day d)) (f (month d)) (f (year d)).

Lemma fill_runs d coded cx s : shows_date s d coded ->
  fill_rtcdate cx s = Ret (map_date (fun x => u8 (coded x)) d) cx (selected date_regs s).
Proof.
  intros Hd. unfold fill_rtcdate. do 6 (erewrite bind_Ret by apply cmos_read_runs). rewrite !selected_selected.
  unfold ret, map_date. cbn [ticks_read selected app length Nat.add].
  destruct (Hd (ticks_read s)) as (-> & _); [lia|]. destruct (Hd (S (ticks_read s))) as (_ & -> & _); [lia|].
  destruct (Hd (S (S (ticks_read s)))) as (_ & _ & -> & _); [lia|]. destruct (Hd (S (S (S (ticks_read s))))) as (_ & _ & _ & -> & _); [lia|].
  destruct (Hd (S (S (S (S (ticks_read s)))))) as (_ & _ & _ & _ & -> & _); [lia|].
  by destruct (Hd (S (S (S (S (S (ticks_read s))))))) as (_ & _ & _ & _ & _ & -> & _); [lia|].
Qed.

Lemma shows_selected s d coded l : shows_date s d coded -> shows_date (selected l s) d coded.
Proof. intros Hd t Ht. apply Hd. cbn [ticks_read selected] in Ht. lia. Qed.

(** [cmostime] reads the clock: when the clock stands at a date, in decimal or
    binary coding as its status register B says, the result is that date with
    the year counted from 2000, after one round of the loop. *)
Theorem cmostime_reads_clock fuel d cx s :
  (forall x, In x [second d; minute d; hour d; day d; month d; year d] -> 0 <= x < 100) ->
  (forall t, (ticks_read s <= t)%nat -> cmos_in t CMOS_STATB = cmos_in 0 CMOS_STATB) ->
  shows_date s d (if Z.land (u8 (cmos_in 0 CMOS_STATB)) 4 =? 0 then bcd else id) ->
  exists s', cmostime (S fuel) cx s = Ret (Rtcdate (second d) (minute d) (hour d) (day d) (month d) (year d + 2000)) cx s'.
Proof.
  intros Hr Hb Hd. unfold cmostime. erewrite bind_Ret by apply cmos_read_runs. rewrite Hb by lia.
  change (Z.shiftl 1 2) with 4. set (is_bcd := Z.land _ 4 =? 0) in *. set (coded := if is_bcd then bcd else id) in *.
  assert (forall x, 0 <= x < 100 -> u8 (coded x) = coded x) as Hsmall.
  { intros x Hx. apply u8_small. unfold coded, bcd. destruct is_bcd; [word_lia | cbn; lia]. }
  cbn [cmos_loop]. rewrite bind_assoc. erewrite bind_Ret by (apply fill_runs, shows_selected, Hd).
  rewrite bind_assoc. erewrite bind_Ret by apply cmos_read_runs.
  destruct (Hd (ticks_read (selected date_regs (selected [CMOS_STATB] s)))) as (_ & _ & _ & _ & _ & _ & ->);
    [cbn [ticks_read selected]; lia|]. cbn [Z.eqb negb].
  rewrite bind_assoc. erewrite bind_Ret by (apply fill_runs, shows_selected, shows_selected, shows_selected, Hd).
  rewrite decide_True by done. mstep. eexists. unfold ret. f_equal.
  unfold map_date. cbn [second minute hour day month year]. rewrite !Hsmall by (apply Hr; cbn; tauto).
  pose proof (Hr (year d) ltac:(cbn; tauto)). unfold coded.
  destruct is_bcd; cbn [second minute hour day month year].
  - rewrite !CONV_bcd by (apply Hr; cbn; tauto). by rewrite u32_small by lia.
  - unfold id. by rewrite u32_small by lia.
Qed.
End clock.

(** ** The serial port *)

Section serial.
Context {H : Hardware}.

Lemma pc_inb_runs p cx s : pc_inb p cx s = Ret (u8 (port_in (ticks_read s) p)) cx (tick s).
Proof. done. Qed.

Lemma pc_outb_runs p v cx s : pc_outb p v cx s = Ret tt cx (set_outs (outs s ++ [(p, u8 v)]) s).
Proof. done. Qed.

Lemma uart_wait_runs k : forall cx s, exists n, uart_wait k cx s = Ret tt cx (Nat.iter n tick s) /\ (n <= k)%nat.
Proof.
  induction k as [|k IH]; intros cx s; cbn [uart_wait].
  { exists 0%nat. done. }
  unfold pc_inb. mrun. destruct (_ =? 0).
  - unfold microdelay. mstep. destruct (IH cx (tick s)) as (n & R & Hn). exists (S n). rewrite R.
    split; [by rewrite Nat.iter_succ_r | lia].
  - exists 1%nat. split; [done | lia].
Qed.

Lemma iter_tick n s : outs (Nat.iter n tick s) = outs s /\ have_uart (Nat.iter n tick s) = have_uart s /\
  ioapic_regs (Nat.iter n tick s) = ioapic_regs s.
Proof. induction n as [|n IH]; [done|]. cbn. exact IH. Qed.

Lemma uart_puts_runs l : forall cx s, have_uart s = true -> exists s', uart_puts l cx s = Ret tt cx s' /\
  outs s' = outs s ++ ((fun c => (COM1, u8 c)) <$> l) /\ have_uart s' = true /\ ioapic_regs s' = ioapic_regs s.
Proof.
  induction l as [|c l IH]; intros cx s Hu; cbn [uart_puts].
  { exists s. by rewrite app_nil_r. }
  destruct (uart_wait_runs 128 cx s) as (n & R & _). destruct (iter_tick n s) as (E1 & E2 & E3).
  set (s1 := set_outs (outs (Nat.iter n tick s) ++ [(COM1, u8 c)]) (Nat.iter n tick s)).
  assert (uart_putc c cx s = Ret tt cx s1) as Rc.
  { unfold uart_putc. mstep. rewrite Hu. cbn [negb]. erewrite bind_Ret by exact R. done. }
  destruct (IH cx s1) as (s2 & R2 & O2 & U2 & I2); [cbn; by rewrite E2|].
  exists s2. erewrite bind_Ret by exact Rc. split; [exact R2|]. rewrite O2, I2. cbn. rewrite E1, E3, <- app_assoc. done.
Qed.

(** [uartinit] sets the line to 9600 baud (divisor 12) and 8 data bits with the
    receive interrupt on, and looks for a port.  Without one nothing else
    happens; with one its interrupt is routed to processor 0 and the message
    xv6... is sent, so that from then on [uartputc] and [uartgetc] work. *)
Theorem uartinit_sets_up cx s :
  let set := [(COM1 + 2, 0); (COM1 + 3, 0x80); (COM1, 12); (COM1 + 1, 0); (COM1 + 3, 3); (COM1 + 4, 0); (COM1 + 1, 1)] in
  exists s', uartinit cx s = Ret tt cx s' /\
  if u8 (port_in (ticks_read s) (COM1 + 5)) =? 0xFF
  then outs s' = outs s ++ set /\ have_uart s' = have_uart s /\ ioapic_regs s' = ioapic_regs s
  else outs s' = outs s ++ set ++ ((fun c => (COM1, c)) <$> [120; 118; 54; 46; 46; 46; 10]) /\ have_uart s' = true /\
    redirection s' IRQ_COM1 = (T_IRQ0 + IRQ_COM1, 0) /\ forall j, j <> IRQ_COM1 -> redirection s' j = redirection s j.
Proof.
  intros set. unfold uartinit. do 7 (erewrite bind_Ret by apply pc_outb_runs). erewrite bind_Ret by apply pc_inb_runs.
  set (s1 := set_outs _ _).
  assert (outs s1 = outs s ++ set) as E1 by (unfold s1; cbn [outs set_outs]; rewrite <- !app_assoc; done).
  assert (ticks_read s1 = ticks_read s /\ have_uart s1 = have_uart s /\ ioapic_regs s1 = ioapic_regs s) as (-> & U1 & I1) by done.
  clearbody s1. destruct (_ =? 0xFF).
  - exists (tick s1). done.
  - mstep. do 2 (erewrite bind_Ret by apply pc_inb_runs). set (s2' := tick _).
    assert (outs s2' = outs s1 /\ have_uart s2' = true /\ ioapic_regs s2' = ioapic_regs s1) as (E2' & U2' & I2') by done. clearbody s2'.
    destruct (write_entry_runs IRQ_COM1 (T_IRQ0 + IRQ_COM1) (Z.shiftl 0 24) cx s2') as (s2 & R2 & O2 & E2 & F2 & _).
    erewrite bind_Ret by exact R2.
    destruct (uart_puts_runs [120; 118; 54; 46; 46; 46; 10] cx s2) as (s3 & R3 & O3 & U3 & I3); [by rewrite O2|].
    exists s3. split; [exact R3|]. rewrite O3, O2. cbn [outs set_ioapic]. rewrite E2', E1, <- app_assoc. split; [done|]. split; [done|].
    assert (forall j, redirection s3 j = redirection s2 j) as Er by (intros j; unfold redirection; by rewrite I3).
    split; [by rewrite Er, E2|]. intros j Hj. rewrite Er, F2 by done. unfold redirection. by rewrite I2', I1.
Qed.
End serial.
