(* ===== verification/Seg.v ===== *)
(** mmu.h, [seginit] and [switchuvm] of vm.c, [tvinit] of trap.c and [entrypgdir]
    of main.c: the tables that tell the processor about segments, interrupt
    entries, the kernel stack and the first page directory.

    Descriptors are structures of bit fields; [pack] lays them out as the
    compiler does, low bits first, and the [cpu_] functions read the 64-bit
    value the way the processor does. *)

From stdpp Require Import base numbers list strings.
From S2P Require Import Xv6 Prelude Trap.

(** ** Bit fields *)

(** Fields with their widths; storing a value in a field cuts it off. *)
Fixpoint pack (fs : list (Z * Z)) : Z :=
  match fs with
  | [] => 0
  | (w, v) :: fs => v mod 2 ^ w + 2 ^ w * pack fs
  end.

(** The [w] bits of [x] from bit [o] on. *)
Definition bits (x o w : Z) : Z := (x / 2 ^ o) mod 2 ^ w.

(** ** Segment descriptors *)

Definition SEG_KCODE : Z := 1.
Definition SEG_KDATA : Z := 2.
Definition SEG_UCODE : Z := 3.
Definition SEG_UDATA : Z := 4.
Definition SEG_TSS : Z := 5.
Definition NSEGS : nat := 6.
Definition DPL_USER : Z := 3.
Definition STA_X : Z := 8.
Definition STA_W : Z := 2.
Definition STA_R : Z := 2.
Definition STS_T32A : Z := 0x9.
Definition STS_IG32 : Z := 0xE.
Definition STS_TG32 : Z := 0xF.

Record segdesc := Segdesc {
  lim_15_0 : Z; base_15_0 : Z; base_23_16 : Z; sd_type : Z; sd_s : Z; sd_dpl : Z; sd_p : Z;
  lim_19_16 : Z; sd_avl : Z; sd_rsv1 : Z; sd_db : Z; sd_g : Z; base_31_24 : Z }.

Definition set_sd_s s (d : segdesc) : segdesc :=
  Segdesc (lim_15_0 d) (base_15_0 d) (base_23_16 d) (sd_type d) s (sd_dpl d) (sd_p d)
    (lim_19_16 d) (sd_avl d) (sd_rsv1 d) (sd_db d) (sd_g d) (base_31_24 d).

Definition segdesc_fields (d : segdesc) : list (Z * Z) :=
  [(16, lim_15_0 d); (16, base_15_0 d); (8, base_23_16 d); (4, sd_type d); (1, sd_s d); (2, sd_dpl d); (1, sd_p d);
   (4, lim_19_16 d); (1, sd_avl d); (1, sd_rsv1 d); (1, sd_db d); (1, sd_g d); (8, base_31_24 d)].

Definition SEG (type base lim dpl : Z) : segdesc :=
  Segdesc (Z.land (Z.shiftr lim 12) 0xffff) (Z.land base 0xffff) (Z.land (Z.shiftr base 16) 0xff) type 1 dpl 1
    (Z.shiftr lim 28) 0 0 1 1 (Z.shiftr base 24).
Definition SEG16 (type base lim dpl : Z) : segdesc :=
  Segdesc (Z.land lim 0xffff) (Z.land base 0xffff) (Z.land (Z.shiftr base 16) 0xff) type 1 dpl 1
    (Z.shiftr lim 16) 0 0 1 0 (Z.shiftr base 24).

(** What the processor takes from a descriptor. *)
Definition cpu_base (x : Z) : Z := bits x 16 24 + 2 ^ 24 * bits x 56 8.
Definition cpu_limit (x : Z) : Z :=
  let l := bits x 0 16 + 2 ^ 16 * bits x 48 4 in
  if bits x 55 1 =? 1 then 4096 * l + 4095 else l.
Definition cpu_type (x : Z) : Z := bits x 40 4.
Definition cpu_s (x : Z) : Z := bits x 44 1.
Definition cpu_dpl (x : Z) : Z := bits x 45 2.
Definition cpu_present (x : Z) : bool := bits x 47 1 =? 1.

(** ** Gates *)

Record gatedesc := Gatedesc {
  off_15_0 : Z; gd_cs : Z; gd_args : Z; gd_rsv1 : Z; gd_type : Z; gd_s : Z; gd_dpl : Z; gd_p : Z; off_31_16 : Z }.

Definition gatedesc_fields (g : gatedesc) : list (Z * Z) :=
  [(16, off_15_0 g); (16, gd_cs g); (5, gd_args g); (3, gd_rsv1 g); (4, gd_type g); (1, gd_s g); (2, gd_dpl g); (1, gd_p g);
   (16, off_31_16 g)].

Definition SETGATE (istrap : bool) (sel off d : Z) : gatedesc :=
  Gatedesc (Z.land off 0xffff) sel 0 0 (if istrap then STS_TG32 else STS_IG32) 0 d 1 (Z.shiftr off 16).

Definition gate_offset (x : Z) : Z := bits x 0 16 + 2 ^ 16 * bits x 48 16.
Definition gate_selector (x : Z) : Z := bits x 16 16.
Definition gate_type (x : Z) : Z := bits x 40 4.
Definition gate_dpl (x : Z) : Z := bits x 45 2.
Definition gate_present (x : Z) : bool := bits x 47 1 =? 1.

(** ** trap.c *)

(** The loop of [tvinit] over the first [k] entries. *)
Fixpoint set_gates (k : nat) (vectors : nat -> Z) (idt : list gatedesc) : list gatedesc :=
  match k with
  | O => idt
  | S k => <[k := SETGATE false (Z.shiftl SEG_KCODE 3) (vectors k) 0]> (set_gates k vectors idt)
  end.
Definition tvinit (vectors : nat -> Z) (idt : list gatedesc) : list gatedesc :=
  <[Z.to_nat T_SYSCALL := SETGATE true (Z.shiftl SEG_KCODE 3) (vectors (Z.to_nat T_SYSCALL)) DPL_USER]>
    (set_gates 256 vectors idt).

(** ** vm.c *)

(** The fields of [struct taskstate] the kernel sets. *)
Record taskstate := Taskstate { ts_esp0 : Z; ts_ss0 : Z; ts_cr3 : Z; ts_iomb : Z }.
Definition sizeof_taskstate : Z := 104.

(** What a processor is given: its descriptor table, its task state and the
    registers [lgdt], [ltr] and [lcr3] load. *)
Record segs := Segs { gdt : list segdesc; ts : taskstate; gdtr : option Z; tr : Z; cr3 : Z }.

Definition set_gdt g (s : segs) : segs := Segs g (ts s) (gdtr s) (tr s) (cr3 s).

Definition seginit (s : segs) : segs :=
  let g := <[Z.to_nat SEG_KCODE := SEG (Z.lor STA_X STA_R) 0 0xffffffff 0]> (gdt s) in
  let g := <[Z.to_nat SEG_KDATA := SEG STA_W 0 0xffffffff 0]> g in
  let g := <[Z.to_nat SEG_UCODE := SEG (Z.lor STA_X STA_R) 0 0xffffffff DPL_USER]> g in
  let g := <[Z.to_nat SEG_UDATA := SEG STA_W 0 0xffffffff DPL_USER]> g in
  Segs g (ts s) (Some (8 * Z.of_nat (length g))) (tr s) (cr3 s).

(** [switchuvm] of a process with kernel stack [kstack] and page directory
    [pgdir] on the processor whose task state is at [tsaddr]. *)
Definition switchuvm_cpu (tsaddr kstack pgdir : Z) : M segs unit :=
  if kstack =? 0 then panic "switchuvm: no kstack"
  else if pgdir =? 0 then panic "switchuvm: no pgdir"
  else
    modify (fun s => set_gdt (<[Z.to_nat SEG_TSS := SEG16 STS_T32A tsaddr (sizeof_taskstate - 1) 0]> (gdt s)) s) ;;
    modify (fun s => set_gdt (alter (set_sd_s 0) (Z.to_nat SEG_TSS) (gdt s)) s) ;;
    modify (fun s => Segs (gdt s) (Taskstate (u32 (kstack + KSTACKSIZE)) (Z.shiftl SEG_KDATA 3) (ts_cr3 (ts s)) 0xFFFF)
      (gdtr s) (Z.shiftl SEG_TSS 3) (cr3 s)) ;;
    if pgdir <? KERNBASE then panic "V2P on address < KERNBASE"
    else modify (fun s => Segs (gdt s) (ts s) (gdtr s) (tr s) (pgdir - KERNBASE)).

(** ** main.c *)

Definition PTE_PS : Z := 0x080.
Definition PDXSHIFT : Z := 22.
Definition entrypgdir : list Z :=
  let pde := Z.lor 0 (Z.lor 1 (Z.lor 2 PTE_PS)) in
  <[Z.to_nat (Z.shiftr KERNBASE PDXSHIFT) := pde]> (<[0%nat := pde]> (replicate 1024 0)).

(** The processor's translation through a directory of 4-megabyte pages. *)
Definition big_page (pgdir : list Z) (va : Z) : option Z :=
  let pde := default 0 (pgdir !! Z.to_nat (va / 2 ^ 22)) in
  if (bits pde 0 1 =? 1) && (bits pde 7 1 =? 1) then Some (2 ^ 22 * bits pde 22 10 + va mod 2 ^ 22) else None.

(** ** Reading fields back *)

(** A field is read at the sum of the widths before it. *)
Lemma bits_pack_here w v fs o : o = 0 -> 0 <= w -> bits (pack ((w, v) :: fs)) o w = v mod 2 ^ w.
Proof.
  intros -> Hw. unfold bits. cbn [pack]. rewrite Z.pow_0_r, Z.div_1_r.
  rewrite (Z.mul_comm (2 ^ w)), Z_mod_plus_full, Z.mod_mod; lia.
Qed.

Lemma bits_pack_there w v fs o k : 0 <= w <= o -> bits (pack ((w, v) :: fs)) o k = bits (pack fs) (o - w) k.
Proof.
  intros Hw. unfold bits. cbn [pack]. replace (2 ^ o) with (2 ^ w * 2 ^ (o - w)) by (rewrite <- Z.pow_add_r by lia; f_equal; lia).
  rewrite <- Z.div_div by lia. rewrite (Z.mul_comm (2 ^ w)), Z.div_add by lia.
  rewrite (Z.div_small (v mod _)) by (apply Z.mod_pos_bound; lia). done.
Qed.

(** Two neighbouring fields read as one. *)
Lemma bits_pack_two w1 v1 w2 v2 fs o k : o = 0 -> k = w1 + w2 -> 0 <= w1 -> 0 <= w2 ->
  bits (pack ((w1, v1) :: (w2, v2) :: fs)) o k = v1 mod 2 ^ w1 + 2 ^ w1 * (v2 mod 2 ^ w2).
Proof.
  intros -> -> H1 H2. unfold bits. cbn [pack]. rewrite Z.pow_0_r, Z.div_1_r, Z.pow_add_r by lia.
  replace (v1 mod 2 ^ w1 + 2 ^ w1 * (v2 mod 2 ^ w2 + 2 ^ w2 * pack fs))
    with (v1 mod 2 ^ w1 + 2 ^ w1 * (v2 mod 2 ^ w2) + pack fs * (2 ^ w1 * 2 ^ w2)) by lia.
  rewrite Z_mod_plus_full. apply Z.mod_small.
  pose proof (Z.mod_pos_bound v1 (2 ^ w1) ltac:(lia)). pose proof (Z.mod_pos_bound v2 (2 ^ w2) ltac:(lia)). nia.
Qed.

(** Reads a field of a packed structure. *)
Ltac read_field := repeat rewrite bits_pack_there by lia; first [rewrite bits_pack_here by lia | rewrite bits_pack_two by lia].

(** The high and low parts of a 32-bit value. *)
Lemma land_low x : Z.land x 0xffff = x mod 2 ^ 16.
Proof. change 0xffff with (Z.ones 16). by apply Z.land_ones. Qed.
Lemma land_byte x : Z.land x 0xff = x mod 2 ^ 8.
Proof. change 0xff with (Z.ones 8). by apply Z.land_ones. Qed.

(** a descriptor built by [SEG] says to the processor what was asked for: the
    base, the limit when it ends a page, the type and the privilege level, for
    any 32-bit base and limit. *)
Theorem SEG_describes type base lim dpl :
  0 <= type < 16 -> 0 <= base < 2 ^ 32 -> 0 <= lim < 2 ^ 32 -> lim mod 4096 = 4095 -> 0 <= dpl < 4 ->
  let x := pack (segdesc_fields (SEG type base lim dpl)) in
  cpu_base x = base /\ cpu_limit x = lim /\ cpu_type x = type /\ cpu_s x = 1 /\ cpu_dpl x = dpl /\ cpu_present x = true.
Proof.
  intros Ht Hb Hl Hm Hd. cbv zeta. unfold cpu_base, cpu_limit, cpu_type, cpu_s, cpu_dpl, cpu_present, SEG, segdesc_fields.
  cbn [lim_15_0 base_15_0 base_23_16 sd_type sd_s sd_dpl sd_p lim_19_16 sd_avl sd_rsv1 sd_db sd_g base_31_24].
  rewrite land_byte, !land_low, !Z.shiftr_div_pow2 by lia.
  split_and!; repeat read_field; try done.
  - change (2 ^ 24) with 16777216. word_lia.
  - change (1 mod 2 ^ 1 =? 1) with true. cbn iota. change (2 ^ 12) with 4096. change (2 ^ 28) with 268435456. change (2 ^ 4) with 16. word_lia.
  - apply Z.mod_small. lia.
  - apply Z.mod_small. lia.
Qed.

(** a gate built by [SETGATE] sends the processor to the handler: any 32-bit
    offset, the selector, and the privilege level are read back; trap gates are
    told from interrupt gates by the type. *)
Theorem SETGATE_describes istrap sel off d :
  0 <= sel < 2 ^ 16 -> 0 <= off < 2 ^ 32 -> 0 <= d < 4 ->
  let x := pack (gatedesc_fields (SETGATE istrap sel off d)) in
  gate_offset x = off /\ gate_selector x = sel /\ gate_dpl x = d /\ gate_present x = true /\
  gate_type x = if istrap then STS_TG32 else STS_IG32.
Proof.
  intros Hs Ho Hd. cbv zeta. unfold gate_offset, gate_selector, gate_dpl, gate_present, gate_type, SETGATE, gatedesc_fields.
  cbn [off_15_0 gd_cs gd_args gd_rsv1 gd_type gd_s gd_dpl gd_p off_31_16].
  rewrite !land_low, !Z.shiftr_div_pow2 by lia. split_and!; repeat read_field; try done.
  - word_lia.
  - apply Z.mod_small. lia.
  - apply Z.mod_small. lia.
  - by destruct istrap.
Qed.

Lemma set_gates_lookup k vectors idt i : (k <= length idt)%nat ->
  set_gates k vectors idt !! i = if decide (i < k)%nat then Some (SETGATE false 8 (vectors i) 0) else idt !! i.
Proof.
  intros Hk. induction k as [|k IH]; [done|]. cbn [set_gates].
  assert (length (set_gates k vectors idt) = length idt) as Hl.
  { clear. induction k as [|k IHk]; [done|]. cbn [set_gates]. by rewrite length_insert. }
  destruct (decide (i = k)) as [->|N].
  - rewrite list_lookup_insert_eq, decide_True by lia. done.
  - rewrite list_lookup_insert_ne, IH by lia. destruct (decide (i < k)%nat), (decide (i < S k)%nat); done || lia.
Qed.

(** the interrupt table of [tvinit].  Every vector enters the kernel, through the
    kernel's code segment, at its entry of [vectors]; the system call vector is
    the only one an [int] instruction of user code may use, and the only one that
    leaves interrupts on. *)
Theorem tvinit_guards_entries vectors idt n :
  length idt = 256%nat -> (forall i, 0 <= vectors i < 2 ^ 32) -> (n < 256)%nat ->
  exists g, tvinit vectors idt !! n = Some g /\
  let x := pack (gatedesc_fields g) in
  gate_present x = true /\ gate_selector x = 8 /\ gate_offset x = vectors n /\
  (gate_dpl x = DPL_USER <-> Z.of_nat n = T_SYSCALL) /\ (gate_type x = STS_TG32 <-> Z.of_nat n = T_SYSCALL).
Proof.
  intros Hl Hv Hn. unfold tvinit. change (Z.to_nat T_SYSCALL) with 64%nat. change (Z.shiftl SEG_KCODE 3) with 8. unfold T_SYSCALL.
  destruct (decide (n = 64%nat)) as [->|N].
  - eexists. split; [apply list_lookup_insert_eq; apply lookup_lt_is_Some; rewrite set_gates_lookup by lia; by eexists|].
    destruct (SETGATE_describes true 8 (vectors 64%nat) DPL_USER) as (E1 & E2 & E3 & E4 & E5); [lia | done | done|].
    cbv zeta in *. rewrite E1, E2, E3, E4, E5. split_and!; done.
  - rewrite list_lookup_insert_ne, set_gates_lookup, decide_True by lia. eexists. split; [done|].
    destruct (SETGATE_describes false 8 (vectors n) 0) as (E1 & E2 & E3 & E4 & E5); [lia | done | lia|].
    cbv zeta in *. rewrite E1, E2, E3, E4, E5. split_and!; [done..| |]; split; intros E; try done; lia.
Qed.

(** the segments of [seginit] are flat: code and data of kernel and user cover
    all 4 gigabytes from 0, and differ only in type and privilege. *)
Theorem seginit_flat s : length (gdt s) = NSEGS ->
  forall i, In i [SEG_KCODE; SEG_KDATA; SEG_UCODE; SEG_UDATA] ->
  exists d, gdt (seginit s) !! Z.to_nat i = Some d /\
  let x := pack (segdesc_fields d) in
  cpu_present x = true /\ cpu_base x = 0 /\ cpu_limit x = 0xffffffff /\
  cpu_dpl x = (if (i =? SEG_UCODE) || (i =? SEG_UDATA) then DPL_USER else 0) /\
  cpu_type x = (if (i =? SEG_KCODE) || (i =? SEG_UCODE) then STA_X + STA_R else STA_W).
Proof.
  intros Hl i Hi. unfold seginit. cbn [gdt].
  destruct (gdt s) as [|d0 [|d1 [|d2 [|d3 [|d4 [|d5 [|]]]]]]]; try done.
  cbn in Hi. destruct Hi as [<-|[<-|[<-|[<-|[]]]]]; eexists; (split; [reflexivity|]); vm_compute; done.
Qed.

(** after [switchuvm] a trap of the process enters the kernel on its kernel
    stack, with the kernel's data segment, and its I/O instructions are refused,
    as the I/O map lies past the limit of the task state; the processor runs in
    the address space of the process. *)
Theorem switchuvm_sets_task tsaddr kstack pgdir cx s :
  length (gdt s) = NSEGS -> 0 <= tsaddr < 2 ^ 32 -> kstack <> 0 -> KERNBASE <= pgdir ->
  exists s' d, switchuvm_cpu tsaddr kstack pgdir cx s = Ret tt cx s' /\
  gdt s' !! Z.to_nat (tr s' / 8) = Some d /\
  let x := pack (segdesc_fields d) in
  cpu_present x = true /\ cpu_type x = STS_T32A /\ cpu_s x = 0 /\ cpu_dpl x = 0 /\ cpu_base x = tsaddr /\
  cpu_limit x = sizeof_taskstate - 1 /\ cpu_limit x < ts_iomb (ts s') /\
  ts_esp0 (ts s') = u32 (kstack + KSTACKSIZE) /\ ts_ss0 (ts s') = 8 * SEG_KDATA /\ cr3 s' = pgdir - KERNBASE /\
  forall i, i <> Z.to_nat SEG_TSS -> gdt s' !! i = gdt s !! i.
Proof.
  intros Hl Ht Hk Hp. unfold switchuvm_cpu. rewrite (proj2 (Z.eqb_neq _ _) Hk), (proj2 (Z.eqb_neq pgdir 0)) by (unfold KERNBASE in *; lia).
  rewrite (proj2 (Z.ltb_ge _ _) Hp). mrun. eexists _, (set_sd_s 0 (SEG16 STS_T32A tsaddr (sizeof_taskstate - 1) 0)).
  split; [reflexivity|]. cbn [gdt ts tr cr3 set_gdt ts_iomb ts_esp0 ts_ss0]. split.
  { change (Z.to_nat (Z.shiftl SEG_TSS 3 / 8)) with (Z.to_nat SEG_TSS).
    rewrite list_lookup_alter, list_lookup_insert_eq by (rewrite Hl; vm_compute; lia). done. }
  cbv zeta. unfold cpu_base, cpu_limit, cpu_type, cpu_s, cpu_dpl, cpu_present, set_sd_s, SEG16, segdesc_fields.
  cbn [lim_15_0 base_15_0 base_23_16 sd_type sd_s sd_dpl sd_p lim_19_16 sd_avl sd_rsv1 sd_db sd_g base_31_24].
  rewrite land_byte, !land_low, !Z.shiftr_div_pow2 by lia.
  split_and!; repeat read_field; try done.
  - change (2 ^ 24) with 16777216. word_lia.
  - intros i Hi. by rewrite list_lookup_alter_ne, list_lookup_insert_ne.
Qed.

(** [entrypgdir] maps the first 4 megabytes twice, at 0 and at [KERNBASE], and
    nothing else. *)
Theorem entrypgdir_maps va : 0 <= va < 2 ^ 32 ->
  big_page entrypgdir va =
    if va <? 0x400000 then Some va
    else if (KERNBASE <=? va) && (va <? KERNBASE + 0x400000) then Some (va - KERNBASE) else None.
Proof.
  intros Hv. assert (0 <= va / 2 ^ 22 < 1024) as Hd by (change (2 ^ 22) with 4194304; word_lia).
  unfold big_page, entrypgdir. change (Z.to_nat (Z.shiftr KERNBASE PDXSHIFT)) with 512%nat.
  assert (forall d, d = 131 -> (bits d 0 1 =? 1) && (bits d 7 1 =? 1) = true /\ bits d 22 10 = 0) as Hp by (by intros d ->).
  destruct (Hp _ eq_refl) as [Hp1 Hp2]. change (Z.lor 0 (Z.lor 1 (Z.lor 2 PTE_PS))) with 131.
  change (2 ^ 22) with 4194304 in *. unfold KERNBASE.
  destruct (decide (Z.to_nat (va / 4194304) = 512%nat)) as [E|N1].
  - rewrite E, list_lookup_insert_eq by (rewrite length_insert, length_replicate; lia). cbn [default from_option id].
    rewrite Hp1, Hp2. rewrite (proj2 (Z.ltb_ge _ _)) by word_lia. rewrite (proj2 (Z.leb_le _ _)), (proj2 (Z.ltb_lt _ _)) by word_lia. cbn [andb].
    f_equal. word_lia.
  - rewrite list_lookup_insert_ne by done. destruct (decide (Z.to_nat (va / 4194304) = 0%nat)) as [E|N2].
    + rewrite E, list_lookup_insert_eq by (rewrite length_replicate; lia). cbn [default from_option id].
      rewrite Hp1, Hp2, (proj2 (Z.ltb_lt _ _)) by word_lia. f_equal. word_lia.
    + rewrite list_lookup_insert_ne by done. rewrite lookup_replicate_2 by lia. cbn [default from_option id].
      change ((bits 0 0 1 =? 1) && (bits 0 7 1 =? 1)) with false. cbn iota.
      rewrite (proj2 (Z.ltb_ge _ _)) by word_lia.
      destruct (Z.leb_spec 2147483648 va), (Z.ltb_spec va (2147483648 + 4194304)); cbn [andb]; try done. exfalso. word_lia.
Qed.
