(* ===== verification/Boot.v ===== *)
(** bootmain.c: the boot loader.

    It reads the kernel, an ELF file that starts at sector 1 of the disk, sector
    by sector into memory.  The drive is hardware: it shows a sector that
    depends on the registers the loader has written, and is ready some time
    after each command.  The theorem says what memory holds when the loader
    jumps to the kernel. *)

From stdpp Require Import functions base numbers list strings.
From S2P Require Import Exec.
From S2P Require Import Xv6 Prelude Kstring Mp.

Definition SECTSIZE : Z := 512.

(** The drive: its sectors, and the status register at each read of it. *)
Class Drive := { drive_sector : Z -> Z -> Z; drive_status : nat -> Z }.

Record boot := Boot { boot_ram : mem; boot_ports : Z -> Z; boot_reads : nat }.

Definition set_boot_ram m (s : boot) : boot := Boot m (boot_ports s) (boot_reads s).

Section boot.
Context {D : Drive}.

Definition boot_outb (port v : Z) : M boot unit :=
  modify (fun s => Boot (boot_ram s) (<[port := u8 v]> (boot_ports s)) (boot_reads s)).

(** The sector number in the task file registers. *)
Definition boot_lba (p : Z -> Z) : Z :=
  p 0x1F3 + 2 ^ 8 * p 0x1F4 + 2 ^ 16 * p 0x1F5 + 2 ^ 24 * Z.land (p 0x1F6) 0xF.

Fixpoint waitdisk (fuel : nat) : M boot unit :=
  s <- get ;;
  put (Boot (boot_ram s) (boot_ports s) (S (boot_reads s))) ;;
  if Z.land (drive_status (boot_reads s)) 0xC0 =? 0x40 then ret tt
  else match fuel with
  | O => undef "waitdisk: still waiting"
  | S f => waitdisk f
  end.

(** Memory with a sector at [dst]. *)
Definition sector_at (m : mem) (dst n : Z) : mem :=
  fun a => if (dst <=? a) && (a <? dst + SECTSIZE) then drive_sector n (a - dst) else m a.

Definition readsect (fuel : nat) (dst offset : Z) : M boot unit :=
  waitdisk fuel ;;
  boot_outb 0x1F2 1 ;;
  boot_outb 0x1F3 offset ;;
  boot_outb 0x1F4 (Z.shiftr offset 8) ;;
  boot_outb 0x1F5 (Z.shiftr offset 16) ;;
  boot_outb 0x1F6 (Z.lor (Z.shiftr offset 24) 0xE0) ;;
  boot_outb 0x1F7 0x20 ;;
  waitdisk fuel ;;
  modify (fun s => set_boot_ram (sector_at (boot_ram s) dst (boot_lba (boot_ports s))) s).

(** The loop of [readseg]; [k] is at least the number of sectors. *)
Fixpoint readseg_loop (fuel k : nat) (pa epa offset : Z) : M boot unit :=
  if negb (pa <? epa) then ret tt
  else match k with
  | O => undef "readseg"
  | S k =>
      readsect fuel pa offset ;;
      readseg_loop fuel k (u32 (pa + SECTSIZE)) epa (u32 (offset + 1))
  end.
Definition readseg (fuel : nat) (pa count offset : Z) : M boot unit :=
  let epa := u32 (pa + count) in
  let pa := u32 (pa - offset mod SECTSIZE) in
  readseg_loop fuel (Z.to_nat (count / SECTSIZE + 2)) pa epa (offset / SECTSIZE + 1).

(** [struct elfhdr] and [struct proghdr] in memory. *)
Definition elf_magic (m : mem) (e : Z) : Z := load32 m e.
Definition elf_entry (m : mem) (e : Z) : Z := load32 m (e + 24).
Definition elf_phoff (m : mem) (e : Z) : Z := load32 m (e + 28).
Definition elf_phnum (m : mem) (e : Z) : Z := ld16 m (e + 44).
Definition ph_off (m : mem) (p : Z) : Z := load32 m (p + 4).
Definition ph_paddr (m : mem) (p : Z) : Z := load32 m (p + 12).
Definition ph_filesz (m : mem) (p : Z) : Z := load32 m (p + 16).
Definition ph_memsz (m : mem) (p : Z) : Z := load32 m (p + 20).

(** [for(; ph < eph; ph++)], the [k] headers from [ph] on. *)
Fixpoint load_kernel (fuel k : nat) (ph : Z) : M boot unit :=
  match k with
  | O => ret tt
  | S k =>
      m <- gets boot_ram ;;
      let pa := ph_paddr m ph in
      readseg fuel pa (ph_filesz m ph) (ph_off m ph) ;;
      m <- gets boot_ram ;;
      (if ph_filesz m ph <? ph_memsz m ph
       then modify (fun s => set_boot_ram
              (stosb (boot_ram s) (u32 (pa + ph_filesz m ph)) 0 (Z.to_nat (ph_memsz m ph - ph_filesz m ph))) s)
       else ret tt) ;;
      load_kernel fuel k (ph + 32)
  end.

(** The address [bootmain] jumps to, or none when it returns. *)
Definition bootmain (fuel : nat) : M boot (option Z) :=
  let elf := 0x10000 in
  readseg fuel elf 4096 0 ;;
  m <- gets boot_ram ;;
  if negb (elf_magic m elf =? ELF_MAGIC) then ret None
  else
    load_kernel fuel (Z.to_nat (elf_phnum m elf)) (elf + elf_phoff m elf) ;;
    m <- gets boot_ram ;;
    ret (Some (elf_entry m elf)).

(** ** Reading *)

(** Byte [k] of the kernel file. *)
Definition file (k : Z) : Z := drive_sector (k / SECTSIZE + 1) (k mod SECTSIZE).

(** The drive is ready within [fuel] reads of its status. *)
Definition responsive (fuel : nat) : Prop :=
  forall t, exists k, (k <= fuel)%nat /\ Z.land (drive_status (k + t)) 0xC0 = 0x40.

Section reading.
Variables (fuel : nat) (cx : ctx).
Hypothesis (Hready : responsive fuel).

Lemma waitdisk_within k : forall f s, (k <= f)%nat -> Z.land (drive_status (k + boot_reads s)) 0xC0 = 0x40 ->
  exists t, waitdisk f cx s = Ret tt cx (Boot (boot_ram s) (boot_ports s) t).
Proof.
  induction k as [|k IH]; intros f s Hf He.
  - exists (S (boot_reads s)). destruct f; cbn [waitdisk]; mrun; cbn [Nat.add] in He; rewrite He; done.
  - destruct f as [|f]; [lia|]. cbn [waitdisk]. mrun. destruct (_ =? 0x40); [by exists (S (boot_reads s))|].
    destruct (IH f (Boot (boot_ram s) (boot_ports s) (S (boot_reads s)))) as [t R]; [lia | cbn [boot_reads]; by rewrite <- plus_n_Sm|].
    exists t. exact R.
Qed.

Lemma waitdisk_runs s : exists t, waitdisk fuel cx s = Ret tt cx (Boot (boot_ram s) (boot_ports s) t).
Proof. destruct (Hready (boot_reads s)) as (k & Hk & E). by apply (waitdisk_within k). Qed.

Lemma boot_lba_bytes p n : 0 <= n < 2 ^ 28 -> p 0x1F3 = u8 n -> p 0x1F4 = u8 (Z.shiftr n 8) -> p 0x1F5 = u8 (Z.shiftr n 16) ->
  p 0x1F6 = u8 (Z.lor (Z.shiftr n 24) 0xE0) -> boot_lba p = n.
Proof.
  intros Hn E1 E2 E3 E4. unfold boot_lba. rewrite E1, E2, E3, E4. rewrite !Z.shiftr_div_pow2 by lia.
  assert (0 <= n / 2 ^ 24 < 16) as Hh by (change (2 ^ 24) with 16777216; change (2 ^ 28) with 268435456 in Hn; word_lia).
  assert (Z.land (u8 (Z.lor (n / 2 ^ 24) 0xE0)) 0xF = n / 2 ^ 24) as ->.
  { change 0xE0 with (Z.shiftl 14 4). rewrite lor_disjoint_add by lia. rewrite u8_small by lia.
    change 0xF with (Z.ones 4). rewrite Z.land_ones by lia. change (2 ^ 4) with 16. rewrite Z_mod_plus_full. apply Z.mod_small. lia. }
  change (2 ^ 24) with 16777216. change (2 ^ 28) with 268435456 in Hn. word_lia.
Qed.

Lemma readsect_runs dst n s : 0 <= n < 2 ^ 28 ->
  exists p t, readsect fuel dst n cx s = Ret tt cx (Boot (sector_at (boot_ram s) dst n) p t).
Proof.
  intros Hn. unfold readsect. destruct (waitdisk_runs s) as [t1 R1]. erewrite bind_Ret by exact R1. unfold boot_outb. do 6 mstep.
  match goal with |- context [(waitdisk fuel ;; _) cx ?s1] => destruct (waitdisk_runs s1) as [t2 R2] end.
  erewrite bind_Ret by exact R2. unfold modify. cbn [boot_ram boot_ports]. eexists _, _. unfold set_boot_ram. cbn [boot_ram boot_ports boot_reads].
  rewrite (boot_lba_bytes _ n Hn).
  - reflexivity.
  - by rewrite !fn_lookup_insert_ne, fn_lookup_insert by done.
  - by rewrite !fn_lookup_insert_ne, fn_lookup_insert by done.
  - by rewrite !fn_lookup_insert_ne, fn_lookup_insert by done.
  - by rewrite !fn_lookup_insert_ne, fn_lookup_insert by done.
Qed.

(** [n] sectors at [lo], the first of them sector [o]. *)
Definition sectors (lo o n : Z) (m : mem) (a : Z) : Z :=
  if (lo <=? a) && (a <? lo + SECTSIZE * n) then file ((o - 1) * SECTSIZE + (a - lo)) else m a.

Lemma readseg_loop_runs epa n : forall k pa o s, (n <= k)%nat ->
  epa <= pa + SECTSIZE * Z.of_nat n -> (n <> 0%nat -> pa + SECTSIZE * (Z.of_nat n - 1) < epa) ->
  0 <= pa -> pa + SECTSIZE * Z.of_nat n < 2 ^ 32 -> 0 < o -> o + Z.of_nat n < 2 ^ 28 ->
  exists m p t, readseg_loop fuel k pa epa o cx s = Ret tt cx (Boot m p t) /\
    forall a, m a = sectors pa o (Z.of_nat n) (boot_ram s) a.
Proof.
  induction n as [|n IH]; intros k pa o s Hk H1 H2 Hpa Hw Ho Hob; unfold SECTSIZE in *.
  - exists (boot_ram s), (boot_ports s), (boot_reads s). split.
    + destruct k; cbn [readseg_loop]; rewrite (proj2 (Z.ltb_ge _ _)) by lia; by destruct s.
    + intros a. unfold sectors, SECTSIZE. destruct (Z.leb_spec pa a), (Z.ltb_spec a (pa + 512 * Z.of_nat 0)); cbn [andb]; try done. lia.
  - destruct k as [|k]; [lia|]. cbn [readseg_loop]. rewrite (proj2 (Z.ltb_lt _ _)) by lia. cbn [negb].
    destruct (readsect_runs pa o s) as (p1 & t1 & R1); [lia|]. erewrite bind_Ret by exact R1.
    rewrite !u32_small by (unfold SECTSIZE; lia). set (s1 := Boot _ _ _).
    destruct (IH k (pa + SECTSIZE) (o + 1) s1) as (m & p & t & R & E); unfold SECTSIZE; try lia.
    exists m, p, t. split; [exact R|]. intros a. rewrite E. unfold s1. cbn [boot_ram]. unfold sectors, sector_at, file, SECTSIZE.
    destruct (Z.leb_spec (pa + 512) a), (Z.ltb_spec a (pa + 512 + 512 * Z.of_nat n)), (Z.leb_spec pa a), (Z.ltb_spec a (pa + 512)),
      (Z.ltb_spec a (pa + 512 * Z.of_nat (S n))); cbn [andb]; try lia; try done; f_equal; word_lia.
Qed.

(** The sectors [readseg] reads. *)
Definition nsect (count off : Z) : Z := (count + off mod SECTSIZE + 511) / SECTSIZE.

Lemma readseg_runs pa count off s :
  0 <= count -> 0 <= off < 2 ^ 32 -> off mod SECTSIZE <= pa -> pa + count + 512 < 2 ^ 32 ->
  exists m p t, readseg fuel pa count off cx s = Ret tt cx (Boot m p t) /\
    forall a, m a = sectors (pa - off mod SECTSIZE) (off / SECTSIZE + 1) (nsect count off) (boot_ram s) a.
Proof.
  intros Hc Ho Hp Hw. unfold readseg, nsect. unfold SECTSIZE in *. change (2 ^ 32) with 4294967296 in *.
  pose proof (Z.mod_pos_bound off 512 ltac:(lia)). cbv zeta. rewrite !u32_small by (change (2 ^ 32) with 4294967296; lia).
  set (n := (count + off mod 512 + 511) / 512). assert (0 <= n) as Hn by (unfold n; word_lia).
  destruct (readseg_loop_runs (pa + count) (Z.to_nat n) (Z.to_nat (count / 512 + 2)) (pa - off mod 512) (off / 512 + 1) s)
    as (m & p & t & R & E); rewrite ?Z2Nat.id by lia; unfold SECTSIZE.
  - unfold n. apply Z2Nat.inj_le; word_lia.
  - unfold n. word_lia.
  - unfold n. intros _. word_lia.
  - lia.
  - unfold n. change (2 ^ 32) with 4294967296. word_lia.
  - word_lia.
  - unfold n. change (2 ^ 28) with 268435456. word_lia.
  - exists m, p, t. split; [exact R|]. intros a. rewrite E. by rewrite Z2Nat.id by lia.
Qed.

(** ** Loading *)

(** A program segment. *)
Record segment := Segment { sg_off : Z; sg_paddr : Z; sg_filesz : Z; sg_memsz : Z }.

(** Its header is at [ph]. *)
Definition header_at (m : mem) (ph : Z) (g : segment) : Prop :=
  ph_off m ph = sg_off g /\ ph_paddr m ph = sg_paddr g /\ ph_filesz m ph = sg_filesz g /\ ph_memsz m ph = sg_memsz g.

(** Where the loader may write for a segment: from the sector boundary before it to
    the one behind it, and the zeros. *)
Definition touched (g : segment) (a : Z) : Prop :=
  sg_paddr g - sg_off g mod SECTSIZE <= a <
    Z.max (sg_paddr g - sg_off g mod SECTSIZE + SECTSIZE * nsect (sg_filesz g) (sg_off g)) (sg_paddr g + sg_memsz g).

Definition inside (g : segment) (a : Z) : Prop := sg_paddr g <= a < sg_paddr g + Z.max (sg_filesz g) (sg_memsz g).

Record segment_ok (g : segment) : Prop := {
  so_off : 0 <= sg_off g < 2 ^ 32;
  so_sizes : 0 <= sg_filesz g /\ 0 <= sg_memsz g;
  so_end : sg_paddr g + Z.max (sg_filesz g) (sg_memsz g) + 512 < 2 ^ 32;
  so_above : 0x11000 <= sg_paddr g - sg_off g mod SECTSIZE }.

(** Memory holds the segment: its bytes of the file and zeros up to its size. *)
Definition loaded (m : mem) (g : segment) : Prop :=
  (forall k, 0 <= k < sg_filesz g -> m (sg_paddr g + k) = file (sg_off g + k)) /\
  (forall k, sg_filesz g <= k < sg_memsz g -> m (sg_paddr g + k) = 0).

(** Later segments keep clear of earlier ones. *)
Fixpoint orderly (gs : list segment) : Prop :=
  match gs with
  | [] => True
  | g :: gs => (forall g', In g' gs -> forall a, touched g' a -> ~ inside g a) /\ orderly gs
  end.

Lemma load_one g ph s : segment_ok g -> header_at (boot_ram s) ph g -> 0x10000 <= ph -> ph + 32 <= 0x11000 ->
  exists m p t, (forall k, load_kernel fuel (S k) ph cx s = load_kernel fuel k (ph + 32) cx (Boot m p t)) /\
    loaded m g /\ forall a, ~ touched g a -> m a = boot_ram s a.
Proof.
  intros [Ho [Hf Hm] He Ha] (E1 & E2 & E3 & E4) Hp Hp2. pose proof (Z.mod_pos_bound (sg_off g) SECTSIZE ltac:(done)) as Hmod.
  assert (0 <= nsect (sg_filesz g) (sg_off g) /\
    SECTSIZE * nsect (sg_filesz g) (sg_off g) >= sg_filesz g + sg_off g mod SECTSIZE) as [Hn Hge] by (unfold nsect, SECTSIZE in *; word_lia).
  destruct (readseg_runs (sg_paddr g) (sg_filesz g) (sg_off g) s) as (m & p & t & R & E); [done | done | unfold SECTSIZE in *; lia | lia|].
  assert (forall a, a < sg_paddr g - sg_off g mod SECTSIZE -> m a = boot_ram s a) as Hlow.
  { intros a Hlt. rewrite E. unfold sectors. by rewrite (proj2 (Z.leb_gt _ _)) by lia. }
  assert (ph_filesz m ph = sg_filesz g /\ ph_memsz m ph = sg_memsz g) as [F1 F2].
  { rewrite <- E3, <- E4. unfold ph_filesz, ph_memsz, load32. rewrite !Hlow by lia. done. }
  assert (forall k, 0 <= k < sg_filesz g -> m (sg_paddr g + k) = file (sg_off g + k)) as Hfile.
  { intros k Hk. rewrite E. unfold sectors. rewrite (proj2 (Z.leb_le _ _)), (proj2 (Z.ltb_lt _ _)) by lia. cbn [andb]. f_equal.
    unfold SECTSIZE in *. word_lia. }
  set (m2 := if sg_filesz g <? sg_memsz g then stosb m (u32 (sg_paddr g + sg_filesz g)) 0 (Z.to_nat (sg_memsz g - sg_filesz g)) else m).
  assert (forall a, m2 a = if (sg_paddr g + sg_filesz g <=? a) && (a <? sg_paddr g + sg_memsz g) then 0 else m a) as E2m.
  { intros a. unfold m2. destruct (Z.ltb_spec (sg_filesz g) (sg_memsz g)).
    - rewrite stosb_at. unfold in_range. unfold SECTSIZE in *. rewrite u32_small by lia.
      destruct (Z.leb_spec (sg_paddr g + sg_filesz g) a),
        (Z.ltb_spec a (sg_paddr g + sg_filesz g + Z.of_nat (Z.to_nat (sg_memsz g - sg_filesz g)))),
        (Z.ltb_spec a (sg_paddr g + sg_memsz g)); cbn [andb]; done || lia.
    - destruct (Z.leb_spec (sg_paddr g + sg_filesz g) a), (Z.ltb_spec a (sg_paddr g + sg_memsz g)); cbn [andb]; done || lia. }
  exists m2, p, t. split; [|split; [split|]].
  - intros k. cbn [load_kernel]. mstep. rewrite E1, E2, E3. erewrite bind_Ret by exact R. mstep. cbn [boot_ram]. rewrite F1, F2.
    unfold m2. destruct (_ <? _); mrun; done.
  - intros k Hk. rewrite E2m, (proj2 (Z.leb_gt _ _)) by lia. cbn [andb]. by apply Hfile.
  - intros k Hk. rewrite E2m, (proj2 (Z.leb_le _ _)), (proj2 (Z.ltb_lt _ _)) by lia. done.
  - intros a Hnt. unfold touched in Hnt. rewrite E2m. destruct (Z.leb_spec (sg_paddr g + sg_filesz g) a), (Z.ltb_spec a (sg_paddr g + sg_memsz g));
      cbn [andb]; try lia; rewrite E; unfold sectors;
      destruct (Z.leb_spec (sg_paddr g - sg_off g mod SECTSIZE) a),
        (Z.ltb_spec a (sg_paddr g - sg_off g mod SECTSIZE + SECTSIZE * nsect (sg_filesz g) (sg_off g))); cbn [andb]; done || lia.
Qed.

Lemma loaded_keep m m' g : segment_ok g -> loaded m g -> (forall a, inside g a -> m' a = m a) -> loaded m' g.
Proof.
  intros [_ [Hf _] _ _] [L1 L2] E. split; intros k Hk; rewrite E.
  - by apply L1.
  - unfold inside. lia.
  - by apply L2.
  - unfold inside. lia.
Qed.
Lemma load_kernel_runs gs : forall ph s, Forall segment_ok gs -> orderly gs -> 0x10000 <= ph -> ph + 32 * Z.of_nat (length gs) <= 0x11000 ->
  (forall i g, gs !! i = Some g -> header_at (boot_ram s) (ph + 32 * Z.of_nat i) g) ->
  exists m p t, load_kernel fuel (length gs) ph cx s = Ret tt cx (Boot m p t) /\ Forall (loaded m) gs /\
    (forall a, (forall g, In g gs -> ~ touched g a) -> m a = boot_ram s a).
Proof.
  induction gs as [|g gs IH]; intros ph s Hok Hord Hp Hp2 Hh.
  { exists (boot_ram s), (boot_ports s), (boot_reads s). by destruct s. }
  apply Forall_cons in Hok as [Hg Hok]. destruct Hord as [Hfirst Hord]. cbn [length] in *.
  pose proof (Hh 0%nat g eq_refl) as H0. rewrite Z.mul_0_r, Z.add_0_r in H0.
  destruct (load_one g ph s Hg H0) as (m1 & p1 & t1 & R1 & L1 & K1); [lia | lia|].
  assert (forall a, a < 0x11000 -> m1 a = boot_ram s a) as Hlow.
  { intros a Ha. apply K1. unfold touched. pose proof (so_above _ Hg). lia. }
  destruct (IH (ph + 32) (Boot m1 p1 t1)) as (m & p & t & R & L & K); [done | done | lia | lia | |].
  { intros i g' Hi. pose proof (lookup_lt_Some _ _ _ Hi). pose proof (Hh (S i) g' Hi) as (E1 & E2 & E3 & E4).
    replace (ph + 32 * Z.of_nat (S i)) with (ph + 32 + 32 * Z.of_nat i) in * by lia.
    unfold header_at, ph_off, ph_paddr, ph_filesz, ph_memsz, load32 in *. cbn [boot_ram]. rewrite !Hlow by lia. done. }
  exists m, p, t. rewrite R1. split; [exact R|]. split.
  - constructor; [|done]. apply (loaded_keep m1); [done | done|]. intros a Ha. cbn [boot_ram] in K. apply K.
    intros g' Hg' Ht. by apply (Hfirst g' Hg' a).
  - intros a Ha. rewrite K by (intros g' Hg'; apply Ha; by right). cbn [boot_ram]. apply K1. apply Ha. by left.
Qed.
End reading.

(** The file is an ELF file with these segments and this entry, its headers within
    the first page. *)
Record elf_file (entry : Z) (gs : list segment) : Prop := {
  ef_magic : elf_magic file 0 = ELF_MAGIC;
  ef_entry : elf_entry file 0 = entry;
  ef_phnum : elf_phnum file 0 = Z.of_nat (length gs);
  ef_phoff : 0 <= elf_phoff file 0 /\ elf_phoff file 0 + 32 * Z.of_nat (length gs) <= 4096;
  ef_headers i g : gs !! i = Some g -> header_at file (elf_phoff file 0 + 32 * Z.of_nat i) g }.

(** the boot loader loads the kernel.  From a disk with an ELF file at sector 1
    whose segments lie above the loader's scratch page and in order, with a
    drive that answers, [bootmain] jumps to the entry point with every segment
    in place: its bytes of the file at its physical address, followed by zeros up
    to its size in memory. *)
Theorem bootmain_loads_kernel fuel cx s entry gs :
  responsive fuel -> elf_file entry gs -> Forall segment_ok gs -> orderly gs ->
  exists s', bootmain fuel cx s = Ret (Some entry) cx s' /\ Forall (loaded (boot_ram s')) gs.
Proof.
  intros Hr [M En Nu [P1 P2] Hh] Hok Hord. unfold bootmain.
  destruct (readseg_runs fuel cx Hr 0x10000 4096 0 s) as (m0 & p0 & t0 & R0 & E0); [lia | lia | done | lia|].
  erewrite bind_Ret by exact R0. mstep. cbn [boot_ram].
  assert (forall k, 0 <= k < 4096 -> m0 (0x10000 + k) = file k) as Hpage.
  { intros k Hk. rewrite E0. unfold sectors. change (nsect 4096 0) with 8. change (0 mod SECTSIZE) with 0. change (0 / SECTSIZE + 1) with 1. unfold SECTSIZE.
    rewrite (proj2 (Z.leb_le _ _)), (proj2 (Z.ltb_lt _ _)) by lia. cbn [andb]. f_equal. lia. }
  assert (forall o, 0 <= o -> o + 4 <= 4096 -> load32 m0 (0x10000 + o) = load32 file o) as Hw.
  { intros o Ho Ho2. unfold load32. rewrite <- !Z.add_assoc, !Hpage by lia. done. }
  assert (elf_magic m0 0x10000 = ELF_MAGIC) as ->.
  { rewrite <- M. unfold elf_magic. rewrite <- (Z.add_0_r 0x10000). by apply Hw. }
  cbn [negb]. rewrite Z.eqb_refl. cbn [negb].
  assert (elf_phnum m0 0x10000 = Z.of_nat (length gs)) as ->.
  { rewrite <- Nu. unfold elf_phnum, ld16. rewrite <- !Z.add_assoc, !Hpage by lia. done. }
  assert (elf_phoff m0 0x10000 = elf_phoff file 0) as -> by (unfold elf_phoff; by rewrite Hw by lia).
  rewrite Nat2Z.id.
  destruct (load_kernel_runs fuel cx Hr gs (0x10000 + elf_phoff file 0) (Boot m0 p0 t0)) as (m & p & t & R & L & K);
    [done | done | lia | lia | |].
  { intros i g Hi. pose proof (lookup_lt_Some _ _ _ Hi). destruct (Hh i g Hi) as (E1 & E2 & E3 & E4).
    unfold header_at, ph_off, ph_paddr, ph_filesz, ph_memsz in *. cbn [boot_ram]. rewrite <- !Z.add_assoc in *.
    rewrite !Hw by lia. done. }
  erewrite bind_Ret by exact R. mrun. cbn [boot_ram]. exists (Boot m p t). split; [|exact L]. unfold ret. do 2 f_equal.
  assert (forall k, 0 <= k < 4096 -> m (0x10000 + k) = file k) as Hsame.
  { intros k Hk. rewrite K; [by apply Hpage|]. intros g Hg Ht. apply list_elem_of_In in Hg. rewrite Forall_forall in Hok.
    pose proof (so_above _ (Hok g Hg)). unfold touched in Ht. lia. }
  rewrite <- En. unfold elf_entry, load32. rewrite <- !Z.add_assoc. by rewrite !Hsame by lia.
Qed.
End boot.

(** ** A small kernel *)

Module Demo.

(** One segment: 3 bytes at offset 100 of the file, loaded at 0x100064 with 2 more
    bytes of zeros; the entry point is 0x10000c. *)
Definition demo_header : list Z :=
  [0x7F; 0x45; 0x4C; 0x46] ++ replicate 20 0 ++ [0x0c; 0; 0x10; 0] ++ [52; 0; 0; 0] ++ replicate 12 0 ++ [1; 0] ++ replicate 6 0 ++
  [1; 0; 0; 0; 100; 0; 0; 0; 0; 0; 0; 0; 0x64; 0; 0x10; 0; 3; 0; 0; 0; 5; 0; 0; 0] ++ replicate 24 0 ++ [65; 66; 67].
Definition demo_drive : Drive := {|
  drive_sector n k := if n =? 1 then nth (Z.to_nat k) demo_header 0 else 0;
  drive_status t := if Nat.even t then 0x80 else 0x40 |}.
Definition demo_segment : segment := Segment 100 0x100064 3 5.

Lemma bootmain_loads_kernel_witness : exists s',
  @bootmain demo_drive 1 (Ctx (Thread 0 false) [] []) (Boot (fun _ => 255) (fun _ => 0) 0) =
    Ret (Some 0x10000c) (Ctx (Thread 0 false) [] []) s' /\ Forall (@loaded demo_drive (boot_ram s')) [demo_segment].
Proof.
  apply (@bootmain_loads_kernel demo_drive 1 (Ctx (Thread 0 false) [] []) (Boot (fun _ => 255) (fun _ => 0) 0) 0x10000c [demo_segment]).
  - intros t. destruct (Nat.even t) eqn:E.
    + exists 1%nat. split; [lia|]. cbn [drive_status demo_drive Nat.add]. rewrite Nat.even_succ, <- Nat.negb_even, E. reflexivity.
    + exists 0%nat. split; [lia|]. cbn [drive_status demo_drive Nat.add]. rewrite E. reflexivity.
  - split; try (vm_compute; reflexivity).
    + vm_compute. split; discriminate.
    + intros [|i] g Hg; [|done]. injection Hg as <-. vm_compute. split_and!; reflexivity.
  - constructor; [|constructor]. split; vm_compute; try split; done || discriminate.
  - split; [|exact I]. intros g' [].
Defined.

End Demo.
