(* ===== verification/Usys.v ===== *)
(** User programs that are mostly system calls: init, the prompt loop of the
    shell, rm, mkdir, ln, kill, nice, ps, shutdown, zombie, priorInv,
    longRunner, testflock, forktest and stressfs, and [stat] of the user library.

    A program is a tree of system calls, [prog]: each call continues with the
    value the kernel returns.  [run] follows it against an operating system,
    a function from a state and a call to a result and a new state, and gives
    the calls made with their results.  [fork] returns once in each process:
    a run is the life of one of them. *)

From stdpp Require Import base numbers list strings sets.
From S2P Require Import Ulib.
From S2P Require Import Xv6 Prelude Kstring Printf Proc.
From S2P Require Import Dir Sysfile.

Inductive call :=
  | Cunlink (path : list Z) | Cmkdir (path : list Z) | Clink (old new : list Z) | Cchdir (path : list Z)
  | Cmknod (path : list Z) (major minor : Z) | Copen (path : list Z) (mode : Z) | Cdup (fd : Z) | Cclose (fd : Z)
  | Cfstat (fd : Z) | Cread (fd n : Z) | Cwrite (fd : Z) (data : list Z) | Cflock (fd : Z) | Cfunlock (fd : Z)
  | Cfork | Cwait | Ckill (pid : Z) | Cnice (pid prio : Z) | Csleep (n : Z) | Cps (n : Z) | Cshutdown
  | Cexec (path : list Z) (argv : list (list Z))
  | Cruncmd (line : list Z)
  | Cprintf (fd : Z) (text : list Z).

#[export] Instance call_eq_dec : EqDecision call.
Proof. solve_decision. Defined.

(** [Exit]: the call of [exit]; [Undefined]: undefined behaviour of C, or a
    loop out of fuel. *)
Inductive prog (A : Type) :=
  | Done (a : A) | Exit | Call (c : call) (k : Z -> prog A) | Undefined.
Arguments Done {A}.
Arguments Exit {A}.
Arguments Call {A}.
Arguments Undefined {A}.

Fixpoint pbind {A B} (p : prog A) (f : A -> prog B) : prog B :=
  match p with
  | Done a => f a
  | Exit => Exit
  | Call c k => Call c (fun r => pbind (k r) f)
  | Undefined => Undefined
  end.

Declare Scope prog_scope.
Delimit Scope prog_scope with prog.
Notation "x <~ p ; q" := (pbind p (fun x => q)) (at level 100, p at next level, right associativity) : prog_scope.
Notation "p ;~ q" := (pbind p (fun _ => q)) (at level 100, right associativity) : prog_scope.
#[local] Open Scope prog_scope.

Definition do (c : call) : prog Z := Call c Done.
Definition print (fd : Z) (text : list Z) : prog Z := do (Cprintf fd text).
Definition line (t : list Z) : list Z := t ++ [10].

(** ** ulib.c [stat] *)

Definition user_stat (n : list Z) : prog Z :=
  fd <~ do (Copen n O_RDONLY) ;
  if fd <? 0 then Done (-1)
  else
    r <~ do (Cfstat fd) ;
    do (Cclose fd) ;~
    Done r.

(** ** rm.c, mkdir.c, ln.c, kill.c, nice.c, shutdown.c, zombie.c

    [argv] is without the name of the program. *)

Fixpoint rm_loop (args : list (list Z)) : prog unit :=
  match args with
  | [] => Done tt
  | a :: args =>
      r <~ do (Cunlink a) ;
      if r <? 0 then print 2 (line (str "rm: " ++ a ++ str " failed to delete")) ;~ Done tt
      else rm_loop args
  end.
Definition rm_main (argv : list (list Z)) : prog unit :=
  match argv with
  | [] => print 2 (line (str "Usage: rm files...")) ;~ Exit
  | _ => rm_loop argv ;~ Exit
  end.

Fixpoint mkdir_loop (args : list (list Z)) : prog unit :=
  match args with
  | [] => Done tt
  | a :: args =>
      r <~ do (Cmkdir a) ;
      if r <? 0 then print 2 (line (str "mkdir: " ++ a ++ str " failed to create")) ;~ Done tt
      else mkdir_loop args
  end.
Definition mkdir_main (argv : list (list Z)) : prog unit :=
  match argv with
  | [] => print 2 (line (str "Usage: mkdir files...")) ;~ Exit
  | _ => mkdir_loop argv ;~ Exit
  end.

Definition ln_main (argv : list (list Z)) : prog unit :=
  match argv with
  | [old; new] =>
      r <~ do (Clink old new) ;
      (if r <? 0 then print 2 (line (str "link " ++ old ++ [32] ++ new ++ str ": failed")) else Done 0) ;~
      Exit
  | _ => print 2 (line (str "Usage: ln old new")) ;~ Exit
  end.

(** [atoi] of an argument. *)
Definition arg_atoi (t : list Z) : option Z := Ulib.atoi (S (length t)) (put_bytes (fun _ => 0) 0 t) 0.

Fixpoint kill_loop (args : list (list Z)) : prog unit :=
  match args with
  | [] => Done tt
  | a :: args =>
      match arg_atoi a with
      | None => Undefined
      | Some pid => do (Ckill pid) ;~ kill_loop args
      end
  end.
Definition kill_main (argv : list (list Z)) : prog unit :=
  match argv with
  | [] => print 2 (line (str "usage: kill pid...")) ;~ Exit
  | _ => kill_loop argv ;~ Exit
  end.

Definition nice_main (argv : list (list Z)) : prog unit :=
  match argv with
  | [a; b] =>
      match arg_atoi a, arg_atoi b with
      | Some pid, Some priority =>
          old <~ do (Cnice pid priority) ;
          print 1 (line (str "Old priority: " ++ int_text old 10 true ++ str ". New priority: " ++ int_text priority 10 true)) ;~
          Exit
      | _, _ => Undefined
      end
  | _ => print 1 (line (str "Usage: nice pid priority")) ;~ Exit
  end.

Definition shutdown_main : prog unit := do Cshutdown ;~ Exit.

Definition zombie_main : prog unit :=
  pid <~ do Cfork ;
  (if 0 <? pid then do (Csleep 5) else Done 0) ;~
  Exit.

(** ** ps.c *)

(** [None]: an index past the end of the table. *)
Definition states (st : Z) : option (list Z) :=
  [str "unused"; str "embryo"; str "sleep "; str "ready "; str "run   "; str "zombie"] !! Z.to_nat st.

Definition ps_line (p : procInfo) (st : list Z) : list Z :=
  line (int_text (pi_pid p) 10 true ++ str ": " ++ st ++ [32] ++ int_text (pi_cpuPercent p) 10 true ++ [32] ++ cstr 16 (pi_name p)).

(** The loop over the array [ps] has filled. *)
Fixpoint ps_loop (n : nat) (array : list procInfo) : prog unit :=
  match n, array with
  | O, _ => Done tt
  | S n, p :: array =>
      match states (pi_state p) with
      | Some st => print 1 (ps_line p st) ;~ ps_loop n array
      | None => Undefined
      end
  | S n, [] => Undefined
  end.
Definition ps_main (array : list procInfo) : prog unit :=
  result <~ do (Cps 1024) ;
  ps_loop (Z.to_nat result) array ;~
  Exit.

(** ** priorInv.c *)

Definition lock_fd : Z := 1.

Definition runHP : prog unit :=
  print 1 (line (str "Starting High Priority Process")) ;~
  do (Csleep 500) ;~
  print 1 (line (str "High Priority Process obtained lock " ++ int_text lock_fd 10 true)) ;~
  do (Cfunlock lock_fd) ;~
  Exit.

Definition startHP : prog unit :=
  pid <~ do Cfork ;
  if pid =? 0 then runHP else do (Cnice pid 10) ;~ Done tt.

Fixpoint low_running (counter : nat) : prog unit :=
  match counter with
  | O => Done tt
  | S counter => print 1 (line (str "Low priority running...")) ;~ do (Csleep 50) ;~ low_running counter
  end.

Definition priorInv_main : prog unit :=
  do (Cflock lock_fd) ;~
  print 1 (line (str "Low Priority Process got the lock " ++ int_text lock_fd 10 true)) ;~
  startHP ;~
  startHP ;~
  startHP ;~
  do (Csleep 10) ;~
  low_running 6 ;~
  print 1 (line (str "Low Priority releases the lock " ++ int_text lock_fd 10 true)) ;~
  do (Cfunlock lock_fd) ;~
  pidOne <~ do Cwait ;
  pidTwo <~ do Cwait ;
  print 1 ([10] ++ int_text pidOne 10 true ++ line (str " Processes complete!")) ;~
  print 1 ([10] ++ int_text pidTwo 10 true ++ line (str " Processes complete!")) ;~
  print 1 ([10] ++ line (str "Priority Inversion Demonstrated")) ;~
  do Cwait ;~
  Exit.

(** ** longRunner.c: the counter, after the loops over [j] and [i]; [None] is
    an overflow of [int] *)

Fixpoint count_inner (j : nat) (counter : Z) : option Z :=
  match j with O => Some counter | S j => if counter + 1 <? 2 ^ 31 then count_inner j (counter + 1) else None end.
Fixpoint count_outer (i j : nat) (counter : Z) : option Z :=
  match i with
  | O => Some counter
  | S i => match count_inner j counter with Some counter => count_outer i j counter | None => None end
  end.
Definition loop (n : nat) (counter : Z) : option Z := count_outer (n * 4096) (n * 4096) counter.
Fixpoint longRunner_loop (j : nat) (counter : Z) : option Z :=
  match j with
  | O => Some counter
  | S j' => match loop j counter with Some counter => longRunner_loop j' counter | None => None end
  end.
(** [main] starts [j] at 3. *)
Definition longRunner_main (j : nat) : prog unit :=
  match longRunner_loop j 0 with Some _ => Exit | None => Undefined end.

(** ** testflock.c, forktest.c, stressfs.c *)

Definition testflock_main : prog unit :=
  fd <~ do (Copen (str "lock") (Z.lor O_CREATE O_RDWR)) ;
  (if 0 <=? fd then
     print 2 (line (str "Trying to get lock")) ;~
     status <~ do (Cflock fd) ;
     if status <? 0 then print 2 (line (str "Error: flock()"))
     else
       print 2 (line (str "Got lock")) ;~
       do (Csleep 500) ;~
       print 2 (line (str "Unlocking")) ;~
       do (Cfunlock fd)
   else Done 0) ;~
  Exit.

(** forktest.c has a [printf] of its own, which only writes its argument. *)
Definition test_printf (fd : Z) (text : list Z) : prog Z := do (Cwrite fd text).

(** [for(n=0; n<N; n++)]: the number of forks that worked; a child exits. *)
Fixpoint fork_loop (k : nat) (n : Z) : prog Z :=
  match k with
  | O => Done n
  | S k =>
      pid <~ do Cfork ;
      if pid <? 0 then Done n
      else if pid =? 0 then Exit
      else fork_loop k (n + 1)
  end.
Fixpoint collect_loop (n : nat) : prog unit :=
  match n with
  | O => Done tt
  | S n =>
      r <~ do Cwait ;
      if r <? 0 then test_printf 1 (line (str "wait stopped early")) ;~ Exit else collect_loop n
  end.
Definition forktest : prog unit :=
  test_printf 1 (line (str "fork test")) ;~
  n <~ fork_loop 1000 0 ;
  if n =? 1000 then test_printf 1 (line (str "fork claimed to work N times!")) ;~ Exit
  else
    collect_loop (Z.to_nat n) ;~
    r <~ do Cwait ;
    if negb (r =? -1) then test_printf 1 (line (str "wait got too many")) ;~ Exit
    else test_printf 1 (line (str "fork test OK")) ;~ Done tt.
Definition forktest_main : prog unit := forktest ;~ Exit.

(** The number of the process: the parent of the first fork is 0, and so on. *)
Fixpoint stress_fork (k : nat) (i : Z) : prog Z :=
  match k with
  | O => Done i
  | S k => pid <~ do Cfork ; if 0 <? pid then Done i else stress_fork k (i + 1)
  end.
Fixpoint repeat_call (k : nat) (c : call) : prog unit :=
  match k with O => Done tt | S k => do c ;~ repeat_call k c end.
Definition stressfs_main : prog unit :=
  print 1 (line (str "stressfs starting")) ;~
  i <~ stress_fork 4 0 ;
  print 1 (line (str "write " ++ int_text i 10 true)) ;~
  let path := str "stressfs" ++ [48 + i] in
  fd <~ do (Copen path (Z.lor O_CREATE O_RDWR)) ;
  repeat_call 20 (Cwrite fd (replicate 512 97)) ;~
  do (Cclose fd) ;~
  print 1 (line (str "read")) ;~
  fd <~ do (Copen path O_RDONLY) ;
  repeat_call 20 (Cread fd 512) ;~
  do (Cclose fd) ;~
  do Cwait ;~
  Exit.

(** ** init.c *)

(** [while((wpid=wait()) >= 0 && wpid != pid)]; [fuel] bounds the children
    reaped. *)
Fixpoint init_reap (fuel : nat) (pid : Z) : prog unit :=
  match fuel with
  | O => Undefined
  | S fuel =>
      wpid <~ do Cwait ;
      if (0 <=? wpid) && negb (wpid =? pid)
      then print 1 (line (str "zombie!")) ;~ init_reap fuel pid
      else Done tt
  end.

(** [for(;;)], [rounds] times. *)
Fixpoint init_loop (fuel rounds : nat) : prog unit :=
  match rounds with
  | O => Done tt
  | S rounds =>
      print 1 (line (str "init: starting sh")) ;~
      pid <~ do Cfork ;
      if pid <? 0 then print 1 (line (str "init: fork failed")) ;~ Exit
      else if pid =? 0 then
        do (Cexec (str "sh") [str "sh"]) ;~
        print 1 (line (str "init: exec sh failed")) ;~
        Exit
      else init_reap fuel pid ;~ init_loop fuel rounds
  end.
Definition init_main (fuel rounds : nat) : prog unit :=
  fd <~ do (Copen (str "console") O_RDWR) ;
  (if fd <? 0 then do (Cmknod (str "console") 1 1) ;~ do (Copen (str "console") O_RDWR) else Done fd) ;~
  do (Cdup 0) ;~
  do (Cdup 0) ;~
  init_loop fuel rounds.

(** ** sh.c: [getcmd] and [main] *)

(** [input] is what [read] will deliver to the shell; the result is the buffer
    as a C string after [gets], and the rest of the input. *)
Definition getcmd (input : list Z) : prog (list Z * list Z) :=
  print 2 (str "$ ") ;~
  Done (let '(m, rest) := Ulib.gets (fun _ => 0) 0 200 input in (cstr_n m 0 200, rest)).

(** [while((fd = open("console", O_RDWR)) >= 0)]. *)
Fixpoint open_three (fuel : nat) : prog unit :=
  match fuel with
  | O => Undefined
  | S fuel =>
      fd <~ do (Copen (str "console") O_RDWR) ;
      if fd <? 0 then Done tt
      else if 3 <=? fd then do (Cclose fd) ;~ Done tt
      else open_three fuel
  end.

Definition sh_panic (t : list Z) : prog unit := print 2 (line t) ;~ Exit.

(** The command a child runs is [runcmd(parsecmd(buf))]. *)
Fixpoint sh_loop (fuel : nat) (input : list Z) : prog unit :=
  match fuel with
  | O => Undefined
  | S fuel =>
      r <~ getcmd input ;
      let '(buf, rest) := r in
      match buf with
      | [] => Exit
      | _ =>
          if decide (take 3 buf = str "cd ") then
            let path := drop 3 (take (length buf - 1) buf) in
            r <~ do (Cchdir path) ;
            (if r <? 0 then print 2 (line (str "cannot cd " ++ path)) else Done 0) ;~
            sh_loop fuel rest
          else
            pid <~ do Cfork ;
            if pid =? -1 then sh_panic (str "fork")
            else if pid =? 0 then do (Cruncmd buf) ;~ Exit
            else do Cwait ;~ sh_loop fuel rest
      end
  end.
Definition sh_main (fuel : nat) (input : list Z) : prog unit := open_three 4 ;~ sh_loop fuel input.

(** ** Runs *)

Inductive ending A := Returned (a : A) | Exited | Undef.
Arguments Returned {A}.
Arguments Exited {A}.
Arguments Undef {A}.

(** The run of a program against [os]: the calls with their results, how it
    ends, and the last state. *)
Fixpoint run {St A} (os : St -> call -> Z * St) (p : prog A) (s : St) : list (call * Z) * ending A * St :=
  match p with
  | Done a => ([], Returned a, s)
  | Exit => ([], Exited, s)
  | Undefined => ([], Undef, s)
  | Call c k =>
      let '(r, s1) := os s c in
      let '(tr, e, s2) := run os (k r) s1 in
      ((c, r) :: tr, e, s2)
  end.

(** The calls of a run, messages apart. *)
Definition is_message (c : call) : bool := match c with Cprintf _ _ => true | _ => false end.
Definition calls (tr : list (call * Z)) : list call := filter (fun c => is_message c = false) (fst <$> tr).

Lemma calls_cons c r tr : calls ((c, r) :: tr) = (if is_message c then [] else [c]) ++ calls tr.
Proof. unfold calls. cbn [fmap list_fmap fst]. rewrite filter_cons. by destruct (is_message c). Qed.

Lemma calls_app tr tr' : calls (tr ++ tr') = calls tr ++ calls tr'.
Proof. unfold calls. by rewrite fmap_app, filter_app. Qed.

Section Runs.
Context {St : Type} (os : St -> call -> Z * St).

Lemma run_call {A} c (k : Z -> prog A) s r s1 tr e s2 :
  os s c = (r, s1) -> run os (k r) s1 = (tr, e, s2) ->
  run os (Call c k) s = ((c, r) :: tr, e, s2).
Proof. intros E R. cbn. by rewrite E, R. Qed.

(** A run goes on from where the first part of the program returns. *)
Lemma run_bind {A B} (p : prog A) (f : A -> prog B) : forall s tr a s1 tr' e s2,
  run os p s = (tr, Returned a, s1) -> run os (f a) s1 = (tr', e, s2) ->
  run os (pbind p f) s = (tr ++ tr', e, s2).
Proof.
  induction p as [a0 | | c k IH | ]; intros s tr a s1 tr' e s2 R R'; cbn in *; [by simplify_eq.. | | done].
  destruct (os s c) as [r t] eqn:O. destruct (run os (k r) t) as [[tr1 e1] t1] eqn:R1.
  injection R as <- -> ->. by rewrite (IH r t _ _ _ _ _ _ R1 R').
Qed.

Lemma run_bind_exit {A B} (p : prog A) (f : A -> prog B) : forall s tr s1,
  run os p s = (tr, Exited, s1) -> run os (pbind p f) s = (tr, Exited, s1).
Proof.
  induction p as [a0 | | c k IH | ]; intros s tr s1 R; cbn in *; [by simplify_eq.. | | done].
  destruct (os s c) as [r t] eqn:O. destruct (run os (k r) t) as [[tr1 e1] t1] eqn:R1.
  injection R as <- -> ->. by rewrite (IH r t _ _ R1).
Qed.

Lemma run_bind_end {A} (p : prog A) : forall s tr a s1,
  run os p s = (tr, Returned a, s1) -> run os (pbind p (fun _ => Exit (A := unit))) s = (tr, Exited, s1).
Proof. intros s tr a s1 R. rewrite <- (app_nil_r tr). by eapply run_bind. Qed.

(** [stat] closes the descriptor it opens, and gives [fstat]'s result. *)
Theorem stat_closes n s :
  exists fd s1, os s (Copen n O_RDONLY) = (fd, s1) /\
  if fd <? 0 then run os (user_stat n) s = ([(Copen n O_RDONLY, fd)], Returned (-1), s1)
  else exists r s2 c s3, os s1 (Cfstat fd) = (r, s2) /\ os s2 (Cclose fd) = (c, s3) /\
    run os (user_stat n) s = ([(Copen n O_RDONLY, fd); (Cfstat fd, r); (Cclose fd, c)], Returned r, s3).
Proof.
  destruct (os s (Copen n O_RDONLY)) as [fd s1] eqn:O. exists fd, s1. split; [done|].
  destruct (fd <? 0) eqn:N.
  - eapply run_call; [exact O|]. by rewrite N.
  - destruct (os s1 (Cfstat fd)) as [r s2] eqn:F. destruct (os s2 (Cclose fd)) as [c s3] eqn:C.
    exists r, s2, c, s3. split_and!; [done..|]. eapply run_call; [exact O|]. rewrite N. cbn. by rewrite F, C.
Qed.

(** The calls of a loop that stops, with a message, at the first failure. *)
Definition until_failure (call_of : list Z -> call) (tr : list (call * Z)) (args : list (list Z)) (msg : list Z -> list Z) : Prop :=
  exists done rest rs,
    args = done ++ rest /\ Forall (fun r => 0 <= r) rs /\ length rs = length done /\
    match rest with
    | [] => tr = zip (call_of <$> done) rs
    | a :: _ => exists r q, r < 0 /\ tr = zip (call_of <$> done) rs ++ [(call_of a, r); (Cprintf 2 (msg a), q)]
    end.

Lemma until_failure_cons call_of tr a args msg r :
  0 <= r -> until_failure call_of tr args msg -> until_failure call_of ((call_of a, r) :: tr) (a :: args) msg.
Proof.
  intros R (d & rest & rs & -> & F & L & T). exists (a :: d), rest, (r :: rs).
  split_and!; [done | by constructor | cbn; lia |].
  destruct rest as [|b rest]; [by subst tr|]. destruct T as (r' & q & N & ->). by exists r', q.
Qed.

Definition rm_msg (a : list Z) : list Z := line (str "rm: " ++ a ++ str " failed to delete").
Definition mkdir_msg (a : list Z) : list Z := line (str "mkdir: " ++ a ++ str " failed to create").

Lemma rm_loop_runs args : forall s, exists tr s1,
  run os (rm_loop args) s = (tr, Returned tt, s1) /\ until_failure Cunlink tr args rm_msg.
Proof.
  induction args as [|a args IH]; intros s.
  - exists [], s. split; [done|]. by exists [], [], [].
  - cbn. destruct (os s (Cunlink a)) as [r s1]. destruct (r <? 0) eqn:N.
    + cbn. destruct (os s1 _) as [q s2] eqn:O. eexists _, _. split; [done|].
      exists [], (a :: args), []. split_and!; [done..|]. exists r, q. split; [lia | done].
    + destruct (IH s1) as (tr & s2 & R & U). rewrite R. eexists _, _. split; [done|].
      apply until_failure_cons; [lia | exact U].
Qed.

Lemma mkdir_loop_runs args : forall s, exists tr s1,
  run os (mkdir_loop args) s = (tr, Returned tt, s1) /\ until_failure Cmkdir tr args mkdir_msg.
Proof.
  induction args as [|a args IH]; intros s.
  - exists [], s. split; [done|]. by exists [], [], [].
  - cbn. destruct (os s (Cmkdir a)) as [r s1]. destruct (r <? 0) eqn:N.
    + cbn. destruct (os s1 _) as [q s2] eqn:O. eexists _, _. split; [done|].
      exists [], (a :: args), []. split_and!; [done..|]. exists r, q. split; [lia | done].
    + destruct (IH s1) as (tr & s2 & R & U). rewrite R. eexists _, _. split; [done|].
      apply until_failure_cons; [lia | exact U].
Qed.

(** rm and mkdir, whatever the kernel answers, go through their arguments in
    order, stop at the first failure with a message naming it, and exit. *)
Theorem rm_mkdir_stop_at_failure a args s :
  (exists tr s1, run os (rm_main (a :: args)) s = (tr, Exited, s1) /\ until_failure Cunlink tr (a :: args) rm_msg) /\
  (exists tr s1, run os (mkdir_main (a :: args)) s = (tr, Exited, s1) /\ until_failure Cmkdir tr (a :: args) mkdir_msg).
Proof.
  split.
  - destruct (rm_loop_runs (a :: args) s) as (tr & s1 & R & U). exists tr, s1. split; [|done].
    exact (run_bind_end _ _ _ _ _ R).
  - destruct (mkdir_loop_runs (a :: args) s) as (tr & s1 & R & U). exists tr, s1. split; [|done].
    exact (run_bind_end _ _ _ _ _ R).
Qed.

(** The high-priority child of priorInv says it obtained the lock and releases
    it, but asks for it in no run. *)
Theorem priorInv_child_never_locks s :
  exists r0 r1 r2 r3 s1,
    run os runHP s =
      ([(Cprintf 1 (line (str "Starting High Priority Process")), r0); (Csleep 500, r1);
        (Cprintf 1 (line (str "High Priority Process obtained lock 1")), r2); (Cfunlock 1, r3)], Exited, s1).
Proof.
  unfold runHP, print, do. cbn [pbind run].
  destruct (os s _) as [r0 s0]. destruct (os s0 _) as [r1 s1]. destruct (os s1 _) as [r2 s2] eqn:O.
  destruct (os s2 _) as [r3 s3]. by exists r0, r1, r2, r3, s3.
Qed.

(** ps prints one line for each process the kernel reported. *)
Lemma ps_loop_prints n : forall array s,
  (n <= length array)%nat -> Forall (fun p => is_Some (states (pi_state p))) array ->
  exists tr s1, run os (ps_loop n array) s = (tr, Returned tt, s1) /\
    fst <$> tr = (fun p => Cprintf 1 (ps_line p (default [] (states (pi_state p))))) <$> take n array.
Proof.
  induction n as [|n IH]; intros [|p array] s L F; cbn in L; [by eexists _, _.. | lia |].
  inversion F as [|? ? [st E] F']; subst. cbn [ps_loop]. rewrite E. cbn [print do pbind run].
  destruct (os s _) as [r s0]. destruct (IH array s0 ltac:(lia) F') as (tr & s1 & -> & T).
  eexists _, _. split; [reflexivity|]. cbn [take fmap list_fmap fst]. rewrite E. cbn [default]. by f_equal.
Qed.

Theorem ps_prints_processes array s n s0 :
  os s (Cps 1024) = (n, s0) -> 0 <= n <= Z.of_nat (length array) ->
  Forall (fun p => is_Some (states (pi_state p))) array ->
  exists tr s1, run os (ps_main array) s = ((Cps 1024, n) :: tr, Exited, s1) /\
    fst <$> tr = (fun p => Cprintf 1 (ps_line p (default [] (states (pi_state p))))) <$> take (Z.to_nat n) array.
Proof.
  intros O N F. destruct (ps_loop_prints (Z.to_nat n) array s0 ltac:(lia) F) as (tr & s1 & R & T).
  exists tr, s1. split; [|exact T]. eapply run_call; [exact O|]. exact (run_bind_end _ _ _ _ _ R).
Qed.

Lemma repeat_call_runs c k : is_message c = false -> forall s, exists tr s1,
  run os (repeat_call k c) s = (tr, Returned tt, s1) /\ calls tr = replicate k c.
Proof.
  intros M. induction k as [|k IH]; intros s; [by eexists _, _|].
  cbn [repeat_call do pbind run]. destruct (os s c) as [r s0]. destruct (IH s0) as (tr & s1 & -> & T).
  eexists _, _. split; [reflexivity|]. by rewrite calls_cons, M, T.
Qed.

Lemma stress_fork_runs k : forall i s, exists j tr s1,
  run os (stress_fork k i) s = (tr, Returned (i + Z.of_nat j), s1) /\ (j <= k)%nat /\
  calls tr = replicate (S j `min` k) Cfork.
Proof.
  induction k as [|k IH]; intros i s.
  - exists O, [], s. split_and!; [by rewrite Z.add_0_r | lia | done].
  - cbn [stress_fork do pbind run]. destruct (os s Cfork) as [pid s0]. destruct (0 <? pid).
    + exists O, [(Cfork, pid)], s0. split_and!; [by rewrite Z.add_0_r | lia | done].
    + destruct (IH (i + 1) s0) as (j & tr & s1 & -> & J & T). exists (S j). eexists _, _.
      replace (i + Z.of_nat (S j)) with (i + 1 + Z.of_nat j) by lia.
      split; [reflexivity|]. split; [lia|]. rewrite calls_cons, T. reflexivity.
Qed.

(** Each process of stressfs has a file of its own, named after the number of
    forks before it: it writes twenty blocks there and reads them back. *)
Theorem stressfs_calls s :
  exists (j : nat) tr s1 fd fd',
    let path := str "stressfs" ++ [48 + Z.of_nat j] in
    (j <= 4)%nat /\ run os stressfs_main s = (tr, Exited, s1) /\
    calls tr = replicate (S j `min` 4) Cfork ++
      Copen path (Z.lor O_CREATE O_RDWR) :: replicate 20 (Cwrite fd (replicate 512 97)) ++
      Cclose fd :: Copen path O_RDONLY :: replicate 20 (Cread fd' 512) ++ [Cclose fd'; Cwait].
Proof.
  unfold stressfs_main. cbn [print do pbind run]. destruct (os s _) as [r0 s0].
  destruct (stress_fork_runs 4 0 s0) as (j & tr1 & s1 & R1 & J & T1). rewrite Z.add_0_l in R1.
  destruct (os s1 (Cprintf 1 (line (str "write " ++ int_text (Z.of_nat j) 10 true)))) as [r1 s2] eqn:O1.
  destruct (os s2 (Copen (str "stressfs" ++ [48 + Z.of_nat j]) (Z.lor O_CREATE O_RDWR))) as [fd s3] eqn:O2.
  destruct (repeat_call_runs (Cwrite fd (replicate 512 97)) 20 eq_refl s3) as (tr2 & s4 & R2 & T2).
  destruct (os s4 (Cclose fd)) as [r2 s5] eqn:O3. destruct (os s5 (Cprintf 1 (line (str "read")))) as [r3 s6] eqn:O4.
  destruct (os s6 (Copen (str "stressfs" ++ [48 + Z.of_nat j]) O_RDONLY)) as [fd' s7] eqn:O5.
  destruct (repeat_call_runs (Cread fd' 512) 20 eq_refl s7) as (tr3 & s8 & R3 & T3).
  destruct (os s8 (Cclose fd')) as [r4 s9] eqn:O6. destruct (os s9 Cwait) as [r5 s10] eqn:O7.
  exists j. eexists _, _, fd, fd'. cbv zeta. split; [exact J|]. split.
  - erewrite run_bind; [reflexivity | exact R1|].
    do 2 (eapply run_call; [eassumption|]; cbv beta). eapply run_bind; [exact R2|].
    do 3 (eapply run_call; [eassumption|]; cbv beta). eapply run_bind; [exact R3|].
    do 2 (eapply run_call; [eassumption|]; cbv beta). reflexivity.
  - rewrite calls_cons, calls_app, !calls_cons, calls_app, !calls_cons, calls_app, !calls_cons, T1, T2, T3. reflexivity.
Qed.
End Runs.

(** ** longRunner *)

Lemma count_inner_adds j : forall c, 0 <= c -> c + Z.of_nat j < 2 ^ 31 -> count_inner j c = Some (c + Z.of_nat j).
Proof.
  induction j as [|j IH]; intros c C B; [f_equal; cbn; lia|]. cbn [count_inner].
  rewrite (proj2 (Z.ltb_lt _ _)) by lia. rewrite IH by lia. f_equal. lia.
Qed.

Lemma count_outer_adds j i : forall c,
  0 <= c -> c + Z.of_nat i * Z.of_nat j < 2 ^ 31 -> count_outer i j c = Some (c + Z.of_nat i * Z.of_nat j).
Proof.
  induction i as [|i IH]; intros c C B; [f_equal; lia|]. cbn [count_outer].
  rewrite count_inner_adds by nia. rewrite IH by nia. f_equal. nia.
Qed.

Lemma loop_adds n c : 0 <= c -> c + 16777216 * (Z.of_nat n * Z.of_nat n) < 2 ^ 31 ->
  loop n c = Some (c + 16777216 * (Z.of_nat n * Z.of_nat n)).
Proof. intros C B. unfold loop. rewrite count_outer_adds; rewrite ?Nat2Z.inj_mul; [f_equal| |]; lia. Qed.

Lemma longRunner_loop_step j c c' :
  loop (S j) c = Some c' -> longRunner_loop (S j) c = longRunner_loop j c'.
Proof. intros E. cbn [longRunner_loop]. by rewrite E. Qed.

Lemma longRunner_loop_3 : longRunner_loop 3 0 = Some 234881024.
Proof.
  rewrite (longRunner_loop_step 2 0 150994944) by (rewrite loop_adds by lia; f_equal; lia).
  rewrite (longRunner_loop_step 1 150994944 218103808) by (rewrite loop_adds by lia; f_equal; lia).
  rewrite (longRunner_loop_step 0 218103808 234881024) by (rewrite loop_adds by lia; f_equal; lia).
  reflexivity.
Qed.

(** longRunner counts to 234881024 without overflowing [int], and exits. *)
Theorem longRunner_counts : longRunner_loop 3 0 = Some 234881024 /\ longRunner_main 3 = Exit.
Proof. unfold longRunner_main. rewrite longRunner_loop_3. split; reflexivity. Qed.

(** ** forktest against a table of processes *)

(** A kernel with room for [cap] more processes, as the parent sees it: the
    state is the number of its children. *)
Definition table_os (cap : nat) (children : nat) (c : call) : Z * nat :=
  match c with
  | Cfork => if decide (children < cap)%nat then (Z.of_nat (S children), S children) else (-1, children)
  | Cwait => match children with O => (-1, O) | S n => (Z.of_nat children, n) end
  | Cwrite _ data => (Z.of_nat (length data), children)
  | _ => (0, children)
  end.

Lemma fork_loop_fills cap k : forall n,
  (n <= cap)%nat -> (cap - n < k)%nat ->
  exists tr, run (table_os cap) (fork_loop k (Z.of_nat n)) n = (tr, Returned (Z.of_nat cap), cap).
Proof.
  induction k as [|k IH]; intros n N K; [lia|].
  cbn [fork_loop pbind do run]. cbn [table_os]. destruct (decide (n < cap)%nat) as [L|L].
  - rewrite (proj2 (Z.ltb_ge _ _)) by lia. rewrite (proj2 (Z.eqb_neq _ _)) by lia.
    replace (Z.of_nat n + 1) with (Z.of_nat (S n)) by lia.
    destruct (IH (S n) ltac:(lia) ltac:(lia)) as (tr & R). rewrite R. by eexists.
  - assert (n = cap) as -> by lia. by eexists.
Qed.

Lemma collect_loop_runs cap n : exists tr, run (table_os cap) (collect_loop n) n = (tr, Returned tt, O).
Proof.
  induction n as [|n (tr & R)]; [by eexists|].
  cbn [collect_loop pbind do run]. cbn [table_os]. rewrite (proj2 (Z.ltb_ge _ _)) by lia.
  rewrite R. by eexists.
Qed.

(** forktest ends with its message of success on every kernel that refuses a
    fork before the thousandth and lets each child be waited for once. *)
Theorem forktest_passes cap :
  (cap < 1000)%nat ->
  exists tr, run (table_os cap) forktest_main O =
    (tr ++ [(Cwait, -1); (Cwrite 1 (line (str "fork test OK")), 13)], Exited, O).
Proof.
  intros C. destruct (fork_loop_fills cap 1000 0 ltac:(lia) ltac:(lia)) as (tr1 & R1).
  destruct (collect_loop_runs cap cap) as (tr2 & R2).
  exists ((Cwrite 1 (line (str "fork test")), 10) :: tr1 ++ tr2).
  apply (run_bind_end _ _ _ _ tt). cbn [app]. rewrite <- app_assoc.
  eapply run_call; [done|]. eapply run_bind; [exact R1|]. cbv beta.
  rewrite (proj2 (Z.eqb_neq _ _)) by lia. rewrite Nat2Z.id.
  eapply run_bind; [exact R2|]. reflexivity.
Qed.

(** ** init *)

(** A kernel that answers from a list. *)
Definition replies (l : list Z) (_ : call) : Z * list Z := (hd 0 l, tl l).

(** The answers to [wait] and [printf] while children other than the shell end. *)
Definition reaped (zs : list Z) : list Z := zs ≫= fun z => [z; 0].
Definition reap_trace (zs : list Z) : list (call * Z) := zs ≫= fun z => [(Cwait, z); (Cprintf 1 (line (str "zombie!")), 0)].

Lemma init_reap_runs zs pid rest : forall fuel,
  0 <= pid -> Forall (fun z => 0 <= z /\ z ≠ pid) zs -> (length zs < fuel)%nat ->
  run replies (init_reap fuel pid) (reaped zs ++ pid :: rest) = (reap_trace zs ++ [(Cwait, pid)], Returned tt, rest).
Proof.
  induction zs as [|z zs IH]; intros [|fuel] P F L; cbn in L; [lia | | lia |].
  - cbn. rewrite Z.eqb_refl, andb_false_r. reflexivity.
  - inversion F as [|? ? [Z1 Z2] F']; subst.
    change (reaped (z :: zs) ++ pid :: rest) with (z :: 0 :: reaped zs ++ pid :: rest).
    change (reap_trace (z :: zs) ++ [(Cwait, pid)])
      with ((Cwait, z) :: (Cprintf 1 (line (str "zombie!")), 0) :: reap_trace zs ++ [(Cwait, pid)]).
    cbn [init_reap]. eapply run_call; [reflexivity|]. cbn [hd tl pbind do print].
    rewrite (proj2 (Z.leb_le _ _)) by lia. rewrite (proj2 (Z.eqb_neq _ _)) by done. cbn [negb andb].
    eapply run_call; [reflexivity|]. by apply IH; [..|lia].
Qed.

(** One round of init: it starts a shell, reaps every other child that ends
    meanwhile, saying so, and begins the next round only when the shell itself
    has ended. *)
Theorem init_restarts_shell fuel rounds pid zs q rest tr e s :
  0 < pid -> Forall (fun z => 0 <= z /\ z ≠ pid) zs -> (length zs < fuel)%nat ->
  run replies (init_loop fuel rounds) rest = (tr, e, s) ->
  run replies (init_loop fuel (S rounds)) (q :: pid :: reaped zs ++ pid :: rest) =
    ((Cprintf 1 (line (str "init: starting sh")), q) :: (Cfork, pid) :: (reap_trace zs ++ [(Cwait, pid)]) ++ tr, e, s).
Proof.
  intros P F L R. cbn [init_loop]. eapply run_call; [reflexivity|]. eapply run_call; [reflexivity|].
  cbn [hd tl pbind]. rewrite (proj2 (Z.ltb_ge _ _)) by lia. rewrite (proj2 (Z.eqb_neq _ _)) by lia.
  eapply run_bind; [|exact R]. apply init_reap_runs; [lia | done..].
Qed.

(** ** The prompt loop of the shell *)

Lemma cstr_n_is l : forall m a n,
  (forall i c, l !! i = Some c -> m (a + Z.of_nat i) = c) -> 0 ∉ l ->
  m (a + Z.of_nat (length l)) = 0 -> (length l < n)%nat -> cstr_n m a n = l.
Proof.
  induction l as [|c l IH]; intros m a [|n] M N E L; cbn in L; [lia | | lia |]; cbn [cstr_n].
  - cbn in E. rewrite Z.add_0_r in E. by rewrite E.
  - pose proof (M O c eq_refl) as Mc. rewrite Z.add_0_r in Mc. rewrite Mc.
    rewrite (proj2 (Z.eqb_neq _ _)) by set_solver. f_equal. apply IH; [| set_solver | | lia].
    + intros i d H. rewrite <- (M (S i) d H). f_equal. lia.
    + rewrite <- E. f_equal. cbn. lia.
Qed.

(** A line of text the buffer has room for. *)
Definition text_line (l : list Z) : Prop :=
  Forall (fun c => c ≠ 0 /\ c ≠ 10 /\ c ≠ 13) l /\ (length l <= 198)%nat.

Lemma line_of_line l : forall k rest,
  Forall (fun c => c ≠ 0 /\ c ≠ 10 /\ c ≠ 13) l -> (length l < k)%nat -> Ulib.line_of k (line l ++ rest) = line l.
Proof.
  induction l as [|c l IH]; intros [|k] rest F L; cbn in L; [lia | done | lia |].
  inversion F as [|? ? (N0 & N1 & N2) F']; subst. cbn.
  rewrite (proj2 (Z.eqb_neq c 10)), (proj2 (Z.eqb_neq c 13)) by done. cbn [orb]. f_equal.
  by apply IH; [|lia].
Qed.

Lemma gets_line l rest : text_line l ->
  (let '(m, rest) := Ulib.gets (fun _ => 0) 0 200 (line l ++ rest) in (cstr_n m 0 200, rest)) = (line l, rest).
Proof.
  intros [F L]. unfold Ulib.gets.
  destruct (Ulib.gets_loop_spec (line l ++ rest) (fun _ => 0) 0 0 200 ltac:(lia)) as (m & E & M).
  change (Z.to_nat (200 - 1 - 0)) with 199%nat in E, M. rewrite line_of_line in E, M by (done || lia).
  rewrite E. rewrite drop_app_length. f_equal.
  assert (length (line l) = S (length l)) as Ll by (unfold line; rewrite length_app; cbn; lia).
  apply cstr_n_is.
  - intros i c H. pose proof (lookup_lt_Some _ _ _ H). rewrite upd_other by lia. rewrite M. unfold put_bytes.
    rewrite (proj2 (Z.leb_le _ _)), (proj2 (Z.ltb_lt _ _)) by lia. cbn [andb].
    replace (Z.to_nat (0 + Z.of_nat i - (0 + 0))) with i by lia. by apply nth_lookup_Some.
  - unfold line. rewrite elem_of_app. intros [I0 | I0%list_elem_of_singleton]; [|lia].
    by destruct (proj1 (Forall_forall _ _) F 0 I0).
  - apply upd_same.
  - lia.
Qed.

(** [getcmd] takes one line, with its end, from the input. *)
Lemma getcmd_line l rest : text_line l ->
  getcmd (line l ++ rest) = (print 2 (str "$ ") ;~ Done (line l, rest)).
Proof. intros T. unfold getcmd. by rewrite gets_line. Qed.

Lemma getcmd_eof : getcmd [] = (print 2 (str "$ ") ;~ Done ([], [])).
Proof. reflexivity. Qed.

(** What the shell does for a line, messages apart. *)
Definition line_calls (l : list Z) : list call :=
  if decide (take 3 (line l) = str "cd ") then [Cchdir (drop 3 l)] else [Cfork; Cwait].
Section Shell.
Context {St : Type} (os : St -> call -> Z * St).
Hypothesis fork_works : forall s, 0 < (os s Cfork).1.

Lemma cd_path l : (3 <= length l)%nat -> drop 3 (take (length (line l) - 1) (line l)) = drop 3 l.
Proof.
  intros L. unfold line. rewrite length_app. cbn [length]. rewrite Nat.add_sub. by rewrite take_app_length.
Qed.

(** The shell, on a kernel whose [fork] works, takes its input line by line: a
    [cd] line is a [chdir] of the shell itself, any other runs in a child the
    shell waits for; at the end of the input it exits. *)
Theorem sh_runs_lines lines : forall fuel s,
  Forall text_line lines -> (length lines < fuel)%nat ->
  exists tr s1, run os (sh_loop fuel (lines ≫= line)) s = (tr, Exited, s1) /\ calls tr = lines ≫= line_calls.
Proof.
  induction lines as [|l lines IH]; intros [|fuel] s F L; cbn in L; [lia | | lia |].
  - cbn [mbind list_bind sh_loop]. rewrite getcmd_eof. cbn [print do pbind run].
    destruct (os s _) as [r s1]. eexists _, _. split; reflexivity.
  - inversion F as [|? ? T F']; subst. specialize (IH fuel).
    change ((l :: lines) ≫= line) with (line l ++ (lines ≫= line)).
    change ((l :: lines) ≫= line_calls) with (line_calls l ++ (lines ≫= line_calls)).
    cbn [sh_loop]. rewrite getcmd_line by exact T. cbn [print do pbind run].
    destruct (os s _) as [r0 s0]. unfold line_calls at 1.
    assert (forall X Y : prog unit, match line l with [] => X | _ => Y end = Y) as -> by (by destruct l).
    destruct (decide (take 3 (line l) = str "cd ")) as [C|C].
    + rewrite cd_path by (destruct l as [|? [|? [|? ?]]]; [done.. | cbn; lia]).
      cbn [pbind run]. destruct (os s0 _) as [r1 s1]. destruct (r1 <? 0).
      * cbn [pbind run print do]. destruct (os s1 _) as [r2 s2].
        destruct (IH s2 F' ltac:(lia)) as (tr & s3 & -> & E). eexists _, _. split; [reflexivity|].
        by rewrite !calls_cons, E.
      * destruct (IH s1 F' ltac:(lia)) as (tr & s3 & R & E). cbn [pbind]. rewrite R. eexists _, _. split; [reflexivity|].
        by rewrite !calls_cons, E.
    + cbn [pbind run]. pose proof (fork_works s0) as W. destruct (os s0 Cfork) as [pid s1]. cbn [fst] in W.
      rewrite (proj2 (Z.eqb_neq pid (-1))), (proj2 (Z.eqb_neq pid 0)) by lia.
      cbn [pbind run]. destruct (os s1 Cwait) as [r2 s2].
      destruct (IH s2 F' ltac:(lia)) as (tr & s3 & -> & E). eexists _, _. split; [reflexivity|].
      by rewrite !calls_cons, E.
Qed.
End Shell.

(** The [cd] of a last line without an end loses the last character of the
    directory's name. *)
Theorem cd_without_newline_chops :
  (run replies (sh_loop 2 (str "cd ab")) []).1.1 =
    [(Cprintf 2 (str "$ "), 0); (Cchdir (str "a"), 0); (Cprintf 2 (str "$ "), 0)].
Proof. reflexivity. Qed.
