(* ===== verification/Start.v ===== *)
(** main.c [startothers]: the boot processor starts the others, one at a time.

    It runs over the page allocator and the devices, which share one memory.
    The other processors are hardware and assembly: when [c->started] becomes
    true is up to them. *)

From stdpp Require Import base numbers list strings.
From S2P Require Import Xv6 Prelude Kstring Kalloc.
From S2P Require Import Apic.

(** [looks] counts the reads of [c->started]. *)
Record start := Start { st_kmem : kmem; st_pc : pc; looks : nat }.

Definition set_ram (m : mem) (s : start) : start :=
  Start (Kmem (use_lock (st_kmem s)) (freelist (st_kmem s)) m) (st_pc s) (looks s).
Definition st_ram (s : start) : mem := ram (st_kmem s).

Definition on_kmem {A} : M kmem A -> M start A := zoom st_kmem (fun k s => Start k (st_pc s) (looks s)).
Definition on_pc {A} : M pc A -> M start A :=
  zoom (fun s => set_pc_ram (st_ram s) (st_pc s)) (fun p s => set_ram (pc_ram p) (Start (st_kmem s) p (looks s))).

Section startothers.
Context {H : Hardware}.
(** The value of [cpus[c].started] at the [t]-th look. *)
Context (started : nat -> nat -> Z).
(** The linker's [end], [_binary_entryother_start] and [_binary_entryother_size],
    and the addresses of [mpenter] and [entrypgdir]. *)
Context (end_ entryother size mpenter entrypgdir : Z).

Definition code : Z := KERNBASE + 0x7000.

(** [while(c->started == 0);]. *)
Fixpoint wait_started (fuel c : nat) : M start unit :=
  s <- get ;;
  put (Start (st_kmem s) (st_pc s) (S (looks s))) ;;
  if negb (started (looks s) c =? 0) then ret tt
  else match fuel with
  | O => undef "startothers: still waiting"
  | S fuel => wait_started fuel c
  end.

(** The body of the loop for a processor other than this one. *)
Definition start_one (fuel c : nat) (apicid : Z) : M start unit :=
  stack <- on_kmem kalloc ;;
  modify (fun s => set_ram (store32 (st_ram s) (code - 4) (u32 (stack + KSTACKSIZE))) s) ;;
  modify (fun s => set_ram (store32 (st_ram s) (code - 8) mpenter) s) ;;
  modify (fun s => set_ram (store32 (st_ram s) (code - 12) (V2P entrypgdir)) s) ;;
  on_pc (lapicstartap apicid (V2P code)) ;;
  wait_started fuel c.

(** [for(c = cpus; c < cpus+ncpu; c++)], the turns from [c] on; [me] is the
    processor that runs it. *)
Fixpoint start_loop (fuel me c : nat) (apicids : list Z) : M start unit :=
  match apicids with
  | [] => ret tt
  | apicid :: apicids =>
      (if decide (c = me) then ret tt else start_one fuel c apicid) ;;
      start_loop fuel me (S c) apicids
  end.

Definition startothers (fuel me : nat) (apicids : list Z) : M start unit :=
  modify (fun s => set_ram (memmove (st_ram s) code entryother size) s) ;;
  start_loop fuel me O apicids.

(** ** What a started processor finds *)

(** The messages [lapicstartap] sends. *)
Definition messages (apicid : Z) : list (Z * Z) :=
  [(ICRHI, apicid * 2 ^ 24); (ICRLO, INIT + LEVEL + ASSERT); (ICRLO, INIT + LEVEL);
   (ICRHI, apicid * 2 ^ 24); (ICRLO, STARTUP + 7); (ICRHI, apicid * 2 ^ 24); (ICRLO, STARTUP + 7)].

(** [image] is at [code]. *)
Definition entry_code (image : Z -> Z) (m : mem) : Prop := forall i, 0 <= i < size -> m (code + i) = image i.

(** The processor [apicid] has been sent to the entry code at 0x7000, with the
    top of the page [stack] as its stack, [mpenter] to call and the boot page
    directory in the words below it. *)
Definition launched (image : Z -> Z) (apicid stack : Z) (s s' : start) : Prop :=
  lapic_writes (st_pc s') = lapic_writes (st_pc s) ++ messages apicid /\
  reset_vector (st_ram s') = 0x7000 /\
  load32 (st_ram s') (code - 4) = stack + KSTACKSIZE /\
  load32 (st_ram s') (code - 8) = mpenter /\
  load32 (st_ram s') (code - 12) = V2P entrypgdir /\
  entry_code image (st_ram s').

(** The processors started in turn, each on its own page. *)
Fixpoint all_launched (image : Z -> Z) (apicids stacks : list Z) (s s' : start) : Prop :=
  match apicids, stacks with
  | [], [] => s = s'
  | a :: apicids, v :: stacks => exists s1, launched image a v s s1 /\ all_launched image apicids stacks s1 s'
  | _, _ => False
  end.

(** The processors from [c] on, without [me]. *)
Fixpoint others (me c : nat) (apicids : list Z) : list Z :=
  match apicids with
  | [] => []
  | a :: apicids => (if decide (c = me) then [] else [a]) ++ others me (S c) apicids
  end.

(** A processor is seen started within [fuel] looks. *)
Definition comes_up (fuel c : nat) : Prop := forall t, exists k, (k <= fuel)%nat /\ started (t + k) c ≠ 0.

Lemma wait_started_runs fuel c cx : forall s,
  (exists k, (k <= fuel)%nat /\ started (looks s + k) c ≠ 0) ->
  exists n, wait_started fuel c cx s = Ret tt cx (Start (st_kmem s) (st_pc s) n).
Proof.
  induction fuel as [|fuel IH]; intros s (k & K & U); cbn [wait_started]; mrun; cbn [looks st_kmem st_pc].
  - assert (k = O) as -> by lia. rewrite Nat.add_0_r in U. rewrite (proj2 (Z.eqb_neq _ _)) by done. by eexists.
  - destruct (Z.eqb_spec (started (looks s) c) 0) as [E|E]; cbn [negb]; [|by eexists].
    destruct k as [|k]; [by rewrite Nat.add_0_r in U|].
    destruct (IH (Start (st_kmem s) (st_pc s) (S (looks s)))) as (n & ->); [|by exists n].
    exists k. split; [lia|]. cbn [looks]. by replace (S (looks s) + k)%nat with (looks s + S k)%nat by lia.
Qed.

(** The free list lies above the kernel. *)
Lemma linked_below m m' r l :
  (forall x, end_ <= x -> m' x = m x) -> linked end_ m r l -> linked end_ m' r l.
Proof.
  intros E. revert r. induction l as [|v l IH]; intros r; [done|]. intros (-> & P & L).
  split; [done|]. split; [done|]. rewrite (load32_ext m' m v); [by apply IH|].
  intros x X. apply E. destruct P as (_ & ? & _). lia.
Qed.

Lemma load32_store_apart m a b v : a + 4 <= b \/ b + 4 <= a -> load32 (store32 m a v) b = load32 m b.
Proof. intros A. apply load32_ext. intros x X. apply store32_other. lia. Qed.

(** The kernel starts behind the entry code; the values of the words fit. *)
Hypothesis end_above : code + 0x1000 <= end_.
Hypothesis size_fits : 0 <= size <= 0x1000.
Hypothesis mpenter_word : 0 <= mpenter < 2 ^ 32.

Lemma V2P_code : V2P code = 0x7000.
Proof. reflexivity. Qed.

Definition pokes (stack : Z) (m : mem) : mem :=
  store32 (store32 (store32 m (code - 4) (u32 (stack + KSTACKSIZE))) (code - 8) mpenter) (code - 12) (V2P entrypgdir).

Lemma pokes_loads stack m : 0 <= stack + KSTACKSIZE < 2 ^ 32 ->
  load32 (pokes stack m) (code - 4) = stack + KSTACKSIZE /\
  load32 (pokes stack m) (code - 8) = mpenter /\ load32 (pokes stack m) (code - 12) = V2P entrypgdir.
Proof.
  intros B. assert (0 <= V2P entrypgdir < 2 ^ 32) by (unfold V2P; word_lia). unfold pokes. split_and!.
  - rewrite !load32_store_apart by lia. rewrite load32_store32; rewrite u32_small by lia; lia.
  - rewrite load32_store_apart by lia. by rewrite load32_store32.
  - by rewrite load32_store32.
Qed.

Lemma pokes_other stack m x : ~ (code - 12 <= x < code) -> pokes stack m x = m x.
Proof. intros X. unfold pokes. by rewrite !store32_other by lia. Qed.

(** One processor is started on the first free page. *)
Lemma start_one_runs fuel c apicid image cx v l s :
  represents end_ (st_kmem s) (v :: l) -> Lkmem ∉ held cx -> 0 <= apicid < 256 -> comes_up fuel c ->
  entry_code image (st_ram s) ->
  exists s', start_one fuel c apicid cx s = Ret tt cx s' /\ launched image apicid v s s' /\
    represents end_ (st_kmem s') l /\ entry_code image (st_ram s').
Proof.
  intros R Hh Ha Hc He. destruct cx as [t h w]. cbn [held] in Hh. unfold start_one.
  destruct (kalloc_runs end_ t h w (st_kmem s) (v :: l) R Hh) as (k & K & Rk & Mk & _). change (default 0 (head (v :: l))) with v in K. cbn [tail] in Rk.
  assert (page end_ v) as Pv by (destruct R as [(_ & P & _) _]; exact P).
  erewrite bind_Ret by (unfold on_kmem, zoom; rewrite K; reflexivity). do 3 mstep.
  pose (s0 := set_ram (pokes v (st_ram s)) (Start k (st_pc s) (looks s))).
  match goal with |- context [bind _ _ _ ?S0] => replace S0 with s0 end.
  2: { unfold s0, pokes, set_ram, st_ram. cbn. by rewrite Mk. }
  destruct (lapicstartap_starts apicid 0x7000 (Ctx t h w) (set_pc_ram (st_ram s0) (st_pc s0)) Ha ltac:(lia) eq_refl)
    as (p & Ep & Vp & Fp & _ & Wp).
  erewrite bind_Ret by (unfold on_pc, zoom; rewrite V2P_code, Ep; reflexivity).
  match goal with |- context [wait_started _ _ _ ?S1] => set (s1 := S1) end.
  destruct (wait_started_runs fuel c (Ctx t h w) s1 (Hc _)) as (n & ->).
  eexists. split; [reflexivity|].
  assert (forall x, ~ (KERNBASE + 0x467 <= x < KERNBASE + 0x46b) -> ~ (code - 12 <= x < code) -> pc_ram p x = st_ram s x) as F.
  { intros x X1 X2. rewrite Fp by exact X1. cbn. by apply pokes_other. }
  assert (entry_code image (pc_ram p)) as Ec.
  { intros i I. rewrite F by (unfold code, KERNBASE; lia). by apply He. }
  assert (forall a, code - 12 <= a -> a + 4 <= code -> load32 (pc_ram p) a = load32 (pokes v (st_ram s)) a) as L.
  { intros a A1 A2. apply load32_ext. intros x X. rewrite Fp by (unfold code, KERNBASE in *; lia). reflexivity. }
  destruct (pokes_loads v (st_ram s)) as (L4 & L8 & L12).
  { destruct Pv as (_ & _ & P). unfold KERNBASE, PHYSTOP, KSTACKSIZE in *. lia. }
  split; [|split; [|exact Ec]].
  - unfold launched. cbn [st_pc st_ram st_kmem ram s1 set_ram]. rewrite !L by lia. split_and!; [exact Wp | exact Vp | done..].
  - destruct Rk as [Lk Nk]. split; [|exact Nk]. cbn. eapply linked_below; [|exact Lk].
    intros x X. rewrite Mk. apply F; unfold code, KERNBASE in *; lia.
Qed.

Lemma start_loop_runs fuel me image cx apicids : forall c l s,
  represents end_ (st_kmem s) l -> Lkmem ∉ held cx -> Forall (fun a => 0 <= a < 256) apicids ->
  (forall i, comes_up fuel i) -> entry_code image (st_ram s) -> (length (others me c apicids) <= length l)%nat ->
  let n := length (others me c apicids) in
  exists s', start_loop fuel me c apicids cx s = Ret tt cx s' /\
    all_launched image (others me c apicids) (take n l) s s' /\ represents end_ (st_kmem s') (drop n l).
Proof.
  induction apicids as [|a apicids IH]; intros c l s R Hh F U Ec L; cbn [start_loop others].
  - exists s. split; [done|]. split; [by rewrite take_0 | by rewrite drop_0].
  - inversion F as [|? ? Fa F']; subst. cbn [others] in L. destruct (decide (c = me)) as [E|E]; cbn [app length] in *.
    + mstep. by apply IH.
    + destruct l as [|v l]; cbn [length] in L; [lia|].
      destruct (start_one_runs fuel c a image cx v l s R Hh Fa (U c) Ec) as (s1 & E1 & L1 & R1 & Ec1).
      erewrite bind_Ret by exact E1.
      destruct (IH (S c) l s1 R1 Hh F' U Ec1 ltac:(lia)) as (s2 & E2 & L2 & R2).
      exists s2. split; [exact E2|]. split; [|exact R2]. cbn [take all_launched]. by exists s1.
Qed.

(** [startothers] starts every processor but the one that runs it, in order:
    each finds the entry code at 0x7000, gets a page of its own as stack and the
    words the entry code reads, and is up before the next one is started. *)
Theorem startothers_starts_all fuel me cx apicids l s :
  represents end_ (st_kmem s) l -> Lkmem ∉ held cx -> Forall (fun a => 0 <= a < 256) apicids ->
  (forall i, comes_up fuel i) -> (length (others me O apicids) <= length l)%nat ->
  let n := length (others me O apicids) in
  let s0 := set_ram (memmove (st_ram s) code entryother size) s in
  exists s', startothers fuel me apicids cx s = Ret tt cx s' /\
    all_launched (fun i => st_ram s (entryother + i)) (others me O apicids) (take n l) s0 s' /\
    represents end_ (st_kmem s') (drop n l) /\ NoDup (take n l).
Proof.
  intros R Hh F U L n s0. unfold startothers. mstep. fold s0.
  destruct (start_loop_runs fuel me (fun i => st_ram s (entryother + i)) cx apicids O l s0) as (s' & E & A & R'); try done.
  - destruct R as [Lk Nd]. split; [|exact Nd]. cbn. eapply linked_below; [|exact Lk].
    intros x X. rewrite memmove_at by lia. destruct (in_range code size x) eqn:I; [|done].
    apply in_range_spec in I. lia.
  - intros i I. cbn. rewrite memmove_at by lia. rewrite (proj2 (in_range_spec _ _ _)) by lia. f_equal. lia.
  - exists s'. split; [exact E|]. split; [exact A|]. split; [exact R'|].
    eapply sublist_NoDup; [apply R | apply sublist_take].
Qed.
End startothers.

(** Two processors and one free page. *)
Module Demo.
#[local] Instance silent : Hardware := { port_in _ _ := 0; lapic_in _ _ := 0; cmos_in _ _ := 0 }.

Definition machine : start :=
  Start (Kmem false 0x80200000 (fun _ => 0)) (Pc 0 [] 0xFEE00000 [] 0 (fun _ => 0) (fun _ => 0) false false []) 0.

Lemma startothers_starts_all_witness : exists s',
  startothers (fun _ _ => 1) 0x80110000 100 0x80103000 0x8010A000 0 0 [0; 1] (Ctx (Thread 0 false) [] []) machine =
    Ret tt (Ctx (Thread 0 false) [] []) s' /\
  load32 (st_ram s') (code - 4) = 0x80201000.
Proof.
  destruct (startothers_starts_all (fun _ _ => 1) 0x80180000 0x80110000 100 0x80103000 0x8010A000
    ltac:(unfold code, KERNBASE; lia) ltac:(lia) ltac:(lia)
    0 0 (Ctx (Thread 0 false) [] []) [0; 1] [0x80200000] machine) as (s' & E & (s1 & L & <-) & _).
  - split; [|apply NoDup_singleton]. cbn. split_and!; [done | | done].
    split; [reflexivity|]. unfold KERNBASE, PHYSTOP. lia.
  - apply not_elem_of_nil.
  - repeat constructor; lia.
  - intros i t. exists O. split; [lia | done].
  - reflexivity.
  - exists s1. split; [exact E|]. apply L.
Defined.
End Demo.
